(* ===== verification/_CoqProject ===== *)
-Q . S2P
Prelude.v
Hash.v
Cmap.v
CmapSlots.v
CmapTable.v
CmapBfs.v
CmapRefine.v
CmapReplace.v
CmapIter.v
CmapIterProofs.v
MapIface.v
GtpWire.v
GtpWireProofs.v
GtpManager.v
GtpPgw.v
GtpMaps.v
GtpSessions.v
GtpDelete.v
GtpHandlers.v
Csum.v
CsumProofs.v
Packets.v
PacketsProofs.v
PacketsIpv4.v
PacketsL4.v
PacketsIpv6.v
PacketsNd.v
Tags.v
TagsProofs.v
OdpExecute.v
OdpTyped.v
OdpExecuteProofs.v
OdpCommit.v
OdpCommitProofs.v
OdpPackets.v
OfpActions.v
OfpActionsProofs.v
Text.v
TextProofs.v
OfpText.v
OfpTextProofs.v
FlowMod.v
GtpInit.v
GtpPackets.v
GtpForward.v
GtpSpec.v
GtpSafety.v
GtpRuns.v
Reconnect.v
ReconnectProofs.v
Heap.v
HeapProofs.v
Hmap.v
HmapProofs.v
ContainerProps.v
MacLearning.v
MacSpec.v
MacMemory.v
MacLearningProofs.v
MacTableProofs.v
MacRunProofs.v
MacClients.v
MacClientSpec.v
MacBridge.v
MacClientProofs.v
MacProps.v
LswitchProps.v
ClsTrie.v
ClsTrieProofs.v
ClsTrieProps.v
GtpProps.v
GtpTableProps.v
GtpFaults.v
CmapProps.v
OfpProps.v
PacketProps.v
OfpTextProps.v
ReconnectProps.v
DatapathProps.v
