(* ===== verification/Prelude.v ===== *)
(** * A verification of the GTP extension of Open vSwitch

    The repository is a fork of Open vSwitch 2.5 with the packet libraries and
    the machine emulator it is built with.  Its own work is a GTP session
    manager inside the switch: the switch stands between the serving gateways
    (SGW) of a mobile network and a pool of packet gateways (PGW), and keeps
    every session on the gateway that created it.  This development models that
    manager, the code it is built on and the code that configures it, from the
    copy that build.sh builds, src/ovs-branch-2.5-dpdk (paths below are
    relative to it).

    ** The parts and how they interact

    A controller describes gateways and parameters by OpenFlow actions.  The
    actions are written as text (OfpText.v) or arrive as bytes of a flow mod
    (OfpActions.v); [handle_flow_mod] (FlowMod.v) collects them and calls the
    configuration functions of the manager.  A packet that matches a flow with
    the action handle_gtp or handle_pgw_sgi reaches the manager's entry points
    (GtpManager.v), which parse it (GtpWire.v), keep sessions in 32 + 32 hash
    maps (Cmap.v, through the interface MapIface.v) and rewrite and output the
    packet.  The hash maps use the hash functions and the random numbers of
    Hash.v.  What the manager changed in the flow of a packet is committed as
    datapath actions (OdpCommit.v), which the datapath executes on the packet
    (OdpExecute.v) with the functions of Packets.v and Tags.v, which keep its
    checksums (Csum.v) up to date.  Packets that the manager does not handle
    are forwarded by the learning bridge, whose table of addresses
    (MacLearning.v) stands on the hash table of Hmap.v and the priority queue
    of Heap.v; translation and the bundles of a bridge use it through the
    functions of MacClients.v, which also holds the decision of the learning
    switch of lib/learning-switch.c.  Beside these paths stands the state
    machine by which the switch keeps its connections up (Reconnect.v).

    ** Which file models which source

    - Prelude.v: outcomes of C code (result, fault, out of fuel), machine
      integers, the weakest preconditions [safe], [returns] and [wp].
    - Hash.v: lib/hash.h, lib/random.c.
    - Cmap.v, CmapIter.v: lib/cmap.c and lib/cmap.h, with the proofs in CmapSlots.v
      (one bucket), CmapTable.v (the table), CmapBfs.v (the cuckoo search),
      CmapRefine.v and CmapReplace.v (the map a client sees), CmapIterProofs.v
      (iteration and batch lookup).
    - MapIface.v: the classes [MapOps] and [MapLaws] between the manager and
      the hash map, discharged by lib/cmap.c.
    - GtpWire.v, GtpWireProofs.v: the packet accessors of lib/dp-packet.h and
      the parsers of ofproto/gtp-manager.c.
    - GtpManager.v: the static variables, heap and functions of
      ofproto/gtp-manager.c; GtpPgw.v (gateway table), GtpMaps.v (maps),
      GtpSessions.v, GtpDelete.v (sessions), GtpHandlers.v, GtpPackets.v
      (messages), GtpInit.v (initialisation), GtpSpec.v (the abstract session
      manager), GtpSafety.v (memory safety), GtpRuns.v (concrete runs).
    - OfpActions.v, OfpActionsProofs.v: lib/ofp-actions.c, the thirteen GTP
      actions on the wire.
    - Text.v, TextProofs.v: ovs_scan() and the number parsers of lib/util.c,
      the argument parsers of lib/ofp-parse.c, lookup_ip() of
      lib/socket-util.c, ofputil_parse_key_value() of lib/ofp-util.c.
    - OfpText.v, OfpTextProofs.v: lib/ofp-actions.c, the actions as text.
    - FlowMod.v: handle_flow_mod() of ofproto/ofproto.c and the GTP cases of
      do_xlate_actions() of ofproto/ofproto-dpif-xlate.c.
    - Csum.v, CsumProofs.v: lib/csum.c, lib/csum.h, lib/crc32c.c.
    - Packets.v: the functions of lib/packets.c that set header fields, with
      the proofs in PacketsProofs.v (loads, stores and sums), PacketsIpv4.v,
      PacketsL4.v (ports, ICMP, SCTP), PacketsIpv6.v and PacketsNd.v.
    - Tags.v, TagsProofs.v: VLAN tags and MPLS labels in lib/packets.c, and
      the operations of lib/dp-packet.c that make room for them.
    - OdpExecute.v, OdpExecuteProofs.v: lib/odp-execute.c, the actions on
      packets, batches of packets and samples; OdpTyped.v: every function on
      packets keeps bytes within 8 bits.
    - OdpCommit.v, OdpCommitProofs.v: commit_odp_actions() of lib/odp-util.c
      with everything it calls, the label stack of lib/flow.c.
    - OdpPackets.v, GtpForward.v: the actions of a commit on the bytes of an
      IPv4 packet, and the manager, the commit and the execution together.
    - Reconnect.v, ReconnectProofs.v: lib/reconnect.c.
    - Heap.v, HeapProofs.v: lib/heap.c and lib/heap.h.
    - Hmap.v, HmapProofs.v: lib/hmap.c and lib/hmap.h, the operations that
      build, search and change a table.
    - MacLearning.v: lib/mac-learning.c and lib/mac-learning.h, with the
      abstract table in MacSpec.v, the relation between the two in MacMemory.v
      and the proofs in MacLearningProofs.v (entries and ports),
      MacTableProofs.v (eviction and insertion) and MacRunProofs.v (lookup,
      expiration, flushing, creation).
    - MacClients.v: the functions of ofproto/ofproto-dpif-xlate.c,
      ofproto/ofproto-dpif.c and lib/learning-switch.c that use the table;
      MacClientSpec.v (calls on a bridge and what they mean), MacBridge.v (the
      invariant of a bridge), MacClientProofs.v.
    - ClsTrie.v, ClsTrieProofs.v: the prefix tries of lib/classifier.c.
    - GtpProps.v, GtpTableProps.v, GtpFaults.v, CmapProps.v, OfpProps.v,
      OfpTextProps.v, PacketProps.v, DatapathProps.v, ReconnectProps.v,
      ContainerProps.v, MacProps.v, LswitchProps.v, ClsTrieProps.v: the theorems, each with a
      concrete instance of its hypotheses.

    ** What the theorems show

    The manager refines an abstract session manager that has no hash tables,
    heap or reference counts, for every sequence of calls within its contract
    (GtpProps.v); outside the contract it can crash, in the ways GtpFaults.v
    lists, but no input at all makes it use freed memory or leave its arrays.
    Each kind of message is shown to go where it should, and detaching a
    session frees everything that attaching it allocated.  The hash map
    implements a finite map from hashes to chains of nodes whatever its search
    for a free slot has to do, iteration visits every node once, and a batch
    lookup is as many single ones (CmapProps.v).  Encoding and decoding actions are
    inverse to each other on the wire and as text (OfpProps.v, OfpTextProps.v).
    Setting a header field writes that field and keeps every checksum that was
    right, where the incremental update and the table-driven CRC are shown to
    compute what a computation from scratch does; popping a tag undoes pushing
    it (PacketProps.v).  The actions that a commit appends turn the flow it
    started from into the one that translation wants; executing actions never
    touches a packet that was handed over, and hands over or keeps all of them;
    and a user packet of a session leaves on the port of the session's gateway
    with the gateway's addresses, its other bytes and its correct checksums
    (DatapathProps.v).  An action that changes a packet keeps
    its bytes within 8 bits and always ends.  The heap is a priority queue and the hash table a
    map (ContainerProps.v).  For every sequence of calls that its clients make,
    the table of addresses is that of an abstract learning bridge; an entry
    that has to make room is taken from a port with the most entries; entries
    live exactly as long as their idle time says; and the test that spares
    translation an update never skips one that would change the table
    (MacProps.v).  The learning switch sends a packet to where the table says
    and never back out of the port it came from (LswitchProps.v).  A prefix
    trie of the classifier holds the prefixes that were inserted and not
    removed, and a lookup tells which lengths can match and how many bits it
    looked at to know (ClsTrieProps.v).
    The connection state machine refines a one-bit machine, never overflows,
    and its timeouts are exact (ReconnectProps.v).

    ** Bounds and fuel

    Loops that are not structural take a fuel argument and yield [Diverge]
    when it runs out.  Three loops of lib/cmap.c draw random numbers until a
    rehash succeeds; no fuel is enough for them in general, so their theorems
    say that they never fault and are right when they stop, and that they stop
    under conditions on the load of the table that are part of the statement.
    The nesting of sample actions is bounded by fuel: execution is shown to end
    when there is more fuel than nesting, and still more fuel to change
    nothing.  The loops over packets and text get fuel from the length of their
    input, those over heaps, hash tables and the table of addresses from its
    size, and are shown to stop.  Sizes are bounded where C counters would
    wrap: 2^30 nodes in a map, 2^62 nodes in a hash table or heap, 1,000,000
    learned addresses (the bound of the source), 2^26 calls in a run, times
    below 2^62 milliseconds.  Fields with prefix tries have less than 128
    bits in [prefix_trie_correct]: with all 128, removal overruns an array.

    ** Assumptions of the model

    One thread runs at a time: mutexes, RCU grace periods and concurrent
    readers have no effect, so the retry loops on bucket counters stop at once.
    The host is little-endian with 8-bit characters, 32-bit int and 64-bit
    long.  Memory allocation succeeds.  Log messages are left out.  The library
    functions strtoll(), strtoul(), inet_pton() and printf() are written out
    from their documentation, strtold() is a parameter.  Actions, flow tables
    and messages that do not belong to the manager are parameters, and so are
    the datapath's port numbers, its tunnel keys and flow hashes, and the
    callback for the actions it executes itself.  Netlink attributes are
    modelled as the values they carry.

    ** Not modelled

    Of lib/odp-util.c: tunnel actions, formatting, parsing and flow keys.  Of
    lib/packets.c: the functions that compose, parse or print packets.  Of
    lib/hmap.c: moving, swapping and random choice.  Of the learning bridge:
    bonds, mirrors, multicast snooping and the output to bundles.  Of
    lib/learning-switch.c: the OpenFlow connection and the messages it sends.
    Of lib/classifier.c: everything but the prefix tries.
    The rest of Open vSwitch (flow tables, datapaths, database, daemons), the two
    other copies of it in the repository, DPDK and QEMU: the manager
    neither changes nor depends on their logic.  gtp_manager_dump() and
    cmap_destroy() only print and free. *)
From Stdlib Require Import ZArith Lia.
From stdpp Require Import base list gmap numbers option.

Open Scope Z_scope.
Set Default Goal Selector "!".

(** ** Outcomes of C code

    A C function that can abort, run into undefined behaviour or loop is
    modelled by a function into [outcome]. *)

Inductive fault :=
| AssertFail      (* ovs_assert() failed: the process aborts *)
| NullDeref       (* a null pointer is dereferenced *)
| UninitRead      (* an uninitialised automatic variable is read *)
| OutOfBounds     (* an array is indexed outside its bounds *)
| UseAfterFree    (* a freed (or never allocated) object is accessed *)
| DivByZero       (* division or remainder by zero *)
| ShiftRange      (* a shift by at least the width of its operand *)
| SignedOverflow  (* signed arithmetic leaves the range of its type *).

#[global] Instance fault_eq_dec : EqDecision fault.
Proof. solve_decision. Defined.

Inductive outcome (A : Type) :=
| Ret (a : A)
| Fault (f : fault)
| Diverge.          (* the loop did not stop within its fuel *)
Arguments Ret {A} a.
Arguments Fault {A} f.
Arguments Diverge {A}.

Definition obind {A B} (c : outcome A) (k : A → outcome B) : outcome B :=
  match c with
  | Ret a => k a
  | Fault f => Fault f
  | Diverge => Diverge
  end.

Declare Scope outcome_scope.
Delimit Scope outcome_scope with outcome.
Notation "'let*' x ':=' c 'in' k" := (obind c (λ x, k))
  (at level 10, x pattern, c at level 100, k at level 200) : outcome_scope.
Open Scope outcome_scope.

(** [ovs_assert(c)]. *)
Definition ovs_assert (c : bool) : outcome unit :=
  if c then Ret () else Fault AssertFail.

(** Reading through a possibly null pointer. *)
Definition deref {A} (p : option A) : outcome A :=
  match p with Some a => Ret a | None => Fault NullDeref end.

Lemma obind_Ret {A B} (c : outcome A) (k : A → outcome B) b :
  obind c k = Ret b ↔ ∃ a, c = Ret a ∧ k a = Ret b.
Proof. destruct c; simpl; naive_solver. Qed.

Lemma deref_Ret {A} (p : option A) a : deref p = Ret a ↔ p = Some a.
Proof. destruct p; simpl; naive_solver. Qed.

Lemma ovs_assert_Ret c u : ovs_assert c = Ret u ↔ c = true.
Proof. destruct c, u; simpl; naive_solver. Qed.

(** Invert a hypothesis [obind c k = Ret b] into its parts. *)
Ltac inv_ret :=
  repeat match goal with
  | H : obind _ _ = Ret _ |- _ =>
      let a := fresh "a" in let Ha := fresh "Ha" in
      apply obind_Ret in H; destruct H as (a & Ha & H)
  | H : Ret _ = Ret _ |- _ => injection H as H
  | H : deref _ = Ret _ |- _ => apply deref_Ret in H
  | H : ovs_assert _ = Ret _ |- _ => apply ovs_assert_Ret in H
  | H : Fault _ = Ret _ |- _ => discriminate H
  | H : Diverge = Ret _ |- _ => discriminate H
  end.

(** [c] never faults, and its result, when it returns one, satisfies [Q]. *)
Definition safe {A} (c : outcome A) (Q : A → Prop) : Prop :=
  match c with
  | Ret a => Q a
  | Fault _ => False
  | Diverge => True
  end.

(** [c] returns a result that satisfies [Q]. *)
Definition returns {A} (c : outcome A) (Q : A → Prop) : Prop :=
  ∃ a, c = Ret a ∧ Q a.

Lemma returns_safe {A} (c : outcome A) Q : returns c Q → safe c Q.
Proof. by intros (a & -> & HQ). Qed.

Lemma safe_Ret {A} (c : outcome A) Q a : safe c Q → c = Ret a → Q a.
Proof. by intros Hs ->. Qed.

Lemma safe_bind {A B} (c : outcome A) (k : A → outcome B) Q R :
  safe c Q → (∀ a, Q a → safe (k a) R) → safe (obind c k) R.
Proof. destruct c; simpl; auto. Qed.

Lemma returns_bind {A B} (c : outcome A) (k : A → outcome B) Q R :
  returns c Q → (∀ a, Q a → returns (k a) R) → returns (obind c k) R.
Proof. intros (a & -> & HQ) Hk. by apply Hk. Qed.

Lemma safe_mono {A} (c : outcome A) (Q R : A → Prop) :
  safe c Q → (∀ a, Q a → R a) → safe c R.
Proof. destruct c; simpl; auto. Qed.

Lemma returns_mono {A} (c : outcome A) (Q R : A → Prop) : returns c Q → (∀ a, Q a → R a) → returns c R.
Proof. intros (a & H & Ha) HR. exists a. auto. Qed.

(** Both at once: [tot] says whether running out of fuel is excluded. *)
Definition wp {A} (tot : bool) (c : outcome A) (Q : A → Prop) : Prop :=
  match c with
  | Ret a => Q a
  | Fault _ => False
  | Diverge => tot = false
  end.

Lemma wp_safe {A} (c : outcome A) Q : wp false c Q ↔ safe c Q.
Proof. by destruct c. Qed.

Lemma wp_returns {A} (c : outcome A) Q : wp true c Q ↔ returns c Q.
Proof.
  unfold returns. destruct c as [a| |]; simpl; [|naive_solver..].
  split; [by exists a|]. by intros (a' & [= <-] & HQ).
Qed.

Lemma wp_of_safe {A} tot (c : outcome A) Q :
  safe c Q → (tot = true → returns c (λ _, True)) → wp tot c Q.
Proof.
  destruct c as [a|f|]; simpl; [done..|]. intros _ Hr.
  destruct tot; [|done]. by destruct (Hr eq_refl) as (a & [=] & _).
Qed.

Lemma wp_bind {A B} tot (c : outcome A) (k : A → outcome B) Q R :
  wp tot c Q → (∀ a, Q a → wp tot (k a) R) → wp tot (obind c k) R.
Proof. destruct c; simpl; auto. Qed.

Lemma wp_mono {A} tot (c : outcome A) (Q R : A → Prop) :
  wp tot c Q → (∀ a, Q a → R a) → wp tot c R.
Proof. destruct c; simpl; auto. Qed.

(** A call that never faults, and returns under the condition [H]. *)
Lemma wp_both {A} (c : outcome A) (Q : A → Prop) (H : Prop) :
  (∀ tot, (tot = true → H) → wp tot c Q) → safe c Q ∧ (H → returns c Q).
Proof.
  intros Hwp. split; [apply wp_safe, Hwp; done|].
  intros HH. apply wp_returns, Hwp. done.
Qed.

(** ** Machine integers

    An unsigned [w]-bit integer is a [Z]; every operation of the source that
    can wrap is followed by [u8], [u16] or [u32]. *)

Definition u8 (x : Z) : Z := x mod 2 ^ 8.
Definition u16 (x : Z) : Z := x mod 2 ^ 16.
Definition u32 (x : Z) : Z := x mod 2 ^ 32.
Definition u64 (x : Z) : Z := x mod 2 ^ 64.

(** Signed arithmetic of type [int] and [long long int]: the result, or
    undefined behaviour. *)
Definition INT_MAX : Z := 2 ^ 31 - 1.
Definition INT_MIN : Z := - 2 ^ 31.
Definition UINT_MAX : Z := 2 ^ 32 - 1.
Definition LLONG_MAX : Z := 2 ^ 63 - 1.
Definition LLONG_MIN : Z := - 2 ^ 63.
Definition in_range (lo hi x : Z) : bool := (lo <=? x) && (x <=? hi).
Definition int_ (x : Z) : outcome Z :=
  if in_range INT_MIN INT_MAX x then Ret x else Fault SignedOverflow.
Definition llong (x : Z) : outcome Z :=
  if in_range LLONG_MIN LLONG_MAX x then Ret x else Fault SignedOverflow.

Lemma in_range_true lo hi x : in_range lo hi x = true ↔ lo ≤ x ≤ hi.
Proof. unfold in_range. rewrite andb_true_iff, !Z.leb_le. done. Qed.
Lemma int_Ret x : INT_MIN ≤ x ≤ INT_MAX → int_ x = Ret x.
Proof. intros Hx. unfold int_. by rewrite (proj2 (in_range_true _ _ _) Hx). Qed.
Lemma llong_Ret x : LLONG_MIN ≤ x ≤ LLONG_MAX → llong x = Ret x.
Proof. intros Hx. unfold llong. by rewrite (proj2 (in_range_true _ _ _) Hx). Qed.

Lemma u32_range x : 0 ≤ u32 x < 2 ^ 32.
Proof. apply Z.mod_pos_bound. lia. Qed.
Lemma u16_range x : 0 ≤ u16 x < 2 ^ 16.
Proof. apply Z.mod_pos_bound. lia. Qed.
Lemma u8_range x : 0 ≤ u8 x < 2 ^ 8.
Proof. apply Z.mod_pos_bound. lia. Qed.
Lemma u32_small x : 0 ≤ x < 2 ^ 32 → u32 x = x.
Proof. apply Z.mod_small. Qed.
Lemma u16_small x : 0 ≤ x < 2 ^ 16 → u16 x = x.
Proof. apply Z.mod_small. Qed.
Lemma u8_small x : 0 ≤ x < 2 ^ 8 → u8 x = x.
Proof. apply Z.mod_small. Qed.
Lemma u64_small x : 0 ≤ x < 2 ^ 64 → u64 x = x.
Proof. apply Z.mod_small. Qed.

(** [is_pow2()] of lib/util.h. *)
Definition is_pow2 (x : Z) : bool := negb (x =? 0) && (Z.land x (x - 1) =? 0).

(** A non-negative number is below [2^k] exactly when its bits from [k] on
    are clear; the bitwise operations of the source stay within a width. *)
Lemma below_pow2_bits k x :
  0 ≤ k → 0 ≤ x → x < 2 ^ k ↔ ∀ i, k ≤ i → Z.testbit x i = false.
Proof.
  intros Hk Hx. split.
  - intros Hlt i Hi. destruct (decide (x = 0)) as [->|]; [apply Z.bits_0|].
    apply Z.bits_above_log2; [done|].
    assert (Z.log2 x < k) by (apply Z.log2_lt_pow2; lia). lia.
  - intros Hbits. destruct (decide (x = 0)) as [->|]; [apply Z.pow_pos_nonneg; lia|].
    apply Z.log2_lt_pow2; [lia|]. destruct (decide (Z.log2 x < k)); [done|].
    specialize (Hbits (Z.log2 x)). rewrite Z.bit_log2 in Hbits; [|lia].
    discriminate Hbits. lia.
Qed.

Lemma lxor_range k x y :
  0 ≤ k → 0 ≤ x < 2 ^ k → 0 ≤ y < 2 ^ k → 0 ≤ Z.lxor x y < 2 ^ k.
Proof.
  intros Hk [Hx1 Hx2] [Hy1 Hy2].
  assert (0 ≤ Z.lxor x y) by (apply Z.lxor_nonneg; lia).
  split; [done|]. apply below_pow2_bits; [done..|]. intros i Hi.
  rewrite Z.lxor_spec.
  rewrite (proj1 (below_pow2_bits k x Hk Hx1) Hx2 i Hi).
  by rewrite (proj1 (below_pow2_bits k y Hk Hy1) Hy2 i Hi).
Qed.

Lemma lor_range k x y :
  0 ≤ k → 0 ≤ x < 2 ^ k → 0 ≤ y < 2 ^ k → 0 ≤ Z.lor x y < 2 ^ k.
Proof.
  intros Hk [Hx1 Hx2] [Hy1 Hy2].
  assert (0 ≤ Z.lor x y) by (apply Z.lor_nonneg; lia).
  split; [done|]. apply below_pow2_bits; [done..|]. intros i Hi.
  rewrite Z.lor_spec.
  rewrite (proj1 (below_pow2_bits k x Hk Hx1) Hx2 i Hi).
  by rewrite (proj1 (below_pow2_bits k y Hk Hy1) Hy2 i Hi).
Qed.

Lemma shiftr_range k x n : 0 ≤ n → 0 ≤ x < 2 ^ k → 0 ≤ Z.shiftr x n < 2 ^ k.
Proof.
  intros Hn [Hx1 Hx2]. rewrite Z.shiftr_div_pow2; [|done].
  assert (0 < 2 ^ n) by (apply Z.pow_pos_nonneg; lia).
  split; [apply Z.div_pos; lia|].
  assert (x / 2 ^ n ≤ x) by (apply Z.div_le_upper_bound; nia). lia.
Qed.

Lemma land_mask_range x k : 0 ≤ k → 0 ≤ Z.land x (2 ^ k - 1) < 2 ^ k.
Proof.
  intros Hk. replace (2 ^ k - 1) with (Z.ones k) by (rewrite Z.ones_equiv; lia).
  rewrite Z.land_ones; [|done]. apply Z.mod_pos_bound.
  apply Z.pow_pos_nonneg; lia.
Qed.

Create HintDb width.
Create HintDb gtp.
#[export] Hint Resolve u32_range u16_range u8_range : width.
#[export] Hint Extern 4 (0 ≤ Z.lxor _ _ < 2 ^ _) => apply lxor_range; [lia| |] : width.
#[export] Hint Extern 4 (0 ≤ Z.lor _ _ < 2 ^ _) => apply lor_range; [lia| |] : width.
#[export] Hint Extern 4 (0 ≤ Z.shiftr _ _ < 2 ^ _) => apply shiftr_range; [lia|] : width.
