(* ===== verification/Hash.v ===== *)
(** * Hash functions and random numbers

    The Murmur-based branch of lib/hash.h (the one compiled without SSE4.2)
    and the xorshift generator of lib/random.c.  The class [HashFns] is what
    the hash tables need of them: the other branch of lib/hash.h, built on the
    crc32 instructions, is another instance. *)
From Stdlib Require Import ZArith Lia.
From stdpp Require Import base list gmap numbers option.
From S2P Require Import Prelude.
Open Scope Z_scope.

Definition hash_rot (x k : Z) : Z :=
  Z.lor (u32 (Z.shiftl x k)) (Z.shiftr x (32 - k)).

Definition mhash_add__ (hash data : Z) : Z :=
  let data := u32 (data * 0xcc9e2d51) in
  let data := hash_rot data 15 in
  let data := u32 (data * 0x1b873593) in
  Z.lxor hash data.

Definition mhash_add (hash data : Z) : Z :=
  let hash := mhash_add__ hash data in
  let hash := hash_rot hash 13 in
  u32 (hash * 5 + 0xe6546b64).

Definition mhash_finish (hash : Z) : Z :=
  let hash := Z.lxor hash (Z.shiftr hash 16) in
  let hash := u32 (hash * 0x85ebca6b) in
  let hash := Z.lxor hash (Z.shiftr hash 13) in
  let hash := u32 (hash * 0xc2b2ae35) in
  Z.lxor hash (Z.shiftr hash 16).

Definition hash_add (hash data : Z) : Z := mhash_add hash data.

Definition hash_finish (hash final : Z) : Z := mhash_finish (Z.lxor hash final).

Definition hash_2words (x y : Z) : Z := hash_finish (hash_add (hash_add x 0) y) 8.

Definition hash_int (x basis : Z) : Z := hash_2words x basis.

Definition hash_boolean (x : bool) (basis : Z) : Z :=
  let P0 := 0xc2b73583 in
  let P1 := 0xe90f1258 in
  Z.lxor (if x then P0 else P1) (hash_rot basis 1).

(** What the hash tables use of lib/hash.h. *)
Class HashFns := {
  hf_finish : Z → Z → Z;
  hf_int : Z → Z → Z;
  hf_finish_range : ∀ h f, 0 ≤ hf_finish h f < 2 ^ 32;
}.

Lemma mhash_finish_range h : 0 ≤ mhash_finish h < 2 ^ 32.
Proof. unfold mhash_finish. auto with width. Qed.

#[global] Instance mhash_fns : HashFns := {|
  hf_finish := hash_finish;
  hf_int := hash_int;
  hf_finish_range := λ h f, mhash_finish_range _;
|}.

(** ** lib/random.c

    The per-thread state [seed] is threaded explicitly.  [random_init] seeds it
    from the clock and the entropy pool while it is zero; the generator is only
    modelled once it has been seeded. *)

Definition random_next (seed : Z) : Z :=
  let seed := Z.lxor seed (u32 (Z.shiftl seed 13)) in
  let seed := Z.lxor seed (Z.shiftr seed 17) in
  Z.lxor seed (u32 (Z.shiftl seed 5)).

Lemma random_next_range seed : 0 ≤ seed < 2 ^ 32 → 0 ≤ random_next seed < 2 ^ 32.
Proof. intros. unfold random_next. auto 10 with width. Qed.

(** The comments of [hash_boolean] say that its constants are [hash_int(1, 0)]
    and [hash_int(2, 0)]; they no longer are. *)
Lemma hash_boolean_constants_stale :
  hash_int 1 0 = 0xea95647d ∧ hash_boolean true 0 = 0xc2b73583 ∧
  hash_int 2 0 = 0xa1cba8ce ∧ hash_boolean false 0 = 0xe90f1258.
Proof. repeat split; vm_compute; reflexivity. Qed.
