(* ===== verification/Cmap.v ===== *)
(** * lib/cmap.c: the concurrent cuckoo hash map, as one writer sees it

    A [struct cmap_node] is named by its address (a [positive]); its [next]
    field is an entry of the finite map [nexts].  A bucket keeps its [CMAP_K]
    (hash, node) pairs as one list of slots, the source as two parallel
    arrays.  Functions that can trip an assertion, follow a wild pointer or
    spin are in the [outcome] monad. *)
From Stdlib Require Import ZArith Lia.
From stdpp Require Import base list gmap numbers option.
From S2P Require Import Prelude Hash.
Open Scope Z_scope.

Abbreviation slot := (Z * option positive)%type.
Abbreviation nexts := (gmap positive (option positive)).

(** Entries per bucket on a 64-bit machine: (64 - 4) / (4 + 8). *)
Definition CMAP_K : nat := 5.

Record cmap_bucket := mkBucket {
  counter : Z;
  slots : list slot;
}.

Definition empty_bucket : cmap_bucket := mkBucket 0 (replicate CMAP_K (0, None)).

(** [(uint32_t) (UINT32_MAX * .85)] and [(uint32_t) (UINT32_MAX * .20)]. *)
Definition CMAP_MAX_LOAD : Z := 3650722200.
Definition CMAP_MIN_LOAD : Z := 858993459.

Record cmap_impl := mkImpl {
  im_n : Z;
  max_n : Z;
  min_n : Z;
  mask : Z;
  basis : Z;
  buckets : list cmap_bucket;
}.

Record cmap := mkCmap {
  impl : cmap_impl;
  nx : nexts;
}.

Definition set_buckets (im : cmap_impl) (bs : list cmap_bucket) : cmap_impl :=
  mkImpl (im_n im) (max_n im) (min_n im) (mask im) (basis im) bs.
Definition set_n (im : cmap_impl) (n : Z) : cmap_impl :=
  mkImpl n (max_n im) (min_n im) (mask im) (basis im) (buckets im).

(** [cmap_node_next(node)]. *)
Definition cmap_node_next (m : nexts) (node : positive) : outcome (option positive) :=
  match m !! node with
  | Some next => Ret next
  | None => Fault UseAfterFree
  end.

Definition other_hash (hash : Z) : Z :=
  Z.lor (u32 (Z.shiftl hash 16)) (Z.shiftr hash 16).

Definition calc_max_n (mask : Z) : Z :=
  u32 (Z.shiftr (u64 (u32 (mask + 1) * Z.of_nat CMAP_K * CMAP_MAX_LOAD)) 32).

Definition calc_min_n (mask : Z) : Z :=
  u32 (Z.shiftr (u64 (u32 (mask + 1) * Z.of_nat CMAP_K * CMAP_MIN_LOAD)) 32).

(** [&impl->buckets[h & impl->mask]], as an index. *)
Definition bucket_idx (im : cmap_impl) (h : Z) : nat := Z.to_nat (Z.land h (mask im)).

Definition bucket_at (im : cmap_impl) (b : nat) : cmap_bucket :=
  default empty_bucket (buckets im !! b).

Definition put_bucket (im : cmap_impl) (b : nat) (bk : cmap_bucket) : cmap_impl :=
  set_buckets im (<[b := bk]> (buckets im)).

Section Cmap.
Context `{HF : HashFns}.

Definition rehash (im : cmap_impl) (hash : Z) : Z := hf_finish (basis im) hash.

Definition cmap_impl_create (seed mask : Z) : outcome (Z * cmap_impl) :=
  let* _ := ovs_assert (is_pow2 (u32 (mask + 1))) in
  let seed := random_next seed in
  Ret (seed, mkImpl 0 (calc_max_n mask) (calc_min_n mask) mask seed
               (replicate (Z.to_nat (u32 (mask + 1))) empty_bucket)).

Definition cmap_init (seed : Z) : outcome (Z * cmap) :=
  let* (seed, im) := cmap_impl_create seed 0 in
  Ret (seed, mkCmap im ∅).

Definition cmap_count (cm : cmap) : Z := im_n (impl cm).

Definition cmap_is_empty (cm : cmap) : bool := cmap_count cm =? 0.

Definition cmap_infos (cm : cmap) : Z * Z * Z :=
  (im_n (impl cm), max_n (impl cm), mask (impl cm)).

(** ** Lookup

    Without a concurrent writer a counter never changes: waiting for an odd
    one to become even, or retrying after a change, does not stop. *)

Definition read_even_counter (b : cmap_bucket) : outcome Z :=
  if Z.odd (counter b) then Diverge else Ret (counter b).

Definition counter_changed (b : cmap_bucket) (c : Z) : bool := negb (counter b =? c).

(** The index and the node of the first slot that holds [hash]. *)
Fixpoint slot_with_hash (l : list slot) (hash : Z) : option (nat * option positive) :=
  match l with
  | [] => None
  | (h, nd) :: l' =>
      if h =? hash then Some (O, nd)
      else (λ '(i, nd'), (S i, nd')) <$> slot_with_hash l' hash
  end.

Definition cmap_find_in_bucket (b : cmap_bucket) (hash : Z) : option positive :=
  match slot_with_hash (slots b) hash with
  | Some (_, nd) => nd
  | None => None
  end.

Definition find_stable (b : cmap_bucket) (hash : Z) : outcome (Z * option positive) :=
  let* c := read_even_counter b in
  if counter_changed b c then Diverge else Ret (c, cmap_find_in_bucket b hash).

Definition cmap_find__ (b1 b2 : cmap_bucket) (hash : Z) : outcome (option positive) :=
  let* (c1, node) := find_stable b1 hash in
  match node with
  | Some _ => Ret node
  | None =>
      let* (_, node) := find_stable b2 hash in
      match node with
      | Some _ => Ret node
      | None => if counter_changed b1 c1 then Diverge else Ret None
      end
  end.

Definition cmap_find (cm : cmap) (hash : Z) : outcome (option positive) :=
  let im := impl cm in
  let h1 := rehash im hash in
  let h2 := other_hash h1 in
  cmap_find__ (bucket_at im (bucket_idx im h1)) (bucket_at im (bucket_idx im h2)) hash.

(** The first live slot with [hash]. *)
Fixpoint find_live (l : list slot) (hash : Z) : option nat :=
  match l with
  | [] => None
  | (h, nd) :: l' =>
      if (h =? hash) && bool_decide (is_Some nd) then Some O else S <$> find_live l' hash
  end.

Definition cmap_find_slot_protected (b : cmap_bucket) (hash : Z) : option nat :=
  find_live (slots b) hash.

Definition cmap_find_bucket_protected (im : cmap_impl) (hash h : Z) : option positive :=
  cmap_find_in_bucket (bucket_at im (bucket_idx im h)) hash.

Definition cmap_find_protected (cm : cmap) (hash : Z) : option positive :=
  let im := impl cm in
  let h1 := rehash im hash in
  let h2 := other_hash hash in
  match cmap_find_bucket_protected im hash h1 with
  | Some node => Some node
  | None => cmap_find_bucket_protected im hash h2
  end.

Fixpoint find_empty (l : list slot) : option nat :=
  match l with
  | [] => None
  | (_, None) :: _ => Some O
  | (_, Some _) :: l' => S <$> find_empty l'
  end.

Definition cmap_find_empty_slot_protected (b : cmap_bucket) : option nat :=
  find_empty (slots b).

(** ** Insertion *)

Definition cmap_set_bucket (b : cmap_bucket) (i : nat) (node : option positive)
    (hash : Z) : cmap_bucket :=
  let c := counter b in
  mkBucket (u32 (c + 2)) (<[i := (hash, node)]> (slots b)).

(** The last node of the chain that starts at [p]. *)
Fixpoint chain_end (fuel : nat) (m : nexts) (p : positive) : outcome positive :=
  match fuel with
  | O => Diverge
  | S fuel =>
      let* next := cmap_node_next m p in
      match next with
      | None => Ret p
      | Some q => chain_end fuel m q
      end
  end.

Definition cmap_insert_dup (m : nexts) (new_node : positive) (hash : Z)
    (b : cmap_bucket) : outcome (option (nexts * cmap_bucket)) :=
  match slot_with_hash (slots b) hash with
  | None => Ret None
  | Some (i, nd) =>
      let b' := mkBucket (counter b) (<[i := (hash, Some new_node)]> (slots b)) in
      match nd with
      | Some node =>
          let* p := chain_end (S (size m)) m new_node in
          Ret (Some (<[p := Some node]> m, b'))
      | None => Ret (Some (m, b'))
      end
  end.

Definition cmap_insert_bucket (node : positive) (hash : Z) (b : cmap_bucket) :
    option cmap_bucket :=
  match cmap_find_empty_slot_protected b with
  | Some i => Some (cmap_set_bucket b i (Some node) hash)
  | None => None
  end.

Definition slot_at (im : cmap_impl) (b i : nat) : slot :=
  default (0, None) (slots (bucket_at im b) !! i).

Definition other_bucket_protected (im : cmap_impl) (b i : nat) : nat :=
  let h1 := rehash im (fst (slot_at im b i)) in
  let h2 := other_hash h1 in
  let other_h := if Z.land h1 (mask im) =? Z.of_nat b then h2 else h1 in
  bucket_idx im other_h.

Definition MAX_DEPTH : nat := 4.
Definition MAX_QUEUE : nat := 500.

(** [n] is the length of [p_slots]. *)
Record cmap_path := mkPath {
  p_start : nat;
  p_end : nat;
  p_slots : list nat;
}.

(** The inner [for] loop of [cmap_insert_bfs] over the slots [todo] of
    [path->end]: the path is finished by slot [i] of its last bucket and the
    empty slot [j] of the next one, or the queue is extended. *)
Fixpoint bfs_slots (im : cmap_impl) (path : cmap_path) (todo : list nat)
    (queue : list cmap_path) : (nat * nat) + list cmap_path :=
  match todo with
  | [] => inr queue
  | i :: todo' =>
      let next := other_bucket_protected im (p_end path) i in
      if Nat.eqb (p_end path) next then bfs_slots im path todo' queue
      else
        match cmap_find_empty_slot_protected (bucket_at im next) with
        | Some j => inl (i, j)
        | None =>
            if Nat.ltb (length (p_slots path)) MAX_DEPTH
               && Nat.ltb (length queue) MAX_QUEUE
            then bfs_slots im path todo'
                   (queue ++ [mkPath (p_start path) next (p_slots path ++ [i])])
            else bfs_slots im path todo' queue
        end
  end.

(** The outer [while (tail < head)] loop. *)
Fixpoint bfs_search (fuel : nat) (im : cmap_impl) (queue : list cmap_path)
    (tail : nat) : outcome (option (cmap_path * nat * nat)) :=
  match fuel with
  | O => Diverge
  | S fuel =>
      match queue !! tail with
      | None => Ret None
      | Some path =>
          match bfs_slots im path (seq 0 CMAP_K) queue with
          | inl (i, j) => Ret (Some (path, i, j))
          | inr queue' => bfs_search fuel im queue' (S tail)
          end
      end
  end.

(** The full sequence of buckets along [ss] from [b]. *)
Fixpoint path_buckets (im : cmap_impl) (b : nat) (ss : list nat) : list nat :=
  match ss with
  | [] => [b]
  | s :: ss' => b :: path_buckets im (other_bucket_protected im b s) ss'
  end.

(** Copy slot [src] to slot [dst] with [cmap_set_bucket]. *)
Definition move_slot (im : cmap_impl) (src dst : nat * nat) : cmap_impl :=
  let '(h, nd) := slot_at im (fst src) (snd src) in
  put_bucket im (fst dst) (cmap_set_bucket (bucket_at im (fst dst)) (snd dst) nd h).

(** "Move all the nodes across the path backward": [rpath] is the path in
    reverse, its head the source of the move into [hole]. *)
Fixpoint move_backward (im : cmap_impl) (rpath : list (nat * nat)) (hole : nat * nat) :
    cmap_impl * (nat * nat) :=
  match rpath with
  | [] => (im, hole)
  | src :: rpath' => move_backward (move_slot im src hole) rpath' src
  end.

Definition bfs_apply (im : cmap_impl) (path : cmap_path) (i j : nat)
    (new_node : positive) (hash : Z) : cmap_impl :=
  let ss := p_slots path ++ [i] in
  let full := zip (path_buckets im (p_start path) ss) (ss ++ [j]) in
  match reverse full with
  | [] => im
  | hole :: rpath =>
      let '(im', dst) := move_backward im rpath hole in
      put_bucket im' (fst dst)
        (cmap_set_bucket (bucket_at im' (fst dst)) (snd dst) (Some new_node) hash)
  end.

Definition bfs_start (b1 b2 : nat) : list cmap_path :=
  if Nat.eqb b1 b2 then [mkPath b1 b1 []] else [mkPath b1 b1 []; mkPath b2 b2 []].

Definition cmap_insert_bfs (im : cmap_impl) (new_node : positive) (hash : Z)
    (b1 b2 : nat) : outcome (option cmap_impl) :=
  let* found := bfs_search (S MAX_QUEUE) im (bfs_start b1 b2) 0 in
  match found with
  | None => Ret None
  | Some (path, i, j) => Ret (Some (bfs_apply im path i j new_node hash))
  end.

Definition cmap_try_insert (im : cmap_impl) (m : nexts) (node : positive) (hash : Z) :
    outcome (option (cmap_impl * nexts)) :=
  let h1 := rehash im hash in
  let h2 := other_hash h1 in
  let b1 := bucket_idx im h1 in
  let b2 := bucket_idx im h2 in
  let* r1 := cmap_insert_dup m node hash (bucket_at im b1) in
  match r1 with
  | Some (m', b') => Ret (Some (put_bucket im b1 b', m'))
  | None =>
  let* r2 := cmap_insert_dup m node hash (bucket_at im b2) in
  match r2 with
  | Some (m', b') => Ret (Some (put_bucket im b2 b', m'))
  | None =>
  match cmap_insert_bucket node hash (bucket_at im b1) with
  | Some b' => Ret (Some (put_bucket im b1 b', m))
  | None =>
  match cmap_insert_bucket node hash (bucket_at im b2) with
  | Some b' => Ret (Some (put_bucket im b2 b', m))
  | None =>
  let* r := cmap_insert_bfs im node hash b1 b2 in
  match r with
  | Some im' => Ret (Some (im', m))
  | None => Ret None
  end end end end end.

(** ** Rehashing *)

(** The double loop of [cmap_try_rehash] over the slots of the old table;
    [None] is the result [false]. *)
Fixpoint try_rehash_slots (l : list slot) (new : cmap_impl) (m : nexts) :
    outcome (option cmap_impl * nexts) :=
  match l with
  | [] => Ret (Some new, m)
  | (_, None) :: l' => try_rehash_slots l' new m
  | (h, Some node) :: l' =>
      let* r := cmap_try_insert new m node h in
      match r with
      | None => Ret (None, m)
      | Some (new', m') => try_rehash_slots l' new' m'
      end
  end.

Definition cmap_try_rehash (old new : cmap_impl) (m : nexts) :
    outcome (option cmap_impl * nexts) :=
  try_rehash_slots (concat (slots <$> buckets old)) new m.

(** The [while (!cmap_try_rehash(old, new))] loop. *)
Fixpoint rehash_loop (fuel : nat) (seed : Z) (old new : cmap_impl) (m : nexts) :
    outcome (Z * cmap_impl * nexts) :=
  match fuel with
  | O => Diverge
  | S fuel =>
      let* (r, m) := cmap_try_rehash old new m in
      match r with
      | Some new' => Ret (seed, new', m)
      | None =>
          let seed := random_next seed in
          rehash_loop fuel seed old
            (mkImpl (im_n new) (max_n new) (min_n new) (mask new) seed
               (replicate (Z.to_nat (u32 (mask new + 1))) empty_bucket)) m
      end
  end.

Definition cmap_rehash (fuel : nat) (seed : Z) (cm : cmap) (mask : Z) :
    outcome (Z * cmap) :=
  let old := impl cm in
  let* (seed, new) := cmap_impl_create seed mask in
  let* _ := ovs_assert (im_n old <? max_n new) in
  let* (seed, new, m) := rehash_loop fuel seed old new (nx cm) in
  Ret (seed, mkCmap (set_n new (im_n old)) m).

(** The [while (!cmap_try_insert(impl, node, hash))] loop of [cmap_insert]. *)
Fixpoint insert_loop (fuel fuel' : nat) (seed : Z) (cm : cmap) (node : positive)
    (hash : Z) : outcome (Z * cmap) :=
  match fuel with
  | O => Diverge
  | S fuel =>
      let* r := cmap_try_insert (impl cm) (nx cm) node hash in
      match r with
      | Some (im', m') => Ret (seed, mkCmap im' m')
      | None =>
          let* (seed, cm) := cmap_rehash fuel' seed cm (mask (impl cm)) in
          insert_loop fuel fuel' seed cm node hash
      end
  end.

Definition cmap_insert (fuel : nat) (seed : Z) (cm : cmap) (node : positive)
    (hash : Z) : outcome (Z * cmap * Z) :=
  let cm := mkCmap (impl cm) (<[node := None]> (nx cm)) in
  let* (seed, cm) :=
    if max_n (impl cm) <=? im_n (impl cm)
    then cmap_rehash fuel seed cm (Z.lor (u32 (Z.shiftl (mask (impl cm)) 1)) 1)
    else Ret (seed, cm) in
  let* (seed, cm) := insert_loop fuel fuel seed cm node hash in
  let n' := u32 (im_n (impl cm) + 1) in
  Ret (seed, mkCmap (set_n (impl cm) n') (nx cm), n').

(** ** Replacement and removal *)

(** The walk of [cmap_replace__] from the node [iter]. *)
Fixpoint replace_walk (fuel : nat) (m : nexts) (iter node : positive)
    (replacement : option positive) : outcome nexts :=
  match fuel with
  | O => Diverge
  | S fuel =>
      let* next := cmap_node_next m iter in
      match next with
      | None => Fault NullDeref
      | Some q =>
          if Pos.eqb q node then Ret (<[iter := replacement]> m)
          else replace_walk fuel m q node replacement
      end
  end.

Definition cmap_replace__ (im : cmap_impl) (m : nexts) (node : positive)
    (replacement : option positive) (hash h : Z) :
    outcome (option (cmap_impl * nexts)) :=
  let b := bucket_idx im h in
  let bk := bucket_at im b in
  match cmap_find_slot_protected bk hash with
  | None => Ret None
  | Some i =>
      let* next := cmap_node_next m node in
      let '(replacement, m) :=
        match replacement with
        | None => (next, m)
        | Some r => (Some r, <[r := next]> m)
        end in
      match snd (slot_at im b i) with
      | None => Fault NullDeref
      | Some first =>
          if Pos.eqb first node then
            Ret (Some (put_bucket im b
              (mkBucket (counter bk) (<[i := (hash, replacement)]> (slots bk))), m))
          else
            let* m := replace_walk (S (size m)) m first node replacement in
            Ret (Some (im, m))
      end
  end.

Definition cmap_replace (fuel : nat) (seed : Z) (cm : cmap) (old_node : positive)
    (new_node : option positive) (hash : Z) : outcome (Z * cmap * Z) :=
  let im := impl cm in
  let h1 := rehash im hash in
  let h2 := other_hash h1 in
  let* r1 := cmap_replace__ im (nx cm) old_node new_node hash h1 in
  let* (im, m) :=
    match r1 with
    | Some r => Ret r
    | None =>
        let* r2 := cmap_replace__ im (nx cm) old_node new_node hash h2 in
        match r2 with
        | Some r => Ret r
        | None => Fault AssertFail
        end
    end in
  match new_node with
  | Some _ => Ret (seed, mkCmap im m, im_n im)
  | None =>
      let im := set_n im (u32 (im_n im - 1)) in
      if im_n im <? min_n im then
        let* (seed, cm) := cmap_rehash fuel seed (mkCmap im m) (Z.shiftr (mask im) 1) in
        Ret (seed, cm, im_n (impl cm))
      else Ret (seed, mkCmap im m, im_n im)
  end.

Definition cmap_remove (fuel : nat) (seed : Z) (cm : cmap) (node : positive)
    (hash : Z) : outcome (Z * cmap * Z) :=
  cmap_replace fuel seed cm node None hash.

End Cmap.
