(* ===== verification/CmapSlots.v ===== *)
(** * The slot table of lib/cmap.c

    What the searches over a bucket return, and the invariant of the table
    seen as a partial function from (bucket, slot) to (hash, node).  A removed
    entry leaves its hash behind in a slot whose node is null, so a lookup,
    which stops at the first slot with the right hash, is only right because
    of the order in which insertion reuses such stale slots: [si_first] and
    [si_prio] below are that order. *)
From Stdlib Require Import ZArith Lia.
From stdpp Require Import base list gmap numbers option.
From S2P Require Import Prelude Hash Cmap.
Open Scope Z_scope.

(** ** Searches within one bucket *)

Lemma slot_with_hash_Some l h i nd :
  slot_with_hash l h = Some (i, nd) ↔
  l !! i = Some (h, nd) ∧ ∀ j nd', (j < i)%nat → l !! j ≠ Some (h, nd').
Proof.
  revert i. induction l as [|[h0 nd0] l IH]; intros i; simpl; [naive_solver|].
  destruct (Z.eqb_spec h0 h) as [->|Hne].
  - split; [intros [= <- ->]; split; [done|lia]|].
    intros [Hi Hfirst]. destruct i as [|i]; [naive_solver|].
    exfalso. apply (Hfirst 0%nat nd0); [lia|done].
  - destruct i as [|i]; simpl.
    + split; [|naive_solver].
      rewrite fmap_Some. intros ([j nd'] & _ & [=]).
    + rewrite fmap_Some. split.
      * intros ([j nd'] & Hs & [= <- <-]). apply IH in Hs as [Hj Hf].
        split; [done|]. intros [|j'] nd'' Hlt; simpl; [naive_solver|].
        apply Hf. lia.
      * intros [Hi Hf]. exists (i, nd). split; [|done]. apply IH.
        split; [done|]. intros j nd' Hj. apply (Hf (S j)). lia.
Qed.

Lemma slot_with_hash_None l h :
  slot_with_hash l h = None ↔ ∀ i nd, l !! i ≠ Some (h, nd).
Proof.
  induction l as [|[h0 nd0] l IH]; simpl; [naive_solver|].
  destruct (Z.eqb_spec h0 h) as [->|Hne].
  - split; [done|]. intros Hn. by destruct (Hn 0%nat nd0).
  - rewrite fmap_None, IH. split.
    + intros Hn [|i] nd; simpl; [naive_solver|apply Hn].
    + intros Hn i nd. apply (Hn (S i)).
Qed.

Lemma find_empty_Some l i :
  find_empty l = Some i ↔
  (∃ h, l !! i = Some (h, None)) ∧
  ∀ j, (j < i)%nat → ∃ h p, l !! j = Some (h, Some p).
Proof.
  revert i. induction l as [|[h0 [p0|]] l IH]; intros i; simpl; [naive_solver|..].
  - rewrite fmap_Some. split.
    + intros (i' & Hi' & ->). apply IH in Hi' as [He Hl]. split; [done|].
      intros [|j] Hj; simpl; [eauto|]. apply Hl. lia.
    + intros [(h & He) Hl]. destruct i as [|i]; [done|]. exists i.
      split; [|done]. apply IH. split; [eauto|]. intros j Hj.
      apply (Hl (S j)). lia.
  - split.
    + intros [= <-]. split; [eauto|lia].
    + intros [_ Hl]. destruct i as [|i]; [done|].
      destruct (Hl 0%nat) as (h & p & Hp); [lia|done].
Qed.

Lemma find_empty_None l :
  find_empty l = None ↔ ∀ i s, l !! i = Some s → is_Some (snd s).
Proof.
  induction l as [|[h0 [p0|]] l IH]; simpl; [naive_solver|..].
  - rewrite fmap_None, IH. split.
    + intros Hl [|i] s; simpl; [naive_solver|]. apply Hl.
    + intros Hl i s. apply (Hl (S i)).
  - split; [done|]. intros Hl.
    destruct (Hl 0%nat (h0, None) eq_refl) as [? [=]].
Qed.

Lemma find_live_Some l h i :
  find_live l h = Some i →
  (∃ p, l !! i = Some (h, Some p)).
Proof.
  revert i. induction l as [|[h0 nd0] l IH]; intros i; simpl; [naive_solver|].
  destruct (Z.eqb_spec h0 h) as [->|]; simpl.
  - case_bool_decide as Hs; [|rewrite fmap_Some; naive_solver].
    destruct Hs as [p ->]. naive_solver.
  - rewrite fmap_Some. naive_solver.
Qed.

Lemma find_live_None l h :
  find_live l h = None ↔ ∀ i p, l !! i ≠ Some (h, Some p).
Proof.
  induction l as [|[h0 nd0] l IH]; simpl; [naive_solver|].
  destruct (Z.eqb_spec h0 h) as [->|]; simpl.
  - case_bool_decide as Hs.
    + split; [done|]. destruct Hs as [p ->]. intros Hn. by destruct (Hn 0%nat p).
    + rewrite fmap_None, IH. split.
      * intros Hn [|i] p; simpl; [|apply Hn]. intros [= ->]. apply Hs. eauto.
      * intros Hn i. apply (Hn (S i)).
  - rewrite fmap_None, IH. split.
    + intros Hn [|i] p; simpl; [naive_solver|apply Hn].
    + intros Hn i. apply (Hn (S i)).
Qed.

(** ** The table as a function of bucket and slot *)

Abbreviation table := (nat → nat → option slot).

Definition upd (s : table) (b i : nat) (v : option slot) : table :=
  λ b' i', if decide (b' = b ∧ i' = i) then v else s b' i'.

Lemma upd_eq s b i v : upd s b i v b i = v.
Proof. unfold upd. by rewrite decide_True. Qed.
Lemma upd_ne s b i v b' i' : b' ≠ b ∨ i' ≠ i → upd s b i v b' i' = s b' i'.
Proof. intros Hne. unfold upd. rewrite decide_False; [done|naive_solver]. Qed.

Lemma upd_ext s s' b i v : (∀ b' i', s b' i' = s' b' i') →
  ∀ b' i', upd s b i v b' i' = upd s' b i v b' i'.
Proof. intros Heq b' i'. unfold upd. by case_decide. Qed.

Record slot_inv (c1 c2 : Z → nat) (s : table) (M : gmap Z positive) : Prop := {
  (* a live slot holds the entry of its hash, in one of its two buckets *)
  si_live : ∀ b i h p,
    s b i = Some (h, Some p) → M !! h = Some p ∧ (b = c1 h ∨ b = c2 h);
  si_complete : ∀ h p, M !! h = Some p → ∃ b i, s b i = Some (h, Some p);
  (* a hash has one live slot *)
  si_uniq : ∀ b i p b' i' p' h,
    s b i = Some (h, Some p) → s b' i' = Some (h, Some p') → b = b' ∧ i = i';
  (* no stale slot of the same hash comes before it in its bucket *)
  si_first : ∀ b i j h p nd,
    s b j = Some (h, Some p) → (i < j)%nat → s b i ≠ Some (h, nd);
  (* nor anywhere in the first bucket, when it is in the second *)
  si_prio : ∀ j h p i nd,
    s (c2 h) j = Some (h, Some p) → c1 h ≠ c2 h → s (c1 h) i ≠ Some (h, nd);
}.
Arguments si_live {_ _ _ _}.
Arguments si_complete {_ _ _ _}.
Arguments si_uniq {_ _ _ _}.
Arguments si_first {_ _ _ _}.
Arguments si_prio {_ _ _ _}.

(** Two tables with the same slots satisfy the same invariant. *)
#[global] Instance slot_inv_proper c1 c2 :
  Proper (pointwise_relation nat (pointwise_relation nat eq) ==> eq ==> iff)
    (slot_inv c1 c2).
Proof.
  assert (∀ s s' M, (∀ b i, s b i = s' b i) → slot_inv c1 c2 s M → slot_inv c1 c2 s' M)
    as Himp.
  { intros s s' M Heq [H1 H2 H3 H4 H5]. split.
    - intros *. rewrite <-Heq. apply H1.
    - intros h p Hp. destruct (H2 h p Hp) as (b & i & Hs). exists b, i.
      by rewrite <-Heq.
    - intros *. rewrite <-!Heq. apply H3.
    - intros *. rewrite <-!Heq. apply H4.
    - intros *. rewrite <-!Heq. apply H5. }
  intros s s' Heq M ? <-. split; apply Himp; [apply Heq|].
  intros b i. symmetry. apply Heq.
Qed.

Section SlotInv.
Context {c1 c2 : Z → nat}.
Implicit Types (s : table) (M : gmap Z positive).

(** No live slot holds a hash that is not in the map. *)
Lemma slot_inv_not_live s M h :
  slot_inv c1 c2 s M → M !! h = None → ∀ b i p, s b i ≠ Some (h, Some p).
Proof. intros HI HN b i p Hs. destruct (si_live HI _ _ _ _ Hs). congruence. Qed.

(** Storing an entry in a slot that is absent, stale or already its own. *)
Lemma slot_inv_put s M b i h p :
  slot_inv c1 c2 s M →
  (b = c1 h ∨ b = c2 h) →
  (∀ b' i' p', s b' i' = Some (h, Some p') → b' = b ∧ i' = i) →
  (∀ h' p', s b i = Some (h', Some p') → h' = h) →
  (∀ i' nd, (i' < i)%nat → s b i' ≠ Some (h, nd)) →
  (b = c2 h → c1 h ≠ c2 h → ∀ i' nd, s (c1 h) i' ≠ Some (h, nd)) →
  slot_inv c1 c2 (upd s b i (Some (h, Some p))) (<[h := p]> M).
Proof.
  intros HI Hb Honly Hslot Hfirst Hprio. split.
  - intros b' i' h' p' Hs. unfold upd in Hs. case_decide as Hd.
    + destruct Hd as [-> ->]. simplify_eq. by rewrite lookup_insert_eq.
    + destruct (decide (h' = h)) as [->|]; [by destruct Hd; eapply Honly|].
      rewrite lookup_insert_ne; [|done]. by apply (si_live HI _ i').
  - intros h' p' HM. destruct (decide (h' = h)) as [->|].
    + rewrite lookup_insert_eq in HM. simplify_eq. exists b, i. apply upd_eq.
    + rewrite lookup_insert_ne in HM; [|done].
      destruct (si_complete HI _ _ HM) as (b' & i' & Hs).
      exists b', i'. unfold upd. case_decide as Hd; [|done].
      destruct Hd as [-> ->]. by apply Hslot in Hs.
  - intros b1 i1 p1 b2 i2 p2 h' Hs1 Hs2. unfold upd in Hs1, Hs2.
    repeat case_decide; destruct_and?; simplify_eq.
    + done.
    + by destruct (Honly _ _ _ Hs1) as [-> ->].
    + by destruct (Honly _ _ _ Hs2) as [-> ->].
    + by apply (si_uniq HI _ _ _ _ _ _ _ Hs1 Hs2).
  - intros b' i' j h' p' nd Hj Hlt Hi. unfold upd in Hi, Hj.
    repeat case_decide; destruct_and?; simplify_eq.
    + lia.
    + by destruct (Honly _ _ _ Hj) as [_ ->]; lia.
    + by apply (Hfirst _ _ Hlt Hi).
    + by apply (si_first HI _ _ _ _ _ _ Hj Hlt Hi).
  - intros j h' p' i' nd Hj Hne Hi. unfold upd in Hi, Hj.
    repeat case_decide; destruct_and?; simplify_eq.
    + by destruct (Honly _ _ _ Hj) as [Hc _]; congruence.
    + by apply (Hprio eq_refl Hne _ _ Hi).
    + by apply (si_prio HI _ _ _ _ _ Hj Hne Hi).
Qed.

(** Emptying a live slot, or taking it out of the table. *)
Lemma slot_inv_erase s M b i h p v :
  slot_inv c1 c2 s M →
  s b i = Some (h, Some p) →
  (v = None ∨ v = Some (h, None)) →
  slot_inv c1 c2 (upd s b i v) (delete h M).
Proof.
  intros HI Hs Hv.
  assert (∀ h' nd, v = Some (h', nd) → h' = h ∧ nd = None) as Hv'.
  { intros h' nd ->. destruct Hv as [|Hv]; [done|]. by injection Hv as -> ->. }
  split.
  - intros b' i' h' p' Hs'. unfold upd in Hs'.
    case_decide as Hd; [by apply Hv' in Hs' as [_ ?]|].
    destruct (decide (h' = h)) as [->|].
    + destruct Hd. destruct (si_uniq HI _ _ _ _ _ _ _ Hs Hs'). done.
    + rewrite lookup_delete_ne; [|done]. by apply (si_live HI _ i').
  - intros h' p' HM. apply lookup_delete_Some in HM as [Hne HM].
    destruct (si_complete HI _ _ HM) as (b' & i' & Hs').
    exists b', i'. unfold upd. case_decide as Hd; [|done].
    destruct Hd as [-> ->]. congruence.
  - intros b1 i1 p1 b2 i2 p2 h' H1 H2. unfold upd in H1.
    case_decide; [by apply Hv' in H1 as [_ ?]|].
    unfold upd in H2. case_decide; [by apply Hv' in H2 as [_ ?]|].
    by apply (si_uniq HI _ _ _ _ _ _ _ H1 H2).
  - intros b' i' j h' p' nd Hj Hlt Hi. unfold upd in Hj.
    case_decide; [by apply Hv' in Hj as [_ ?]|].
    unfold upd in Hi. case_decide as Hd.
    + apply Hv' in Hi as [-> _].
      destruct (si_uniq HI _ _ _ _ _ _ _ Hs Hj). lia.
    + by apply (si_first HI _ _ _ _ _ _ Hj Hlt Hi).
  - intros j h' p' i' nd Hj Hne Hi. unfold upd in Hj.
    case_decide; [by apply Hv' in Hj as [_ ?]|].
    unfold upd in Hi. case_decide as Hd.
    + apply Hv' in Hi as [-> _].
      destruct Hd, (si_uniq HI _ _ _ _ _ _ _ Hs Hj). congruence.
    + by apply (si_prio HI _ _ _ _ _ Hj Hne Hi).
Qed.

(** Taking a stale slot out of the table. *)
Lemma slot_inv_drop s M b i h :
  slot_inv c1 c2 s M → s b i = Some (h, None) → slot_inv c1 c2 (upd s b i None) M.
Proof.
  intros HI Hs.
  assert (∀ b' i' v, upd s b i None b' i' = Some v → s b' i' = Some v) as Hsub.
  { intros b' i' v. unfold upd. by case_decide. }
  split.
  - intros b' i' h' p Hl. apply (si_live HI b' i'), Hsub, Hl.
  - intros h' p HM. destruct (si_complete HI _ _ HM) as (b' & i' & Hl).
    exists b', i'. unfold upd. case_decide as Hd; [|done].
    destruct Hd as [-> ->]. congruence.
  - intros * Hl Hl'. apply Hsub in Hl, Hl'. by apply (si_uniq HI _ _ _ _ _ _ _ Hl Hl').
  - intros * Hj Hlt Hl. apply Hsub in Hj, Hl. by apply (si_first HI _ _ _ _ _ _ Hj Hlt Hl).
  - intros * Hj Hne Hl. apply Hsub in Hj, Hl. by apply (si_prio HI _ _ _ _ _ Hj Hne Hl).
Qed.
End SlotInv.
