(* ===== verification/CmapTable.v ===== *)
(** * Tables of lib/cmap.c: well-formedness, lookup, insertion into a bucket

    [tbl im M] says that the table [im] is well formed and represents the
    finite map [M] from client hashes to the first node of their chain. *)
From Stdlib Require Import ZArith Lia.
From stdpp Require Import base list gmap numbers option.
From S2P Require Import Prelude Hash Cmap CmapSlots.
Open Scope Z_scope.

Definition wf_bucket (bk : cmap_bucket) : Prop :=
  length (slots bk) = CMAP_K ∧ Z.even (counter bk) = true.

Record wf_impl (im : cmap_impl) : Prop := {
  wf_mask : ∃ k, 0 ≤ k < 30 ∧ mask im = 2 ^ k - 1;
  wf_len : length (buckets im) = Z.to_nat (mask im + 1);
  wf_bk : Forall wf_bucket (buckets im);
  wf_max : max_n im = calc_max_n (mask im);
  wf_min : min_n im = calc_min_n (mask im);
}.

(** Slot [i] of bucket [b]. *)
Definition sl (im : cmap_impl) : table := λ b i, buckets im !! b ≫= λ bk, slots bk !! i.

(** The parameters of the table that slot updates leave alone. *)
Definition same_params (im im' : cmap_impl) : Prop :=
  im_n im' = im_n im ∧ max_n im' = max_n im ∧ min_n im' = min_n im ∧
  mask im' = mask im ∧ basis im' = basis im.

#[global] Instance same_params_preorder : PreOrder same_params.
Proof.
  split; [by intros im; repeat split|].
  intros a b c (?&?&?&?&?) (?&?&?&?&?). repeat split; congruence.
Qed.

Lemma same_params_put im b bk : same_params im (put_bucket im b bk).
Proof. by repeat split. Qed.

Lemma wf_bucket_empty : wf_bucket empty_bucket.
Proof. by split. Qed.

Lemma bucket_at_lookup im b :
  (b < length (buckets im))%nat → buckets im !! b = Some (bucket_at im b).
Proof.
  intros Hb. unfold bucket_at. by destruct (lookup_lt_is_Some_2 _ _ Hb) as [bk ->].
Qed.

Lemma sl_bucket_at im b i :
  (b < length (buckets im))%nat → sl im b i = slots (bucket_at im b) !! i.
Proof. intros Hb. unfold sl. by rewrite bucket_at_lookup. Qed.

Lemma wf_bucket_at im b : wf_impl im → wf_bucket (bucket_at im b).
Proof.
  intros Hwf. unfold bucket_at. destruct (buckets im !! b) as [bk|] eqn:Hbk; simpl.
  - apply (Forall_lookup_1 _ _ _ _ (wf_bk _ Hwf) Hbk).
  - apply wf_bucket_empty.
Qed.

Lemma even_plus2 c : Z.even c = true → Z.even (u32 (c + 2)) = true.
Proof.
  intros He. unfold u32. apply Z.even_spec. apply Z.even_spec in He as [d ->].
  rewrite Z.mod_eq; [|lia]. exists (d + 1 - 2 ^ 31 * ((2 * d + 2) / 2 ^ 32)). lia.
Qed.

Lemma bucket_idx_lt im h : wf_impl im → (bucket_idx im h < length (buckets im))%nat.
Proof.
  intros [(k & Hk & Hm) Hlen _ _ _]. unfold bucket_idx. rewrite Hlen, Hm.
  pose proof (land_mask_range h k). lia.
Qed.

(** Every slot of a bucket is in use. *)
Definition full (im : cmap_impl) (b : nat) : Prop :=
  ∀ i s, sl im b i = Some s → is_Some (snd s).

Lemma find_empty_full im b :
  (b < length (buckets im))%nat →
  cmap_find_empty_slot_protected (bucket_at im b) = None ↔ full im b.
Proof.
  intros Hb. unfold cmap_find_empty_slot_protected, full. rewrite find_empty_None.
  split; intros Hl i s; specialize (Hl i s); by rewrite sl_bucket_at in *.
Qed.

(** ** Updating one slot *)

(** [b'] is [bk] with slot [i] set to [v]. *)
Definition set_slot (bk : cmap_bucket) (i : nat) (v : slot) (bk' : cmap_bucket) : Prop :=
  slots bk' = <[i := v]> (slots bk) ∧ Z.even (counter bk') = Z.even (counter bk).

Lemma set_slot_set_bucket bk i nd h :
  wf_bucket bk → set_slot bk i (h, nd) (cmap_set_bucket bk i nd h).
Proof. intros [_ He]. split; [done|]. simpl. rewrite He. by apply even_plus2. Qed.

Lemma put_slot_wf im b i v bk' :
  wf_impl im → set_slot (bucket_at im b) i v bk' → wf_impl (put_bucket im b bk').
Proof.
  intros Hwf [Hs He]. destruct (wf_bucket_at im b Hwf) as [Hl Hc].
  destruct Hwf as [Hm Hlen Hbk Hmax Hmin]. split; simpl; try done.
  - by rewrite length_insert.
  - apply Forall_insert; [done|]. split; [by rewrite Hs, length_insert|congruence].
Qed.

Lemma put_slot_sl im b i v bk' :
  wf_impl im → (b < length (buckets im))%nat → (i < CMAP_K)%nat →
  set_slot (bucket_at im b) i v bk' →
  ∀ b' i', sl (put_bucket im b bk') b' i' = upd (sl im) b i (Some v) b' i'.
Proof.
  intros Hwf Hb Hi [Hs _] b' i'. destruct (wf_bucket_at im b Hwf) as [Hl _].
  unfold sl, upd. simpl. destruct (decide (b' = b)) as [->|Hne].
  - rewrite list_lookup_insert_eq; [|done]. simpl. rewrite Hs.
    rewrite bucket_at_lookup; [|done]. simpl. case_decide as Hd.
    + destruct Hd as [_ ->]. apply list_lookup_insert_eq. lia.
    + rewrite list_lookup_insert_ne; [done|]. naive_solver.
  - rewrite list_lookup_insert_ne; [|done]. rewrite decide_False; [done|naive_solver].
Qed.

Lemma sl_lt im b i s : wf_impl im → sl im b i = Some s →
  (b < length (buckets im))%nat ∧ (i < CMAP_K)%nat.
Proof.
  intros Hwf Hs. unfold sl in Hs. apply bind_Some in Hs as (bk & Hbk & Hi).
  destruct (Forall_lookup_1 _ _ _ _ (wf_bk _ Hwf) Hbk) as [Hl _].
  apply lookup_lt_Some in Hbk, Hi. lia.
Qed.

Section Table.
Context `{HF : HashFns}.

(** The two buckets of a hash. *)
Definition cand1 (im : cmap_impl) (h : Z) : nat := bucket_idx im (rehash im h).
Definition cand2 (im : cmap_impl) (h : Z) : nat := bucket_idx im (other_hash (rehash im h)).

Definition tbl (im : cmap_impl) (M : gmap Z positive) : Prop :=
  wf_impl im ∧ slot_inv (cand1 im) (cand2 im) (sl im) M.

Lemma cand_same_params im im' h :
  same_params im im' → cand1 im' h = cand1 im h ∧ cand2 im' h = cand2 im h.
Proof.
  intros (_ & _ & _ & Hm & Hb).
  unfold cand1, cand2, bucket_idx, rehash. by rewrite Hm, Hb.
Qed.

Lemma tbl_set_n im M n : tbl (set_n im n) M ↔ tbl im M.
Proof. split; intros [[] HI]; (split; [by split|done]). Qed.

(** Carry the invariant over to a table with the slots [s]. *)
Lemma tbl_transfer im im' s M :
  wf_impl im' → same_params im im' →
  (∀ b i, sl im' b i = s b i) →
  slot_inv (cand1 im) (cand2 im) s M → tbl im' M.
Proof.
  intros Hwf Hp Hs HI. split; [done|].
  assert (∀ h, cand1 im' h = cand1 im h ∧ cand2 im' h = cand2 im h) as Hc
    by (intros; by apply cand_same_params).
  assert (slot_inv (cand1 im) (cand2 im) (sl im') M) as [H1 H2 H3 H4 H5].
  { assert (pointwise_relation nat (pointwise_relation nat eq) (sl im') s) as ->; done. }
  split; try done.
  - intros b i h p Hl. destruct (Hc h) as [-> ->]. eauto.
  - intros j h p i nd. destruct (Hc h) as [-> ->]. eauto.
Qed.

(** Setting slot [i] of bucket [b] of a table, and the invariant after it. *)
Lemma tbl_put_slot im M M' b i v bk' :
  tbl im M → (b < length (buckets im))%nat → (i < CMAP_K)%nat →
  set_slot (bucket_at im b) i v bk' →
  slot_inv (cand1 im) (cand2 im) (upd (sl im) b i (Some v)) M' →
  tbl (put_bucket im b bk') M'.
Proof.
  intros [Hwf _] Hb Hi Hset HI.
  eapply tbl_transfer; [by eapply put_slot_wf|apply same_params_put| |exact HI].
  by apply put_slot_sl.
Qed.

(** ** A fresh table is empty *)

Lemma sl_replicate n im b i s :
  buckets im = replicate n empty_bucket → sl im b i = Some s → s = (0, None).
Proof.
  intros Hbs Hs. unfold sl in Hs. rewrite Hbs in Hs.
  apply bind_Some in Hs as (bk & Hbk & Hi). apply lookup_replicate in Hbk as [-> _].
  unfold empty_bucket, slots in Hi. by apply lookup_replicate in Hi as [-> _].
Qed.

Lemma tbl_fresh im k :
  0 ≤ k < 30 → mask im = 2 ^ k - 1 →
  buckets im = replicate (Z.to_nat (u32 (mask im + 1))) empty_bucket →
  max_n im = calc_max_n (mask im) → min_n im = calc_min_n (mask im) →
  tbl im ∅.
Proof.
  intros Hk Hm Hbs Hmax Hmin. assert (0 < 2 ^ k < 2 ^ 32) as Hr.
  { split; [apply Z.pow_pos_nonneg|apply Z.pow_lt_mono_r]; lia. }
  split.
  - split; try done; [by exists k| |].
    + rewrite Hbs, length_replicate, u32_small; [done|lia].
    + rewrite Hbs. apply Forall_replicate, wf_bucket_empty.
  - assert (∀ b i h p, sl im b i ≠ Some (h, Some p)) as Hno.
    { intros b i h p Hs. by eapply sl_replicate in Hs. }
    split; [|intros h p; by rewrite lookup_empty|..];
      intros; exfalso; by eapply Hno.
Qed.

Lemma is_pow2_pow k : 0 ≤ k → is_pow2 (2 ^ k) = true.
Proof.
  intros Hk. assert (0 < 2 ^ k) by (apply Z.pow_pos_nonneg; lia).
  unfold is_pow2. apply andb_true_intro. split; [apply negb_true_iff; lia|].
  replace (2 ^ k - 1) with (Z.ones k) by (rewrite Z.ones_equiv; lia).
  rewrite Z.land_ones; [|done]. apply Z.eqb_eq, Z_mod_same_full.
Qed.

Lemma cmap_impl_create_spec seed k :
  0 ≤ k < 30 →
  ∃ im, cmap_impl_create seed (2 ^ k - 1) = Ret (random_next seed, im) ∧
    tbl im ∅ ∧ im_n im = 0 ∧ mask im = 2 ^ k - 1.
Proof.
  intros Hk. assert (0 < 2 ^ k < 2 ^ 32) as Hr.
  { split; [apply Z.pow_pos_nonneg|apply Z.pow_lt_mono_r]; lia. }
  unfold cmap_impl_create. rewrite Z.sub_add. rewrite u32_small; [|lia].
  rewrite is_pow2_pow; [|lia]. simpl. eexists. split; [done|]. split; [|done].
  apply (tbl_fresh _ k); simpl; try done.
  rewrite Z.sub_add, u32_small; [done|lia].
Qed.

(** ** Lookup *)

(** [cmap_find] without the counters. *)
Definition find_pure (im : cmap_impl) (h : Z) : option positive :=
  match cmap_find_in_bucket (bucket_at im (cand1 im h)) h with
  | Some p => Some p
  | None => cmap_find_in_bucket (bucket_at im (cand2 im h)) h
  end.

Lemma find_stable_wf bk h :
  wf_bucket bk → find_stable bk h = Ret (counter bk, cmap_find_in_bucket bk h).
Proof.
  intros [_ He]. unfold find_stable, read_even_counter, counter_changed.
  rewrite <-Z.negb_even, He. simpl. by rewrite Z.eqb_refl.
Qed.

Lemma cmap_find_find_pure cm h :
  wf_impl (impl cm) → cmap_find cm h = Ret (find_pure (impl cm) h).
Proof.
  intros Hwf. unfold cmap_find, cmap_find__, find_pure.
  fold (cand1 (impl cm) h). fold (cand2 (impl cm) h).
  rewrite !find_stable_wf; try by apply wf_bucket_at. simpl.
  destruct (cmap_find_in_bucket (bucket_at _ (cand1 _ _)) h); [done|].
  destruct (cmap_find_in_bucket (bucket_at _ (cand2 _ _)) h); [done|].
  unfold counter_changed. by rewrite Z.eqb_refl.
Qed.

(** A bucket finds the live slot of a hash when no stale one hides it. *)
Lemma find_in_bucket_live im M b i h p :
  tbl im M → sl im b i = Some (h, Some p) →
  cmap_find_in_bucket (bucket_at im b) h = Some p.
Proof.
  intros [Hwf HI] Hs. destruct (sl_lt _ _ _ _ Hwf Hs) as [Hb _].
  unfold cmap_find_in_bucket.
  rewrite (proj2 (slot_with_hash_Some _ h i (Some p))); [done|].
  rewrite sl_bucket_at in Hs; [|done]. split; [done|].
  intros j nd Hj Hl. rewrite <-sl_bucket_at in Hs, Hl; [|done..].
  by apply (si_first HI _ _ _ _ _ _ Hs Hj Hl).
Qed.

Lemma find_in_bucket_Some im b h p :
  (b < length (buckets im))%nat → cmap_find_in_bucket (bucket_at im b) h = Some p →
  ∃ i, sl im b i = Some (h, Some p).
Proof.
  intros Hb. unfold cmap_find_in_bucket.
  destruct (slot_with_hash _ h) as [[i nd]|] eqn:Hs; [|done]. intros ->.
  apply slot_with_hash_Some in Hs as [Hs _]. exists i. by rewrite sl_bucket_at.
Qed.

Lemma cand_lt im h : wf_impl im →
  (cand1 im h < length (buckets im))%nat ∧ (cand2 im h < length (buckets im))%nat.
Proof. intros. split; by apply bucket_idx_lt. Qed.

Lemma find_pure_spec im M h : tbl im M → find_pure im h = M !! h.
Proof.
  intros [Hwf HI]. pose proof (conj Hwf HI : tbl im M) as HT.
  destruct (cand_lt im h Hwf) as [Hc1 Hc2]. unfold find_pure.
  destruct (cmap_find_in_bucket (bucket_at im (cand1 im h)) h) as [p|] eqn:H1.
  { apply find_in_bucket_Some in H1 as [i Hs]; [|done].
    by destruct (si_live HI _ _ _ _ Hs) as [-> _]. }
  destruct (cmap_find_in_bucket (bucket_at im (cand2 im h)) h) as [p|] eqn:H2.
  { apply find_in_bucket_Some in H2 as [i Hs]; [|done].
    by destruct (si_live HI _ _ _ _ Hs) as [-> _]. }
  destruct (M !! h) as [p|] eqn:HM; [|done].
  destruct (si_complete HI _ _ HM) as (b & i & Hs).
  pose proof (find_in_bucket_live _ _ _ _ _ _ HT Hs) as Hf.
  destruct (si_live HI _ _ _ _ Hs) as [_ [-> | ->]]; congruence.
Qed.

Lemma cmap_find_spec cm M h : tbl (impl cm) M → cmap_find cm h = Ret (M !! h).
Proof.
  intros HT. rewrite cmap_find_find_pure; [|apply HT].
  f_equal. by apply find_pure_spec.
Qed.

(** ** Insertion into one of the two buckets *)

(** Where [cmap_insert_dup] would store [h]: the first slot of its first
    bucket with that hash, else of its second bucket. *)
Lemma dup_slot_inv im M b i nd h p :
  tbl im M →
  slot_with_hash (slots (bucket_at im b)) h = Some (i, nd) →
  (b = cand1 im h ∨
   b = cand2 im h ∧ slot_with_hash (slots (bucket_at im (cand1 im h))) h = None) →
  nd = M !! h ∧
  slot_inv (cand1 im) (cand2 im) (upd (sl im) b i (Some (h, Some p))) (<[h := p]> M).
Proof.
  intros [Hwf HI] Hs Hb. destruct (cand_lt im h Hwf) as [Hc1 Hc2].
  assert (b < length (buckets im))%nat as Hlt by naive_solver.
  apply slot_with_hash_Some in Hs as [Hi Hfirst].
  assert (∀ j nd', sl im b j = Some (h, nd') → (i ≤ j)%nat) as Hle.
  { intros j nd' Hj. rewrite sl_bucket_at in Hj; [|done].
    destruct (decide (i ≤ j)%nat); [done|]. exfalso. apply (Hfirst j nd'); [lia|done]. }
  rewrite <-sl_bucket_at in Hi; [|done].
  assert (b = cand2 im h → cand1 im h ≠ cand2 im h →
          ∀ i' nd', sl im (cand1 im h) i' ≠ Some (h, nd')) as Hprio.
  { intros -> Hne i' nd'. destruct Hb as [|[_ HN]]; [done|].
    rewrite sl_bucket_at; [|done]. by apply slot_with_hash_None. }
  assert (∀ b' i' p', sl im b' i' = Some (h, Some p') → b' = b ∧ i' = i) as Honly.
  { intros b' i' p' Hl. destruct (decide (b' = b)) as [->|Hne].
    - split; [done|]. specialize (Hle _ _ Hl).
      destruct (decide (i' = i)); [done|]. exfalso.
      apply (si_first HI _ i i' h p' nd Hl); [lia|done].
    - exfalso. destruct (si_live HI _ _ _ _ Hl) as [_ [-> | ->]].
      + destruct Hb as [|[-> _]]; [done|]. by eapply Hprio.
      + destruct Hb as [-> |[-> _]]; [|done].
        by apply (si_prio HI _ _ _ i nd Hl). }
  split.
  - destruct nd as [p'|].
    + by destruct (si_live HI _ _ _ _ Hi) as [-> _].
    + destruct (M !! h) as [p'|] eqn:HM; [|done].
      destruct (si_complete HI _ _ HM) as (b' & i' & Hl).
      destruct (Honly _ _ _ Hl) as [-> ->]. congruence.
  - apply slot_inv_put; [done|naive_solver|done| | |done].
    + intros h' p' Hl. congruence.
    + intros i' nd' Hlt' Hl. specialize (Hle _ _ Hl). lia.
Qed.

(** Neither bucket has a slot with [h]. *)
Definition no_slot (im : cmap_impl) (h : Z) : Prop :=
  ∀ b i nd, b = cand1 im h ∨ b = cand2 im h → sl im b i ≠ Some (h, nd).

Lemma no_slot_intro im h : wf_impl im →
  slot_with_hash (slots (bucket_at im (cand1 im h))) h = None →
  slot_with_hash (slots (bucket_at im (cand2 im h))) h = None → no_slot im h.
Proof.
  intros Hwf H1 H2 b i nd Hb. destruct (cand_lt im h Hwf).
  destruct Hb as [-> | ->]; (rewrite sl_bucket_at; [|done]);
    by apply slot_with_hash_None.
Qed.

Lemma no_slot_not_in im M h : tbl im M → no_slot im h → M !! h = None.
Proof.
  intros [Hwf HI] Hn. destruct (M !! h) as [p|] eqn:HM; [|done].
  destruct (si_complete HI _ _ HM) as (b & i & Hs).
  destruct (si_live HI _ _ _ _ Hs) as [_ Hb]. exfalso. by apply (Hn b i (Some p)).
Qed.

(** Storing a hash that has no slot in an empty slot. *)
Lemma empty_slot_inv im M b i h p :
  tbl im M → no_slot im h → b = cand1 im h ∨ b = cand2 im h →
  cmap_find_empty_slot_protected (bucket_at im b) = Some i →
  (i < CMAP_K)%nat ∧
  slot_inv (cand1 im) (cand2 im) (upd (sl im) b i (Some (h, Some p))) (<[h := p]> M).
Proof.
  intros HT Hn Hb Hi. destruct HT as [Hwf HI].
  destruct (cand_lt im h Hwf) as [Hc1 Hc2].
  assert (b < length (buckets im))%nat as Hlt by (destruct Hb; subst; done).
  apply find_empty_Some in Hi as [(h0 & Hi) _]. rewrite <-sl_bucket_at in Hi; [|done].
  split; [by eapply sl_lt|]. apply slot_inv_put; try done.
  - intros b' i' p' Hl. destruct (si_live HI _ _ _ _ Hl) as [_ Hb'].
    by destruct (Hn _ _ _ Hb' Hl).
  - intros h' p' Hl. congruence.
  - intros i' nd _. by apply Hn.
  - intros _ _ i' nd. apply Hn. by left.
Qed.
End Table.
