(* ===== verification/CmapBfs.v ===== *)
(** * [cmap_insert_bfs]: making room by a breadth-first search

    The search returns a path of full buckets that never visits a bucket
    twice (it is a shortest one), so that moving the nodes backward along it
    loses none of them. *)
From Stdlib Require Import ZArith Lia.
From stdpp Require Import base list gmap numbers option.
From S2P Require Import Prelude Hash Cmap CmapSlots CmapTable.
Open Scope Z_scope.

Section Bfs.
Context `{HF : HashFns}.

Abbreviation obp := other_bucket_protected.

(** ** Following a path *)

Fixpoint follow (im : cmap_impl) (b : nat) (ss : list nat) : nat :=
  match ss with
  | [] => b
  | s :: ss' => follow im (obp im b s) ss'
  end.

Lemma follow_app im b ss ss' : follow im b (ss ++ ss') = follow im (follow im b ss) ss'.
Proof. revert b. induction ss as [|s ss IH]; intros b; simpl; auto. Qed.

Lemma length_path_buckets im b ss : length (path_buckets im b ss) = S (length ss).
Proof. revert b. induction ss as [|s ss IH]; intros b; simpl; auto. Qed.

Lemma path_buckets_snoc im b ss s :
  path_buckets im b (ss ++ [s]) = path_buckets im b ss ++ [follow im b (ss ++ [s])].
Proof. revert b. induction ss as [|x ss IH]; intros b; simpl; [done|]. by rewrite IH. Qed.

Lemma path_buckets_lookup im b ss k x :
  path_buckets im b ss !! k = Some x →
  (k ≤ length ss)%nat ∧ x = follow im b (take k ss).
Proof.
  revert b k. induction ss as [|s ss IH]; intros b k; simpl.
  - destruct k as [|k]; simpl; [|done]. intros [= ->]. split; [lia|done].
  - destruct k as [|k]; simpl.
    + intros [= ->]. split; [lia|done].
    + intros Hk. apply IH in Hk as [Hk ->]. split; [lia|done].
Qed.

Lemma zip_path_snoc im b ss i j :
  zip (path_buckets im b (ss ++ [i])) ((ss ++ [i]) ++ [j]) =
  zip (path_buckets im b ss) (ss ++ [i]) ++ [(follow im b (ss ++ [i]), j)].
Proof.
  rewrite path_buckets_snoc. rewrite zip_with_app; [done|].
  rewrite length_path_buckets, length_app. simpl. lia.
Qed.

Lemma other_bucket_lt im b i : wf_impl im → (obp im b i < length (buckets im))%nat.
Proof. intros. by apply bucket_idx_lt. Qed.

(** The other bucket of a live slot is the other candidate of its hash. *)
Lemma other_bucket_live im M b i h p :
  tbl im M → sl im b i = Some (h, Some p) →
  (b = cand1 im h ∧ obp im b i = cand2 im h) ∨
  (b = cand2 im h ∧ obp im b i = cand1 im h).
Proof.
  intros [Hwf HI] Hs. destruct (sl_lt _ _ _ _ Hwf Hs) as [Hb _].
  pose proof (si_live HI _ _ _ _ Hs) as [_ Hc].
  unfold other_bucket_protected, slot_at. rewrite <-sl_bucket_at, Hs; [|done]. simpl.
  assert ((Z.land (rehash im h) (mask im) =? Z.of_nat b) = bool_decide (b = cand1 im h))
    as ->.
  { destruct (wf_mask im Hwf) as (k & Hk & Hm).
    pose proof (land_mask_range (rehash im h) k).
    unfold cand1, bucket_idx. rewrite Hm in *. case_bool_decide; lia. }
  case_bool_decide as Hd; [by left|right]. destruct Hc; [done|]. done.
Qed.

(** ** The search *)

Definition ext (im : cmap_impl) (p : cmap_path) (i : nat) : cmap_path :=
  mkPath (p_start p) (obp im (p_end p) i) (p_slots p ++ [i]).

(** No slot of [b] leads to another bucket with room. *)
Definition stuck (im : cmap_impl) (b : nat) (todo : list nat) : Prop :=
  ∀ i, i ∈ todo → obp im b i = b ∨ full im (obp im b i).

Abbreviation plen p := (length (p_slots p)).

Lemma bfs_slots_inl im p todo queue i j :
  bfs_slots im p todo queue = inl (i, j) →
  i ∈ todo ∧ obp im (p_end p) i ≠ p_end p ∧
  cmap_find_empty_slot_protected (bucket_at im (obp im (p_end p) i)) = Some j.
Proof.
  revert queue. induction todo as [|k todo IH]; intros queue; simpl; [done|].
  destruct (Nat.eqb_spec (p_end p) (obp im (p_end p) k)) as [Heq|Hne].
  { intros (? & ? & ?)%IH. split; [by right|done]. }
  destruct (cmap_find_empty_slot_protected (bucket_at im (obp im (p_end p) k)))
    as [j'|] eqn:He.
  { intros ?; simplify_eq. split; [by left|done]. }
  destruct (_ && _); intros (? & ? & ?)%IH; (split; [by right|done]).
Qed.

(** What the loop over the slots [todo] of [p_end p] did to the queue when it
    found no room: the paths [add] were appended. *)
Record bfs_post (im : cmap_impl) (p : cmap_path) (todo : list nat)
    (queue add : list cmap_path) : Prop := {
  bp_stuck : stuck im (p_end p) todo;
  bp_add : ∀ q, q ∈ add → (plen p < MAX_DEPTH)%nat ∧
    ∃ i, i ∈ todo ∧ q = ext im p i ∧ obp im (p_end p) i ≠ p_end p ∧
         full im (obp im (p_end p) i);
  bp_complete : ∀ i, i ∈ todo → (plen p < MAX_DEPTH)%nat →
    obp im (p_end p) i ≠ p_end p →
    ext im p i ∈ add ∨ (MAX_QUEUE ≤ length (queue ++ add))%nat;
  bp_len : (length queue ≤ MAX_QUEUE → length (queue ++ add) ≤ MAX_QUEUE)%nat;
}.

(** A slot that adds nothing to the queue. *)
Lemma bfs_post_skip im p k todo queue add :
  bfs_post im p todo queue add →
  (obp im (p_end p) k = p_end p ∨ full im (obp im (p_end p) k)) →
  ((plen p < MAX_DEPTH)%nat → obp im (p_end p) k ≠ p_end p →
   (MAX_QUEUE ≤ length queue)%nat) →
  bfs_post im p (k :: todo) queue add.
Proof.
  intros [H1 H2 H3 H4] Hk Hroom. split; [| | |done].
  - intros i [->|Hi]%elem_of_cons; [done|by apply H1].
  - intros q Hq. destruct (H2 q Hq) as (? & i & ? & ?). split; [done|].
    exists i. split; [by right|done].
  - intros i [->|Hi]%elem_of_cons Hd Hne; [|by apply H3].
    right. rewrite length_app. specialize (Hroom Hd Hne). lia.
Qed.

(** A slot whose path is appended. *)
Lemma bfs_post_push im p k todo queue add :
  bfs_post im p todo (queue ++ [ext im p k]) add →
  (plen p < MAX_DEPTH)%nat → (length queue < MAX_QUEUE)%nat →
  obp im (p_end p) k ≠ p_end p → full im (obp im (p_end p) k) →
  bfs_post im p (k :: todo) queue (ext im p k :: add).
Proof.
  intros [H1 H2 H3 H4] Hd Hq Hne Hf.
  assert (queue ++ ext im p k :: add = (queue ++ [ext im p k]) ++ add) as Happ
    by by rewrite <-app_assoc.
  split.
  - intros i [->|Hi]%elem_of_cons; [by right|by apply H1].
  - intros q [->|Hq']%elem_of_cons.
    + split; [done|]. exists k. split; [by left|done].
    + destruct (H2 q Hq') as (? & i & ? & ?). split; [done|].
      exists i. split; [by right|done].
  - intros i [->|Hi]%elem_of_cons Hlt Hne'; [left; by left|]. rewrite Happ.
    destruct (H3 i Hi Hlt Hne') as [|]; [left; by right|by right].
  - intros _. rewrite Happ. apply H4. rewrite length_app. simpl. lia.
Qed.

Lemma bfs_slots_inr im p todo queue queue' :
  wf_impl im →
  bfs_slots im p todo queue = inr queue' →
  ∃ add, queue' = queue ++ add ∧ bfs_post im p todo queue add.
Proof.
  intros Hwf. revert queue queue'.
  induction todo as [|k todo IH]; intros queue queue'; simpl.
  { intros [= <-]. exists []. rewrite app_nil_r.
    split; [done|]. split; [| | |by rewrite app_nil_r].
    - intros i Hi. by apply not_elem_of_nil in Hi.
    - intros q Hq. by apply not_elem_of_nil in Hq.
    - intros i Hi. by apply not_elem_of_nil in Hi. }
  destruct (Nat.eqb_spec (p_end p) (obp im (p_end p) k)) as [Heq|Hne].
  { intros (add & -> & HP)%IH. exists add. split; [done|].
    apply bfs_post_skip; [done|by left|done]. }
  destruct (cmap_find_empty_slot_protected _) as [j'|] eqn:He; [done|].
  apply find_empty_full in He; [|by apply other_bucket_lt].
  destruct (Nat.ltb_spec (plen p) MAX_DEPTH) as [Hd|Hd]; simpl;
    [destruct (Nat.ltb_spec (length queue) MAX_QUEUE) as [Hq|Hq]|];
    intros (add & -> & HP)%IH.
  - fold (ext im p k) in HP |- *. exists (ext im p k :: add).
    split; [by rewrite <-app_assoc|]. by apply bfs_post_push.
  - exists add. split; [done|]. apply bfs_post_skip; [done|by right|done].
  - exists add. split; [done|]. apply bfs_post_skip; [done|by right|lia].
Qed.

(** The invariant of the outer loop: [queue[0..tail)] has been explored. *)
Record bfs_inv (im : cmap_impl) (b1 b2 : nat) (queue : list cmap_path) (tail : nat) :
    Prop := {
  bi_valid : ∀ p, p ∈ queue →
    (p_start p = b1 ∨ p_start p = b2) ∧
    p_end p = follow im (p_start p) (p_slots p) ∧
    Forall (λ i, i < CMAP_K)%nat (p_slots p) ∧
    (plen p ≤ MAX_DEPTH)%nat ∧ full im (p_end p);
  bi_prefix : ∀ p ss i, p ∈ queue → p_slots p = ss ++ [i] →
    ∃ q, q ∈ take tail queue ∧ p_start q = p_start p ∧ p_slots q = ss ∧
         p_end q ≠ p_end p;
  bi_sorted : ∀ a b p q, queue !! a = Some p → queue !! b = Some q → (a ≤ b)%nat →
    (plen p ≤ plen q)%nat;
  bi_done : ∀ p, p ∈ take tail queue → stuck im (p_end p) (seq 0 CMAP_K);
  bi_complete : ∀ p i, p ∈ take tail queue → (i < CMAP_K)%nat →
    (plen p < MAX_DEPTH)%nat → obp im (p_end p) i ≠ p_end p →
    ext im p i ∈ queue ∨
    (MAX_QUEUE ≤ length queue)%nat ∧ ∀ q, q ∈ queue → (plen q ≤ S (plen p))%nat;
  bi_front : ∀ p q, queue !! tail = Some p → q ∈ queue → (plen q ≤ S (plen p))%nat;
  bi_len : (length queue ≤ MAX_QUEUE)%nat;
}.

Lemma bfs_inv_start im b1 b2 :
  full im b1 → full im b2 → bfs_inv im b1 b2 (bfs_start b1 b2) 0.
Proof.
  intros Hf1 Hf2.
  assert (∀ p, p ∈ bfs_start b1 b2 → p = mkPath b1 b1 [] ∨ p = mkPath b2 b2 []) as Hin.
  { intros p. unfold bfs_start. case_match; rewrite !elem_of_cons, elem_of_nil; tauto. }
  assert (∀ p, p ∈ bfs_start b1 b2 → p_slots p = []) as Hnil
    by (intros p [-> | ->]%Hin; done).
  split.
  - intros p [-> | ->]%Hin; simpl; split_and!; auto; unfold MAX_DEPTH; lia.
  - intros p ss i Hp Hs. rewrite (Hnil p Hp) in Hs. by destruct ss.
  - intros a b p q Hp _ _. rewrite (Hnil p); [simpl; lia|]. by eapply list_elem_of_lookup_2.
  - intros p Hp. by apply not_elem_of_nil in Hp.
  - intros p i Hp. by apply not_elem_of_nil in Hp.
  - intros p q _ Hq. rewrite (Hnil q Hq). simpl. lia.
  - unfold bfs_start, MAX_QUEUE. case_match; simpl; lia.
Qed.

Lemma take_S_elem {A} (l add : list A) (t : nat) (x y : A) :
  l !! t = Some x → y ∈ take (S t) (l ++ add) ↔ y ∈ take t l ∨ y = x.
Proof.
  intros Hx. pose proof (lookup_lt_Some _ _ _ Hx).
  rewrite take_app_le; [|lia]. rewrite (take_S_r _ _ _ Hx).
  rewrite elem_of_app, list_elem_of_singleton. done.
Qed.

Lemma take_subset {A} (l : list A) (t : nat) (y : A) : y ∈ take t l → y ∈ l.
Proof. intros Hy. rewrite <-(take_drop t l). apply elem_of_app. by left. Qed.

(** Exploring the path at [tail] keeps the invariant. *)
Lemma bfs_inv_step im b1 b2 queue tail p add :
  bfs_inv im b1 b2 queue tail → queue !! tail = Some p →
  bfs_post im p (seq 0 CMAP_K) queue add →
  bfs_inv im b1 b2 (queue ++ add) (S tail).
Proof.
  intros HI Hp HP. pose proof (list_elem_of_lookup_2 _ _ _ Hp) as Hpq.
  destruct (bi_valid _ _ _ _ _ HI p Hpq) as (Hst & Hend & Hall & Hdep & Hfull).
  assert (∀ q, q ∈ add → plen q = S (plen p)) as Hadd.
  { intros q Hq. destruct (bp_add _ _ _ _ _ HP q Hq) as (_ & i & _ & -> & _).
    simpl. rewrite length_app. simpl. lia. }
  assert (∀ q, q ∈ queue ++ add → (plen q ≤ S (plen p))%nat) as Hle.
  { intros q [Hq|Hq]%elem_of_app; [by apply (bi_front _ _ _ _ _ HI)|].
    rewrite (Hadd q Hq). lia. }
  assert (∀ a q, (queue ++ add) !! a = Some q → (tail ≤ a → plen p ≤ plen q)%nat) as Hge.
  { intros a q Ha Hta. apply lookup_app_Some in Ha as [Ha|[_ Ha]].
    - by apply (bi_sorted _ _ _ _ _ HI tail a).
    - rewrite (Hadd q); [lia|]. by eapply list_elem_of_lookup_2. }
  split.
  - intros q [Hq|Hq]%elem_of_app; [by apply (bi_valid _ _ _ _ _ HI)|].
    destruct (bp_add _ _ _ _ _ HP q Hq) as (Hd & i & Hi & -> & Hne & Hf). simpl.
    split_and!; [done| | | |done].
    + rewrite follow_app, <-Hend. done.
    + apply Forall_app. split; [done|]. apply Forall_singleton.
      apply elem_of_seq in Hi. lia.
    + rewrite length_app. simpl. lia.
  - intros q ss i [Hq|Hq]%elem_of_app Hs.
    + destruct (bi_prefix _ _ _ _ _ HI q ss i Hq Hs) as (q' & Hq' & ?).
      exists q'. split; [|done]. rewrite take_S_elem; [by left|done].
    + destruct (bp_add _ _ _ _ _ HP q Hq) as (Hd & k & Hk & -> & Hne & Hf).
      simpl in *. apply app_inj_tail in Hs as [<- <-].
      exists p. split; [rewrite take_S_elem; [by right|done]|]. done.
  - intros a b q q' Ha Hb Hab.
    destruct (decide (b < length queue)%nat) as [Hlt|Hge'].
    + rewrite lookup_app_l in Ha, Hb; [|lia..]. by apply (bi_sorted _ _ _ _ _ HI a b).
    + rewrite lookup_app_r in Hb; [|lia].
      rewrite (Hadd q'); [|by eapply list_elem_of_lookup_2].
      apply Hle. by eapply list_elem_of_lookup_2.
  - intros q. rewrite take_S_elem; [|done].
    intros [Hq| ->]; [by apply (bi_done _ _ _ _ _ HI)|]. apply HP.
  - intros q i. rewrite take_S_elem; [|done]. intros [Hq| ->] Hi Hd Hne.
    + destruct (bi_complete _ _ _ _ _ HI q i Hq Hi Hd Hne) as [Hin|[Hfl Hle']].
      * left. apply elem_of_app. by left.
      * right. pose proof (bi_len _ _ _ _ _ HI).
        pose proof (bp_len _ _ _ _ _ HP). rewrite length_app in *. split; [lia|].
        destruct add as [|x add]; [by rewrite app_nil_r|simpl in *; lia].
    + assert (i ∈ seq 0 CMAP_K) as Hi' by (apply elem_of_seq; lia).
      destruct (bp_complete _ _ _ _ _ HP i Hi' Hd Hne) as [Hin|Hfl].
      * left. apply elem_of_app. by right.
      * right. done.
  - intros q q' Hq Hq'. specialize (Hge _ _ Hq). specialize (Hle _ Hq'). lia.
  - apply HP, HI.
Qed.

(** The search stops, and what it finds. *)
Lemma bfs_search_spec fuel im b1 b2 queue tail :
  wf_impl im → bfs_inv im b1 b2 queue tail →
  (tail ≤ length queue)%nat → (MAX_QUEUE < fuel + tail)%nat →
  ∃ r, bfs_search fuel im queue tail = Ret r ∧
    match r with
    | None => True
    | Some (p, i, j) =>
        ∃ queue' tail', bfs_inv im b1 b2 queue' tail' ∧ queue' !! tail' = Some p ∧
          (i < CMAP_K)%nat ∧ obp im (p_end p) i ≠ p_end p ∧
          cmap_find_empty_slot_protected (bucket_at im (obp im (p_end p) i)) = Some j
    end.
Proof.
  intros Hwf. revert queue tail. induction fuel as [|fuel IH]; intros queue tail HI Ht Hfuel.
  { pose proof (bi_len _ _ _ _ _ HI). lia. }
  cbn [bfs_search]. destruct (queue !! tail) as [p|] eqn:Hp; [|by exists None].
  destruct (bfs_slots im p (seq 0 CMAP_K) queue) as [[i j]|queue'] eqn:Hs.
  - apply bfs_slots_inl in Hs as (Hi & Hne & He). apply elem_of_seq in Hi.
    exists (Some (p, i, j)). split; [done|]. exists queue, tail.
    split_and!; [done|done|lia|done|done].
  - apply bfs_slots_inr in Hs as (add & -> & HP); [|done].
    apply lookup_lt_Some in Hp as Hlt. apply IH.
    + by eapply bfs_inv_step.
    + rewrite length_app. lia.
    + lia.
Qed.

(** Every proper prefix of a queued path has been explored. *)
Lemma bfs_inv_prefixes im b1 b2 queue tail p ss ss' :
  bfs_inv im b1 b2 queue tail → p ∈ queue → p_slots p = ss ++ ss' → ss' ≠ [] →
  ∃ q, q ∈ take tail queue ∧ p_start q = p_start p ∧ p_slots q = ss ∧
       p_end q ≠ follow im (p_start p) (take (S (length ss)) (p_slots p)).
Proof.
  intros HI. revert p ss. induction ss' as [|i ss' IH] using rev_ind; [done|].
  intros p ss Hp Hs _. rewrite app_assoc in Hs.
  destruct (bi_prefix _ _ _ _ _ HI _ _ _ Hp Hs) as (q & Hq & Hst & Hsl & Hne).
  destruct (bi_valid _ _ _ _ _ HI p Hp) as (_ & Hend & _).
  destruct (decide (ss' = [])) as [->|Hne'].
  - rewrite app_nil_r in *. exists q. split_and!; [done..|].
    rewrite take_ge; [by rewrite <-Hend|]. rewrite Hs, length_app. simpl. lia.
  - destruct (IH q ss (take_subset _ _ _ Hq) Hsl Hne') as (q' & ? & ? & ? & Hne'').
    exists q'. split_and!; [done|congruence|done|]. rewrite Hst, Hsl in Hne''.
    rewrite Hs. rewrite take_app_le; [done|]. rewrite length_app.
    destruct ss'; [done|simpl; lia].
Qed.

(** If the path [u ++ v] visits at its end the bucket that [u] reached, then
    every path [u ++ w1] with [w1] a prefix of the rest [w] was explored before. *)
Lemma bfs_shortcut im b1 b2 queue tail p u v w1 w2 :
  bfs_inv im b1 b2 queue tail → queue !! tail = Some p →
  p_slots p = u ++ v ++ w1 ++ w2 → v ≠ [] →
  follow im (p_start p) u = follow im (p_start p) (u ++ v) →
  ∃ q, q ∈ take tail queue ∧ p_start q = p_start p ∧ p_slots q = u ++ w1.
Proof.
  intros HI Hp. pose proof (list_elem_of_lookup_2 _ _ _ Hp) as Hpq.
  destruct (bi_valid _ _ _ _ _ HI p Hpq) as (_ & _ & Hall & Hdep & _).
  revert w2. induction w1 as [|x w1 IH] using rev_ind; intros w2 Hs Hv Hloop.
  { rewrite app_nil_r.
    destruct (bfs_inv_prefixes _ _ _ _ _ p u (v ++ [] ++ w2) HI Hpq Hs) as (q & ?&?&?&_).
    - intros [? _]%app_nil. done.
    - by exists q. }
  rewrite <-app_assoc in Hs. simpl in Hs.
  destruct (IH (x :: w2) Hs Hv Hloop) as (q & Hq & Hst & Hsl).
  destruct (bi_valid _ _ _ _ _ HI q (take_subset _ _ _ Hq)) as (_ & Hqend & _).
  (* the slot [x] leads out of the bucket where [q] ends *)
  assert (p_end q = follow im (p_start p) (u ++ v ++ w1)) as Hqe.
  { rewrite Hqend, Hst, Hsl. by rewrite app_assoc, !(follow_app _ _ _ w1), Hloop. }
  assert (p_slots p = (u ++ v ++ w1) ++ (x :: w2)) as Hs'.
  { rewrite Hs, <-!app_assoc. done. }
  destruct (bfs_inv_prefixes _ _ _ _ _ p _ _ HI Hpq Hs') as (q' & Hq' & Hst' & Hsl' & Hne);
    [done|].
  assert (obp im (p_end q) x ≠ p_end q) as Hx.
  { destruct (bi_valid _ _ _ _ _ HI q' (take_subset _ _ _ Hq')) as (_ & Hqend' & _).
    rewrite Hqend', Hst', Hsl' in Hne. rewrite Hqe. intros Heq. apply Hne.
    rewrite Hs'. rewrite take_app_ge by lia.
    replace (S _ - _)%nat with 1%nat by lia. simpl. rewrite take_0.
    by rewrite (follow_app _ _ _ [x]). }
  assert (x < CMAP_K)%nat as HxK.
  { rewrite Hs' in Hall. apply Forall_app in Hall as [_ Hall].
    by apply Forall_cons_1 in Hall as [? _]. }
  assert (plen q < plen p)%nat as Hlt.
  { rewrite Hsl, Hs, !length_app. simpl. destruct v; [done|simpl; lia]. }
  assert (S (plen q) < plen p)%nat as Hlt'.
  { rewrite Hsl, Hs, !length_app. simpl. destruct v; [done|simpl; lia]. }
  destruct (bi_complete _ _ _ _ _ HI q x Hq HxK) as [Hin|[_ Hle]]; [lia|done| |].
  - apply list_elem_of_lookup in Hin as [a Ha].
    exists (ext im q x). split_and!; [|done|simpl; by rewrite Hsl, app_assoc].
    apply list_elem_of_lookup. exists a.
    destruct (decide (a < tail)%nat); [by rewrite lookup_take_lt|].
    pose proof (bi_sorted _ _ _ _ _ HI tail a _ _ Hp Ha) as Hso.
    simpl in Hso. rewrite length_app in Hso. simpl in Hso. lia.
  - specialize (Hle p Hpq). lia.
Qed.

(** The path found never visits a bucket twice. *)
Lemma bfs_path_NoDup im b1 b2 queue tail p i :
  bfs_inv im b1 b2 queue tail → queue !! tail = Some p →
  (i < CMAP_K)%nat → obp im (p_end p) i ≠ p_end p → ¬ full im (obp im (p_end p) i) →
  NoDup (path_buckets im (p_start p) (p_slots p)).
Proof.
  intros HI Hp Hi Hne Hnf. pose proof (list_elem_of_lookup_2 _ _ _ Hp) as Hpq.
  destruct (bi_valid _ _ _ _ _ HI p Hpq) as (_ & Hend & _).
  assert (∀ a b x, (a < b)%nat → path_buckets im (p_start p) (p_slots p) !! a = Some x →
          path_buckets im (p_start p) (p_slots p) !! b = Some x → False) as Hno.
  { intros a b x Hab Ha Hb. apply path_buckets_lookup in Ha as [Hla ->].
    apply path_buckets_lookup in Hb as [Hlb Hb].
    set (u := take a (p_slots p)) in *. set (v := drop a (take b (p_slots p))).
    set (w := drop b (p_slots p)).
    assert (take b (p_slots p) = u ++ v) as Huv.
    { unfold u, v. rewrite <-(take_drop a (take b (p_slots p))) at 1.
      rewrite take_take. by replace (a `min` b)%nat with a by lia. }
    assert (p_slots p = u ++ v ++ w ++ []) as Hs.
    { rewrite app_nil_r, app_assoc, <-Huv. unfold w. by rewrite take_drop. }
    destruct (bfs_shortcut _ _ _ _ _ p u v w [] HI Hp Hs) as (q & Hq & Hst & Hsl).
    - intros Hv. apply (f_equal length) in Hv.
      unfold v in Hv. rewrite length_drop, length_take in Hv. simpl in Hv. lia.
    - by rewrite <-Huv.
    - destruct (bi_valid _ _ _ _ _ HI q (take_subset _ _ _ Hq)) as (_ & Hqend & _).
      assert (p_end q = p_end p) as Heq.
      { rewrite Hqend, Hend, Hst, Hsl, Hs, app_nil_r, app_assoc, <-Huv.
        by rewrite !follow_app, Hb. }
      destruct (bi_done _ _ _ _ _ HI q Hq i) as [?|?].
      + apply elem_of_seq. lia.
      + congruence.
      + rewrite Heq in *. done. }
  apply NoDup_alt. intros a b x Ha Hb.
  destruct (lt_eq_lt_dec a b) as [[?|?]|?]; [|done|]; exfalso; by eapply Hno.
Qed.

(** ** Moving nodes along a path *)

(** [rpath] lists, backward, the slots of a path that leads to [hole]. *)
Inductive linked (c1 c2 : Z → nat) (s : table) : nat * nat → list (nat * nat) → Prop :=
| linked_nil hole : linked c1 c2 s hole []
| linked_cons hole b i h p rpath :
    s b i = Some (h, Some p) → b ≠ fst hole →
    (b = c1 h ∧ fst hole = c2 h ∨ b = c2 h ∧ fst hole = c1 h) →
    linked c1 c2 s (b, i) rpath →
    linked c1 c2 s hole ((b, i) :: rpath).

Lemma linked_agree c1 c2 s s' hole rpath :
  linked c1 c2 s hole rpath →
  (∀ b i, b ∈ rpath.*1 → s' b i = s b i) → linked c1 c2 s' hole rpath.
Proof.
  induction 1 as [|hole b i h p rpath Hs Hne Hc Hl IH]; intros Heq; [constructor|].
  econstructor; [|done..|].
  - rewrite Heq; [done|]. by left.
  - apply IH. intros b' i' Hb'. apply Heq. by right.
Qed.

(** The slots before [hole] in its bucket are in use. *)
Definition live_before (s : table) (hole : nat * nat) : Prop :=
  ∀ i, (i < snd hole)%nat → ∃ h p, s (fst hole) i = Some (h, Some p).

(** One move: the entry of slot ([b], [i]) is stored in the hole, and that
    slot is the new hole. *)
Lemma slot_inv_move c1 c2 s M B j b i h p :
  slot_inv c1 c2 (upd s B j None) M → live_before s (B, j) →
  s b i = Some (h, Some p) → b ≠ B →
  (b = c1 h ∧ B = c2 h ∨ b = c2 h ∧ B = c1 h) →
  (∀ i' v, s b i' = Some v → is_Some (snd v)) →
  slot_inv c1 c2 (upd (upd s B j (Some (h, Some p))) b i None) M.
Proof.
  intros HI Hlive Hs Hne Hc Hfull.
  assert (upd s B j None b i = Some (h, Some p)) as Hs' by (rewrite upd_ne; auto).
  destruct (si_live HI _ _ _ _ Hs') as [HM _].
  pose proof (slot_inv_erase _ _ _ _ _ _ None HI Hs' (or_introl eq_refl)) as HE.
  assert (∀ b' i' p', upd (upd s B j None) b i None b' i' ≠ Some (h, Some p')) as Hnl.
  { apply (slot_inv_not_live _ _ _ HE), lookup_delete_eq. }
  eapply (slot_inv_put _ _ B j h p) in HE.
  - rewrite insert_delete_id in HE; [|done]. revert HE.
    apply slot_inv_proper; [|done]. intros b' i'. unfold upd.
    repeat case_decide; naive_solver.
  - naive_solver.
  - intros b' i' p' Hl. by destruct (Hnl _ _ _ Hl).
  - intros h' p' Hl. rewrite upd_ne, upd_eq in Hl; [done|]. left. congruence.
  - intros i' nd Hlt Hl. rewrite !upd_ne in Hl; [|by (left; congruence) || (right; lia)..].
    destruct (Hlive i' Hlt) as (h' & p' & Hl'). simpl in Hl'.
    apply (Hnl B i' p'). rewrite !upd_ne; [congruence|(left; congruence) || (right; lia)..].
  - intros -> Hc12 i' nd Hl. assert (b = c1 h) as -> by (destruct Hc as [[]|[]]; congruence).
    unfold upd in Hl. case_decide; [done|]. case_decide; [naive_solver|].
    destruct (Hfull i' _ Hl) as [p' Hp']. simpl in Hp'. subst nd.
    destruct (si_uniq HI _ _ p' _ _ _ _ (eq_trans (upd_ne _ _ _ _ _ _ (or_introl Hc12)) Hl) Hs').
    naive_solver.
Qed.

Lemma slot_at_sl im b i v : wf_impl im → sl im b i = Some v → slot_at im b i = v.
Proof.
  intros Hwf Hs. destruct (sl_lt _ _ _ _ Hwf Hs) as [Hb _].
  unfold slot_at. by rewrite <-sl_bucket_at, Hs.
Qed.

(** Storing [v] in a slot with [cmap_set_bucket]. *)
Lemma set_bucket_spec im B j h nd :
  wf_impl im → (B < length (buckets im))%nat → (j < CMAP_K)%nat →
  let im' := put_bucket im B (cmap_set_bucket (bucket_at im B) j nd h) in
  wf_impl im' ∧ same_params im im' ∧ length (buckets im') = length (buckets im) ∧
  ∀ b i, sl im' b i = upd (sl im) B j (Some (h, nd)) b i.
Proof.
  intros Hwf HB Hj im'.
  assert (set_slot (bucket_at im B) j (h, nd) (cmap_set_bucket (bucket_at im B) j nd h))
    as Hset by by apply set_slot_set_bucket, wf_bucket_at.
  split_and!; [by eapply put_slot_wf|apply same_params_put| |by apply put_slot_sl].
  apply length_insert.
Qed.

Lemma full_upd im im' B j h p b :
  (∀ b' i, sl im' b' i = upd (sl im) B j (Some (h, Some p)) b' i) →
  full im b → full im' b.
Proof.
  intros Hs Hf i v. rewrite Hs. unfold upd. case_decide; [|apply Hf].
  intros [= <-]. by eexists.
Qed.

Lemma move_backward_spec rpath im B j M :
  wf_impl im → (B < length (buckets im))%nat → (j < CMAP_K)%nat →
  slot_inv (cand1 im) (cand2 im) (upd (sl im) B j None) M →
  live_before (sl im) (B, j) →
  linked (cand1 im) (cand2 im) (sl im) (B, j) rpath →
  NoDup (B :: rpath.*1) → (∀ b, b ∈ rpath.*1 → full im b) →
  ∃ im' B' j', move_backward im rpath (B, j) = (im', (B', j')) ∧
    wf_impl im' ∧ same_params im im' ∧ (∀ b, full im b → full im' b) ∧
    (B' < length (buckets im'))%nat ∧ (j' < CMAP_K)%nat ∧
    slot_inv (cand1 im) (cand2 im) (upd (sl im') B' j' None) M ∧
    live_before (sl im') (B', j') ∧ list.last ((B, j) :: rpath) = Some (B', j').
Proof.
  revert im B j. induction rpath as [|[b i] rpath IH];
    intros im B j Hwf HB Hj HI Hlive Hl Hnd Hfull.
  { exists im, B, j. by split_and!. }
  inversion Hl as [|? ? ? h p ? Hs Hne Hc Hl' Heq1 Heq2]. subst. simpl in Hne, Hc.
  apply list.NoDup_cons in Hnd as [HnB Hnd]. simpl in HnB, Hnd.
  destruct (sl_lt _ _ _ _ Hwf Hs) as [Hb Hi].
  cbn [move_backward]. unfold move_slot. simpl. rewrite (slot_at_sl _ _ _ _ Hwf Hs).
  destruct (set_bucket_spec im B j h (Some p) Hwf HB Hj) as (Hwf1 & Hp1 & Hlen & Hsl1).
  set (im1 := put_bucket im B _) in *.
  assert (∀ b' i', b' ≠ B → sl im1 b' i' = sl im b' i') as Hother
    by (intros; rewrite Hsl1, upd_ne; auto).
  destruct (IH im1 b i) as (im' & B' & j' & -> & Hwf' & Hp' & Hf' & HB' & Hj' & HI' & Hl'' & Hlast).
  - done.
  - by rewrite Hlen.
  - done.
  - pose proof (slot_inv_move _ _ _ _ _ _ _ _ _ _ HI Hlive Hs Hne Hc) as HI1.
    assert (full im b) as Hfb by (apply Hfull; by left). specialize (HI1 Hfb).
    revert HI1. apply slot_inv_proper; [|done].
    intros b' i'. symmetry. by apply upd_ext.
  - intros i' Hi'. simpl in *. rewrite Hother; [|done].
    destruct (Hfull b ltac:(by left) i' (slot_at im b i')) as [p' Hp''].
    + rewrite sl_bucket_at; [|done]. unfold slot_at.
      destruct (lookup_lt_is_Some_2 (slots (bucket_at im b)) i') as [v ->]; [|done].
      destruct (wf_bucket_at im b Hwf) as [-> _]. lia.
    + exists (slot_at im b i').1, p'. rewrite sl_bucket_at; [|done].
      unfold slot_at in *.
      destruct (slots (bucket_at im b) !! i') as [[h' nd']|] eqn:Hv; simpl in *; [by subst|].
      apply lookup_ge_None in Hv. destruct (wf_bucket_at im b Hwf) as [Hlb _]. lia.
  - eapply linked_agree; [exact Hl'|]. intros b' i' Hb'. apply Hother. set_solver.
  - done.
  - intros b' Hb'. eapply full_upd; [done|]. apply Hfull. by right.
  - exists im', B', j'. split_and!; try done.
    intros b' Hb'. apply Hf'. by eapply full_upd.
Qed.

(** ** Insertion *)

(** A path of the queue, backward, as [linked] sees it. *)
Lemma path_linked im M b ss i j :
  tbl im M →
  (∀ k x, (ss ++ [i]) !! k = Some x → ∃ h p,
     sl im (follow im b (take k ss)) x = Some (h, Some p) ∧
     obp im (follow im b (take k ss)) x ≠ follow im b (take k ss)) →
  linked (cand1 im) (cand2 im) (sl im) (follow im b (ss ++ [i]), j)
    (reverse (zip (path_buckets im b ss) (ss ++ [i]))).
Proof.
  intros HT. revert i j. induction ss as [|x ss IH] using rev_ind; intros i j Hl.
  - simpl in *. destruct (Hl 0%nat i eq_refl) as (h & p & Hs & Hne).
    econstructor; [done|done| |constructor]. simpl.
    destruct (other_bucket_live _ _ _ _ _ _ HT Hs) as [[]|[]]; auto.
  - rewrite zip_path_snoc, reverse_snoc.
    destruct (Hl (length (ss ++ [x])) i) as (h & p & Hs & Hne).
    { rewrite lookup_app_r; [|lia]. by rewrite Nat.sub_diag. }
    rewrite take_ge in Hs, Hne; [|lia..].
    rewrite (follow_app _ _ (ss ++ [x]) [i]). simpl.
    econstructor; [done|done| |].
    + simpl. destruct (other_bucket_live _ _ _ _ _ _ HT Hs) as [[]|[]]; auto.
    + apply IH. intros k y Hk. specialize (Hl k y).
      assert (k < length (ss ++ [x]))%nat as Hlt by (by eapply lookup_lt_Some).
      rewrite length_app in Hlt. simpl in Hlt.
      rewrite lookup_app_l in Hl; [|rewrite length_app; simpl; lia].
      rewrite (take_app_le ss [x]) in Hl; [|lia]. by apply Hl.
Qed.

(** In a full bucket every slot is live. *)
Lemma full_live im b i :
  wf_impl im → full im b → (b < length (buckets im))%nat → (i < CMAP_K)%nat →
  ∃ h p, sl im b i = Some (h, Some p).
Proof.
  intros Hwf Hf Hb Hi. destruct (wf_bucket_at im b Hwf) as [Hlen _].
  destruct (lookup_lt_is_Some_2 (slots (bucket_at im b)) i) as [[h nd] Hv]; [lia|].
  rewrite <-sl_bucket_at in Hv; [|done]. destruct (Hf _ _ Hv) as [p Hp].
  simpl in Hp. subst nd. by exists h, p.
Qed.

(** The buckets of a queued path are full, and consecutive ones differ. *)
Lemma bfs_path_full im b1 b2 queue tail p k :
  bfs_inv im b1 b2 queue tail → p ∈ queue → (k ≤ plen p)%nat →
  full im (follow im (p_start p) (take k (p_slots p))) ∧
  (k < plen p → follow im (p_start p) (take k (p_slots p)) ≠
                follow im (p_start p) (take (S k) (p_slots p)))%nat.
Proof.
  intros HI Hp Hk. destruct (bi_valid _ _ _ _ _ HI p Hp) as (_ & Hend & _ & _ & Hf).
  destruct (decide (k < plen p)%nat) as [Hlt|Hge].
  - destruct (bfs_inv_prefixes _ _ _ _ _ p (take k (p_slots p)) (drop k (p_slots p)) HI Hp)
      as (q & Hq & Hst & Hsl & Hne).
    + by rewrite take_drop.
    + intros Hd. apply (f_equal length) in Hd. rewrite length_drop in Hd. simpl in Hd. lia.
    + destruct (bi_valid _ _ _ _ _ HI q (take_subset _ _ _ Hq)) as (_ & Hqe & _ & _ & Hqf).
      rewrite Hqe, Hst, Hsl in Hqf. rewrite Hqe, Hst, Hsl, length_take in Hne.
      rewrite Nat.min_l in Hne by lia. done.
  - rewrite take_ge by lia. rewrite <-Hend. split; [done|lia].
Qed.

Lemma fst_zip_path im b ss i :
  (zip (path_buckets im b ss) (ss ++ [i])).*1 = path_buckets im b ss.
Proof.
  apply fst_zip. rewrite length_path_buckets, length_app. simpl. lia.
Qed.

Lemma last_path im b ss i hole :
  ∃ x, list.last (hole :: reverse (zip (path_buckets im b ss) (ss ++ [i]))) = Some (b, x).
Proof.
  assert (∃ x l, zip (path_buckets im b ss) (ss ++ [i]) = (b, x) :: l) as (x & l & ->)
    by (destruct ss; simpl; eauto).
  exists x. rewrite reverse_cons, app_comm_cons. apply last_snoc.
Qed.

Lemma follow_lt im b ss : wf_impl im →
  (b < length (buckets im))%nat → (follow im b ss < length (buckets im))%nat.
Proof.
  intros Hwf. revert b. induction ss as [|s ss IH]; intros b Hb; simpl; [done|].
  by apply IH, other_bucket_lt.
Qed.

(** The room found by the search, as [move_backward_spec] wants it. *)
Lemma bfs_room im M b1 b2 queue tail p i j :
  tbl im M → (b1 < length (buckets im))%nat → (b2 < length (buckets im))%nat →
  bfs_inv im b1 b2 queue tail → queue !! tail = Some p →
  (i < CMAP_K)%nat → obp im (p_end p) i ≠ p_end p →
  cmap_find_empty_slot_protected (bucket_at im (obp im (p_end p) i)) = Some j →
  let ss := p_slots p in
  let B := follow im (p_start p) (ss ++ [i]) in
  let rpath := reverse (zip (path_buckets im (p_start p) ss) (ss ++ [i])) in
  (B < length (buckets im))%nat ∧ (j < CMAP_K)%nat ∧
  slot_inv (cand1 im) (cand2 im) (upd (sl im) B j None) M ∧
  live_before (sl im) (B, j) ∧
  linked (cand1 im) (cand2 im) (sl im) (B, j) rpath ∧
  NoDup (B :: rpath.*1) ∧ (∀ b, b ∈ rpath.*1 → full im b).
Proof.
  intros HT Hb1 Hb2 HI Hp Hi Hne Hj ss B rpath.
  pose proof (list_elem_of_lookup_2 _ _ _ Hp) as Hpq. destruct HT as [Hwf HS].
  destruct (bi_valid _ _ _ _ _ HI p Hpq) as (Hst & Hend & Hall & _ & Hfend).
  assert (p_start p < length (buckets im))%nat as Hstl by (destruct Hst; subst; congruence).
  assert (B = obp im (p_end p) i) as HB by (unfold B; rewrite follow_app, Hend; done).
  assert (B < length (buckets im))%nat as HBl by (rewrite HB; by apply other_bucket_lt).
  rewrite <-HB in Hj, Hne.
  assert (¬ full im B) as Hnf.
  { intros Hf. apply find_empty_full in Hf; [|done]. congruence. }
  apply find_empty_Some in Hj as [(h0 & Hj) Hbefore].
  rewrite <-sl_bucket_at in Hj; [|done].
  assert (∀ b, b ∈ rpath.*1 → full im b) as Hfull.
  { intros b. unfold rpath. rewrite fmap_reverse, elem_of_reverse, fst_zip_path.
    intros [k Hk]%list_elem_of_lookup. apply path_buckets_lookup in Hk as [Hk ->].
    by eapply bfs_path_full. }
  split_and!; [done|by eapply sl_lt|by eapply slot_inv_drop| | | |done].
  - intros k Hk. simpl in *. destruct (Hbefore k Hk) as (h & q & Hl).
    exists h, q. by rewrite sl_bucket_at.
  - apply (path_linked im M); [done|]. intros k x Hx.
    pose proof (lookup_lt_Some _ _ _ Hx) as Hlt. rewrite length_app in Hlt. simpl in Hlt.
    destruct (bfs_path_full _ _ _ _ _ p k HI Hpq) as [Hfk Hnk]; [unfold ss in *; lia|].
    assert (x < CMAP_K)%nat as HxK.
    { eapply (Forall_lookup_1 (λ i, i < CMAP_K)%nat (ss ++ [i])); [|done].
      apply Forall_app. split; [done|by apply Forall_singleton]. }
    destruct (full_live im _ x Hwf Hfk (follow_lt _ _ _ Hwf Hstl) HxK) as (h & q & Hl).
    exists h, q. split; [done|].
    destruct (decide (k < length ss)%nat) as [Hk|Hk].
    + specialize (Hnk Hk). fold ss in Hnk. rewrite lookup_app_l in Hx; [|done].
      rewrite (take_S_r _ _ _ Hx), follow_app in Hnk. simpl in Hnk. congruence.
    + rewrite lookup_app_r in Hx; [|lia].
      replace (k - length ss)%nat with 0%nat in Hx by lia. injection Hx as <-.
      rewrite take_ge in * by lia. unfold ss. rewrite <-Hend, <-HB. done.
  - apply list.NoDup_cons. split; [intros Hin; by apply Hnf, Hfull|].
    unfold rpath. rewrite fmap_reverse, fst_zip_path.
    rewrite reverse_Permutation.
    eapply bfs_path_NoDup; [exact HI|done|exact Hi|..]; by rewrite <-HB.
Qed.

(** [cmap_insert_bfs] stops; when it succeeds, the table has gained the new
    entry and kept all the others. *)
Lemma cmap_insert_bfs_spec im M node h :
  tbl im M → no_slot im h → full im (cand1 im h) → full im (cand2 im h) →
  ∃ r, cmap_insert_bfs im node h (cand1 im h) (cand2 im h) = Ret r ∧
    match r with
    | None => True
    | Some im' => tbl im' (<[h := node]> M) ∧ same_params im im'
    end.
Proof.
  intros HT Hn Hf1 Hf2. pose proof (no_slot_not_in _ _ _ HT Hn) as HM.
  pose proof HT as [Hwf HS]. destruct (cand_lt im h Hwf) as [Hc1 Hc2].
  destruct (bfs_search_spec (S MAX_QUEUE) im _ _ _ 0 Hwf (bfs_inv_start im _ _ Hf1 Hf2))
    as (r & Hr & Hpost); [lia..|].
  unfold cmap_insert_bfs. rewrite Hr. cbn [obind].
  destruct r as [[[p i] j]|]; [|by exists None]. eexists. split; [done|].
  destruct Hpost as (queue & tail & HI & Hp & Hi & Hne & Hj).
  destruct (bfs_room _ _ _ _ _ _ _ _ _ HT Hc1 Hc2 HI Hp Hi Hne Hj)
    as (HB & HjK & HS' & Hlive & Hlink & Hnd & Hfull).
  unfold bfs_apply. rewrite zip_path_snoc, reverse_snoc.
  destruct (move_backward_spec _ _ _ _ _ Hwf HB HjK HS' Hlive Hlink Hnd Hfull)
    as (im' & B' & j' & -> & Hwf' & Hpar & Hff & HB' & Hj' & HS'' & Hlive' & Hlast).
  destruct (last_path im (p_start p) (p_slots p) i
    (follow im (p_start p) (p_slots p ++ [i]), j)) as [x Hx].
  rewrite Hx in Hlast. injection Hlast as <- <-.
  destruct (bi_valid _ _ _ _ _ HI p (list_elem_of_lookup_2 _ _ _ Hp)) as (Hst & _).
  simpl. destruct (set_bucket_spec im' (p_start p) x h (Some node) Hwf' HB' Hj')
    as (Hwf'' & Hpar' & _ & Hsl). split; [|by etrans].
  eapply (tbl_transfer im); [done|by etrans|exact Hsl|].
  apply (slot_inv_put _ _ (p_start p) x h node) in HS''.
  - revert HS''. apply slot_inv_proper; [|done]. intros b' i'. unfold upd.
    by repeat case_decide.
  - done.
  - intros b' i' p' Hl. by destruct (slot_inv_not_live _ _ _ HS'' HM _ _ _ Hl).
  - intros h' p' Hl. by rewrite upd_eq in Hl.
  - intros i' nd Hlt Hl. destruct (Hlive' i' Hlt) as (h' & p' & Hl'). simpl in Hl'.
    rewrite upd_ne in Hl; [|right; lia].
    eapply (slot_inv_not_live _ _ _ HS'' HM (p_start p) i' p').
    rewrite upd_ne; [congruence|right; lia].
  - intros _ _ i' nd Hl.
    assert (sl im' (cand1 im h) i' = Some (h, nd)) as Hl'.
    { unfold upd in Hl. by case_decide. }
    destruct (Hff _ Hf1 _ _ Hl') as [p' Hp']. simpl in Hp'. subst nd.
    by eapply (slot_inv_not_live _ _ _ HS'' HM).
Qed.
End Bfs.
