(* ===== verification/CmapRefine.v ===== *)
(** * lib/cmap.c implements a map from hashes to chains of nodes

    [cmap_rep cm A]: the concurrent map [cm] represents [A], which gives for
    each client hash the list of nodes inserted with it, newest first. *)
From Stdlib Require Import ZArith Lia.
From stdpp Require Import base list gmap numbers option.
From S2P Require Import Prelude Hash Cmap CmapSlots CmapTable CmapBfs.
Open Scope Z_scope.

(** ** Chains *)

(** Following [next] from [o] visits the nodes [l] and stops. *)
Fixpoint chain (m : nexts) (o : option positive) (l : list positive) : Prop :=
  match l with
  | [] => o = None
  | p :: l' => o = Some p ∧ ∃ q, m !! p = Some q ∧ chain m q l'
  end.

Lemma chain_frame m o l p v : p ∉ l → chain m o l → chain (<[p := v]> m) o l.
Proof.
  revert o. induction l as [|x l IH]; intros o Hp; simpl; [done|].
  intros (-> & q & Hq & Hc). split; [done|]. exists q.
  rewrite lookup_insert_ne; [|set_solver]. split; [done|]. apply IH; set_solver.
Qed.

Lemma chain_head m o l : chain m o l → o = head l.
Proof. destruct l; simpl; naive_solver. Qed.

Lemma chain_dom m o l p : chain m o l → p ∈ l → p ∈ dom m.
Proof.
  revert o. induction l as [|x l IH]; intros o; simpl; [set_solver|].
  intros (_ & q & Hq & Hc) [->|Hp]%elem_of_cons; [by eapply elem_of_dom_2|eauto].
Qed.

Lemma chain_length m o l : chain m o l → NoDup l → (length l ≤ size m)%nat.
Proof.
  intros Hc Hnd. rewrite <-size_dom.
  rewrite <-(size_list_to_set (C := gset positive)); [|done].
  apply subseteq_size. intros p Hp. apply elem_of_list_to_set in Hp.
  by eapply chain_dom.
Qed.

Lemma chain_app m o l1 p l2 :
  chain m o (l1 ++ p :: l2) → ∃ q, m !! p = Some q ∧ chain m q l2.
Proof.
  revert o. induction l1 as [|x l1 IH]; intros o; simpl; [naive_solver|].
  intros (_ & q & _ & Hc). by eapply IH.
Qed.

(** Redirecting the node before [rest]. *)
Lemma chain_redirect m o l1 x l2 l2' o2 :
  x ∉ l1 → x ∉ l2' → chain m o (l1 ++ x :: l2) → chain m o2 l2' →
  chain (<[x := o2]> m) o (l1 ++ x :: l2').
Proof.
  intros Hx1 Hx2 Hc Hc2. revert o Hc.
  induction l1 as [|y l1 IH]; intros o; simpl.
  - intros (-> & q & _ & _). split; [done|]. exists o2.
    rewrite lookup_insert_eq. split; [done|]. by apply chain_frame.
  - intros (-> & q & Hq & Hc). split; [done|]. exists q.
    rewrite lookup_insert_ne; [|set_solver]. split; [done|]. apply IH; set_solver.
Qed.

(** [replace_walk] finds the node before [node] and redirects it. *)
Lemma replace_walk_spec fuel m l1 x node l2 r :
  chain m (head (l1 ++ x :: node :: l2)) (l1 ++ x :: node :: l2) →
  node ∉ l1 → node ≠ x → (length l1 < fuel)%nat →
  ∀ first, head (l1 ++ [x]) = Some first →
  replace_walk fuel m first node r = Ret (<[x := r]> m).
Proof.
  revert fuel. induction l1 as [|y l1 IH]; intros fuel Hc Hn Hne Hf first Hfirst.
  - injection Hfirst as <-. destruct fuel as [|fuel]; [simpl in Hf; lia|]. simpl in *.
    destruct Hc as (_ & q & Hq & -> & _). unfold cmap_node_next. rewrite Hq. simpl.
    by rewrite Pos.eqb_refl.
  - injection Hfirst as <-. destruct fuel as [|fuel]; [simpl in Hf; lia|].
    destruct Hc as (_ & q & Hq & Hc). pose proof (chain_head _ _ _ Hc) as Hh.
    cbn [replace_walk]. unfold cmap_node_next. rewrite Hq. cbn [obind].
    destruct q as [q|]; [|by destruct l1].
    assert (q ≠ node) as Hqn.
    { intros ->. destruct l1 as [|z l1]; simpl in Hh; [congruence|set_solver]. }
    rewrite (proj2 (Pos.eqb_neq _ _) Hqn). apply IH.
    + by rewrite <-Hh.
    + set_solver.
    + done.
    + simpl in Hf. lia.
    + destruct l1; simpl in *; congruence.
Qed.

(** ** The number of nodes *)

Definition total (A : gmap Z (list positive)) : nat :=
  map_fold (λ _ l n, (length l + n)%nat) 0%nat A.

Lemma total_empty : total ∅ = 0%nat.
Proof. apply map_fold_empty. Qed.

Lemma total_insert_new A h l : A !! h = None → total (<[h := l]> A) = (length l + total A)%nat.
Proof.
  intros HA. unfold total. rewrite map_fold_insert_L; [done| |done].
  intros. lia.
Qed.

Lemma total_delete A h l : A !! h = Some l → total A = (length l + total (delete h A))%nat.
Proof.
  intros HA. rewrite <-(insert_delete_id A h l) at 1; [|done].
  apply total_insert_new, lookup_delete_eq.
Qed.

Lemma total_insert A h l l' :
  A !! h = Some l → (total (<[h := l']> A) + length l = total A + length l')%nat.
Proof.
  intros HA. rewrite (total_delete A h l HA), <-insert_delete_eq.
  rewrite total_insert_new; [lia|apply lookup_delete_eq].
Qed.

(** ** Table sizes: the assertion of [cmap_rehash] never fails *)

Lemma calc_max_n_pow k : 0 ≤ k < 30 → calc_max_n (2 ^ k - 1) = 2 ^ k * 18253611000 / 2 ^ 32.
Proof.
  intros Hk. assert (1 ≤ 2 ^ k ≤ 2 ^ 29) as Hp.
  { split; [|apply Z.pow_le_mono_r; lia]. pose proof (Z.pow_pos_nonneg 2 k). lia. }
  unfold calc_max_n, CMAP_K, CMAP_MAX_LOAD. rewrite Z.sub_add.
  rewrite (u32_small (2 ^ k)) by lia. rewrite u64_small by lia.
  rewrite Z.shiftr_div_pow2 by lia.
  replace (2 ^ k * Z.of_nat 5 * 3650722200) with (2 ^ k * 18253611000) by lia.
  rewrite u32_small; [done|]. split; [apply Z.div_pos; lia|].
  apply Z.div_lt_upper_bound; lia.
Qed.

Lemma calc_min_n_pow k : 0 ≤ k < 30 → calc_min_n (2 ^ k - 1) = 2 ^ k - 1.
Proof.
  intros Hk. assert (1 ≤ 2 ^ k ≤ 2 ^ 29) as Hp.
  { split; [|apply Z.pow_le_mono_r; lia]. pose proof (Z.pow_pos_nonneg 2 k). lia. }
  unfold calc_min_n, CMAP_K, CMAP_MIN_LOAD. rewrite Z.sub_add.
  rewrite (u32_small (2 ^ k)) by lia. rewrite u64_small by lia.
  rewrite Z.shiftr_div_pow2 by lia.
  assert (2 ^ k * Z.of_nat 5 * 858993459 / 2 ^ 32 = 2 ^ k - 1) as ->.
  { symmetry. apply (Z.div_unique_pos _ _ _ (2 ^ 32 - 2 ^ k)); lia. }
  rewrite u32_small; lia.
Qed.

(** Growing: twice the buckets hold the entries of a full table. *)
Lemma grow_fits k n :
  0 ≤ k < 30 → calc_max_n (2 ^ k - 1) = n → n < 2 ^ 30 →
  k + 1 < 30 ∧ n < calc_max_n (2 ^ (k + 1) - 1).
Proof.
  intros Hk Hn Hb. assert (1 ≤ 2 ^ k) as Hp by (pose proof (Z.pow_pos_nonneg 2 k); lia).
  rewrite calc_max_n_pow in Hn by done.
  assert (k ≠ 29) by (intros ->; vm_compute in Hn; lia).
  split; [lia|]. rewrite calc_max_n_pow by lia.
  rewrite Z.pow_add_r, Z.pow_1_r by lia. subst n.
  set (x := 2 ^ k) in *. clearbody x.
  assert (4 * x ≤ x * 18253611000 / 2 ^ 32) by (apply Z.div_le_lower_bound; lia).
  assert (2 * (x * 18253611000 / 2 ^ 32) ≤ x * 2 * 18253611000 / 2 ^ 32).
  { apply Z.div_le_lower_bound; [lia|].
    pose proof (Z.mul_div_le (x * 18253611000) (2 ^ 32)). lia. }
  lia.
Qed.

(** Shrinking: half the buckets hold the entries of a sparse table. *)
Lemma shrink_fits k n :
  0 ≤ k < 30 → 0 ≤ n < calc_min_n (2 ^ k - 1) →
  1 ≤ k ∧ n < calc_max_n (2 ^ (k - 1) - 1).
Proof.
  intros Hk Hn. rewrite calc_min_n_pow in Hn by done.
  assert (k ≠ 0) by (intros ->; simpl in Hn; lia). split; [lia|].
  rewrite calc_max_n_pow by lia.
  assert (2 ^ k = 2 * 2 ^ (k - 1)) as Hpow.
  { rewrite <-(Z.pow_succ_r 2 (k - 1)) by lia. f_equal. lia. }
  assert (1 ≤ 2 ^ (k - 1)) by (pose proof (Z.pow_pos_nonneg 2 (k - 1)); lia).
  assert (4 * 2 ^ (k - 1) ≤ 2 ^ (k - 1) * 18253611000 / 2 ^ 32)
    by (apply Z.div_le_lower_bound; lia). lia.
Qed.

(** The mask of the grown and of the shrunk table. *)
Lemma grow_mask k : 0 ≤ k < 30 →
  Z.lor (u32 (Z.shiftl (2 ^ k - 1) 1)) 1 = 2 ^ (k + 1) - 1.
Proof.
  intros Hk. assert (1 ≤ 2 ^ k ≤ 2 ^ 29) as Hp.
  { split; [|apply Z.pow_le_mono_r; lia]. pose proof (Z.pow_pos_nonneg 2 k). lia. }
  rewrite Z.shiftl_mul_pow2, Z.pow_1_r by lia. rewrite u32_small by lia.
  rewrite Z.pow_add_r, Z.pow_1_r by lia.
  assert (∀ x, 0 ≤ x → Z.lor (x * 2) 1 = x * 2 + 1) as Hor.
  { intros x Hx. rewrite Z.mul_comm. by destruct x. }
  rewrite Hor; lia.
Qed.

Lemma shrink_mask k : 1 ≤ k → Z.shiftr (2 ^ k - 1) 1 = 2 ^ (k - 1) - 1.
Proof.
  intros Hk. rewrite Z.shiftr_div_pow2, Z.pow_1_r by lia.
  assert (2 ^ k = 2 * 2 ^ (k - 1)) as ->.
  { rewrite <-(Z.pow_succ_r 2 (k - 1)) by lia. f_equal. lia. }
  symmetry. apply (Z.div_unique_pos _ _ _ 1); lia.
Qed.

(** ** What a concurrent map represents *)

(** The first node of each chain. *)
Definition heads (A : gmap Z (list positive)) : gmap Z positive := omap head A.

Section Refine.
Context `{HF : HashFns}.

Record cmap_rep (cm : cmap) (A : gmap Z (list positive)) : Prop := {
  rep_tbl : tbl (impl cm) (heads A);
  rep_chain : ∀ h l, A !! h = Some l → l ≠ [] ∧ chain (nx cm) (head l) l;
  rep_nodup : ∀ h l, A !! h = Some l → NoDup l;
  rep_disj : ∀ h h' l l' p,
    A !! h = Some l → A !! h' = Some l' → p ∈ l → p ∈ l' → h = h';
  rep_n : im_n (impl cm) = Z.of_nat (total A);
  rep_le : im_n (impl cm) ≤ max_n (impl cm);
}.

(** [p] is linked into none of the chains. *)
Definition fresh_node (A : gmap Z (list positive)) (p : positive) : Prop :=
  ∀ h l, A !! h = Some l → p ∉ l.

(** ** [cmap_try_insert] *)

Lemma heads_insert A h p l : heads (<[h := p :: l]> A) = <[h := p]> (heads A).
Proof. unfold heads. by rewrite (omap_insert_Some _ _ _ _ p). Qed.

Lemma heads_lookup A h : heads A !! h = A !! h ≫= head.
Proof. apply lookup_omap. Qed.

(** A hash that is already present: the new node becomes the head of its
    chain. *)
Lemma try_insert_dup im m M node h q :
  tbl im M → M !! h = Some q →
  ∃ im', tbl im' (<[h := node]> M) ∧ same_params im im' ∧
    cmap_try_insert im m node h =
      let* e := chain_end (S (size m)) m node in
      Ret (Some (im', <[e := Some q]> m)).
Proof.
  intros HT HM. pose proof HT as [Hwf HI]. destruct (cand_lt im h Hwf) as [Hc1 Hc2].
  unfold cmap_try_insert. fold (cand1 im h). fold (cand2 im h).
  unfold cmap_insert_dup.
  destruct (slot_with_hash (slots (bucket_at im (cand1 im h))) h) as [[i nd]|] eqn:H1.
  - destruct (dup_slot_inv im M _ i nd h node HT H1) as [Hnd HI']; [by left|].
    rewrite HM in Hnd. subst nd. apply slot_with_hash_Some in H1 as [Hi _].
    pose proof (lookup_lt_Some _ _ _ Hi). destruct (wf_bucket_at im (cand1 im h) Hwf).
    exists (put_bucket im (cand1 im h) (mkBucket (counter (bucket_at im (cand1 im h)))
      (<[i := (h, Some node)]> (slots (bucket_at im (cand1 im h)))))).
    split_and!; [| |by destruct (chain_end _ m node)].
    + apply (tbl_put_slot im M _ _ i (h, Some node)); [done..|lia|by split|done].
    + apply same_params_put.
  - destruct (slot_with_hash (slots (bucket_at im (cand2 im h))) h) as [[i nd]|] eqn:H2.
    + destruct (dup_slot_inv im M _ i nd h node HT H2) as [Hnd HI']; [by right|].
      rewrite HM in Hnd. subst nd. apply slot_with_hash_Some in H2 as [Hi _].
      pose proof (lookup_lt_Some _ _ _ Hi). destruct (wf_bucket_at im (cand2 im h) Hwf).
      exists (put_bucket im (cand2 im h) (mkBucket (counter (bucket_at im (cand2 im h)))
      (<[i := (h, Some node)]> (slots (bucket_at im (cand2 im h)))))).
    split_and!; [| |by destruct (chain_end _ m node)].
      * apply (tbl_put_slot im M _ _ i (h, Some node)); [done..|lia|by split|done].
      * apply same_params_put.
    + exfalso. pose proof (no_slot_not_in _ _ _ HT (no_slot_intro _ _ Hwf H1 H2)). congruence.
Qed.

(** A bucket of [h] in which a new entry for [h] finds a place at once. *)
Definition has_room (im : cmap_impl) (h : Z) : Prop :=
  (∃ i nd, slot_with_hash (slots (bucket_at im (cand1 im h))) h = Some (i, nd)) ∨
  (∃ i nd, slot_with_hash (slots (bucket_at im (cand2 im h))) h = Some (i, nd)) ∨
  is_Some (cmap_find_empty_slot_protected (bucket_at im (cand1 im h))) ∨
  is_Some (cmap_find_empty_slot_protected (bucket_at im (cand2 im h))).

(** Reusing a stale slot of a hash that is not present. *)
Lemma try_insert_stale im M m node h b i nd :
  tbl im M → M !! h = None →
  slot_with_hash (slots (bucket_at im b)) h = Some (i, nd) →
  (b = cand1 im h ∨
   b = cand2 im h ∧ slot_with_hash (slots (bucket_at im (cand1 im h))) h = None) →
  ∃ bk', cmap_insert_dup m node h (bucket_at im b) = Ret (Some (m, bk')) ∧
    tbl (put_bucket im b bk') (<[h := node]> M).
Proof.
  intros HT HM Hs Hb. pose proof HT as [Hwf _]. destruct (cand_lt im h Hwf) as [Hc1 Hc2].
  destruct (dup_slot_inv im M _ i nd h node HT Hs Hb) as [Hnd HI'].
  rewrite HM in Hnd. subst nd. unfold cmap_insert_dup. rewrite Hs.
  eexists. split; [done|]. apply slot_with_hash_Some in Hs as [Hi _].
  pose proof (lookup_lt_Some _ _ _ Hi). destruct (wf_bucket_at im b Hwf).
  apply (tbl_put_slot im M _ _ i (h, Some node)); [done| |lia|by split|done].
  destruct Hb as [->|[-> _]]; done.
Qed.

(** A hash that is not present: the node gets a slot of its own, the links
    between nodes are left alone. *)
Lemma try_insert_new im m M node h :
  tbl im M → M !! h = None →
  ∃ r, cmap_try_insert im m node h = Ret r ∧
    match r with
    | Some (im', m') => m' = m ∧ tbl im' (<[h := node]> M) ∧ same_params im im'
    | None => ¬ has_room im h
    end.
Proof.
  intros HT HM. pose proof HT as [Hwf HI]. destruct (cand_lt im h Hwf) as [Hc1 Hc2].
  unfold cmap_try_insert. fold (cand1 im h). fold (cand2 im h).
  destruct (slot_with_hash (slots (bucket_at im (cand1 im h))) h) as [[i nd]|] eqn:H1.
  { destruct (try_insert_stale _ _ m node _ _ _ _ HT HM H1) as (bk & -> & ?); [by left|].
    eexists. split; [done|]. simpl. by split_and!. }
  unfold cmap_insert_dup at 1. rewrite H1. cbn [obind].
  destruct (slot_with_hash (slots (bucket_at im (cand2 im h))) h) as [[i nd]|] eqn:H2.
  { destruct (try_insert_stale _ _ m node _ _ _ _ HT HM H2) as (bk & -> & ?); [by right|].
    eexists. split; [done|]. simpl. by split_and!. }
  unfold cmap_insert_dup at 1. rewrite H2. cbn [obind].
  pose proof (no_slot_intro _ _ Hwf H1 H2) as Hn. unfold cmap_insert_bucket.
  destruct (cmap_find_empty_slot_protected (bucket_at im (cand1 im h))) as [i|] eqn:E1.
  { destruct (empty_slot_inv im M _ i h node HT Hn (or_introl eq_refl) E1) as [Hi HI'].
    eexists. split; [done|]. simpl. split_and!; [done| |done..].
    apply (tbl_put_slot im M _ _ i (h, Some node)); [done..| |done].
    by apply set_slot_set_bucket, wf_bucket_at. }
  destruct (cmap_find_empty_slot_protected (bucket_at im (cand2 im h))) as [i|] eqn:E2.
  { destruct (empty_slot_inv im M _ i h node HT Hn (or_intror eq_refl) E2) as [Hi HI'].
    eexists. split; [done|]. simpl. split_and!; [done| |done..].
    apply (tbl_put_slot im M _ _ i (h, Some node)); [done..| |done].
    by apply set_slot_set_bucket, wf_bucket_at. }
  destruct (cmap_insert_bfs_spec im M node h HT Hn) as (r & -> & Hr);
    [by apply find_empty_full..|]. cbn [obind].
  destruct r as [im'|]; eexists; (split; [done|]); simpl; [naive_solver|].
  unfold has_room. rewrite H1, H2, E1, E2.
  intros [(?&?&[=])|[(?&?&[=])|[[? [=]]|[? [=]]]]].
Qed.

(** ** Rehashing *)

(** The entries of the live slots of [l]. *)
Definition live (l : list slot) : list (Z * positive) :=
  omap (λ s : slot, (s.1,.) <$> s.2) l.

Lemma elem_of_live l h p : (h, p) ∈ live l ↔ (h, Some p) ∈ l.
Proof.
  unfold live. rewrite list_elem_of_omap. split.
  - intros ([h' nd] & Hin & Heq). simpl in Heq. destruct nd; naive_solver.
  - intros Hin. by exists (h, Some p).
Qed.

(** The slots of a table, bucket by bucket. *)
Definition all_slots (im : cmap_impl) : list slot := concat (slots <$> buckets im).

Lemma elem_of_all_slots im v : v ∈ all_slots im ↔ ∃ b i, sl im b i = Some v.
Proof.
  unfold all_slots, sl. rewrite list_elem_of_In, in_concat. split.
  - intros (l & Hl & Hv). apply list_elem_of_In, list_elem_of_fmap in Hl as (bk & -> & Hbk).
    apply list_elem_of_In, list_elem_of_lookup in Hv as [i Hi].
    apply list_elem_of_lookup in Hbk as [b Hb]. exists b, i. by rewrite Hb.
  - intros (b & i & Hs). apply bind_Some in Hs as (bk & Hb & Hi). exists (slots bk).
    split; apply list_elem_of_In; [|by eapply list_elem_of_lookup_2].
    apply list_elem_of_fmap. exists bk. split; [done|]. by eapply list_elem_of_lookup_2.
Qed.

Lemma NoDup_live_slots l :
  (∀ i j h p q, l !! i = Some (h, Some p) → l !! j = Some (h, Some q) → i = j) →
  NoDup (live l).*1.
Proof.
  induction l as [|[h nd] l IH]; intros Hu; [apply NoDup_nil_2|].
  assert (NoDup (live l).*1) as Hnd.
  { apply IH. intros i j h' p q Hi Hj. specialize (Hu (S i) (S j) h' p q Hi Hj). lia. }
  destruct nd as [p|]; [|done]. change (live ((h, Some p) :: l)) with ((h, p) :: live l).
  rewrite fmap_cons. apply list.NoDup_cons. split; [|done]. intros Hin.
  apply list_elem_of_fmap in Hin as ([h' q] & Heq & Hin). simpl in Heq. subst h'.
  apply elem_of_live, list_elem_of_lookup in Hin as [j Hj].
  specialize (Hu 0%nat (S j) h p q eq_refl Hj). lia.
Qed.

Lemma NoDup_live_concat (ls : list (list slot)) :
  (∀ b b' i j h p q, (ls !! b ≫= (.!! i)) = Some (h, Some p) →
     (ls !! b' ≫= (.!! j)) = Some (h, Some q) → b = b' ∧ i = j) →
  NoDup (live (concat ls)).*1.
Proof.
  induction ls as [|l ls IH]; intros Hu; [apply NoDup_nil_2|]. simpl.
  unfold live. rewrite omap_app, fmap_app. apply list.NoDup_app. split_and!.
  - apply NoDup_live_slots. intros i j h p q Hi Hj.
    by apply (Hu 0%nat 0%nat i j h p q).
  - intros h Hin Hin'.
    apply list_elem_of_fmap in Hin as ([h1 p] & -> & Hin).
    apply list_elem_of_fmap in Hin' as ([h2 q] & Heq & Hin'). simpl in Heq. subst h2.
    apply elem_of_live, list_elem_of_lookup in Hin as [i Hi].
    apply elem_of_live, list_elem_of_In, in_concat in Hin' as (l' & Hl' & Hq).
    apply list_elem_of_In, list_elem_of_lookup in Hl' as [b Hb].
    apply list_elem_of_In, list_elem_of_lookup in Hq as [j Hj].
    destruct (Hu 0%nat (S b) i j h1 p q) as [? _]; [done| |lia].
    simpl. by rewrite Hb.
  - apply IH. intros b b' i j h p q Hb Hb'.
    destruct (Hu (S b) (S b') i j h p q Hb Hb') as [? ?]. lia.
Qed.

Lemma live_all_slots im M : tbl im M →
  NoDup (live (all_slots im)).*1 ∧ list_to_map (live (all_slots im)) = M.
Proof.
  intros [Hwf HI]. assert (NoDup (live (all_slots im)).*1) as Hnd.
  { apply NoDup_live_concat. intros b b' i j h p q Hb Hb'.
    rewrite list_lookup_fmap in Hb, Hb'.
    apply (si_uniq HI b i p b' j q h); unfold sl.
    - by destruct (buckets im !! b).
    - by destruct (buckets im !! b'). }
  split; [done|]. apply map_eq. intros h. apply option_eq. intros p.
  rewrite <-elem_of_list_to_map; [|done]. rewrite elem_of_live, elem_of_all_slots. split.
  - intros (b & i & Hs). by destruct (si_live HI _ _ _ _ Hs).
  - apply (si_complete HI).
Qed.

(** Inserting the live entries of [l] one by one into a table that has none
    of their hashes. *)
Lemma try_rehash_slots_spec l new m M0 :
  tbl new M0 → NoDup (live l).*1 →
  (∀ h p, (h, p) ∈ live l → M0 !! h = None) →
  ∃ r, try_rehash_slots l new m = Ret (r, m) ∧
    ∀ new', r = Some new' →
      tbl new' (list_to_map (live l) ∪ M0) ∧ same_params new new'.
Proof.
  revert new M0. induction l as [|[h nd] l IH]; intros new M0 HT Hnd Hno; simpl.
  { eexists. split; [done|]. intros new' [= <-]. by rewrite map_empty_union. }
  destruct nd as [p|]; [|by apply IH].
  change (live ((h, Some p) :: l)) with ((h, p) :: live l) in *.
  rewrite fmap_cons in Hnd. apply list.NoDup_cons in Hnd as [Hh Hnd].
  assert (M0 !! h = None) as HM by (apply (Hno h p); by left).
  destruct (try_insert_new new m M0 p h HT HM) as (r & -> & Hr). cbn [obind].
  destruct r as [[new1 m1]|]; [|by eexists].
  destruct Hr as (-> & HT1 & Hp1).
  destruct (IH new1 (<[h := p]> M0) HT1 Hnd) as (r & -> & Hr).
  { intros h' p' Hin. rewrite lookup_insert_ne; [|intros ->].
    - apply (Hno h' p'). by right.
    - apply Hh. apply list_elem_of_fmap. by exists (h', p'). }
  eexists. split; [done|]. intros new' ->. destruct (Hr new' eq_refl) as [HT' Hp'].
  split; [|by etrans]. simpl. rewrite <-insert_union_l, insert_union_r; [done|].
  by apply not_elem_of_list_to_map_1.
Qed.

Lemma try_rehash_spec old new m M :
  tbl old M → tbl new ∅ →
  ∃ r, cmap_try_rehash old new m = Ret (r, m) ∧
    ∀ new', r = Some new' → tbl new' M ∧ same_params new new'.
Proof.
  intros HO HN. destruct (live_all_slots old M HO) as [Hnd HM].
  destruct (try_rehash_slots_spec _ new m ∅ HN Hnd) as (r & Hr & Hpost); [done|].
  exists r. split; [done|]. intros new' ->. destruct (Hpost new' eq_refl) as [HT Hp].
  rewrite HM, map_union_empty in HT. done.
Qed.

Lemma rehash_loop_safe fuel seed old new m M :
  tbl old M → tbl new ∅ →
  safe (rehash_loop fuel seed old new m) (λ '(_, new', m'),
    m' = m ∧ tbl new' M ∧ im_n new' = im_n new ∧ mask new' = mask new).
Proof.
  intros HO. revert seed new. induction fuel as [|fuel IH]; intros seed new HN; [done|].
  cbn [rehash_loop]. destruct (try_rehash_spec old new m M HO HN) as (r & -> & Hr).
  cbn [obind]. destruct r as [new'|].
  - destruct (Hr new' eq_refl) as [HT (Hn & _ & _ & Hm & _)]. by split_and!.
  - pose proof HN as [[(k & Hk & Hm) _ _ Hmax Hmin] _].
    eapply safe_mono; [apply IH; by apply (tbl_fresh _ k)|].
    by intros [[? ?] ?].
Qed.

(** Rehashing keeps the entries, as long as they fit in the new table. *)
Lemma cmap_rehash_safe fuel seed cm k M :
  tbl (impl cm) M → 0 ≤ k < 30 → im_n (impl cm) < calc_max_n (2 ^ k - 1) →
  safe (cmap_rehash fuel seed cm (2 ^ k - 1)) (λ '(_, cm'),
    nx cm' = nx cm ∧ tbl (impl cm') M ∧ im_n (impl cm') = im_n (impl cm) ∧
    mask (impl cm') = 2 ^ k - 1).
Proof.
  intros HT Hk Hn. unfold cmap_rehash.
  destruct (cmap_impl_create_spec seed k Hk) as (new & -> & HN & _ & Hm). cbn [obind].
  assert (max_n new = calc_max_n (2 ^ k - 1)) as Hmax
    by (rewrite <-Hm; apply HN).
  rewrite Hmax, (proj2 (Z.ltb_lt _ _) Hn). cbn [obind ovs_assert].
  eapply safe_bind; [by apply rehash_loop_safe|].
  intros [[seed' new'] m'] (-> & HT' & _ & Hm'). simpl.
  split_and!; [done|by apply tbl_set_n|done|congruence].
Qed.

(** ** [cmap_insert] *)

(** The state in which the insertion loop runs: [A] and the isolated node. *)
Definition ready (cm : cmap) (A : gmap Z (list positive)) (m : nexts) : Prop :=
  tbl (impl cm) (heads A) ∧ nx cm = m ∧ im_n (impl cm) = Z.of_nat (total A) ∧
  im_n (impl cm) < max_n (impl cm).

(** The links after the insertion of [node] before the chain of [h]. *)
Definition link_before (A : gmap Z (list positive)) (h : Z) (node : positive)
    (m : nexts) : nexts :=
  match heads A !! h with
  | Some q => <[node := Some q]> m
  | None => m
  end.

Lemma chain_end_single m node fuel :
  m !! node = Some None → chain_end (S fuel) m node = Ret node.
Proof. intros Hn. simpl. unfold cmap_node_next. by rewrite Hn. Qed.

(** One attempt of the loop. *)
Lemma try_insert_ready cm A m node h :
  ready cm A m → m !! node = Some None →
  ∃ r, cmap_try_insert (impl cm) (nx cm) node h = Ret r ∧
    match r with
    | Some (im', m') => m' = link_before A h node m ∧
        tbl im' (<[h := node]> (heads A)) ∧ same_params (impl cm) im'
    | None => heads A !! h = None ∧ ¬ has_room (impl cm) h
    end.
Proof.
  intros (HT & Hm & Hn & Hlt) Hnode. unfold link_before.
  destruct (heads A !! h) as [q|] eqn:Hh.
  - destruct (try_insert_dup (impl cm) (nx cm) _ node h q HT Hh) as (im' & HT' & Hp & ->).
    rewrite Hm, chain_end_single by done. simpl. eexists. by split.
  - destruct (try_insert_new (impl cm) (nx cm) _ node h HT Hh) as (r & -> & Hr).
    exists r. split; [done|]. destruct r as [[im' m']|].
    + destruct Hr as (-> & ? & ?). by split_and!.
    + done.
Qed.

Lemma insert_loop_safe fuel fuel' seed cm A m node h :
  ready cm A m → m !! node = Some None →
  safe (insert_loop fuel fuel' seed cm node h) (λ '(_, cm'),
    tbl (impl cm') (<[h := node]> (heads A)) ∧ nx cm' = link_before A h node m ∧
    im_n (impl cm') = Z.of_nat (total A) ∧ im_n (impl cm') < max_n (impl cm')).
Proof.
  intros Hrd Hnode. revert seed cm Hrd.
  induction fuel as [|fuel IH]; intros seed cm Hrd; [done|]. cbn [insert_loop].
  destruct (try_insert_ready cm A m node h Hrd Hnode) as (r & -> & Hr). cbn [obind].
  destruct Hrd as (HT & Hm & Hn & Hlt). destruct r as [[im' m']|].
  - destruct Hr as (-> & HT' & Hn' & Hmx & _). simpl. rewrite Hn', Hmx. by split_and!.
  - pose proof HT as [[(k & Hk & Hmask) _ _ Hmax _] _].
    eapply safe_bind.
    + rewrite Hmask. apply cmap_rehash_safe; [done|done|]. by rewrite <-Hmask, <-Hmax.
    + intros [seed' cm'] (Hx' & HT' & Hn' & Hm'). apply IH. split_and!; [done|..].
      * congruence.
      * congruence.
      * rewrite Hn'. replace (max_n (impl cm')) with (max_n (impl cm)); [done|].
        rewrite Hmax, (wf_max _ (proj1 HT')). congruence.
Qed.

(** The represented map after the insertion. *)
Lemma rep_inserted cm A cm' node h :
  cmap_rep cm A → fresh_node A node →
  tbl (impl cm') (<[h := node]> (heads A)) →
  nx cm' = link_before A h node (<[node := None]> (nx cm)) →
  im_n (impl cm') = Z.of_nat (total A) + 1 → im_n (impl cm') ≤ max_n (impl cm') →
  cmap_rep cm' (<[h := node :: default [] (A !! h)]> A).
Proof.
  intros HR Hf HT Hnx Hn Hle.
  assert (∀ h' l, A !! h' = Some l → chain (nx cm') (head l) l) as Hold.
  { intros h' l Hl. rewrite Hnx. destruct (rep_chain _ _ HR _ _ Hl) as [_ Hc].
    pose proof (Hf _ _ Hl). unfold link_before.
    destruct (heads A !! h); repeat (apply chain_frame; [done|]); done. }
  split; [by rewrite heads_insert| | | | |done].
  - intros h' l Hl. apply lookup_insert_Some in Hl as [[<- <-]|[Hne Hl]].
    + split; [done|]. split; [done|]. rewrite Hnx. unfold link_before.
      rewrite heads_lookup. destruct (A !! h) as [l|] eqn:HA; simpl.
      * destruct (rep_chain _ _ HR _ _ HA) as [Hne _].
        pose proof (Hold _ _ HA) as Hc. rewrite Hnx in Hc. unfold link_before in Hc.
        rewrite heads_lookup, HA in Hc.
        destruct l as [|q l]; [done|]. simpl in *. exists (Some q).
        by rewrite lookup_insert_eq.
      * exists None. by rewrite lookup_insert_eq.
    + split; [by apply (rep_chain _ _ HR _ _ Hl)|]. by eapply Hold.
  - intros h' l Hl. apply lookup_insert_Some in Hl as [[<- <-]|[Hne Hl]];
      [|by eapply (rep_nodup _ _ HR)].
    destruct (A !! h) as [l|] eqn:HA; simpl; [|apply NoDup_singleton].
    apply list.NoDup_cons. split; [by eapply Hf|by eapply (rep_nodup _ _ HR)].
  - assert (∀ h' l' p, h ≠ h' → A !! h' = Some l' → p ∈ l' →
            p ∉ node :: default [] (A !! h)) as Hdis.
    { intros h' l' p Hne Hl' Hp [->|Hin]%elem_of_cons; [by eapply Hf|].
      destruct (A !! h) as [l|] eqn:HA; [|by apply not_elem_of_nil in Hin].
      by apply Hne, (rep_disj _ _ HR h h' l l' p). }
    intros h1 h2 l1 l2 p H1 H2 Hp1 Hp2.
    apply lookup_insert_Some in H1 as [[<- <-]|[Hne1 H1]];
      apply lookup_insert_Some in H2 as [[<- <-]|[Hne2 H2]].
    + done.
    + by destruct (Hdis _ _ _ Hne2 H2 Hp2).
    + by destruct (Hdis _ _ _ Hne1 H1 Hp1).
    + by eapply (rep_disj _ _ HR).
  - rewrite Hn. destruct (A !! h) as [l|] eqn:HA; simpl.
    + pose proof (total_insert A h l (node :: l) HA). simpl in *. lia.
    + rewrite total_insert_new by done. simpl. lia.
Qed.

(** [cmap_insert] puts the node in front of the chain of its hash; it never
    trips an assertion or follows a wild pointer. *)
Lemma cmap_insert_safe fuel seed cm A node h :
  cmap_rep cm A → fresh_node A node → Z.of_nat (total A) < 2 ^ 30 →
  safe (cmap_insert fuel seed cm node h) (λ '(_, cm', n'),
    cmap_rep cm' (<[h := node :: default [] (A !! h)]> A) ∧
    n' = Z.of_nat (total A) + 1).
Proof.
  intros HR Hf Hb. unfold cmap_insert. set (cm0 := mkCmap _ _).
  pose proof (rep_tbl _ _ HR) as HT. pose proof (rep_n _ _ HR) as Hn.
  pose proof (rep_le _ _ HR) as Hle.
  pose proof HT as [[(k & Hk & Hmask) _ _ Hmax _] _].
  eapply (safe_bind _ _ (λ '(_, cm1), ready cm1 A (<[node := None]> (nx cm)))).
  - change (impl cm0) with (impl cm). destruct (Z.leb_spec (max_n (impl cm)) (im_n (impl cm))).
    + destruct (grow_fits k (im_n (impl cm)) Hk) as [Hk1 Hfit];
        [rewrite <-Hmask, <-Hmax; lia|lia|].
      rewrite Hmask, grow_mask by done.
      eapply safe_mono; [apply (cmap_rehash_safe _ _ cm0); [done|lia|done]|].
      intros [seed' cm1] (Hx & HT1 & Hn1 & Hm1). simpl in Hx, Hn1.
      split_and!; [done|done|congruence|].
      rewrite Hn1, (wf_max _ (proj1 HT1)), Hm1. done.
    + by split_and!.
  - intros [seed1 cm1] Hrd. eapply safe_bind.
    { apply (insert_loop_safe _ _ _ _ _ _ node h Hrd), lookup_insert_eq. }
    intros [seed2 cm2] (HT2 & Hx2 & Hn2 & Hlt2). simpl.
    assert (u32 (im_n (impl cm2) + 1) = im_n (impl cm2) + 1) as ->.
    { apply u32_small. lia. }
    split; [|lia]. apply (rep_inserted cm); try done; simpl; [|lia..].
    by apply tbl_set_n.
Qed.

(** It returns at once when the table is not overloaded and a bucket of the
    hash has room. *)
Lemma cmap_insert_returns fuel seed cm A node h :
  cmap_rep cm A → fresh_node A node → Z.of_nat (total A) < 2 ^ 30 →
  im_n (impl cm) < max_n (impl cm) → has_room (impl cm) h →
  returns (cmap_insert (S fuel) seed cm node h) (λ '(seed', cm', n'),
    seed' = seed ∧
    cmap_rep cm' (<[h := node :: default [] (A !! h)]> A) ∧
    n' = Z.of_nat (total A) + 1).
Proof.
  intros HR Hf Hb Hlt Hroom.
  pose proof (cmap_insert_safe (S fuel) seed cm A node h HR Hf Hb) as Hsafe.
  assert (∃ cm' n', cmap_insert (S fuel) seed cm node h = Ret (seed, cm', n'))
    as (cm' & n' & Heq).
  { unfold cmap_insert. set (cm0 := mkCmap _ _).
    change (impl cm0) with (impl cm). rewrite (proj2 (Z.leb_gt _ _) Hlt).
    cbn [obind insert_loop].
    assert (ready cm0 A (<[node := None]> (nx cm))) as Hrd.
    { split_and!; [apply HR|done|apply HR|done]. }
    destruct (try_insert_ready cm0 A _ node h Hrd) as (r & -> & Hr);
      [apply lookup_insert_eq|]. cbn [obind].
    destruct r as [[im' m']|]; [by do 2 eexists|]. by destruct Hr as [_ []]. }
  rewrite Heq in Hsafe |- *. destruct Hsafe as [HR' Hn']. by eexists.
Qed.
End Refine.
