(* ===== verification/CmapReplace.v ===== *)
(** * lib/cmap.c: replacement and removal, and the map as a client sees it

    [cmap_replace] and [cmap_remove] against the representation [cmap_rep] of
    CmapRefine.v. *)
From Stdlib Require Import ZArith Lia.
From stdpp Require Import base list gmap numbers option.
From S2P Require Import Prelude Hash Cmap CmapSlots CmapTable CmapBfs CmapRefine.
Open Scope Z_scope.

(** [A] with the chain of [h] changed to [l]; an empty chain is no entry. *)
Definition set_chain (A : gmap Z (list positive)) (h : Z) (l : list positive) :
    gmap Z (list positive) :=
  partial_alter (λ _, match l with [] => None | _ => Some l end) h A.

Lemma set_chain_cons A h p l : set_chain A h (p :: l) = <[h := p :: l]> A.
Proof. done. Qed.
Lemma set_chain_nil A h : set_chain A h [] = delete h A.
Proof. done. Qed.

Lemma lookup_set_chain_Some A h l h' l' :
  set_chain A h l !! h' = Some l' ↔
  (h' = h ∧ l' = l ∧ l ≠ []) ∨ (h' ≠ h ∧ A !! h' = Some l').
Proof.
  unfold set_chain. destruct (decide (h' = h)) as [->|Hne].
  - rewrite lookup_partial_alter_eq. destruct l; naive_solver.
  - rewrite lookup_partial_alter_ne by done. naive_solver.
Qed.

Lemma heads_set_chain A h l :
  heads (set_chain A h l) = partial_alter (λ _, head l) h (heads A).
Proof.
  apply map_eq. intros h'. rewrite heads_lookup. destruct (decide (h' = h)) as [->|Hne].
  - unfold set_chain. rewrite !lookup_partial_alter_eq. by destruct l.
  - unfold set_chain. rewrite !lookup_partial_alter_ne by done. by rewrite heads_lookup.
Qed.

Lemma total_set_chain A h l l' :
  A !! h = Some l → (total (set_chain A h l') + length l = total A + length l')%nat.
Proof.
  intros HA. destruct l' as [|p l'].
  - rewrite set_chain_nil, (total_delete A h l HA). simpl. lia.
  - rewrite set_chain_cons. by apply total_insert.
Qed.

Section Replace.
Context `{HF : HashFns}.

(** Changing what a live slot points to. *)
Lemma live_slot_inv im M b i h p o :
  tbl im M → sl im b i = Some (h, Some p) →
  slot_inv (cand1 im) (cand2 im) (upd (sl im) b i (Some (h, o)))
    (partial_alter (λ _, o) h M).
Proof.
  intros [Hwf HI] Hs. destruct o as [q|].
  - apply slot_inv_put; [done|by eapply si_live|..].
    + intros b' i' p' Hs'. by eapply (si_uniq HI).
    + intros h' p' Hs'. congruence.
    + intros i' nd Hlt. by eapply (si_first HI).
    + intros -> Hne i' nd. by eapply (si_prio HI).
  - eapply slot_inv_erase; [done..|by right].
Qed.

(** The two searches of [cmap_replace] find a hash that is present, in one of
    its buckets. *)
Lemma find_slot_protected_Some im M h hh i :
  tbl im M → cmap_find_slot_protected (bucket_at im (bucket_idx im hh)) h = Some i →
  ∃ p, sl im (bucket_idx im hh) i = Some (h, Some p) ∧ M !! h = Some p.
Proof.
  intros [Hwf HI] Hf. apply find_live_Some in Hf as [p Hp]. exists p.
  rewrite <-sl_bucket_at in Hp by (by apply bucket_idx_lt).
  split; [done|]. by eapply si_live.
Qed.

Lemma find_slot_protected_None im M h :
  tbl im M →
  cmap_find_slot_protected (bucket_at im (cand1 im h)) h = None →
  cmap_find_slot_protected (bucket_at im (cand2 im h)) h = None → M !! h = None.
Proof.
  intros [Hwf HI] H1 H2. destruct (cand_lt im h Hwf) as [Hc1 Hc2].
  destruct (M !! h) as [p|] eqn:HM; [|done]. exfalso.
  destruct (si_complete HI _ _ HM) as (b & i & Hs).
  destruct (si_live HI _ _ _ _ Hs) as [_ [-> | ->]]; rewrite sl_bucket_at in Hs by done.
  - by eapply (proj1 (find_live_None _ _) H1).
  - by eapply (proj1 (find_live_None _ _) H2).
Qed.

(** [m'] has the links of [m] wherever a chain avoids [l] and [r]. *)
Definition links_frame (m m' : nexts) (l : list positive) (r : option positive) : Prop :=
  ∀ o l0, (∀ p, p ∈ l0 → (p ∉ l) ∧ r ≠ Some p) → chain m o l0 → chain m' o l0.

(** The links of the replacement. *)
Lemma chain_replacement m o pre node post r :
  chain m o (pre ++ node :: post) → NoDup (pre ++ node :: post) →
  (∀ p, r = Some p → p ∉ pre ++ node :: post) →
  ∃ next, m !! node = Some next ∧
    let m1 := match r with None => m | Some p => <[p := next]> m end in
    let o1 := match r with None => next | Some p => Some p end in
    chain m1 o1 (option_list r ++ post) ∧ o1 = head (option_list r ++ post) ∧
    chain m1 o (pre ++ node :: post).
Proof.
  intros Hc Hnd Hr. destruct (chain_app _ _ _ _ _ Hc) as (next & Hnext & Hpost).
  exists next. split; [done|]. destruct r as [p|]; simpl.
  - specialize (Hr p eq_refl). split_and!; [done| |done|by apply chain_frame].
    exists next. rewrite lookup_insert_eq. split; [done|]. apply chain_frame; [|done].
    set_solver.
  - split_and!; [done| |done]. by eapply chain_head.
Qed.

Lemma replace_walk_chain m first x pre node post o2 l2' :
  head (pre ++ [x]) = Some first →
  chain m (Some first) ((pre ++ [x]) ++ node :: post) → NoDup ((pre ++ [x]) ++ node :: post) →
  x ∉ l2' → chain m o2 l2' →
  replace_walk (S (size m)) m first node o2 = Ret (<[x := o2]> m) ∧
  chain (<[x := o2]> m) (Some first) ((pre ++ [x]) ++ l2').
Proof.
  intros Hf Hc Hnd Hx Hc2. pose proof (chain_length _ _ _ Hc Hnd) as Hlen.
  rewrite <-app_assoc in *. cbn [app] in *. pose proof Hnd as Hnd'.
  apply list.NoDup_app in Hnd' as (_ & Hdis & Hxn). apply list.NoDup_cons in Hxn as [Hxn _].
  split.
  - eapply (replace_walk_spec _ _ pre x node post); [..|done].
    + by rewrite <-(chain_head _ _ _ Hc).
    + intros Hin. apply (Hdis node Hin). right. left.
    + intros ->. apply Hxn. left.
    + rewrite length_app in Hlen. simpl in Hlen. lia.
  - eapply chain_redirect; [|done|done|done]. intros Hin. apply (Hdis x Hin). left.
Qed.

Lemma links_frame_insert m m' l r p o :
  p ∈ l ∨ r = Some p → links_frame m m' l r → links_frame m (<[p := o]> m') l r.
Proof.
  intros Hp Hf o' l0 Hl0 Hc. apply chain_frame; [|by apply Hf].
  intros Hin. destruct (Hl0 p Hin) as [? ?]. by destruct Hp.
Qed.

Lemma replace__found cm A h hh i pre node post r :
  cmap_rep cm A → A !! h = Some (pre ++ node :: post) →
  (∀ p, r = Some p → fresh_node A p) →
  cmap_find_slot_protected (bucket_at (impl cm) (bucket_idx (impl cm) hh)) h = Some i →
  let l' := pre ++ option_list r ++ post in
  ∃ im' m', cmap_replace__ (impl cm) (nx cm) node r h hh = Ret (Some (im', m')) ∧
    tbl im' (partial_alter (λ _, head l') h (heads A)) ∧ same_params (impl cm) im' ∧
    chain m' (head l') l' ∧ links_frame (nx cm) m' (pre ++ node :: post) r.
Proof.
  intros HR HA Hr Hi l'. pose proof (rep_tbl _ _ HR) as HT. pose proof HT as [Hwf _].
  destruct (rep_chain _ _ HR _ _ HA) as [_ Hc]. pose proof (rep_nodup _ _ HR _ _ HA) as Hnd.
  destruct (find_slot_protected_Some _ _ _ _ _ HT Hi) as (first & Hs & Hfirst).
  rewrite heads_lookup, HA in Hfirst. simpl in Hfirst. rewrite Hfirst in Hc.
  destruct (chain_replacement _ _ _ _ _ r Hc Hnd) as (next & Hnext & Hnew & Ho & Hold).
  { intros p ->. by eapply (Hr p eq_refl). }
  unfold cmap_replace__. rewrite Hi. unfold cmap_node_next at 1. rewrite Hnext. cbn [obind].
  set (m1 := match r with None => nx cm | Some p => <[p := next]> (nx cm) end) in *.
  set (o1 := match r with None => next | Some p => Some p end) in *.
  replace (match r with None => (next, nx cm) | Some r => (Some r, <[r:=next]> (nx cm)) end)
    with (o1, m1) by (by destruct r).
  assert (links_frame (nx cm) m1 (pre ++ node :: post) r) as Hframe.
  { unfold m1. destruct r; [|by intros ???]. apply links_frame_insert; [by right|by intros ???]. }
  assert (snd (slot_at (impl cm) (bucket_idx (impl cm) hh) i) = Some first) as Hsl.
  { unfold slot_at. rewrite <-sl_bucket_at, Hs by (by apply bucket_idx_lt). done. }
  rewrite Hsl. destruct (Pos.eqb_spec first node) as [->|Hne].
  - destruct pre as [|y pre].
    2: { exfalso. simpl in Hfirst. injection Hfirst as ->. simpl in Hnd.
         apply list.NoDup_cons in Hnd as [Hnd _]. apply Hnd. apply elem_of_app. right. left. }
    do 2 eexists. split; [done|]. split_and!; [|apply same_params_put| |done].
    + destruct (sl_lt _ _ _ _ Hwf Hs) as [Hb Hik].
      eapply (tbl_put_slot _ _ _ _ i (h, o1)); [done..|by split|].
      subst l'. simpl. rewrite <-Ho. by eapply live_slot_inv.
    + subst l'. simpl. by rewrite <-Ho.
  - destruct pre as [|y pre _] using rev_ind; [by injection Hfirst as ->|].
    assert (head (pre ++ [y]) = Some first) as Hf by (destruct pre; done).
    assert (y ∉ option_list r ++ post) as Hy.
    { rewrite elem_of_app. intros [Hin|Hin].
      - destruct r as [p|]; [|by apply not_elem_of_nil in Hin].
        apply list_elem_of_singleton in Hin. subst p. apply (Hr y eq_refl _ _ HA). set_solver.
      - rewrite <-app_assoc in Hnd. apply list.NoDup_app in Hnd as (_ & _ & Hnd).
        apply list.NoDup_cons in Hnd as [Hnd _]. apply Hnd. by right. }
    destruct (replace_walk_chain m1 first y pre node post o1 (option_list r ++ post) Hf Hold
                Hnd Hy Hnew) as [Hw Hc'].
    rewrite Hw. cbn [obind]. do 2 eexists. split; [done|].
    assert (head l' = Some first) as Hhd by (subst l'; by destruct pre).
    rewrite Hhd. split_and!; [|done|done|].
    + replace (partial_alter (λ _, Some first) h (heads A)) with (heads A); [done|].
      symmetry. change (<[h := first]> (heads A) = heads A). apply insert_id.
      by rewrite heads_lookup, HA.
    + apply links_frame_insert; [left; set_solver|done].
Qed.

Lemma replace__not_found im m node r h hh :
  cmap_find_slot_protected (bucket_at im (bucket_idx im hh)) h = None →
  cmap_replace__ im m node r h hh = Ret None.
Proof. intros Hn. unfold cmap_replace__. by rewrite Hn. Qed.

(** The representation after a chain has changed. *)
Lemma rep_replaced cm A h l l' r im' m' :
  cmap_rep cm A → A !! h = Some l →
  (∀ p, r = Some p → fresh_node A p) → NoDup l' →
  (∀ p, p ∈ l' → p ∈ l ∨ r = Some p) →
  tbl im' (partial_alter (λ _, head l') h (heads A)) →
  chain m' (head l') l' → links_frame (nx cm) m' l r →
  im_n im' = Z.of_nat (total (set_chain A h l')) → im_n im' ≤ max_n im' →
  cmap_rep (mkCmap im' m') (set_chain A h l').
Proof.
  intros HR HA Hr Hnd Hsub HT Hc Hf Hn Hle.
  assert (∀ h' l0 p, h' ≠ h → A !! h' = Some l0 → p ∈ l0 → (p ∉ l) ∧ r ≠ Some p) as Havoid.
  { intros h' l0 p Hne Hl0 Hp. split.
    - intros Hin. by apply Hne, (rep_disj _ _ HR h' h l0 l p).
    - intros ->. by apply (Hr p eq_refl _ _ Hl0). }
  assert (∀ h' l0 p, h' ≠ h → A !! h' = Some l0 → p ∈ l0 → p ∉ l') as Hdis.
  { intros h' l0 p Hne Hl0 Hp Hin. destruct (Havoid _ _ _ Hne Hl0 Hp).
    by destruct (Hsub p Hin). }
  split; simpl; [by rewrite heads_set_chain| | | |done|done].
  - intros h' l0 [(-> & -> & Hne)|[Hne Hl0]]%lookup_set_chain_Some; [done|].
    destruct (rep_chain _ _ HR _ _ Hl0) as [? ?]. split; [done|]. apply Hf; [|done].
    intros p. by apply (Havoid h').
  - intros h' l0 [(-> & -> & Hne)|[Hne Hl0]]%lookup_set_chain_Some; [done|].
    by eapply (rep_nodup _ _ HR).
  - intros h1 h2 l1 l2 p [(-> & -> & _)|[Hne1 H1]]%lookup_set_chain_Some
      [(-> & -> & _)|[Hne2 H2]]%lookup_set_chain_Some Hp1 Hp2; [done|..].
    + by destruct (Hdis _ _ _ Hne2 H2 Hp2).
    + by destruct (Hdis _ _ _ Hne1 H1 Hp1).
    + by eapply (rep_disj _ _ HR).
Qed.

(** What the first half of [cmap_replace] does, up to the count. *)
Lemma replace_both cm A h pre node post r :
  cmap_rep cm A → A !! h = Some (pre ++ node :: post) →
  (∀ p, r = Some p → fresh_node A p) →
  let l' := pre ++ option_list r ++ post in
  ∃ im' m',
    (∀ B (k : cmap_impl * nexts → outcome B),
       (let* r1 := cmap_replace__ (impl cm) (nx cm) node r h (rehash (impl cm) h) in
        let* z := match r1 with
          | Some r => Ret r
          | None =>
              let* r2 := cmap_replace__ (impl cm) (nx cm) node r h
                           (other_hash (rehash (impl cm) h)) in
              match r2 with Some r => Ret r | None => Fault AssertFail end
          end in k z) = k (im', m')) ∧
    tbl im' (partial_alter (λ _, head l') h (heads A)) ∧ same_params (impl cm) im' ∧
    chain m' (head l') l' ∧ links_frame (nx cm) m' (pre ++ node :: post) r.
Proof.
  intros HR HA Hr l'.
  destruct (cmap_find_slot_protected (bucket_at (impl cm) (cand1 (impl cm) h)) h)
    as [i|] eqn:H1.
  { destruct (replace__found cm A h _ i pre node post r HR HA Hr H1) as (im' & m' & -> & ?).
    by exists im', m'. }
  rewrite (replace__not_found _ _ _ _ _ _ H1). cbn [obind].
  destruct (cmap_find_slot_protected (bucket_at (impl cm) (cand2 (impl cm) h)) h)
    as [i|] eqn:H2.
  { destruct (replace__found cm A h _ i pre node post r HR HA Hr H2) as (im' & m' & -> & ?).
    by exists im', m'. }
  pose proof (find_slot_protected_None _ _ _ (rep_tbl _ _ HR) H1 H2) as HN.
  rewrite heads_lookup, HA in HN. by destruct pre.
Qed.

Lemma NoDup_replaced (pre post : list positive) node r :
  NoDup (pre ++ node :: post) → (∀ p, r = Some p → p ∉ pre ++ node :: post) →
  NoDup (pre ++ option_list r ++ post).
Proof.
  intros Hnd Hr. apply list.NoDup_app in Hnd as (H1 & H2 & H3).
  apply list.NoDup_cons in H3 as [H3 H4].
  destruct r as [p|]; simpl.
  - specialize (Hr p eq_refl). apply list.NoDup_app. split_and!; [done| |].
    + intros x Hx. specialize (H2 x Hx). set_solver.
    + apply list.NoDup_cons. split; [set_solver|done].
  - apply list.NoDup_app. split_and!; [done| |done]. set_solver.
Qed.

(** Replacing a node by a fresh one puts it in the same place of the chain. *)
Lemma cmap_replace_returns fuel seed cm A h pre node post p :
  cmap_rep cm A → A !! h = Some (pre ++ node :: post) → fresh_node A p →
  returns (cmap_replace fuel seed cm node (Some p) h) (λ '(seed', cm', n'),
    seed' = seed ∧ cmap_rep cm' (<[h := pre ++ p :: post]> A) ∧
    n' = Z.of_nat (total A)).
Proof.
  intros HR HA Hp.
  assert (∀ q, Some p = Some q → fresh_node A q) as Hr by (by intros ? [= <-]).
  destruct (replace_both cm A h pre node post (Some p) HR HA Hr)
    as (im' & m' & Heq & HT & (Hn & Hmx & _) & Hc & Hf).
  unfold cmap_replace. rewrite Heq. cbn [obind]. eexists. split; [done|].
  assert (set_chain A h (pre ++ p :: post) = <[h := pre ++ p :: post]> A) as <-
    by (by destruct pre).
  pose proof (total_set_chain A h _ (pre ++ p :: post) HA) as Ht.
  rewrite !length_app in Ht. simpl in Ht. pose proof (rep_n _ _ HR).
  pose proof (rep_le _ _ HR).
  split_and!; [done| |lia].
  eapply (rep_replaced cm A h _ _ (Some p)); try done; [..|lia|lia].
  - apply (NoDup_replaced pre post node (Some p)); [by eapply (rep_nodup _ _ HR)|].
    intros q Hq. by eapply Hr.
  - intros q. simpl. rewrite !elem_of_app, !elem_of_cons. naive_solver.
Qed.

(** Removing a node takes it out of its chain. *)
Lemma cmap_remove_safe fuel seed cm A h pre node post :
  cmap_rep cm A → A !! h = Some (pre ++ node :: post) →
  safe (cmap_remove fuel seed cm node h) (λ '(_, cm', n'),
    cmap_rep cm' (set_chain A h (pre ++ post)) ∧ n' = Z.of_nat (total A) - 1).
Proof.
  intros HR HA.
  assert (∀ q, None = Some q → fresh_node A q) as Hr by done.
  destruct (replace_both cm A h pre node post None HR HA Hr)
    as (im' & m' & Heq & HT & (Hn & Hmx & Hmn & Hmk & _) & Hc & Hf).
  unfold cmap_remove, cmap_replace. rewrite Heq. cbn [obind]. clear Heq. simpl in HT, Hc, Hf.
  pose proof (total_set_chain A h _ (pre ++ post) HA) as Ht.
  rewrite !length_app in Ht. simpl in Ht. pose proof (rep_n _ _ HR). pose proof (rep_le _ _ HR).
  pose proof (rep_tbl _ _ HR) as [[(k & Hk & Hmask) _ _ Hmax Hmin] _].
  assert (0 ≤ im_n im' - 1 < 2 ^ 32) as Hw.
  { split; [lia|]. pose proof (u32_range
      (Z.shiftr (u64 (u32 (mask (impl cm) + 1) * Z.of_nat CMAP_K * CMAP_MAX_LOAD)) 32)).
    unfold calc_max_n in Hmax. lia. }
  rewrite (u32_small _ Hw).
  assert (∀ im2, tbl im2 (partial_alter (λ _, head (pre ++ post)) h (heads A)) →
    im_n im2 = im_n im' - 1 → im_n im2 ≤ max_n im2 →
    cmap_rep (mkCmap im2 m') (set_chain A h (pre ++ post))) as Hrep.
  { intros im2 HT2 Hn2 Hle2.
    eapply (rep_replaced cm A h _ _ None); try done; [..|lia].
    - apply (NoDup_replaced pre post node None); [by eapply (rep_nodup _ _ HR)|done].
    - intros q. rewrite !elem_of_app, !elem_of_cons. naive_solver. }
  cbn [im_n min_n set_n]. destruct (Z.ltb_spec (im_n im' - 1) (min_n im')) as [Hlt|Hge].
  - rewrite Hmn, Hmin, Hmask in Hlt. destruct (shrink_fits k (im_n im' - 1) Hk) as [Hk1 Hfit];
      [lia|]. cbn [mask set_n]. rewrite Hmk, Hmask, shrink_mask by done.
    eapply safe_bind; [eapply cmap_rehash_safe; [by apply tbl_set_n|lia|done]|].
    intros [seed' cm'] (Hx' & HT' & Hn' & Hm'). simpl in Hx', Hn' |- *.
    split; [|lia]. destruct cm' as [im2 m2]. simpl in *. subst m2. apply Hrep; [done..|].
    rewrite (wf_max _ (proj1 HT')), Hm'. lia.
  - simpl. split; [|lia]. apply Hrep; [by apply tbl_set_n|done|simpl; lia].
Qed.

(** It returns at once unless the table has become too sparse. *)
Lemma cmap_remove_returns fuel seed cm A h pre node post :
  cmap_rep cm A → A !! h = Some (pre ++ node :: post) →
  min_n (impl cm) < im_n (impl cm) →
  returns (cmap_remove fuel seed cm node h) (λ '(seed', cm', n'),
    seed' = seed ∧ cmap_rep cm' (set_chain A h (pre ++ post)) ∧
    n' = Z.of_nat (total A) - 1).
Proof.
  intros HR HA Hmin. pose proof (cmap_remove_safe fuel seed cm A h pre node post HR HA) as Hs.
  assert (∃ cm' n', cmap_remove fuel seed cm node h = Ret (seed, cm', n')) as (cm' & n' & Heq).
  { destruct (replace_both cm A h pre node post None HR HA)
      as (im' & m' & Heq & _ & (Hn & Hmx & Hmn & Hmk & _) & _); [done|].
    unfold cmap_remove, cmap_replace. rewrite Heq. cbn [obind im_n min_n set_n].
    pose proof (rep_n _ _ HR). pose proof (rep_le _ _ HR).
    pose proof (rep_tbl _ _ HR) as [[_ _ _ Hmax Hmin'] _].
    rewrite u32_small.
    - destruct (Z.ltb_spec (im_n im' - 1) (min_n im')); [lia|]. by do 2 eexists.
    - pose proof (u32_range
        (Z.shiftr (u64 (u32 (mask (impl cm) + 1) * Z.of_nat CMAP_K * CMAP_MAX_LOAD)) 32)).
      pose proof (u32_range
        (Z.shiftr (u64 (u32 (mask (impl cm) + 1) * Z.of_nat CMAP_K * CMAP_MIN_LOAD)) 32)).
      unfold calc_max_n in Hmax. unfold calc_min_n in Hmin'. lia. }
  rewrite Heq in Hs |- *. by eexists.
Qed.

(** ** Creation and lookup *)

Lemma cmap_init_returns seed :
  returns (cmap_init seed) (λ '(_, cm), cmap_rep cm ∅ ∧ nx cm = ∅).
Proof.
  destruct (cmap_impl_create_spec seed 0) as (im & Heq & HT & Hn & Hm); [lia|].
  unfold cmap_init. change (2 ^ 0 - 1) with 0 in *. rewrite Heq. cbn [obind].
  eexists. split; [done|]. simpl. split; [|done]. split; simpl; try done.
  rewrite Hn, (wf_max _ (proj1 HT)), Hm. by vm_compute.
Qed.

(** [cmap_find] returns the newest node of the hash. *)
Lemma cmap_find_rep cm A h : cmap_rep cm A → cmap_find cm h = Ret (A !! h ≫= head).
Proof. intros HR. rewrite (cmap_find_spec _ _ _ (rep_tbl _ _ HR)). by rewrite heads_lookup. Qed.
End Replace.
