(* ===== verification/CmapIter.v ===== *)
(** * lib/cmap.c: iteration and batch lookup

    Cursors ([CMAP_FOR_EACH]), positions ([cmap_next_position]) and
    [cmap_find_batch], for a map that no other thread changes meanwhile. *)
From Stdlib Require Import ZArith Lia.
From stdpp Require Import base list gmap numbers option.
From S2P Require Import Prelude Hash Cmap.
Open Scope Z_scope.

(** ** Cursors *)

Record cmap_cursor := mkCursor {
  cur_bucket : Z;
  cur_entry : nat;
  cur_node : option positive;
}.

(** [cmap_node_next(&b->nodes[entry])]: the head of the chain of a slot. *)
Definition entry_node (b : cmap_bucket) (entry : nat) : option positive :=
  slots b !! entry ≫= snd.

(** The inner loop of [cmap_cursor_advance], with [n] entries left. *)
Fixpoint cursor_entries (n : nat) (b : cmap_bucket) (entry : nat) : nat * option positive :=
  match n with
  | O => (entry, None)
  | S n =>
      match entry_node b entry with
      | Some p => (S entry, Some p)
      | None => cursor_entries n b (S entry)
      end
  end.

(** The outer one. *)
Fixpoint cursor_buckets (fuel : nat) (im : cmap_impl) (bidx : Z) (entry : nat)
    : outcome cmap_cursor :=
  match fuel with
  | O => Diverge
  | S fuel =>
      if bidx <=? mask im then
        let '(entry, node) :=
          cursor_entries (CMAP_K - entry) (bucket_at im (Z.to_nat bidx)) entry in
        match node with
        | Some p => Ret (mkCursor bidx entry (Some p))
        | None => cursor_buckets fuel im (u32 (bidx + 1)) 0
        end
      else Ret (mkCursor bidx entry None)
  end.

(** One round per bucket, and one to see the end. *)
Definition bucket_fuel (im : cmap_impl) : nat := S (length (buckets im)).

Definition cmap_cursor_advance (cm : cmap) (cur : cmap_cursor) : outcome cmap_cursor :=
  let* next := match cur_node cur with
               | Some p => cmap_node_next (nx cm) p
               | None => Ret None
               end in
  match next with
  | Some p => Ret (mkCursor (cur_bucket cur) (cur_entry cur) (Some p))
  | None => cursor_buckets (bucket_fuel (impl cm)) (impl cm) (cur_bucket cur) (cur_entry cur)
  end.

Definition cmap_cursor_start (cm : cmap) : outcome cmap_cursor :=
  cmap_cursor_advance cm (mkCursor 0 0 None).

(** [CMAP_FOR_EACH] with a body that does not change the map: the nodes the
    body sees.  The cursor moves on before the body runs. *)
Fixpoint cursor_loop (fuel : nat) (cm : cmap) (cur : cmap_cursor) : outcome (list positive) :=
  match cur_node cur with
  | None => Ret []
  | Some p =>
      match fuel with
      | O => Diverge
      | S fuel =>
          let* cur := cmap_cursor_advance cm cur in
          let* l := cursor_loop fuel cm cur in
          Ret (p :: l)
      end
  end.

Definition CMAP_FOR_EACH (fuel : nat) (cm : cmap) : outcome (list positive) :=
  let* cur := cmap_cursor_start cm in cursor_loop fuel cm cur.

(** ** Positions *)

Record cmap_position := mkPosition {
  pos_bucket : Z;
  pos_entry : nat;
  pos_offset : Z;
}.

(** The loop over a chain: the node number [offset], if the chain has one. *)
Fixpoint position_walk (fuel : nat) (m : nexts) (node : option positive) (i offset : Z)
    : outcome (option positive) :=
  match node with
  | None => Ret None
  | Some p =>
      if i =? offset then Ret (Some p)
      else
        match fuel with
        | O => Diverge
        | S fuel => let* next := cmap_node_next m p in
                    position_walk fuel m next (u32 (i + 1)) offset
        end
  end.

(** The node found in the entries from [entry] on, with its entry and offset. *)
Fixpoint position_entries (n : nat) (m : nexts) (b : cmap_bucket) (entry : nat) (offset : Z)
    : outcome (option (positive * nat * Z)) :=
  match n with
  | O => Ret None
  | S n =>
      let* node := position_walk (size m) m (entry_node b entry) 0 offset in
      match node with
      | Some p => Ret (Some (p, entry, offset))
      | None => position_entries n m b (S entry) 0
      end
  end.

Fixpoint position_buckets (fuel : nat) (cm : cmap) (bidx : Z) (entry : nat) (offset : Z)
    : outcome (option positive * cmap_position) :=
  match fuel with
  | O => Diverge
  | S fuel =>
      if bidx <=? mask (impl cm) then
        let* r := position_entries (CMAP_K - entry) (nx cm) (bucket_at (impl cm) (Z.to_nat bidx))
                    entry offset in
        match r with
        | Some (p, entry, offset) =>
            let* next := cmap_node_next (nx cm) p in
            Ret (Some p, match next with
                         | Some _ => mkPosition bidx entry (u32 (offset + 1))
                         | None => mkPosition bidx (S entry) 0
                         end)
        | None => position_buckets fuel cm (u32 (bidx + 1)) 0 0
        end
      else Ret (None, mkPosition 0 0 0)
  end.

Definition cmap_next_position (cm : cmap) (pos : cmap_position)
    : outcome (option positive * cmap_position) :=
  position_buckets (bucket_fuel (impl cm)) cm (pos_bucket pos) (pos_entry pos) (pos_offset pos).

Definition cmap_first (cm : cmap) : outcome (option positive) :=
  let* (node, _) := cmap_next_position cm (mkPosition 0 0 0) in Ret node.

(** Calling it until it returns null: the nodes and the last position. *)
Fixpoint position_loop (fuel : nat) (cm : cmap) (pos : cmap_position)
    : outcome (list positive * cmap_position) :=
  match fuel with
  | O => Diverge
  | S fuel =>
      let* (node, pos) := cmap_next_position cm pos in
      match node with
      | None => Ret ([], pos)
      | Some p => let* (l, pos) := position_loop fuel cm pos in Ret (p :: l, pos)
      end
  end.

(** ** Batch lookup *)

Section Batch.
Context `{HF : HashFns}.

(** [ULLONG_FOR_EACH_1(i, map)] visits the one-bits of the value [map] has at
    its start, from the least significant one on; [ULLONG_SET0]. *)
Definition ones (map : Z) : list Z := filter (λ i, Z.testbit map i = true) (seqZ 0 64).
Definition ULLONG_SET0 (map i : Z) : Z := Z.ldiff map (Z.shiftl 1 i).

(** Reading an element of a local array that may not have been written. *)
Definition read_array {A} (a : gmap Z A) (i : Z) : outcome A :=
  match a !! i with Some x => Ret x | None => Fault UninitRead end.
(** Reading the array of the caller. *)
Definition read_hash (hashes : list Z) (i : Z) : outcome Z :=
  match hashes !! Z.to_nat i with Some h => Ret h | None => Fault OutOfBounds end.

(** First loop: [h1s] and [b1s], the latter as indices. *)
Fixpoint batch_hashes (idxs : list Z) (im : cmap_impl) (hashes : list Z)
    (h1s : gmap Z Z) (b1s : gmap Z nat) : outcome (gmap Z Z * gmap Z nat) :=
  match idxs with
  | [] => Ret (h1s, b1s)
  | i :: idxs =>
      let* h := read_hash hashes i in
      let h1 := rehash im h in
      batch_hashes idxs im hashes (<[i := h1]> h1s) (<[i := bucket_idx im h1]> b1s)
  end.

(** Second loop: the first buckets. *)
Fixpoint batch_round1 (idxs : list Z) (im : cmap_impl) (hashes : list Z)
    (h1s : gmap Z Z) (b1s b2s : gmap Z nat) (c1s : gmap Z Z) (map : Z) (nodes : gmap Z positive)
    : outcome (gmap Z nat * gmap Z Z * Z * gmap Z positive) :=
  match idxs with
  | [] => Ret (b2s, c1s, map, nodes)
  | i :: idxs =>
      let* b1 := read_array b1s i in
      let* h := read_hash hashes i in
      let* (c1, node) := find_stable (bucket_at im b1) h in
      match node with
      | None =>
          let* h1 := read_array h1s i in
          batch_round1 idxs im hashes h1s b1s (<[i := bucket_idx im (other_hash h1)]> b2s)
            (<[i := c1]> c1s) map nodes
      | Some p =>
          batch_round1 idxs im hashes h1s b1s b2s c1s (ULLONG_SET0 map i) (<[i := p]> nodes)
      end
  end.

(** Third loop: the second buckets, where needed. *)
Fixpoint batch_round2 (idxs : list Z) (im : cmap_impl) (hashes : list Z)
    (b1s b2s : gmap Z nat) (c1s : gmap Z Z) (result : Z) (nodes : gmap Z positive)
    : outcome (Z * gmap Z positive) :=
  match idxs with
  | [] => Ret (result, nodes)
  | i :: idxs =>
      let* b2 := read_array b2s i in
      let* h := read_hash hashes i in
      let* (c2, node) := find_stable (bucket_at im b2) h in
      let* node :=
        match node with
        | Some _ => Ret node
        | None =>
            let* b1 := read_array b1s i in
            let* c1 := read_array c1s i in
            if counter_changed (bucket_at im b1) c1
            then cmap_find__ (bucket_at im b1) (bucket_at im b2) h
            else Ret None
        end in
      match node with
      | Some p => batch_round2 idxs im hashes b1s b2s c1s result (<[i := p]> nodes)
      | None => batch_round2 idxs im hashes b1s b2s c1s (ULLONG_SET0 result i) nodes
      end
  end.

(** [nodes] are the elements of the caller's array that have been written. *)
Definition cmap_find_batch (cm : cmap) (map : Z) (hashes : list Z) (nodes : gmap Z positive)
    : outcome (Z * gmap Z positive) :=
  let im := impl cm in
  let* (h1s, b1s) := batch_hashes (ones map) im hashes ∅ ∅ in
  let* (b2s, c1s, map2, nodes) := batch_round1 (ones map) im hashes h1s b1s ∅ ∅ map nodes in
  batch_round2 (ones map2) im hashes b1s b2s c1s map nodes.
End Batch.
