(* ===== verification/CmapIterProofs.v ===== *)
(** * Iteration visits every node once, batch lookup is lookup

    What is left for a cursor or a position is a list of slots; the nodes it
    will still visit are the chains of their heads. *)
From Stdlib Require Import ZArith Lia.
From stdpp Require Import base list gmap numbers option.
From S2P Require Import Prelude Hash Cmap CmapSlots CmapTable CmapRefine CmapIter.
Open Scope Z_scope.

(** ** Slots ahead *)

(** The slots from entry [e] of bucket [b] on. *)
Definition ahead (im : cmap_impl) (b : Z) (e : nat) : list slot :=
  match drop (Z.to_nat b) (buckets im) with
  | [] => []
  | bk :: bs => drop e (slots bk) ++ concat (slots <$> bs)
  end.

(** The nodes in a list of slots. *)
Definition slot_nodes (l : list slot) : list positive := omap snd l.

Lemma slot_nodes_app l k : slot_nodes (l ++ k) = slot_nodes l ++ slot_nodes k.
Proof. apply omap_app. Qed.

Lemma ahead_start im : ahead im 0 0 = all_slots im.
Proof. unfold ahead, all_slots. simpl. by destruct (buckets im). Qed.

Lemma ahead_next im b : 0 ≤ b →
  ahead im (b + 1) 0 = match drop (Z.to_nat b) (buckets im) with
                       | [] => [] | _ :: bs => concat (slots <$> bs) end.
Proof.
  intros Hb. unfold ahead. replace (Z.to_nat (b + 1)) with (Z.to_nat b + 1)%nat by lia.
  rewrite <- drop_drop. destruct (drop (Z.to_nat b) (buckets im)) as [|bk bs]; [done|].
  simpl. rewrite drop_0. by destruct bs.
Qed.

(** The entry [e] of bucket [b], when there is one. *)
Lemma ahead_entry im b e :
  wf_impl im → 0 ≤ b ≤ mask im → (e ≤ CMAP_K)%nat →
  ahead im b e = drop e (slots (bucket_at im (Z.to_nat b))) ++ ahead im (b + 1) 0 ∧
  length (slots (bucket_at im (Z.to_nat b))) = CMAP_K.
Proof.
  intros Hwf Hb He. split; [|by apply wf_bucket_at].
  rewrite ahead_next by lia. unfold ahead, bucket_at.
  destruct (drop (Z.to_nat b) (buckets im)) as [|bk bs] eqn:E.
  - apply (f_equal length) in E. rewrite length_drop, (wf_len _ Hwf) in E. simpl in E. lia.
  - assert (buckets im !! Z.to_nat b = Some bk) as ->; [|done].
    rewrite <- (Nat.add_0_r (Z.to_nat b)), <- lookup_drop, E. done.
Qed.

Lemma ahead_end im b e : wf_impl im → mask im < b → ahead im b e = [].
Proof.
  intros Hwf Hb. unfold ahead. rewrite drop_ge; [done|].
  rewrite (wf_len _ Hwf). destruct (wf_mask _ Hwf) as (k & Hk & Hm).
  assert (0 < 2 ^ k) by (apply Z.pow_pos_nonneg; lia). lia.
Qed.

Lemma mask_range im : wf_impl im → 0 ≤ mask im < 2 ^ 30.
Proof.
  intros Hwf. destruct (wf_mask _ Hwf) as (k & Hk & ->).
  assert (0 < 2 ^ k) by (apply Z.pow_pos_nonneg; lia).
  assert (2 ^ k < 2 ^ 30) by (apply Z.pow_lt_mono_r; lia). lia.
Qed.

(** One entry of a bucket. *)
Lemma drop_entry b e :
  (e < length (slots b))%nat →
  slot_nodes (drop e (slots b)) = option_list (entry_node b e) ++ slot_nodes (drop (S e) (slots b)).
Proof.
  intros He. apply lookup_lt_is_Some in He as [s Hs]. unfold entry_node. rewrite Hs.
  rewrite (drop_S _ _ _ Hs). by destruct s as [h [p|]].
Qed.

(** ** Cursors *)

Lemma cursor_entries_spec n b e :
  (e + n)%nat = length (slots b) →
  match cursor_entries n b e with
  | (e', Some p) => (e' ≤ length (slots b))%nat ∧
      slot_nodes (drop e (slots b)) = p :: slot_nodes (drop e' (slots b))
  | (e', None) => slot_nodes (drop e (slots b)) = []
  end.
Proof.
  revert e. induction n as [|n IH]; intros e He; simpl.
  - rewrite drop_ge by lia. done.
  - rewrite drop_entry by lia. destruct (entry_node b e) as [p|]; simpl; [split; [lia|done]|].
    apply IH. lia.
Qed.

(** The cursor stops at the next node ahead. *)
Definition cursor_ok (im : cmap_impl) (cur : cmap_cursor) : Prop :=
  0 ≤ cur_bucket cur ≤ mask im + 1 ∧ (cur_entry cur ≤ CMAP_K)%nat.
Definition cursor_ahead (im : cmap_impl) (cur : cmap_cursor) : list positive :=
  slot_nodes (ahead im (cur_bucket cur) (cur_entry cur)).

Lemma cursor_buckets_spec fuel im b e :
  wf_impl im → 0 ≤ b ≤ mask im + 1 → (e ≤ CMAP_K)%nat → mask im + 1 - b < Z.of_nat fuel →
  returns (cursor_buckets fuel im b e) (λ cur, cursor_ok im cur ∧
    slot_nodes (ahead im b e) = match cur_node cur with
      | Some p => p :: cursor_ahead im cur
      | None => []
      end).
Proof.
  intros Hwf. pose proof (mask_range _ Hwf).
  revert b e. induction fuel as [|fuel IH]; intros b e Hb He Hf; [lia|].
  cbn [cursor_buckets]. destruct (Z.leb_spec b (mask im)) as [Hle|Hgt].
  - destruct (ahead_entry im b e Hwf) as [Ha Hl]; [lia|done|].
    pose proof (cursor_entries_spec (CMAP_K - e) (bucket_at im (Z.to_nat b)) e) as Hc.
    destruct (cursor_entries _ _ e) as [e' [p|]].
    + destruct Hc as [He' Hc]; [lia|]. eexists. split; [done|]. split; [split; simpl; lia|].
      cbn [cur_node]. unfold cursor_ahead. cbn [cur_bucket cur_entry].
      destruct (ahead_entry im b e' Hwf) as [Ha' _]; [lia|lia|].
      by rewrite Ha, Ha', !slot_nodes_app, Hc.
    + rewrite Ha, slot_nodes_app, Hc by lia. rewrite u32_small by lia.
      simpl. apply IH; [lia|lia|lia].
  - eexists. split; [done|]. split; [split; simpl; lia|]. by rewrite ahead_end.
Qed.

Lemma bucket_fuel_enough im b :
  wf_impl im → 0 ≤ b → mask im + 1 - b < Z.of_nat (bucket_fuel im).
Proof.
  intros Hwf Hb. pose proof (mask_range _ Hwf). unfold bucket_fuel. rewrite (wf_len _ Hwf). lia.
Qed.

(** [chains m ps ls]: [ls] are the chains of the nodes [ps]. *)
Definition chains (m : nexts) (ps : list positive) (ls : list (list positive)) : Prop :=
  Forall2 (λ p l, chain m (Some p) l) ps ls.

Lemma chain_Some m p l : chain m (Some p) l → ∃ q l', l = p :: l' ∧ m !! p = Some q ∧ chain m q l'.
Proof. destruct l as [|x l]; simpl; [done|]. intros ([= <-] & q & Hq & Hc). by exists q, l. Qed.

(** What a cursor at node [o], the rest of whose chain is [l], still visits. *)
Lemma cursor_loop_spec n cm l cur ls :
  wf_impl (impl cm) → cursor_ok (impl cm) cur → chain (nx cm) (cur_node cur) l →
  chains (nx cm) (cursor_ahead (impl cm) cur) ls → cur_node cur ≠ None →
  n = length (l ++ concat ls) →
  cursor_loop n cm cur = Ret (l ++ concat ls).
Proof.
  intros Hwf. revert l cur ls. induction n as [|n IH]; intros l cur ls [Hb He] Hc Hls Hn Hlen;
    destruct (cur_node cur) as [p|] eqn:En; try done;
    apply chain_Some in Hc as (q & l' & -> & Hq & Hc); [done|].
  cbn [cursor_loop]. rewrite En. unfold cmap_cursor_advance. rewrite En.
  unfold cmap_node_next. rewrite Hq. cbn [obind]. injection Hlen as Hlen.
  destruct q as [q|].
  - cbn [obind]. by rewrite (IH l' _ ls).
  - destruct l' as [|? ?]; [|by destruct Hc].
    destruct (cursor_buckets_spec (bucket_fuel (impl cm)) (impl cm) (cur_bucket cur) (cur_entry cur))
      as (cur' & -> & Hok & Hahead); [done|done|done|by apply bucket_fuel_enough; [|lia]|].
    cbn [obind app]. unfold cursor_ahead in Hls. rewrite Hahead in Hls.
    destruct (cur_node cur') as [p'|] eqn:En'.
    + apply Forall2_cons_inv_l in Hls as (l2 & ls2 & Hc2 & Hls2 & ->).
      rewrite (IH l2 _ ls2); rewrite ?En'; done.
    + apply Forall2_nil_inv_l in Hls as ->.
      destruct n as [|n]; [|done]. cbn [cursor_loop]. by rewrite En'.
Qed.

Lemma for_each_spec cm ls :
  wf_impl (impl cm) → chains (nx cm) (slot_nodes (all_slots (impl cm))) ls →
  CMAP_FOR_EACH (length (concat ls)) cm = Ret (concat ls).
Proof.
  intros Hwf Hls. unfold CMAP_FOR_EACH, cmap_cursor_start, cmap_cursor_advance. cbn [cur_node obind].
  pose proof (mask_range _ Hwf).
  destruct (cursor_buckets_spec (bucket_fuel (impl cm)) (impl cm) 0 0)
    as (cur & Hcur & Hok & Hahead); [done|lia|lia|by apply bucket_fuel_enough|].
  cbn [cur_bucket cur_entry]. rewrite Hcur. cbn [obind].
  rewrite ahead_start in Hahead. rewrite Hahead in Hls.
  destruct (cur_node cur) as [p|] eqn:En.
  - apply Forall2_cons_inv_l in Hls as (l & ls' & Hc & Hls & ->).
    apply cursor_loop_spec; try done; rewrite En; done.
  - apply Forall2_nil_inv_l in Hls as ->. simpl. by rewrite En.
Qed.

(** ** The chains of a map *)

Lemma slot_nodes_live l : slot_nodes l = (live l).*2.
Proof.
  induction l as [|[h [p|]] l IH]; [done| |exact IH].
  change (p :: slot_nodes l = p :: (live l).*2). by rewrite IH.
Qed.

(** In table order: the chains of the hashes that have a live slot. *)
Definition rep_chains (cm : cmap) (A : gmap Z (list positive)) : list (list positive) :=
  (λ hp, default [] (A !! hp.1)) <$> live (all_slots (impl cm)).

Section Rep.
Context `{HF : HashFns}.

Lemma live_heads cm A h p :
  cmap_rep cm A → (h, p) ∈ live (all_slots (impl cm)) ↔ A !! h ≫= head = Some p.
Proof.
  intros HR. destruct (live_all_slots _ _ (rep_tbl _ _ HR)) as [Hnd Hm].
  rewrite elem_of_list_to_map by done. by rewrite Hm, heads_lookup.
Qed.

Lemma rep_chains_ok cm A :
  cmap_rep cm A → chains (nx cm) (slot_nodes (all_slots (impl cm))) (rep_chains cm A).
Proof.
  intros HR. rewrite slot_nodes_live. unfold chains, rep_chains.
  assert (Forall (λ hp, A !! hp.1 ≫= head = Some hp.2) (live (all_slots (impl cm)))) as Hall.
  { apply Forall_forall. intros [h p] Hin. apply list_elem_of_In in Hin. by apply (live_heads cm A). }
  induction Hall as [|[h p] l Hp Hl IH]; simpl; [constructor|]. constructor; [|done]. simpl in *.
  destruct (A !! h) as [c|] eqn:E; simpl in *; [|done].
  destruct (rep_chain _ _ HR h c E) as [_ Hc]. by rewrite Hp in Hc.
Qed.

Lemma rep_chains_nodes cm A p :
  cmap_rep cm A → p ∈ concat (rep_chains cm A) ↔ ∃ h l, A !! h = Some l ∧ p ∈ l.
Proof.
  intros HR. rewrite list_elem_of_In, in_concat. unfold rep_chains. split.
  - intros (l & Hl & Hp). apply list_elem_of_In, list_elem_of_fmap in Hl as ([h q] & -> & Hin).
    apply (live_heads cm A) in Hin; [|done]. simpl in *.
    destruct (A !! h) as [c|] eqn:E; simpl in *; [|done]. exists h, c. by rewrite list_elem_of_In.
  - intros (h & l & Hl & Hp). exists l. split; [|by apply list_elem_of_In].
    destruct (rep_chain _ _ HR h l Hl) as [Hne _]. destruct l as [|q l]; [done|].
    apply list_elem_of_In, list_elem_of_fmap. exists (h, q). simpl. rewrite Hl. split; [done|].
    apply (live_heads cm A); [done|]. by rewrite Hl.
Qed.

(** The chains of distinct hashes that the map has, glued together. *)
Lemma concat_chains (A : gmap Z (list positive)) (hs : list Z) :
  (∀ h l, A !! h = Some l → NoDup l) →
  (∀ h h' l l' p, A !! h = Some l → A !! h' = Some l' → p ∈ l → p ∈ l' → h = h') →
  NoDup hs → NoDup (concat ((λ h, default [] (A !! h)) <$> hs)).
Proof.
  intros Hnd Hd Hhs. induction Hhs as [|h hs Hh Hhs IH]; simpl; [constructor|].
  apply list.NoDup_app. split_and!; [| |done].
  - destruct (A !! h) as [l|] eqn:E; simpl; [eauto|constructor].
  - intros p Hp Hin. apply list_elem_of_In, in_concat in Hin as (l' & Hl' & Hp').
    apply list_elem_of_In, list_elem_of_fmap in Hl' as (h' & -> & Hh').
    apply list_elem_of_In in Hp'.
    destruct (A !! h) as [l|] eqn:E, (A !! h') as [l'|] eqn:E'; simpl in *;
      try by apply not_elem_of_nil in Hp || by apply not_elem_of_nil in Hp'.
    by rewrite (Hd h h' l l' p E E' Hp Hp') in Hh.
Qed.

Lemma rep_chains_NoDup cm A : cmap_rep cm A → NoDup (concat (rep_chains cm A)).
Proof.
  intros HR. unfold rep_chains.
  assert ((λ hp : Z * positive, default [] (A !! hp.1)) <$> live (all_slots (impl cm)) =
          (λ h, default [] (A !! h)) <$> (live (all_slots (impl cm))).*1) as ->
    by (by rewrite <- list_fmap_compose).
  apply concat_chains; [apply HR|apply HR|].
  apply (live_all_slots _ _ (rep_tbl _ _ HR)).
Qed.
End Rep.

(** ** Positions *)

(** The nodes from the position on: the rest of the chain of its slot, then
    the chains of the slots after it. *)
Definition position_ok (im : cmap_impl) (pos : cmap_position) : Prop :=
  0 ≤ pos_bucket pos ≤ mask im ∧ (pos_entry pos ≤ CMAP_K)%nat ∧ 0 ≤ pos_offset pos.

Lemma position_walk_spec fuel m o l i offset :
  chain m o l → 0 ≤ i ≤ offset → offset < 2 ^ 32 - 1 → (length l ≤ fuel)%nat →
  position_walk fuel m o i offset = Ret (l !! Z.to_nat (offset - i)).
Proof.
  revert o l i. induction fuel as [|fuel IH]; intros o l i Hc Hi Ho Hl.
  - destruct l; [|simpl in Hl; lia]. simpl in Hc. subst o. done.
  - destruct l as [|p l]; [simpl in Hc; by subst o|]. destruct Hc as (-> & q & Hq & Hc).
    cbn [position_walk]. destruct (Z.eqb_spec i offset) as [->|Hne].
    + by rewrite Z.sub_diag.
    + unfold cmap_node_next. rewrite Hq. cbn [obind]. rewrite u32_small by lia.
      rewrite (IH q l) by (done || simpl in Hl; lia).
      by replace (Z.to_nat (offset - i)) with (S (Z.to_nat (offset - (i + 1)))) by lia.
Qed.

Lemma chain_next m o l i p :
  chain m o l → l !! i = Some p → m !! p = Some (l !! S i).
Proof.
  revert o i. induction l as [|x l IH]; intros o i Hc Hi; [done|].
  destruct Hc as (_ & q & Hq & Hc). destruct i as [|i]; simpl in Hi.
  - injection Hi as ->. rewrite Hq. f_equal. simpl. rewrite (chain_head _ _ _ Hc). by destruct l.
  - by apply (IH q).
Qed.

Lemma drop_cons_lookup {A} (l : list A) i x : l !! i = Some x → drop i l = x :: drop (S i) l.
Proof. apply drop_S. Qed.

Section Positions.
Context (cm : cmap) (f : positive → list positive).
Abbreviation m := (nx cm).
Abbreviation im := (impl cm).
Context (Hwf : wf_impl im) (Hsize : Z.of_nat (size m) < 2 ^ 31).
Context (Hf : ∀ p, p ∈ slot_nodes (all_slots im) →
  chain m (Some p) (f p) ∧ (length (f p) ≤ size m)%nat).

(** The chain of a slot, and what is left of a bucket. *)
Definition ch (b : cmap_bucket) (e : nat) : list positive := from_option f [] (entry_node b e).
Definition btodo (b : cmap_bucket) (e : nat) (o : Z) : list positive :=
  drop (Z.to_nat o) (ch b e) ++ concat (f <$> slot_nodes (drop (S e) (slots b))).
Definition todo (pos : cmap_position) : list positive :=
  btodo (bucket_at im (Z.to_nat (pos_bucket pos))) (pos_entry pos) (pos_offset pos) ++
  concat (f <$> slot_nodes (ahead im (pos_bucket pos + 1) 0)).
Definition pos_ok (pos : cmap_position) : Prop :=
  0 ≤ pos_bucket pos ≤ mask im ∧ (pos_entry pos ≤ CMAP_K)%nat ∧
  0 ≤ pos_offset pos ≤ Z.of_nat (size m).

Lemma ch_chain b e : 0 ≤ b ≤ mask im →
  chain m (entry_node (bucket_at im (Z.to_nat b)) e) (ch (bucket_at im (Z.to_nat b)) e) ∧
  (length (ch (bucket_at im (Z.to_nat b)) e) ≤ size m)%nat.
Proof.
  intros Hb. unfold ch. destruct (entry_node _ e) as [p|] eqn:E; simpl; [|split; [done|lia]].
  apply Hf. unfold slot_nodes. apply list_elem_of_omap.
  unfold entry_node in E. apply bind_Some in E as ([h nd] & Hs & Hnd). simpl in Hnd. subst nd.
  exists (h, Some p). split; [|done]. apply elem_of_all_slots. exists (Z.to_nat b), e.
  rewrite sl_bucket_at; [done|]. rewrite (wf_len _ Hwf). lia.
Qed.

(** Past the chain of one entry comes the next entry. *)
Lemma btodo_next b e o :
  length (slots b) = CMAP_K → (e < CMAP_K)%nat → ch b e !! Z.to_nat o = None →
  btodo b e o = btodo b (S e) 0.
Proof.
  intros Hl He Hno. unfold btodo. rewrite (drop_ge (ch b e)) by (by apply lookup_ge_None).
  rewrite drop_0. cbn [app]. destruct (decide (S e < CMAP_K)%nat) as [Hlt|Hge].
  - rewrite drop_entry by lia. unfold ch. rewrite fmap_app, concat_app.
    destruct (entry_node b (S e)); simpl; by rewrite ?app_nil_r.
  - rewrite !(drop_ge (slots b)) by lia. unfold ch, entry_node.
    by rewrite lookup_ge_None_2 by lia.
Qed.

Lemma btodo_end b e o : length (slots b) = CMAP_K → (CMAP_K ≤ e)%nat → btodo b e o = [].
Proof.
  intros Hl He. unfold btodo, ch, entry_node. rewrite lookup_ge_None_2 by lia. simpl.
  by rewrite drop_nil, drop_ge by lia.
Qed.

Lemma position_entries_spec n b e o :
  0 ≤ b ≤ mask im → (e + n)%nat = CMAP_K → 0 ≤ o ≤ Z.of_nat (size m) →
  let bk := bucket_at im (Z.to_nat b) in
  ∃ r, position_entries n m bk e o = Ret r ∧
    match r with
    | Some (p, e', o') => (e' < CMAP_K)%nat ∧ 0 ≤ o' ≤ Z.of_nat (size m) ∧
        ch bk e' !! Z.to_nat o' = Some p ∧ btodo bk e o = btodo bk e' o'
    | None => btodo bk e o = []
    end.
Proof.
  intros Hb. cbv zeta. assert (length (slots (bucket_at im (Z.to_nat b))) = CMAP_K) as Hl
    by (by apply wf_bucket_at).
  revert e o. induction n as [|n IH]; intros e o He Ho; cbn [position_entries].
  - eexists. split; [done|]. apply btodo_end; [done|lia].
  - destruct (ch_chain b e Hb) as [Hc Hlen].
    rewrite (position_walk_spec _ _ _ _ _ _ Hc) by lia. cbn [obind]. rewrite Z.sub_0_r.
    destruct (ch _ e !! Z.to_nat o) as [p|] eqn:Ep.
    + eexists. split; [done|]. by split_and!; try lia.
    + rewrite (btodo_next _ e o) by (done || lia). apply IH; lia.
Qed.

(** At the start of a bucket all its slots are left. *)
Lemma todo_bucket b : 0 ≤ b ≤ mask im →
  todo (mkPosition b 0 0) = concat (f <$> slot_nodes (ahead im b 0)).
Proof.
  intros Hb. destruct (ahead_entry im b 0 Hwf) as [-> Hl]; [lia|lia|].
  unfold todo. cbn [pos_bucket pos_entry pos_offset]. unfold btodo.
  rewrite slot_nodes_app, fmap_app, concat_app. f_equal.
  rewrite (drop_entry _ 0) by (rewrite Hl; unfold CMAP_K; lia). unfold ch. cbn [Z.to_nat].
  rewrite fmap_app, concat_app. destruct (entry_node _ 0); simpl; by rewrite ?app_nil_r, ?drop_0.
Qed.

Lemma position_buckets_spec fuel b e o :
  0 ≤ b ≤ mask im + 1 → (b = mask im + 1 → e = 0%nat ∧ o = 0) → (e ≤ CMAP_K)%nat →
  0 ≤ o ≤ Z.of_nat (size m) → mask im + 1 - b < Z.of_nat fuel →
  ∃ r, position_buckets fuel cm b e o = Ret r ∧
    match r with
    | (Some p, pos') => pos_ok pos' ∧ b ≤ mask im ∧ todo (mkPosition b e o) = p :: todo pos'
    | (None, pos') => pos' = mkPosition 0 0 0 ∧
        (b ≤ mask im → todo (mkPosition b e o) = [])
    end.
Proof.
  pose proof (mask_range _ Hwf) as Hmask. revert b e o.
  induction fuel as [|fuel IH]; intros b e o Hb Hend He Ho Hfuel; [lia|].
  cbn [position_buckets]. destruct (Z.leb_spec b (mask im)) as [Hle|Hgt].
  - assert (0 ≤ b ≤ mask im) as Hb' by lia.
    destruct (position_entries_spec (CMAP_K - e) b e o Hb') as (r & -> & Hr); [lia|done|].
    cbn [obind]. destruct r as [[[p e'] o']|].
    + destruct Hr as (He' & Ho' & Hp & Htodo).
      destruct (ch_chain b e' Hb') as [Hc Hlen].
      pose proof (chain_next _ _ _ _ _ Hc Hp) as Hn. unfold cmap_node_next. rewrite Hn. cbn [obind].
      pose proof (lookup_lt_Some _ _ _ Hp) as Hlt. eexists. split; [done|].
      unfold todo. cbn [pos_bucket pos_entry pos_offset]. rewrite Htodo.
      destruct (ch _ e' !! S (Z.to_nat o')) as [q|] eqn:Eq.
      * pose proof (lookup_lt_Some _ _ _ Eq). rewrite u32_small by lia.
        split; [split_and!; simpl; lia|]. split; [done|]. cbn [pos_bucket pos_entry pos_offset].
        unfold btodo at 1. rewrite (drop_cons_lookup _ _ _ Hp). cbn [app]. f_equal.
        unfold btodo. by replace (Z.to_nat (o' + 1)) with (S (Z.to_nat o')) by lia.
      * split; [split_and!; simpl; lia|]. split; [done|]. cbn [pos_bucket pos_entry pos_offset].
        unfold btodo at 1. rewrite (drop_cons_lookup _ _ _ Hp). cbn [app]. f_equal.
        rewrite <- (btodo_next _ e' (o' + 1)); [|by apply wf_bucket_at|done|].
        -- unfold btodo. by replace (Z.to_nat (o' + 1)) with (S (Z.to_nat o')) by lia.
        -- by replace (Z.to_nat (o' + 1)) with (S (Z.to_nat o')) by lia.
    + rewrite u32_small by lia.
      destruct (IH (b + 1) 0%nat 0) as (r & -> & Hr'); [lia|done|lia|lia|lia|].
      exists r. split; [done|].
      assert (todo (mkPosition b e o) = concat (f <$> slot_nodes (ahead im (b + 1) 0))) as Ht
        by (unfold todo; cbn [pos_bucket pos_entry pos_offset]; by rewrite Hr).
      destruct (decide (b + 1 ≤ mask im)) as [Hnext|Hlast].
      * assert (todo (mkPosition (b + 1) 0 0) = todo (mkPosition b e o)) as Hsame
          by (rewrite Ht; apply todo_bucket; lia).
        rewrite Hsame in Hr'. destruct r as [[p|] pos']; naive_solver.
      * destruct r as [[p|] pos']; [lia|]. destruct Hr' as [-> _]. split; [done|]. intros _.
        by rewrite Ht, ahead_end by (done || lia).
  - eexists. split; [done|]. split; [done|lia].
Qed.

Lemma position_loop_S fuel pos :
  position_loop (S fuel) cm pos =
  let* (node, pos) := cmap_next_position cm pos in
  match node with
  | None => Ret ([], pos)
  | Some p => let* (l, pos) := position_loop fuel cm pos in Ret (p :: l, pos)
  end.
Proof. done. Qed.

Lemma position_loop_spec n pos :
  pos_ok pos → n = length (todo pos) →
  position_loop (S n) cm pos = Ret (todo pos, mkPosition 0 0 0).
Proof.
  revert pos. induction n as [|n IH]; intros [b e o] (Hb & He & Ho) Hn; simpl in Hb, He, Ho;
    rewrite position_loop_S; unfold cmap_next_position; cbn [pos_bucket pos_entry pos_offset];
    (destruct (position_buckets_spec (bucket_fuel im) b e o) as ([[p|] pos'] & -> & Hr);
      [lia|lia|lia|lia|by apply bucket_fuel_enough; [|lia]|..]); cbn [obind].
  - destruct Hr as (_ & _ & Ht). rewrite Ht in Hn. discriminate Hn.
  - destruct Hr as [-> Ht]. by rewrite Ht by lia.
  - destruct Hr as (Hok & _ & Ht). rewrite Ht in Hn |- *. injection Hn as Hn.
    rewrite (IH pos') by done. done.
  - destruct Hr as [_ Ht]. rewrite Ht in Hn by lia. discriminate Hn.
Qed.

Lemma todo_start : todo (mkPosition 0 0 0) = concat (f <$> slot_nodes (all_slots im)).
Proof. pose proof (mask_range _ Hwf). rewrite todo_bucket by lia. by rewrite ahead_start. Qed.
End Positions.

(** The nodes reached from [o], as a function. *)
Fixpoint follow (fuel : nat) (m : nexts) (o : option positive) : list positive :=
  match fuel, o with
  | S fuel, Some p => p :: follow fuel m (default None (m !! p))
  | _, _ => []
  end.

Lemma follow_chain fuel m o l : chain m o l → (length l ≤ fuel)%nat → follow fuel m o = l.
Proof.
  revert o l. induction fuel as [|fuel IH]; intros o l Hc Hl.
  - by destruct l; [|simpl in Hl; lia].
  - destruct l as [|p l]; simpl in Hc; [by subst o|]. destruct Hc as (-> & q & Hq & Hc).
    simpl in *. rewrite Hq. simpl. f_equal. apply IH; [done|lia].
Qed.

Section Rep2.
Context `{HF : HashFns}.

(** Both ways to iterate give the chains, in the order of the table. *)
Lemma iterate_rep cm A :
  cmap_rep cm A → Z.of_nat (size (nx cm)) < 2 ^ 31 →
  CMAP_FOR_EACH (length (concat (rep_chains cm A))) cm = Ret (concat (rep_chains cm A)) ∧
  position_loop (S (length (concat (rep_chains cm A)))) cm (mkPosition 0 0 0) =
    Ret (concat (rep_chains cm A), mkPosition 0 0 0).
Proof.
  intros HR Hsize. pose proof (proj1 (rep_tbl _ _ HR)) as Hwf.
  pose proof (rep_chains_ok cm A HR) as Hch. split; [by apply for_each_spec|].
  set (f := λ p, follow (size (nx cm)) (nx cm) (Some p)).
  assert (Forall (λ l, (length l ≤ size (nx cm))%nat) (rep_chains cm A)) as Hlen.
  { apply Forall_forall. intros l Hl. apply list_elem_of_In, list_elem_of_fmap in Hl as ([h p] & -> & Hin).
    simpl. destruct (A !! h) as [l|] eqn:E; simpl; [|lia].
    destruct (rep_chain _ _ HR h l E) as [_ Hc]. eapply chain_length; [exact Hc|]. by eapply rep_nodup. }
  assert (f <$> slot_nodes (all_slots (impl cm)) = rep_chains cm A ∧
          ∀ p, p ∈ slot_nodes (all_slots (impl cm)) →
            chain (nx cm) (Some p) (f p) ∧ (length (f p) ≤ size (nx cm))%nat) as [Hfs Hf].
  { induction Hch as [|p l ps ls Hc Hch IH]; [split; [done|]; by intros p Hp%not_elem_of_nil|].
    apply Forall_cons_1 in Hlen as [Hl Hlen]. destruct (IH Hlen) as [IH1 IH2].
    assert (f p = l) as Hfp by (by apply follow_chain). split.
    - rewrite fmap_cons. by rewrite Hfp, IH1.
    - intros q [->|Hq]%elem_of_cons; [by rewrite Hfp|by apply IH2]. }
  pose proof (mask_range _ Hwf).
  assert (pos_ok cm (mkPosition 0 0 0)) as Hpos by (split_and!; simpl; lia).
  rewrite <- Hfs, <- (todo_start cm f Hwf). by apply (position_loop_spec cm f).
Qed.

(** ** Batch lookup *)

Lemma elem_of_ones map i : i ∈ ones map ↔ 0 ≤ i < 64 ∧ Z.testbit map i = true.
Proof. unfold ones. rewrite list_elem_of_filter, elem_of_seqZ. intuition lia. Qed.

Lemma testbit_SET0 map i j :
  0 ≤ i → 0 ≤ j → Z.testbit (ULLONG_SET0 map i) j = Z.testbit map j && negb (i =? j).
Proof.
  intros Hi Hj. unfold ULLONG_SET0. rewrite Z.ldiff_spec, Z.shiftl_1_l, Z.pow2_bits_eqb by done. done.
Qed.

Section Batch.
Context (im : cmap_impl) (hashes : list Z).
Context (Hwf : wf_impl im).

Abbreviation hash_at i := (hashes !! Z.to_nat i).
(** What the first and the second bucket of a hash hold. *)
Definition found1 (i : Z) : option positive :=
  hash_at i ≫= λ h, cmap_find_in_bucket (bucket_at im (cand1 im h)) h.
Definition found2 (i : Z) : option positive :=
  hash_at i ≫= λ h, cmap_find_in_bucket (bucket_at im (cand2 im h)) h.

(** The arrays of the first loop are right for [i]. *)
Definition prepared (h1s : gmap Z Z) (b1s : gmap Z nat) (i : Z) : Prop :=
  ∃ h, hash_at i = Some h ∧ h1s !! i = Some (rehash im h) ∧ b1s !! i = Some (cand1 im h).

Lemma batch_hashes_spec idxs h1s b1s (G : Z → Prop) :
  (∀ i, i ∈ idxs → is_Some (hash_at i)) → (∀ i, G i → prepared h1s b1s i) →
  returns (batch_hashes idxs im hashes h1s b1s) (λ '(h1s', b1s'),
    ∀ i, G i ∨ i ∈ idxs → prepared h1s' b1s' i).
Proof.
  revert h1s b1s G. induction idxs as [|i idxs IH]; intros h1s b1s G Hin HG; cbn [batch_hashes].
  - eexists. split; [done|]. intros j [Hj|Hj]; [auto|by apply not_elem_of_nil in Hj].
  - destruct (Hin i) as [h Hh]; [by left|]. unfold read_hash. rewrite Hh. cbn [obind].
    edestruct (IH (<[i := rehash im h]> h1s) (<[i := bucket_idx im (rehash im h)]> b1s)
      (λ j, G j ∨ j = i)) as ([h1s' b1s'] & Heq & Hp).
    + intros j Hj. apply Hin. by right.
    + intros j Hj. destruct (decide (j = i)) as [->|Hne].
      * exists h. by rewrite !lookup_insert_eq.
      * destruct Hj as [Hj|]; [|done]. destruct (HG j Hj) as (h' & ? & ? & ?). exists h'.
        by rewrite !lookup_insert_ne by done.
    + eexists. split; [exact Heq|]. intros j [Hj|Hj]; [apply Hp; auto|].
      apply elem_of_cons in Hj as [->|Hj]; apply Hp; auto.
Qed.

(** Bits and nodes after the entries [idxs] with a result [found] are done. *)
Definition nodes_after (found : Z → option positive) (idxs : list Z) (nodes nodes' : gmap Z positive)
    : Prop :=
  ∀ j, nodes' !! j = match (if decide (j ∈ idxs) then found j else None) with
                     | Some p => Some p | None => nodes !! j end.

Lemma nodes_after_cons found i idxs nodes nodes' :
  nodes_after found idxs (match found i with Some p => <[i := p]> nodes | None => nodes end) nodes' →
  nodes_after found (i :: idxs) nodes nodes'.
Proof.
  intros H j. rewrite (H j). destruct (decide (j = i)) as [->|Hne].
  - rewrite (decide_True (P := i ∈ i :: idxs)) by (by left).
    destruct (found i) as [p|] eqn:E; [rewrite lookup_insert_eq|]; by case_decide.
  - assert (match found i with Some p => <[i := p]> nodes | None => nodes end !! j = nodes !! j) as ->
      by (destruct (found i); [by rewrite lookup_insert_ne|done]).
    rewrite (decide_ext (j ∈ idxs) (j ∈ i :: idxs)); [done|]. rewrite elem_of_cons. naive_solver.
Qed.

Lemma batch_round1_spec idxs h1s b1s b2s c1s map nodes (G : Z → Prop) :
  (∀ i, i ∈ idxs → 0 ≤ i ∧ prepared h1s b1s i) →
  let second := λ b2s c1s i, found1 i = None →
    ∃ h, hash_at i = Some h ∧ b2s !! i = Some (cand2 im h) ∧
      c1s !! i = Some (counter (bucket_at im (cand1 im h))) in
  (∀ i, G i → second b2s c1s i) →
  returns (batch_round1 idxs im hashes h1s b1s b2s c1s map nodes) (λ '(b2s', c1s', map', nodes'),
    (∀ i, G i ∨ i ∈ idxs → second b2s' c1s' i) ∧
    (∀ j, 0 ≤ j → Z.testbit map' j =
       Z.testbit map j && negb (bool_decide (j ∈ idxs ∧ is_Some (found1 j)))) ∧
    nodes_after found1 idxs nodes nodes').
Proof.
  cbv zeta. revert b2s c1s map nodes G. induction idxs as [|i idxs IH]; intros b2s c1s map nodes G Hin HG.
  - eexists. split; [done|]. split_and!.
    + intros j [Hj|Hj]; [auto|by apply not_elem_of_nil in Hj].
    + intros j Hj. rewrite bool_decide_false by (intros [Hn _]; by apply not_elem_of_nil in Hn).
      by rewrite andb_true_r.
    + intros j. rewrite decide_False by apply not_elem_of_nil. done.
  - cbn [batch_round1]. destruct (Hin i) as [Hi (h & Hh & Hh1 & Hb1)]; [by left|].
    unfold read_array, read_hash. rewrite Hb1, Hh. cbn [obind].
    rewrite find_stable_wf by (by apply wf_bucket_at). cbn [obind].
    assert (found1 i = cmap_find_in_bucket (bucket_at im (cand1 im h)) h) as Ef
      by (unfold found1; by rewrite Hh).
    assert (∀ j, j ∈ idxs → 0 ≤ j ∧ prepared h1s b1s j) as Hin' by (intros j Hj; apply Hin; by right).
    rewrite <- Ef. destruct (found1 i) as [p|] eqn:Efi.
    + destruct (IH b2s c1s (ULLONG_SET0 map i) (<[i := p]> nodes) (λ j, G j ∨ j = i) Hin')
        as ([[[b2s' c1s'] map'] nodes'] & Heq & H1 & H2 & H3).
      { intros j [Hj| ->]; [auto|congruence]. }
      exists (b2s', c1s', map', nodes'). split; [exact Heq|]. split_and!.
      * intros j Hj. apply H1. rewrite elem_of_cons in Hj. tauto.
      * intros j Hj. rewrite H2, testbit_SET0 by done. rewrite <- andb_assoc. f_equal.
        destruct (Z.eqb_spec i j) as [<-|Hne]; simpl.
        -- rewrite bool_decide_true; [done|]. split; [by left|by eexists].
        -- f_equal. apply bool_decide_ext. rewrite elem_of_cons. naive_solver.
      * apply nodes_after_cons. by rewrite Efi.
    + rewrite Hh1. cbn [obind].
      destruct (IH (<[i := bucket_idx im (other_hash (rehash im h))]> b2s)
        (<[i := counter (bucket_at im (cand1 im h))]> c1s) map nodes (λ j, G j ∨ j = i) Hin')
        as ([[[b2s' c1s'] map'] nodes'] & Heq & H1 & H2 & H3).
      { intros j Hj Hfj. destruct (decide (j = i)) as [->|Hne].
        - exists h. by rewrite !lookup_insert_eq.
        - destruct Hj as [Hj|]; [|done]. destruct (HG j Hj Hfj) as (h' & ? & ? & ?). exists h'.
          by rewrite !lookup_insert_ne by done. }
      exists (b2s', c1s', map', nodes'). split; [exact Heq|]. split_and!.
      * intros j Hj. apply H1. rewrite elem_of_cons in Hj. tauto.
      * intros j Hj. rewrite H2 by done. f_equal. f_equal. apply bool_decide_ext.
        rewrite elem_of_cons. split; [tauto|]. intros [[->|?] Hs]; [|done].
        rewrite Efi in Hs. by destruct Hs.
      * apply nodes_after_cons. by rewrite Efi.
Qed.

Lemma batch_round2_spec idxs b1s b2s c1s result nodes :
  (∀ i, i ∈ idxs → 0 ≤ i ∧ ∃ h, hash_at i = Some h ∧ b1s !! i = Some (cand1 im h) ∧
     b2s !! i = Some (cand2 im h) ∧ c1s !! i = Some (counter (bucket_at im (cand1 im h)))) →
  returns (batch_round2 idxs im hashes b1s b2s c1s result nodes) (λ '(result', nodes'),
    (∀ j, 0 ≤ j → Z.testbit result' j =
       Z.testbit result j && negb (bool_decide (j ∈ idxs ∧ found2 j = None))) ∧
    nodes_after found2 idxs nodes nodes').
Proof.
  revert result nodes. induction idxs as [|i idxs IH]; intros result nodes Hin.
  - eexists. split; [done|]. split.
    + intros j Hj. rewrite bool_decide_false by (intros [Hn _]; by apply not_elem_of_nil in Hn).
      by rewrite andb_true_r.
    + intros j. rewrite decide_False by apply not_elem_of_nil. done.
  - cbn [batch_round2]. destruct (Hin i) as [Hi (h & Hh & Hb1 & Hb2 & Hc1)]; [by left|].
    unfold read_array, read_hash. rewrite Hb1, Hb2, Hc1, Hh. cbn [obind].
    rewrite find_stable_wf by (by apply wf_bucket_at). cbn [obind].
    assert (found2 i = cmap_find_in_bucket (bucket_at im (cand2 im h)) h) as Ef
      by (unfold found2; by rewrite Hh).
    assert (∀ j, j ∈ idxs → 0 ≤ j ∧ ∃ h, hash_at j = Some h ∧ b1s !! j = Some (cand1 im h) ∧
      b2s !! j = Some (cand2 im h) ∧ c1s !! j = Some (counter (bucket_at im (cand1 im h)))) as Hin'
      by (intros j Hj; apply Hin; by right).
    rewrite <- Ef. destruct (found2 i) as [p|] eqn:Efi; cbn [obind].
    + destruct (IH result (<[i := p]> nodes) Hin') as ([r' n'] & Heq & H1 & H2).
      exists (r', n'). split; [exact Heq|]. split.
      * intros j Hj. rewrite H1 by done. f_equal. f_equal. apply bool_decide_ext.
        rewrite elem_of_cons. split; [tauto|]. intros [[->|?] Hs]; [congruence|done].
      * apply nodes_after_cons. by rewrite Efi.
    + unfold counter_changed. rewrite Z.eqb_refl. cbn [negb obind].
      destruct (IH (ULLONG_SET0 result i) nodes Hin') as ([r' n'] & Heq & H1 & H2).
      exists (r', n'). split; [exact Heq|]. split.
      * intros j Hj. rewrite H1, testbit_SET0 by done. rewrite <- andb_assoc. f_equal.
        destruct (Z.eqb_spec i j) as [<-|Hne]; simpl.
        -- rewrite bool_decide_true; [done|]. split; [by left|done].
        -- f_equal. apply bool_decide_ext. rewrite elem_of_cons. naive_solver.
      * apply nodes_after_cons. by rewrite Efi.
Qed.
End Batch.

(** The result of one lookup of the batch. *)
Definition batch_found (A : gmap Z (list positive)) (map : Z) (hashes : list Z) (i : Z)
    : option positive :=
  if Z.testbit map i then hashes !! Z.to_nat i ≫= λ h, A !! h ≫= head else None.

Lemma batch_found_rounds cm A hashes i :
  cmap_rep cm A →
  (hashes !! Z.to_nat i ≫= λ h, A !! h ≫= head) =
  match found1 (impl cm) hashes i with
  | Some p => Some p
  | None => found2 (impl cm) hashes i
  end.
Proof.
  intros HR. unfold found1, found2. destruct (hashes !! Z.to_nat i) as [h|]; [|done]. simpl.
  rewrite <- heads_lookup, <- (find_pure_spec _ _ _ (rep_tbl _ _ HR)). done.
Qed.

Lemma find_batch_rep cm A map hashes nodes :
  cmap_rep cm A → (∀ i, i ∈ ones map → is_Some (hashes !! Z.to_nat i)) →
  returns (cmap_find_batch cm map hashes nodes) (λ '(result, nodes'), ∀ i, 0 ≤ i < 64 →
    Z.testbit result i = bool_decide (is_Some (batch_found A map hashes i)) ∧
    nodes' !! i = match batch_found A map hashes i with
                  | Some p => Some p | None => nodes !! i end).
Proof.
  intros HR Hin. pose proof (proj1 (rep_tbl _ _ HR)) as Hwf. unfold cmap_find_batch.
  destruct (batch_hashes_spec (impl cm) hashes (ones map) ∅ ∅ (λ _, False) Hin)
    as ([h1s b1s] & -> & Hp); [done|]. cbn [obind].
  destruct (batch_round1_spec (impl cm) hashes Hwf (ones map) h1s b1s ∅ ∅ map nodes (λ _, False))
    as ([[[b2s c1s] map2] nodes2] & -> & Hsec & Hmap2 & Hnodes2); [|done|].
  { intros i Hi. split; [apply elem_of_ones in Hi; lia|]. apply Hp. by right. }
  cbn [obind].
  assert (∀ i, i ∈ ones map2 ↔ i ∈ ones map ∧ found1 (impl cm) hashes i = None) as Hones2.
  { intros i. rewrite !elem_of_ones. split.
    - intros [Hi Hb]. rewrite Hmap2 in Hb by lia. apply andb_true_iff in Hb as [Hb Hn].
      split; [done|]. apply negb_true_iff, bool_decide_eq_false in Hn.
      destruct (found1 (impl cm) hashes i) as [p|]; [|done]. destruct Hn.
      split; [by apply elem_of_ones|by eexists].
    - intros [[Hi Hb] Hf]. split; [done|]. rewrite Hmap2 by lia. rewrite Hb.
      rewrite bool_decide_false; [done|]. intros [_ Hs]. rewrite Hf in Hs. by destruct Hs. }
  destruct (batch_round2_spec (impl cm) hashes Hwf (ones map2) b1s b2s c1s map nodes2)
    as ([result nodes'] & -> & Hres & Hnodes').
  { intros i Hi. apply Hones2 in Hi as [Hi Hf]. split; [apply elem_of_ones in Hi; lia|].
    destruct (Hsec i (or_intror Hi) Hf) as (h & Hh & Hb2 & Hc1).
    destruct (Hp i (or_intror Hi)) as (h' & Hh' & _ & Hb1). exists h.
    rewrite Hh in Hh'. injection Hh' as <-. done. }
  eexists. split; [done|]. intros i Hi.
  assert (batch_found A map hashes i = if Z.testbit map i then
      match found1 (impl cm) hashes i with Some p => Some p | None => found2 (impl cm) hashes i end
      else None) as -> by (unfold batch_found; by rewrite (batch_found_rounds cm A) by done).
  rewrite Hres by lia. rewrite (Hnodes' i), (Hnodes2 i).
  destruct (Z.testbit map i) eqn:Eb.
  - assert (i ∈ ones map) as Him by (by apply elem_of_ones).
    rewrite (decide_True (P := i ∈ ones map)) by done.
    destruct (found1 (impl cm) hashes i) as [p|] eqn:E1.
    + rewrite (decide_False (P := i ∈ ones map2)) by (intros [_ Hc]%Hones2; congruence).
      rewrite bool_decide_false by (intros [[_ Hc]%Hones2 _]; congruence).
      rewrite bool_decide_true by (by eexists). done.
    + rewrite (decide_True (P := i ∈ ones map2)) by (by apply Hones2).
      destruct (found2 (impl cm) hashes i) as [p|] eqn:E2.
      * rewrite bool_decide_false by (intros [_ Hc]; congruence). by rewrite bool_decide_true by (by eexists).
      * rewrite bool_decide_true by (split; [by apply Hones2|done]).
        by rewrite bool_decide_false by (by intros [? ?]).
  - assert (i ∉ ones map) as Him by (intros [_ Hc]%elem_of_ones; congruence).
    rewrite (decide_False (P := i ∈ ones map)) by done.
    rewrite (decide_False (P := i ∈ ones map2)) by (by intros [Hc _]%Hones2).
    cbn [andb]. by rewrite bool_decide_false by (by intros [? ?]).
Qed.
End Rep2.
