(* ===== verification/MapIface.v ===== *)
(** * What the GTP manager relies on in a concurrent hash map

    [MapOps] are the operations of lib/cmap.h that ofproto/gtp-manager.c
    calls, [MapLaws] what they promise about the represented map from hashes
    to chains of nodes, newest first.  The client is written and proved
    against these classes; the last section discharges them with lib/cmap.c. *)
From Stdlib Require Import ZArith Lia.
From stdpp Require Import base list gmap numbers option.
From S2P Require Import Prelude Hash Cmap CmapSlots CmapTable CmapBfs CmapRefine CmapReplace.
Open Scope Z_scope.

(** The state of the random number generator is threaded through the calls
    that draw from it; the first argument of [mo_insert] and [mo_remove]
    bounds the number of rehashes. *)
Class MapOps (T : Type) := {
  mo_init : Z → outcome (Z * T);
  mo_insert : nat → Z → T → positive → Z → outcome (Z * T * Z);
  mo_remove : nat → Z → T → positive → Z → outcome (Z * T * Z);
  mo_find : T → Z → outcome (option positive);
  mo_next : T → positive → outcome (option positive);
}.

Class MapLaws (T : Type) `{MO : MapOps T} := {
  ml_rep : T → gmap Z (list positive) → Prop;
  (* an insertion with this hash needs no rehash; neither does a removal *)
  ml_room : T → Z → Prop;
  ml_slack : T → Prop;

  ml_init seed : returns (mo_init seed) (λ '(_, cm), ml_rep cm ∅);
  ml_insert fuel seed cm A p h :
    ml_rep cm A → fresh_node A p → Z.of_nat (total A) < 2 ^ 30 →
    safe (mo_insert fuel seed cm p h) (λ '(_, cm', _),
      ml_rep cm' (<[h := p :: default [] (A !! h)]> A));
  ml_insert_returns fuel seed cm A p h :
    ml_rep cm A → fresh_node A p → Z.of_nat (total A) < 2 ^ 30 → ml_room cm h →
    returns (mo_insert (S fuel) seed cm p h) (λ _, True);
  ml_remove fuel seed cm A h pre p post :
    ml_rep cm A → A !! h = Some (pre ++ p :: post) →
    safe (mo_remove fuel seed cm p h) (λ '(_, cm', _),
      ml_rep cm' (set_chain A h (pre ++ post)));
  ml_remove_returns fuel seed cm A h pre p post :
    ml_rep cm A → A !! h = Some (pre ++ p :: post) → ml_slack cm →
    returns (mo_remove fuel seed cm p h) (λ _, True);
  ml_find cm A h : ml_rep cm A → mo_find cm h = Ret (A !! h ≫= head);
  ml_next cm A h pre p post :
    ml_rep cm A → A !! h = Some (pre ++ p :: post) → mo_next cm p = Ret (head post);
  ml_nodup cm A h l : ml_rep cm A → A !! h = Some l → NoDup l;
  ml_disj cm A h h' l l' p :
    ml_rep cm A → A !! h = Some l → A !! h' = Some l' → p ∈ l → p ∈ l' → h = h';
}.

(** ** lib/cmap.c is such a map *)
Section CmapIface.
Context `{HF : HashFns}.

#[global] Instance cmap_ops : MapOps cmap := {|
  mo_init := cmap_init;
  mo_insert := cmap_insert;
  mo_remove := cmap_remove;
  mo_find := cmap_find;
  mo_next cm p := cmap_node_next (nx cm) p;
|}.

Lemma cmap_next_rep cm A h pre p post :
  cmap_rep cm A → A !! h = Some (pre ++ p :: post) →
  cmap_node_next (nx cm) p = Ret (head post).
Proof.
  intros HR HA. destruct (rep_chain _ _ HR _ _ HA) as [_ Hc].
  destruct (chain_app _ _ _ _ _ Hc) as (q & Hq & Hc').
  unfold cmap_node_next. rewrite Hq. f_equal. by eapply chain_head.
Qed.

#[global, refine] Instance cmap_laws : MapLaws cmap := {|
  ml_rep := cmap_rep;
  ml_room cm h := im_n (impl cm) < max_n (impl cm) ∧ has_room (impl cm) h;
  ml_slack cm := min_n (impl cm) < im_n (impl cm);
|}.
Proof.
  - intros seed. destruct (cmap_init_returns seed) as ([s cm] & Heq & HR & _).
    by exists (s, cm).
  - intros * HR Hf Hb. eapply safe_mono; [by apply cmap_insert_safe|].
    by intros [[? ?] ?] [? _].
  - intros * HR Hf Hb [Hlt Hroom].
    destruct (cmap_insert_returns fuel seed cm A p h HR Hf Hb Hlt Hroom) as (r & Heq & _).
    by exists r.
  - intros * HR HA. eapply safe_mono; [by eapply cmap_remove_safe|].
    by intros [[? ?] ?] [? _].
  - intros * HR HA Hs.
    destruct (cmap_remove_returns fuel seed cm A h pre p post HR HA Hs) as (r & Heq & _).
    by exists r.
  - intros * HR. by apply cmap_find_rep.
  - intros * HR HA. by eapply cmap_next_rep.
  - intros * HR HA. by eapply (rep_nodup _ _ HR).
  - intros * HR. by apply (rep_disj _ _ HR).
Defined.
End CmapIface.
