(* ===== verification/GtpWire.v ===== *)
(** * GTP messages on the wire: the parsers of ofproto/gtp-manager.c

    A packet is its bytes, each in [0, 256).  The host is little-endian, as
    the x86 hosts the DPDK datapath is built for: an [ovs_be16] or [ovs_be32]
    is the number the host reads from the bytes in memory order, and [ntohs]
    and [ntohl] swap bytes. *)
From Stdlib Require Import ZArith Lia.
From stdpp Require Import base list gmap numbers option.
From S2P Require Import Prelude.
Open Scope Z_scope.

(** ** lib/dp-packet.h *)

Record dp_packet := mkPacket {
  pk_data : list Z;
  l2_pad_size : Z;
  l4_ofs : Z;
}.

Definition UINT16_MAX : Z := 65535.
Definition UDP_HEADER_LEN : Z := 8.

Definition dp_packet_size (b : dp_packet) : Z := Z.of_nat (length (pk_data b)).

(** A pointer into the packet is its distance from [dp_packet_data]. *)
Definition dp_packet_at (b : dp_packet) (offset size : Z) : option Z :=
  if u64 (offset + size) <=? dp_packet_size b then Some offset else None.

Definition dp_packet_l4 (b : dp_packet) : option Z :=
  if negb (l4_ofs b =? UINT16_MAX) then Some (l4_ofs b) else None.

Definition dp_packet_l4_size (b : dp_packet) : Z :=
  if negb (l4_ofs b =? UINT16_MAX)
  then u64 (dp_packet_size b - l4_ofs b - l2_pad_size b) else 0.

Definition dp_packet_get_udp_payload (b : dp_packet) : option Z :=
  if UDP_HEADER_LEN <=? dp_packet_l4_size b
  then (λ l4, l4 + UDP_HEADER_LEN) <$> dp_packet_l4 b else None.

(** ** Loads *)

Definition byte_at (b : dp_packet) (p : Z) : Z := nth (Z.to_nat p) (pk_data b) 0.

(** What the host reads through a pointer to [ovs_be16] or [ovs_be32]. *)
Definition host16 (b0 b1 : Z) : Z := b0 + 2 ^ 8 * b1.
Definition host32 (b0 b1 b2 b3 : Z) : Z :=
  b0 + 2 ^ 8 * b1 + 2 ^ 16 * b2 + 2 ^ 24 * b3.

Definition ntohs (x : Z) : Z := host16 (x / 2 ^ 8 mod 2 ^ 8) (x mod 2 ^ 8).
Definition htons (x : Z) : Z := ntohs x.
Definition ntohl (x : Z) : Z :=
  host32 (x / 2 ^ 24 mod 2 ^ 8) (x / 2 ^ 16 mod 2 ^ 8) (x / 2 ^ 8 mod 2 ^ 8) (x mod 2 ^ 8).

(** Reading one byte, an [ovs_be16] and an [ovs_be32] through the pointer that
    [dp_packet_at] returns. *)
Definition load8 (b : dp_packet) (offset : Z) : outcome Z :=
  let* p := deref (dp_packet_at b offset 1) in
  Ret (byte_at b p).
Definition load16 (b : dp_packet) (offset : Z) : outcome Z :=
  let* p := deref (dp_packet_at b offset 2) in
  Ret (host16 (byte_at b p) (byte_at b (p + 1))).
Definition load32 (b : dp_packet) (offset : Z) : outcome Z :=
  let* p := deref (dp_packet_at b offset 4) in
  Ret (host32 (byte_at b p) (byte_at b (p + 1)) (byte_at b (p + 2)) (byte_at b (p + 3))).

(** ** Message headers *)

(** The [teid] of a GTP-C message is only set when the header has one. *)
Record gtpc_msg_header := mkGtpc {
  c_version : Z;
  c_has_teid : bool;
  c_message_type : Z;
  c_message_length : Z;
  c_teid : option Z;
  c_seq_num : Z;
  c_header_length : Z;
  c_body_offset : Z;
}.

Record gtpu_msg_header := mkGtpu {
  u_version : Z;
  u_message_type : Z;
  u_message_length : Z;
  u_teid : Z;
  u_header_length : Z;
  u_body_offset : Z;
}.

(** What [parse_gtpc_msg_header] fills in; [None] is its result NULL.  Without
    a payload the offset is the difference of a null pointer and the data, on
    which [dp_packet_at] returns NULL for the flag octet: the null pointer is
    dereferenced there. *)
Definition gtpc_header_of (packet : dp_packet) : outcome (option gtpc_msg_header) :=
  let* offset := deref (dp_packet_get_udp_payload packet) in
  let* flag := load8 packet offset in
  let version := Z.shiftr (Z.land flag 0xe0) 5 in
  if negb (version =? 2) then Ret None
  else
    let has_teid := negb (Z.land flag 0x08 =? 0) in
    let* message_type := load8 packet (offset + 1) in
    let* message_length := load16 packet (offset + 2) in
    let* teid :=
      if has_teid : bool
      then let* teid := load32 packet (offset + 4) in Ret (Some (ntohl teid))
      else Ret None in
    let offset' := if has_teid then offset + 8 else offset + 4 in
    let header_length := if has_teid then 8 else 4 in
    let* seq_num := load32 packet offset' in
    Ret (Some (mkGtpc version has_teid message_type (ntohs message_length) teid
                 (Z.shiftr (ntohl (Z.land seq_num 0xFFFFFF00)) 8)
                 (header_length + 4) (offset' + 4))).

(** What [parse_gtpu_message] fills in. *)
Definition gtpu_header_of (packet : dp_packet) : outcome (option gtpu_msg_header) :=
  let* offset := deref (dp_packet_get_udp_payload packet) in
  let* flag := load8 packet offset in
  let version := Z.shiftr (Z.land flag 0xe0) 5 in
  if negb (version =? 1) then Ret None
  else
    let* message_type := load8 packet (offset + 1) in
    let* message_length := load16 packet (offset + 2) in
    let* teid := load32 packet (offset + 4) in
    Ret (Some (mkGtpu version message_type (ntohs message_length) (ntohl teid)
                 8 (offset + 8))).

(** ** The body of a create session response *)

(** The loop over a bearer context: [t5] of its first F-TEID. *)
Fixpoint bearer_loop (fuel : nat) (packet : dp_packet) (bcstart bcstartend t5 : Z) :
    outcome Z :=
  if negb (bcstart <? bcstartend) then Ret t5
  else
    match fuel with
    | O => Diverge
    | S fuel =>
        let* bc_ie_length := load16 packet (bcstart + 1) in
        let bc_ie_length_t := ntohs bc_ie_length in
        let* bc_ie_type := load8 packet bcstart in
        if bc_ie_type =? 87 then
          let* t5p := load32 packet (bcstart + 5) in
          Ret (ntohl t5p)
        else bearer_loop fuel packet (bcstart + bc_ie_length_t + 4) bcstartend t5
    end.

Definition all_set (r : Z * Z * Z) : bool :=
  let '(t4, t5, ueip) := r in
  negb (t4 =? 0) && negb (t5 =? 0) && negb (ueip =? 0).

(** One information element: the new [(t4, t5, ueip)]. *)
Definition ie_step (packet : dp_packet) (start ie_type ie_length_t : Z) (r : Z * Z * Z) :
    outcome (Z * Z * Z) :=
  let '(t4, t5, ueip) := r in
  if ie_type =? 87 then
    let* t4p := load32 packet (start + 5) in Ret (ntohl t4p, t5, ueip)
  else if ie_type =? 79 then
    let* ueipp := load32 packet (start + 5) in Ret (t4, t5, ueipp)
  else if ie_type =? 93 then
    let bcstart := start + 4 in
    let* t5 := bearer_loop (Z.to_nat ie_length_t) packet bcstart (bcstart + ie_length_t) t5 in
    Ret (t4, t5, ueip)
  else Ret r.

(** The loop over the information elements. *)
Fixpoint ie_loop (fuel : nat) (packet : dp_packet) (start finish : Z) (r : Z * Z * Z) :
    outcome (Z * Z * Z) :=
  if negb (start <? finish) then Ret r
  else
    match fuel with
    | O => Diverge
    | S fuel =>
        let* ie_length := load16 packet (start + 1) in
        let ie_length_t := ntohs ie_length in
        let* ie_type := load8 packet start in
        let* r := ie_step packet start ie_type ie_length_t r in
        if all_set r then Ret r
        else ie_loop fuel packet (start + ie_length_t + 4) finish r
    end.

(** [t4], [t5] and [ueip] of a create session response, zero when absent. *)
Definition parse_create_session_response (msg : gtpc_msg_header) (packet : dp_packet) :
    outcome (Z * Z * Z) :=
  let start := c_body_offset msg in
  let length := c_message_length msg + 4 in
  let finish := start + (length - c_header_length msg) in
  ie_loop (Z.to_nat (finish - start)) packet start finish (0, 0, 0).
