(* ===== verification/GtpWireProofs.v ===== *)
(** * The GTP parsers read back what a GTP peer encodes

    Encoders written from the message layouts (TS 29.274 and TS 29.281), and
    the proof that the parsers of GtpWire.v invert them; the loops over the
    information elements stop on every packet. *)
From Stdlib Require Import ZArith Lia.
From stdpp Require Import base list gmap numbers option.
From S2P Require Import Prelude GtpWire.
Open Scope Z_scope.

(** ** Bytes *)

Definition is_byte (x : Z) : Prop := 0 ≤ x < 2 ^ 8.

Definition be16 (x : Z) : list Z := [x / 2 ^ 8 mod 2 ^ 8; x mod 2 ^ 8].
Definition be32 (x : Z) : list Z :=
  [x / 2 ^ 24 mod 2 ^ 8; x / 2 ^ 16 mod 2 ^ 8; x / 2 ^ 8 mod 2 ^ 8; x mod 2 ^ 8].

(** The number with the big-endian bytes [a b c d]. *)
Definition of_be32 (a b c d : Z) : Z := 2 ^ 24 * a + 2 ^ 16 * b + 2 ^ 8 * c + d.

Ltac byte_arith := unfold is_byte, host16, host32, of_be32 in *; Z.div_mod_to_equations; lia.

Lemma ntohs_host16 x y : is_byte x → is_byte y → ntohs (host16 x y) = 2 ^ 8 * x + y.
Proof. intros. unfold ntohs. byte_arith. Qed.

Lemma ntohl_host32 a b c d : is_byte a → is_byte b → is_byte c → is_byte d →
  ntohl (host32 a b c d) = of_be32 a b c d.
Proof. intros. unfold ntohl. byte_arith. Qed.

Lemma ntohs_be16 x : 0 ≤ x < 2 ^ 16 →
  ntohs (host16 (x / 2 ^ 8 mod 2 ^ 8) (x mod 2 ^ 8)) = x.
Proof. intros. rewrite ntohs_host16; byte_arith. Qed.

Lemma ntohl_be32 x : 0 ≤ x < 2 ^ 32 →
  ntohl (host32 (x / 2 ^ 24 mod 2 ^ 8) (x / 2 ^ 16 mod 2 ^ 8) (x / 2 ^ 8 mod 2 ^ 8)
           (x mod 2 ^ 8)) = x.
Proof. intros. rewrite ntohl_host32; byte_arith. Qed.

Lemma land_clear_low x m n : 0 ≤ n →
  Z.land x (Z.shiftl m n) = Z.shiftl (Z.land (Z.shiftr x n) m) n.
Proof.
  intros Hn. apply Z.bits_inj'. intros i Hi. rewrite Z.land_spec.
  destruct (decide (i < n)).
  - rewrite !Z.shiftl_spec_low by done. by rewrite andb_false_r.
  - rewrite !Z.shiftl_spec by lia. rewrite Z.land_spec, Z.shiftr_spec by lia.
    by rewrite Z.sub_add.
Qed.

Lemma ntohl_range x : 0 ≤ ntohl x < 2 ^ 32.
Proof. unfold ntohl. byte_arith. Qed.
Lemma ntohl_ntohl x : 0 ≤ x < 2 ^ 32 → ntohl (ntohl x) = x.
Proof.
  intros Hx. unfold ntohl at 2. rewrite ntohl_host32 by byte_arith. byte_arith.
Qed.

(** The mask is applied to the number as the host reads it, so it clears the
    most significant byte of the wire's sequence number. *)
Lemma seq_num_bytes a b c d : is_byte a → is_byte b → is_byte c → is_byte d →
  Z.shiftr (ntohl (Z.land (host32 a b c d) 0xFFFFFF00)) 8 = 2 ^ 8 * b + c.
Proof.
  intros Ha Hb Hc Hd. change 0xFFFFFF00 with (Z.shiftl (Z.ones 24) 8).
  rewrite land_clear_low, Z.land_ones, !Z.shiftr_div_pow2, Z.shiftl_mul_pow2 by lia.
  replace (host32 a b c d / 2 ^ 8 mod 2 ^ 24 * 2 ^ 8) with (host32 0 b c d) by byte_arith.
  rewrite ntohl_host32 by byte_arith. byte_arith.
Qed.

(** ** Segments of a packet *)

(** [l] are the bytes of [b] from [off] on, possibly followed by others. *)
Definition seg (b : dp_packet) (off : Z) (l : list Z) : Prop :=
  dp_packet_size b < 2 ^ 32 ∧
  ∃ pre post, pk_data b = pre ++ l ++ post ∧ off = Z.of_nat (length pre).

Lemma seg_app b off l1 l2 :
  seg b off (l1 ++ l2) → seg b off l1 ∧ seg b (off + Z.of_nat (length l1)) l2.
Proof.
  intros [Hs (pre & post & Hd & ->)]. split; split; try done.
  - exists pre, (l2 ++ post). by rewrite Hd, <-!app_assoc.
  - exists (pre ++ l1), post. rewrite Hd, <-!app_assoc, length_app. split; [done|lia].
Qed.

Lemma seg_cons b off x l : seg b off (x :: l) → seg b (off + 1) l.
Proof. intros H. by apply (seg_app b off [x] l) in H as [_ H]. Qed.

Lemma seg_at b off l : seg b off l → dp_packet_at b off (Z.of_nat (length l)) = Some off.
Proof.
  intros [Hs (pre & post & Hd & ->)]. unfold dp_packet_at, dp_packet_size in *.
  rewrite Hd, !length_app in *. unfold u64. rewrite Z.mod_small by lia.
  destruct (Z.leb_spec (Z.of_nat (length pre) + Z.of_nat (length l))
    (Z.of_nat (length pre + (length l + length post)))); [done|lia].
Qed.

Lemma seg_byte b off l k x :
  seg b off l → 0 ≤ k → l !! Z.to_nat k = Some x → byte_at b (off + k) = x.
Proof.
  intros [Hs (pre & post & Hd & ->)] Hk Hi. unfold byte_at. rewrite Hd.
  apply nth_lookup_Some. replace (Z.to_nat _) with (length pre + Z.to_nat k)%nat by lia.
  rewrite lookup_app_r by lia.
  replace (length pre + Z.to_nat k - length pre)%nat with (Z.to_nat k) by lia.
  by apply lookup_app_l_Some.
Qed.

Lemma seg_byte0 b off x l : seg b off (x :: l) → byte_at b off = x.
Proof. intros H. rewrite <-(Z.add_0_r off). by eapply (seg_byte _ _ _ 0). Qed.

Lemma load8_seg b off x l : seg b off (x :: l) → load8 b off = Ret x.
Proof.
  intros H. apply (seg_app b off [x] l) in H as [H _]. unfold load8.
  rewrite (seg_at _ _ _ H : dp_packet_at b off 1 = Some off). cbn [deref obind].
  f_equal. by eapply seg_byte0.
Qed.

Lemma load16_seg b off x y l : seg b off (x :: y :: l) → load16 b off = Ret (host16 x y).
Proof.
  intros H. apply (seg_app b off [x; y] l) in H as [H _]. unfold load16.
  rewrite (seg_at _ _ _ H : dp_packet_at b off 2 = Some off). cbn [deref obind].
  rewrite (seg_byte0 _ _ _ _ H). rewrite (seg_byte _ _ _ 1 y H); done.
Qed.

Lemma load32_seg b off x y z w l :
  seg b off (x :: y :: z :: w :: l) → load32 b off = Ret (host32 x y z w).
Proof.
  intros H. apply (seg_app b off [x; y; z; w] l) in H as [H _]. unfold load32.
  rewrite (seg_at _ _ _ H : dp_packet_at b off 4 = Some off). cbn [deref obind].
  rewrite (seg_byte0 _ _ _ _ H). rewrite (seg_byte _ _ _ 1 y H) by done.
  rewrite (seg_byte _ _ _ 2 z H) by done. by rewrite (seg_byte _ _ _ 3 w H).
Qed.

Lemma load32_be32 b off x l : seg b off (be32 x ++ l) → 0 ≤ x < 2 ^ 32 →
  ∃ r, load32 b off = Ret r ∧ ntohl r = x.
Proof.
  intros H Hx. unfold be32 in H. cbn [app] in H.
  eexists. split; [exact (load32_seg _ _ _ _ _ _ _ H)|by apply ntohl_be32].
Qed.

(** ** Headers *)

(** [udp_payload b off l]: a UDP packet whose payload starts at [off] with [l]. *)
Definition udp_payload (b : dp_packet) (off : Z) (l : list Z) : Prop :=
  seg b off l ∧ 0 ≤ l4_ofs b < UINT16_MAX ∧ off = l4_ofs b + UDP_HEADER_LEN ∧
  0 ≤ l2_pad_size b ∧ off + Z.of_nat (length l) + l2_pad_size b ≤ dp_packet_size b.

Lemma udp_payload_at b off l :
  udp_payload b off l → dp_packet_get_udp_payload b = Some off.
Proof.
  intros ([Hs _] & Hl4 & -> & Hpad & Hsz).
  unfold dp_packet_get_udp_payload, dp_packet_l4_size, dp_packet_l4, UINT16_MAX,
    UDP_HEADER_LEN in *.
  destruct (Z.eqb_spec (l4_ofs b) 65535); [lia|]. cbn [negb].
  unfold u64. rewrite Z.mod_small by lia.
  destruct (Z.leb_spec 8 (dp_packet_size b - l4_ofs b - l2_pad_size b)); [done|lia].
Qed.

(** The first byte of a header: version, then five flag bits. *)
Lemma flag_version v f : 0 ≤ v < 8 → 0 ≤ f < 32 →
  Z.shiftr (Z.land (v * 32 + f) 0xe0) 5 = v.
Proof.
  intros Hv Hf. change 0xe0 with (Z.shiftl (Z.ones 3) 5).
  rewrite land_clear_low, Z.shiftr_shiftl_l, Z.land_ones, Z.shiftr_div_pow2 by lia.
  rewrite Z.shiftl_0_r. Z.div_mod_to_equations; lia.
Qed.

Lemma flag_teid v p t s : 0 ≤ s < 8 → 0 ≤ p → 0 ≤ v →
  negb (Z.land (v * 32 + (p * 16 + Z.b2z t * 8 + s)) 0x08 =? 0) = t.
Proof.
  intros Hs Hp Hv. change 8 with (Z.shiftl (Z.ones 1) 3) at 2.
  rewrite land_clear_low, Z.land_ones, Z.shiftr_div_pow2, Z.shiftl_mul_pow2 by lia.
  assert ((v * 32 + (p * 16 + Z.b2z t * 8 + s)) / 2 ^ 3 mod 2 ^ 1 = Z.b2z t) as ->.
  { destruct t; cbn [Z.b2z]; Z.div_mod_to_equations; lia. }
  by destruct t.
Qed.

(** A GTP-C version 2 header: [p] is the piggybacking flag, [s] the spare
    bits of the first byte, [spare] the octet after the sequence number. *)
Definition encode_gtpc_header (p s message_type message_length : Z) (teid : option Z)
    (seq_num spare : Z) : list Z :=
  [2 * 32 + (p * 16 + Z.b2z (bool_decide (is_Some teid)) * 8 + s); message_type] ++
  be16 message_length ++ match teid with Some t => be32 t | None => [] end ++
  [seq_num / 2 ^ 16 mod 2 ^ 8; seq_num / 2 ^ 8 mod 2 ^ 8; seq_num mod 2 ^ 8; spare].

Lemma gtpc_header_of_encode b off p s ty len teid seq spare l :
  udp_payload b off (encode_gtpc_header p s ty len teid seq spare ++ l) →
  0 ≤ p < 2 → 0 ≤ s < 8 → is_byte ty → 0 ≤ len < 2 ^ 16 →
  (∀ t, teid = Some t → 0 ≤ t < 2 ^ 32) → 0 ≤ seq < 2 ^ 24 → is_byte spare →
  let hlen := match teid with Some _ => 12 | None => 8 end in
  gtpc_header_of b = Ret (Some (mkGtpc 2 (bool_decide (is_Some teid)) ty len teid
    (seq mod 2 ^ 16) hlen (off + hlen))) ∧ seg b (off + hlen) l.
Proof.
  intros Hudp Hp Hs Hty Hlen Ht Hseq Hsp hlen.
  pose proof (udp_payload_at _ _ _ Hudp) as Hoff. destruct Hudp as [Hseg _].
  unfold gtpc_header_of. rewrite Hoff. cbn [deref obind].
  unfold encode_gtpc_header in Hseg. cbn [app] in Hseg.
  rewrite (load8_seg _ _ _ _ Hseg). cbn [obind].
  rewrite flag_version, flag_teid by (destruct teid; simpl; lia). cbn [Z.eqb negb Pos.eqb].
  apply seg_cons in Hseg. rewrite (load8_seg _ _ _ _ Hseg). cbn [obind].
  apply seg_cons in Hseg. replace (off + 1 + 1) with (off + 2) in Hseg by lia.
  unfold be16 in Hseg. cbn [app] in Hseg. rewrite (load16_seg _ _ _ _ _ Hseg). cbn [obind].
  rewrite ntohs_be16 by done. do 2 apply seg_cons in Hseg.
  replace (off + 2 + 1 + 1) with (off + 4) in Hseg by lia.
  destruct teid as [t|].
  - rewrite bool_decide_true by done. rewrite <-app_assoc in Hseg.
    destruct (load32_be32 _ _ t _ Hseg) as (r & -> & Hr); [by apply Ht|]. cbn [obind].
    rewrite Hr. apply seg_app in Hseg as [_ Hseg].
    change (Z.of_nat (length (be32 t))) with 4 in Hseg.
    replace (off + 4 + 4) with (off + 8) in Hseg by lia. cbn [app] in Hseg.
    rewrite (load32_seg _ _ _ _ _ _ _ Hseg). cbn [obind]. subst hlen.
    rewrite seq_num_bytes by byte_arith. split.
    + do 3 f_equal; [byte_arith|lia].
    + do 4 apply seg_cons in Hseg. by replace (off + 12) with (off + 8 + 1 + 1 + 1 + 1) by lia.
  - rewrite bool_decide_false by (by intros [? ?]). cbn [app] in Hseg |- *.
    rewrite (load32_seg _ _ _ _ _ _ _ Hseg). cbn [obind]. subst hlen.
    rewrite seq_num_bytes by byte_arith. split.
    + do 3 f_equal; [byte_arith|lia].
    + do 4 apply seg_cons in Hseg. by replace (off + 8) with (off + 4 + 1 + 1 + 1 + 1) by lia.
Qed.

(** A GTP-U header, with its first eight octets. *)
Definition encode_gtpu_header (f message_type message_length teid : Z) : list Z :=
  [1 * 32 + f; message_type] ++ be16 message_length ++ be32 teid.

Lemma gtpu_header_of_encode b off f ty len teid l :
  udp_payload b off (encode_gtpu_header f ty len teid ++ l) →
  0 ≤ f < 32 → is_byte ty → 0 ≤ len < 2 ^ 16 → 0 ≤ teid < 2 ^ 32 →
  gtpu_header_of b = Ret (Some (mkGtpu 1 ty len teid 8 (off + 8))).
Proof.
  intros Hudp Hf Hty Hlen Ht.
  pose proof (udp_payload_at _ _ _ Hudp) as Hoff. destruct Hudp as [Hseg _].
  unfold gtpu_header_of. rewrite Hoff. cbn [deref obind].
  unfold encode_gtpu_header in Hseg. cbn [app] in Hseg.
  rewrite (load8_seg _ _ _ _ Hseg). cbn [obind].
  rewrite flag_version by lia. cbn [Z.eqb negb Pos.eqb].
  apply seg_cons in Hseg. rewrite (load8_seg _ _ _ _ Hseg). cbn [obind].
  apply seg_cons in Hseg. replace (off + 1 + 1) with (off + 2) in Hseg by lia.
  unfold be16 in Hseg. cbn [app] in Hseg. rewrite (load16_seg _ _ _ _ _ Hseg). cbn [obind].
  rewrite ntohs_be16 by done. do 2 apply seg_cons in Hseg.
  replace (off + 2 + 1 + 1) with (off + 4) in Hseg by lia.
  destruct (load32_be32 _ _ teid _ Hseg) as (r & -> & Hr); [done|]. cbn [obind].
  by rewrite Hr.
Qed.

(** ** Information elements *)

Record ie := mkIe {
  ie_type : Z;
  ie_instance : Z;
  ie_value : list Z;
}.

(** A body element: a bearer context groups other elements. *)
Inductive body_ie :=
| Plain (i : ie)
| Bearer (inst : Z) (l : list ie).

Definition encode_tlv (ty inst : Z) (v : list Z) : list Z :=
  ty :: be16 (Z.of_nat (length v)) ++ inst :: v.
Definition encode_ie (i : ie) : list Z := encode_tlv (ie_type i) (ie_instance i) (ie_value i).
Definition encode_ies (l : list ie) : list Z := concat (encode_ie <$> l).
Definition encode_body_ie (e : body_ie) : list Z :=
  match e with
  | Plain i => encode_ie i
  | Bearer inst l => encode_tlv 93 inst (encode_ies l)
  end.
Definition encode_body (l : list body_ie) : list Z := concat (encode_body_ie <$> l).

(** The F-TEID and PAA elements have at least a flag octet and an IPv4
    address or TEID; every element fits its 16-bit length. *)
Definition wf_ie (i : ie) : Prop :=
  is_byte (ie_type i) ∧ Forall is_byte (ie_value i) ∧
  Z.of_nat (length (ie_value i)) < 2 ^ 16 ∧
  (ie_type i = 87 ∨ ie_type i = 79 → (5 ≤ length (ie_value i))%nat).
Definition wf_body_ie (e : body_ie) : Prop :=
  match e with
  | Plain i => wf_ie i ∧ ie_type i ≠ 93
  | Bearer _ l => Forall wf_ie l ∧ Z.of_nat (length (encode_ies l)) < 2 ^ 16
  end.

(** Octets 2 to 5 of a value, as the TEID or the address they carry. *)
Definition value_teid (v : list Z) : Z :=
  match v with _ :: a :: b :: c :: d :: _ => of_be32 a b c d | _ => 0 end.
Definition value_addr (v : list Z) : Z :=
  match v with _ :: a :: b :: c :: d :: _ => host32 a b c d | _ => 0 end.

(** The TEID of the first F-TEID of a bearer context. *)
Fixpoint bearer_teid (l : list ie) : option Z :=
  match l with
  | [] => None
  | i :: l' => if ie_type i =? 87 then Some (value_teid (ie_value i)) else bearer_teid l'
  end.

(** The reference: elements in order, until all three values are known. *)
Definition body_step (e : body_ie) (r : Z * Z * Z) : Z * Z * Z :=
  let '(t4, t5, ueip) := r in
  match e with
  | Plain i =>
      if ie_type i =? 87 then (value_teid (ie_value i), t5, ueip)
      else if ie_type i =? 79 then (t4, t5, value_addr (ie_value i))
      else r
  | Bearer _ l => (t4, default t5 (bearer_teid l), ueip)
  end.
Fixpoint body_scan (l : list body_ie) (r : Z * Z * Z) : Z * Z * Z :=
  match l with
  | [] => r
  | e :: l' =>
      let r := body_step e r in
      if all_set r then r else body_scan l' r
  end.

(** *** Reading one element *)

Lemma encode_tlv_length ty inst v :
  Z.of_nat (length (encode_tlv ty inst v)) = Z.of_nat (length v) + 4.
Proof. unfold encode_tlv. simpl. lia. Qed.

Lemma tlv_seg b off ty inst v l :
  seg b off (encode_tlv ty inst v ++ l) → Z.of_nat (length v) < 2 ^ 16 →
  load8 b off = Ret ty ∧
  (∃ r, load16 b (off + 1) = Ret r ∧ ntohs r = Z.of_nat (length v)) ∧
  seg b (off + 4) v ∧ seg b (off + Z.of_nat (length v) + 4) l.
Proof.
  intros H Hl. apply seg_app in H as [H Hr]. rewrite encode_tlv_length, Z.add_assoc in Hr.
  unfold encode_tlv, be16 in H. cbn [app] in H.
  split; [exact (load8_seg _ _ _ _ H)|]. apply seg_cons in H. split.
  { eexists. split; [exact (load16_seg _ _ _ _ _ H)|]. apply ntohs_be16. lia. }
  split; [|done]. do 3 apply seg_cons in H. by replace (off + 4) with (off + 1 + 1 + 1 + 1) by lia.
Qed.

Lemma value_seg b off v :
  seg b (off + 4) v → Forall is_byte v → (5 ≤ length v)%nat →
  load32 b (off + 5) = Ret (value_addr v) ∧ ntohl (value_addr v) = value_teid v.
Proof.
  intros H Hb Hl. do 5 (destruct v as [|? v]; [simpl in Hl; lia|]). cbn [value_addr value_teid].
  apply seg_cons in H. replace (off + 4 + 1) with (off + 5) in H by lia.
  split; [exact (load32_seg _ _ _ _ _ _ _ H)|].
  do 5 (apply Forall_cons_1 in Hb as [? Hb]). by apply ntohl_host32.
Qed.

Lemma bearer_loop_encode b l fuel bcstart t5 :
  seg b bcstart (encode_ies l) → Forall wf_ie l →
  (length (encode_ies l) ≤ fuel)%nat →
  bearer_loop fuel b bcstart (bcstart + Z.of_nat (length (encode_ies l))) t5
    = Ret (default t5 (bearer_teid l)).
Proof.
  revert fuel bcstart. induction l as [|i l IH]; intros fuel bcstart H Hwf Hf.
  { destruct fuel; simpl; rewrite Z.add_0_r, Z.ltb_irrefl; done. }
  apply Forall_cons_1 in Hwf as [(Hty & Hv & Hl & H5) Hwf].
  change (encode_ies (i :: l)) with (encode_ie i ++ encode_ies l) in *.
  destruct (tlv_seg _ _ _ _ _ _ H Hl) as (H1 & (r & Hr & Hlen) & Hval & Hrest).
  rewrite length_app in *. unfold encode_ie in Hf |- *.
  pose proof (encode_tlv_length (ie_type i) (ie_instance i) (ie_value i)) as Hel.
  destruct fuel as [|fuel]; [lia|]. cbn [bearer_loop].
  rewrite (proj2 (Z.ltb_lt _ _)) by lia. cbn [negb]. rewrite Hr, H1. cbn [obind].
  rewrite Hlen. cbn [bearer_teid]. destruct (Z.eqb_spec (ie_type i) 87) as [E|E].
  - destruct (value_seg _ _ _ Hval Hv) as [-> Ht]; [by apply H5; left|]. cbn [obind].
    by rewrite Ht.
  - rewrite <-IH with (fuel := fuel) (bcstart := bcstart + Z.of_nat (length (ie_value i)) + 4);
      [f_equal; lia|done|done|lia].
Qed.

Lemma ie_step_encode b start e l r :
  seg b start (encode_body_ie e ++ l) → wf_body_ie e →
  ∃ ty len lr, load8 b start = Ret ty ∧ load16 b (start + 1) = Ret lr ∧ ntohs lr = len ∧
    len + 4 = Z.of_nat (length (encode_body_ie e)) ∧ 0 ≤ len ∧
    ie_step b start ty len r = Ret (body_step e r) ∧ seg b (start + len + 4) l.
Proof.
  intros H Hwf. destruct r as [[t4 t5] ueip]. destruct e as [i|inst sub]; cbn [encode_body_ie] in *.
  - destruct Hwf as [(Hty & Hv & Hl & H5) Hne].
    destruct (tlv_seg _ _ _ _ _ _ H Hl) as (H1 & (lr & Hr & Hlen) & Hval & Hrest).
    exists (ie_type i), (Z.of_nat (length (ie_value i))), lr.
    unfold encode_ie. rewrite encode_tlv_length.
    split_and!; [done|done|done|done|lia| |done]. unfold ie_step, body_step.
    destruct (Z.eqb_spec (ie_type i) 87) as [E|E].
    { destruct (value_seg _ _ _ Hval Hv) as [-> Ht]; [by apply H5; left|]. cbn [obind].
      by rewrite Ht. }
    destruct (Z.eqb_spec (ie_type i) 79) as [E'|E'].
    { destruct (value_seg _ _ _ Hval Hv) as [-> _]; [by apply H5; right|done]. }
    by rewrite (proj2 (Z.eqb_neq _ _) Hne).
  - destruct Hwf as [Hwf Hl].
    destruct (tlv_seg _ _ _ _ _ _ H Hl) as (H1 & (lr & Hr & Hlen) & Hval & Hrest).
    exists 93, (Z.of_nat (length (encode_ies sub))), lr. rewrite encode_tlv_length.
    split_and!; [done|done|done|done|lia| |done]. unfold ie_step. cbn [Z.eqb Pos.eqb].
    rewrite bearer_loop_encode by (done || lia). done.
Qed.

Lemma ie_loop_encode b l fuel start r :
  seg b start (encode_body l) → Forall wf_body_ie l →
  (length (encode_body l) ≤ fuel)%nat →
  ie_loop fuel b start (start + Z.of_nat (length (encode_body l))) r = Ret (body_scan l r).
Proof.
  revert fuel start r. induction l as [|e l IH]; intros fuel start r H Hwf Hf.
  { destruct fuel; simpl; rewrite Z.add_0_r, Z.ltb_irrefl; done. }
  apply Forall_cons_1 in Hwf as [He Hwf].
  change (encode_body (e :: l)) with (encode_body_ie e ++ encode_body l) in *.
  destruct (ie_step_encode b start e _ r H He)
    as (ty & len & lr & H1 & H2 & H3 & H4 & Hpos & Hstep & Hrest).
  rewrite length_app in *. destruct fuel as [|fuel]; [lia|]. cbn [ie_loop].
  rewrite (proj2 (Z.ltb_lt _ _)) by lia. cbn [negb]. rewrite H2, H1. cbn [obind].
  rewrite H3, Hstep. cbn [obind body_scan].
  destruct (all_set (body_step e r)); [done|].
  rewrite <-IH with (fuel := fuel) (start := start + len + 4); [f_equal; lia|done|done|lia].
Qed.

(** ** The loops stop on every packet

    Each round moves at least four octets on, so the fuel, the length of the
    part that is left, does not run out: the parser returns or faults. *)

Lemma load_not_diverge b off : load8 b off ≠ Diverge ∧ load16 b off ≠ Diverge ∧
  load32 b off ≠ Diverge.
Proof.
  unfold load8, load16, load32.
  split_and!; by destruct (dp_packet_at b off _).
Qed.

Lemma obind_not_diverge {A B} (c : outcome A) (k : A → outcome B) :
  c ≠ Diverge → (∀ a, c = Ret a → k a ≠ Diverge) → obind c k ≠ Diverge.
Proof. destruct c; simpl; auto. Qed.

Definition bytes_ok (b : dp_packet) : Prop := Forall is_byte (pk_data b).

Lemma byte_at_ok b p : bytes_ok b → is_byte (byte_at b p).
Proof.
  intros Hb. unfold byte_at. destruct (pk_data b !! Z.to_nat p) as [x|] eqn:E.
  - rewrite (nth_lookup_Some _ _ _ _ E). by eapply (Forall_lookup_1 _ _ _ _ Hb).
  - rewrite nth_lookup, E. simpl. byte_arith.
Qed.

Lemma load16_range b off r : bytes_ok b → load16 b off = Ret r → 0 ≤ ntohs r < 2 ^ 16.
Proof.
  intros Hb H. unfold load16 in H. inv_ret. subst r.
  rewrite ntohs_host16 by (by apply byte_at_ok).
  pose proof (byte_at_ok b a Hb). pose proof (byte_at_ok b (a + 1) Hb). byte_arith.
Qed.

Lemma bearer_loop_stops b fuel bcstart bcstartend t5 :
  bytes_ok b → bcstartend - bcstart ≤ Z.of_nat fuel →
  bearer_loop fuel b bcstart bcstartend t5 ≠ Diverge.
Proof.
  intros Hb. revert bcstart. induction fuel as [|fuel IH]; intros bcstart Hf; cbn [bearer_loop];
    destruct (Z.ltb_spec bcstart bcstartend); try done; [lia|]. cbn [negb].
  apply obind_not_diverge; [apply load_not_diverge|]. intros lr Hlr.
  apply obind_not_diverge; [apply load_not_diverge|]. intros ty Hty.
  destruct (ty =? 87).
  - apply obind_not_diverge; [apply load_not_diverge|done].
  - apply IH. pose proof (load16_range _ _ _ Hb Hlr). lia.
Qed.

Lemma ie_loop_stops b fuel start finish r :
  bytes_ok b → finish - start ≤ Z.of_nat fuel → ie_loop fuel b start finish r ≠ Diverge.
Proof.
  intros Hb. revert start r. induction fuel as [|fuel IH]; intros start r Hf; cbn [ie_loop];
    destruct (Z.ltb_spec start finish); try done; [lia|]. cbn [negb].
  apply obind_not_diverge; [apply load_not_diverge|]. intros lr Hlr.
  apply obind_not_diverge; [apply load_not_diverge|]. intros ty Hty.
  pose proof (load16_range _ _ _ Hb Hlr).
  apply obind_not_diverge.
  - unfold ie_step. destruct r as [[t4 t5] ueip].
    destruct (ty =? 87); [apply obind_not_diverge; [apply load_not_diverge|done]|].
    destruct (ty =? 79); [apply obind_not_diverge; [apply load_not_diverge|done]|].
    destruct (ty =? 93); [|done]. apply obind_not_diverge; [|done].
    apply bearer_loop_stops; [done|lia].
  - intros r' _. destruct (all_set r'); [done|]. apply IH. lia.
Qed.
