(* ===== verification/GtpManager.v ===== *)
(** * ofproto/gtp-manager.c: the GTP session manager

    The state is the module's static variables and the heap objects they
    reach.  The functions are modelled as one thread runs them, without
    another thread in between: taking and releasing the mutexes has no effect.
    Logging is left out.  [xlate_output_action] is recorded in the trace of
    the packet, with the destination addresses the flow has at that moment. *)
From Stdlib Require Import ZArith Lia.
From stdpp Require Import base list gmap numbers option.
From S2P Require Import Prelude Hash MapIface GtpWire.
Open Scope Z_scope.

Definition HASHMAP_PART_NUM : nat := 32.
Definition MAX_PGW_PER_NODE : nat := 1024.
Definition GTPU_PORT : Z := 2152.
Definition GTPC_PORT : Z := 2123.

(** ** Data *)

Record gtp_pgw_node := mkPgw {
  gtp_pgw_port : Z;
  gtp_pgw_eth : Z;
  pgw_sgi_port : Z;
  pgw_sgi_eth : Z;
  gtp_pgw_ip : Z;
}.

(** [struct gtp_teid_to_pgw_node] and [struct gtp_ueip_to_pgw_node] have the
    same members: a key ([teid] or [ueip]), the tunnel and a count. *)
Inductive kind := KTeid | KUeip.
#[global] Instance kind_eq_dec : EqDecision kind.
Proof. solve_decision. Defined.

Record key_node := mkNode {
  kn_key : Z;
  kn_tunnel : positive;
  kn_ref_count : Z;
}.

(** [None] is the value of a member that has not been set. *)
Record gtp_tunnel_node := mkTunnel {
  teid4_sgw_c : Z;
  teid5_sgw_u : Z;
  teid2_pgw_c : Z;
  teid3_pgw_u : option Z;
  ue_ip : Z;
  pgw_index : option Z;
  t_ref_count : option Z;
}.

Inductive obj :=
| ONode (k : kind) (n : key_node)
| OTunnel (t : gtp_tunnel_node)
| OGtpc (h : option gtpc_msg_header)
| OGtpu (h : option gtpu_msg_header).

Record gtp (T : Type) := mkGtp {
  ovs_id : Z;
  ovs_total : Z;
  ovs_phy_port : Z;
  pgw_fastpath : Z;
  pgw_list : list gtp_pgw_node;
  current : Z;
  end_ : Z;
  teid2pgw : list T;
  ueip2pgw : list T;
  heap : gmap positive obj;
  brk : positive;         (* the next address of the allocator *)
  seed : Z;               (* lib/random.c *)
}.
Arguments mkGtp {T}.
Arguments ovs_id {T} _.
Arguments ovs_total {T} _.
Arguments ovs_phy_port {T} _.
Arguments pgw_fastpath {T} _.
Arguments pgw_list {T} _.
Arguments current {T} _.
Arguments end_ {T} _.
Arguments teid2pgw {T} _.
Arguments ueip2pgw {T} _.
Arguments heap {T} _.
Arguments brk {T} _.
Arguments seed {T} _.

(** The members of [struct flow] that the manager uses. *)
Record flow := mkFlow {
  in_port : Z;
  dl_type : Z;
  nw_proto : Z;
  tp_src : Z;
  tp_dst : Z;
  nw_src : Z;
  nw_dst : Z;
  dl_dst : Z;
}.

(** The masks of [struct flow_wildcards] it sets. *)
Record flow_wildcards := mkWc {
  wc_nw_dst : Z;
  wc_dl_dst : Z;
}.

(** One packet being translated: its flow, its wildcards, and the calls of
    [xlate_output_action] so far as (port, [nw_dst], [dl_dst]). *)
Record xlate := mkX {
  x_flow : flow;
  x_wc : flow_wildcards;
  x_out : list (Z * Z * Z);
}.

(** ** Classification *)

Definition ETH_TYPE_IP : Z := 0x0800.
Definition ETH_TYPE_IPV6 : Z := 0x86dd.
Definition IPPROTO_UDP : Z := 17.

Definition is_ip_any (f : flow) : bool :=
  (dl_type f =? htons ETH_TYPE_IP) || (dl_type f =? htons ETH_TYPE_IPV6).

Definition maybe_gtpc_message (f : flow) : bool :=
  is_ip_any f && (nw_proto f =? IPPROTO_UDP) &&
  ((tp_dst f =? htons GTPC_PORT) || (tp_src f =? htons GTPC_PORT)).

Definition maybe_gtpu_message (f : flow) : bool :=
  is_ip_any f && (nw_proto f =? IPPROTO_UDP) &&
  ((tp_dst f =? htons GTPU_PORT) || (tp_src f =? htons GTPU_PORT)).

Definition check_is_gtp (f : flow) : bool := maybe_gtpc_message f || maybe_gtpu_message f.

(** ** State updates *)
Section Set_.
Context {T : Type}.
Implicit Types st : gtp T.

Definition set_pgws st (l : list gtp_pgw_node) (cur e : Z) : gtp T :=
  mkGtp (ovs_id st) (ovs_total st) (ovs_phy_port st) (pgw_fastpath st) l cur e
    (teid2pgw st) (ueip2pgw st) (heap st) (brk st) (seed st).
Definition set_heap st (h : gmap positive obj) : gtp T :=
  mkGtp (ovs_id st) (ovs_total st) (ovs_phy_port st) (pgw_fastpath st) (pgw_list st)
    (current st) (end_ st) (teid2pgw st) (ueip2pgw st) h (brk st) (seed st).
Definition maps st (k : kind) : list T :=
  match k with KTeid => teid2pgw st | KUeip => ueip2pgw st end.
Definition set_maps st (k : kind) (l : list T) (s : Z) : gtp T :=
  match k with
  | KTeid => mkGtp (ovs_id st) (ovs_total st) (ovs_phy_port st) (pgw_fastpath st)
      (pgw_list st) (current st) (end_ st) l (ueip2pgw st) (heap st) (brk st) s
  | KUeip => mkGtp (ovs_id st) (ovs_total st) (ovs_phy_port st) (pgw_fastpath st)
      (pgw_list st) (current st) (end_ st) (teid2pgw st) l (heap st) (brk st) s
  end.

(** [xmalloc] does not fail; an address is not handed out twice, so that an
    access after [free] shows. *)
Definition xmalloc st (o : obj) : positive * gtp T :=
  (brk st,
   mkGtp (ovs_id st) (ovs_total st) (ovs_phy_port st) (pgw_fastpath st) (pgw_list st)
     (current st) (end_ st) (teid2pgw st) (ueip2pgw st)
     (<[brk st := o]> (heap st)) (Pos.succ (brk st)) (seed st)).

Definition free st (p : positive) : outcome (gtp T) :=
  match heap st !! p with
  | Some _ => Ret (set_heap st (delete p (heap st)))
  | None => Fault UseAfterFree
  end.

Definition read_node st (k : kind) (p : positive) : outcome key_node :=
  match heap st !! p with
  | Some (ONode k' n) => if decide (k' = k) then Ret n else Fault UseAfterFree
  | _ => Fault UseAfterFree
  end.
Definition write_node st (k : kind) (p : positive) (n : key_node) : gtp T :=
  set_heap st (<[p := ONode k n]> (heap st)).
Definition read_tunnel st (p : positive) : outcome gtp_tunnel_node :=
  match heap st !! p with
  | Some (OTunnel t) => Ret t
  | _ => Fault UseAfterFree
  end.
Definition write_tunnel st (p : positive) (t : gtp_tunnel_node) : gtp T :=
  set_heap st (<[p := OTunnel t]> (heap st)).

(** Reading a member that may not have been set. *)
Definition init_value {A} (v : option A) : outcome A :=
  match v with Some a => Ret a | None => Fault UninitRead end.

Definition nth_pgw st (i : Z) : outcome gtp_pgw_node :=
  if (0 <=? i) then
    match pgw_list st !! Z.to_nat i with
    | Some g => Ret g
    | None => Fault OutOfBounds
    end
  else Fault OutOfBounds.
End Set_.

(** ** Parameters and the table of gateways *)
Section Pgw.
Context {T : Type}.
Implicit Types st : gtp T.

Definition gtp_manager_set_params st (ovsid total phyport fastpath : Z) : gtp T :=
  mkGtp ovsid total phyport fastpath (pgw_list st) (current st) (end_ st)
    (teid2pgw st) (ueip2pgw st) (heap st) (brk st) (seed st).

(** The [for] loops over [pgw_list[i]], from [i] up to [end]: the first index
    whose address satisfies [test]. *)
Fixpoint scan_pgw (l : list gtp_pgw_node) (i e : Z) (test : Z → bool) : option Z :=
  match l with
  | [] => None
  | g :: l' =>
      if i <? e then
        if test (gtp_pgw_ip g) then Some i else scan_pgw l' (i + 1) e test
      else None
  end.

Definition scan_from st (i : Z) (test : Z → bool) : option Z :=
  scan_pgw (drop (Z.to_nat i) (pgw_list st)) i (end_ st) test.

Definition gtp_manager_add_pgw st (ip port eth sgi_port sgi_eth : Z) : outcome (gtp T) :=
  let g := mkPgw port eth sgi_port sgi_eth ip in
  match scan_from st 0 (λ a, a =? 0) with
  | Some i => Ret (set_pgws st (<[Z.to_nat i := g]> (pgw_list st)) (current st) (end_ st))
  | None =>
      let* _ := ovs_assert (end_ st <? Z.of_nat MAX_PGW_PER_NODE) in
      let i := end_ st in
      Ret (set_pgws st (<[Z.to_nat i := g]> (pgw_list st)) (current st) (u16 (end_ st + 1)))
  end.

Definition gtp_manager_del_pgw st (ip : Z) : gtp T :=
  match scan_from st 0 (λ a, a =? ip) with
  | Some i =>
      set_pgws st
        (alter (λ g, mkPgw 0 (gtp_pgw_eth g) 0 (pgw_sgi_eth g) 0) (Z.to_nat i) (pgw_list st))
        (current st) (end_ st)
  | None => st
  end.

Definition gtp_manager_get_pgw st : Z * gtp T :=
  match scan_from st (current st) (λ a, negb (a =? 0)) with
  | Some i => (i, set_pgws st (pgw_list st) (u16 (i + 1)) (end_ st))
  | None => (0, set_pgws st (pgw_list st) 1 (end_ st))
  end.

Definition gtp_manager_find_pgw st (ip : Z) : Z :=
  match scan_from st 0 (λ a, a =? ip) with
  | Some i => i
  | None => -1
  end.
End Pgw.

(** ** The maps from TEID and UE address to tunnels *)

(** [teid & 0x1F]; the low bits of the last octet of the address. *)
Definition part (k : kind) (key : Z) : nat :=
  match k with
  | KTeid => Z.to_nat (Z.land key 0x0000001F)
  | KUeip => Z.to_nat (Z.shiftr (Z.land key 0x1F000000) 24)
  end.

Section Manager.
Context `{HF : HashFns} `{MO : MapOps T}.
Implicit Types st : gtp T.

(** Bound on the rehashes of one map operation. *)
Variable fuel : nat.

Definition key_hash (key : Z) : Z := hf_int key 0.

Fixpoint init_maps (n : nat) (s : Z) : outcome (Z * list T * list T) :=
  match n with
  | O => Ret (s, [], [])
  | S n =>
      let* (s, c1) := mo_init s in
      let* (s, c2) := mo_init s in
      let* (s, l1, l2) := init_maps n s in
      Ret (s, c1 :: l1, c2 :: l2)
  end.

Definition gtp_manager_init st : outcome (gtp T) :=
  let pgws := (λ g, mkPgw (gtp_pgw_port g) (gtp_pgw_eth g) (pgw_sgi_port g)
                      (pgw_sgi_eth g) 0) <$> pgw_list st in
  let* (s, l1, l2) := init_maps HASHMAP_PART_NUM (seed st) in
  Ret (mkGtp (ovs_id st) (ovs_total st) (ovs_phy_port st) (pgw_fastpath st)
         pgws 0 0 l1 l2 (heap st) (brk st) s).

(** The static variables before [gtp_manager_init]. *)
Definition gtp_static (s : Z) : gtp T :=
  mkGtp 0 0 0 0 (replicate MAX_PGW_PER_NODE (mkPgw 0 0 0 0 0)) 0 0 [] [] ∅ 1 s.

(** [&teid2pgw[cmap_id]]. *)
Definition map_at st (k : kind) (i : nat) : outcome T :=
  match maps st k !! i with Some c => Ret c | None => Fault OutOfBounds end.

(** [gtp_manager_put_teid_pgw] and [gtp_manager_put_ueip_pgw], which differ
    in the map and the choice of its part. *)
Definition put_node (k : kind) st (key : Z) (tunnel : positive) : outcome (Z * gtp T) :=
  let cmap_id := part k key in
  let* c := map_at st k cmap_id in
  let '(p, st) := xmalloc st (ONode k (mkNode key tunnel 1)) in
  let* (s, c, ret) := mo_insert fuel (seed st) c p (key_hash key) in
  Ret (ret, set_maps st k (<[cmap_id := c]> (maps st k)) s).

Definition gtp_manager_put_teid_pgw := put_node KTeid.
Definition gtp_manager_put_ueip_pgw := put_node KUeip.

(** CMAP_FOR_EACH_WITH_HASH up to the first node with [key]. *)
Fixpoint find_node (n : nat) (k : kind) st (c : T) (o : option positive) (key : Z) :
    outcome (option positive) :=
  match n with
  | O => Diverge
  | S n =>
      match o with
      | None => Ret None
      | Some p =>
          let* nd := read_node st k p in
          if kn_key nd =? key then Ret (Some p)
          else
            let* next := mo_next c p in
            find_node n k st c next key
      end
  end.

Definition lookup_node (k : kind) st (key : Z) : outcome (option positive) :=
  let* c := map_at st k (part k key) in
  let* first := mo_find c (key_hash key) in
  find_node (S (size (heap st))) k st c first key.

(** [gtp_manager_get_teid_pgw] and [gtp_manager_get_ueip_pgw]: the node, with
    one more reference. *)
Definition get_node (k : kind) st (key : Z) : outcome (option positive * gtp T) :=
  let* r := lookup_node k st key in
  match r with
  | None => Ret (None, st)
  | Some p =>
      let* nd := read_node st k p in
      Ret (Some p, write_node st k p
             (mkNode (kn_key nd) (kn_tunnel nd) (u8 (kn_ref_count nd + 1))))
  end.

Definition gtp_manager_get_teid_pgw := get_node KTeid.
Definition gtp_manager_get_ueip_pgw := get_node KUeip.

(** Dropping a reference to a node, with what follows when it is the last. *)
Definition unref_node (k : kind) st (p : positive) : outcome (gtp T) :=
  let* nd := read_node st k p in
  let nd := mkNode (kn_key nd) (kn_tunnel nd) (u8 (kn_ref_count nd - 1)) in
  let st := write_node st k p nd in
  if kn_ref_count nd =? 0 then
    let tp := kn_tunnel nd in
    let* t := read_tunnel st tp in
    let* rc := init_value (t_ref_count t) in
    let st := write_tunnel st tp
                (mkTunnel (teid4_sgw_c t) (teid5_sgw_u t) (teid2_pgw_c t) (teid3_pgw_u t)
                   (ue_ip t) (pgw_index t) (Some (rc - 1))) in
    let* st := if rc - 1 =? 0 then free st tp else Ret st in
    free st p
  else Ret st.

(** [gtp_manager_del_teid_pgw] and [gtp_manager_del_ueip_pgw].  [found_node]
    is only assigned when the search succeeds. *)
Definition del_node (k : kind) st (key : Z) : outcome (Z * gtp T) :=
  let cmap_id := part k key in
  let* r := lookup_node k st key in
  let* found := init_value r in
  let* c := map_at st k cmap_id in
  let* (s, c, ret) := mo_remove fuel (seed st) c found (key_hash key) in
  let st := set_maps st k (<[cmap_id := c]> (maps st k)) s in
  let* st := unref_node k st found in
  Ret (ret, st).

Definition gtp_manager_del_teid_pgw := del_node KTeid.
Definition gtp_manager_del_ueip_pgw := del_node KUeip.
End Manager.

(** ** Packets *)

Definition xlate_output_action (x : xlate) (port : Z) : xlate :=
  mkX (x_flow x) (x_wc x) (x_out x ++ [(port, nw_dst (x_flow x), dl_dst (x_flow x))]).

Definition set_nw_dst (f : flow) (ip : Z) : flow :=
  mkFlow (in_port f) (dl_type f) (nw_proto f) (tp_src f) (tp_dst f) (nw_src f) ip (dl_dst f).
Definition set_dl_dst (f : flow) (eth : Z) : flow :=
  mkFlow (in_port f) (dl_type f) (nw_proto f) (tp_src f) (tp_dst f) (nw_src f) (nw_dst f) eth.

(** "set dst to pgw ip and mac", "output to pgw port". *)
Definition send_to_pgw (g : gtp_pgw_node) (x : xlate) : xlate :=
  let x := mkX (set_nw_dst (x_flow x) (gtp_pgw_ip g))
             (mkWc 0xffffffff (wc_dl_dst (x_wc x))) (x_out x) in
  let x := mkX (set_dl_dst (x_flow x) (gtp_pgw_eth g))
             (mkWc (wc_nw_dst (x_wc x)) 0xffffffffffff) (x_out x) in
  xlate_output_action x (gtp_pgw_port g).

Section Packets.
Context `{HF : HashFns} `{MO : MapOps T}.
Implicit Types st : gtp T.
Variable fuel : nat.

(** A message for an existing tunnel, by the key in it. *)
Definition forward_by_key (k : kind) st (key : Z) (x : xlate)
    (send : gtp_pgw_node → xlate → xlate) : outcome (gtp T * xlate) :=
  let* (selectedpgw, st) := get_node k st key in
  match selectedpgw with
  | None => Ret (st, x)
  | Some p =>
      let* nd := read_node st k p in
      let* t := read_tunnel st (kn_tunnel nd) in
      let* selectedpgwindex := init_value (pgw_index t) in
      let* g := nth_pgw st selectedpgwindex in
      let x := if gtp_pgw_ip g =? 0 then x else send g x in
      let* st := unref_node k st p in
      Ret (st, x)
  end.

(** The create session response, from the parsed [t4], [t5] and [ueip]. *)
Definition create_session st (t2 t4 t5 ueip : Z) (x : xlate) : outcome (gtp T * xlate) :=
  if all_set (t4, t5, ueip) then
    if pgw_fastpath st =? 0 then
      let '(node, st) := xmalloc st (OTunnel (mkTunnel t4 t5 t2 None ueip None None)) in
      let pgwindex := gtp_manager_find_pgw st (nw_src (x_flow x)) in
      if negb (pgwindex =? -1) then
        let st := write_tunnel st node
                    (mkTunnel t4 t5 t2 None ueip (Some (u16 pgwindex)) (Some 4)) in
        let* (_, st) := gtp_manager_put_teid_pgw fuel st t4 node in
        let* (_, st) := gtp_manager_put_teid_pgw fuel st t5 node in
        let* (_, st) := gtp_manager_put_ueip_pgw fuel st ueip node in
        let* (_, st) := gtp_manager_put_teid_pgw fuel st t2 node in
        Ret (st, xlate_output_action x (ovs_phy_port st))
      else Ret (st, x)
    else Ret (st, x)
  else Ret (st, x).

(** The delete session response. *)
Definition delete_session st (t2 : Z) (x : xlate) : outcome (gtp T * xlate) :=
  let* (r, st) := gtp_manager_get_teid_pgw st t2 in
  let* node := deref r in
  let* nd := read_node st KTeid node in
  let* t := read_tunnel st (kn_tunnel nd) in
  let t4 := teid4_sgw_c t in
  let t5 := teid5_sgw_u t in
  let ueip := ue_ip t in
  let* (_, st) := gtp_manager_del_teid_pgw fuel st t4 in
  let* (_, st) := gtp_manager_del_teid_pgw fuel st t5 in
  let* (_, st) := gtp_manager_del_ueip_pgw fuel st ueip in
  let* (_, st) := gtp_manager_del_teid_pgw fuel st t2 in
  let* st := unref_node KTeid st node in
  Ret (st, xlate_output_action x (ovs_phy_port st)).

(** "not has_teid, or teid is zero": there is no tunnel yet. *)
Definition no_tunnel (msg : gtpc_msg_header) : outcome bool :=
  if c_has_teid msg then let* t := init_value (c_teid msg) in Ret (t =? 0)
  else Ret true.

Definition handle_gtpc_message st (x : xlate) (msg : gtpc_msg_header) (packet : dp_packet) :
    outcome (gtp T * xlate) :=
  if in_port (x_flow x) =? ovs_phy_port st then
    let* none := no_tunnel msg in
    if none : bool then
      if ovs_total st =? 0 then Fault DivByZero
      else if c_seq_num msg mod ovs_total st =? ovs_id st then
        let '(ramdompgw, st) := gtp_manager_get_pgw st in
        let* g := nth_pgw st ramdompgw in
        Ret (st, send_to_pgw g x)
      else Ret (st, x)
    else
      let* teid := init_value (c_teid msg) in
      forward_by_key KTeid st teid x send_to_pgw
  else
    let* none := no_tunnel msg in
    if none : bool then Ret (st, xlate_output_action x (ovs_phy_port st))
    else
      let* t2 := init_value (c_teid msg) in
      if c_message_type msg =? 33 then
        let* (t4, t5, ueip) := parse_create_session_response msg packet in
        create_session st t2 t4 t5 ueip x
      else if c_message_type msg =? 37 then delete_session st t2 x
      else Ret (st, xlate_output_action x (ovs_phy_port st)).

Definition handle_gtpu_message st (x : xlate) (msg : gtpu_msg_header) :
    outcome (gtp T * xlate) :=
  if in_port (x_flow x) =? ovs_phy_port st then
    if u_teid msg =? 0 then Ret (st, x)
    else if pgw_fastpath st =? 0 then
      forward_by_key KTeid st (u_teid msg) x send_to_pgw
    else Ret (st, x)
  else if pgw_fastpath st =? 0 then Ret (st, xlate_output_action x (ovs_phy_port st))
  else Ret (st, x).

(** The parsers allocate the message they return; the one for GTP-C does not
    free it when the version is wrong. *)
Definition parse_gtpc_msg_header st (packet : dp_packet) : outcome (option positive * gtp T) :=
  let '(p, st) := xmalloc st (OGtpc None) in
  let* r := gtpc_header_of packet in
  match r with
  | None => Ret (None, st)
  | Some h => Ret (Some p, set_heap st (<[p := OGtpc (Some h)]> (heap st)))
  end.

Definition parse_gtpu_message st (packet : dp_packet) : outcome (option positive * gtp T) :=
  let '(p, st) := xmalloc st (OGtpu None) in
  let* r := gtpu_header_of packet in
  match r with
  | None => let* st := free st p in Ret (None, st)
  | Some h => Ret (Some p, set_heap st (<[p := OGtpu (Some h)]> (heap st)))
  end.

Definition read_gtpc st (p : positive) : outcome gtpc_msg_header :=
  match heap st !! p with
  | Some (OGtpc (Some h)) => Ret h
  | Some (OGtpc None) => Fault UninitRead
  | _ => Fault UseAfterFree
  end.
Definition read_gtpu st (p : positive) : outcome gtpu_msg_header :=
  match heap st !! p with
  | Some (OGtpu (Some h)) => Ret h
  | Some (OGtpu None) => Fault UninitRead
  | _ => Fault UseAfterFree
  end.

Definition handle_gtp st (x : xlate) (packet : option dp_packet) : outcome (gtp T * xlate) :=
  match packet with
  | None => Ret (st, x)
  | Some packet =>
      if maybe_gtpc_message (x_flow x) then
        let* (r, st) := parse_gtpc_msg_header st packet in
        match r with
        | None => Ret (st, x)
        | Some p =>
            let* msg := read_gtpc st p in
            let* (st, x) := handle_gtpc_message st x msg packet in
            let* st := free st p in
            Ret (st, x)
        end
      else if maybe_gtpu_message (x_flow x) then
        let* (r, st) := parse_gtpu_message st packet in
        match r with
        | None => Ret (st, x)
        | Some p =>
            let* msg := read_gtpu st p in
            let* (st, x) := handle_gtpu_message st x msg in
            let* st := free st p in
            Ret (st, x)
        end
      else Ret (st, x)
  end.

(** "do not change packet" apart from its destination MAC. *)
Definition send_to_sgi (g : gtp_pgw_node) (x : xlate) : xlate :=
  let x := mkX (set_dl_dst (x_flow x) (pgw_sgi_eth g))
             (mkWc (wc_nw_dst (x_wc x)) 0xffffffffffff) (x_out x) in
  xlate_output_action x (pgw_sgi_port g).

Definition handle_pgw_sgi st (x : xlate) (packet : option dp_packet) :
    outcome (gtp T * xlate) :=
  match packet with
  | None => Ret (st, x)
  | Some _ =>
      if in_port (x_flow x) =? ovs_phy_port st then
        if pgw_fastpath st =? 0 then
          forward_by_key KUeip st (nw_dst (x_flow x)) x send_to_sgi
        else Ret (st, x)
      else if pgw_fastpath st =? 0 then
        Ret (st, xlate_output_action x (ovs_phy_port st))
      else Ret (st, x)
  end.
End Packets.
