(* ===== verification/GtpPgw.v ===== *)
(** * The table of packet gateways

    The slots of [pgw_list] below [end] are in use or deleted (address 0).
    What adding, deleting and finding a gateway do to the active slots, and
    the order in which [gtp_manager_get_pgw] hands them out. *)
From Stdlib Require Import ZArith Lia.
From stdpp Require Import base list gmap numbers option.
From S2P Require Import Prelude Hash MapIface GtpWire GtpManager.
Open Scope Z_scope.

Section Pgw.
Context {T : Type}.
Implicit Types st : gtp T.

Record wf_pgws st : Prop := {
  wp_len : length (pgw_list st) = MAX_PGW_PER_NODE;
  wp_end : 0 ≤ end_ st ≤ Z.of_nat MAX_PGW_PER_NODE;
  wp_current : 0 ≤ current st ≤ Z.of_nat MAX_PGW_PER_NODE;
}.

(** The gateway in slot [i], below [end]. *)
Definition pgw_at st (i : Z) : option gtp_pgw_node :=
  if decide (0 ≤ i < end_ st) then pgw_list st !! Z.to_nat i else None.

Definition active st (i : Z) : Prop := ∃ g, pgw_at st i = Some g ∧ gtp_pgw_ip g ≠ 0.

Lemma scan_pgw_Some l i e test j :
  scan_pgw l i e test = Some j →
  i ≤ j < e ∧ (∃ g, l !! Z.to_nat (j - i) = Some g ∧ test (gtp_pgw_ip g) = true) ∧
  ∀ j' g, i ≤ j' < j → l !! Z.to_nat (j' - i) = Some g → test (gtp_pgw_ip g) = false.
Proof.
  revert i. induction l as [|g0 l IH]; intros i H; cbn [scan_pgw] in H; [done|].
  destruct (Z.ltb_spec i e); [|done]. destruct (test (gtp_pgw_ip g0)) eqn:Ht.
  - injection H as <-. split; [lia|]. rewrite Z.sub_diag. split; [by exists g0|]. lia.
  - apply IH in H as (Hj & (g & Hg & Htg) & Hmin). split; [lia|]. split.
    + exists g. split; [|done]. replace (Z.to_nat (j - i)) with (S (Z.to_nat (j - (i + 1)))) by lia.
      done.
    + intros j' g' Hj' Hg'. destruct (decide (j' = i)) as [->|].
      * rewrite Z.sub_diag in Hg'. injection Hg' as ->. done.
      * apply (Hmin j'); [lia|].
        replace (Z.to_nat (j' - i)) with (S (Z.to_nat (j' - (i + 1)))) in Hg' by lia. done.
Qed.

Lemma scan_pgw_None l i e test :
  scan_pgw l i e test = None →
  ∀ j g, i ≤ j < e → l !! Z.to_nat (j - i) = Some g → test (gtp_pgw_ip g) = false.
Proof.
  revert i. induction l as [|g0 l IH]; intros i H j g Hj Hg; cbn [scan_pgw] in H; [done|].
  destruct (Z.ltb_spec i e); [|lia]. destruct (test (gtp_pgw_ip g0)) eqn:Ht; [done|].
  destruct (decide (j = i)) as [->|].
  - rewrite Z.sub_diag in Hg. by injection Hg as ->.
  - apply (IH (i + 1) H j); [lia|].
    by replace (Z.to_nat (j - i)) with (S (Z.to_nat (j - (i + 1)))) in Hg by lia.
Qed.

(** What a scan from slot [i] returns, in terms of [pgw_at]. *)
Lemma scan_from_Some st i test j : 0 ≤ i →
  scan_from st i test = Some j →
  i ≤ j ∧ (∃ g, pgw_at st j = Some g ∧ test (gtp_pgw_ip g) = true) ∧
  ∀ j' g, i ≤ j' < j → pgw_at st j' = Some g → test (gtp_pgw_ip g) = false.
Proof.
  intros Hi H. apply scan_pgw_Some in H as (Hj & (g & Hg & Htg) & Hmin).
  rewrite lookup_drop in Hg. replace (Z.to_nat i + _)%nat with (Z.to_nat j) in Hg by lia.
  split; [lia|]. split.
  - exists g. unfold pgw_at. by rewrite decide_True by lia.
  - intros j' g' Hj' Hg'. unfold pgw_at in Hg'. rewrite decide_True in Hg' by lia.
    apply (Hmin j'); [done|]. rewrite lookup_drop.
    by replace (Z.to_nat i + _)%nat with (Z.to_nat j') by lia.
Qed.

Lemma scan_from_None st i test : 0 ≤ i →
  scan_from st i test = None →
  ∀ j g, i ≤ j → pgw_at st j = Some g → test (gtp_pgw_ip g) = false.
Proof.
  intros Hi H j g Hj Hg. unfold pgw_at in Hg. case_decide; [|done].
  eapply (scan_pgw_None _ _ _ _ H j); [lia|]. rewrite lookup_drop.
  by replace (Z.to_nat i + _)%nat with (Z.to_nat j) by lia.
Qed.

Lemma pgw_at_lt st i g : pgw_at st i = Some g → 0 ≤ i < end_ st.
Proof. unfold pgw_at. by case_decide. Qed.

Lemma pgw_at_is_Some st i : wf_pgws st → 0 ≤ i < end_ st → is_Some (pgw_at st i).
Proof.
  intros [Hl He Hc] Hi. unfold pgw_at. rewrite decide_True by done.
  apply lookup_lt_is_Some. lia.
Qed.

(** ** Adding *)

(** Slot [i] is free: deleted, or the first one never used. *)
Definition free_slot st (i : Z) : Prop :=
  (∃ g, pgw_at st i = Some g ∧ gtp_pgw_ip g = 0) ∨
  i = end_ st ∧ ∀ j, 0 ≤ j < end_ st → active st j.

Lemma add_pgw_spec st ip port eth sgi_port sgi_eth :
  wf_pgws st → (∃ i, free_slot st i ∧ i < Z.of_nat MAX_PGW_PER_NODE) →
  ∃ i st', gtp_manager_add_pgw st ip port eth sgi_port sgi_eth = Ret st' ∧
    free_slot st i ∧ (∀ j, 0 ≤ j < i → active st j) ∧
    pgw_at st' i = Some (mkPgw port eth sgi_port sgi_eth ip) ∧
    (∀ j, j ≠ i → pgw_at st' j = pgw_at st j) ∧ wf_pgws st' ∧
    st' = set_pgws st (pgw_list st') (current st) (end_ st').
Proof.
  intros Hwf (i0 & Hi0 & Hlt). pose proof Hwf as [Hl He Hc].
  unfold gtp_manager_add_pgw. destruct (scan_from st 0 (λ a, a =? 0)) as [i|] eqn:Hs.
  - apply scan_from_Some in Hs as (Hi & (g & Hg & Ht) & Hmin); [|lia].
    apply Z.eqb_eq in Ht. pose proof (pgw_at_lt _ _ _ Hg).
    exists i. eexists. split; [done|]. split_and!; [left; eauto| | | | |].
    + intros j Hj. destruct (pgw_at_is_Some st j Hwf) as [g' Hg']; [lia|].
      exists g'. split; [done|]. by apply (Hmin j) in Hg'; [apply Z.eqb_neq|].
    + unfold pgw_at. simpl. rewrite decide_True by lia. apply list_lookup_insert_eq. lia.
    + intros j Hj. unfold pgw_at. simpl. case_decide; [|done].
      apply list_lookup_insert_ne. lia.
    + split; simpl; [by rewrite length_insert|done..].
    + done.
  - assert (∀ j, 0 ≤ j < end_ st → active st j) as Hact.
    { intros j Hj. destruct (pgw_at_is_Some st j Hwf Hj) as [g' Hg']. exists g'.
      split; [done|]. apply Z.eqb_neq. eapply (scan_from_None st 0 _ _ Hs j); [lia|done].
      Unshelve. lia. }
    assert (end_ st < Z.of_nat MAX_PGW_PER_NODE) as Hend.
    { destruct Hi0 as [(g & Hg & Hz)|[-> _]]; [|done].
      destruct (Hact i0 (pgw_at_lt _ _ _ Hg)) as (g' & Hg' & Hnz). congruence. }
    rewrite (proj2 (Z.ltb_lt _ _) Hend). cbn [ovs_assert obind].
    assert (u16 (end_ st + 1) = end_ st + 1) as Hu.
    { apply u16_small. unfold MAX_PGW_PER_NODE in *. lia. }
    exists (end_ st). eexists. split; [done|].
    split_and!; [by right|done| | | |].
    + unfold pgw_at. simpl. rewrite Hu, decide_True by lia. apply list_lookup_insert_eq. lia.
    + intros j Hj. unfold pgw_at. simpl. rewrite Hu.
      destruct (decide (0 ≤ j < end_ st)).
      * rewrite decide_True by lia. apply list_lookup_insert_ne. lia.
      * by rewrite decide_False by lia.
    + split; simpl; [by rewrite length_insert|lia|done].
    + done.
Qed.

(** All 1024 slots in use: the assertion fails and the switch aborts. *)
Lemma add_pgw_full st ip port eth sgi_port sgi_eth :
  wf_pgws st → (∀ j, 0 ≤ j < Z.of_nat MAX_PGW_PER_NODE → active st j) →
  gtp_manager_add_pgw st ip port eth sgi_port sgi_eth = Fault AssertFail.
Proof.
  intros [Hl He Hc] Hact. unfold gtp_manager_add_pgw.
  destruct (scan_from st 0 (λ a, a =? 0)) as [i|] eqn:Hs.
  - apply scan_from_Some in Hs as (Hi & (g & Hg & Ht) & _); [|lia].
    pose proof (pgw_at_lt _ _ _ Hg). destruct (Hact i) as (g' & Hg' & Hnz); [lia|].
    apply Z.eqb_eq in Ht. congruence.
  - destruct (Hact (Z.of_nat MAX_PGW_PER_NODE - 1)) as (g & Hg & _); [unfold MAX_PGW_PER_NODE; lia|].
    pose proof (pgw_at_lt _ _ _ Hg). by rewrite (proj2 (Z.ltb_ge _ _)) by lia.
Qed.

(** ** Finding and deleting *)

(** [i] is the first slot with the address [ip]. *)
Definition first_with st (ip i : Z) : Prop :=
  (∃ g, pgw_at st i = Some g ∧ gtp_pgw_ip g = ip) ∧
  ∀ j g, j < i → pgw_at st j = Some g → gtp_pgw_ip g ≠ ip.

Lemma scan_ip st ip :
  match scan_from st 0 (λ a, a =? ip) with
  | Some i => first_with st ip i
  | None => ∀ j g, pgw_at st j = Some g → gtp_pgw_ip g ≠ ip
  end.
Proof.
  destruct (scan_from st 0 _) as [i|] eqn:Hs.
  - apply scan_from_Some in Hs as (Hi & (g & Hg & Ht) & Hmin); [|lia]. split.
    + exists g. split; [done|]. by apply Z.eqb_eq.
    + intros j g' Hj Hg'. apply Z.eqb_neq. apply (Hmin j); [|done].
      apply pgw_at_lt in Hg'. lia.
  - intros j g Hg. apply Z.eqb_neq. eapply (scan_from_None st 0 _ _ Hs j); [|done].
    apply pgw_at_lt in Hg. lia. Unshelve. lia.
Qed.

Lemma find_pgw_spec st ip :
  (gtp_manager_find_pgw st ip = -1 ∧ ∀ j g, pgw_at st j = Some g → gtp_pgw_ip g ≠ ip) ∨
  first_with st ip (gtp_manager_find_pgw st ip).
Proof.
  unfold gtp_manager_find_pgw. pose proof (scan_ip st ip) as Hs.
  destruct (scan_from st 0 _); [by right|by left].
Qed.

Lemma first_with_inj st ip i j : first_with st ip i → first_with st ip j → i = j.
Proof.
  intros [(g & Hg & Hip) Hmin] [(g' & Hg' & Hip') Hmin'].
  destruct (Z.lt_trichotomy i j) as [Hlt|[?|Hlt]]; [|done|].
  - by destruct (Hmin' i g Hlt Hg).
  - by destruct (Hmin j g' Hlt Hg').
Qed.

(** Deleting frees the first slot with the address, and no other. *)
Lemma del_pgw_spec st ip :
  wf_pgws st →
  let st' := gtp_manager_del_pgw st ip in
  wf_pgws st' ∧
  ((∀ j g, pgw_at st j = Some g → gtp_pgw_ip g ≠ ip) ∧ st' = st ∨
   ∃ i, first_with st ip i ∧ end_ st' = end_ st ∧
     (∃ g, pgw_at st' i = Some g ∧ gtp_pgw_ip g = 0) ∧
     ∀ j, j ≠ i → pgw_at st' j = pgw_at st j).
Proof.
  intros Hwf st'. subst st'. unfold gtp_manager_del_pgw. pose proof (scan_ip st ip) as Hs.
  destruct (scan_from st 0 _) as [i|]; [|by split; [done|left]].
  split.
  { destruct Hwf. split; simpl; [by rewrite length_alter|done..]. }
  right. exists i. split; [done|]. split; [done|]. destruct Hs as [(g & Hg & _) _].
  unfold pgw_at in *. simpl in *. split.
  - case_decide; [|done]. eexists. rewrite list_lookup_alter_eq, Hg. by split.
  - intros j Hj. case_decide; [|done].
    destruct (decide (0 ≤ j < end_ st)); [|done]. apply list_lookup_alter_ne. lia.
Qed.

(** ** Handing out gateways *)

Lemma get_pgw_wf st : wf_pgws st → wf_pgws (gtp_manager_get_pgw st).2.
Proof.
  intros [Hl He Hc]. unfold gtp_manager_get_pgw.
  destruct (scan_from st (current st) _) as [i|] eqn:Hs; split; simpl; try done.
  apply scan_from_Some in Hs as (Hi & (g & Hg & _) & _); [|lia]. apply pgw_at_lt in Hg.
  rewrite u16_small; unfold MAX_PGW_PER_NODE in *; lia.
Qed.

(** The first active slot from [current] on, else slot 0 as it is. *)
Lemma get_pgw_spec st : wf_pgws st →
  let '(i, st') := gtp_manager_get_pgw st in
  (current st ≤ i ∧ active st i ∧ (∀ j, current st ≤ j < i → ¬ active st j) ∨
   i = 0 ∧ (∀ j, current st ≤ j → ¬ active st j)) ∧
  st' = set_pgws st (pgw_list st) (i + 1) (end_ st).
Proof.
  intros Hwf. pose proof Hwf as [Hl He Hc]. unfold gtp_manager_get_pgw.
  destruct (scan_from st (current st) _) as [i|] eqn:Hs.
  - apply scan_from_Some in Hs as (Hi & (g & Hg & Ht) & Hmin); [|lia].
    pose proof (pgw_at_lt _ _ _ Hg). apply negb_true_iff, Z.eqb_neq in Ht.
    unfold MAX_PGW_PER_NODE in *. rewrite u16_small by lia. split; [|done]. left.
    split_and!; [lia|by exists g|]. intros j Hj (g' & Hg' & Hne).
    pose proof (Hmin j g' Hj Hg') as Hf. apply negb_false_iff, Z.eqb_eq in Hf. done.
  - split; [|done]. right. split; [done|]. intros j Hj (g & Hg & Hne).
    eapply (scan_from_None st (current st) _ ltac:(lia) Hs j) in Hg; [|done].
    by apply negb_false_iff, Z.eqb_eq in Hg.
Qed.

Lemma get_pgw_index st : wf_pgws st →
  0 ≤ (gtp_manager_get_pgw st).1 < Z.of_nat MAX_PGW_PER_NODE.
Proof.
  intros [Hl He Hc]. unfold gtp_manager_get_pgw.
  destruct (scan_from st (current st) _) as [i|] eqn:Hs; simpl; [|unfold MAX_PGW_PER_NODE; lia].
  apply scan_from_Some in Hs as (Hi & (g & Hg & _) & _); [|lia]. apply pgw_at_lt in Hg. lia.
Qed.

(** With no deleted slots the next gateway is the one at [current], and slot
    0 after the last one. *)
Lemma get_pgw_all_active st :
  wf_pgws st → 0 < end_ st → current st ≤ end_ st →
  (∀ j, 0 ≤ j < end_ st → active st j) →
  let '(i, st') := gtp_manager_get_pgw st in
  i = current st mod end_ st ∧ st' = set_pgws st (pgw_list st) (i + 1) (end_ st).
Proof.
  intros Hwf Hpos Hcur Hact. pose proof Hwf as [Hl He Hc]. unfold gtp_manager_get_pgw.
  destruct (scan_from st (current st) _) as [i|] eqn:Hs.
  - apply scan_from_Some in Hs as (Hi & (g & Hg & Ht) & Hmin); [|lia].
    pose proof (pgw_at_lt _ _ _ Hg). assert (i = current st) as ->.
    { destruct (decide (i = current st)); [done|].
      destruct (Hact (current st)) as (g' & Hg' & Hnz); [lia|].
      apply (Hmin (current st)) in Hg'; [|lia]. rewrite (proj2 (Z.eqb_neq _ _) Hnz) in Hg'. done. }
    rewrite Z.mod_small by lia. split; [done|]. f_equal.
    apply u16_small. unfold MAX_PGW_PER_NODE in *. lia.
  - assert (current st = end_ st) as Heq.
    { destruct (decide (current st < end_ st)); [|lia].
      destruct (Hact (current st)) as (g' & Hg' & Hnz); [lia|].
      eapply (scan_from_None st (current st) _ ltac:(lia) Hs (current st)) in Hg'; [|done].
      rewrite (proj2 (Z.eqb_neq _ _) Hnz) in Hg'. done. }
    by rewrite Heq, Z.mod_same by lia.
Qed.

(** [n] calls in a row. *)
Fixpoint get_pgws (n : nat) st : list Z :=
  match n with
  | O => []
  | S n => let '(i, st') := gtp_manager_get_pgw st in i :: get_pgws n st'
  end.

Lemma get_pgws_round_robin n st :
  wf_pgws st → 0 < end_ st → current st ≤ end_ st →
  (∀ j, 0 ≤ j < end_ st → active st j) →
  get_pgws n st = (λ k : nat, (current st + Z.of_nat k) mod end_ st) <$> seq 0 n.
Proof.
  revert st. induction n as [|n IH]; intros st Hwf Hpos Hcur Hact; [done|].
  cbn [get_pgws]. pose proof (get_pgw_all_active st Hwf Hpos Hcur Hact) as H.
  pose proof (get_pgw_wf st Hwf) as Hwf'.
  destruct (gtp_manager_get_pgw st) as [i st']. destruct H as [Hi ->]. simpl in Hwf'.
  pose proof (Z.mod_pos_bound (current st) (end_ st) Hpos).
  rewrite IH; simpl; [|done|done|lia|done].
  f_equal; [by rewrite Z.add_0_r|]. rewrite <-seq_shift.
  rewrite <-list_fmap_compose. apply list_fmap_ext. intros _ k _. simpl. subst i.
  replace (current st mod end_ st + 1 + Z.of_nat k)
    with (current st mod end_ st + (1 + Z.of_nat k)) by lia.
  rewrite Zplus_mod_idemp_l. f_equal. lia.
Qed.
End Pgw.
