(* ===== verification/GtpMaps.v ===== *)
(** * The TEID and UE address maps of the GTP manager

    [maps_rep st AM]: for each kind of key and each key, [AM] lists the nodes
    that the 32 hash maps of that kind hold for it, newest first.  The client
    side of the interface of MapIface.v. *)
From Stdlib Require Import ZArith Lia.
From stdpp Require Import base list gmap numbers option.
From S2P Require Import Prelude Hash CmapRefine CmapReplace MapIface GtpWire GtpManager.
Open Scope Z_scope.

Abbreviation keymap := (kind → Z → list positive).

(** What a heap object says about itself as a map node. *)
Definition node_key (h : gmap positive obj) (p : positive) : option (kind * Z) :=
  match h !! p with
  | Some (ONode k n) => Some (k, kn_key n)
  | _ => None
  end.

Lemma node_key_Some h p k key :
  node_key h p = Some (k, key) ↔ ∃ n, h !! p = Some (ONode k n) ∧ kn_key n = key.
Proof.
  unfold node_key. destruct (h !! p) as [[k' n| | |]|] eqn:E; simpl; naive_solver.
Qed.

Definition push (AM : keymap) (k : kind) (key : Z) (p : positive) : keymap :=
  λ k' key', if decide ((k, key) = (k', key')) then p :: AM k' key' else AM k' key'.
Definition pop (AM : keymap) (k : kind) (key : Z) : keymap :=
  λ k' key', if decide ((k, key) = (k', key')) then tail (AM k' key') else AM k' key'.

Lemma part_lt k key : (part k key < HASHMAP_PART_NUM)%nat.
Proof.
  unfold part, HASHMAP_PART_NUM. destruct k.
  - pose proof (land_mask_range key 5). change (2 ^ 5 - 1) with 0x1F in *. lia.
  - assert (0 ≤ Z.shiftr (Z.land key 0x1F000000) 24 < 32); [|lia].
    change 0x1F000000 with (Z.shiftl (Z.ones 5) 24).
    rewrite Z.shiftr_land, Z.shiftr_shiftl_l by lia.
    rewrite Z.shiftl_0_r, Z.land_ones by lia. apply Z.mod_pos_bound. lia.
Qed.

(** The nodes of a family of disjoint chains that are objects of a heap are
    no more than its objects. *)
Lemma total_le_size (A : gmap Z (list positive)) {V} (h : gmap positive V) :
  (∀ i l, A !! i = Some l → NoDup l) →
  (∀ i j l l' p, A !! i = Some l → A !! j = Some l' → p ∈ l → p ∈ l' → i = j) →
  (∀ i l p, A !! i = Some l → p ∈ l → p ∈ dom h) →
  (total A ≤ size h)%nat.
Proof.
  intros Hnd Hdis Hin. rewrite <-size_dom.
  assert (∃ X : gset positive, size X = total A ∧ (∀ p, p ∈ X ↔ ∃ i l, A !! i = Some l ∧ p ∈ l))
    as (X & <- & HX).
  { clear Hin. induction A as [|i l A Hi IH] using map_ind.
    - exists ∅. rewrite total_empty. split; [apply size_empty|]. set_solver.
    - destruct IH as (X & HX & Hel).
      + intros j l' Hj. apply (Hnd j). rewrite lookup_insert_ne; [done|congruence].
      + intros j j' l1 l2 p H1 H2. apply Hdis; rewrite lookup_insert_ne; congruence.
      + exists (list_to_set l ∪ X). rewrite total_insert_new by done.
        assert (NoDup l) as Hl by (apply (Hnd i), lookup_insert_eq).
        split.
        * rewrite size_union; [by rewrite size_list_to_set, HX|]. intros p Hp Hp'.
          apply elem_of_list_to_set in Hp. apply Hel in Hp' as (j & l' & Hj & Hp').
          assert (i ≠ j) by congruence.
          assert (i = j); [|done]. apply (Hdis i j l l' p); [apply lookup_insert_eq| |done..].
          by rewrite lookup_insert_ne.
        * intros p. rewrite elem_of_union, elem_of_list_to_set, Hel. split.
          -- intros [Hp|(j & l' & Hj & Hp)]; [exists i, l; by rewrite lookup_insert_eq|].
             exists j, l'. rewrite lookup_insert_ne; [done|congruence].
          -- intros (j & l' & Hj & Hp). apply lookup_insert_Some in Hj as [[<- <-]|[_ Hj]];
               [by left|right; eauto]. }
  apply subseteq_size. intros p Hp. apply HX in Hp as (i & l & Hl & Hp). by eapply Hin.
Qed.

Lemma filter_none {A} (P : A → Prop) `{∀ x, Decision (P x)} (l : list A) :
  (∀ x, x ∈ l → ¬ P x) → filter P l = [].
Proof.
  induction l as [|x l IH]; intros Hl; [done|].
  rewrite filter_cons, decide_False by (apply Hl; left).
  apply IH. intros y Hy. apply Hl. by right.
Qed.

Lemma filter_cons_split {A} (P : A → Prop) `{∀ x, Decision (P x)} (l : list A) p rest :
  filter P l = p :: rest →
  ∃ l1 l2, l = l1 ++ p :: l2 ∧ ∀ x, x ∈ l1 → ¬ P x.
Proof.
  induction l as [|x l IH]; [done|]. rewrite filter_cons. case_decide as Hx.
  - intros [= <- _]. exists [], l. split; [done|]. intros x' Hx'. by apply not_elem_of_nil in Hx'.
  - intros Hf. destruct (IH Hf) as (l1 & l2 & -> & Hl1). exists (x :: l1), l2.
    split; [done|]. intros y [->|Hy]%elem_of_cons; [done|]. by apply Hl1.
Qed.

Section Maps.
Context `{HF : HashFns} `{ML : MapLaws T}.
Implicit Types st : gtp T.

(** One of the 32 maps of kind [k]: its nodes are objects of the heap with a
    key of its part, chained under the hash of that key. *)
Record part_rep (h : gmap positive obj) (k : kind) (i : nat) (c : T) (AM : keymap)
    (A : gmap Z (list positive)) : Prop := {
  pr_rep : ml_rep c A;
  pr_node : ∀ hash l p, A !! hash = Some l → p ∈ l →
    ∃ key, node_key h p = Some (k, key) ∧ part k key = i ∧ key_hash key = hash;
  pr_keys : ∀ key, part k key = i →
    filter (λ p, node_key h p = Some (k, key)) (default [] (A !! key_hash key)) = AM k key;
}.

Record maps_rep st (AM : keymap) : Prop := {
  mr_len : ∀ k, length (maps st k) = HASHMAP_PART_NUM;
  mr_part : ∀ k i c, maps st k !! i = Some c → ∃ A, part_rep (heap st) k i c AM A;
}.

Lemma mr_map_at st AM k key : maps_rep st AM →
  ∃ c A, maps st k !! part k key = Some c ∧ map_at st k (part k key) = Ret c ∧
    part_rep (heap st) k (part k key) c AM A.
Proof.
  intros [Hlen Hp]. destruct (lookup_lt_is_Some_2 (maps st k) (part k key)) as [c Hc].
  { rewrite Hlen. apply part_lt. }
  destruct (Hp _ _ _ Hc) as [A HA]. exists c, A. unfold map_at. by rewrite Hc.
Qed.

Lemma part_rep_elem h k i c AM A hash l p key :
  part_rep h k i c AM A → A !! hash = Some l → p ∈ l → node_key h p = Some (k, key) →
  p ∈ AM k key ∧ part k key = i ∧ key_hash key = hash.
Proof.
  intros HP Hl Hp Hk. destruct (pr_node _ _ _ _ _ _ HP _ _ _ Hl Hp) as (key' & Hk' & Hi & Hh).
  assert (key' = key) as -> by congruence. split; [|done].
  rewrite <-(pr_keys _ _ _ _ _ _ HP key Hi), Hh, Hl. by apply list_elem_of_filter.
Qed.

(** The nodes of [AM] are live map nodes with the right key, once each. *)
Lemma maps_rep_key st AM k key p :
  maps_rep st AM → p ∈ AM k key → node_key (heap st) p = Some (k, key).
Proof.
  intros HM Hp. destruct (mr_map_at st AM k key HM) as (c & A & _ & _ & HP).
  rewrite <-(pr_keys _ _ _ _ _ _ HP key eq_refl) in Hp. by apply list_elem_of_filter in Hp as [? _].
Qed.

Lemma maps_rep_NoDup st AM k key : maps_rep st AM → NoDup (AM k key).
Proof.
  intros HM. destruct (mr_map_at st AM k key HM) as (c & A & _ & _ & HP).
  rewrite <-(pr_keys _ _ _ _ _ _ HP key eq_refl). apply list.NoDup_filter.
  destruct (A !! key_hash key) as [l|] eqn:Hl; [|apply NoDup_nil_2].
  by eapply (ml_nodup _ _ _ _ (pr_rep _ _ _ _ _ _ HP)).
Qed.

(** The heap may change as long as the nodes in the maps keep their keys. *)
Lemma part_rep_frame h h' k i c AM A :
  part_rep h k i c AM A →
  (∀ key p, p ∈ AM k key → node_key h' p = node_key h p) →
  part_rep h' k i c AM A.
Proof.
  intros HP Hsame.
  assert (∀ hash l p, A !! hash = Some l → p ∈ l → node_key h' p = node_key h p) as Heq.
  { intros hash l p Hl Hp. destruct (pr_node _ _ _ _ _ _ HP _ _ _ Hl Hp) as (key & Hk & _).
    apply (Hsame key). by eapply part_rep_elem. }
  split; [apply HP| |].
  - intros hash l p Hl Hp. rewrite (Heq hash l p Hl Hp). by eapply (pr_node _ _ _ _ _ _ HP).
  - intros key Hi. rewrite <-(pr_keys _ _ _ _ _ _ HP key Hi).
    destruct (A !! key_hash key) as [l|] eqn:Hl; [|done]. simpl.
    assert (∀ p, p ∈ l → node_key h' p = node_key h p) as Hl' by (intros; by eapply Heq).
    clear -Hl'. induction l as [|p l IH]; [done|]. rewrite !filter_cons, Hl' by left.
    rewrite IH; [done|]. intros q Hq. apply Hl'. by right.
Qed.

Lemma maps_rep_frame st st' AM :
  maps_rep st AM → (∀ k, maps st' k = maps st k) →
  (∀ k key p, p ∈ AM k key → node_key (heap st') p = node_key (heap st) p) →
  maps_rep st' AM.
Proof.
  intros [Hlen Hp] Hm Hsame. split.
  - intros k. by rewrite Hm.
  - intros k i c Hc. rewrite Hm in Hc. destruct (Hp _ _ _ Hc) as [A HA].
    exists A. eapply part_rep_frame; [done|]. intros. by eapply Hsame.
Qed.

Lemma maps_rep_ext st AM AM' :
  maps_rep st AM → (∀ k key, AM k key = AM' k key) → maps_rep st AM'.
Proof.
  intros [Hlen Hp] Heq. split; [done|]. intros k i c Hc.
  destruct (Hp _ _ _ Hc) as [A [HR Hn Hk]]. exists A. split; [done..|].
  intros key Hi. rewrite <-Heq. by apply Hk.
Qed.

(** ** Lookup *)

Lemma find_node_spec n k st c AM A hash l1 l2 key :
  part_rep (heap st) k (part k key) c AM A → A !! hash = Some (l1 ++ l2) →
  (length l2 < n)%nat →
  find_node n k st c (head l2) key =
    Ret (head (filter (λ p, node_key (heap st) p = Some (k, key)) l2)).
Proof.
  intros HP. revert l1 n. induction l2 as [|p l2 IH]; intros l1 n Hl Hn;
    (destruct n as [|n]; [simpl in Hn; lia|]); [done|]. cbn [find_node head].
  destruct (pr_node _ _ _ _ _ _ HP _ _ p Hl) as (key' & Hk & _).
  { apply elem_of_app. right. left. }
  rewrite filter_cons, Hk. apply node_key_Some in Hk as (nd & Hnd & Hkey).
  unfold read_node. rewrite Hnd, decide_True by done. cbn [obind]. rewrite Hkey.
  destruct (Z.eqb_spec key' key) as [->|Hne].
  - by rewrite decide_True.
  - rewrite decide_False by congruence.
    rewrite (ml_next _ _ _ _ _ _ (pr_rep _ _ _ _ _ _ HP) Hl). cbn [obind].
    apply (IH (l1 ++ [p])); [by rewrite <-app_assoc|]. simpl in Hn. lia.
Qed.

Lemma chain_le_heap h k i c AM A hash l :
  part_rep h k i c AM A → A !! hash = Some l → (length l ≤ size h)%nat.
Proof.
  intros HP Hl. rewrite <-size_dom, <-(size_list_to_set (C := gset positive)).
  - apply subseteq_size. intros p Hp. apply elem_of_list_to_set in Hp.
    destruct (pr_node _ _ _ _ _ _ HP _ _ _ Hl Hp) as (key & Hk & _).
    apply node_key_Some in Hk as (n & Hn & _). by eapply elem_of_dom_2.
  - by eapply (ml_nodup _ _ _ _ (pr_rep _ _ _ _ _ _ HP)).
Qed.

(** The search returns the newest node with the key. *)
Lemma lookup_node_spec st AM k key :
  maps_rep st AM → lookup_node k st key = Ret (head (AM k key)).
Proof.
  intros HM. destruct (mr_map_at st AM k key HM) as (c & A & _ & Hat & HP).
  unfold lookup_node. rewrite Hat. cbn [obind].
  rewrite (ml_find _ _ _ (pr_rep _ _ _ _ _ _ HP)). cbn [obind].
  rewrite <-(pr_keys _ _ _ _ _ _ HP key eq_refl).
  destruct (A !! key_hash key) as [l|] eqn:Hl; [|done]. cbn [mbind option_bind default from_option id].
  eapply (find_node_spec _ _ _ _ _ _ _ [] l); [done|done|].
  pose proof (chain_le_heap _ _ _ _ _ _ _ _ HP Hl). simpl. lia.
Qed.

(** ** Insertion *)

(** The static variables other than the maps. *)
Definition globals st :=
  (ovs_id st, ovs_total st, ovs_phy_port st, pgw_fastpath st, pgw_list st,
   current st, end_ st).

(** Every object is below the next address of the allocator. *)
Definition brk_ok st : Prop := ∀ p, p ∈ dom (heap st) → (p < brk st)%positive.

Lemma brk_ok_fresh st : brk_ok st → heap st !! brk st = None.
Proof.
  intros Hb. apply not_elem_of_dom. intros Hin. specialize (Hb _ Hin). lia.
Qed.

Lemma maps_set_maps st k l s k' :
  maps (set_maps st k l s) k' = if decide (k' = k) then l else maps st k'.
Proof. by destruct k, k'. Qed.

Lemma maps_xmalloc st o k : maps (xmalloc st o).2 k = maps st k.
Proof. by destruct k. Qed.

(** A map that has gained a node with a new address. *)
Lemma part_rep_push h k c c' AM A key tun p rc :
  h !! p = None → part_rep h k (part k key) c AM A →
  ml_rep c' (<[key_hash key := p :: default [] (A !! key_hash key)]> A) →
  part_rep (<[p := ONode k (mkNode key tun rc)]> h) k (part k key) c' (push AM k key p)
    (<[key_hash key := p :: default [] (A !! key_hash key)]> A).
Proof.
  intros Hp HP Hrep. set (h' := <[p := _]> h).
  assert (node_key h' p = Some (k, key)) as Hkp.
  { unfold node_key, h'. by rewrite lookup_insert_eq. }
  assert (∀ hash l q, A !! hash = Some l → q ∈ l → node_key h' q = node_key h q ∧ q ≠ p) as Hold.
  { intros hash l q Hl Hq. destruct (pr_node _ _ _ _ _ _ HP _ _ _ Hl Hq) as (key' & Hk & _).
    apply node_key_Some in Hk as (n & Hn & _). assert (q ≠ p) by congruence.
    split; [|done]. unfold node_key, h'. by rewrite lookup_insert_ne. }
  assert (∀ key' (l : list positive), (∀ q, q ∈ l → node_key h' q = node_key h q) →
    filter (λ q, node_key h' q = Some (k, key')) l =
    filter (λ q, node_key h q = Some (k, key')) l) as Hfilter.
  { intros key' l Hl. induction l as [|q l IH]; [done|]. rewrite !filter_cons, Hl by left.
    rewrite IH; [done|]. intros q' Hq'. apply Hl. by right. }
  split; [done| |].
  - intros hash l q Hl Hq. apply lookup_insert_Some in Hl as [[<- <-]|[Hne Hl]].
    + apply elem_of_cons in Hq as [->|Hq]; [by exists key|].
      destruct (A !! key_hash key) as [l|] eqn:Hl; [|by apply not_elem_of_nil in Hq].
      destruct (Hold _ _ _ Hl Hq) as [-> _]. by eapply (pr_node _ _ _ _ _ _ HP).
    + destruct (Hold _ _ _ Hl Hq) as [-> _]. by eapply (pr_node _ _ _ _ _ _ HP).
  - intros key' Hi. unfold push. destruct (decide (key_hash key' = key_hash key)) as [Heq|Hne].
    + rewrite Heq, lookup_insert_eq. cbn [default from_option id]. rewrite filter_cons, Hkp.
      assert (filter (λ q, node_key h' q = Some (k, key')) (default [] (A !! key_hash key))
        = AM k key') as ->.
      { rewrite <-(pr_keys _ _ _ _ _ _ HP key' Hi), Heq. apply Hfilter. intros q Hq.
        destruct (A !! key_hash key) as [l|] eqn:Hl; [|by apply not_elem_of_nil in Hq].
        by apply (Hold _ _ _ Hl). }
      destruct (decide (key' = key)) as [->|Hk].
      * by rewrite !decide_True.
      * rewrite !decide_False; [done|naive_solver..].
    + rewrite lookup_insert_ne by congruence. rewrite decide_False; [|naive_solver].
      rewrite <-(pr_keys _ _ _ _ _ _ HP key' Hi). apply Hfilter. intros q Hq.
      destruct (A !! key_hash key') as [l|] eqn:Hl; [|by apply not_elem_of_nil in Hq].
      by apply (Hold _ _ _ Hl).
Qed.

(** Replacing one of the 32 maps. *)
Lemma maps_rep_set st AM AM' k i c' s A' :
  maps_rep st AM → (i < HASHMAP_PART_NUM)%nat → part_rep (heap st) k i c' AM' A' →
  (∀ k' key, ¬ (k' = k ∧ part k key = i) → AM' k' key = AM k' key) →
  maps_rep (set_maps st k (<[i := c']> (maps st k)) s) AM'.
Proof.
  intros [Hlen Hp] Hi HP Heq. split.
  - intros k'. rewrite maps_set_maps. case_decide; [subst|done]. by rewrite length_insert.
  - intros k' j c Hc. rewrite maps_set_maps in Hc.
    replace (heap (set_maps _ _ _ _)) with (heap st) by (by destruct k).
    case_decide as Hk; [subst k'|].
    + destruct (decide (j = i)) as [->|Hne].
      * rewrite list_lookup_insert_eq in Hc by (by rewrite Hlen). injection Hc as <-. eauto.
      * rewrite list_lookup_insert_ne in Hc by done. destruct (Hp _ _ _ Hc) as [A [HR Hn Hk]].
        exists A. split; [done..|]. intros key Hj. rewrite Heq; [by apply Hk|]. naive_solver.
    + destruct (Hp _ _ _ Hc) as [A [HR Hn Hkeys]].
      exists A. split; [done..|]. intros key Hj. rewrite Heq; [by apply Hkeys|]. naive_solver.
Qed.

Lemma mr_total st AM k i c A :
  part_rep (heap st) k i c AM A → (total A ≤ size (heap st))%nat.
Proof.
  intros HP. apply total_le_size.
  - intros. by eapply (ml_nodup _ _ _ _ (pr_rep _ _ _ _ _ _ HP)).
  - intros *. apply (ml_disj _ _ _ _ _ _ _ (pr_rep _ _ _ _ _ _ HP)).
  - intros h l p Hl Hp. destruct (pr_node _ _ _ _ _ _ HP _ _ _ Hl Hp) as (key & Hk & _).
    apply node_key_Some in Hk as (n & Hn & _). by eapply elem_of_dom_2.
Qed.

Lemma part_fresh st AM k i c A p :
  part_rep (heap st) k i c AM A → heap st !! p = None → fresh_node A p.
Proof.
  intros HP Hp h l Hl Hin. destruct (pr_node _ _ _ _ _ _ HP _ _ _ Hl Hin) as (key & Hk & _).
  apply node_key_Some in Hk as (n & Hn & _). congruence.
Qed.

(** Only the map with the part of [key] may have changed. *)
Definition other_maps st st' (k : kind) (key : Z) : Prop :=
  ∀ k' j, (k', j) ≠ (k, part k key) → maps st' k' !! j = maps st k' !! j.

Lemma other_maps_set st st1 k key c s :
  (∀ k', maps st1 k' = maps st k') →
  other_maps st (set_maps st1 k (<[part k key := c]> (maps st1 k)) s) k key.
Proof.
  intros Heq k' j Hne. rewrite maps_set_maps. case_decide; [subst k'|by rewrite Heq].
  rewrite list_lookup_insert_ne by congruence. by rewrite Heq.
Qed.

(** What [put_node] does to the state. *)
Definition put_post st AM k key tun : Z * gtp T → Prop := λ '(_, st'),
  maps_rep st' (push AM k key (brk st)) ∧
  heap st' = <[brk st := ONode k (mkNode key tun 1)]> (heap st) ∧
  brk st' = Pos.succ (brk st) ∧ globals st' = globals st ∧ other_maps st st' k key.

Lemma put_node_safe fuel k st AM key tun :
  maps_rep st AM → brk_ok st → Z.of_nat (size (heap st)) < 2 ^ 30 →
  safe (put_node fuel k st key tun) (put_post st AM k key tun).
Proof.
  intros HM Hb Hsz. destruct (mr_map_at st AM k key HM) as (c & A & Hc & Hat & HP).
  pose proof (brk_ok_fresh _ Hb) as Hfresh. pose proof (mr_total _ _ _ _ _ _ HP) as Htot.
  unfold put_node. rewrite Hat. cbn [obind xmalloc]. eapply safe_bind.
  { apply (ml_insert _ _ _ _ _ _ (pr_rep _ _ _ _ _ _ HP)); [by eapply part_fresh|lia]. }
  intros [[s c'] ret] Hrep. simpl. set (st1 := mkGtp _ _ _ _ _ _ _ _ _ _ _ _).
  split_and!; [|by destruct k..|by apply (other_maps_set _ st1); intros []].
  assert (maps_rep st1 AM) as HM1.
  { eapply maps_rep_frame; [done|by intros []|]. intros k' key' p Hp. simpl.
    pose proof (maps_rep_key _ _ _ _ _ HM Hp) as Hk.
    apply node_key_Some in Hk as (n & Hn & _). unfold node_key.
    rewrite lookup_insert_ne by congruence. done. }
  assert (maps st1 k = maps st k) as Hmaps by (by destruct k).
  change (maps_rep (set_maps st1 k (<[part k key := c']> (maps st1 k)) s)
            (push AM k key (brk st))).
  eapply (maps_rep_set st1); [done|apply part_lt| |].
  - by eapply part_rep_push.
  - intros k' key' Hne. unfold push. rewrite decide_False; [done|]. naive_solver.
Qed.

(** The hash table that would take [key] has room for its hash. *)
Definition room_for st (k : kind) (key : Z) : Prop :=
  ∀ c, maps st k !! part k key = Some c → ml_room c (key_hash key).

(** It returns when there is room. *)
Lemma put_node_wp tot fuel k st AM key tun :
  maps_rep st AM → brk_ok st → Z.of_nat (size (heap st)) < 2 ^ 30 →
  (tot = true → (0 < fuel)%nat ∧ room_for st k key) →
  wp tot (put_node fuel k st key tun) (put_post st AM k key tun).
Proof.
  intros HM Hb Hsz Htot. apply wp_of_safe; [by apply put_node_safe|]. intros Ht.
  destruct (Htot Ht) as [Hfuel Hroom]. destruct fuel as [|fuel]; [lia|].
  destruct (mr_map_at st AM k key HM) as (c & A & Hc & Hat & HP).
  pose proof (brk_ok_fresh _ Hb) as Hfresh. pose proof (mr_total _ _ _ _ _ _ HP) as Hle.
  destruct (ml_insert_returns fuel (seed st) c A (brk st) (key_hash key)
    (pr_rep _ _ _ _ _ _ HP)) as ([[s c'] ret] & Heq & _);
    [by eapply part_fresh|lia|by apply Hroom|].
  unfold put_node. rewrite Hat. cbn [obind xmalloc]. simpl seed.
  rewrite Heq. by eexists.
Qed.

(** ** Taking and dropping references *)

Lemma get_node_spec k st AM key :
  maps_rep st AM →
  get_node k st key =
    match AM k key with
    | [] => Ret (None, st)
    | p :: _ =>
        let* nd := read_node st k p in
        Ret (Some p, write_node st k p
               (mkNode (kn_key nd) (kn_tunnel nd) (u8 (kn_ref_count nd + 1))))
    end.
Proof.
  intros HM. unfold get_node. rewrite (lookup_node_spec _ _ _ _ HM). cbn [obind].
  by destruct (AM k key).
Qed.

(** The heap after a reference to the node [p] has been dropped. *)
Definition unref_heap (h : gmap positive obj) (k : kind) (p : positive) : gmap positive obj :=
  match h !! p with
  | Some (ONode _ n) =>
      if decide (kn_ref_count n = 1) then
        match h !! kn_tunnel n with
        | Some (OTunnel t) =>
            if decide (t_ref_count t = Some 1) then delete p (delete (kn_tunnel n) h)
            else delete p (<[kn_tunnel n := OTunnel (mkTunnel (teid4_sgw_c t) (teid5_sgw_u t)
                   (teid2_pgw_c t) (teid3_pgw_u t) (ue_ip t) (pgw_index t)
                   ((λ r, r - 1) <$> t_ref_count t))]> h)
        | _ => h
        end
      else <[p := ONode k (mkNode (kn_key n) (kn_tunnel n) (kn_ref_count n - 1))]> h
  | _ => h
  end.

Lemma unref_node_spec st k p n :
  heap st !! p = Some (ONode k n) → 1 ≤ kn_ref_count n < 2 ^ 8 →
  (kn_ref_count n = 1 → ∃ t r, heap st !! kn_tunnel n = Some (OTunnel t) ∧
     t_ref_count t = Some r) →
  unref_node k st p = Ret (set_heap st (unref_heap (heap st) k p)).
Proof.
  intros Hp Hrc Ht. unfold unref_node, read_node, unref_heap.
  rewrite Hp, decide_True by done. cbn [obind].
  cbn [kn_ref_count kn_tunnel kn_key]. rewrite u8_small by lia.
  destruct (decide (kn_ref_count n = 1)) as [E|E].
  - destruct (Ht E) as (t & r & Htun & Hr).
    assert (kn_tunnel n ≠ p) as Hne by congruence.
    rewrite (proj2 (Z.eqb_eq _ _)) by lia.
    unfold read_tunnel, write_node. simpl heap. rewrite lookup_insert_ne, Htun by done.
    cbn [obind]. rewrite Hr. cbn [obind init_value]. unfold write_tunnel, free. simpl heap.
    destruct (Z.eqb_spec (r - 1) 0) as [E1|E1].
    + rewrite lookup_insert_eq. cbn [obind]. simpl heap.
      rewrite lookup_delete_ne, lookup_insert_ne, lookup_insert_eq by done.
      rewrite decide_True by (f_equal; lia). f_equal. unfold set_heap. simpl. f_equal.
      rewrite delete_insert_eq, (delete_delete _ p), delete_insert_eq, delete_delete. done.
    + cbn [obind]. simpl heap. rewrite lookup_insert_ne, lookup_insert_eq by done.
      rewrite decide_False by (intros [= ?]; lia). f_equal. unfold set_heap. simpl. f_equal.
      rewrite insert_insert_ne, delete_insert_eq by done. done.
  - rewrite (proj2 (Z.eqb_neq _ _)) by lia. done.
Qed.

(** ** Removal *)

(** A map that has lost the newest node of a key. *)
Lemma part_rep_pop h k c c' AM A key p rest l1 l2 :
  part_rep h k (part k key) c AM A → AM k key = p :: rest →
  A !! key_hash key = Some (l1 ++ p :: l2) →
  (∀ q, q ∈ l1 → node_key h q ≠ Some (k, key)) →
  ml_rep c' (set_chain A (key_hash key) (l1 ++ l2)) →
  part_rep h k (part k key) c' (pop AM k key) (set_chain A (key_hash key) (l1 ++ l2)).
Proof.
  intros HP HAM HA Hl1 Hrep.
  assert (node_key h p = Some (k, key)) as Hkp.
  { assert (p ∈ AM k key) as Hp by (rewrite HAM; left).
    rewrite <-(pr_keys _ _ _ _ _ _ HP key eq_refl) in Hp.
    by apply list_elem_of_filter in Hp as [? _]. }
  split; [done| |].
  - intros hash l q [(-> & -> & _)|[Hne Hl]]%lookup_set_chain_Some Hq.
    + eapply (pr_node _ _ _ _ _ _ HP); [done|]. set_solver.
    + by eapply (pr_node _ _ _ _ _ _ HP).
  - intros key' Hi. destruct (decide (key_hash key' = key_hash key)) as [Heq|Hne].
    + assert (default [] (set_chain A (key_hash key) (l1 ++ l2) !! key_hash key') = l1 ++ l2) as ->.
      { rewrite Heq. unfold set_chain. rewrite lookup_partial_alter_eq.
        by destruct (l1 ++ l2). }
      pose proof (pr_keys _ _ _ _ _ _ HP key' Hi) as Hk. rewrite Heq, HA in Hk.
      cbn [default from_option id] in Hk. rewrite list.filter_app, filter_cons in Hk.
      rewrite list.filter_app. unfold pop. destruct (decide (key' = key)) as [->|Hkne].
      * rewrite decide_True in Hk by done. rewrite decide_True by done.
        assert (filter (λ q, node_key h q = Some (k, key)) l1 = []) as Hnil.
        { apply filter_none. intros q Hq. by apply Hl1. }
        rewrite Hnil in *. simpl in Hk |- *. by rewrite <-Hk.
      * rewrite decide_False in Hk by congruence. by rewrite decide_False by naive_solver.
    + unfold pop. rewrite decide_False by naive_solver.
      rewrite <-(pr_keys _ _ _ _ _ _ HP key' Hi).
      unfold set_chain. by rewrite lookup_partial_alter_ne by congruence.
Qed.

(** [found_node] is unset when there is no node with the key. *)
Lemma del_node_none fuel k st AM key :
  maps_rep st AM → AM k key = [] → del_node fuel k st key = Fault UninitRead.
Proof.
  intros HM HAM. unfold del_node. rewrite (lookup_node_spec _ _ _ _ HM), HAM. done.
Qed.

(** What [del_node] does to the state when [p] is the newest node. *)
Definition del_post st AM k key p : Z * gtp T → Prop := λ '(_, st'),
  maps_rep st' (pop AM k key) ∧ heap st' = unref_heap (heap st) k p ∧
  brk st' = brk st ∧ globals st' = globals st ∧ other_maps st st' k key.

(** The node can be given up: it and its tunnel are counted. *)
Definition counted (h : gmap positive obj) (k : kind) (p : positive) : Prop :=
  ∃ n t r, h !! p = Some (ONode k n) ∧ 1 ≤ kn_ref_count n < 2 ^ 8 ∧
    h !! kn_tunnel n = Some (OTunnel t) ∧ t_ref_count t = Some r.

Lemma node_key_unref h k p q : counted h k p → q ≠ p →
  node_key (unref_heap h k p) q = node_key h q.
Proof.
  intros (n & t & r & Hp & Hrc & Ht & Hr) Hne. unfold unref_heap. rewrite Hp, Ht.
  unfold node_key. case_decide.
  - destruct (decide (q = kn_tunnel n)) as [->|Hq].
    + case_decide; rewrite lookup_delete_ne by done;
        [by rewrite lookup_delete_eq, Ht|by rewrite lookup_insert_eq, Ht].
    + case_decide; rewrite lookup_delete_ne by done;
        [by rewrite lookup_delete_ne|by rewrite lookup_insert_ne].
  - by rewrite lookup_insert_ne.
Qed.

(** After the removal from the map, the rest of [del_node]. *)
Lemma del_node_finish st AM k key p rest c' s A :
  maps_rep st AM → AM k key = p :: rest → counted (heap st) k p →
  part_rep (heap st) k (part k key) c' (pop AM k key) A →
  let st1 := set_maps st k (<[part k key := c']> (maps st k)) s in
  ∃ st', unref_node k st1 p = Ret st' ∧ maps_rep st' (pop AM k key) ∧
    heap st' = unref_heap (heap st) k p ∧ brk st' = brk st ∧ globals st' = globals st ∧
    other_maps st st' k key.
Proof.
  intros HM HAM Hcnt HP st1. pose proof Hcnt as (n & t & r & Hp & Hrc & Ht & Hr).
  assert (maps_rep st1 (pop AM k key)) as HM1.
  { eapply (maps_rep_set st); [done|apply part_lt|done|]. intros k' key' Hne. unfold pop.
    rewrite decide_False; [done|]. naive_solver. }
  assert (heap st1 = heap st) as Hh by (by destruct k).
  rewrite (unref_node_spec st1 k p n); [|by rewrite Hh|done|rewrite Hh; eauto].
  eexists. split; [done|]. rewrite Hh.
  split_and!; [|done|by destruct k|by destruct k|].
  2: { intros k' j Hne. rewrite <-(other_maps_set st st k key c' s (λ _, eq_refl) k' j Hne).
       by destruct k, k'. }
  eapply maps_rep_frame; [done|by intros []|]. intros k' key' q Hq. simpl.
  rewrite Hh. apply node_key_unref; [done|]. intros ->.
  pose proof (maps_rep_NoDup st AM k key HM) as Hnd. rewrite HAM in Hnd.
  apply list.NoDup_cons in Hnd as [Hnd _].
  assert (node_key (heap st) p = Some (k, key)) as Hkp.
  { apply (maps_rep_key st AM); [done|]. rewrite HAM. left. }
  pose proof (maps_rep_key _ _ _ _ _ HM1 Hq) as Hkq. rewrite Hh in Hkq.
  assert (k' = k ∧ key' = key) as [-> ->] by (split; congruence).
  unfold pop in Hq. by rewrite decide_True, HAM in Hq by done.
Qed.

Lemma del_node_safe fuel k st AM key p rest :
  maps_rep st AM → AM k key = p :: rest → counted (heap st) k p →
  safe (del_node fuel k st key) (del_post st AM k key p).
Proof.
  intros HM HAM Hcnt. destruct (mr_map_at st AM k key HM) as (c & A & Hc & Hat & HP).
  pose proof (pr_keys _ _ _ _ _ _ HP key eq_refl) as Hk. rewrite HAM in Hk.
  apply filter_cons_split in Hk as (l1 & l2 & Hl & Hl1).
  assert (A !! key_hash key = Some (l1 ++ p :: l2)) as HA.
  { destruct (A !! key_hash key); simpl in Hl; [by subst|by destruct l1]. }
  unfold del_node. rewrite (lookup_node_spec _ _ _ _ HM), HAM. cbn [obind head init_value].
  rewrite Hat. cbn [obind]. eapply safe_bind.
  { by eapply (ml_remove _ _ _ _ _ _ _ _ (pr_rep _ _ _ _ _ _ HP)). }
  intros [[s c'] ret] Hrep.
  destruct (del_node_finish st AM k key p rest c' s (set_chain A (key_hash key) (l1 ++ l2))
    HM HAM Hcnt) as (st' & Heq & Hpost).
  { by eapply part_rep_pop. }
  cbn [obind]. rewrite Heq. simpl. done.
Qed.

(** The hash table that holds [key] does not shrink when it loses a node. *)
Definition slack_for st (k : kind) (key : Z) : Prop :=
  ∀ c, maps st k !! part k key = Some c → ml_slack c.

Lemma del_node_wp tot fuel k st AM key p rest :
  maps_rep st AM → AM k key = p :: rest → counted (heap st) k p →
  (tot = true → slack_for st k key) →
  wp tot (del_node fuel k st key) (del_post st AM k key p).
Proof.
  intros HM HAM Hcnt Htot. apply wp_of_safe; [by eapply del_node_safe|]. intros Ht.
  specialize (Htot Ht). destruct (mr_map_at st AM k key HM) as (c & A & Hc & Hat & HP).
  pose proof (pr_keys _ _ _ _ _ _ HP key eq_refl) as Hk. rewrite HAM in Hk.
  apply filter_cons_split in Hk as (l1 & l2 & Hl & Hl1).
  assert (A !! key_hash key = Some (l1 ++ p :: l2)) as HA.
  { destruct (A !! key_hash key); simpl in Hl; [by subst|by destruct l1]. }
  destruct (ml_remove_returns fuel (seed st) c A _ _ _ _ (pr_rep _ _ _ _ _ _ HP) HA
    (Htot _ Hc)) as ([[s c'] ret] & Heq & _).
  pose proof (ml_remove fuel (seed st) c A _ _ _ _ (pr_rep _ _ _ _ _ _ HP) HA) as Hrm.
  unfold del_node. rewrite (lookup_node_spec _ _ _ _ HM), HAM.
  cbn [obind head init_value]. rewrite Hat. cbn [obind]. rewrite Heq in *.
  cbn [obind]. destruct (del_node_finish st AM k key p rest c' s
    (set_chain A (key_hash key) (l1 ++ l2)) HM HAM Hcnt) as (st' & Hun & _).
  { eapply part_rep_pop; done. }
  rewrite Hun. by eexists.
Qed.
End Maps.
