(* ===== verification/GtpSessions.v ===== *)
(** * Sessions: what the GTP manager keeps for each PDN connection

    The abstract state is the list of sessions, newest first.  [gtp_rep st Ss
    base] says that the maps and the heap of [st] hold exactly the sessions
    [Ss], next to unrelated objects [base].  A create session response adds a
    session, a delete session response removes one and all its objects, and
    forwarding a packet changes nothing. *)
From Stdlib Require Import ZArith Lia.
From stdpp Require Import base list gmap numbers option.
From S2P Require Import Prelude Hash CmapRefine CmapReplace MapIface GtpWire GtpManager GtpPgw GtpMaps.
Open Scope Z_scope.

(** A session and the addresses of its objects. *)
Record session := mkSession {
  s_t2 : Z;
  s_t4 : Z;
  s_t5 : Z;
  s_ueip : Z;
  s_pgw : Z;
  s_tun : positive;
  s_n4 : positive;
  s_n5 : positive;
  s_nu : positive;
  s_n2 : positive;
}.

Definition sess_tunnel (s : session) (refs : Z) : obj :=
  OTunnel (mkTunnel (s_t4 s) (s_t5 s) (s_t2 s) None (s_ueip s) (Some (s_pgw s)) (Some refs)).

(** Its map entries, in the order in which a search meets them. *)
Definition sess_entries (s : session) : list (kind * Z * positive) :=
  [(KTeid, s_t2 s, s_n2 s); (KUeip, s_ueip s, s_nu s);
   (KTeid, s_t5 s, s_n5 s); (KTeid, s_t4 s, s_n4 s)].

Definition entry_obj (s : session) (e : kind * Z * positive) : positive * obj :=
  (e.2, ONode e.1.1 (mkNode e.1.2 (s_tun s) 1)).

Definition sess_objs (s : session) : list (positive * obj) :=
  (s_tun s, sess_tunnel s 4) :: (entry_obj s <$> sess_entries s).

Definition objs (Ss : list session) : list (positive * obj) := concat (sess_objs <$> Ss).

(** The nodes of the entries [l] with a given key. *)
Definition with_key (k : kind) (key : Z) (l : list (kind * Z * positive)) : list positive :=
  (filter (λ e : kind * Z * positive, e.1 = (k, key)) l).*2.

(** The maps that hold the sessions. *)
Definition am (Ss : list session) : keymap := λ k key,
  with_key k key (concat (sess_entries <$> Ss)).

Lemma with_key_app k key l1 l2 : with_key k key (l1 ++ l2) = with_key k key l1 ++ with_key k key l2.
Proof. unfold with_key. by rewrite list.filter_app, fmap_app. Qed.

Lemma with_key_cons_eq k key p l : with_key k key ((k, key, p) :: l) = p :: with_key k key l.
Proof. unfold with_key. by rewrite filter_cons_True by done. Qed.
Lemma with_key_cons_ne k key k' key' p l :
  (k', key') ≠ (k, key) → with_key k key ((k', key', p) :: l) = with_key k key l.
Proof. intros Hne. unfold with_key. by rewrite filter_cons_False by done. Qed.

Lemma am_app Ss1 Ss2 k key : am (Ss1 ++ Ss2) k key = am Ss1 k key ++ am Ss2 k key.
Proof. unfold am. by rewrite fmap_app, concat_app, with_key_app. Qed.
Lemma am_cons s Ss k key : am (s :: Ss) k key = with_key k key (sess_entries s) ++ am Ss k key.
Proof. apply (with_key_app k key (sess_entries s)). Qed.

Lemma elem_of_with_key k key l p : p ∈ with_key k key l ↔ (k, key, p) ∈ l.
Proof.
  unfold with_key. rewrite list_elem_of_fmap. split.
  - intros ([[k' key'] p'] & -> & Hin). by apply list_elem_of_filter in Hin as [[= -> ->] Hin].
  - intros Hin. exists (k, key, p). split; [done|]. by apply list_elem_of_filter.
Qed.

Section Sessions.
Context `{HF : HashFns} `{ML : MapLaws T}.
Implicit Types st : gtp T.

Record gtp_rep st (Ss : list session) (base : gmap positive obj) : Prop := {
  gr_maps : maps_rep st (am Ss);
  gr_nodup : NoDup (objs Ss).*1;
  gr_heap : heap st = list_to_map (objs Ss) ∪ base;
  gr_disj : ∀ p, p ∈ (objs Ss).*1 → base !! p = None;
  gr_brk : brk_ok st;
  gr_pgws : wf_pgws st;
  gr_idx : ∀ s, s ∈ Ss → 0 ≤ s_pgw s < Z.of_nat MAX_PGW_PER_NODE;
}.

(** ** Reading the heap *)

Lemma elem_of_objs Ss p o : (p, o) ∈ objs Ss ↔ ∃ s, s ∈ Ss ∧ (p, o) ∈ sess_objs s.
Proof.
  unfold objs. rewrite list_elem_of_In, in_concat. split.
  - intros (l & Hl & Hin). apply list_elem_of_In, list_elem_of_fmap in Hl as (s & -> & Hs).
    exists s. split; [done|]. by apply list_elem_of_In.
  - intros (s & Hs & Hin). exists (sess_objs s).
    split; apply list_elem_of_In; [|done]. apply list_elem_of_fmap. by exists s.
Qed.

Lemma rep_lookup st Ss base s p o :
  gtp_rep st Ss base → s ∈ Ss → (p, o) ∈ sess_objs s → heap st !! p = Some o.
Proof.
  intros HR Hs Hp. rewrite (gr_heap _ _ _ HR). apply lookup_union_Some_l.
  apply elem_of_list_to_map; [apply HR|]. apply elem_of_objs. eauto.
Qed.

Lemma rep_entry st Ss base s k key p :
  gtp_rep st Ss base → s ∈ Ss → (k, key, p) ∈ sess_entries s →
  heap st !! p = Some (ONode k (mkNode key (s_tun s) 1)).
Proof.
  intros HR Hs Hp. eapply rep_lookup; [done..|]. right.
  apply list_elem_of_fmap. by exists (k, key, p).
Qed.

Lemma rep_tunnel st Ss base s :
  gtp_rep st Ss base → s ∈ Ss → heap st !! s_tun s = Some (sess_tunnel s 4).
Proof. intros HR Hs. eapply rep_lookup; [done..|left]. Qed.

(** The newest session with a key. *)
Definition newest (Ss : list session) (k : kind) (key : Z) : option session :=
  head (filter (λ s, with_key k key (sess_entries s) ≠ []) Ss).

Lemma am_newest Ss k key :
  match newest Ss k key with
  | None => am Ss k key = []
  | Some s => s ∈ Ss ∧ ∃ p rest, am Ss k key = p :: rest ∧ (k, key, p) ∈ sess_entries s
  end.
Proof.
  unfold newest. induction Ss as [|s Ss IH]; [done|]. rewrite am_cons, filter_cons.
  case_decide as Hs; simpl.
  - split; [by left|]. destruct (with_key k key (sess_entries s)) as [|p l] eqn:E; [done|].
    exists p, (l ++ am Ss k key). split; [done|]. apply elem_of_with_key. rewrite E. left.
  - rewrite Hs.
    destruct (head _) as [s'|]; [|done]. destruct IH as (Hin & ?). split; [by right|done].
Qed.

(** ** Forwarding *)

(** A message for an existing tunnel goes to the gateway of the newest
    session with its key, unless that gateway is gone; the state is left as
    it was. *)
Lemma forward_by_key_spec st Ss base k key x send :
  gtp_rep st Ss base →
  ∃ x', forward_by_key k st key x send = Ret (st, x') ∧
    match newest Ss k key with
    | None => x' = x
    | Some s => ∃ g, pgw_list st !! Z.to_nat (s_pgw s) = Some g ∧
        x' = if gtp_pgw_ip g =? 0 then x else send g x
    end.
Proof.
  intros HR. unfold forward_by_key. rewrite (get_node_spec _ _ _ _ (gr_maps _ _ _ HR)).
  pose proof (am_newest Ss k key) as Hn. destruct (newest Ss k key) as [s|]; [|rewrite Hn; by eexists].
  destruct Hn as (Hs & p & rest & -> & He).
  pose proof (rep_entry _ _ _ _ _ _ _ HR Hs He) as Hp.
  pose proof (rep_tunnel _ _ _ _ HR Hs) as Ht.
  unfold sess_tunnel in Ht. assert (s_tun s ≠ p) as Hne by congruence.
  unfold read_node at 1. rewrite Hp, decide_True by done. cbn [obind]. simpl kn_key.
  simpl kn_tunnel. simpl kn_ref_count.
  pose proof (gr_idx _ _ _ HR s Hs) as Hi.
  destruct (lookup_lt_is_Some_2 (pgw_list st) (Z.to_nat (s_pgw s))) as [g Hg].
  { rewrite (wp_len _ (gr_pgws _ _ _ HR)). lia. }
  unfold read_node, read_tunnel, write_node. simpl heap.
  rewrite lookup_insert_eq, decide_True by done. cbn [obind]. simpl kn_tunnel.
  rewrite lookup_insert_ne, Ht by done. cbn [obind]. simpl pgw_index.
  cbn [init_value obind]. unfold nth_pgw. simpl pgw_list.
  rewrite (proj2 (Z.leb_le _ _)) by lia. rewrite Hg. cbn [obind].
  rewrite (unref_node_spec _ _ _ (mkNode key (s_tun s) (u8 (1 + 1))));
    [|simpl; by rewrite lookup_insert_eq|by vm_compute|done].
  cbn [obind]. eexists. split; [|by exists g].
  do 2 f_equal. unfold unref_heap. simpl heap. rewrite lookup_insert_eq.
  rewrite decide_False by done. unfold set_heap. simpl. rewrite insert_insert_eq.
  change (u8 (1 + 1) - 1) with 1. rewrite insert_id by done. by destruct st.
Qed.

(** ** Creating a session *)

Lemma room_for_other st st' k key k' key' :
  other_maps st st' k key → (k', part k' key') ≠ (k, part k key) →
  room_for st k' key' → room_for st' k' key'.
Proof. intros Ho Hne Hr c Hc. apply Hr. by rewrite <-(Ho _ _ Hne). Qed.

Lemma brk_ok_alloc st st' o :
  brk_ok st → heap st' = <[brk st := o]> (heap st) → brk st' = Pos.succ (brk st) → brk_ok st'.
Proof.
  intros Hb Hh Hk p Hp. rewrite Hh, dom_insert in Hp. rewrite Hk.
  apply elem_of_union in Hp as [Hp|Hp].
  - apply elem_of_singleton in Hp. lia.
  - specialize (Hb p Hp). lia.
Qed.

Lemma size_alloc st st' o : heap st' = <[brk st := o]> (heap st) →
  (size (heap st') ≤ S (size (heap st)))%nat.
Proof.
  intros ->. destruct (heap st !! brk st) eqn:E.
  - rewrite map_size_insert_Some; [lia|by eexists].
  - rewrite map_size_insert_None by done. lia.
Qed.

(** Allocation of [o], as the map operations see it. *)
Lemma maps_rep_alloc st AM o :
  maps_rep st AM → brk_ok st → maps_rep (xmalloc st o).2 AM.
Proof.
  intros HM Hb. eapply maps_rep_frame; [done|by intros []|]. intros k key p Hp. simpl.
  pose proof (maps_rep_key _ _ _ _ _ HM Hp) as Hk. apply node_key_Some in Hk as (n & Hn & _).
  pose proof (brk_ok_fresh _ Hb). unfold node_key. by rewrite lookup_insert_ne by congruence.
Qed.

(** The session that a create session response establishes. *)
Definition new_session st (t2 t4 t5 ueip pgw : Z) : session :=
  let b := brk st in
  mkSession t2 t4 t5 ueip pgw b (b + 1) (b + 2) (b + 3) (b + 4).

Lemma objs_in_heap st Ss base p :
  gtp_rep st Ss base → p ∈ (objs Ss).*1 → (p < brk st)%positive.
Proof.
  intros HR Hp. apply (gr_brk _ _ _ HR). rewrite (gr_heap _ _ _ HR), dom_union.
  apply elem_of_union_l. rewrite dom_list_to_map_L. by apply elem_of_list_to_set.
Qed.

Lemma objs_cons s Ss : objs (s :: Ss) = sess_objs s ++ objs Ss.
Proof. done. Qed.

(** A state that has grown by a session. *)
Lemma rep_new_session st Ss base st' t2 t4 t5 ueip pgw :
  gtp_rep st Ss base → 0 ≤ pgw < Z.of_nat MAX_PGW_PER_NODE →
  let s := new_session st t2 t4 t5 ueip pgw in
  maps_rep st' (am (s :: Ss)) → brk_ok st' → wf_pgws st' →
  heap st' = list_to_map (sess_objs s) ∪ heap st →
  gtp_rep st' (s :: Ss) base.
Proof.
  intros HR Hpgw s HM Hb Hw Hh.
  assert (∀ p, p ∈ (sess_objs s).*1 → (brk st ≤ p)%positive) as Hnew.
  { intros p Hp. simpl in Hp. rewrite !elem_of_cons in Hp.
    repeat destruct Hp as [->|Hp]; [lia..|]. by apply not_elem_of_nil in Hp. }
  split; [done| | | |done|done|].
  - rewrite objs_cons, fmap_app. apply list.NoDup_app. split_and!.
    + simpl. repeat (apply list.NoDup_cons; split);
        [rewrite ?elem_of_cons, elem_of_nil; lia..|apply NoDup_nil_2].
    + intros p Hp Hp'. pose proof (objs_in_heap _ _ _ _ HR Hp'). specialize (Hnew p Hp). lia.
    + apply HR.
  - rewrite Hh, objs_cons, list_to_map_app, (gr_heap _ _ _ HR). by rewrite map_union_assoc.
  - intros p. rewrite objs_cons, fmap_app, elem_of_app. intros [Hp|Hp]; [|by apply HR].
    specialize (Hnew p Hp). destruct (base !! p) eqn:E; [|done]. exfalso.
    assert (p ∈ dom (heap st)) as Hin.
    { rewrite (gr_heap _ _ _ HR), dom_union. apply elem_of_union_r. by eapply elem_of_dom_2. }
    pose proof (gr_brk _ _ _ HR p Hin). lia.
  - intros s' [->|Hs']%elem_of_cons; [done|]. by apply (gr_idx _ _ _ HR).
Qed.

(** The four pushes, in the order of the source. *)
Lemma push_session st Ss t2 t4 t5 ueip pgw k key :
  let s := new_session st t2 t4 t5 ueip pgw in
  push (push (push (push (am Ss) KTeid t4 (s_n4 s)) KTeid t5 (s_n5 s)) KUeip ueip (s_nu s))
    KTeid t2 (s_n2 s) k key = am (s :: Ss) k key.
Proof.
  intros s. rewrite am_cons. unfold sess_entries, with_key. cbn [s_t2 s_t4 s_t5 s_ueip].
  subst s. unfold new_session. simpl. unfold push.
  repeat (rewrite filter_cons; cbn [fst snd]).
  by repeat case_decide.
Qed.

Lemma globals_pgws st st' : globals st' = globals st → wf_pgws st → wf_pgws st'.
Proof.
  unfold globals. intros [= _ _ _ _ Hl Hc He] [H1 H2 H3]. split; rewrite ?Hl, ?Hc, ?He; done.
Qed.

(** The hash tables have room for the four keys; the three TEIDs are in
    different tables. *)
Definition room_for_session st (t2 t4 t5 ueip : Z) : Prop :=
  room_for st KTeid t4 ∧ room_for st KTeid t5 ∧ room_for st KUeip ueip ∧ room_for st KTeid t2 ∧
  NoDup [part KTeid t4; part KTeid t5; part KTeid t2].

(** Inserting the four nodes. *)
Lemma put_session_wp {A} tot fuel st0 AM t2 t4 t5 ueip node (K : gtp T → outcome A) Q :
  maps_rep st0 AM → brk_ok st0 → Z.of_nat (size (heap st0)) + 4 < 2 ^ 30 →
  (tot = true → (0 < fuel)%nat ∧ room_for_session st0 t2 t4 t5 ueip) →
  (∀ st4, let b := brk st0 in
     maps_rep st4 (push (push (push (push AM KTeid t4 b) KTeid t5 (b + 1)) KUeip ueip (b + 2))
       KTeid t2 (b + 3)) → brk_ok st4 → globals st4 = globals st0 →
     heap st4 = <[(b + 3)%positive := ONode KTeid (mkNode t2 node 1)]>
       (<[(b + 2)%positive := ONode KUeip (mkNode ueip node 1)]>
       (<[(b + 1)%positive := ONode KTeid (mkNode t5 node 1)]>
       (<[b := ONode KTeid (mkNode t4 node 1)]> (heap st0)))) →
     wp tot (K st4) Q) →
  wp tot (let* (_, st) := gtp_manager_put_teid_pgw fuel st0 t4 node in
          let* (_, st) := gtp_manager_put_teid_pgw fuel st t5 node in
          let* (_, st) := gtp_manager_put_ueip_pgw fuel st ueip node in
          let* (_, st) := gtp_manager_put_teid_pgw fuel st t2 node in K st) Q.
Proof.
  intros HM Hb Hsz Htot HK.
  assert (tot = true → part KTeid t4 ≠ part KTeid t5 ∧ part KTeid t4 ≠ part KTeid t2 ∧
    part KTeid t5 ≠ part KTeid t2) as Hparts.
  { intros Ht. destruct (Htot Ht) as (_ & _ & _ & _ & _ & Hnd).
    apply list.NoDup_cons in Hnd as [H1 Hnd]. apply list.NoDup_cons in Hnd as [H2 _].
    clear -H1 H2. set_solver. }
  eapply wp_bind; [apply (put_node_wp tot fuel KTeid st0 AM t4 node HM Hb); [lia|]|].
  { intros Ht. by destruct (Htot Ht) as (? & ? & _). }
  intros [r1 st1] (HM1 & Hh1 & Hk1 & Hg1 & Ho1). clear r1.
  pose proof (brk_ok_alloc _ _ _ Hb Hh1 Hk1) as Hb1. pose proof (size_alloc _ _ _ Hh1).
  eapply wp_bind; [apply (put_node_wp tot fuel KTeid st1 _ t5 node HM1 Hb1); [lia|]|].
  { intros Ht. destruct (Htot Ht) as (? & _ & Hr & _). destruct (Hparts Ht) as (? & ? & ?).
    split; [done|]. eapply room_for_other; [done| |done]. congruence. }
  intros [r2 st2] (HM2 & Hh2 & Hk2 & Hg2 & Ho2). clear r2.
  pose proof (brk_ok_alloc _ _ _ Hb1 Hh2 Hk2) as Hb2. pose proof (size_alloc _ _ _ Hh2).
  eapply wp_bind; [apply (put_node_wp tot fuel KUeip st2 _ ueip node HM2 Hb2); [lia|]|].
  { intros Ht. destruct (Htot Ht) as (? & _ & _ & Hr & _).
    split; [done|]. eapply room_for_other; [done|congruence|].
    eapply room_for_other; [done|congruence|done]. }
  intros [r3 st3] (HM3 & Hh3 & Hk3 & Hg3 & Ho3). clear r3.
  pose proof (brk_ok_alloc _ _ _ Hb2 Hh3 Hk3) as Hb3. pose proof (size_alloc _ _ _ Hh3).
  eapply wp_bind; [apply (put_node_wp tot fuel KTeid st3 _ t2 node HM3 Hb3); [lia|]|].
  { intros Ht. destruct (Htot Ht) as (? & _ & _ & _ & Hr & _). destruct (Hparts Ht) as (? & ? & ?).
    split; [done|]. eapply room_for_other; [done|congruence|].
    eapply room_for_other; [done|congruence|]. eapply room_for_other; [done|congruence|done]. }
  intros [r4 st4] (HM4 & Hh4 & Hk4 & Hg4 & _). clear r4.
  pose proof (brk_ok_alloc _ _ _ Hb3 Hh4 Hk4) as Hb4.
  assert (brk st1 = brk st0 + 1 ∧ brk st2 = brk st0 + 2 ∧ brk st3 = brk st0 + 3)%positive
    as (E1 & E2 & E3) by (rewrite Hk3, Hk2, Hk1; lia).
  apply HK; [|done|congruence|].
  - by rewrite <-E1, <-E2, <-E3.
  - by rewrite Hh4, Hh3, Hh2, Hh1, E1, E2, E3.
Qed.

Lemma create_session_wp tot fuel st Ss base t2 t4 t5 ueip x :
  gtp_rep st Ss base → all_set (t4, t5, ueip) = true → pgw_fastpath st = 0 →
  gtp_manager_find_pgw st (nw_src (x_flow x)) ≠ -1 →
  Z.of_nat (size (heap st)) + 5 < 2 ^ 30 →
  (tot = true → (0 < fuel)%nat ∧ room_for_session st t2 t4 t5 ueip) →
  wp tot (create_session fuel st t2 t4 t5 ueip x) (λ '(st', x'),
    x' = xlate_output_action x (ovs_phy_port st) ∧ globals st' = globals st ∧
    gtp_rep st' (new_session st t2 t4 t5 ueip
                   (gtp_manager_find_pgw st (nw_src (x_flow x))) :: Ss) base).
Proof.
  intros HR Hset Hfp Hfind Hsz Htot. unfold create_session. rewrite Hset, Hfp. cbn [Z.eqb].
  cbn [xmalloc]. set (st1 := mkGtp _ _ _ _ _ _ _ _ _ _ _ _).
  change (gtp_manager_find_pgw st1 (nw_src (x_flow x)))
    with (gtp_manager_find_pgw st (nw_src (x_flow x))).
  set (pgw := gtp_manager_find_pgw st (nw_src (x_flow x))) in *.
  assert (0 ≤ pgw < Z.of_nat MAX_PGW_PER_NODE) as Hpgw.
  { pose proof (find_pgw_spec st (nw_src (x_flow x))) as [[? _]|[(g & Hg & _) _]]; [done|].
    apply pgw_at_lt in Hg. pose proof (wp_end _ (gr_pgws _ _ _ HR)). subst pgw. lia. }
  rewrite (proj2 (Z.eqb_neq _ _) Hfind). cbn [negb].
  rewrite u16_small by (unfold MAX_PGW_PER_NODE in Hpgw; lia).
  set (st2 := write_tunnel st1 (brk st) _).
  assert (heap st2 = <[brk st := sess_tunnel (new_session st t2 t4 t5 ueip pgw) 4]> (heap st))
    as Hh2 by (apply insert_insert_eq).
  assert (brk_ok st2) as Hb2 by (by eapply (brk_ok_alloc st); [apply HR|exact Hh2|]).
  assert (maps_rep st2 (am Ss)) as HM2.
  { eapply maps_rep_frame; [apply HR|by intros []|]. intros k key p Hp.
    pose proof (maps_rep_key _ _ _ _ _ (gr_maps _ _ _ HR) Hp) as Hk.
    apply node_key_Some in Hk as (n & Hn & _). pose proof (brk_ok_fresh _ (gr_brk _ _ _ HR)).
    unfold node_key. rewrite Hh2. by rewrite lookup_insert_ne by congruence. }
  eapply put_session_wp; [done|done| | |].
  - pose proof (size_alloc _ _ _ Hh2). lia.
  - exact Htot.
  - intros st4 b HM4 Hb4 Hg4 Hh4. simpl wp.
    assert (globals st4 = globals st) as Hg by (by rewrite Hg4).
    split_and!; [by injection Hg as _ _ -> _|done|].
    eapply rep_new_session; [done|done| |done|by eapply globals_pgws; [|apply HR]|].
    + eapply maps_rep_ext; [done|]. intros k key.
      rewrite <-push_session. unfold new_session. simpl s_n4. simpl s_n5. simpl s_nu. simpl s_n2.
      assert (b = brk st + 1)%positive as -> by (subst b; simpl; lia).
      replace (brk st + 1 + 1)%positive with (brk st + 2)%positive by lia.
      replace (brk st + 1 + 2)%positive with (brk st + 3)%positive by lia.
      by replace (brk st + 1 + 3)%positive with (brk st + 4)%positive by lia.
    + rewrite Hh4, Hh2. assert (b = brk st + 1)%positive as -> by (subst b; simpl; lia).
      unfold sess_objs, sess_entries, entry_obj. simpl.
      replace (brk st + 1 + 1)%positive with (brk st + 2)%positive by lia.
      replace (brk st + 1 + 2)%positive with (brk st + 3)%positive by lia.
      replace (brk st + 1 + 3)%positive with (brk st + 4)%positive by lia.
      rewrite <-!insert_union_l, map_empty_union.
      rewrite !(insert_insert_ne _ (brk st)) by lia. done.
Qed.
End Sessions.
