(* ===== verification/GtpDelete.v ===== *)
(** * Deleting a session

    A session whose nodes are being removed one by one: [rc] gives the
    references each of its nodes still has, the tunnel counts the nodes that
    are left.  A delete session response takes the four nodes out of the maps
    in the order t4, t5, address, t2 while it holds a reference to the one of
    t2; whatever keys coincide, all five objects are freed, once. *)
From Stdlib Require Import ZArith Lia.
From stdpp Require Import base list gmap numbers option.
From S2P Require Import Prelude Hash CmapRefine CmapReplace MapIface GtpWire GtpManager GtpPgw GtpMaps GtpSessions.
Open Scope Z_scope.

Definition cnt (rc : positive → Z) (l : list (kind * Z * positive)) : Z :=
  Z.of_nat (length (filter (λ e : kind * Z * positive, rc e.2 ≠ 0) l)).

Lemma cnt_dec rc rc' l p :
  NoDup l.*2 → p ∈ l.*2 → rc p = 1 → rc' p = 0 → (∀ q, q ≠ p → rc' q = rc q) →
  cnt rc l = cnt rc' l + 1.
Proof.
  intros Hnd Hp H1 H0 Hsame. unfold cnt. induction l as [|[kk q] l IH]; [by apply not_elem_of_nil in Hp|].
  rewrite fmap_cons in Hnd, Hp. apply list.NoDup_cons in Hnd as [Hq Hnd]. simpl in Hq, Hp.
  rewrite !filter_cons. simpl snd. destruct (decide (q = p)) as [->|Hne].
  - rewrite (decide_True (P := rc p ≠ 0)) by lia. rewrite (decide_False (P := rc' p ≠ 0)) by lia.
    assert (filter (λ e : kind * Z * positive, rc' e.2 ≠ 0) l = filter (λ e : kind * Z * positive, rc e.2 ≠ 0) l) as ->.
    { clear -Hq Hsame. induction l as [|[kk q] l IH]; [done|]. simpl in Hq.
      apply not_elem_of_cons in Hq as [Hq Hl]. rewrite !filter_cons. simpl snd.
      rewrite Hsame by done. by rewrite IH. }
    simpl. lia.
  - apply elem_of_cons in Hp as [?|Hp]; [done|]. specialize (IH Hnd Hp).
    rewrite (Hsame q Hne). case_decide; simpl; lia.
Qed.

Lemma cnt_same rc rc' l p :
  rc p ≠ 0 → rc' p ≠ 0 → (∀ q, q ≠ p → rc' q = rc q) → cnt rc' l = cnt rc l.
Proof.
  intros H1 H0 Hsame. unfold cnt. f_equal. induction l as [|[kk q] l IH]; [done|].
  rewrite !filter_cons. simpl snd. destruct (decide (q = p)) as [->|Hne].
  - rewrite !decide_True by done. simpl. by f_equal.
  - rewrite Hsame by done. case_decide; simpl; by rewrite IH.
Qed.

Lemma cnt_pos rc l p : p ∈ l.*2 → rc p ≠ 0 → 1 ≤ cnt rc l.
Proof.
  intros Hp Hrc. unfold cnt. apply list_elem_of_fmap in Hp as (e & -> & He).
  assert (e ∈ filter (λ e : kind * Z * positive, rc e.2 ≠ 0) l) as Hin by (by apply list_elem_of_filter).
  destruct (filter _ l); [by apply not_elem_of_nil in Hin|simpl; lia].
Qed.

(** ** The heap while a session is being deleted *)
Section Delete.
Context `{HF : HashFns} `{ML : MapLaws T}.
Implicit Types st : gtp T.
Variable s : session.
Variable h0 : gmap positive obj.      (* the objects of everything else *)
Hypothesis Hdistinct : NoDup (sess_objs s).*1.

Record partial_heap (rc : positive → Z) (h : gmap positive obj) : Prop := {
  ph_tun : h !! s_tun s =
    if decide (cnt rc (sess_entries s) = 0) then None
    else Some (sess_tunnel s (cnt rc (sess_entries s)));
  ph_entry : ∀ k key p, (k, key, p) ∈ sess_entries s →
    h !! p = if decide (rc p = 0) then None else Some (ONode k (mkNode key (s_tun s) (rc p)));
  ph_rest : ∀ q, q ≠ s_tun s → q ∉ (sess_entries s).*2 → h !! q = h0 !! q;
}.

Lemma sess_objs_locs : (sess_objs s).*1 = s_tun s :: (sess_entries s).*2.
Proof. done. Qed.

Lemma sess_distinct : (s_tun s ∉ (sess_entries s).*2) ∧ NoDup (sess_entries s).*2.
Proof. rewrite sess_objs_locs in Hdistinct. by apply list.NoDup_cons in Hdistinct. Qed.

Lemma entry_loc k key p : (k, key, p) ∈ sess_entries s → p ∈ (sess_entries s).*2.
Proof. intros He. apply list_elem_of_fmap. by exists (k, key, p). Qed.

Lemma partial_unref rc rc' h k key p :
  partial_heap rc h → (k, key, p) ∈ sess_entries s → 1 ≤ rc p ≤ 2 →
  rc' p = rc p - 1 → (∀ q, q ≠ p → rc' q = rc q) →
  counted h k p ∧ partial_heap rc' (unref_heap h k p).
Proof.
  intros [Htun Hent Hrest] He Hrc Hdec Hsame. destruct sess_distinct as [Hst Hnd].
  pose proof (entry_loc _ _ _ He) as Hp. assert (p ≠ s_tun s) as Hne by (by intros ->).
  pose proof (cnt_pos rc _ p Hp ltac:(lia)) as Hpos.
  pose proof (Hent _ _ _ He) as Hhp. rewrite decide_False in Hhp by lia.
  pose proof Htun as Hht. rewrite decide_False in Hht by lia.
  split.
  { unfold sess_tunnel in Hht. exists (mkNode key (s_tun s) (rc p)). do 2 eexists.
    split; [exact Hhp|]. simpl. split; [lia|]. split; [exact Hht|]. reflexivity. }
  assert (∀ k' key' p', (k', key', p') ∈ sess_entries s → p' ≠ p →
    h !! p' = if decide (rc' p' = 0) then None
              else Some (ONode k' (mkNode key' (s_tun s) (rc' p')))) as Hoth.
  { intros k' key' p' He' Hne'. rewrite Hsame by done. by apply Hent. }
  assert (∀ k' key', (k', key', p) ∈ sess_entries s → (k', key') = (k, key)) as Huniq.
  { intros k' key' He'. clear -Hnd He He'. induction (sess_entries s) as [|e l IH];
      [by apply not_elem_of_nil in He|]. rewrite fmap_cons in Hnd.
    apply list.NoDup_cons in Hnd as [Hn Hnd].
    apply elem_of_cons in He as [He|He]; apply elem_of_cons in He' as [He'|He'].
    - congruence.
    - destruct Hn. subst e. apply list_elem_of_fmap. by exists (k', key', p).
    - destruct Hn. subst e. apply list_elem_of_fmap. by exists (k, key, p).
    - by apply IH. }
  unfold unref_heap. rewrite Hhp. cbn [kn_ref_count kn_tunnel kn_key]. rewrite Hht.
  unfold sess_tunnel at 1. cbn [t_ref_count teid4_sgw_c teid5_sgw_u teid2_pgw_c teid3_pgw_u ue_ip pgw_index].
  destruct (decide (rc p = 1)) as [E|E].
  - pose proof (cnt_dec rc rc' _ p Hnd Hp E ltac:(lia) Hsame) as Hcnt.
    destruct (decide (Some (cnt rc (sess_entries s)) = Some 1)) as [[= E1]|E1];
      [|assert (cnt rc (sess_entries s) ≠ 1) by congruence]; split.
    + rewrite lookup_delete_ne, lookup_delete_eq, decide_True by (congruence || lia). done.
    + intros k' key' p' He'. destruct (decide (p' = p)) as [->|Hne'].
      * by rewrite lookup_delete_eq, decide_True by lia.
      * rewrite lookup_delete_ne, lookup_delete_ne by
          (first [done|intros <-; by apply Hst; eapply entry_loc]). by apply Hoth.
    + intros q Hq1 Hq2. rewrite !lookup_delete_ne by congruence. by apply Hrest.
    + rewrite lookup_delete_ne, lookup_insert_eq, decide_False by (congruence || lia).
      unfold sess_tunnel. do 3 f_equal. simpl. f_equal. lia.
    + intros k' key' p' He'. destruct (decide (p' = p)) as [->|Hne'].
      * by rewrite lookup_delete_eq, decide_True by lia.
      * rewrite lookup_delete_ne, lookup_insert_ne by
          (first [done|intros <-; by apply Hst; eapply entry_loc]). by apply Hoth.
    + intros q Hq1 Hq2. rewrite lookup_delete_ne, lookup_insert_ne by congruence. by apply Hrest.
  - pose proof (cnt_same rc rc' (sess_entries s) p ltac:(lia) ltac:(lia) Hsame) as Hcnt. split.
    + rewrite lookup_insert_ne by congruence. by rewrite Hcnt.
    + intros k' key' p' He'. destruct (decide (p' = p)) as [->|Hne'].
      * injection (Huniq _ _ He') as -> ->. rewrite lookup_insert_eq, decide_False by lia.
        by rewrite Hdec.
      * rewrite lookup_insert_ne by congruence. by apply Hoth.
    + intros q Hq1 Hq2. rewrite lookup_insert_ne by congruence. by apply Hrest.
Qed.

(** ** Removing the nodes from the maps *)

Variables (AM1 AM2 : keymap).     (* newer and older entries of other sessions *)

(** The maps hold the entries [R] of the session between the others. *)
Definition am_with (R : list (kind * Z * positive)) : keymap := λ k key,
  AM1 k key ++ with_key k key R ++ AM2 k key.

(** A linked node has a reference, and the one of t2 another when held. *)
Definition refs (R : list (kind * Z * positive)) (held : bool) (q : positive) : Z :=
  (if decide (q ∈ R.*2) then 1 else 0) + (if held && Pos.eqb q (s_n2 s) then 1 else 0).

Record partial st (R : list (kind * Z * positive)) (held : bool) : Prop := {
  pa_maps : maps_rep st (am_with R);
  pa_heap : partial_heap (refs R held) (heap st);
  pa_nodup : NoDup R.*2;
  pa_sub : ∀ e, e ∈ R → e ∈ sess_entries s;
}.

Lemma refs_remove R1 e R2 held q :
  NoDup (R1 ++ e :: R2).*2 →
  refs (R1 ++ R2) held q = if decide (q = e.2) then refs (R1 ++ e :: R2) held q - 1
                           else refs (R1 ++ e :: R2) held q.
Proof.
  rewrite !fmap_app, fmap_cons. intros Hnd.
  assert (e.2 ∉ R1.*2 ++ R2.*2) as Hne.
  { apply list.NoDup_app in Hnd as (_ & H1 & H2). apply list.NoDup_cons in H2 as [H2 _].
    rewrite elem_of_app. intros [Hin|Hin]; [|done]. apply (H1 _ Hin). left. }
  unfold refs. rewrite !fmap_app, fmap_cons.
  destruct (decide (q = e.2)) as [->|E].
  - rewrite (decide_False (P := e.2 ∈ R1.*2 ++ R2.*2)) by done.
    rewrite decide_True by (rewrite elem_of_app, elem_of_cons; auto). lia.
  - f_equal. destruct (decide (q ∈ R1.*2 ++ R2.*2)) as [Hin|Hin].
    + rewrite decide_True; [done|]. rewrite elem_of_app, elem_of_cons in *. naive_solver.
    + rewrite decide_False; [done|]. rewrite elem_of_app, elem_of_cons in *. naive_solver.
Qed.

Lemma refs_range R held q : 0 ≤ refs R held q ≤ 2.
Proof. unfold refs. case_decide; destruct (held && Pos.eqb q (s_n2 s)); lia. Qed.

(** Popping a key that no newer session has takes one of the session's nodes. *)
Lemma partial_del tot fuel st R held k key ks :
  partial st R held → R.*1 ≡ₚ (k, key) :: ks → AM1 k key = [] →
  (tot = true → slack_for st k key) →
  wp tot (del_node fuel k st key) (λ '(_, st'), ∃ R',
    partial st' R' held ∧ R'.*1 ≡ₚ ks ∧ brk st' = brk st ∧ globals st' = globals st ∧
    other_maps st st' k key).
Proof.
  intros [HM Hh Hnd Hsub] Hperm Hpre Htot.
  assert (∃ R1 p R2, R = R1 ++ (k, key, p) :: R2 ∧ with_key k key R1 = [])
    as (R1 & p & R2 & -> & Hnil).
  { destruct (with_key k key R) as [|p rest] eqn:E.
    - exfalso. assert ((k, key) ∈ R.*1) as Hin by (rewrite Hperm; left).
      apply list_elem_of_fmap in Hin as ([kk p] & [= <-] & Hin).
      apply elem_of_with_key in Hin. rewrite E in Hin. by apply not_elem_of_nil in Hin.
    - unfold with_key in E. destruct (filter _ R) as [|e l] eqn:E'; [done|]. injection E as <- <-.
      pose proof E' as Hf. apply filter_cons_split in Hf as (R1 & R2 & -> & HR1).
      assert (e.1 = (k, key)) as He.
      { assert (e ∈ filter (λ e : kind * Z * positive, e.1 = (k, key)) (R1 ++ e :: R2)) as Hin
          by (rewrite E'; left). by apply list_elem_of_filter in Hin as [? _]. }
      exists R1, e.2, R2. rewrite <-He. split; [by destruct e|].
      unfold with_key. by rewrite filter_none. }
  assert ((k, key, p) ∈ sess_entries s) as He by (apply Hsub, elem_of_app; right; left).
  assert (am_with (R1 ++ (k, key, p) :: R2) k key = p :: with_key k key R2 ++ AM2 k key) as HAM.
  { unfold am_with. by rewrite Hpre, with_key_app, Hnil, with_key_cons_eq. }
  assert (refs (R1 ++ (k, key, p) :: R2) held p ≠ 0) as Hrc.
  { unfold refs. rewrite decide_True; [destruct (held && _); lia|].
    rewrite fmap_app, fmap_cons, elem_of_app, elem_of_cons. auto. }
  pose proof (refs_range (R1 ++ (k, key, p) :: R2) held p).
  destruct (partial_unref _ (refs (R1 ++ R2) held) _ k key p Hh He) as [Hcnt Hh'].
  { lia. }
  { by rewrite (refs_remove R1 (k, key, p) R2 held p Hnd), decide_True. }
  { intros q Hq. by rewrite (refs_remove R1 (k, key, p) R2 held q Hnd), decide_False. }
  eapply wp_mono; [by apply (del_node_wp tot fuel k st _ key p _ HM HAM Hcnt Htot)|].
  intros [r st'] (HM' & Hheap & Hbrk & Hg & Ho). exists (R1 ++ R2). split_and!; [|..|done|done|done].
  - split.
    + eapply maps_rep_ext; [done|]. intros k' key'. unfold pop.
      destruct (decide ((k, key) = (k', key'))) as [[= <- <-]|Hne].
      * rewrite HAM. unfold am_with. by rewrite Hpre, with_key_app, Hnil.
      * unfold am_with. by rewrite !with_key_app, with_key_cons_ne.
    + by rewrite Hheap.
    + rewrite !fmap_app, fmap_cons in *. apply list.NoDup_app in Hnd as (H1 & H2 & H3).
      apply list.NoDup_cons in H3 as [H3 H4]. apply list.NoDup_app. split_and!; [done| |done].
      intros q Hq Hq'. apply (H2 q Hq). by right.
    + intros e He'. apply Hsub. rewrite elem_of_app, elem_of_cons in *. naive_solver.
  - rewrite fmap_app, fmap_cons in Hperm. rewrite fmap_app.
    apply (Permutation_cons_inv (a := (k, key))). by rewrite <-Hperm, Permutation_middle.
Qed.
End Delete.

(** ** Delete session response *)
Section DeleteSession.
Context `{HF : HashFns} `{ML : MapLaws T}.
Implicit Types st : gtp T.

(** No newer session shares a key with [s]. *)
Definition not_shadowed (pre : list session) (s : session) : Prop :=
  ∀ k key p, (k, key, p) ∈ sess_entries s → am pre k key = [].

Lemma objs_app Ss1 Ss2 : objs (Ss1 ++ Ss2) = objs Ss1 ++ objs Ss2.
Proof. unfold objs. by rewrite fmap_app, concat_app. Qed.

(** The objects of the other sessions. *)
Definition others (pre post : list session) (base : gmap positive obj) : gmap positive obj :=
  list_to_map (objs (pre ++ post)) ∪ base.

Lemma rep_others st pre s post base :
  gtp_rep st (pre ++ s :: post) base →
  NoDup (sess_objs s).*1 ∧ NoDup (objs (pre ++ post)).*1 ∧
  (∀ q, q ∈ (sess_objs s).*1 → others pre post base !! q = None) ∧
  (∀ q, q ∉ (sess_objs s).*1 → heap st !! q = others pre post base !! q).
Proof.
  intros HR. pose proof (gr_nodup _ _ _ HR) as Hnd.
  rewrite objs_app, objs_cons, !fmap_app in Hnd.
  apply list.NoDup_app in Hnd as (H1 & H2 & H3). apply list.NoDup_app in H3 as (H3 & H4 & H5).
  split_and!; [done| | |].
  - rewrite objs_app, fmap_app. apply list.NoDup_app. split_and!; [done| |done].
    intros q Hq Hq'. apply (H2 q Hq). rewrite elem_of_app. by right.
  - intros q Hq. unfold others. rewrite lookup_union_r.
    + apply (gr_disj _ _ _ HR). rewrite objs_app, objs_cons, !fmap_app, !elem_of_app. auto.
    + apply not_elem_of_list_to_map_1. rewrite objs_app, fmap_app, elem_of_app.
      intros [Hin|Hin]; [|by apply (H4 q)]. apply (H2 q Hin). rewrite elem_of_app. by left.
  - intros q Hq. rewrite (gr_heap _ _ _ HR). unfold others.
    rewrite !objs_app, objs_cons, !list_to_map_app.
    assert (list_to_map (M := gmap positive obj) (sess_objs s) !! q = None) as Hn
      by (by apply not_elem_of_list_to_map_1).
    by rewrite !lookup_union, Hn, (left_id_L None _).
Qed.

Lemma am_not_other pre post base k key p :
  others pre post base !! p = None → p ∉ am (pre ++ post) k key.
Proof.
  intros Hn Hin. apply elem_of_with_key in Hin.
  assert (p ∈ (objs (pre ++ post)).*1) as Hp.
  { rewrite list_elem_of_In in Hin. apply in_concat in Hin as (l & Hl & Hin).
    apply list_elem_of_In, list_elem_of_fmap in Hl as (s & -> & Hs).
    apply list_elem_of_In in Hin. apply list_elem_of_fmap.
    exists (entry_obj s (k, key, p)). split; [done|]. apply elem_of_objs. exists s.
    split; [done|]. right. apply list_elem_of_fmap. by exists (k, key, p). }
  unfold others in Hn. apply lookup_union_None in Hn as [Hn _].
  by apply not_elem_of_list_to_map in Hn.
Qed.

Lemma refs_entries s p : NoDup (sess_objs s).*1 → p ∈ (sess_entries s).*2 →
  refs s (sess_entries s) false p = 1.
Proof. intros Hnd Hp. unfold refs. by rewrite decide_True. Qed.

Lemma cnt_all rc (l : list (kind * Z * positive)) :
  (∀ p, p ∈ l.*2 → rc p ≠ 0) → cnt rc l = Z.of_nat (length l).
Proof.
  intros Hl. unfold cnt. f_equal. induction l as [|e l IH]; [done|].
  rewrite filter_cons, decide_True by (apply Hl; left). simpl. f_equal.
  apply IH. intros p Hp. apply Hl. by right.
Qed.

(** The session is linked and counted in full. *)
Lemma partial_start st pre s post base :
  gtp_rep st (pre ++ s :: post) base →
  partial s (others pre post base) (am pre) (am post) st (sess_entries s) false.
Proof.
  intros HR. destruct (rep_others _ _ _ _ _ HR) as (Hnd & _ & _ & Hrest).
  assert (s ∈ pre ++ s :: post) as Hs by (rewrite elem_of_app; right; left).
  split; [|split|by apply sess_distinct|done].
  - eapply maps_rep_ext; [apply HR|]. intros k key. by rewrite am_app, am_cons.
  - rewrite cnt_all; [by rewrite decide_False; [apply (rep_tunnel _ _ _ _ HR Hs)|]|].
    intros p Hp. by rewrite refs_entries.
  - intros k key p He. rewrite refs_entries by (done || by eapply entry_loc).
    rewrite decide_False by done. by apply (rep_entry _ _ _ _ _ _ _ HR Hs).
  - intros q Hq1 Hq2. apply Hrest. rewrite sess_objs_locs.
    by apply not_elem_of_cons.
Qed.

(** [gtp_manager_get_teid_pgw(t2)] finds the node of the session and holds it. *)
Lemma partial_hold s h0 AM1 AM2 st :
  NoDup (sess_objs s).*1 →
  partial s h0 AM1 AM2 st (sess_entries s) false →
  partial s h0 AM1 AM2 (write_node st KTeid (s_n2 s) (mkNode (s_t2 s) (s_tun s) 2))
    (sess_entries s) true.
Proof.
  intros Hnd [HM [Htun Hent Hrest] Hn Hsub]. destruct (sess_distinct s Hnd) as [Hst Hnd2].
  assert ((KTeid, s_t2 s, s_n2 s) ∈ sess_entries s) as He2 by left.
  assert (∀ q, q ≠ s_n2 s → refs s (sess_entries s) true q = refs s (sess_entries s) false q) as Hq.
  { intros q Hne. unfold refs. by rewrite (proj2 (Pos.eqb_neq _ _) Hne). }
  assert (refs s (sess_entries s) true (s_n2 s) = 2) as H2.
  { unfold refs. rewrite Pos.eqb_refl, decide_True by (by eapply entry_loc). done. }
  assert (s_tun s ≠ s_n2 s) as Hne.
  { intros E. apply Hst. rewrite E. by eapply entry_loc. }
  split; [|split|done|done].
  - eapply maps_rep_frame; [done|by intros []|]. intros k key p Hp. simpl.
    unfold node_key. destruct (decide (p = s_n2 s)) as [->|Hpn].
    + rewrite lookup_insert_eq, (Hent _ _ _ He2), refs_entries by (done || by eapply entry_loc).
      done.
    + by rewrite lookup_insert_ne.
  - simpl. rewrite lookup_insert_ne by done. rewrite Htun.
    rewrite !cnt_all; [done| |]; intros p Hp; [|by rewrite refs_entries].
    destruct (decide (p = s_n2 s)) as [->|]; [by rewrite H2|by rewrite Hq, refs_entries].
  - intros k key p He. simpl. destruct (decide (p = s_n2 s)) as [->|Hpn].
    + rewrite lookup_insert_eq, H2, decide_False by done.
      assert ((k, key) = (KTeid, s_t2 s)) as [= -> ->]; [|done].
      clear -Hnd2 He. apply list.NoDup_cons in Hnd2 as [Hnd2 _].
      apply elem_of_cons in He as [[= -> ->]|He]; [done|]. destruct Hnd2.
      exact (list_elem_of_fmap_2 snd _ (k, key, s_n2 s) He).
    + rewrite lookup_insert_ne, Hq by done. by apply Hent.
  - intros q Hq1 Hq2. simpl. rewrite lookup_insert_ne; [by apply Hrest|].
    intros <-. apply Hq2. by eapply entry_loc.
Qed.

(** Nothing of the session is left. *)
Lemma rep_without st0 st pre s post base :
  gtp_rep st0 (pre ++ s :: post) base →
  partial s (others pre post base) (am pre) (am post) st [] false →
  brk st = brk st0 → globals st = globals st0 → gtp_rep st (pre ++ post) base.
Proof.
  intros HR [HM [Htun Hent Hrest] _ _] Hbrk Hg.
  destruct (rep_others _ _ _ _ _ HR) as (Hnd & Hnd' & Hnone & Hsame).
  assert (heap st = others pre post base) as Hh.
  { apply map_eq. intros q. destruct (decide (q ∈ (sess_objs s).*1)) as [Hq|Hq].
    - rewrite Hnone by done. rewrite sess_objs_locs in Hq. apply elem_of_cons in Hq as [->|Hq].
      + rewrite Htun. by rewrite decide_True.
      + apply list_elem_of_fmap in Hq as ([[k key] p] & -> & Hp). simpl.
        rewrite (Hent _ _ _ Hp). by rewrite decide_True.
    - rewrite sess_objs_locs in Hq. apply not_elem_of_cons in Hq as [? ?]. by apply Hrest. }
  split; [| |done| | |by eapply globals_pgws; [|apply HR]|].
  - eapply maps_rep_ext; [done|]. intros k key. unfold am_with. by rewrite am_app.
  - done.
  - intros p Hp. apply (gr_disj _ _ _ HR). rewrite objs_app, objs_cons, !fmap_app, !elem_of_app.
    rewrite objs_app, fmap_app, elem_of_app in Hp. naive_solver.
  - intros p Hp. rewrite Hbrk. apply (gr_brk _ _ _ HR). rewrite Hh in Hp.
    apply elem_of_dom in Hp as [o Ho]. apply elem_of_dom.
    destruct (decide (p ∈ (sess_objs s).*1)) as [Hq|Hq].
    + rewrite Hnone in Ho by done. done.
    + rewrite Hsame by done. by eexists.
  - intros s' Hs'. apply (gr_idx _ _ _ HR). rewrite elem_of_app, elem_of_cons in *. naive_solver.
Qed.

(** The hash tables stay dense enough when the four keys are removed. *)
Definition slack_for_session st (s : session) : Prop :=
  slack_for st KTeid (s_t4 s) ∧ slack_for st KTeid (s_t5 s) ∧
  slack_for st KUeip (s_ueip s) ∧ slack_for st KTeid (s_t2 s) ∧
  NoDup [part KTeid (s_t4 s); part KTeid (s_t5 s); part KTeid (s_t2 s)].

Lemma slack_for_other st st' k key k' key' :
  other_maps st st' k key → (k', part k' key') ≠ (k, part k key) →
  slack_for st k' key' → slack_for st' k' key'.
Proof. intros Ho Hne Hr c Hc. apply (Hr c). by rewrite <-(Ho _ _ Hne). Qed.

(** The four removals. *)
Lemma del_session_wp {A} tot fuel st0 s h0 AM1 AM2 (K : gtp T → outcome A) Q :
  NoDup (sess_objs s).*1 →
  (∀ k key p, (k, key, p) ∈ sess_entries s → AM1 k key = []) →
  partial s h0 AM1 AM2 st0 (sess_entries s) true →
  (tot = true → slack_for_session st0 s) →
  (∀ st4, partial s h0 AM1 AM2 st4 [] true → brk st4 = brk st0 → globals st4 = globals st0 →
     wp tot (K st4) Q) →
  wp tot (let* (_, st) := gtp_manager_del_teid_pgw fuel st0 (s_t4 s) in
          let* (_, st) := gtp_manager_del_teid_pgw fuel st (s_t5 s) in
          let* (_, st) := gtp_manager_del_ueip_pgw fuel st (s_ueip s) in
          let* (_, st) := gtp_manager_del_teid_pgw fuel st (s_t2 s) in K st) Q.
Proof.
  intros Hnd Hpre HP Htot HK.
  assert (AM1 KTeid (s_t4 s) = [] ∧ AM1 KTeid (s_t5 s) = [] ∧ AM1 KUeip (s_ueip s) = [] ∧
    AM1 KTeid (s_t2 s) = []) as (P4 & P5 & Pu & P2).
  { split_and!; eapply Hpre; unfold sess_entries; [do 3 right; left|do 2 right; left|right; left|left]. }
  assert (tot = true → part KTeid (s_t4 s) ≠ part KTeid (s_t5 s) ∧
    part KTeid (s_t4 s) ≠ part KTeid (s_t2 s) ∧ part KTeid (s_t5 s) ≠ part KTeid (s_t2 s)) as Hparts.
  { intros Ht. destruct (Htot Ht) as (_ & _ & _ & _ & Hd).
    apply list.NoDup_cons in Hd as [H1 Hd]. apply list.NoDup_cons in Hd as [H2 _].
    clear -H1 H2. set_solver. }
  eapply wp_bind; [apply (partial_del s h0 Hnd AM1 AM2 tot fuel st0 _ true KTeid (s_t4 s)
    [(KTeid, s_t5 s); (KUeip, s_ueip s); (KTeid, s_t2 s)] HP); [|done|]|].
  { unfold sess_entries. simpl. solve_Permutation. }
  { intros Ht. apply (Htot Ht). }
  intros [r1 st1] (R1 & HP1 & HR1 & Hb1 & Hg1 & Ho1). clear r1.
  eapply wp_bind; [apply (partial_del s h0 Hnd AM1 AM2 tot fuel st1 _ true KTeid (s_t5 s) _
    HP1 HR1 P5)|].
  { intros Ht. destruct (Htot Ht) as (_ & Hs & _). destruct (Hparts Ht) as (? & ? & ?).
    eapply slack_for_other; [done|congruence|done]. }
  intros [r2 st2] (R2 & HP2 & HR2 & Hb2 & Hg2 & Ho2). clear r2.
  eapply wp_bind; [apply (partial_del s h0 Hnd AM1 AM2 tot fuel st2 _ true KUeip (s_ueip s) _
    HP2 HR2 Pu)|].
  { intros Ht. destruct (Htot Ht) as (_ & _ & Hs & _).
    eapply slack_for_other; [done|congruence|]. eapply slack_for_other; [done|congruence|done]. }
  intros [r3 st3] (R3 & HP3 & HR3 & Hb3 & Hg3 & Ho3). clear r3.
  eapply wp_bind; [apply (partial_del s h0 Hnd AM1 AM2 tot fuel st3 _ true KTeid (s_t2 s) _
    HP3 HR3 P2)|].
  { intros Ht. destruct (Htot Ht) as (_ & _ & _ & Hs & _). destruct (Hparts Ht) as (? & ? & ?).
    eapply slack_for_other; [done|congruence|]. eapply slack_for_other; [done|congruence|].
    eapply slack_for_other; [done|congruence|done]. }
  intros [r4 st4] (R4 & HP4 & HR4 & Hb4 & Hg4 & _). clear r4.
  assert (R4 = []) as -> by (apply fmap_nil_inv with (f := fst); by apply Permutation_nil_r).
  apply HK; [done|congruence|congruence].
Qed.

Lemma delete_session_wp tot fuel st pre s post base x :
  gtp_rep st (pre ++ s :: post) base → not_shadowed pre s →
  (tot = true → slack_for_session st s) →
  wp tot (delete_session fuel st (s_t2 s) x) (λ '(st', x'),
    x' = xlate_output_action x (ovs_phy_port st) ∧ globals st' = globals st ∧
    gtp_rep st' (pre ++ post) base).
Proof.
  intros HR Hns Htot. destruct (rep_others _ _ _ _ _ HR) as (Hnd & _ & _ & _).
  assert (s ∈ pre ++ s :: post) as Hs by (rewrite elem_of_app; right; left).
  assert ((KTeid, s_t2 s, s_n2 s) ∈ sess_entries s) as He by left.
  pose proof (rep_entry _ _ _ _ _ _ _ HR Hs He) as Hp.
  pose proof (rep_tunnel _ _ _ _ HR Hs) as Ht. unfold sess_tunnel in Ht.
  assert (s_tun s ≠ s_n2 s) as Hne by congruence.
  unfold delete_session, gtp_manager_get_teid_pgw.
  rewrite (get_node_spec _ _ _ _ (gr_maps _ _ _ HR)).
  rewrite am_app, am_cons, (Hns _ _ _ He). unfold sess_entries at 1.
  rewrite with_key_cons_eq. cbn [app]. unfold read_node at 1. rewrite Hp, decide_True by done.
  cbn [obind deref kn_key kn_tunnel kn_ref_count]. change (u8 (1 + 1)) with 2.
  pose proof (partial_hold _ _ _ _ _ Hnd (partial_start _ _ _ _ _ HR)) as HP.
  set (st1 := write_node st KTeid (s_n2 s) _) in *.
  assert (heap st1 = <[s_n2 s := ONode KTeid (mkNode (s_t2 s) (s_tun s) 2)]> (heap st)) as Hh1 by done.
  unfold read_node at 1. rewrite Hh1, lookup_insert_eq, decide_True by done.
  cbn [obind kn_tunnel]. unfold read_tunnel. rewrite Hh1, lookup_insert_ne, Ht by done.
  cbn [obind teid4_sgw_c teid5_sgw_u ue_ip].
  eapply del_session_wp; [done|exact Hns|exact HP|exact Htot|].
  intros st4 HP4 Hb4 Hg4.
  assert (∀ q, refs s [] true q = if Pos.eqb q (s_n2 s) then 1 else 0) as Hrefs.
  { intros q. unfold refs. by rewrite decide_False by (apply not_elem_of_nil). }
  destruct (partial_unref s _ Hnd (refs s [] true) (refs s [] false) (heap st4) KTeid (s_t2 s)
    (s_n2 s) (pa_heap _ _ _ _ _ _ _ HP4) He) as [Hcnt Hh].
  { rewrite Hrefs, Pos.eqb_refl. lia. }
  { by rewrite Hrefs, Pos.eqb_refl. }
  { intros q Hq. by rewrite Hrefs, (proj2 (Pos.eqb_neq _ _) Hq). }
  pose proof Hcnt as (n & t & r & Hn & Hrc & Htn & Hr).
  rewrite (unref_node_spec st4 KTeid (s_n2 s) n Hn Hrc) by eauto. simpl wp.
  assert (globals st4 = globals st) as Hg by (by rewrite Hg4).
  split_and!; [by injection Hg as _ _ -> _|done|].
  eapply (rep_without st); [done| |done|done].
  destruct HP4 as [HM4 _ Hn4 Hs4]. split; [|done|done|done].
  eapply maps_rep_frame; [done|by intros []|]. intros k key p Hin. simpl.
  apply node_key_unref; [done|]. intros ->.
  destruct (rep_others _ _ _ _ _ HR) as (_ & _ & Hnone & _).
  apply (am_not_other pre post base k key (s_n2 s)).
  - apply Hnone. rewrite sess_objs_locs. right. by eapply entry_loc.
  - by rewrite am_app.
Qed.
End DeleteSession.
