(* ===== verification/GtpHandlers.v ===== *)
(** * From packets to sessions: [handle_gtp] and [handle_pgw_sgi]

    The entry points of the GTP manager on encoded packets, in a state that
    holds the sessions [Ss]. *)
From Stdlib Require Import ZArith Lia.
From stdpp Require Import base list gmap numbers option.
From S2P Require Import Prelude Hash CmapRefine CmapReplace MapIface GtpWire GtpWireProofs GtpManager GtpPgw GtpMaps GtpSessions GtpDelete.
Open Scope Z_scope.

(** ** What any call outputs, in any state *)

(** [x'] is [x] with at most one more output, to a port in [P]. *)
Definition at_most_one (P : Z → Prop) (x x' : xlate) : Prop :=
  x_out x' = x_out x ∨ ∃ port ip eth, P port ∧ x_out x' = x_out x ++ [(port, ip, eth)].

Lemma at_most_one_refl P x : at_most_one P x x.
Proof. by left. Qed.
Lemma at_most_one_output (P : Z → Prop) x port : P port → at_most_one P x (xlate_output_action x port).
Proof. intros. right. by do 3 eexists. Qed.
Lemma at_most_one_pgw (P : Z → Prop) x g : P (gtp_pgw_port g) → at_most_one P x (send_to_pgw g x).
Proof. intros. right. by do 3 eexists. Qed.
Lemma at_most_one_sgi (P : Z → Prop) x g : P (pgw_sgi_port g) → at_most_one P x (send_to_sgi g x).
Proof. intros. right. by do 3 eexists. Qed.

#[export] Hint Resolve at_most_one_refl at_most_one_output : gtp.

Section Outputs.
Context `{HF : HashFns} `{MO : MapOps T}.
Implicit Types st : gtp T.

(** A call that succeeds leaves the static variables, the maps apart. *)
Definition keeps st : gtp T → Prop := λ st', globals st' = globals st.

Lemma nth_pgw_Ret st i g : nth_pgw st i = Ret g → g ∈ pgw_list st.
Proof.
  unfold nth_pgw. destruct (0 <=? i); [|done].
  destruct (pgw_list st !! _) eqn:E; [|done]. intros [= <-]. by eapply list_elem_of_lookup_2.
Qed.

Lemma get_node_keeps k st key r st' : get_node k st key = Ret (r, st') → keeps st st'.
Proof.
  unfold get_node. intros H. inv_ret. destruct a; inv_ret; by simplify_eq.
Qed.

Lemma put_node_keeps fuel k st key tun r st' :
  put_node fuel k st key tun = Ret (r, st') → keeps st st'.
Proof.
  unfold put_node. intros H. inv_ret. cbn [xmalloc] in H. inv_ret.
  destruct a0 as [[? ?] ?]. simplify_eq. by destruct k.
Qed.

Lemma free_keeps st p st' : free st p = Ret st' → keeps st st'.
Proof. unfold free. destruct (heap st !! p); [|done]. by intros [= <-]. Qed.

Lemma unref_node_keeps k st p st' : unref_node k st p = Ret st' → keeps st st'.
Proof.
  unfold unref_node. intros H. apply obind_Ret in H as (nd & _ & H).
  destruct (_ =? 0); [|by simplify_eq].
  apply obind_Ret in H as (t & _ & H). apply obind_Ret in H as (rc & _ & H).
  apply obind_Ret in H as (st1 & H1 & H). apply free_keeps in H.
  unfold keeps in *. rewrite H. destruct (rc - 1 =? 0); [|by simplify_eq].
  by apply free_keeps in H1 as ->.
Qed.

Lemma del_node_keeps fuel k st key r st' : del_node fuel k st key = Ret (r, st') → keeps st st'.
Proof.
  unfold del_node. intros H. inv_ret. destruct a2 as [[? ?] ?]. inv_ret. simplify_eq.
  apply unref_node_keeps in Ha3. unfold keeps in *. rewrite Ha3. by destruct k.
Qed.

Lemma forward_outputs (P : Z → Prop) k st key x send st' x' :
  (∀ g, g ∈ pgw_list st → at_most_one P x (send g x)) →
  forward_by_key k st key x send = Ret (st', x') → at_most_one P x x'.
Proof.
  intros Hsend H. unfold forward_by_key in H. apply obind_Ret in H as ([r st1] & Hg & H).
  apply get_node_keeps in Hg. destruct r as [p|]; [|simplify_eq; auto with gtp].
  apply obind_Ret in H as (nd & _ & H). apply obind_Ret in H as (t & _ & H).
  apply obind_Ret in H as (i & _ & H). apply obind_Ret in H as (g & Hn & H).
  apply obind_Ret in H as (st2 & _ & H). simplify_eq. apply nth_pgw_Ret in Hn.
  destruct (gtp_pgw_ip g =? 0); [auto with gtp|]. apply Hsend.
  unfold keeps, globals in Hg. congruence.
Qed.

Lemma create_outputs fuel st t2 t4 t5 ueip x st' x' :
  create_session fuel st t2 t4 t5 ueip x = Ret (st', x') →
  at_most_one (λ p, p = ovs_phy_port st) x x'.
Proof.
  unfold create_session. destruct (all_set _); [|intros [= _ <-]; auto with gtp].
  destruct (pgw_fastpath st =? 0); [|intros [= _ <-]; auto with gtp]. cbn [xmalloc].
  destruct (negb _); [|intros [= _ <-]; auto with gtp]. intros H.
  do 4 (apply obind_Ret in H as ([? ?] & ?%put_node_keeps & H)). simplify_eq.
  apply at_most_one_output. unfold keeps, globals in *. simplify_eq. simpl in *. congruence.
Qed.

Lemma delete_outputs fuel st t2 x st' x' :
  delete_session fuel st t2 x = Ret (st', x') →
  at_most_one (λ p, p = ovs_phy_port st) x x'.
Proof.
  unfold delete_session. intros H. apply obind_Ret in H as ([r st1] & Hg%get_node_keeps & H).
  do 3 (apply obind_Ret in H as (? & _ & H)).
  do 4 (apply obind_Ret in H as ([? ?] & ?%del_node_keeps & H)).
  apply obind_Ret in H as (st2 & ?%unref_node_keeps & H). simplify_eq.
  apply at_most_one_output. unfold keeps, globals in *. congruence.
Qed.

(** Where a call may send a packet that arrived on [port]. *)
Definition allowed st (port : Z) (field : gtp_pgw_node → Z) (p : Z) : Prop :=
  if port =? ovs_phy_port st then ∃ g, g ∈ pgw_list st ∧ p = field g
  else p = ovs_phy_port st.

Lemma gtpc_outputs fuel st x msg packet st' x' :
  handle_gtpc_message fuel st x msg packet = Ret (st', x') →
  at_most_one (allowed st (in_port (x_flow x)) gtp_pgw_port) x x'.
Proof.
  unfold handle_gtpc_message, allowed. destruct (in_port (x_flow x) =? ovs_phy_port st).
  - intros H. apply obind_Ret in H as (b & _ & H). destruct b.
    + destruct (ovs_total st =? 0); [done|].
      destruct (_ =? ovs_id st); [|simplify_eq; auto with gtp].
      unfold gtp_manager_get_pgw in H.
      destruct (scan_from st (current st) _) as [i|];
        apply obind_Ret in H as (g & Hg%nth_pgw_Ret & H); simplify_eq; apply at_most_one_pgw; eauto.
    + apply obind_Ret in H as (t & _ & H). eapply forward_outputs; [|done].
      intros g Hg. apply at_most_one_pgw. eauto.
  - intros H. apply obind_Ret in H as (b & _ & H). destruct b; [simplify_eq; auto with gtp|].
    apply obind_Ret in H as (t & _ & H). destruct (c_message_type msg =? 33).
    + apply obind_Ret in H as ([[t4 t5] ueip] & _ & H). by eapply create_outputs.
    + destruct (c_message_type msg =? 37); [by eapply delete_outputs|].
      simplify_eq. auto with gtp.
Qed.

Lemma gtpu_outputs st x msg st' x' :
  handle_gtpu_message st x msg = Ret (st', x') →
  at_most_one (allowed st (in_port (x_flow x)) gtp_pgw_port) x x'.
Proof.
  unfold handle_gtpu_message, allowed. destruct (in_port (x_flow x) =? ovs_phy_port st).
  - destruct (u_teid msg =? 0); [intros [= _ <-]; auto with gtp|].
    destruct (pgw_fastpath st =? 0); [|intros [= _ <-]; auto with gtp].
    intros H. eapply forward_outputs; [|done]. intros g Hg. apply at_most_one_pgw. eauto.
  - destruct (pgw_fastpath st =? 0); intros [= _ <-]; auto with gtp.
Qed.

Lemma parse_gtpc_keeps st packet r st' :
  parse_gtpc_msg_header st packet = Ret (r, st') → keeps st st'.
Proof.
  unfold parse_gtpc_msg_header. cbn [xmalloc]. intros H.
  apply obind_Ret in H as ([h|] & _ & H); by simplify_eq.
Qed.

Lemma parse_gtpu_keeps st packet r st' :
  parse_gtpu_message st packet = Ret (r, st') → keeps st st'.
Proof.
  unfold parse_gtpu_message. cbn [xmalloc]. intros H.
  apply obind_Ret in H as ([h|] & _ & H); [by simplify_eq|].
  apply obind_Ret in H as (st1 & H1%free_keeps & H). simplify_eq.
  unfold keeps in *. by rewrite H1.
Qed.

Lemma allowed_keeps st st' port field p :
  keeps st st' → allowed st' port field p → allowed st port field p.
Proof. intros [= H1 H2 H3 H4 H5]. unfold allowed. by rewrite H3, H5. Qed.

Lemma at_most_one_mono (P Q : Z → Prop) x x' :
  (∀ p, P p → Q p) → at_most_one P x x' → at_most_one Q x x'.
Proof. intros HPQ [?|(port & ip & eth & HP & ?)]; [by left|right]. by exists port, ip, eth; auto. Qed.

Lemma handle_gtp_outputs fuel st x packet st' x' :
  handle_gtp fuel st x packet = Ret (st', x') →
  at_most_one (allowed st (in_port (x_flow x)) gtp_pgw_port) x x'.
Proof.
  unfold handle_gtp. destruct packet as [packet|]; [|intros [= _ <-]; auto with gtp].
  destruct (maybe_gtpc_message _).
  { intros H. apply obind_Ret in H as ([r st1] & Hk%parse_gtpc_keeps & H).
    destruct r as [p|]; [|simplify_eq; auto with gtp].
    apply obind_Ret in H as (msg & _ & H). apply obind_Ret in H as ([st2 x2] & Hh & H).
    apply obind_Ret in H as (st3 & _ & H). simplify_eq.
    eapply at_most_one_mono; [|by eapply gtpc_outputs]. intros p'. by apply allowed_keeps. }
  destruct (maybe_gtpu_message _); [|intros [= _ <-]; auto with gtp].
  intros H. apply obind_Ret in H as ([r st1] & Hk%parse_gtpu_keeps & H).
  destruct r as [p|]; [|simplify_eq; auto with gtp].
  apply obind_Ret in H as (msg & _ & H). apply obind_Ret in H as ([st2 x2] & Hh & H).
  apply obind_Ret in H as (st3 & _ & H). simplify_eq.
  eapply at_most_one_mono; [|by eapply gtpu_outputs]. intros p'. by apply allowed_keeps.
Qed.

Lemma handle_pgw_sgi_outputs st x packet st' x' :
  handle_pgw_sgi st x packet = Ret (st', x') →
  at_most_one (allowed st (in_port (x_flow x)) pgw_sgi_port) x x'.
Proof.
  unfold handle_pgw_sgi, allowed. destruct packet; [|intros [= _ <-]; auto with gtp].
  destruct (in_port (x_flow x) =? ovs_phy_port st).
  - destruct (pgw_fastpath st =? 0); [|intros [= _ <-]; auto with gtp].
    intros H. eapply forward_outputs; [|done]. intros g Hg. apply at_most_one_sgi. eauto.
  - destruct (pgw_fastpath st =? 0); intros [= _ <-]; auto with gtp.
Qed.
End Outputs.

(** ** In a state that holds sessions *)
Section Handlers.
Context `{HF : HashFns} `{ML : MapLaws T}.
Implicit Types st : gtp T.

(** Allocating and freeing a message leaves the sessions alone. *)
Lemma gtp_rep_xmalloc st Ss base o :
  gtp_rep st Ss base → gtp_rep (xmalloc st o).2 Ss (<[brk st := o]> base).
Proof.
  intros HR. pose proof (brk_ok_fresh _ (gr_brk _ _ _ HR)) as Hf.
  split; [|apply HR| | | |eapply (globals_pgws st); [done|apply HR]|apply HR].
  - apply maps_rep_alloc; [apply HR|apply HR].
  - simpl. rewrite (gr_heap _ _ _ HR). rewrite <-insert_union_r; [done|].
    rewrite (gr_heap _ _ _ HR) in Hf. by apply lookup_union_None in Hf as [? _].
  - intros p Hp. rewrite lookup_insert_ne; [by apply HR|]. intros <-.
    pose proof (objs_in_heap _ _ _ _ HR Hp). lia.
  - eapply (brk_ok_alloc st); [apply HR|done|done].
Qed.

(** The same objects with other contents of a message. *)
Lemma gtp_rep_write st Ss base p o o' :
  gtp_rep st Ss base → base !! p = Some o → (∀ k n, o ≠ ONode k n) → (∀ k n, o' ≠ ONode k n) →
  gtp_rep (set_heap st (<[p := o']> (heap st))) Ss (<[p := o']> base).
Proof.
  intros HR Hp Ho Ho'.
  assert (p ∉ (objs Ss).*1) as Hn.
  { intros Hin. rewrite (gr_disj _ _ _ HR p Hin) in Hp. done. }
  assert (list_to_map (M := gmap positive obj) (objs Ss) !! p = None) as Hnone
    by (by apply not_elem_of_list_to_map_1).
  assert (heap st !! p = Some o) as Hhp by (rewrite (gr_heap _ _ _ HR), lookup_union_r by done; done).
  split; [|apply HR| | | |eapply (globals_pgws st); [done|apply HR]|apply HR].
  - eapply maps_rep_frame; [apply HR|by intros []|]. intros k key q Hq. simpl. unfold node_key.
    destruct (decide (q = p)) as [->|]; [|by rewrite lookup_insert_ne].
    apply (maps_rep_key _ _ _ _ _ (gr_maps _ _ _ HR)), node_key_Some in Hq as (n & Hn' & _).
    congruence.
  - simpl. rewrite (gr_heap _ _ _ HR). by rewrite insert_union_r.
  - intros q Hq. rewrite lookup_insert_ne; [by apply HR|congruence].
  - intros q Hq. apply (gr_brk _ _ _ HR). simpl in Hq. rewrite dom_insert in Hq.
    apply elem_of_union in Hq as [Hq|Hq]; [|done]. apply elem_of_singleton in Hq. subst q.
    by eapply elem_of_dom_2.
Qed.

Lemma gtp_rep_free st Ss base p o :
  gtp_rep st Ss base → base !! p = Some o → (∀ k n, o ≠ ONode k n) →
  ∃ st', free st p = Ret st' ∧ gtp_rep st' Ss (delete p base) ∧ globals st' = globals st.
Proof.
  intros HR Hp Ho.
  assert (p ∉ (objs Ss).*1) as Hn.
  { intros Hin. rewrite (gr_disj _ _ _ HR p Hin) in Hp. done. }
  assert (list_to_map (M := gmap positive obj) (objs Ss) !! p = None) as Hnone
    by (by apply not_elem_of_list_to_map_1).
  assert (heap st !! p = Some o) as Hhp by (rewrite (gr_heap _ _ _ HR), lookup_union_r by done; done).
  eexists. unfold free. rewrite Hhp. split; [done|]. split; [|done].
  split; [|apply HR| | | |eapply (globals_pgws st); [done|apply HR]|apply HR].
  - eapply maps_rep_frame; [apply HR|by intros []|]. intros k key q Hq. simpl. unfold node_key.
    destruct (decide (q = p)) as [->|]; [|by rewrite lookup_delete_ne].
    apply (maps_rep_key _ _ _ _ _ (gr_maps _ _ _ HR)), node_key_Some in Hq as (n & Hn' & _).
    congruence.
  - simpl. rewrite (gr_heap _ _ _ HR), delete_union. f_equal. by apply delete_id.
  - intros q Hq. rewrite lookup_delete_ne; [by apply HR|congruence].
  - intros q Hq. apply (gr_brk _ _ _ HR). simpl in Hq. rewrite dom_delete in Hq. set_solver.
Qed.

(** Reading the message that the parser stored. *)
Lemma base_lookup st Ss base p o : gtp_rep st Ss base → base !! p = Some o → heap st !! p = Some o.
Proof.
  intros HR Hp. rewrite (gr_heap _ _ _ HR), lookup_union_r; [done|].
  apply not_elem_of_list_to_map_1. intros Hin. rewrite (gr_disj _ _ _ HR p Hin) in Hp. done.
Qed.

(** [handle_gtp] on a GTP-C message: the message is allocated around the call
    of [handle_gtpc_message]. *)
Lemma handle_gtp_gtpc_wp tot fuel st Ss base x packet msg (Ss' : gtp T → list session) Q :
  gtp_rep st Ss base → maybe_gtpc_message (x_flow x) = true →
  gtpc_header_of packet = Ret (Some msg) →
  (∀ st1 base1, gtp_rep st1 Ss base1 → globals st1 = globals st →
     (∀ k, maps st1 k = maps st k) → size (heap st1) = S (size (heap st)) →
     wp tot (handle_gtpc_message fuel st1 x msg packet) (λ '(st', x'),
       gtp_rep st' (Ss' st1) base1 ∧ Q (globals st') x')) →
  wp tot (handle_gtp fuel st x (Some packet)) (λ '(st', x'),
    (∃ st1, gtp_rep st' (Ss' st1) base) ∧ Q (globals st') x').
Proof.
  intros HR Hc Hmsg Hk. unfold handle_gtp. rewrite Hc. unfold parse_gtpc_msg_header.
  pose proof (gtp_rep_xmalloc st Ss base (OGtpc None) HR) as HR1. cbn [xmalloc] in *.
  rewrite Hmsg. cbn [obind]. simpl snd in HR1.
  apply (gtp_rep_write _ _ _ (brk st) (OGtpc None) (OGtpc (Some msg))) in HR1;
    [|apply lookup_insert_eq|done|done].
  rewrite insert_insert_eq in HR1. set (st1 := set_heap _ _) in *.
  assert (read_gtpc st1 (brk st) = Ret msg) as ->.
  { unfold read_gtpc. rewrite (base_lookup _ _ _ _ (OGtpc (Some msg)) HR1); [done|].
    apply lookup_insert_eq. }
  cbn [obind].
  assert (size (heap st1) = S (size (heap st))) as Hsz.
  { unfold st1. simpl. rewrite insert_insert_eq, map_size_insert_None; [done|].
    apply brk_ok_fresh, HR. }
  eapply wp_bind; [apply (Hk st1 _ HR1); [done|by intros []|done]|].
  intros [st2 x2] [HR2 HQ]. cbn [obind].
  destruct (gtp_rep_free st2 _ _ (brk st) _ HR2 (lookup_insert_eq _ _ _)) as (st3 & -> & HR3 & Hg3);
    [done|]. simpl. split; [|by rewrite Hg3]. exists st1.
  rewrite delete_insert_id in HR3; [done|].
  destruct (base !! brk st) as [o|] eqn:E; [|done].
  pose proof (base_lookup _ _ _ _ _ HR E) as Hl. by rewrite (brk_ok_fresh _ (gr_brk _ _ _ HR)) in Hl.
Qed.

(** The same for GTP-U; the sessions do not change. *)
Lemma handle_gtp_gtpu_wp tot fuel st Ss base x packet msg Q :
  gtp_rep st Ss base → maybe_gtpc_message (x_flow x) = false →
  maybe_gtpu_message (x_flow x) = true → gtpu_header_of packet = Ret (Some msg) →
  (∀ st1 base1, gtp_rep st1 Ss base1 → globals st1 = globals st →
     wp tot (handle_gtpu_message st1 x msg) (λ '(st', x'),
       gtp_rep st' Ss base1 ∧ Q (globals st') x')) →
  wp tot (handle_gtp fuel st x (Some packet)) (λ '(st', x'),
    gtp_rep st' Ss base ∧ Q (globals st') x').
Proof.
  intros HR Hc Hu Hmsg Hk. unfold handle_gtp. rewrite Hc, Hu. unfold parse_gtpu_message.
  pose proof (gtp_rep_xmalloc st Ss base (OGtpu None) HR) as HR1. cbn [xmalloc] in *.
  rewrite Hmsg. cbn [obind]. simpl snd in HR1.
  apply (gtp_rep_write _ _ _ (brk st) (OGtpu None) (OGtpu (Some msg))) in HR1;
    [|apply lookup_insert_eq|done|done].
  rewrite insert_insert_eq in HR1. set (st1 := set_heap _ _) in *.
  assert (read_gtpu st1 (brk st) = Ret msg) as ->.
  { unfold read_gtpu. rewrite (base_lookup _ _ _ _ (OGtpu (Some msg)) HR1); [done|].
    apply lookup_insert_eq. }
  cbn [obind].
  eapply wp_bind; [by apply (Hk st1 _ HR1)|].
  intros [st2 x2] [HR2 HQ]. cbn [obind].
  destruct (gtp_rep_free st2 _ _ (brk st) _ HR2 (lookup_insert_eq _ _ _)) as (st3 & -> & HR3 & Hg3);
    [done|]. simpl. split; [|by rewrite Hg3].
  rewrite delete_insert_id in HR3; [done|].
  destruct (base !! brk st) as [o|] eqn:E; [|done].
  pose proof (base_lookup _ _ _ _ _ HR E) as Hl. by rewrite (brk_ok_fresh _ (gr_brk _ _ _ HR)) in Hl.
Qed.

(** What forwarding by a key sends: nothing without a session or when its
    gateway was deleted, else one copy to the gateway. *)
Definition forwarded (g_list : list gtp_pgw_node) (Ss : list session) (k : kind) (key : Z)
    (send : gtp_pgw_node → xlate → xlate) (x : xlate) : xlate :=
  match newest Ss k key with
  | None => x
  | Some s =>
      match g_list !! Z.to_nat (s_pgw s) with
      | Some g => if gtp_pgw_ip g =? 0 then x else send g x
      | None => x
      end
  end.

Lemma forward_forwarded st Ss base k key x send :
  gtp_rep st Ss base →
  forward_by_key k st key x send = Ret (st, forwarded (pgw_list st) Ss k key send x).
Proof.
  intros HR. destruct (forward_by_key_spec st Ss base k key x send HR) as (x' & -> & Hx').
  do 2 f_equal. unfold forwarded. destruct (newest Ss k key) as [s|]; [|done].
  by destruct Hx' as (g & -> & ->).
Qed.

(** Downlink packets on the SGi side. *)
Lemma handle_pgw_sgi_spec st Ss base x packet :
  gtp_rep st Ss base →
  handle_pgw_sgi st x (Some packet) = Ret (st,
    if pgw_fastpath st =? 0 then
      if in_port (x_flow x) =? ovs_phy_port st
      then forwarded (pgw_list st) Ss KUeip (nw_dst (x_flow x)) send_to_sgi x
      else xlate_output_action x (ovs_phy_port st)
    else x).
Proof.
  intros HR. unfold handle_pgw_sgi. destruct (in_port (x_flow x) =? ovs_phy_port st);
    destruct (pgw_fastpath st =? 0); try done. by eapply forward_forwarded.
Qed.

Lemma newest_head s Ss k key p : (k, key, p) ∈ sess_entries s → newest (s :: Ss) k key = Some s.
Proof.
  intros He. unfold newest. rewrite filter_cons, decide_True; [done|].
  intros Hnil. apply elem_of_with_key in He. rewrite Hnil in He. by apply not_elem_of_nil in He.
Qed.
End Handlers.
