(* ===== verification/CsumProofs.v ===== *)
(** * Checksums: lemmas

    The one's complement sum in closed form, the incremental update of RFC
    1624 as a congruence modulo 65535, and the table-driven CRC as division by
    its polynomial, bit by bit. *)
From Stdlib Require Import ZArith Lia.
From stdpp Require Import base list numbers option.
From S2P Require Import Prelude GtpWire GtpWireProofs Csum.
Open Scope Z_scope.

(** ** The one's complement sum *)

(** The representative of [s] modulo 65535 in one's complement arithmetic: 0
    only for 0, 65535 for the other multiples of 65535. *)
Definition onesum (s : Z) : Z := if s =? 0 then 0 else 1 + (s - 1) mod 65535.

Lemma onesum_unique s r k :
  0 ≤ s → 0 ≤ r ≤ 65535 → r = s + 65535 * k → (r = 0 ↔ s = 0) → onesum s = r.
Proof.
  intros Hs Hr Hk H0. unfold onesum. destruct (Z.eqb_spec s 0) as [->|Hne]; [symmetry; by apply H0|].
  assert ((s - 1) mod 65535 = r - 1) as ->; [|lia].
  symmetry. apply Z.mod_unique with (- k); lia.
Qed.

Lemma onesum_spec s : 0 ≤ s → 0 ≤ onesum s ≤ 65535 ∧ (∃ k, onesum s = s + 65535 * k) ∧
  (onesum s = 0 ↔ s = 0).
Proof.
  intros Hs. unfold onesum. destruct (Z.eqb_spec s 0) as [->|Hne]; [split_and!; [lia..|by exists 0|done]|].
  pose proof (Z.mod_pos_bound (s - 1) 65535). split_and!; [lia..| |lia].
  exists (- ((s - 1) / 65535)). pose proof (Z.div_mod (s - 1) 65535). lia.
Qed.

Lemma onesum_small s : 0 ≤ s ≤ 65535 → onesum s = s.
Proof. intros. apply (onesum_unique s s 0); lia. Qed.

Lemma halves x : Z.land x 0xffff + 65536 * Z.shiftr x 16 = x ∧ 0 ≤ Z.land x 0xffff < 65536.
Proof.
  change 0xffff with (Z.ones 16). rewrite Z.land_ones, Z.shiftr_div_pow2 by lia.
  change (2 ^ 16) with 65536. pose proof (Z.mod_pos_bound x 65536). pose proof (Z.div_mod x 65536). lia.
Qed.

Lemma fold_carries_small fuel s : 0 ≤ s < 65536 → fold_carries fuel s = Ret s.
Proof. intros. destruct (halves s). destruct fuel; simpl; by rewrite (proj2 (Z.eqb_eq _ _)) by lia. Qed.

Lemma fold_carries_S fuel s :
  65536 ≤ s < 2 ^ 32 →
  fold_carries (S fuel) s = fold_carries fuel (Z.land s 0xffff + Z.shiftr s 16).
Proof.
  intros. destruct (halves s). cbn [fold_carries]. rewrite (proj2 (Z.eqb_neq _ _)) by lia.
  by rewrite u32_small by lia.
Qed.

Lemma fold_carries_spec s : 0 ≤ s < 2 ^ 32 → fold_carries 2 s = Ret (onesum s).
Proof.
  intros Hs. destruct (Z_lt_ge_dec s 65536) as [H1|H1].
  { rewrite fold_carries_small, onesum_small by lia. done. }
  destruct (halves s) as [E1 R1]. rewrite fold_carries_S by lia.
  set (t := Z.land s 65535 + Z.shiftr s 16) in *.
  destruct (Z_lt_ge_dec t 65536) as [H2|H2].
  { rewrite fold_carries_small by lia. f_equal. symmetry.
    apply (onesum_unique s t (- Z.shiftr s 16)); lia. }
  destruct (halves t) as [E2 R2]. rewrite fold_carries_S by lia.
  rewrite fold_carries_small by lia. f_equal. symmetry.
  apply (onesum_unique s _ (- Z.shiftr s 16 - Z.shiftr t 16)); lia.
Qed.

Lemma lnot16 x : 0 ≤ x < 65536 → u16 (Z.lnot x) = 65535 - x.
Proof.
  intros. unfold u16, Z.lnot. replace (Z.pred (- x)) with (65535 - x + (-1) * 2 ^ 16) by lia.
  rewrite Z.mod_add by lia. apply Z.mod_small. lia.
Qed.

Lemma csum_finish_spec s : 0 ≤ s < 2 ^ 32 → csum_finish s = Ret (65535 - onesum s).
Proof.
  intros Hs. unfold csum_finish. rewrite fold_carries_spec by done. cbn [obind].
  pose proof (onesum_spec s). rewrite lnot16 by lia. done.
Qed.

(** A sum passes the check if and only if it is a positive multiple of 65535. *)
Definition sum_ok (s : Z) : Prop := 0 < s ∧ ∃ k, s = 65535 * k.

Lemma csum_finish_ok s : 0 ≤ s < 2 ^ 32 → csum_finish s = Ret 0 ↔ sum_ok s.
Proof.
  intros Hs. rewrite csum_finish_spec by done.
  destruct (onesum_spec s) as (Hr & [k Hk] & H0); [lia|]. split.
  - intros [= H]. split; [lia|]. exists (1 - k). lia.
  - intros [Hp [j Hj]]. f_equal. assert (onesum s = 65535); [|lia].
    apply (onesum_unique s 65535 (1 - j)); lia.
Qed.

(** ** Sums of 16-bit words *)

(** The sum of the words of [l], its last byte padded with a zero; [e] tells
    whether [l] starts at an even distance from the start of the data. *)
Fixpoint wsum (e : bool) (l : list Z) : Z :=
  match l with
  | [] => 0
  | x :: l => (if e then x else 2 ^ 8 * x) + wsum (negb e) l
  end.

Lemma pairs_ind {A} (P : list A → Prop) :
  P [] → (∀ x, P [x]) → (∀ x y l, P l → P (x :: y :: l)) → ∀ l, P l.
Proof.
  intros H0 H1 H2. assert (∀ l, P l ∧ ∀ x, P (x :: l)) as H; [|intros l; apply H].
  induction l as [|x l [IH1 IH2]]; auto.
Qed.

Lemma wsum_range e l : Forall is_byte l → 0 ≤ wsum e l ≤ 65280 * Z.of_nat (length l).
Proof.
  intros Hl. revert e. induction Hl as [|x l Hx Hl IH]; intros e; [simpl; lia|].
  pose proof (IH (negb e)). unfold is_byte in Hx. simpl length. cbn [wsum]. destruct e; lia.
Qed.

Lemma wsum_app e l1 l2 :
  wsum e (l1 ++ l2) = wsum e l1 + wsum (if Nat.even (length l1) then e else negb e) l2.
Proof.
  revert e. induction l1 as [|x l1 IH]; intros e; [done|]. rewrite <-app_comm_cons. cbn [wsum length].
  rewrite IH, Nat.even_succ, <-Nat.negb_even.
  destruct (Nat.even (length l1)); simpl; rewrite ?negb_involutive; lia.
Qed.

Lemma csum_continue_spec l partial :
  Forall is_byte l → 0 ≤ partial → partial + wsum true l < 2 ^ 32 →
  csum_continue partial l = partial + wsum true l.
Proof.
  intros Hl. revert partial. induction l as [|x|x y l IH] using pairs_ind; intros partial Hp Hb.
  - simpl. lia.
  - apply Forall_cons_1 in Hl as [Hx _]. unfold is_byte in Hx. simpl in *.
    rewrite u32_small by lia. lia.
  - apply Forall_cons_1 in Hl as [Hx Hl]. apply Forall_cons_1 in Hl as [Hy Hl].
    pose proof (wsum_range true l Hl). unfold is_byte in *. cbn [wsum negb] in *. cbn [csum_continue].
    unfold csum_add16, host16. rewrite u32_small by lia. rewrite IH by (done || lia). lia.
Qed.

Lemma csum_add32_spec partial x :
  0 ≤ x < 2 ^ 32 → 0 ≤ partial → partial + 2 * 65535 < 2 ^ 32 →
  csum_add32 partial x = partial + Z.land x 0xffff + Z.shiftr x 16.
Proof.
  intros Hx Hp Hb. destruct (halves x). unfold csum_add32. rewrite (u32_small (partial + _)) by lia.
  rewrite u32_small; lia.
Qed.

(** ** Incremental update *)

Lemma recalc_csum16_spec c o n :
  0 ≤ c < 65536 → 0 ≤ o < 65536 → 0 ≤ n < 65536 →
  returns (recalc_csum16 c o n) (λ r, 0 ≤ r < 65536 ∧ ∃ k, r = c + o - n + 65535 * k).
Proof.
  intros Hc Ho Hn. unfold recalc_csum16. rewrite !lnot16, u32_small by lia.
  rewrite csum_finish_spec by lia. eexists. split; [done|].
  destruct (onesum_spec (65535 - c + (65535 - o) + n)) as (Hr & [k Hk] & _); [lia|].
  split; [lia|]. exists (- k - 1). lia.
Qed.

Lemma u16_low x : u16 x = Z.land x 0xffff.
Proof. change 0xffff with (Z.ones 16). by rewrite Z.land_ones by lia. Qed.

Lemma recalc_csum32_spec c o n :
  0 ≤ c < 65536 → 0 ≤ o < 2 ^ 32 → 0 ≤ n < 2 ^ 32 →
  returns (recalc_csum32 c o n) (λ r, 0 ≤ r < 65536 ∧ ∃ k, r = c + o - n + 65535 * k).
Proof.
  intros Hc Ho Hn. unfold recalc_csum32. destruct (halves o), (halves n).
  rewrite !(u16_low o), !(u16_low n), !u16_small by lia.
  eapply returns_bind; [apply recalc_csum16_spec; lia|]. intros r1 [R1 [k1 K1]].
  destruct (recalc_csum16_spec r1 (Z.shiftr o 16) (Z.shiftr n 16)) as (r & -> & R & [k K]); [lia..|].
  exists r. split; [done|]. split; [lia|].
  exists (k + k1 - Z.shiftr o 16 + Z.shiftr n 16). lia.
Qed.

(** The update of a sequence of fields of [w] bits. *)
Definition zsum (l : list Z) : Z := foldr Z.add 0 l.

Lemma recalc_each_spec recalc w olds news c :
  (∀ c o n, 0 ≤ c < 65536 → 0 ≤ o < w → 0 ≤ n < w →
     returns (recalc c o n) (λ r, 0 ≤ r < 65536 ∧ ∃ k, r = c + o - n + 65535 * k)) →
  length olds = length news → Forall (λ x, 0 ≤ x < w) olds → Forall (λ x, 0 ≤ x < w) news →
  0 ≤ c < 65536 →
  returns (recalc_each recalc c (zip olds news)) (λ r, 0 ≤ r < 65536 ∧
    ∃ k, r = c + zsum olds - zsum news + 65535 * k).
Proof.
  intros Hrec. revert news c. induction olds as [|o olds IH]; intros [|n news] c Hlen Ho Hn Hc; try done.
  - exists c. split; [done|]. split; [done|]. exists 0. simpl. lia.
  - apply Forall_cons_1 in Ho as [Ho Hos]. apply Forall_cons_1 in Hn as [Hn Hns].
    injection Hlen as Hlen. cbn [zip zip_with recalc_each].
    eapply returns_bind; [by apply Hrec|]. intros r1 [R1 [k1 K1]].
    destruct (IH news r1 Hlen Hos Hns R1) as (r & Heq & R & [k K]).
    exists r. split; [exact Heq|]. split; [done|]. exists (k + k1). simpl. lia.
Qed.

(** ** The checksum of data *)

Lemma csum_spec data :
  Forall is_byte data → Z.of_nat (length data) < 65536 →
  csum data = Ret (65535 - onesum (wsum true data)).
Proof.
  intros Hd Hl. pose proof (wsum_range true data Hd). unfold csum.
  rewrite csum_continue_spec by (done || lia). rewrite csum_finish_spec by lia. done.
Qed.

(** Data with its checksum passes the check. *)
Lemma csum_appended data c :
  Forall is_byte data → Z.of_nat (length data) < 65534 → Nat.even (length data) = true →
  csum data = Ret c → csum (data ++ [c mod 2 ^ 8; c / 2 ^ 8]) = Ret 0.
Proof.
  intros Hd Hl He Hc. pose proof (wsum_range true data Hd). rewrite csum_spec in Hc by (done || lia).
  injection Hc as <-. destruct (onesum_spec (wsum true data)) as (Hr & [k Hk] & H0); [lia|].
  set (c := 65535 - onesum (wsum true data)) in *.
  assert (is_byte (c mod 2 ^ 8) ∧ is_byte (c / 2 ^ 8)) as [B1 B2].
  { unfold is_byte. Z.to_euclidean_division_equations. lia. }
  rewrite csum_spec; [|apply Forall_app; auto|rewrite length_app; simpl; lia].
  rewrite wsum_app, He. cbn [wsum negb]. f_equal.
  assert (onesum (wsum true data + (c mod 2 ^ 8 + (2 ^ 8 * (c / 2 ^ 8) + 0))) = 65535); [|lia].
  pose proof (Z.div_mod c (2 ^ 8)). apply (onesum_unique _ _ k); lia.
Qed.

(** The incremental update gives the checksum of the new data, unless these
    are all zero, for which it gives the other zero. *)
Lemma recalc_is_csum pre x y x' y' post c :
  Forall is_byte (pre ++ x :: y :: post) → is_byte x' → is_byte y' →
  Z.of_nat (length (pre ++ x :: y :: post)) < 65536 → Nat.even (length pre) = true →
  csum (pre ++ x :: y :: post) = Ret c →
  wsum true (pre ++ x' :: y' :: post) ≠ 0 →
  recalc_csum16 c (host16 x y) (host16 x' y') = csum (pre ++ x' :: y' :: post).
Proof.
  intros Hd Hx' Hy' Hl He Hc Hnz.
  assert (Forall is_byte (pre ++ x' :: y' :: post)) as Hd'.
  { apply Forall_app in Hd as [Hp Hq]. apply Forall_cons_1 in Hq as [_ Hq].
    apply Forall_cons_1 in Hq as [_ Hq]. apply Forall_app. auto. }
  pose proof (wsum_range true _ Hd). pose proof (wsum_range true _ Hd') as Hr'.
  assert (length (pre ++ x' :: y' :: post) = length (pre ++ x :: y :: post)) as Hlen
    by (by rewrite !length_app).
  rewrite csum_spec in Hc by done. injection Hc as <-. rewrite csum_spec by (done || lia).
  assert (wsum true (pre ++ x' :: y' :: post) - host16 x' y' = wsum true (pre ++ x :: y :: post) - host16 x y)
    as Hw by (rewrite !wsum_app, He; cbn [wsum negb]; unfold host16; lia).
  apply Forall_app in Hd as [Hpre Hq]. apply Forall_cons_1 in Hq as [Hx Hq]. apply Forall_cons_1 in Hq as [Hy Hq].
  assert (0 ≤ wsum true (pre ++ x :: y :: post) - host16 x y) as Hrest.
  { rewrite wsum_app, He. cbn [wsum negb]. pose proof (wsum_range true pre Hpre).
    pose proof (wsum_range true post Hq). unfold host16. lia. }
  set (s := wsum true (pre ++ x :: y :: post)) in *. set (s' := wsum true (pre ++ x' :: y' :: post)) in *.
  assert (0 ≤ host16 x y < 65536 ∧ 0 ≤ host16 x' y' < 65536) as [R1 R2]
    by (unfold is_byte, host16 in *; lia).
  destruct (onesum_spec s) as (Hr & [k Hk] & H0); [lia|].
  unfold recalc_csum16. rewrite !lnot16, u32_small by lia. rewrite csum_finish_spec by lia.
  do 2 f_equal. destruct (onesum_spec s') as (Hr1 & [k1 Hk1] & H01); [lia|].
  apply (onesum_unique _ _ (k1 - k - 1)); lia.
Qed.

(** ** The CRC *)

(** Division by the polynomial 0x1EDC6F41, least significant bit first. *)
Definition crc_poly : Z := 0x82F63B78.
Definition crc_bit (r : Z) : Z :=
  if Z.odd r then Z.lxor (Z.shiftr r 1) crc_poly else Z.shiftr r 1.
Definition crc_bits (n : nat) (r : Z) : Z := Nat.iter n crc_bit r.

(** The CRC of RFC 4960, one byte after the other. *)
Definition crc_reference (data : list Z) : Z :=
  Z.lxor (fold_left (λ r x, crc_bits 8 (Z.lxor r x)) data 0xffffffff) 0xffffffff.

Lemma odd_lxor a b : Z.odd (Z.lxor a b) = xorb (Z.odd a) (Z.odd b).
Proof. by rewrite <-!Z.bit0_odd, Z.lxor_spec. Qed.

Lemma crc_bit_lxor a b : crc_bit (Z.lxor a b) = Z.lxor (crc_bit a) (crc_bit b).
Proof.
  unfold crc_bit. rewrite odd_lxor, Z.shiftr_lxor.
  destruct (Z.odd a), (Z.odd b); cbn [xorb]; try done.
  - rewrite <-!Z.lxor_assoc, (Z.lxor_assoc (Z.shiftr a 1)), (Z.lxor_comm crc_poly (Z.shiftr b 1)).
    by rewrite <-Z.lxor_assoc, (Z.lxor_assoc _ crc_poly crc_poly), Z.lxor_nilpotent, Z.lxor_0_r.
  - rewrite !Z.lxor_assoc. f_equal. apply Z.lxor_comm.
  - by rewrite Z.lxor_assoc.
Qed.

Lemma crc_bits_lxor n a b : crc_bits n (Z.lxor a b) = Z.lxor (crc_bits n a) (crc_bits n b).
Proof.
  unfold crc_bits. induction n as [|n IH]; [done|]. rewrite !Nat.iter_succ, IH. apply crc_bit_lxor.
Qed.

(** Bits above the low [n] are only shifted. *)
Lemma crc_bits_high n a : crc_bits n (Z.shiftl a (Z.of_nat n)) = a.
Proof.
  unfold crc_bits. induction n as [|n IH]; [by rewrite Z.shiftl_0_r|]. rewrite Nat.iter_succ_r.
  rewrite Nat2Z.inj_succ, <-Z.add_1_r, <-Z.shiftl_shiftl by lia. unfold crc_bit.
  rewrite <-Z.bit0_odd, Z.shiftl_spec_low by lia. by rewrite Z.shiftr_shiftl_l, Z.shiftl_0_r by lia.
Qed.

Lemma crc_table_bits x : 0 ≤ x < 256 → nth (Z.to_nat x) crc32Table 0 = crc_bits 8 x.
Proof.
  intros Hx.
  assert (Forall (λ i, nth i crc32Table 0 = crc_bits 8 (Z.of_nat i)) (seq 0 256)) as Hall.
  { apply (bool_decide_unpack _). vm_compute. done. }
  rewrite (proj1 (Forall_forall _ _) Hall (Z.to_nat x)) by (apply in_seq; lia).
  by rewrite Z2Nat.id by lia.
Qed.

Lemma split_byte r : r = Z.lxor (Z.land r 0xff) (Z.shiftl (Z.shiftr r 8) 8).
Proof.
  apply Z.bits_inj'. intros i Hi. rewrite Z.lxor_spec, Z.land_spec. change 0xff with (Z.ones 8).
  destruct (Z_lt_ge_dec i 8).
  - by rewrite Z.shiftl_spec_low, Z.ones_spec_low, andb_true_r, xorb_false_r by lia.
  - rewrite Z.ones_spec_high, andb_false_r, xorb_false_l by lia.
    rewrite Z.shiftl_spec, Z.shiftr_spec by lia. f_equal. lia.
Qed.

Lemma crc32c_byte_bits crc x : is_byte x → crc32c_byte crc x = crc_bits 8 (Z.lxor crc x).
Proof.
  intros Hx. unfold crc32c_byte. set (r := Z.lxor crc x).
  rewrite (split_byte r) at 2. rewrite crc_bits_lxor, (crc_bits_high 8).
  assert (0 ≤ Z.land r 0xff < 256) by (apply (land_mask_range r 8); lia).
  rewrite crc_table_bits by done. f_equal. unfold r. rewrite Z.shiftr_lxor.
  rewrite (Z.shiftr_div_pow2 x), (Z.div_small x) by (unfold is_byte in Hx; lia). by rewrite Z.lxor_0_r.
Qed.

Lemma crc_bit_range r : 0 ≤ r < 2 ^ 32 → 0 ≤ crc_bit r < 2 ^ 32.
Proof.
  intros Hr. unfold crc_bit. assert (0 ≤ Z.shiftr r 1 < 2 ^ 32) by (apply shiftr_range; lia).
  destruct (Z.odd r); [|done]. apply lxor_range; [lia|done|unfold crc_poly; lia].
Qed.

Lemma crc_bits_range n r : 0 ≤ r < 2 ^ 32 → 0 ≤ crc_bits n r < 2 ^ 32.
Proof.
  intros Hr. unfold crc_bits. induction n as [|n IH]; [done|]. rewrite Nat.iter_succ.
  by apply crc_bit_range.
Qed.

Lemma crc_fold data r :
  Forall is_byte data → 0 ≤ r < 2 ^ 32 →
  fold_left crc32c_byte data r = fold_left (λ r x, crc_bits 8 (Z.lxor r x)) data r ∧
  0 ≤ fold_left crc32c_byte data r < 2 ^ 32.
Proof.
  intros Hd. revert r. induction Hd as [|x data Hx Hd IH]; intros r Hr; [done|].
  cbn [fold_left]. rewrite crc32c_byte_bits by done. apply IH. apply crc_bits_range.
  apply lxor_range; [lia|done|unfold is_byte in Hx; lia].
Qed.

Lemma lnot32 x : 0 ≤ x < 2 ^ 32 → u32 (Z.lnot x) = Z.lxor x 0xffffffff.
Proof.
  intros Hx. unfold u32. rewrite <-Z.land_ones by lia. change 0xffffffff with (Z.ones 32).
  apply Z.bits_inj'. intros i Hi. rewrite Z.land_spec, Z.lxor_spec, Z.lnot_spec by done.
  destruct (Z_lt_ge_dec i 32).
  - rewrite Z.ones_spec_low by lia. by destruct (Z.testbit x i).
  - rewrite Z.ones_spec_high, andb_false_r by lia.
    by rewrite (proj1 (below_pow2_bits 32 x ltac:(lia) (proj1 Hx)) (proj2 Hx)) by lia.
Qed.

Lemma crc32c_spec data : Forall is_byte data → crc32c data = crc_reference data.
Proof.
  intros Hd. destruct (crc_fold data 0xffffffff Hd) as [Heq Hr]; [lia|].
  unfold crc32c, crc_reference. rewrite lnot32 by done. by rewrite Heq.
Qed.

(** The register after different bytes, or from different registers, differs:
    the polynomial has a constant term. *)
Lemma crc_bit_inj a b : 0 ≤ a < 2 ^ 32 → 0 ≤ b < 2 ^ 32 → crc_bit a = crc_bit b → a = b.
Proof.
  intros Ha Hb Heq. apply Z.lxor_eq.
  assert (0 ≤ Z.lxor a b < 2 ^ 32) as Hr by (apply lxor_range; lia).
  assert (crc_bit (Z.lxor a b) = 0) as H0 by (by rewrite crc_bit_lxor, Heq, Z.lxor_nilpotent).
  set (r := Z.lxor a b) in *. unfold crc_bit in H0. rewrite Z.shiftr_div_pow2 in H0 by lia.
  change (2 ^ 1) with 2 in H0. pose proof (Z.div_mod r 2). rewrite Zmod_odd in *.
  destruct (Z.odd r) eqn:E; [|lia]. apply Z.lxor_eq in H0. unfold crc_poly in H0. lia.
Qed.

Lemma crc_bits_inj n a b : 0 ≤ a < 2 ^ 32 → 0 ≤ b < 2 ^ 32 → crc_bits n a = crc_bits n b → a = b.
Proof.
  intros Ha Hb. unfold crc_bits. induction n as [|n IH]; [done|]. rewrite !Nat.iter_succ.
  intros Heq. apply IH, crc_bit_inj; [by apply crc_bits_range..|done].
Qed.

Lemma crc32c_byte_inj r x r' x' :
  0 ≤ r < 2 ^ 32 → 0 ≤ r' < 2 ^ 32 → is_byte x → is_byte x' →
  crc32c_byte r x = crc32c_byte r' x' → Z.lxor r x = Z.lxor r' x'.
Proof.
  intros Hr Hr' Hx Hx'. rewrite !crc32c_byte_bits by done. unfold is_byte in *.
  intros Heq. apply crc_bits_inj in Heq; [done|apply lxor_range; lia..].
Qed.

Lemma lxor_cancel_r a b c : Z.lxor a c = Z.lxor b c → a = b.
Proof.
  intros H. rewrite <-(Z.lxor_0_r a), <-(Z.lxor_0_r b), <-(Z.lxor_nilpotent c), <-!Z.lxor_assoc.
  by rewrite H.
Qed.

Lemma crc_fold_inj data r r' :
  Forall is_byte data → 0 ≤ r < 2 ^ 32 → 0 ≤ r' < 2 ^ 32 →
  fold_left crc32c_byte data r = fold_left crc32c_byte data r' → r = r'.
Proof.
  intros Hd. revert r r'. induction Hd as [|x data Hx Hd IH]; intros r r' Hr Hr' Heq; [done|].
  cbn [fold_left] in Heq. apply IH in Heq.
  - apply crc32c_byte_inj in Heq; [by eapply lxor_cancel_r|done..].
  - by apply (crc_fold [x] r (Forall_cons_2 _ _ _ Hx (Forall_nil_2 _)) Hr).
  - by apply (crc_fold [x] r' (Forall_cons_2 _ _ _ Hx (Forall_nil_2 _)) Hr').
Qed.

(** Changing one byte changes the CRC. *)
Lemma crc32c_detects pre x y post :
  Forall is_byte (pre ++ x :: post) → is_byte y → x ≠ y →
  crc32c (pre ++ x :: post) ≠ crc32c (pre ++ y :: post).
Proof.
  intros Hall Hy Hne Heq. apply Forall_app in Hall as [Hpre Hall].
  apply Forall_cons_1 in Hall as [Hx Hpost].
  destruct (crc_fold pre 0xffffffff Hpre) as [_ Hr]; [lia|].
  set (r := fold_left crc32c_byte pre 0xffffffff) in *.
  assert (∀ z, is_byte z → 0 ≤ crc32c_byte r z < 2 ^ 32) as Hrz.
  { intros z Hz. by apply (crc_fold [z] r (Forall_cons_2 _ _ _ Hz (Forall_nil_2 _)) Hr). }
  unfold crc32c in Heq. rewrite !fold_left_app in Heq. fold r in Heq. cbn [fold_left] in Heq.
  rewrite !lnot32 in Heq by (apply crc_fold; auto).
  apply lxor_cancel_r, crc_fold_inj in Heq; [|by auto..].
  apply crc32c_byte_inj in Heq; [|done..].
  rewrite (Z.lxor_comm r x), (Z.lxor_comm r y) in Heq. by apply lxor_cancel_r in Heq.
Qed.
