(* ===== verification/Packets.v ===== *)
(** * lib/packets.c: rewriting the headers of a packet

    The functions that the set actions of the datapath call, with the
    checksums they keep up to date.  A pointer into the packet is its distance
    from [dp_packet_data]; an access outside the packet is a fault. *)
From Stdlib Require Import ZArith Lia.
From stdpp Require Import base list numbers option.
From S2P Require Import Prelude GtpWire Csum.
Open Scope Z_scope.

(** A packet with the offset of its network header, which GtpWire.v does
    without. *)
Record ip_packet := mkIpPacket {
  pkt : dp_packet;
  l3_ofs : Z;
}.

Definition dp_packet_l3 (b : ip_packet) : option Z :=
  if negb (l3_ofs b =? UINT16_MAX) then Some (l3_ofs b) else None.
Definition l4 (b : ip_packet) : outcome Z := deref (dp_packet_l4 (pkt b)).

(** ** Loads and stores *)

Definition set_data (b : ip_packet) (data : list Z) : ip_packet :=
  mkIpPacket (mkPacket data (l2_pad_size (pkt b)) (l4_ofs (pkt b))) (l3_ofs b).

Definition inside (b : ip_packet) (p n : Z) : bool := (0 <=? p) && (p + n <=? dp_packet_size (pkt b)).

Definition byte (b : ip_packet) (p : Z) : Z := byte_at (pkt b) p.
Definition word16 (b : ip_packet) (p : Z) : Z := host16 (byte b p) (byte b (p + 1)).

Definition peek8 (b : ip_packet) (p : Z) : outcome Z :=
  if inside b p 1 then Ret (byte b p) else Fault OutOfBounds.
Definition peek16 (b : ip_packet) (p : Z) : outcome Z :=
  if inside b p 2 then Ret (word16 b p) else Fault OutOfBounds.

Definition write8 (b : ip_packet) (p v : Z) : ip_packet :=
  set_data b (<[Z.to_nat p := v]> (pk_data (pkt b))).
Definition write16 (b : ip_packet) (p v : Z) : ip_packet :=
  write8 (write8 b p (v mod 2 ^ 8)) (p + 1) (v / 2 ^ 8 mod 2 ^ 8).

Definition poke8 (b : ip_packet) (p v : Z) : outcome ip_packet :=
  if inside b p 1 then Ret (write8 b p (u8 v)) else Fault OutOfBounds.
Definition poke16 (b : ip_packet) (p v : Z) : outcome ip_packet :=
  if inside b p 2 then Ret (write16 b p v) else Fault OutOfBounds.

(** lib/unaligned.h *)
Definition get_16aligned_be32 (b : ip_packet) (x : Z) : outcome Z :=
  let* hi := peek16 b x in
  let* lo := peek16 b (x + 2) in
  Ret (Z.lor (u32 (Z.shiftl lo 16)) hi).
Definition put_16aligned_be32 (b : ip_packet) (x value : Z) : outcome ip_packet :=
  let* b := poke16 b x (u16 value) in
  poke16 b (x + 2) (u16 (Z.shiftr value 16)).

(** The [n] fields of a [be16] or [be32] array, and a copy into it. *)
Fixpoint get_each (get : ip_packet → Z → outcome Z) (size : Z) (n : nat) (b : ip_packet) (x : Z)
    : outcome (list Z) :=
  match n with
  | O => Ret []
  | S n => let* v := get b x in let* l := get_each get size n b (x + size) in Ret (v :: l)
  end.
Fixpoint put_each (put : ip_packet → Z → Z → outcome ip_packet) (size : Z) (b : ip_packet) (x : Z)
    (l : list Z) : outcome ip_packet :=
  match l with
  | [] => Ret b
  | v :: l => let* b := put b x v in put_each put size b (x + size) l
  end.

Definition get_in6_addr : ip_packet → Z → outcome (list Z) := get_each get_16aligned_be32 4 4.
Definition put_in6_addr : ip_packet → Z → list Z → outcome ip_packet := put_each put_16aligned_be32 4.
Definition get_eth_addr : ip_packet → Z → outcome (list Z) := get_each peek16 2 3.
Definition put_eth_addr : ip_packet → Z → list Z → outcome ip_packet := put_each poke16 2.

(** ** Header layouts *)

Definition TCP_HEADER_LEN : Z := 20.
Definition ICMP6_HEADER_LEN : Z := 4.
Definition IP_IHL (ip_ihl_ver : Z) : Z := Z.land ip_ihl_ver 15.

Definition ip_ihl_ver : Z := 0.
Definition ip_tos : Z := 1.
Definition ip_tot_len : Z := 2.
Definition ip_ttl : Z := 8.
Definition ip_proto : Z := 9.
Definition ip_csum : Z := 10.
Definition ip_src : Z := 12.
Definition ip_dst : Z := 16.

Definition ip6_flow : Z := 0.
Definition ip6_plen : Z := 4.
Definition ip6_nxt : Z := 6.
Definition ip6_hlim : Z := 7.
Definition ip6_src : Z := 8.
Definition ip6_dst : Z := 24.

Definition tcp_csum : Z := 16.
Definition udp_csum : Z := 6.
Definition icmp_csum : Z := 2.
Definition sctp_csum : Z := 8.

Definition IPPROTO_HOPOPTS : Z := 0.
Definition IPPROTO_TCP : Z := 6.
Definition IPPROTO_UDP : Z := 17.
Definition IPPROTO_ROUTING : Z := 43.
Definition IPPROTO_FRAGMENT : Z := 44.
Definition IPPROTO_AH : Z := 51.
Definition IPPROTO_ICMPV6 : Z := 58.
Definition IPPROTO_DSTOPTS : Z := 60.

(** ** Checksum fields *)

(** The checksum field at [p] becomes [recalc] of its value. *)
Definition update16 (b : ip_packet) (p : Z) (recalc : Z → outcome Z) : outcome ip_packet :=
  let* c := peek16 b p in
  let* c := recalc c in
  poke16 b p c.

(** The case for UDP, where a checksum of 0 means that there is none. *)
Definition update_udp (b : ip_packet) (p : Z) (recalc : Z → outcome Z) : outcome ip_packet :=
  let* c := peek16 b p in
  if negb (c =? 0) then
    let* b := update16 b p recalc in
    let* c := peek16 b p in
    if c =? 0 then poke16 b p (htons 0xffff) else Ret b
  else Ret b.

(** ** IPv4 *)

Definition packet_set_ipv4_addr (packet : ip_packet) (addr new_addr : Z) : outcome ip_packet :=
  let* old_addr := get_16aligned_be32 packet addr in
  let l4_size := dp_packet_l4_size (pkt packet) in
  let* nh := deref (dp_packet_l3 packet) in
  let* proto := peek8 packet (nh + ip_proto) in
  let recalc c := recalc_csum32 c old_addr new_addr in
  let* packet :=
    if (proto =? IPPROTO_TCP) && (TCP_HEADER_LEN <=? l4_size) then
      let* th := l4 packet in
      update16 packet (th + tcp_csum) recalc
    else if (proto =? IPPROTO_UDP) && (UDP_HEADER_LEN <=? l4_size) then
      let* uh := l4 packet in
      update_udp packet (uh + udp_csum) recalc
    else Ret packet in
  let* packet := update16 packet (nh + ip_csum) recalc in
  put_16aligned_be32 packet addr new_addr.

Definition packet_set_ipv4 (packet : ip_packet) (src dst tos ttl : Z) : outcome ip_packet :=
  let* nh := deref (dp_packet_l3 packet) in
  let* old := get_16aligned_be32 packet (nh + ip_src) in
  let* packet := if negb (old =? src)
                 then packet_set_ipv4_addr packet (nh + ip_src) src else Ret packet in
  let* old := get_16aligned_be32 packet (nh + ip_dst) in
  let* packet := if negb (old =? dst)
                 then packet_set_ipv4_addr packet (nh + ip_dst) dst else Ret packet in
  let* old := peek8 packet (nh + ip_tos) in
  let* packet :=
    if negb (old =? tos) then
      let* packet := update16 packet (nh + ip_csum) (λ c, recalc_csum16 c (htons old) (htons tos)) in
      poke8 packet (nh + ip_tos) tos
    else Ret packet in
  let* old := peek8 packet (nh + ip_ttl) in
  if negb (old =? ttl) then
    let* packet := update16 packet (nh + ip_csum)
      (λ c, recalc_csum16 c (htons (u16 (Z.shiftl old 8))) (htons (u16 (Z.shiftl ttl 8)))) in
    poke8 packet (nh + ip_ttl) ttl
  else Ret packet.

(** ** IPv6 *)

Definition is_ext_hdr (nexthdr : Z) : bool :=
  (nexthdr =? IPPROTO_HOPOPTS) || (nexthdr =? IPPROTO_ROUTING) || (nexthdr =? IPPROTO_DSTOPTS) ||
  (nexthdr =? IPPROTO_AH) || (nexthdr =? IPPROTO_FRAGMENT).

(** The loop of [packet_rh_present]: the result and [*nexthdr]. *)
Fixpoint rh_loop (fuel : nat) (packet : ip_packet) (data remaining nexthdr : Z) : outcome (bool * Z) :=
  match fuel with
  | O => Diverge
  | S fuel =>
      if negb (is_ext_hdr nexthdr) then Ret (false, nexthdr)
      else if remaining <? 8 then Ret (false, nexthdr)
      else
        let continue nxt len :=
          if remaining <? len then Ret (false, nxt)
          else rh_loop fuel packet (data + len) (remaining - len) nxt in
        if nexthdr =? IPPROTO_AH then
          let* nxt := peek8 packet data in
          let* ip6e_len := peek8 packet (data + 1) in
          continue nxt ((ip6e_len + 2) * 4)
        else if nexthdr =? IPPROTO_FRAGMENT then
          let* nxt := peek8 packet data in
          continue nxt 8
        else if nexthdr =? IPPROTO_ROUTING then
          let* ip6r_segleft := peek8 packet (data + 3) in
          if 0 <? ip6r_segleft then Ret (true, nexthdr)
          else
            let* nxt := peek8 packet data in
            let* ip6r_len := peek8 packet (data + 1) in
            continue nxt ((ip6r_len + 1) * 8)
        else
          let* nxt := peek8 packet data in
          let* ip6e_len := peek8 packet (data + 1) in
          continue nxt ((ip6e_len + 1) * 8)
  end.

(** Every round but the last moves [data] forward within the packet. *)
Definition packet_rh_present (packet : ip_packet) (nexthdr : Z) : outcome (bool * Z) :=
  let remaining := u64 (l4_ofs (pkt packet) - l3_ofs packet) in
  if remaining <? 40 then Ret (false, nexthdr)
  else
    let* data := deref (dp_packet_l3 packet) in
    let* nexthdr := peek8 packet (data + ip6_nxt) in
    rh_loop (S (length (pk_data (pkt packet)))) packet (data + 40) (remaining - 40) nexthdr.

Definition packet_update_csum128 (packet : ip_packet) (proto addr : Z) (new_addr : list Z)
    : outcome ip_packet :=
  let l4_size := dp_packet_l4_size (pkt packet) in
  let recalc c := let* old := get_in6_addr packet addr in recalc_csum128 c old new_addr in
  if (proto =? IPPROTO_TCP) && (TCP_HEADER_LEN <=? l4_size) then
    let* th := l4 packet in
    update16 packet (th + tcp_csum) recalc
  else if (proto =? IPPROTO_UDP) && (UDP_HEADER_LEN <=? l4_size) then
    let* uh := l4 packet in
    update_udp packet (uh + udp_csum) recalc
  else if (proto =? IPPROTO_ICMPV6) && (ICMP6_HEADER_LEN <=? l4_size) then
    let* icmp := l4 packet in
    update16 packet (icmp + icmp_csum) recalc
  else Ret packet.

Definition packet_set_ipv6_addr (packet : ip_packet) (proto addr : Z) (new_addr : list Z)
    (recalculate_csum : bool) : outcome ip_packet :=
  let* packet := if recalculate_csum then packet_update_csum128 packet proto addr new_addr
                 else Ret packet in
  put_in6_addr packet addr new_addr.

Definition IPV6_LABEL_MASK : Z := 0x000fffff.

Definition packet_set_ipv6_flow_label (packet : ip_packet) (flow_label flow_key : Z)
    : outcome ip_packet :=
  let* old_label := get_16aligned_be32 packet flow_label in
  put_16aligned_be32 packet flow_label
    (Z.lor (Z.land old_label (ntohl (u32 (Z.lnot IPV6_LABEL_MASK)))) flow_key).

Definition packet_set_ipv6_tc (packet : ip_packet) (flow_label tc : Z) : outcome ip_packet :=
  let* old_label := get_16aligned_be32 packet flow_label in
  put_16aligned_be32 packet flow_label
    (Z.lor (Z.land old_label (ntohl 0xF00FFFFF)) (ntohl (Z.shiftl tc 20))).

(** The addresses as lists of four [be32]; [memcmp] of 16 bytes compares
    them. *)
Definition packet_set_ipv6 (packet : ip_packet) (src dst : list Z) (key_tc key_fl key_hl : Z)
    : outcome ip_packet :=
  let* (rh_present, proto) := packet_rh_present packet 0 in
  let* nh := deref (dp_packet_l3 packet) in
  let* old := get_in6_addr packet (nh + ip6_src) in
  let* packet := if negb (bool_decide (old = src))
                 then packet_set_ipv6_addr packet proto (nh + ip6_src) src true else Ret packet in
  let* old := get_in6_addr packet (nh + ip6_dst) in
  let* packet := if negb (bool_decide (old = dst))
                 then packet_set_ipv6_addr packet proto (nh + ip6_dst) dst (negb rh_present)
                 else Ret packet in
  let* packet := packet_set_ipv6_tc packet (nh + ip6_flow) key_tc in
  let* packet := packet_set_ipv6_flow_label packet (nh + ip6_flow) key_fl in
  poke8 packet (nh + ip6_hlim) key_hl.

(** ** Transport headers *)

Definition packet_set_port (packet : ip_packet) (port new_port csum : Z) : outcome ip_packet :=
  let* old := peek16 packet port in
  if negb (old =? new_port) then
    let* packet := update16 packet csum (λ c, recalc_csum16 c old new_port) in
    poke16 packet port new_port
  else Ret packet.

Definition packet_set_tcp_port (packet : ip_packet) (src dst : Z) : outcome ip_packet :=
  let* th := l4 packet in
  let* packet := packet_set_port packet th src (th + tcp_csum) in
  packet_set_port packet (th + 2) dst (th + tcp_csum).

Definition packet_set_udp_port (packet : ip_packet) (src dst : Z) : outcome ip_packet :=
  let* uh := l4 packet in
  let* c := peek16 packet (uh + udp_csum) in
  if negb (c =? 0) then
    let* packet := packet_set_port packet uh src (uh + udp_csum) in
    let* packet := packet_set_port packet (uh + 2) dst (uh + udp_csum) in
    let* c := peek16 packet (uh + udp_csum) in
    if c =? 0 then poke16 packet (uh + udp_csum) (htons 0xffff) else Ret packet
  else
    let* packet := poke16 packet uh src in
    poke16 packet (uh + 2) dst.

(** The bytes that [csum] and [crc32c] are given a pointer to. *)
Definition bytes (b : ip_packet) (p n : Z) : list Z :=
  take (Z.to_nat n) (drop (Z.to_nat p) (pk_data (pkt b))).
Definition peek_bytes (b : ip_packet) (p n : Z) : outcome (list Z) :=
  if inside b p n then Ret (bytes b p n) else Fault OutOfBounds.

Definition packet_set_sctp_port (packet : ip_packet) (src dst : Z) : outcome ip_packet :=
  let* sh := l4 packet in
  let tp_len := u16 (dp_packet_l4_size (pkt packet)) in
  let* old_csum := get_16aligned_be32 packet (sh + sctp_csum) in
  let* packet := put_16aligned_be32 packet (sh + sctp_csum) 0 in
  let* data := peek_bytes packet sh tp_len in
  let old_correct_csum := crc32c data in
  let* packet := poke16 packet sh src in
  let* packet := poke16 packet (sh + 2) dst in
  let* data := peek_bytes packet sh tp_len in
  let new_csum := crc32c data in
  put_16aligned_be32 packet (sh + sctp_csum) (Z.lxor (Z.lxor old_csum old_correct_csum) new_csum).

Definition packet_set_icmp (packet : ip_packet) (type code : Z) : outcome ip_packet :=
  let* ih := l4 packet in
  let* icmp_type := peek8 packet ih in
  let* icmp_code := peek8 packet (ih + 1) in
  let orig_tc := htons (u16 (Z.lor (Z.shiftl icmp_type 8) icmp_code)) in
  let new_tc := htons (u16 (Z.lor (Z.shiftl type 8) code)) in
  if negb (orig_tc =? new_tc) then
    let* packet := poke8 packet ih type in
    let* packet := poke8 packet (ih + 1) code in
    update16 packet (ih + icmp_csum) (λ c, recalc_csum16 c orig_tc new_tc)
  else Ret packet.

(** ** Neighbor discovery *)

Definition ND_MSG_LEN : Z := 24.
Definition ND_OPT_LEN : Z := 8.
Definition ND_OPT_SOURCE_LINKADDR : Z := 1.
Definition ND_OPT_TARGET_LINKADDR : Z := 2.

(** A link-layer address option whose address becomes [mac]. *)
Definition set_nd_opt (packet : ip_packet) (ns nd_opt : Z) (mac : list Z) : outcome ip_packet :=
  let* old := get_eth_addr packet (nd_opt + 2) in
  if negb (bool_decide (old = mac)) then
    let* packet := update16 packet (ns + icmp_csum) (λ c, recalc_csum48 c old mac) in
    put_eth_addr packet (nd_opt + 2) mac
  else Ret packet.

(** The loop over the options.  [nd_opt] moves first and the length that is
    subtracted is read through the new [nd_opt]. *)
Fixpoint nd_loop (fuel : nat) (packet : ip_packet) (ns nd_opt bytes_remain : Z) (sll tll : list Z)
    : outcome ip_packet :=
  match fuel with
  | O => Diverge
  | S fuel =>
      if bytes_remain <? ND_OPT_LEN then Ret packet
      else
        let* nd_opt_len := peek8 packet (nd_opt + 1) in
        if nd_opt_len =? 0 then Ret packet
        else
          let* nd_opt_type := peek8 packet nd_opt in
          if (nd_opt_type =? ND_OPT_SOURCE_LINKADDR) && (nd_opt_len =? 1)
          then set_nd_opt packet ns nd_opt sll
          else if (nd_opt_type =? ND_OPT_TARGET_LINKADDR) && (nd_opt_len =? 1)
          then set_nd_opt packet ns nd_opt tll
          else
            let nd_opt := nd_opt + nd_opt_len * ND_OPT_LEN in
            let* nd_opt_len := peek8 packet (nd_opt + 1) in
            let* bytes_remain := int_ (bytes_remain - nd_opt_len * ND_OPT_LEN) in
            nd_loop fuel packet ns nd_opt bytes_remain sll tll
  end.

(** [int bytes_remain = dp_packet_l4_size(packet)], and its comparison with a
    [size_t]. *)
Definition packet_set_nd (packet : ip_packet) (target sll tll : list Z) : outcome ip_packet :=
  let bytes_remain := (dp_packet_l4_size (pkt packet) + 2 ^ 31) mod 2 ^ 32 - 2 ^ 31 in
  if u64 bytes_remain <? ND_MSG_LEN then Ret packet
  else
    let* ns := l4 packet in
    let* old := get_in6_addr packet (ns + 8) in
    let* packet := if negb (bool_decide (old = target))
                   then packet_set_ipv6_addr packet IPPROTO_ICMPV6 (ns + 8) target true
                   else Ret packet in
    nd_loop (S (length (pk_data (pkt packet)))) packet ns (ns + ND_MSG_LEN)
      (bytes_remain - ND_MSG_LEN) sll tll.

(** ** Pseudo-headers *)

Definition packet_csum_pseudoheader (b : ip_packet) (ip : Z) : outcome Z :=
  let* src := get_16aligned_be32 b (ip + ip_src) in
  let* dst := get_16aligned_be32 b (ip + ip_dst) in
  let* proto := peek8 b (ip + ip_proto) in
  let* tot_len := peek16 b (ip + ip_tot_len) in
  let* ihl_ver := peek8 b (ip + ip_ihl_ver) in
  let partial := csum_add32 0 src in
  let partial := csum_add32 partial dst in
  let partial := csum_add16 partial (htons proto) in
  Ret (csum_add16 partial (htons (u16 (ntohs tot_len - IP_IHL ihl_ver * 4)))).

Definition packet_csum_pseudoheader6 (b : ip_packet) (ip6 : Z) : outcome Z :=
  let* src := get_in6_addr b (ip6 + ip6_src) in
  let* dst := get_in6_addr b (ip6 + ip6_dst) in
  let* plen := peek16 b (ip6 + ip6_plen) in
  let* nxt := peek8 b (ip6 + ip6_nxt) in
  let partial := fold_left csum_add32 (src ++ dst) 0 in
  let partial := csum_add16 partial 0 in
  let partial := csum_add16 partial plen in
  let partial := csum_add16 partial 0 in
  Ret (csum_add16 partial nxt).
