(* ===== verification/PacketsProofs.v ===== *)
(** * Rewriting packets: loads, stores and the sums they change

    A store changes the sum of the words of a region by the difference of the
    new and the old word if it falls into the region, and not at all if it
    falls outside. *)
From Stdlib Require Import ZArith Lia.
From stdpp Require Import base list numbers option.
From S2P Require Import Prelude GtpWire GtpWireProofs Csum CsumProofs Packets.
Open Scope Z_scope.

Definition psize (b : ip_packet) : Z := dp_packet_size (pkt b).
Definition ok (b : ip_packet) : Prop := bytes_ok (pkt b).
Definition short (v : Z) : Prop := 0 ≤ v < 65536.

(** The sum of the words of the [n] bytes from [a] on. *)
Definition region (b : ip_packet) (a n : Z) : Z := wsum true (bytes b a n).

(** Goals with the parity of an offset. *)
Ltac offsets := solve [done | lia | Z.to_euclidean_division_equations; lia].

(** ** Ranges *)

Lemma byte_ok b p : ok b → 0 ≤ byte b p < 256.
Proof. intros H. apply (byte_at_ok _ p H). Qed.

Lemma word16_ok b p : ok b → short (word16 b p).
Proof.
  intros H. pose proof (byte_ok b p H). pose proof (byte_ok b (p + 1) H).
  unfold short, word16, host16. lia.
Qed.

Lemma bytes_is_byte b a n : ok b → Forall is_byte (bytes b a n).
Proof. intros H. unfold bytes. by apply Forall_take, Forall_drop. Qed.

Lemma bytes_length b a n : 0 ≤ a → 0 ≤ n → a + n ≤ psize b → length (bytes b a n) = Z.to_nat n.
Proof.
  intros. unfold psize, dp_packet_size in *. unfold bytes. rewrite length_take, length_drop. lia.
Qed.

Lemma region_range b a n : ok b → 0 ≤ n → 0 ≤ region b a n ≤ 65280 * n.
Proof.
  intros H Hn. pose proof (wsum_range true _ (bytes_is_byte b a n H)). unfold region.
  assert (Z.of_nat (length (bytes b a n)) ≤ n); [|lia].
  unfold bytes. rewrite length_take. lia.
Qed.

(** ** Stores *)

Lemma psize_write8 b p v : psize (write8 b p v) = psize b.
Proof. unfold psize, dp_packet_size, write8. simpl. by rewrite length_insert. Qed.
Lemma psize_write16 b p v : psize (write16 b p v) = psize b.
Proof. unfold write16. by rewrite !psize_write8. Qed.

Lemma ok_write8 b p v : ok b → 0 ≤ v < 256 → ok (write8 b p v).
Proof. intros H Hv. unfold ok, bytes_ok, write8. simpl. by apply Forall_insert. Qed.
Lemma ok_write16 b p v : ok b → ok (write16 b p v).
Proof. intros H. unfold write16. repeat apply ok_write8; [done|apply Z.mod_pos_bound; lia..]. Qed.

Lemma byte_write8 b p v : 0 ≤ p < psize b → byte (write8 b p v) p = v.
Proof.
  intros Hp. unfold psize, dp_packet_size in Hp. unfold byte, byte_at, write8. simpl.
  apply nth_lookup_Some. apply list_lookup_insert_eq. lia.
Qed.
Lemma byte_write8_ne b p v q : 0 ≤ p → 0 ≤ q → q ≠ p → byte (write8 b p v) q = byte b q.
Proof.
  intros. unfold byte, byte_at, write8. simpl. rewrite !nth_lookup.
  by rewrite list_lookup_insert_ne by lia.
Qed.

Lemma byte_write16_ne b p v q : 0 ≤ p → 0 ≤ q → q < p ∨ p + 2 ≤ q → byte (write16 b p v) q = byte b q.
Proof. intros. unfold write16. by rewrite !byte_write8_ne by lia. Qed.

Lemma word16_write16 b p v : 0 ≤ p → p + 2 ≤ psize b → short v → word16 (write16 b p v) p = v.
Proof.
  intros Hp Hs Hv. unfold word16, write16. rewrite byte_write8_ne, byte_write8 by lia.
  rewrite byte_write8 by (rewrite psize_write8; lia). unfold short, host16 in *.
  pose proof (Z.div_mod v (2 ^ 8)). rewrite (Z.mod_small (v / 2 ^ 8)); [lia|].
  split; [apply Z.div_pos; lia|apply Z.div_lt_upper_bound; lia].
Qed.
Lemma word16_write16_ne b p v q :
  0 ≤ p → 0 ≤ q → q + 2 ≤ p ∨ p + 2 ≤ q → word16 (write16 b p v) q = word16 b q.
Proof. intros. unfold word16. by rewrite !byte_write16_ne by lia. Qed.
Lemma word16_write8_ne b p v q :
  0 ≤ p → 0 ≤ q → p < q ∨ q + 2 ≤ p → word16 (write8 b p v) q = word16 b q.
Proof. intros. unfold word16. by rewrite !byte_write8_ne by lia. Qed.

Lemma write16_twice b p v w : 0 ≤ p → p + 2 ≤ psize b → write16 (write16 b p v) p w = write16 b p w.
Proof.
  intros Hp Hs. unfold write16, write8, set_data. simpl. do 2 f_equal.
  rewrite (list_insert_insert_ne _ (Z.to_nat p) (Z.to_nat (p + 1))) by lia.
  rewrite list_insert_insert_eq. rewrite list_insert_insert_eq. done.
Qed.

(** ** Sums *)

Lemma wsum_insert e l i v :
  (i < length l)%nat →
  wsum e (<[i := v]> l) =
  wsum e l + (if Nat.even i then (if e then 1 else 2 ^ 8) else (if e then 2 ^ 8 else 1)) * (v - nth i l 0).
Proof.
  revert e i. induction l as [|x l IH]; intros e [|i] Hi; simpl in Hi; [lia|lia| |].
  - cbn [wsum nth Nat.even list_insert insert]. simpl. destruct e; lia.
  - change (<[S i:=v]> (x :: l)) with (x :: <[i := v]> l). cbn [wsum nth].
    rewrite IH by lia. rewrite Nat.even_succ, <-Nat.negb_even.
    destruct (Nat.even i), e; simpl; lia.
Qed.

Lemma region_write8_out b p v a n :
  0 ≤ p → 0 ≤ a → 0 ≤ n → p < a ∨ a + n ≤ p → region (write8 b p v) a n = region b a n.
Proof.
  intros Hp Ha Hn Hout. unfold region, bytes, write8. simpl. f_equal. destruct Hout.
  - by rewrite drop_insert_lt by lia.
  - rewrite drop_insert_ge by lia. by rewrite take_insert_ge by lia.
Qed.

Lemma even_of_nat n : Z.even (Z.of_nat n) = Nat.even n.
Proof.
  induction n as [|n IH]; [done|]. rewrite Nat2Z.inj_succ, Z.even_succ, Nat.even_succ.
  by rewrite <-Z.negb_even, <-Nat.negb_even, IH.
Qed.

Lemma region_write8 b p v a n :
  0 ≤ a → a ≤ p < a + n → a + n ≤ psize b →
  region (write8 b p v) a n =
  region b a n + (if Z.even (p - a) then 1 else 2 ^ 8) * (v - byte b p).
Proof.
  intros Ha Hp Hs. unfold psize, dp_packet_size in Hs.
  unfold region, bytes, write8, byte, byte_at. simpl.
  rewrite drop_insert_ge by lia. rewrite take_insert_lt by lia.
  rewrite wsum_insert by (rewrite length_take, length_drop; lia). f_equal. f_equal.
  - replace (p - a) with (Z.of_nat (Z.to_nat p - Z.to_nat a)) by lia.
    by rewrite even_of_nat.
  - f_equal. rewrite !nth_lookup, lookup_take_lt, lookup_drop by lia. by do 2 f_equal; lia.
Qed.

Lemma region_write16_out b p v a n :
  0 ≤ p → 0 ≤ a → 0 ≤ n → p + 2 ≤ a ∨ a + n ≤ p → region (write16 b p v) a n = region b a n.
Proof. intros. unfold write16. by rewrite !region_write8_out by lia. Qed.

Lemma region_write16 b p v a n :
  0 ≤ a → a ≤ p → p + 2 ≤ a + n → a + n ≤ psize b → (p - a) mod 2 = 0 → short v →
  region (write16 b p v) a n = region b a n + (v - word16 b p).
Proof.
  intros Ha Hp Hpn Hs Heven Hv. unfold write16.
  rewrite region_write8 by (rewrite ?psize_write8; lia). rewrite region_write8 by lia.
  rewrite byte_write8_ne by lia.
  assert (Z.even (p - a) = true) as -> by (by rewrite Zeven_mod, Heven).
  assert (Z.even (p + 1 - a) = false) as ->.
  { replace (p + 1 - a) with (Z.succ (p - a)) by lia. rewrite Z.even_succ, <-Z.negb_even, Zeven_mod.
    by rewrite Heven. }
  unfold short, word16, host16 in *. pose proof (Z.div_mod v (2 ^ 8)).
  rewrite (Z.mod_small (v / 2 ^ 8)); [lia|].
  split; [apply Z.div_pos; lia|apply Z.div_lt_upper_bound; lia].
Qed.

Lemma region_nil b a : region b a 0 = 0.
Proof. done. Qed.

Lemma lookup_nth (l : list Z) i : (i < length l)%nat → l !! i = Some (nth i l 0).
Proof. intros Hi. by destruct (nth_lookup_or_length l i 0); [|lia]. Qed.

Lemma region_cons b a n : 0 ≤ a → 0 ≤ n → a + n + 2 ≤ psize b →
  region b a (n + 2) = word16 b a + region b (a + 2) n.
Proof.
  intros Ha Hn Hs. unfold psize, dp_packet_size in Hs.
  unfold region, bytes, word16, byte, byte_at, host16.
  set (data := pk_data (pkt b)) in *.
  assert (drop (Z.to_nat a) data = nth (Z.to_nat a) data 0 :: nth (Z.to_nat (a + 1)) data 0
    :: drop (Z.to_nat (a + 2)) data) as ->.
  { rewrite (drop_S data (nth (Z.to_nat a) data 0)) by (apply lookup_nth; lia).
    rewrite (drop_S data (nth (Z.to_nat (a + 1)) data 0)) by
      (replace (S (Z.to_nat a)) with (Z.to_nat (a + 1)) by lia; apply lookup_nth; lia).
    do 3 f_equal. lia. }
  replace (Z.to_nat (n + 2)) with (S (S (Z.to_nat n))) by lia. simpl. lia.
Qed.

Lemma region8 b a : 0 ≤ a → a + 8 ≤ psize b →
  region b a 8 = word16 b a + word16 b (a + 2) + word16 b (a + 4) + word16 b (a + 6).
Proof.
  intros Ha Hs. pose proof (region_cons b a 6) as E1. pose proof (region_cons b (a + 2) 4) as E2.
  pose proof (region_cons b (a + 2 + 2) 2) as E3. pose proof (region_cons b (a + 2 + 2 + 2) 0) as E4.
  change (6 + 2) with 8 in E1. change (4 + 2) with 6 in E2. change (2 + 2) with 4 in E3.
  change (0 + 2) with 2 in E4. rewrite E1, E2, E3, E4, region_nil by lia.
  replace (a + 2 + 2) with (a + 4) by lia. replace (a + 4 + 2) with (a + 6) by lia. lia.
Qed.

Lemma region16 b a : 0 ≤ a → a + 16 ≤ psize b → region b a 16 = region b a 8 + region b (a + 8) 8.
Proof.
  intros Ha Hs. pose proof (region_cons b a 14) as E1. pose proof (region_cons b (a + 2) 12) as E2.
  pose proof (region_cons b (a + 2 + 2) 10) as E3. pose proof (region_cons b (a + 2 + 2 + 2) 8) as E4.
  change (14 + 2) with 16 in E1. change (12 + 2) with 14 in E2. change (10 + 2) with 12 in E3.
  change (8 + 2) with 10 in E4. rewrite E1, E2, E3, E4, (region8 b a) by lia.
  replace (a + 2 + 2) with (a + 4) by lia. replace (a + 4 + 2) with (a + 6) by lia.
  replace (a + 6 + 2) with (a + 8) by lia. lia.
Qed.

(** ** The access functions *)

Lemma inside_true b p n : 0 ≤ p → p + n ≤ psize b → inside b p n = true.
Proof. intros. unfold inside, psize in *. apply andb_true_intro. split; apply Z.leb_le; lia. Qed.

Lemma peek8_Ret b p : 0 ≤ p → p + 1 ≤ psize b → peek8 b p = Ret (byte b p).
Proof. intros. unfold peek8. by rewrite inside_true. Qed.
Lemma peek16_Ret b p : 0 ≤ p → p + 2 ≤ psize b → peek16 b p = Ret (word16 b p).
Proof. intros. unfold peek16. by rewrite inside_true. Qed.
Lemma poke8_Ret b p v : 0 ≤ p → p + 1 ≤ psize b → 0 ≤ v < 256 → poke8 b p v = Ret (write8 b p v).
Proof. intros. unfold poke8, u8. by rewrite inside_true, Z.mod_small. Qed.
Lemma poke16_Ret b p v : 0 ≤ p → p + 2 ≤ psize b → poke16 b p v = Ret (write16 b p v).
Proof. intros. unfold poke16. by rewrite inside_true. Qed.

(** A [be32] as its two halves. *)
Definition word32 (b : ip_packet) (p : Z) : Z := word16 b p + 65536 * word16 b (p + 2).
Definition write32 (b : ip_packet) (p v : Z) : ip_packet :=
  write16 (write16 b p (u16 v)) (p + 2) (u16 (Z.shiftr v 16)).

Lemma lor_halves lo hi : short lo → short hi → Z.lor (u32 (Z.shiftl hi 16)) lo = lo + 65536 * hi.
Proof.
  unfold short. intros Hl Hh. rewrite Z.shiftl_mul_pow2, u32_small by lia.
  rewrite Z.lor_comm. rewrite <-Z.lxor_lor, <-Z.add_nocarry_lxor; [lia|..];
    apply Z.bits_inj'; intros i Hi; rewrite Z.land_spec, Z.bits_0;
    (destruct (Z_lt_ge_dec i 16);
     [rewrite Z.mul_pow2_bits_low by lia; by rewrite andb_false_r
     |by rewrite (proj1 (below_pow2_bits 16 lo ltac:(lia) (proj1 Hl)) (proj2 Hl)) by lia]).
Qed.

Lemma get32_Ret b p : ok b → 0 ≤ p → p + 4 ≤ psize b → get_16aligned_be32 b p = Ret (word32 b p).
Proof.
  intros H Hp Hs. unfold get_16aligned_be32. rewrite !peek16_Ret by lia. cbn [obind].
  by rewrite lor_halves by (apply word16_ok; done).
Qed.
Lemma put32_Ret b p v : 0 ≤ p → p + 4 ≤ psize b → put_16aligned_be32 b p v = Ret (write32 b p v).
Proof.
  intros Hp Hs. unfold put_16aligned_be32. rewrite poke16_Ret by lia. cbn [obind].
  by rewrite poke16_Ret by (rewrite ?psize_write16; lia).
Qed.

Lemma word32_range b p : ok b → 0 ≤ word32 b p < 2 ^ 32.
Proof.
  intros H. pose proof (word16_ok b p H). pose proof (word16_ok b (p + 2) H).
  unfold word32, short in *. lia.
Qed.

Lemma u16_halves v : 0 ≤ v < 2 ^ 32 →
  v = u16 v + 65536 * u16 (Z.shiftr v 16) ∧ short (u16 v) ∧ short (u16 (Z.shiftr v 16)).
Proof.
  intros Hv. destruct (halves v) as [H1 H2]. rewrite (u16_low v). unfold short.
  rewrite (u16_small (Z.shiftr v 16)) by lia. lia.
Qed.

Lemma word32_write32 b p v : 0 ≤ p → p + 4 ≤ psize b → 0 ≤ v < 2 ^ 32 → word32 (write32 b p v) p = v.
Proof.
  intros Hp Hs Hv. destruct (u16_halves v Hv) as (Heq & H1 & H2). unfold word32, write32.
  rewrite word16_write16_ne, word16_write16 by (done || lia).
  by rewrite word16_write16 by (rewrite ?psize_write16; done || lia).
Qed.

(** [csum_add32] of a [be32] adds its two words. *)
Lemma add32_word32 b p partial :
  ok b → 0 ≤ partial → partial + 2 * 65535 < 2 ^ 32 →
  csum_add32 partial (word32 b p) = partial + word16 b p + word16 b (p + 2).
Proof.
  intros H Hp Hb. rewrite csum_add32_spec by (apply word32_range || lia; done).
  pose proof (word16_ok b p H). pose proof (word16_ok b (p + 2) H).
  destruct (halves (word32 b p)) as [? ?]. unfold short, word32 in *. lia.
Qed.

Lemma ntohs_range x : 0 ≤ ntohs x < 65536.
Proof.
  unfold ntohs, host16. pose proof (Z.mod_pos_bound (x / 2 ^ 8) (2 ^ 8)).
  pose proof (Z.mod_pos_bound x (2 ^ 8)). lia.
Qed.

Lemma psize_write32 b p v : psize (write32 b p v) = psize b.
Proof. unfold write32. by rewrite !psize_write16. Qed.
Lemma ok_write32 b p v : ok b → ok (write32 b p v).
Proof. intros. by repeat apply ok_write16. Qed.

Lemma byte_write32_ne b p v q : 0 ≤ p → 0 ≤ q → q < p ∨ p + 4 ≤ q → byte (write32 b p v) q = byte b q.
Proof. intros. unfold write32. by rewrite !byte_write16_ne by lia. Qed.

(** The sum changes by the difference of the values, modulo 65535. *)
Definition cong (x y : Z) : Prop := ∃ k, y = x + 65535 * k.

#[global] Instance cong_refl : Reflexive cong.
Proof. intros x. exists 0. lia. Qed.
#[global] Instance cong_trans : Transitive cong.
Proof. intros x y z [k ->] [j ->]. exists (k + j). lia. Qed.

Lemma region_write32 b p v a n :
  0 ≤ a → a ≤ p → p + 4 ≤ a + n → a + n ≤ psize b → (p - a) mod 2 = 0 → 0 ≤ v < 2 ^ 32 →
  cong (region b a n + (v - word32 b p)) (region (write32 b p v) a n).
Proof.
  intros Ha Hp Hpn Hs Heven Hv. destruct (u16_halves v Hv) as (Heq & H1 & H2).
  unfold write32. rewrite region_write16 by (rewrite ?psize_write16; offsets).
  rewrite region_write16, word16_write16_ne by offsets.
  unfold word32. exists (word16 b (p + 2) - u16 (Z.shiftr v 16)). lia.
Qed.
Lemma region_write32_out b p v a n :
  0 ≤ p → 0 ≤ a → 0 ≤ n → p + 4 ≤ a ∨ a + n ≤ p → region (write32 b p v) a n = region b a n.
Proof. intros. unfold write32. by rewrite !region_write16_out by lia. Qed.

(** The offsets and sizes of a packet. *)
Definition shape (b : ip_packet) : Z * Z * Z * Z :=
  (l3_ofs b, l4_ofs (pkt b), l2_pad_size (pkt b), psize b).

Lemma shape_write8 b p v : shape (write8 b p v) = shape b.
Proof. unfold shape. by rewrite psize_write8. Qed.
Lemma shape_write16 b p v : shape (write16 b p v) = shape b.
Proof. unfold write16. by rewrite !shape_write8. Qed.
Lemma shape_write32 b p v : shape (write32 b p v) = shape b.
Proof. unfold write32. by rewrite !shape_write16. Qed.

Lemma word32_frame b b' p : (∀ q, p ≤ q < p + 4 → byte b' q = byte b q) → word32 b' p = word32 b p.
Proof. intros H. unfold word32, word16. by rewrite !H by lia. Qed.

Lemma lor_bytes x y : 0 ≤ x → 0 ≤ y < 256 → Z.lor (Z.shiftl x 8) y = y + 256 * x.
Proof.
  intros Hx Hy. rewrite Z.shiftl_mul_pow2 by lia.
  rewrite <-Z.lxor_lor, <-Z.add_nocarry_lxor; [lia|..];
    apply Z.bits_inj'; intros i Hi; rewrite Z.land_spec, Z.bits_0;
    (destruct (Z_lt_ge_dec i 8);
     [by rewrite Z.mul_pow2_bits_low by lia
     |rewrite (proj1 (below_pow2_bits 8 y ltac:(lia) (proj1 Hy)) (proj2 Hy)) by lia; apply andb_false_r]).
Qed.

Lemma htons_bytes x y : 0 ≤ x < 256 → 0 ≤ y < 256 → htons (y + 256 * x) = x + 256 * y.
Proof.
  intros Hx Hy. change (y + 256 * x) with (host16 y x). unfold htons.
  rewrite ntohs_host16 by (unfold is_byte; lia). lia.
Qed.

Lemma htons_byte x : 0 ≤ x < 256 → htons x = 256 * x ∧ htons (u16 (Z.shiftl x 8)) = x.
Proof.
  intros Hx. unfold htons. rewrite Z.shiftl_mul_pow2, u16_small by lia. unfold ntohs, host16.
  rewrite !(Z.mod_small x), (Z.div_small x), Z.div_mul, Z.mod_mul, !(Z.mod_small x), Z.mod_0_l by lia. lia.
Qed.

Lemma region_pos b a n : ok b → 0 ≤ a → 2 ≤ n → a + n ≤ psize b → 0 < byte b a → 0 < region b a n.
Proof.
  intros Hok Ha Hn Hs Hb. replace n with (n - 2 + 2) by lia. rewrite region_cons by lia.
  pose proof (region_range b (a + 2) (n - 2) Hok). pose proof (byte_ok b (a + 1) Hok).
  unfold word16, host16. lia.
Qed.

Lemma sum_ok_cong x y : cong x y → 0 < y → sum_ok x → sum_ok y.
Proof. intros [k ->] Hy [_ [j ->]]. split; [done|]. exists (j + k). lia. Qed.

(** ** Checksum fields *)

(** [recalc] takes [d] off a checksum. *)
Definition recalcs (recalc : Z → outcome Z) (d : Z) : Prop :=
  ∀ c, short c → returns (recalc c) (λ r, short r ∧ cong (c - d) r).

Lemma recalc_csum16_recalcs o n : short o → short n → recalcs (λ c, recalc_csum16 c o n) (n - o).
Proof.
  intros Ho Hn c Hc. destruct (recalc_csum16_spec c o n Hc Ho Hn) as (r & Heq & Hr & [k Hk]).
  exists r. split; [done|]. split; [done|]. exists k. lia.
Qed.
Lemma recalc_csum32_recalcs o n :
  0 ≤ o < 2 ^ 32 → 0 ≤ n < 2 ^ 32 → recalcs (λ c, recalc_csum32 c o n) (n - o).
Proof.
  intros Ho Hn c Hc. destruct (recalc_csum32_spec c o n Hc Ho Hn) as (r & Heq & Hr & [k Hk]).
  exists r. split; [done|]. split; [done|]. exists k. lia.
Qed.

Lemma update16_spec b p recalc d :
  ok b → 0 ≤ p → p + 2 ≤ psize b → recalcs recalc d →
  ∃ r, update16 b p recalc = Ret (write16 b p r) ∧ short r ∧ cong (word16 b p - d) r.
Proof.
  intros H Hp Hs Hrec. unfold update16. rewrite peek16_Ret by done. cbn [obind].
  destruct (Hrec (word16 b p)) as (r & -> & Hr & Hc); [by apply word16_ok|].
  exists r. split; [|done]. cbn [obind]. by rewrite poke16_Ret.
Qed.

Lemma update_udp_zero b p recalc :
  0 ≤ p → p + 2 ≤ psize b → word16 b p = 0 → update_udp b p recalc = Ret b.
Proof. intros Hp Hs Hz. unfold update_udp. rewrite peek16_Ret by done. cbn [obind]. by rewrite Hz. Qed.

Lemma update_udp_spec b p recalc d :
  ok b → 0 ≤ p → p + 2 ≤ psize b → recalcs recalc d → word16 b p ≠ 0 →
  ∃ r, update_udp b p recalc = Ret (write16 b p r) ∧ short r ∧ cong (word16 b p - d) r ∧ r ≠ 0.
Proof.
  intros H Hp Hs Hrec Hnz. unfold update_udp. rewrite peek16_Ret by done. cbn [obind].
  rewrite (proj2 (Z.eqb_neq _ _) Hnz). cbn [negb].
  destruct (update16_spec b p recalc d H Hp Hs Hrec) as (r & -> & Hr & Hc). cbn [obind].
  rewrite peek16_Ret, word16_write16 by (rewrite ?psize_write16; done). cbn [obind].
  destruct (Z.eqb_spec r 0) as [->|Hr0].
  - rewrite poke16_Ret by (rewrite ?psize_write16; done). rewrite write16_twice by done.
    change (htons 0xffff) with 65535. exists 65535. split_and!; [done|unfold short; lia| |lia].
    destruct Hc as [k Hk]. exists (k + 1). lia.
  - exists r. by split_and!.
Qed.

(** The bytes of a concrete packet. *)
Ltac check_bytes := apply (bool_decide_unpack (Forall (λ x, 0 ≤ x < 2 ^ 8) _)); vm_compute; done.
