(* ===== verification/PacketsIpv4.v ===== *)
(** * Rewriting IPv4 packets: the fields and both checksums

    [keeps F b b'] is what every step of [packet_set_ipv4] does: it changes
    the bytes in [F] and checksum fields only, and neither the sum of the IP
    header nor that of the transport segment with its pseudo-header, modulo
    65535. *)
From Stdlib Require Import ZArith Lia.
From stdpp Require Import base list numbers option.
From S2P Require Import Prelude GtpWire GtpWireProofs Csum CsumProofs Packets PacketsProofs.
Open Scope Z_scope.

Section Ipv4.
(** The network header at [nh] with [hl] bytes, the transport segment at [th]
    with [len]. *)
Context (nh hl th len : Z).

(** An IPv4 packet whose layer offsets are right: what the comment of
    [packet_set_ipv4] asks for. *)
Record ipv4_at (b : ip_packet) : Prop := {
  v4_ok : ok b;
  v4_l3 : l3_ofs b = nh;
  v4_l4 : l4_ofs (pkt b) = th;
  v4_nh : 0 ≤ nh;
  v4_hl : 20 ≤ hl;
  v4_ihl : hl = 4 * IP_IHL (byte b (nh + ip_ihl_ver));
  v4_th : th = nh + hl ∧ th < 65535;
  v4_len : 0 ≤ len;
  v4_pad : 0 ≤ l2_pad_size (pkt b);
  v4_size : th + len + l2_pad_size (pkt b) = psize b;
  v4_tot : ntohs (word16 b (nh + ip_tot_len)) = hl + len;
}.

(** Where the transport checksum is, if the packet has one. *)
Definition csum_at (b : ip_packet) : option Z :=
  if (byte b (nh + ip_proto) =? IPPROTO_TCP) && (TCP_HEADER_LEN <=? len) then Some (th + tcp_csum)
  else if (byte b (nh + ip_proto) =? IPPROTO_UDP) && (UDP_HEADER_LEN <=? len)
          && negb (word16 b (th + udp_csum) =? 0) then Some (th + udp_csum)
  else None.

(** The addresses and the segment. *)
Definition tsum (b : ip_packet) : Z := region b (nh + ip_src) 8 + region b th len.

Definition csum_byte (b : ip_packet) (q : Z) : Prop :=
  nh + ip_csum ≤ q < nh + ip_csum + 2 ∨ ∃ p, csum_at b = Some p ∧ p ≤ q < p + 2.

Record keeps (F : Z → Prop) (b b' : ip_packet) : Prop := {
  k_field : ∀ q, F q → q = nh + ip_tos ∨ q = nh + ip_ttl ∨ nh + ip_src ≤ q < nh + ip_src + 8;
  k_shape : shape b' = shape b;
  k_ok : ok b';
  k_frame : ∀ q, 0 ≤ q → ¬ F q → ¬ csum_byte b q → byte b' q = byte b q;
  k_header : cong (region b nh hl) (region b' nh hl);
  k_csum_at : csum_at b' = csum_at b;
  k_segment : csum_at b ≠ None → cong (tsum b) (tsum b');
}.

Lemma keeps_refl b : ok b → keeps (λ _, False) b b.
Proof. intros. split; try done. Qed.

Lemma keeps_trans F G b1 b2 b3 : keeps F b1 b2 → keeps G b2 b3 → keeps (λ q, F q ∨ G q) b1 b3.
Proof.
  intros H1 H2. split.
  - intros q [Hq|Hq]; [by apply (k_field _ _ _ H1)|by apply (k_field _ _ _ H2)].
  - by rewrite (k_shape _ _ _ H2), (k_shape _ _ _ H1).
  - apply (k_ok _ _ _ H2).
  - intros q Hq HF Hc. rewrite (k_frame _ _ _ H2), (k_frame _ _ _ H1); try tauto.
    unfold csum_byte. rewrite (k_csum_at _ _ _ H1). exact Hc.
  - etrans; [apply (k_header _ _ _ H1)|apply (k_header _ _ _ H2)].
  - by rewrite (k_csum_at _ _ _ H2), (k_csum_at _ _ _ H1).
  - intros Hn. etrans; [by apply (k_segment _ _ _ H1)|apply (k_segment _ _ _ H2)].
    by rewrite (k_csum_at _ _ _ H1).
Qed.

Lemma keeps_mono F G b b' : keeps F b b' → (∀ q, F q → G q) →
  (∀ q, G q → q = nh + ip_tos ∨ q = nh + ip_ttl ∨ nh + ip_src ≤ q < nh + ip_src + 8) → keeps G b b'.
Proof. intros [] HFG HG. split; try done. intros q Hq Hn. auto. Qed.

(** Stores into the header do not move the transport checksum. *)
Lemma csum_at_frame b b' :
  byte b' (nh + ip_proto) = byte b (nh + ip_proto) →
  (∀ q, th ≤ q → byte b' q = byte b q) → csum_at b' = csum_at b.
Proof.
  intros Hp Hq. unfold csum_at, word16. rewrite Hp, !Hq by (unfold udp_csum; lia). done.
Qed.

Section Packet.
Context (b : ip_packet) (HP : ipv4_at b).

Ltac geometry :=
  pose proof (v4_nh _ HP); pose proof (v4_hl _ HP); pose proof (v4_th _ HP); pose proof (v4_len _ HP);
  pose proof (v4_pad _ HP); pose proof (v4_size _ HP); pose proof (v4_ihl _ HP);
  unfold ip_ihl_ver, ip_tos, ip_tot_len, ip_ttl, ip_proto, ip_csum, ip_src, ip_dst, tcp_csum, udp_csum,
    TCP_HEADER_LEN, UDP_HEADER_LEN in *.

Lemma csum_at_bounds p : csum_at b = Some p → th ≤ p ∧ p + 2 ≤ th + len ∧ (p - th) mod 2 = 0.
Proof.
  unfold csum_at. intros H.
  destruct (_ && _) eqn:E1 in H; [|destruct (_ && _) eqn:E2 in H; [|done]]; injection H as <-.
  - apply andb_prop in E1 as [_ E1]. apply Z.leb_le in E1.
    unfold TCP_HEADER_LEN, tcp_csum in *. split_and!; [lia..|].
    replace (th + 16 - th) with 16 by lia. done.
  - apply andb_prop in E2 as [E2 _]. apply andb_prop in E2 as [_ E2]. apply Z.leb_le in E2.
    unfold UDP_HEADER_LEN, udp_csum in *. split_and!; [lia..|].
    replace (th + 6 - th) with 6 by lia. done.
Qed.

Lemma csum_byte_places q : csum_byte b q → nh + ip_csum ≤ q < nh + ip_csum + 2 ∨ th ≤ q.
Proof.
  intros [Hq|(p & Hp & Hq)]; [by left|]. right. apply csum_at_bounds in Hp. lia.
Qed.

Lemma l4_size_eq : dp_packet_l4_size (pkt b) = len.
Proof.
  geometry. unfold dp_packet_l4_size. rewrite (v4_l4 _ HP).
  rewrite (proj2 (Z.eqb_neq _ _)) by (unfold UINT16_MAX; lia). cbn [negb].
  assert (0 ≤ ntohs (word16 b (nh + 2)) < 65536).
  { pose proof (byte_ok b (nh + 2) (v4_ok _ HP)). pose proof (byte_ok b (nh + 2 + 1) (v4_ok _ HP)).
    unfold word16. rewrite ntohs_host16 by (unfold is_byte; lia). lia. }
  pose proof (v4_tot _ HP) as Ht. unfold psize, ip_tot_len in *. rewrite u64_small; lia.
Qed.

Lemma l3_Ret : deref (dp_packet_l3 b) = Ret nh.
Proof.
  geometry. unfold dp_packet_l3. rewrite (v4_l3 _ HP).
  by rewrite (proj2 (Z.eqb_neq _ _)) by (unfold UINT16_MAX; lia).
Qed.
Lemma l4_Ret : l4 b = Ret th.
Proof.
  geometry. unfold l4, dp_packet_l4. rewrite (v4_l4 _ HP).
  by rewrite (proj2 (Z.eqb_neq _ _)) by (unfold UINT16_MAX; lia).
Qed.

(** The transport part of [packet_set_ipv4_addr]: the checksum field, if there
    is one, gets a value [r]. *)
Lemma set_transport recalc d :
  recalcs recalc d →
  ∃ b1, (if (byte b (nh + ip_proto) =? IPPROTO_TCP)
            && (TCP_HEADER_LEN <=? dp_packet_l4_size (pkt b))
         then let* th := l4 b in update16 b (th + tcp_csum) recalc
         else if (byte b (nh + ip_proto) =? IPPROTO_UDP)
                 && (UDP_HEADER_LEN <=? dp_packet_l4_size (pkt b))
         then let* uh := l4 b in update_udp b (uh + udp_csum) recalc
         else Ret b) = Ret b1 ∧
  match csum_at b with
  | Some p => ∃ r, b1 = write16 b p r ∧ short r ∧ cong (word16 b p - d) r ∧
                (byte b (nh + ip_proto) ≠ IPPROTO_TCP → r ≠ 0)
  | None => b1 = b
  end.
Proof.
  intros Hrec. rewrite l4_size_eq, l4_Ret. cbn [obind]. unfold csum_at. geometry.
  destruct (Z.eqb_spec (byte b (nh + 9)) IPPROTO_TCP) as [Ep|Ep];
    [destruct (Z.leb_spec 20 len) as [El|El]|]; cbn [andb].
  - destruct (update16_spec b (th + 16) recalc d) as (r & -> & Hr & Hc); [apply HP|lia|lia|done|].
    eexists. split; [done|]. exists r. by split_and!.
  - rewrite Ep. cbn. by exists b.
  - destruct (Z.eqb_spec (byte b (nh + 9)) IPPROTO_UDP) as [Eu|Eu]; cbn [andb]; [|by exists b].
    destruct (Z.leb_spec 8 len) as [El|El]; cbn [andb]; [|by exists b].
    destruct (Z.eqb_spec (word16 b (th + 6)) 0) as [Ez|Ez]; cbn [negb].
    + exists b. split; [|done]. apply update_udp_zero; [lia|lia|done].
    + destruct (update_udp_spec b (th + 6) recalc d) as (r & -> & Hr & Hc & Hnz); [apply HP|lia|lia|done|done|].
      eexists. split; [done|]. exists r. by split_and!.
Qed.

(** Storing such an [r] keeps the place of the checksum. *)
Lemma csum_at_write p r :
  csum_at b = Some p → short r → (byte b (nh + ip_proto) ≠ IPPROTO_TCP → r ≠ 0) →
  csum_at (write16 b p r) = Some p.
Proof.
  intros Hp Hr Hnz. pose proof (csum_at_bounds p Hp) as Hb. geometry.
  rewrite <-Hp. revert Hp. unfold csum_at. geometry. rewrite byte_write16_ne by lia.
  destruct (Z.eqb_spec (byte b (nh + 9)) IPPROTO_TCP) as [Ep|Ep]; [by rewrite Ep|]. cbn [andb].
  destruct (_ && _ && _) eqn:E; [|done]. intros [= <-].
  rewrite word16_write16 by (done || lia). rewrite (proj2 (Z.eqb_neq r 0)) by auto.
  apply andb_prop in E as [-> E]. done.
Qed.


(** What the transport part leaves: everything but the checksum, and the sum
    of the segment without [d]. *)
Definition transport_done (b1 : ip_packet) (d : Z) : Prop :=
  shape b1 = shape b ∧ ok b1 ∧ csum_at b1 = csum_at b ∧
  (∀ q, 0 ≤ q → (∀ p, csum_at b = Some p → q < p ∨ p + 2 ≤ q) → byte b1 q = byte b q) ∧
  (∀ a n, 0 ≤ a → 0 ≤ n → a + n ≤ th → region b1 a n = region b a n) ∧
  (csum_at b ≠ None → cong (region b th len - d) (region b1 th len)).

Lemma transport_done_intro b1 d :
  match csum_at b with
  | Some p => ∃ r, b1 = write16 b p r ∧ short r ∧ cong (word16 b p - d) r ∧
                (byte b (nh + ip_proto) ≠ IPPROTO_TCP → r ≠ 0)
  | None => b1 = b
  end → transport_done b1 d.
Proof.
  intros Hb1. pose proof (v4_ok _ HP) as Hok. geometry. unfold transport_done.
  destruct (csum_at b) as [p|] eqn:Ep; [|subst b1; by split_and!].
  destruct Hb1 as (r & -> & Hr & [k Hk] & Hr0). destruct (csum_at_bounds p Ep) as (Hp1 & Hp2 & Hp3).
  split_and!; [apply shape_write16|by apply ok_write16|by apply csum_at_write| | |].
  - intros q Hq Hqp. apply byte_write16_ne; [lia|done|by apply Hqp].
  - intros a n Ha Hn Han. apply region_write16_out; lia.
  - intros _. rewrite region_write16 by (done || lia). exists k. lia.
Qed.

Lemma transport_done_header b1 d q : transport_done b1 d → 0 ≤ q < th → byte b1 q = byte b q.
Proof.
  intros (_ & _ & _ & Hfr & _) Hq. apply Hfr; [lia|]. intros p Hp. apply csum_at_bounds in Hp. lia.
Qed.

(** One address. *)
Lemma set_addr addr new_addr :
  addr = nh + ip_src ∨ addr = nh + ip_dst → 0 ≤ new_addr < 2 ^ 32 →
  returns (packet_set_ipv4_addr b addr new_addr) (λ b',
    keeps (λ q, addr ≤ q < addr + 4) b b' ∧ word32 b' addr = new_addr).
Proof.
  intros Haddr Hnew. pose proof (v4_ok _ HP) as Hok. geometry. unfold packet_set_ipv4_addr.
  rewrite get32_Ret by (done || lia). cbn [obind]. rewrite l3_Ret. cbn [obind].
  rewrite peek8_Ret by (unfold ip_proto; lia). cbn [obind].
  set (d := new_addr - word32 b addr).
  pose proof (recalc_csum32_recalcs (word32 b addr) new_addr (word32_range b addr Hok) Hnew) as Hrec.
  destruct (set_transport _ _ Hrec) as (b1 & -> & Hb1). cbn [obind].
  apply transport_done_intro in Hb1. pose proof (λ q, transport_done_header _ _ q Hb1) as Hhd. destruct Hb1 as (Hsh & Hok1 & Hat & Hfr & Hreg & Hseg).
  assert (psize b1 = psize b) as Hps by (unfold shape in Hsh; congruence). unfold ip_csum.
  assert (∀ q, 0 ≤ q → q + 2 ≤ th → word16 b1 q = word16 b q) as Hhd16.
  { intros q Hq1 Hq2. unfold word16. rewrite !Hhd by lia. done. }
  destruct (update16_spec b1 (nh + 10) _ _ Hok1 ltac:(lia) ltac:(lia) Hrec) as (r & -> & Hr & [k Hk]).
  cbn [obind]. rewrite put32_Ret by (rewrite ?psize_write16; lia).
  eexists. split; [done|]. rewrite Hhd16 in Hk by lia. fold d in Hk.
  assert (word32 (write16 b1 (nh + 10) r) addr = word32 b addr) as Hold.
  { unfold word32. rewrite !word16_write16_ne, !Hhd16 by lia. done. }
  split; [|apply word32_write32; rewrite ?psize_write16; lia]. split.
  - intros q Hq. unfold ip_tos, ip_ttl, ip_src. lia.
  - by rewrite shape_write32, shape_write16.
  - by apply ok_write32, ok_write16.
  - intros q Hq HF Hc. unfold csum_byte, ip_csum in Hc.
    rewrite byte_write32_ne, byte_write16_ne by lia. apply Hfr; [done|]. intros p Hp.
    destruct (Z_lt_ge_dec q p); [by left|]. destruct (Z_lt_ge_dec q (p + 2)); [|by right; lia].
    destruct Hc. right. exists p. split; [done|lia].
  - destruct (region_write32 (write16 b1 (nh + 10) r) addr new_addr nh hl) as [j Hj];
      [lia..|rewrite psize_write16; lia|offsets|lia|].
    rewrite Hold, region_write16, Hreg, Hhd16 in Hj by (offsets || lia).
    exists (k + j). unfold d in *. lia.
  - rewrite <-Hat. apply csum_at_frame.
    + unfold ip_proto. by rewrite byte_write32_ne, byte_write16_ne by lia.
    + intros q Hq. by rewrite byte_write32_ne, byte_write16_ne by lia.
  - intros Hn. destruct (Hseg Hn) as [k1 Hk1]. unfold tsum, ip_src.
    destruct (region_write32 (write16 b1 (nh + 10) r) addr new_addr (nh + 12) 8) as [j Hj];
      [lia..|rewrite psize_write16; lia|offsets|lia|].
    rewrite Hold, region_write16_out, Hreg in Hj by lia.
    rewrite (region_write32_out _ _ _ th), (region_write16_out _ _ _ th) by lia.
    exists (k1 + j). unfold d in *. lia.
Qed.

(** A byte of the header whose weight in its word is [w]. *)
Lemma set_byte off w old new recalc :
  off = ip_tos ∧ w = 256 ∨ off = ip_ttl ∧ w = 1 → old = byte b (nh + off) → 0 ≤ new < 256 →
  recalcs recalc (w * new - w * old) →
  returns (let* b1 := update16 b (nh + ip_csum) recalc in poke8 b1 (nh + off) new) (λ b',
    keeps (λ q, q = nh + off) b b' ∧ byte b' (nh + off) = new).
Proof.
  intros Hoff Hold Hnew Hrec. pose proof (v4_ok _ HP) as Hok. geometry.
  destruct (update16_spec b (nh + 10) recalc _ Hok ltac:(lia) ltac:(lia) Hrec) as (r & -> & Hr & [k Hk]).
  cbn [obind]. rewrite poke8_Ret by (rewrite ?psize_write16; lia). eexists. split; [done|].
  split; [|apply byte_write8; rewrite psize_write16; lia]. split.
  - intros q ->. unfold ip_tos, ip_ttl in *. lia.
  - by rewrite shape_write8, shape_write16.
  - apply ok_write8; [by apply ok_write16|done].
  - intros q Hq HF Hc. unfold csum_byte, ip_csum in Hc. by rewrite byte_write8_ne, byte_write16_ne by lia.
  - rewrite region_write8 by (rewrite ?psize_write16; lia).
    rewrite region_write16 by (offsets || done || lia). rewrite byte_write16_ne, <-Hold by lia.
    exists k. destruct Hoff as [[-> ->]|[-> ->]].
    + replace (nh + 1 - nh) with 1 by lia. cbn [Z.even]. lia.
    + replace (nh + 8 - nh) with 8 by lia. cbn [Z.even]. lia.
  - apply csum_at_frame.
    + unfold ip_proto. by rewrite byte_write8_ne, byte_write16_ne by lia.
    + intros q Hq. by rewrite byte_write8_ne, byte_write16_ne by lia.
  - intros _. unfold tsum, ip_src.
    rewrite !(region_write8_out (write16 b (nh + 10) r)), !(region_write16_out b) by lia. done.
Qed.

(** The changes leave an IPv4 packet with the same layout. *)
Lemma keeps_ipv4 F b' : keeps F b b' → ipv4_at b'.
Proof.
  intros HK. pose proof (k_shape _ _ _ HK) as Hsh. unfold shape in Hsh. injection Hsh as H1 H2 H3 H4.
  assert (∀ q, 0 ≤ q < th → q = nh ∨ nh + 1 < q < nh + 8 → byte b' q = byte b q) as Hfr.
  { intros q Hq Hqq. apply (k_frame _ _ _ HK); [lia| |].
    - intros HF. apply (k_field _ _ _ HK) in HF. unfold ip_tos, ip_ttl, ip_src in HF. lia.
    - intros Hc. apply csum_byte_places in Hc. unfold ip_csum in Hc. lia. }
  geometry. split; try (unfold ip_ihl_ver; done || lia || congruence).
  - apply (k_ok _ _ _ HK).
  - rewrite H1. apply HP.
  - rewrite H2. apply HP.
  - unfold ip_ihl_ver. rewrite Hfr by lia. done.
  - unfold ip_tot_len, word16. rewrite !Hfr by lia. apply (v4_tot _ HP).
Qed.
End Packet.

(** ** The whole function *)

Definition fields (q : Z) : Prop :=
  q = nh + ip_tos ∨ q = nh + ip_ttl ∨ nh + ip_src ≤ q < nh + ip_src + 8.

Lemma fields_mono F b b' : keeps F b b' → keeps fields b b'.
Proof. intros HK. eapply keeps_mono; [done| |done]. intros q. apply (k_field _ _ _ HK). Qed.

(** Fields that a step does not set stay. *)
Lemma keeps_other F b b' q :
  ipv4_at b → keeps F b b' → fields q → ¬ F q → byte b' q = byte b q.
Proof.
  intros HP HK Hq HF. pose proof (v4_nh _ HP). pose proof (v4_th _ HP). pose proof (v4_hl _ HP).
  unfold fields, ip_tos, ip_ttl, ip_src in Hq. apply (k_frame _ _ _ HK); [lia|done|].
  intros Hc. apply csum_byte_places in Hc. unfold ip_csum in Hc. lia.
Qed.

Lemma if_changed {F : Z → Prop} (c : bool) (b : ip_packet) (run : outcome ip_packet)
    (Q : ip_packet → Prop) :
  ok b → (c = true → returns run (λ b', keeps F b b' ∧ Q b')) → (c = false → Q b) →
  (∀ q, F q → fields q) →
  returns (if c then run else Ret b) (λ b', keeps F b b' ∧ Q b').
Proof.
  intros Hok H1 H2 HF. destruct c; [by apply H1|]. exists b. split; [done|]. split; [|by apply H2].
  eapply keeps_mono; [by apply keeps_refl|done|done].
Qed.

Lemma ipv4_inside b : ipv4_at b → nh + 20 ≤ psize b ∧ ok b ∧ 0 ≤ nh.
Proof.
  intros HP. pose proof (v4_size _ HP). pose proof (v4_pad _ HP). pose proof (v4_hl _ HP).
  pose proof (v4_th _ HP). pose proof (v4_len _ HP). split; [lia|]. split; apply HP.
Qed.

(** One step of the function: an address, or a byte that enters its word as
    [enc]. *)
Lemma addr_step b addr v :
  ipv4_at b → addr = nh + ip_src ∨ addr = nh + ip_dst → 0 ≤ v < 2 ^ 32 →
  get_16aligned_be32 b addr = Ret (word32 b addr) ∧
  returns (if negb (word32 b addr =? v) then packet_set_ipv4_addr b addr v else Ret b) (λ b',
    keeps (λ q, addr ≤ q < addr + 4) b b' ∧ word32 b' addr = v).
Proof.
  intros HP Haddr Hv. destruct (ipv4_inside b HP) as (Hin & Hok & Hnh).
  pose proof Haddr as Hb. unfold ip_src, ip_dst in Hb. split; [apply get32_Ret; [done|lia..]|].
  apply if_changed; [done| | |].
  - intros _. by apply set_addr.
  - intros He. by apply negb_false_iff, Z.eqb_eq in He.
  - intros q Hq. right. right. unfold ip_src. lia.
Qed.

Lemma byte_step b off w enc v :
  ipv4_at b → off = ip_tos ∧ w = 256 ∨ off = ip_ttl ∧ w = 1 → 0 ≤ v < 256 →
  (∀ x, 0 ≤ x < 256 → enc x = w * x) →
  peek8 b (nh + off) = Ret (byte b (nh + off)) ∧
  returns (if negb (byte b (nh + off) =? v) then
             let* b1 := update16 b (nh + ip_csum)
               (λ c, recalc_csum16 c (enc (byte b (nh + off))) (enc v)) in poke8 b1 (nh + off) v
           else Ret b) (λ b',
    keeps (λ q, q = nh + off) b b' ∧ byte b' (nh + off) = v).
Proof.
  intros HP Hoff Hv Henc. destruct (ipv4_inside b HP) as (Hin & Hok & Hnh).
  pose proof Hoff as Hb. unfold ip_tos, ip_ttl in Hb. split; [apply peek8_Ret; lia|].
  pose proof (byte_ok b (nh + off) Hok) as Hold.
  apply if_changed; [done| | |].
  - intros _. apply (set_byte b HP off w (byte b (nh + off))); [done|done|done|].
    rewrite !Henc by done. apply recalc_csum16_recalcs; unfold short; lia.
  - intros He. by apply negb_false_iff, Z.eqb_eq in He.
  - intros q ->. unfold fields. destruct Hoff as [[-> _]|[-> _]]; auto.
Qed.

Lemma set_ipv4_keeps b src dst tos ttl :
  ipv4_at b → 0 ≤ src < 2 ^ 32 → 0 ≤ dst < 2 ^ 32 → 0 ≤ tos < 256 → 0 ≤ ttl < 256 →
  returns (packet_set_ipv4 b src dst tos ttl) (λ b', keeps fields b b' ∧
    word32 b' (nh + ip_src) = src ∧ word32 b' (nh + ip_dst) = dst ∧
    byte b' (nh + ip_tos) = tos ∧ byte b' (nh + ip_ttl) = ttl).
Proof.
  intros HP Hsrc Hdst Htos Httl. unfold packet_set_ipv4. rewrite l3_Ret by done. cbn [obind].
  destruct (addr_step b (nh + ip_src) src HP) as [-> H1]; [by left|done|]. cbn [obind].
  eapply returns_bind; [exact H1|]. intros b1 [HK1 Hf1]. pose proof (keeps_ipv4 b HP _ _ HK1) as HP1.
  destruct (addr_step b1 (nh + ip_dst) dst HP1) as [-> H2]; [by right|done|]. cbn [obind].
  eapply returns_bind; [exact H2|]. intros b2 [HK2 Hf2]. pose proof (keeps_ipv4 b1 HP1 _ _ HK2) as HP2.
  destruct (byte_step b2 ip_tos 256 htons tos HP2) as [-> H3]; [by left|done|by apply htons_byte|].
  cbn [obind].
  eapply returns_bind; [exact H3|]. intros b3 [HK3 Hf3]. pose proof (keeps_ipv4 b2 HP2 _ _ HK3) as HP3.
  destruct (byte_step b3 ip_ttl 1 (λ x, htons (u16 (Z.shiftl x 8))) ttl HP3) as [-> (b4 & Heq & HK4 & Hf4)];
    [by right|done|intros x Hx; rewrite Z.mul_1_l; by apply htons_byte|].
  cbn [obind]. exists b4. split; [exact Heq|].
  assert (∀ q, fields q → q ≠ nh + ip_ttl → byte b4 q = byte b3 q) as E4
    by (intros q Hq Hn; by eapply keeps_other).
  assert (∀ q, fields q → q ≠ nh + ip_tos → byte b3 q = byte b2 q) as E3
    by (intros q Hq Hn; by eapply keeps_other).
  assert (∀ q, fields q → ¬ (nh + ip_dst ≤ q < nh + ip_dst + 4) → byte b2 q = byte b1 q) as E2
    by (intros q Hq Hn; by eapply keeps_other).
  split.
  { eapply fields_mono, keeps_trans; [exact HK1|]. eapply keeps_trans; [exact HK2|].
    eapply keeps_trans; [exact HK3|exact HK4]. }
  unfold fields, ip_tos, ip_ttl, ip_src, ip_dst in *. split_and!; [| | |done].
  - rewrite <-Hf1. apply word32_frame. intros q Hq. rewrite E4, E3, E2 by lia. done.
  - rewrite <-Hf2. apply word32_frame. intros q Hq. rewrite E4, E3 by lia. done.
  - rewrite <-Hf3. apply E4; lia.
Qed.

(** ** The checksums *)

Definition header_ok (b : ip_packet) : Prop := csum (bytes b nh hl) = Ret 0.
Definition transport_ok (b : ip_packet) : Prop :=
  ∃ partial, packet_csum_pseudoheader b nh = Ret partial ∧
    csum_finish (csum_continue partial (bytes b th len)) = Ret 0.


Lemma header_ok_iff b : ipv4_at b → header_ok b ↔ sum_ok (region b nh hl).
Proof.
  intros HP. pose proof (v4_ok _ HP) as Hok. pose proof (v4_hl _ HP). pose proof (v4_ihl _ HP) as Hihl.
  assert (IP_IHL (byte b (nh + ip_ihl_ver)) < 16) by (apply (land_mask_range _ 4); lia).
  pose proof (region_range b nh hl Hok). unfold header_ok, csum.
  rewrite csum_continue_spec by (apply bytes_is_byte || unfold region in *; done || lia).
  apply csum_finish_ok. unfold region in *. lia.
Qed.

(** The rest of the pseudo-header. *)
Definition pseudo_rest (b : ip_packet) : Z := 256 * byte b (nh + ip_proto) + htons (u16 len).

Lemma pseudoheader_Ret b : ipv4_at b →
  packet_csum_pseudoheader b nh = Ret (region b (nh + ip_src) 8 + pseudo_rest b) ∧
  0 ≤ pseudo_rest b < 2 ^ 17 ∧ len < 65536.
Proof.
  intros HP. destruct (ipv4_inside b HP) as (Hin & Hok & Hnh). pose proof (v4_len _ HP).
  pose proof (v4_hl _ HP). pose proof (v4_tot _ HP) as Htot. pose proof (v4_ihl _ HP) as Hihl.
  assert (0 ≤ htons (u16 len) < 65536) as Hlen by (apply ntohs_range).
  assert (0 ≤ ntohs (word16 b (nh + ip_tot_len)) < 65536) as Ht by (apply ntohs_range).
  pose proof (byte_ok b (nh + ip_proto) Hok) as Hp. pose proof (htons_byte _ Hp) as [Hhp _].
  rewrite region8 by (unfold ip_src; lia).
  unfold packet_csum_pseudoheader, pseudo_rest.
  rewrite !get32_Ret, !peek8_Ret, peek16_Ret
    by (unfold ip_src, ip_dst, ip_proto, ip_tot_len, ip_ihl_ver; done || lia).
  cbn [obind]. rewrite Htot, Hhp. replace (hl + len - _) with len by lia.
  pose proof (word16_ok b (nh + ip_src) Hok). pose proof (word16_ok b (nh + ip_src + 2) Hok).
  pose proof (word16_ok b (nh + ip_dst) Hok). pose proof (word16_ok b (nh + ip_dst + 2) Hok).
  unfold short in *. rewrite !add32_word32 by (rewrite ?add32_word32; done || lia).
  unfold csum_add16. rewrite !u32_small by (rewrite ?u32_small; lia).
  split; [|lia]. f_equal. replace (nh + ip_src + 4) with (nh + ip_dst) by (unfold ip_src, ip_dst; lia).
  replace (nh + ip_src + 6) with (nh + ip_dst + 2) by (unfold ip_src, ip_dst; lia). lia.
Qed.

Lemma transport_ok_iff b : ipv4_at b → transport_ok b ↔ sum_ok (tsum b + pseudo_rest b).
Proof.
  intros HP. destruct (pseudoheader_Ret b HP) as (Hph & Hr & Hlen). pose proof (v4_ok _ HP) as Hok.
  pose proof (v4_len _ HP). pose proof (region_range b (nh + ip_src) 8 Hok).
  pose proof (region_range b th len Hok). unfold transport_ok, tsum.
  assert (csum_continue (region b (nh + ip_src) 8 + pseudo_rest b) (bytes b th len) =
    region b (nh + ip_src) 8 + region b th len + pseudo_rest b) as Hc.
  { rewrite csum_continue_spec; [unfold region; lia|by apply bytes_is_byte|lia|].
    fold (region b th len). lia. }
  rewrite <-csum_finish_ok by lia. split.
  - intros (partial & Hp & Hf). rewrite Hph in Hp. injection Hp as <-. by rewrite Hc in Hf.
  - intros Hf. eexists. split; [exact Hph|]. by rewrite Hc.
Qed.

(** What [keeps] means for the receiver. *)
Lemma keeps_checksums b b' :
  ipv4_at b → keeps fields b b' →
  (header_ok b → header_ok b') ∧ (csum_at b ≠ None → transport_ok b → transport_ok b').
Proof.
  intros HP HK. pose proof (keeps_ipv4 b HP _ _ HK) as HP'. destruct (ipv4_inside b' HP') as (Hin & Hok & Hnh).
  pose proof (v4_hl _ HP'). pose proof (v4_th _ HP'). pose proof (v4_len _ HP').
  pose proof (v4_size _ HP'). pose proof (v4_pad _ HP').
  rewrite !header_ok_iff, !transport_ok_iff by done. split.
  - apply sum_ok_cong; [apply (k_header _ _ _ HK)|]. apply region_pos; [done|done|lia|lia|].
    pose proof (byte_ok b' nh Hok). pose proof (v4_ihl _ HP') as Hihl. unfold ip_ihl_ver in Hihl.
    rewrite Z.add_0_r in Hihl. destruct (decide (byte b' nh = 0)) as [E|]; [|lia].
    rewrite E in Hihl. unfold IP_IHL in Hihl. rewrite Z.land_0_l in Hihl. lia.
  - intros Hn. pose proof (k_segment _ _ _ HK Hn) as [k Hk].
    assert (byte b' (nh + ip_proto) = byte b (nh + ip_proto)) as Hp.
    { apply (k_frame _ _ _ HK); [unfold ip_proto; lia| |].
      - unfold fields, ip_proto, ip_tos, ip_ttl, ip_src. lia.
      - intros Hc. apply csum_byte_places in Hc. unfold ip_csum, ip_proto in Hc. lia. }
    assert (0 < byte b (nh + ip_proto)) as Hp0.
    { unfold csum_at in Hn. destruct (Z.eqb_spec (byte b (nh + ip_proto)) IPPROTO_TCP) as [->|];
        [done|]. destruct (Z.eqb_spec (byte b (nh + ip_proto)) IPPROTO_UDP) as [->|]; [done|].
      cbn [andb] in Hn. done. }
    apply sum_ok_cong; [exists k; unfold pseudo_rest; rewrite Hp; lia|].
    pose proof (region_range b' (nh + ip_src) 8 Hok). pose proof (region_range b' th len Hok).
    assert (0 ≤ htons (u16 len) < 65536) as Hlen by (apply ntohs_range).
    unfold tsum, pseudo_rest. lia.
Qed.
End Ipv4.
