(* ===== verification/PacketsL4.v ===== *)
(** * Rewriting transport headers

    The ports and the ICMP type and code, with the checksum of the segment. *)
From Stdlib Require Import ZArith Lia.
From stdpp Require Import base list numbers option.
From S2P Require Import Prelude GtpWire GtpWireProofs Csum CsumProofs Packets PacketsProofs.
Open Scope Z_scope.

(** A change of the bytes in [F] that keeps the sum of the [n] bytes from [a]
    on, modulo 65535. *)
Record patched (F : Z → Prop) (a n : Z) (b b' : ip_packet) : Prop := {
  p_shape : shape b' = shape b;
  p_ok : ok b';
  p_frame : ∀ q, 0 ≤ q → ¬ F q → byte b' q = byte b q;
  p_sum : cong (region b a n) (region b' a n);
}.

Lemma patched_refl F a n b : ok b → patched F a n b b.
Proof. intros. by split. Qed.

Lemma patched_trans F G a n b1 b2 b3 :
  patched F a n b1 b2 → patched G a n b2 b3 → patched (λ q, F q ∨ G q) a n b1 b3.
Proof.
  intros [S1 O1 F1 C1] [S2 O2 F2 C2]. split; [congruence|done| |by etrans].
  intros q Hq HF. rewrite F2, F1 by tauto. done.
Qed.

Lemma patched_mono (F G : Z → Prop) a n b b' :
  patched F a n b b' → (∀ q, F q → G q) → patched G a n b b'.
Proof. intros [S1 O1 F1 C1] HFG. split; auto. Qed.

Lemma patched_psize F a n b b' : patched F a n b b' → psize b' = psize b.
Proof. intros H. pose proof (p_shape _ _ _ _ _ H) as Hs. unfold shape in Hs. congruence. Qed.

Lemma patched_word16 (F : Z → Prop) a n b b' q :
  patched F a n b b' → 0 ≤ q → ¬ F q → ¬ F (q + 1) → word16 b' q = word16 b q.
Proof. intros H Hq H1 H2. unfold word16. rewrite !(p_frame _ _ _ _ _ H) by (done || lia). done. Qed.

(** Where a word of the region is. *)
Definition word_in (a n p : Z) : Prop := a ≤ p ∧ p + 2 ≤ a + n ∧ (p - a) mod 2 = 0.

(** The checksum at [c] and the word at [p] change together. *)
Lemma patch_words b a n c r p v d :
  ok b → 0 ≤ a → a + n ≤ psize b → word_in a n c → word_in a n p → p + 2 ≤ c ∨ c + 2 ≤ p →
  short r → short v → d = v - word16 b p → cong (word16 b c - d) r →
  patched (λ q, p ≤ q < p + 2 ∨ c ≤ q < c + 2) a n b (write16 (write16 b c r) p v) ∧
  word16 (write16 (write16 b c r) p v) p = v.
Proof.
  intros Hok Ha Hn (Hc1 & Hc2 & Hc3) (Hp1 & Hp2 & Hp3) Hpc Hr Hv -> [k Hk].
  split; [|by rewrite word16_write16 by (rewrite ?psize_write16; done || lia)]. split.
  - by rewrite !shape_write16.
  - by repeat apply ok_write16.
  - intros q Hq HF. by rewrite !byte_write16_ne by lia.
  - rewrite region_write16 by (rewrite ?psize_write16; done || lia).
    rewrite region_write16 by (done || lia). rewrite word16_write16_ne by lia. exists k. lia.
Qed.

Lemma set_port_spec b a n port new_port c :
  ok b → 0 ≤ a → a + n ≤ psize b → word_in a n c → word_in a n port →
  port + 2 ≤ c ∨ c + 2 ≤ port → short new_port →
  returns (packet_set_port b port new_port c) (λ b',
    patched (λ q, port ≤ q < port + 2 ∨ c ≤ q < c + 2) a n b b' ∧ word16 b' port = new_port).
Proof.
  intros Hok Ha Hn Hc Hp Hpc Hnew. pose proof Hc as (Hc1 & Hc2 & _). pose proof Hp as (Hp1 & Hp2 & _).
  unfold packet_set_port. rewrite peek16_Ret by lia. cbn [obind].
  destruct (Z.eqb_spec (word16 b port) new_port) as [He|He]; cbn [negb].
  { exists b. split; [done|]. split; [by apply patched_refl|done]. }
  destruct (update16_spec b c _ _ Hok ltac:(lia) ltac:(lia)
    (recalc_csum16_recalcs (word16 b port) new_port (word16_ok b port Hok) Hnew)) as (r & -> & Hr & Hk).
  cbn [obind]. rewrite poke16_Ret by (rewrite ?psize_write16; lia). eexists. split; [done|].
  by eapply patch_words.
Qed.

(** Both ports of a header at [th] whose checksum is at [c]. *)
Definition ports_or (th c q : Z) : Prop := th ≤ q < th + 4 ∨ c ≤ q < c + 2.

Lemma set_ports b th len src dst c :
  ok b → 0 ≤ th → th + len ≤ psize b → 4 ≤ len → word_in th len c → th + 4 ≤ c →
  short src → short dst →
  returns (let* b1 := packet_set_port b th src c in packet_set_port b1 (th + 2) dst c) (λ b',
    patched (ports_or th c) th len b b' ∧ word16 b' th = src ∧ word16 b' (th + 2) = dst).
Proof.
  intros Hok Hth Hlen Hl Hc Hc4 Hs Hd. pose proof Hc as (Hc1 & Hc2 & _).
  assert (word_in th len th) as W1.
  { unfold word_in. replace (th - th) with 0 by lia. split_and!; [lia..|done]. }
  assert (word_in th len (th + 2)) as W2.
  { unfold word_in. replace (th + 2 - th) with 2 by lia. split_and!; [lia..|done]. }
  eapply returns_bind; [apply (set_port_spec b th len th src c); try done; lia|].
  intros b1 [H1 Hf1]. pose proof (patched_psize _ _ _ _ _ H1) as Hps.
  destruct (set_port_spec b1 th len (th + 2) dst c) as (b2 & Heq & H2 & Hf2);
    [apply (p_ok _ _ _ _ _ H1)|done|lia|done|done|lia|done|].
  exists b2. split; [exact Heq|]. split_and!; [| |done].
  - eapply patched_mono; [by eapply patched_trans|]. unfold ports_or. intros q. lia.
  - rewrite <-Hf1. eapply patched_word16; [exact H2|cbv beta; lia..].
Qed.

(** ** The functions *)

Section Segment.
Context (b : ip_packet) (th len : Z).
Context (Hok : ok b) (Hl4 : l4_ofs (pkt b) = th) (Hth : 0 ≤ th < 65535) (Hlen : 0 ≤ len).
Context (Hsize : th + len ≤ psize b).

Lemma seg_l4 : l4 b = Ret th.
Proof.
  unfold l4, dp_packet_l4. rewrite Hl4.
  by rewrite (proj2 (Z.eqb_neq _ _)) by (unfold UINT16_MAX; lia).
Qed.

Lemma word_in_offset off : 0 ≤ off → off + 2 ≤ len → off mod 2 = 0 → word_in th len (th + off).
Proof. intros. unfold word_in. replace (th + off - th) with off by lia. split_and!; [lia..|done]. Qed.

Lemma set_tcp_port_spec src dst :
  TCP_HEADER_LEN ≤ len → short src → short dst →
  returns (packet_set_tcp_port b src dst) (λ b',
    patched (ports_or th (th + tcp_csum)) th len b b' ∧ word16 b' th = src ∧ word16 b' (th + 2) = dst).
Proof.
  intros Hl Hs Hd. unfold TCP_HEADER_LEN in Hl. unfold packet_set_tcp_port. rewrite seg_l4. cbn [obind].
  apply set_ports; try done; [lia|lia|apply word_in_offset; [unfold tcp_csum; lia..|done]|unfold tcp_csum; lia].
Qed.

(** Without a checksum only the ports change. *)
Lemma set_udp_port_spec src dst :
  UDP_HEADER_LEN ≤ len → short src → short dst →
  returns (packet_set_udp_port b src dst) (λ b',
    word16 b' th = src ∧ word16 b' (th + 2) = dst ∧
    if word16 b (th + udp_csum) =? 0
    then b' = write16 (write16 b th src) (th + 2) dst
    else patched (ports_or th (th + udp_csum)) th len b b' ∧ word16 b' (th + udp_csum) ≠ 0).
Proof.
  intros Hl Hs Hd. unfold UDP_HEADER_LEN, udp_csum in *. unfold packet_set_udp_port. rewrite seg_l4.
  cbn [obind]. unfold udp_csum. rewrite peek16_Ret by lia. cbn [obind].
  destruct (word16 b (th + 6) =? 0) eqn:Ez; cbn [negb].
  { rewrite poke16_Ret by lia. cbn [obind]. rewrite poke16_Ret by (rewrite ?psize_write16; lia).
    eexists. split; [done|]. split_and!; [| |done].
    - by rewrite word16_write16_ne, word16_write16 by (done || lia).
    - by rewrite word16_write16 by (rewrite ?psize_write16; done || lia). }
  assert (word_in th len (th + 6)) as Wc by (apply word_in_offset; [lia..|done]).
  destruct (set_ports b th len src dst (th + 6)) as (b2 & Heq & H2 & Hf1 & Hf2); [done|lia..|done|lia|done|done|].
  apply obind_Ret in Heq as (b1 & Heq1 & Heq2). rewrite Heq1. cbn [obind]. rewrite Heq2. cbn [obind].
  pose proof (patched_psize _ _ _ _ _ H2) as Hps. pose proof (p_ok _ _ _ _ _ H2) as Hok2.
  rewrite peek16_Ret by lia. cbn [obind]. destruct (Z.eqb_spec (word16 b2 (th + 6)) 0) as [E0|E0].
  - rewrite poke16_Ret by lia. change (htons 0xffff) with 65535. eexists. split; [done|].
    split_and!; [by rewrite word16_write16_ne by lia..| |].
    + split; [by rewrite shape_write16, (p_shape _ _ _ _ _ H2)|by apply ok_write16| |].
      * intros q Hq HF. unfold ports_or in HF. rewrite byte_write16_ne by lia.
        by apply (p_frame _ _ _ _ _ H2).
      * etrans; [apply (p_sum _ _ _ _ _ H2)|]. destruct Wc as (W1 & W2 & W3).
        rewrite region_write16 by (unfold short; done || lia). exists 1. lia.
    + rewrite word16_write16 by (unfold short; lia). lia.
  - exists b2. by split_and!.
Qed.

Lemma set_icmp_spec type code :
  4 ≤ len → 0 ≤ type < 256 → 0 ≤ code < 256 →
  returns (packet_set_icmp b type code) (λ b',
    patched (λ q, th ≤ q < th + 4) th len b b' ∧ byte b' th = type ∧ byte b' (th + 1) = code).
Proof.
  intros Hl Ht Hc. unfold packet_set_icmp. rewrite seg_l4. cbn [obind].
  rewrite !peek8_Ret by lia. cbn [obind].
  pose proof (byte_ok b th Hok) as Hb0. pose proof (byte_ok b (th + 1) Hok) as Hb1.
  assert (∀ x y, 0 ≤ x < 256 → 0 ≤ y < 256 → htons (u16 (Z.lor (Z.shiftl x 8) y)) = x + 256 * y) as Hh.
  { intros x y Hx Hy. rewrite lor_bytes, u16_small by lia. apply htons_bytes; lia. }
  rewrite !Hh by lia. clear Hh.
  destruct (Z.eqb_spec (byte b th + 256 * byte b (th + 1)) (type + 256 * code)) as [He|He]; cbn [negb].
  { exists b. split; [done|]. split; [by apply patched_refl|lia]. }
  rewrite poke8_Ret by lia. cbn [obind]. rewrite poke8_Ret by (rewrite ?psize_write8; lia). cbn [obind].
  set (b2 := write8 (write8 b th type) (th + 1) code). unfold icmp_csum.
  assert (ok b2) as Hok2 by (by repeat apply ok_write8).
  assert (psize b2 = psize b) as Hps by (unfold b2; by rewrite !psize_write8).
  destruct (update16_spec b2 (th + 2) _ _ Hok2 ltac:(lia) ltac:(lia)
    (recalc_csum16_recalcs (byte b th + 256 * byte b (th + 1)) (type + 256 * code)
      ltac:(unfold short; lia) ltac:(unfold short; lia))) as (r & -> & Hr & [k Hk]).
  eexists. split; [done|]. split_and!.
  - split; [unfold b2; by rewrite shape_write16, !shape_write8|by apply ok_write16| |].
    + intros q Hq HF. unfold b2. by rewrite byte_write16_ne, !byte_write8_ne by lia.
    + rewrite region_write16; [|lia..| |done];
        [|replace (th + 2 - th) with 2 by lia; done].
      rewrite Hk. unfold b2.
      rewrite region_write8, region_write8 by (rewrite ?psize_write8; lia).
      rewrite byte_write8_ne by lia. replace (th - th) with 0 by lia.
      replace (th + 1 - th) with 1 by lia. cbn [Z.even]. exists k. lia.
  - unfold b2. by rewrite byte_write16_ne, byte_write8_ne, byte_write8 by lia.
  - unfold b2. rewrite byte_write16_ne by lia. by rewrite byte_write8 by (rewrite psize_write8; lia).
Qed.
End Segment.

(** ** Checking the segment *)

(** The receiver's check, with the sum [partial] of the pseudo-header. *)
Definition segment_ok (partial : Z) (b : ip_packet) (th len : Z) : Prop :=
  csum_finish (csum_continue partial (bytes b th len)) = Ret 0.

Lemma segment_ok_iff partial b th len :
  ok b → 0 ≤ partial → 0 ≤ len → partial + 65280 * len < 2 ^ 32 →
  segment_ok partial b th len ↔ sum_ok (partial + region b th len).
Proof.
  intros Hok Hp Hlen Hb. pose proof (region_range b th len Hok Hlen). unfold segment_ok.
  rewrite csum_continue_spec by (apply bytes_is_byte || unfold region in *; done || lia).
  apply csum_finish_ok. unfold region in *. lia.
Qed.

Lemma segment_ok_patched F partial b b' th len :
  ok b → patched F th len b b' → 0 ≤ partial → 0 ≤ len → partial + 65280 * len < 2 ^ 32 →
  0 < partial + region b' th len → segment_ok partial b th len → segment_ok partial b' th len.
Proof.
  intros Hok HP Hp Hlen Hb Hpos. rewrite !segment_ok_iff by (done || apply HP).
  apply sum_ok_cong; [|done]. destruct (p_sum _ _ _ _ _ HP) as [k Hk]. exists k. lia.
Qed.

(** ** SCTP *)

Lemma byte_of_nth b q : byte b q = nth (Z.to_nat q) (pk_data (pkt b)) 0.
Proof. done. Qed.

(** A region of equal bytes. *)
Lemma region_frame b b' a n :
  0 ≤ a → 0 ≤ n → a + n ≤ psize b → a + n ≤ psize b' →
  (∀ q, a ≤ q → byte b' q = byte b q) → region b' a n = region b a n.
Proof.
  intros Ha Hn Hs Hs' Hb. unfold region. f_equal. apply list_eq. intros i. unfold bytes.
  unfold psize, dp_packet_size in *. destruct (decide (i < Z.to_nat n)%nat) as [Hi|Hi].
  - rewrite !lookup_take_lt, !lookup_drop, !lookup_nth by lia. f_equal.
    specialize (Hb (a + Z.of_nat i)). rewrite !byte_of_nth in Hb.
    replace (Z.to_nat a + i)%nat with (Z.to_nat (a + Z.of_nat i)) by lia. apply Hb. lia.
  - by rewrite !lookup_take_ge by lia.
Qed.

(** Packets of the same shape with the same bytes are equal. *)
Lemma packet_ext b b' :
  shape b' = shape b → (∀ q, 0 ≤ q → byte b' q = byte b q) → b' = b.
Proof.
  destruct b as [[data pad o4] o3], b' as [[data' pad' o4'] o3']. unfold shape. simpl.
  intros [= <- <- <- Hs] Hb. do 2 f_equal. unfold psize, dp_packet_size in Hs. simpl in Hs.
  apply list_eq. intros i. destruct (decide (i < length data)%nat) as [Hi|Hi].
  - rewrite !lookup_nth by lia. f_equal. specialize (Hb (Z.of_nat i)).
    rewrite !byte_of_nth, Nat2Z.id in Hb. apply Hb. lia.
  - rewrite !lookup_ge_None_2 by lia. done.
Qed.

Lemma byte_write16_lo b p v : 0 ≤ p → p + 2 ≤ psize b → byte (write16 b p v) p = v mod 2 ^ 8.
Proof. intros Hp Hs. unfold write16. by rewrite byte_write8_ne, byte_write8 by lia. Qed.
Lemma byte_write16_hi b p v : 0 ≤ p → p + 2 ≤ psize b →
  byte (write16 b p v) (p + 1) = v / 2 ^ 8 mod 2 ^ 8.
Proof. intros Hp Hs. unfold write16. by rewrite byte_write8 by (rewrite psize_write8; lia). Qed.

Ltac bytes16 := repeat first
  [ rewrite byte_write16_lo by (rewrite ?psize_write16, ?psize_write32; lia)
  | rewrite byte_write16_hi by (rewrite ?psize_write16, ?psize_write32; lia)
  | rewrite byte_write16_ne by lia | rewrite byte_write32_ne by lia ].

(** Storing over a store. *)
Lemma write32_over b p v w : 0 ≤ p → p + 4 ≤ psize b → write32 (write32 b p v) p w = write32 b p w.
Proof.
  intros Hp Hs. apply packet_ext; [by rewrite !shape_write32|]. intros q Hq.
  destruct (Z_lt_ge_dec q p); [by rewrite !byte_write32_ne by lia|].
  destruct (Z_lt_ge_dec q (p + 4)); [|by rewrite !byte_write32_ne by lia].
  assert (q = p ∨ q = p + 1 ∨ q = p + 2 ∨ q = p + 2 + 1) as Hc by lia. unfold write32.
  destruct Hc as [->|[->|[->| ->]]]; by bytes16.
Qed.

Lemma write32_write16 b p v q w :
  0 ≤ p → 0 ≤ q → p + 4 ≤ psize b → q + 2 ≤ p →
  write32 (write16 b q w) p v = write16 (write32 b p v) q w.
Proof.
  intros Hp Hq Hs Hqp. apply packet_ext.
  { by rewrite shape_write32, shape_write16, shape_write16, shape_write32. }
  intros r Hr. destruct (Z_lt_ge_dec r p) as [H1|H1].
  - rewrite byte_write32_ne by lia. destruct (decide (r < q ∨ q + 2 ≤ r)).
    + by rewrite !byte_write16_ne, byte_write32_ne by lia.
    + assert (r = q ∨ r = q + 1) as [-> | ->] by lia; by bytes16.
  - rewrite byte_write16_ne by lia. unfold write32.
    assert (r = p ∨ r = p + 1 ∨ r = p + 2 ∨ r = p + 2 + 1 ∨ p + 4 ≤ r) as Hc by lia.
    destruct Hc as [->|[->|[->|[->|Hc]]]]; by bytes16.
Qed.

(** The CRC of the segment with the checksum field cleared. *)
Definition segment_crc (b : ip_packet) (th len : Z) : Z :=
  crc32c (bytes (write32 b (th + sctp_csum) 0) th len).

Lemma set_sctp_port_spec b th len src dst :
  ok b → l4_ofs (pkt b) = th → 0 ≤ th < 65535 → 12 ≤ len < 65536 → th + len ≤ psize b →
  dp_packet_l4_size (pkt b) = len → short src → short dst →
  returns (packet_set_sctp_port b src dst) (λ b',
    shape b' = shape b ∧ (∀ q, 0 ≤ q → ¬ ports_or th (th + sctp_csum) q →
      q ≠ th + sctp_csum + 2 → q ≠ th + sctp_csum + 3 → byte b' q = byte b q) ∧
    word16 b' th = src ∧ word16 b' (th + 2) = dst ∧
    word32 b' (th + sctp_csum) =
      Z.lxor (Z.lxor (word32 b (th + sctp_csum)) (segment_crc b th len)) (segment_crc b' th len)).
Proof.
  intros Hok Hl4 Hth Hlen Hsize Hl4s Hs Hd. unfold packet_set_sctp_port, sctp_csum in *.
  rewrite (seg_l4 b th) by lia. cbn [obind].
  rewrite Hl4s, u16_small by lia. rewrite get32_Ret by (done || lia). cbn [obind].
  rewrite put32_Ret by lia. cbn [obind]. set (b1 := write32 b (th + 8) 0).
  assert (psize b1 = psize b) as Hps1 by apply psize_write32.
  unfold peek_bytes. rewrite inside_true by lia. cbn [obind].
  rewrite poke16_Ret by lia. cbn [obind]. rewrite poke16_Ret by (rewrite ?psize_write16; lia). cbn [obind].
  set (b3 := write16 (write16 b1 th src) (th + 2) dst).
  assert (psize b3 = psize b) as Hps3 by (unfold b3; by rewrite !psize_write16).
  rewrite inside_true by lia. cbn [obind]. rewrite put32_Ret by lia. eexists. split; [done|].
  set (v := Z.lxor (Z.lxor (word32 b (th + 8)) (crc32c (bytes b1 th len))) (crc32c (bytes b3 th len))).
  assert (segment_crc (write32 b3 (th + 8) v) th len = crc32c (bytes b3 th len)) as Hcrc.
  { unfold segment_crc, sctp_csum. rewrite write32_over by lia. do 2 f_equal.
    unfold b3. rewrite !write32_write16 by (rewrite ?psize_write16; lia).
    unfold b1. by rewrite write32_over by lia. }
  assert (0 ≤ v < 2 ^ 32) as Hv.
  { apply lxor_range; [lia| |apply u32_range]. apply lxor_range; [lia| |apply u32_range].
    by apply word32_range. }
  split_and!.
  - rewrite shape_write32. unfold b3, b1. by rewrite !shape_write16, shape_write32.
  - intros q Hq HF H2 H3. unfold ports_or in HF. unfold b3, b1.
    by rewrite byte_write32_ne, !byte_write16_ne, byte_write32_ne by lia.
  - unfold word16. rewrite !byte_write32_ne by lia. fold (word16 b3 th). unfold b3.
    by rewrite word16_write16_ne, word16_write16 by (done || lia).
  - unfold word16. rewrite !byte_write32_ne by lia. fold (word16 b3 (th + 2)). unfold b3.
    by rewrite word16_write16 by (rewrite ?psize_write16; done || lia).
  - rewrite word32_write32 by lia. rewrite Hcrc. unfold v. do 2 f_equal.
Qed.
