(* ===== verification/PacketsIpv6.v ===== *)
(** * Rewriting IPv6 packets *)
From Stdlib Require Import ZArith Lia.
From stdpp Require Import base list numbers option.
From S2P Require Import Prelude GtpWire GtpWireProofs Csum CsumProofs Packets PacketsProofs PacketsL4.
Open Scope Z_scope.

(** ** Addresses *)

Definition addr4 (b : ip_packet) (p : Z) : list Z :=
  [word32 b p; word32 b (p + 4); word32 b (p + 8); word32 b (p + 12)].
Definition write128 (b : ip_packet) (p v0 v1 v2 v3 : Z) : ip_packet :=
  write32 (write32 (write32 (write32 b p v0) (p + 4) v1) (p + 8) v2) (p + 12) v3.
Definition in6_addr (l : list Z) : Prop := length l = 4%nat ∧ Forall (λ x, 0 ≤ x < 2 ^ 32) l.

Lemma in6_addr_inv l : in6_addr l → ∃ v0 v1 v2 v3, l = [v0; v1; v2; v3] ∧
  0 ≤ v0 < 2 ^ 32 ∧ 0 ≤ v1 < 2 ^ 32 ∧ 0 ≤ v2 < 2 ^ 32 ∧ 0 ≤ v3 < 2 ^ 32.
Proof.
  intros [Hlen Hall]. destruct l as [|v0 [|v1 [|v2 [|v3 [|]]]]]; try done.
  repeat (apply Forall_cons_1 in Hall as [? Hall]). by exists v0, v1, v2, v3.
Qed.

Lemma addr4_in6 b p : ok b → in6_addr (addr4 b p).
Proof. intros H. split; [done|]. repeat constructor; by apply word32_range. Qed.

Lemma get_in6_addr_Ret b p : ok b → 0 ≤ p → p + 16 ≤ psize b → get_in6_addr b p = Ret (addr4 b p).
Proof.
  intros H Hp Hs. unfold get_in6_addr, addr4. cbn [get_each].
  do 4 (rewrite get32_Ret by (done || lia); cbn [obind]).
  replace (p + 4 + 4) with (p + 8) by lia. by replace (p + 8 + 4) with (p + 12) by lia.
Qed.

Lemma put_in6_addr_Ret b p v0 v1 v2 v3 : 0 ≤ p → p + 16 ≤ psize b →
  put_in6_addr b p [v0; v1; v2; v3] = Ret (write128 b p v0 v1 v2 v3).
Proof.
  intros Hp Hs. unfold put_in6_addr, write128. cbn [put_each].
  do 4 (rewrite put32_Ret by (rewrite ?psize_write32; lia); cbn [obind]).
  replace (p + 4 + 4) with (p + 8) by lia. by replace (p + 8 + 4) with (p + 12) by lia.
Qed.

Lemma shape_write128 b p v0 v1 v2 v3 : shape (write128 b p v0 v1 v2 v3) = shape b.
Proof. unfold write128. by rewrite !shape_write32. Qed.
Lemma psize_write128 b p v0 v1 v2 v3 : psize (write128 b p v0 v1 v2 v3) = psize b.
Proof. unfold write128. by rewrite !psize_write32. Qed.
Lemma ok_write128 b p v0 v1 v2 v3 : ok b → ok (write128 b p v0 v1 v2 v3).
Proof. intros. unfold write128. by repeat apply ok_write32. Qed.
Lemma byte_write128_ne b p v0 v1 v2 v3 q : 0 ≤ p → 0 ≤ q → q < p ∨ p + 16 ≤ q →
  byte (write128 b p v0 v1 v2 v3) q = byte b q.
Proof. intros. unfold write128. by rewrite !byte_write32_ne by lia. Qed.
Lemma word32_write32_ne b p v q : 0 ≤ p → 0 ≤ q → q + 4 ≤ p ∨ p + 4 ≤ q →
  word32 (write32 b p v) q = word32 b q.
Proof. intros. apply word32_frame. intros r Hr. apply byte_write32_ne; lia. Qed.
Lemma region_write128_out b p v0 v1 v2 v3 a n :
  0 ≤ p → 0 ≤ a → 0 ≤ n → p + 16 ≤ a ∨ a + n ≤ p →
  region (write128 b p v0 v1 v2 v3) a n = region b a n.
Proof. intros. unfold write128. by rewrite !region_write32_out by lia. Qed.

Lemma addr4_write128 b p v0 v1 v2 v3 :
  0 ≤ p → p + 16 ≤ psize b → in6_addr [v0; v1; v2; v3] →
  addr4 (write128 b p v0 v1 v2 v3) p = [v0; v1; v2; v3].
Proof.
  intros Hp Hs Hin. apply in6_addr_inv in Hin as (? & ? & ? & ? & [= <- <- <- <-] & H0 & H1 & H2 & H3).
  unfold addr4, write128. repeat (rewrite word32_write32_ne by lia).
  f_equal; [|f_equal; [|f_equal; [|f_equal]]];
    repeat (rewrite word32_write32_ne by lia); apply word32_write32; rewrite ?psize_write32; lia.
Qed.

Lemma region_write128 b p v0 v1 v2 v3 a n :
  0 ≤ a → a ≤ p → p + 16 ≤ a + n → a + n ≤ psize b → (p - a) mod 2 = 0 → in6_addr [v0; v1; v2; v3] →
  cong (region b a n + (zsum [v0; v1; v2; v3] - zsum (addr4 b p)))
    (region (write128 b p v0 v1 v2 v3) a n).
Proof.
  intros Ha Hp Hpn Hs Heven Hin.
  apply in6_addr_inv in Hin as (? & ? & ? & ? & [= <- <- <- <-] & H0 & H1 & H2 & H3).
  unfold write128. set (b1 := write32 b p v0). set (b2 := write32 b1 (p + 4) v1).
  set (b3 := write32 b2 (p + 8) v2).
  assert (psize b1 = psize b ∧ psize b2 = psize b ∧ psize b3 = psize b) as (P1 & P2 & P3)
    by (unfold b3, b2, b1; by rewrite !psize_write32).
  destruct (region_write32 b p v0 a n) as [k0 K0]; [lia..|].
  destruct (region_write32 b1 (p + 4) v1 a n) as [k1 K1]; [offsets..|].
  destruct (region_write32 b2 (p + 8) v2 a n) as [k2 K2]; [offsets..|].
  destruct (region_write32 b3 (p + 12) v3 a n) as [k3 K3]; [offsets..|].
  assert (word32 b1 (p + 4) = word32 b (p + 4)) as E1 by (apply word32_write32_ne; lia).
  assert (word32 b2 (p + 8) = word32 b (p + 8)) as E2
    by (unfold b2, b1; by rewrite !word32_write32_ne by lia).
  assert (word32 b3 (p + 12) = word32 b (p + 12)) as E3
    by (unfold b3, b2, b1; by rewrite !word32_write32_ne by lia).
  fold b1 in K0. fold b2 in K1. fold b3 in K2. exists (k0 + k1 + k2 + k3). simpl. lia.
Qed.

Lemma recalc_csum128_recalcs old new :
  in6_addr old → in6_addr new → recalcs (λ c, recalc_csum128 c old new) (zsum new - zsum old).
Proof.
  intros [Hl1 H1] [Hl2 H2] c Hc. unfold recalc_csum128.
  destruct (recalc_each_spec recalc_csum32 (2 ^ 32) old new c) as (r & Heq & Hr & [k Hk]);
    [intros; by apply recalc_csum32_spec|congruence|done|done|done|].
  exists r. split; [exact Heq|]. split; [done|]. exists k. lia.
Qed.

(** ** Extension headers *)

(** Every extension header within the packet is read, so the loop ends; if a
    routing header with segments left stops it, [*nexthdr] is that header. *)
Lemma rh_loop_returns b fuel data remaining nexthdr :
  ok b → 0 ≤ data → 0 ≤ remaining → data + remaining ≤ psize b → remaining < Z.of_nat fuel →
  returns (rh_loop fuel b data remaining nexthdr) (λ '(rh, proto), rh = true → proto = IPPROTO_ROUTING).
Proof.
  intros Hok. revert data remaining nexthdr.
  induction fuel as [|fuel IH]; intros data remaining nexthdr Hd Hr Hs Hf; [lia|]. cbn [rh_loop].
  destruct (negb (is_ext_hdr nexthdr)); [by eexists|].
  destruct (Z.ltb_spec remaining 8); [by eexists|].
  assert (∀ nxt len, 8 ≤ len → returns (if remaining <? len then Ret (false, nxt)
    else rh_loop fuel b (data + len) (remaining - len) nxt)
    (λ '(rh, proto), rh = true → proto = IPPROTO_ROUTING)) as Hnext.
  { intros nxt len Hlen. destruct (Z.ltb_spec remaining len); [by eexists|]. apply IH; lia. }
  pose proof (byte_ok b (data + 1) Hok).
  rewrite !peek8_Ret by lia. cbn [obind].
  destruct (nexthdr =? IPPROTO_AH); [apply Hnext; lia|].
  destruct (nexthdr =? IPPROTO_FRAGMENT); [apply IH; lia|].
  destruct (Z.eqb_spec nexthdr IPPROTO_ROUTING) as [E|]; [|apply Hnext; lia].
  destruct (0 <? byte b (data + 3)); [|apply Hnext; lia].
  eexists. split; [done|]. intros _. exact E.
Qed.

(** ** The flow label word *)

Lemma land_range k x y : 0 ≤ k → 0 ≤ x < 2 ^ k → 0 ≤ Z.land x y < 2 ^ k.
Proof.
  intros Hk Hx. assert (0 ≤ Z.land x y) by (apply Z.land_nonneg; lia). split; [done|].
  apply (below_pow2_bits k); [done|done|]. intros i Hi. rewrite Z.land_spec.
  by rewrite (proj1 (below_pow2_bits k x Hk (proj1 Hx)) (proj2 Hx)).
Qed.

Lemma cons_bits a y i : 0 ≤ a < 256 → 0 ≤ y → 0 ≤ i →
  Z.testbit (a + 256 * y) i = if i <? 8 then Z.testbit a i else Z.testbit y (i - 8).
Proof.
  intros Ha Hy Hi. rewrite <-lor_bytes, Z.lor_spec by done. destruct (Z.ltb_spec i 8).
  - by rewrite Z.shiftl_spec_low by lia.
  - rewrite (proj1 (below_pow2_bits 8 a ltac:(lia) (proj1 Ha)) (proj2 Ha)), orb_false_r by lia.
    by rewrite Z.shiftl_spec by lia.
Qed.

Lemma land_cons a y a' y' : 0 ≤ a < 256 → 0 ≤ a' < 256 → 0 ≤ y → 0 ≤ y' →
  Z.land (a + 256 * y) (a' + 256 * y') = Z.land a a' + 256 * Z.land y y'.
Proof.
  intros Ha Ha' Hy Hy'. pose proof (land_range 8 a a' ltac:(lia) Ha).
  assert (0 ≤ Z.land y y') by (apply Z.land_nonneg; lia).
  apply Z.bits_inj'. intros i Hi. rewrite Z.land_spec, !cons_bits by lia.
  destruct (i <? 8); by rewrite Z.land_spec.
Qed.

Lemma lor_cons a y a' y' : 0 ≤ a < 256 → 0 ≤ a' < 256 → 0 ≤ y → 0 ≤ y' →
  Z.lor (a + 256 * y) (a' + 256 * y') = Z.lor a a' + 256 * Z.lor y y'.
Proof.
  intros Ha Ha' Hy Hy'. assert (0 ≤ Z.lor a a' < 256) by (apply (lor_range 8); lia).
  assert (0 ≤ Z.lor y y') by (apply Z.lor_nonneg; lia).
  apply Z.bits_inj'. intros i Hi. rewrite Z.lor_spec, !cons_bits by lia.
  destruct (i <? 8); by rewrite Z.lor_spec.
Qed.

(** Bitwise operations on a [be32], byte by byte. *)
Lemma host32_cons a b c d : host32 a b c d = a + 256 * (b + 256 * (c + 256 * d)).
Proof. unfold host32. lia. Qed.

Lemma land_host32 a b c d a' b' c' d' :
  is_byte a → is_byte b → is_byte c → is_byte d → is_byte a' → is_byte b' → is_byte c' → is_byte d' →
  Z.land (host32 a b c d) (host32 a' b' c' d') =
  host32 (Z.land a a') (Z.land b b') (Z.land c c') (Z.land d d').
Proof. unfold is_byte. intros. rewrite !host32_cons, !land_cons by lia. done. Qed.
Lemma lor_host32 a b c d a' b' c' d' :
  is_byte a → is_byte b → is_byte c → is_byte d → is_byte a' → is_byte b' → is_byte c' → is_byte d' →
  Z.lor (host32 a b c d) (host32 a' b' c' d') =
  host32 (Z.lor a a') (Z.lor b b') (Z.lor c c') (Z.lor d d').
Proof. unfold is_byte. intros. rewrite !host32_cons, !lor_cons by lia. done. Qed.

Lemma host32_inv w : 0 ≤ w < 2 ^ 32 → ∃ a b c d, w = host32 a b c d ∧
  is_byte a ∧ is_byte b ∧ is_byte c ∧ is_byte d.
Proof.
  intros Hw. exists (w mod 256), (w / 256 mod 256), (w / 65536 mod 256), (w / 16777216).
  unfold host32, is_byte. Z.to_euclidean_division_equations. lia.
Qed.

(** Nibbles. *)
Lemma nibbles x t : 0 ≤ x < 256 → 0 ≤ t < 16 →
  Z.lor (Z.land x 0xf0) t = 16 * (x / 16) + t ∧
  Z.lor (Z.land x 0x0f) (16 * t) = x mod 16 + 16 * t.
Proof.
  intros Hx Ht.
  assert (Forall (λ x, Forall (λ t, Z.lor (Z.land x 0xf0) t = 16 * (x / 16) + t ∧
    Z.lor (Z.land x 0x0f) (16 * t) = x mod 16 + 16 * t) (seqZ 0 16)) (seqZ 0 256)) as Hall.
  { apply (bool_decide_unpack _). vm_compute. done. }
  rewrite Forall_forall in Hall. specialize (Hall x). rewrite Forall_forall in Hall.
  apply Hall; apply list_elem_of_In, elem_of_seqZ; lia.
Qed.

(** Setting the traffic class and then the label. *)
Lemma flow_word w tc fl :
  0 ≤ w < 2 ^ 32 → 0 ≤ tc < 256 → 0 ≤ fl < 2 ^ 20 →
  ntohl (Z.lor (Z.land (Z.lor (Z.land w (ntohl 0xF00FFFFF)) (ntohl (Z.shiftl tc 20)))
      (ntohl (u32 (Z.lnot IPV6_LABEL_MASK)))) (ntohl fl)) =
  2 ^ 28 * (ntohl w / 2 ^ 28) + 2 ^ 20 * tc + fl.
Proof.
  intros Hw Htc Hfl. destruct (host32_inv w Hw) as (a & b & c & d & -> & Ha & Hb & Hc & Hd).
  change (ntohl 0xF00FFFFF) with (host32 0xf0 0x0f 0xff 0xff).
  change (ntohl (u32 (Z.lnot IPV6_LABEL_MASK))) with (host32 0xff 0xf0 0 0).
  assert (ntohl (Z.shiftl tc 20) = host32 (tc / 16) (16 * (tc mod 16)) 0 0) as ->.
  { rewrite Z.shiftl_mul_pow2 by lia. unfold ntohl, host32. Z.to_euclidean_division_equations. lia. }
  assert (ntohl fl = host32 0 (fl / 65536) (fl / 256 mod 256) (fl mod 256)) as ->.
  { unfold ntohl, host32. Z.to_euclidean_division_equations. lia. }
  assert (is_byte (tc / 16) ∧ tc / 16 < 16 ∧ is_byte (16 * (tc mod 16)) ∧ 0 ≤ tc mod 16 < 16 ∧
    0 ≤ fl / 65536 < 16 ∧ is_byte (fl / 256 mod 256) ∧ is_byte (fl mod 256)) as
    (T1 & T2 & T3 & T4 & F1 & F2 & F3).
  { unfold is_byte. Z.to_euclidean_division_equations. lia. }
  assert (∀ x, is_byte x → Z.land x 0xff = x) as Hff.
  { intros x Hx. unfold is_byte in Hx. change 0xff with (Z.ones 8).
    rewrite Z.land_ones, Z.mod_small by lia. done. }
  assert (is_byte 0xf0 ∧ is_byte 0x0f ∧ is_byte 0xff ∧ is_byte 0) as (N1 & N2 & N3 & N4) by done.
  assert (∀ x y, is_byte x → is_byte y → is_byte (Z.land x y)) as Hland.
  { intros x y Hx Hy. unfold is_byte in *. apply land_range; lia. }
  rewrite land_host32, !Hff, lor_host32, !Z.lor_0_r by auto.
  rewrite (proj1 (nibbles a (tc / 16) Ha (conj (proj1 T1) T2))), (proj2 (nibbles b (tc mod 16) Hb T4)).
  set (a' := 16 * (a / 16) + tc / 16). set (b' := b mod 16 + 16 * (tc mod 16)).
  assert (is_byte a' ∧ is_byte b' ∧ b' / 16 = tc mod 16) as (A1 & B1 & B2).
  { unfold a', b', is_byte in *. Z.to_euclidean_division_equations. lia. }
  rewrite land_host32, Hff, !Z.land_0_r, lor_host32, !Z.lor_0_r, !Z.lor_0_l
    by (unfold is_byte in *; auto; lia).
  rewrite (proj1 (nibbles b' (fl / 65536) B1 F1)), B2.
  assert (is_byte (16 * (tc mod 16) + fl / 65536)) by (unfold is_byte; lia).
  rewrite !ntohl_host32 by done. unfold a', is_byte, of_be32 in *.
  Z.to_euclidean_division_equations. lia.
Qed.

(** ** The whole function *)

Section Ipv6.
(** The network header at [nh], the transport segment at [th] with [len]
    bytes, of the protocol [proto]. *)
Context (nh th len proto : Z).

Record ipv6_at (b : ip_packet) : Prop := {
  v6_ok : ok b;
  v6_l3 : l3_ofs b = nh;
  v6_l4 : l4_ofs (pkt b) = th;
  v6_nh : 0 ≤ nh;
  v6_th : nh + 40 ≤ th < 65535;
  v6_len : 0 ≤ len < 65536;
  v6_pad : 0 ≤ l2_pad_size (pkt b);
  v6_size : th + len + l2_pad_size (pkt b) = psize b;
}.

(** Where the transport checksum is. *)
Definition csum_at6 (b : ip_packet) : option Z :=
  if (proto =? IPPROTO_TCP) && (TCP_HEADER_LEN <=? len) then Some (th + tcp_csum)
  else if (proto =? IPPROTO_UDP) && (UDP_HEADER_LEN <=? len) then
    if word16 b (th + udp_csum) =? 0 then None else Some (th + udp_csum)
  else if (proto =? IPPROTO_ICMPV6) && (ICMP6_HEADER_LEN <=? len) then Some (th + icmp_csum)
  else None.

(** The addresses and the segment. *)
Definition tsum6 (b : ip_packet) : Z := region b (nh + ip6_src) 32 + region b th len.

Definition csum6_byte (b : ip_packet) (q : Z) : Prop := ∃ p, csum_at6 b = Some p ∧ p ≤ q < p + 2.

(** A step changes header bytes in [F] and the checksum. *)
Record keeps6 (F : Z → Prop) (b b' : ip_packet) : Prop := {
  k6_shape : shape b' = shape b;
  k6_ok : ok b';
  k6_frame : ∀ q, 0 ≤ q → ¬ F q → ¬ csum6_byte b q → byte b' q = byte b q;
  k6_csum_at : csum_at6 b' = csum_at6 b;
  k6_segment : csum_at6 b ≠ None → cong (tsum6 b) (tsum6 b');
}.

Lemma keeps6_refl F b : ok b → keeps6 F b b.
Proof. intros. by split. Qed.

Lemma keeps6_trans F G b1 b2 b3 : keeps6 F b1 b2 → keeps6 G b2 b3 → keeps6 (λ q, F q ∨ G q) b1 b3.
Proof.
  intros H1 H2. split.
  - by rewrite (k6_shape _ _ _ H2), (k6_shape _ _ _ H1).
  - apply (k6_ok _ _ _ H2).
  - intros q Hq HF Hc. rewrite (k6_frame _ _ _ H2), (k6_frame _ _ _ H1); try tauto.
    unfold csum6_byte. rewrite (k6_csum_at _ _ _ H1). exact Hc.
  - by rewrite (k6_csum_at _ _ _ H2), (k6_csum_at _ _ _ H1).
  - intros Hn. etrans; [by apply (k6_segment _ _ _ H1)|apply (k6_segment _ _ _ H2)].
    by rewrite (k6_csum_at _ _ _ H1).
Qed.

Lemma keeps6_mono (F G : Z → Prop) b b' : keeps6 F b b' → (∀ q, F q → G q) → keeps6 G b b'.
Proof. intros [] HFG. split; auto. Qed.

Lemma keeps6_ipv6 F b b' : ipv6_at b → keeps6 F b b' → ipv6_at b'.
Proof.
  intros HP HK. pose proof (k6_shape _ _ _ HK) as Hsh. unfold shape in Hsh.
  injection Hsh as H1 H2 H3 H4. destruct HP. split; try done; try congruence.
  apply (k6_ok _ _ _ HK).
Qed.

Lemma csum_at6_bounds b p : csum_at6 b = Some p → th ≤ p ∧ p + 2 ≤ th + len ∧ (p - th) mod 2 = 0.
Proof.
  unfold csum_at6, TCP_HEADER_LEN, UDP_HEADER_LEN, ICMP6_HEADER_LEN, tcp_csum, udp_csum, icmp_csum.
  intros H. assert (∀ off, 0 ≤ off → off + 2 ≤ len → off mod 2 = 0 →
    th ≤ th + off ∧ th + off + 2 ≤ th + len ∧ (th + off - th) mod 2 = 0) as Hoff.
  { intros off H0 H1 H2. replace (th + off - th) with off by lia. lia. }
  destruct (_ && _) eqn:E1 in H.
  { apply andb_prop in E1 as [_ E1%Z.leb_le]. injection H as <-. apply Hoff; [lia..|done]. }
  destruct (_ && _) eqn:E2 in H.
  { apply andb_prop in E2 as [_ E2%Z.leb_le]. destruct (_ =? 0) in H; [done|].
    injection H as <-. apply Hoff; [lia..|done]. }
  destruct (_ && _) eqn:E3 in H; [|done].
  apply andb_prop in E3 as [_ E3%Z.leb_le]. injection H as <-. apply Hoff; [lia..|done].
Qed.

Lemma csum_at6_frame b b' : (∀ q, th ≤ q → byte b' q = byte b q) → csum_at6 b' = csum_at6 b.
Proof. intros Hq. unfold csum_at6, word16. rewrite !Hq by (unfold udp_csum; lia). done. Qed.

Section Packet.
Context (b : ip_packet) (HP : ipv6_at b).

Lemma l4_size6 : dp_packet_l4_size (pkt b) = len.
Proof.
  pose proof (v6_th _ HP). pose proof (v6_size _ HP) as Hs. pose proof (v6_len _ HP).
  unfold dp_packet_l4_size. rewrite (v6_l4 _ HP).
  rewrite (proj2 (Z.eqb_neq _ _)) by (unfold UINT16_MAX; lia). cbn [negb].
  unfold psize in Hs. rewrite u64_small; lia.
Qed.

Lemma l3_Ret6 : deref (dp_packet_l3 b) = Ret nh.
Proof.
  pose proof (v6_th _ HP). unfold dp_packet_l3. rewrite (v6_l3 _ HP).
  by rewrite (proj2 (Z.eqb_neq _ _)) by (unfold UINT16_MAX; lia).
Qed.

Lemma inside6 : ok b ∧ 0 ≤ nh ∧ nh + 40 ≤ th ∧ 0 ≤ len ∧ th + len ≤ psize b.
Proof.
  pose proof (v6_th _ HP). pose proof (v6_size _ HP). pose proof (v6_pad _ HP). pose proof (v6_len _ HP).
  split; [apply HP|]. split; [apply HP|]. lia.
Qed.

(** The transport checksum takes the change of an address. *)
Lemma update128 addr new :
  0 ≤ addr → addr + 16 ≤ th → in6_addr new →
  ∃ b1, packet_update_csum128 b proto addr new = Ret b1 ∧
  match csum_at6 b with
  | Some p => ∃ r, b1 = write16 b p r ∧ short r ∧
      cong (word16 b p - (zsum new - zsum (addr4 b addr))) r ∧ (proto = IPPROTO_UDP → r ≠ 0)
  | None => b1 = b
  end.
Proof.
  intros Ha Hat Hnew. destruct inside6 as (Hok & Hnh & Hth & Hlen & Hs).
  unfold packet_update_csum128. rewrite l4_size6, get_in6_addr_Ret by (done || lia).
  rewrite (seg_l4 b th) by (apply HP || pose proof (v6_th _ HP); lia). cbn [obind].
  pose proof (recalc_csum128_recalcs _ _ (addr4_in6 b addr Hok) Hnew) as Hrec.
  unfold csum_at6, TCP_HEADER_LEN, UDP_HEADER_LEN, ICMP6_HEADER_LEN, tcp_csum, udp_csum, icmp_csum.
  destruct (_ && _) eqn:E1.
  { apply andb_prop in E1 as [Et%Z.eqb_eq El%Z.leb_le].
    destruct (update16_spec b (th + 16) _ _ Hok ltac:(lia) ltac:(lia) Hrec) as (r & -> & Hr & Hc).
    eexists. split; [done|]. exists r. split_and!; [done..|]. by rewrite Et. }
  clear E1. destruct (_ && _) eqn:E2.
  { apply andb_prop in E2 as [_ El%Z.leb_le]. destruct (Z.eqb_spec (word16 b (th + 6)) 0) as [Ez|Ez].
    - exists b. split; [|done]. apply update_udp_zero; [lia..|done].
    - destruct (update_udp_spec b (th + 6) _ _ Hok ltac:(lia) ltac:(lia) Hrec Ez) as (r & -> & Hr & Hc & H0).
      eexists. split; [done|]. exists r. by split_and!. }
  clear E2. destruct (_ && _) eqn:E3; [|by exists b].
  apply andb_prop in E3 as [Ei%Z.eqb_eq El%Z.leb_le].
  destruct (update16_spec b (th + 2) _ _ Hok ltac:(lia) ltac:(lia) Hrec) as (r & -> & Hr & Hc).
  eexists. split; [done|]. exists r. split_and!; [done..|]. by rewrite Ei.
Qed.

Lemma csum_at6_write p r :
  csum_at6 b = Some p → short r → (proto = IPPROTO_UDP → r ≠ 0) → csum_at6 (write16 b p r) = Some p.
Proof.
  intros Hp Hr H0. destruct inside6 as (Hok & Hnh & Hth & Hlen & Hs).
  rewrite <-Hp. revert Hp. unfold csum_at6.
  destruct (_ && _); [done|]. destruct (_ && _) eqn:E; [|done].
  apply andb_prop in E as [Eu%Z.eqb_eq El%Z.leb_le]. destruct (_ =? 0); [done|]. intros [= <-].
  unfold UDP_HEADER_LEN, udp_csum in *. rewrite word16_write16 by (done || lia).
  by rewrite (proj2 (Z.eqb_neq r 0)) by auto.
Qed.

(** An address of the header.  Without a checksum to update the segment stays
    as it is. *)
Lemma set_addr6 addr new recalculate :
  addr = nh + ip6_src ∨ addr = nh + ip6_dst → in6_addr new →
  (csum_at6 b ≠ None → recalculate = true) →
  returns (packet_set_ipv6_addr b proto addr new recalculate) (λ b',
    keeps6 (λ q, addr ≤ q < addr + 16) b b' ∧ addr4 b' addr = new).
Proof.
  intros Haddr Hnew Hrecalc. destruct inside6 as (Hok & Hnh & Hth & Hlen & Hs).
  unfold packet_set_ipv6_addr, ip6_src, ip6_dst in *.
  destruct (in6_addr_inv _ Hnew) as (v0 & v1 & v2 & v3 & -> & _).
  set (d := zsum [v0; v1; v2; v3] - zsum (addr4 b addr)).
  assert (∃ b1, (if recalculate then packet_update_csum128 b proto addr [v0; v1; v2; v3] else Ret b)
      = Ret b1 ∧ match csum_at6 b with
      | Some p => ∃ r, b1 = write16 b p r ∧ short r ∧ cong (word16 b p - d) r ∧
                    (proto = IPPROTO_UDP → r ≠ 0)
      | None => b1 = b end) as (b1 & -> & Hb1).
  { destruct recalculate; [apply update128; [lia..|done]|]. exists b. split; [done|].
    destruct (csum_at6 b); [|done]. by assert (false = true) by (by apply Hrecalc). }
  cbn [obind]. clear Hrecalc. destruct (csum_at6 b) as [p|] eqn:Ep.
  - destruct Hb1 as (r & -> & Hr & [k Hk] & H0). destruct (csum_at6_bounds _ _ Ep) as (Hp1 & Hp2 & Hp3).
    rewrite put_in6_addr_Ret by (rewrite ?psize_write16; lia). eexists. split; [done|].
    assert (addr4 (write16 b p r) addr = addr4 b addr) as Hold.
    { unfold addr4, word32. by rewrite !word16_write16_ne by lia. }
    split; [|apply addr4_write128; [lia|rewrite psize_write16; lia|done]]. split.
    + by rewrite shape_write128, shape_write16.
    + by apply ok_write128, ok_write16.
    + intros q Hq HF Hc. rewrite byte_write128_ne by lia. apply byte_write16_ne; [lia..|].
      destruct (decide (p ≤ q < p + 2)); [|lia]. destruct Hc. by exists p.
    + rewrite Ep. rewrite <-(csum_at6_write p r Ep Hr H0). apply csum_at6_frame. intros q Hq.
      rewrite byte_write128_ne by lia. done.
    + intros _. unfold tsum6, ip6_src.
      destruct (region_write128 (write16 b p r) addr v0 v1 v2 v3 (nh + 8) 32) as [j Hj];
        [lia..|rewrite psize_write16; lia|offsets|done|].
      rewrite Hold, region_write16_out in Hj by lia.
      rewrite (region_write128_out _ _ _ _ _ _ th), region_write16 by (done || lia).
      exists (k + j). unfold d in *. lia.
  - subst b1. rewrite put_in6_addr_Ret by lia. eexists. split; [done|].
    split; [|by apply addr4_write128; [lia..|]]. split.
    + apply shape_write128.
    + by apply ok_write128.
    + intros q Hq HF Hc. by apply byte_write128_ne; lia.
    + apply csum_at6_frame. intros q Hq. apply byte_write128_ne; lia.
    + by rewrite Ep.
Qed.

(** Stores into the first eight bytes of the header. *)
Lemma header_store F b' :
  shape b' = shape b → ok b' → (∀ q, F q → nh ≤ q < nh + 8) →
  (∀ q, 0 ≤ q → ¬ F q → byte b' q = byte b q) →
  region b' (nh + ip6_src) 32 = region b (nh + ip6_src) 32 → region b' th len = region b th len →
  keeps6 F b b'.
Proof.
  intros Hsh Hok' HF Hfr Hr1 Hr2. destruct inside6 as (Hok & Hnh & Hth & Hlen & Hs). split.
  - done.
  - done.
  - auto.
  - apply csum_at6_frame. intros q Hq. apply Hfr; [lia|]. intros Hc%HF. lia.
  - intros _. unfold tsum6. by rewrite Hr1, Hr2.
Qed.

Lemma store_flow v : keeps6 (λ q, nh ≤ q < nh + 4) b (write32 b nh v).
Proof.
  destruct inside6 as (Hok & Hnh & Hth & Hlen & Hs). unfold ip6_src. apply header_store.
  - apply shape_write32.
  - by apply ok_write32.
  - intros q Hq. lia.
  - intros q Hq HF. apply byte_write32_ne; lia.
  - unfold ip6_src. apply region_write32_out; lia.
  - apply region_write32_out; lia.
Qed.

Lemma store_hlim v : 0 ≤ v < 256 → keeps6 (λ q, q = nh + ip6_hlim) b (write8 b (nh + ip6_hlim) v).
Proof.
  intros Hv. destruct inside6 as (Hok & Hnh & Hth & Hlen & Hs). unfold ip6_hlim. apply header_store.
  - apply shape_write8.
  - by apply ok_write8.
  - intros q ->. lia.
  - intros q Hq HF. apply byte_write8_ne; lia.
  - unfold ip6_src. apply region_write8_out; lia.
  - apply region_write8_out; lia.
Qed.

Lemma rh_present_returns :
  returns (packet_rh_present b 0) (λ '(rh, proto), rh = true → proto = IPPROTO_ROUTING).
Proof.
  destruct inside6 as (Hok & Hnh & Hth & Hlen & Hs). pose proof (v6_th _ HP) as Hth'.
  unfold packet_rh_present. rewrite (v6_l4 _ HP), (v6_l3 _ HP), u64_small by lia.
  rewrite (proj2 (Z.ltb_ge _ _)) by lia. rewrite l3_Ret6. cbn [obind]. unfold ip6_nxt.
  rewrite peek8_Ret by lia. cbn [obind]. apply rh_loop_returns; [done|lia..|].
  unfold psize, dp_packet_size in Hs. lia.
Qed.

(** With no extension header the transport protocol is the next header. *)
Lemma rh_present_plain :
  is_ext_hdr (byte b (nh + ip6_nxt)) = false → packet_rh_present b 0 = Ret (false, byte b (nh + ip6_nxt)).
Proof.
  intros He. destruct inside6 as (Hok & Hnh & Hth & Hlen & Hs). pose proof (v6_th _ HP) as Hth'.
  unfold packet_rh_present. rewrite (v6_l4 _ HP), (v6_l3 _ HP), u64_small by lia.
  rewrite (proj2 (Z.ltb_ge _ _)) by lia. rewrite l3_Ret6. cbn [obind].
  rewrite peek8_Ret by (unfold ip6_nxt; lia). cbn [obind rh_loop]. by rewrite He.
Qed.
End Packet.

Definition fields6 (q : Z) : Prop :=
  nh + ip6_flow ≤ q < nh + ip6_flow + 4 ∨ q = nh + ip6_hlim ∨ nh + ip6_src ≤ q < nh + ip6_src + 32.

(** An address that is already there is not written. *)
Lemma addr_step6 b addr new recalculate :
  ipv6_at b → addr = nh + ip6_src ∨ addr = nh + ip6_dst → in6_addr new →
  (csum_at6 b ≠ None → recalculate = true) →
  get_in6_addr b addr = Ret (addr4 b addr) ∧
  returns (if negb (bool_decide (addr4 b addr = new))
           then packet_set_ipv6_addr b proto addr new recalculate else Ret b) (λ b',
    keeps6 (λ q, addr ≤ q < addr + 16) b b' ∧ addr4 b' addr = new).
Proof.
  intros HP Haddr Hnew Hrec. destruct (inside6 b HP) as (Hok & Hnh & Hth & Hlen & Hs).
  pose proof Haddr as Hb. unfold ip6_src, ip6_dst in Hb.
  split; [apply get_in6_addr_Ret; [done|lia..]|]. case_bool_decide as He; cbn [negb].
  - exists b. split; [done|]. split; [by apply keeps6_refl|done].
  - by apply set_addr6.
Qed.

Lemma addr4_frame b b' p : (∀ q, p ≤ q < p + 16 → byte b' q = byte b q) → addr4 b' p = addr4 b p.
Proof.
  intros H. unfold addr4. rewrite !(word32_frame b b') by (intros q Hq; apply H; lia). done.
Qed.

(** Header bytes outside [F] stay. *)
Lemma keeps6_header F b b' q :
  ipv6_at b → keeps6 F b b' → 0 ≤ q < th → ¬ F q → byte b' q = byte b q.
Proof.
  intros HP HK Hq HF. apply (k6_frame _ _ _ HK); [lia|done|].
  intros (p & Hp & Hq'). apply csum_at6_bounds in Hp. lia.
Qed.

(** The last three assignments of [packet_set_ipv6]. *)
Definition flow_bytes (q : Z) : Prop := nh ≤ q < nh + 4 ∨ q = nh + ip6_hlim.

Lemma set_flow_hlim b tc fl hl :
  ipv6_at b → 0 ≤ tc < 256 → 0 ≤ fl < 2 ^ 20 → 0 ≤ hl < 256 →
  returns (let* b := packet_set_ipv6_tc b (nh + ip6_flow) tc in
           let* b := packet_set_ipv6_flow_label b (nh + ip6_flow) (ntohl fl) in
           poke8 b (nh + ip6_hlim) hl) (λ b',
    keeps6 flow_bytes b b' ∧ byte b' (nh + ip6_hlim) = hl ∧
    ntohl (word32 b' nh) = 2 ^ 28 * (ntohl (word32 b nh) / 2 ^ 28) + 2 ^ 20 * tc + fl).
Proof.
  intros HP Htc Hfl Hhl. destruct (inside6 b HP) as (Hok & Hnh & Hth & Hlen & Hs).
  unfold packet_set_ipv6_tc, packet_set_ipv6_flow_label, ip6_flow. rewrite !Z.add_0_r.
  pose proof (word32_range b nh Hok) as Hw.
  rewrite get32_Ret by (done || lia). cbn [obind]. rewrite put32_Ret by lia. cbn [obind].
  set (w1 := Z.lor _ _). set (b1 := write32 b nh w1).
  pose proof (store_flow b HP w1) as K1. fold b1 in K1. pose proof (keeps6_ipv6 _ _ _ HP K1) as HP1.
  assert (psize b1 = psize b) as Hps1 by apply psize_write32.
  rewrite get32_Ret by (apply HP1 || lia). cbn [obind]. rewrite put32_Ret by lia. cbn [obind].
  assert (0 ≤ w1 < 2 ^ 32) as Hw1 by (apply lor_range; [lia|apply land_range; lia|apply ntohl_range]).
  assert (word32 b1 nh = w1) as Hb1 by (apply word32_write32; lia). rewrite Hb1.
  set (w2 := Z.lor _ (ntohl fl)). set (b2 := write32 b1 nh w2).
  pose proof (store_flow b1 HP1 w2) as K2. fold b2 in K2. pose proof (keeps6_ipv6 _ _ _ HP1 K2) as HP2.
  assert (0 ≤ w2 < 2 ^ 32) as Hw2 by (apply lor_range; [lia|apply land_range; lia|apply ntohl_range]).
  assert (psize b2 = psize b) as Hps2 by (unfold b2; by rewrite psize_write32).
  rewrite poke8_Ret by (unfold ip6_hlim; lia). eexists. split; [done|].
  pose proof (store_hlim b2 HP2 hl Hhl) as K3. split_and!.
  - eapply keeps6_mono; [eapply keeps6_trans; [exact K1|eapply keeps6_trans; [exact K2|exact K3]]|].
    unfold flow_bytes. intros q. tauto.
  - apply byte_write8. unfold ip6_hlim. lia.
  - rewrite (word32_frame b2) by (intros q Hq; apply byte_write8_ne; unfold ip6_hlim; lia).
    unfold b2. rewrite word32_write32 by lia. unfold w2, w1. by apply flow_word.
Qed.

Lemma set_ipv6_keeps b src dst tc fl hl rh :
  ipv6_at b → packet_rh_present b 0 = Ret (rh, proto) →
  in6_addr src → in6_addr dst → 0 ≤ tc < 256 → 0 ≤ fl < 2 ^ 20 → 0 ≤ hl < 256 →
  returns (packet_set_ipv6 b src dst tc (ntohl fl) hl) (λ b', keeps6 fields6 b b' ∧
    addr4 b' (nh + ip6_src) = src ∧ addr4 b' (nh + ip6_dst) = dst ∧ byte b' (nh + ip6_hlim) = hl ∧
    ntohl (word32 b' nh) = 2 ^ 28 * (ntohl (word32 b nh) / 2 ^ 28) + 2 ^ 20 * tc + fl).
Proof.
  intros HP Hrh Hsrc Hdst Htc Hfl Hhl. destruct (inside6 b HP) as (_ & Hnh & Hth & Hlen & _).
  unfold packet_set_ipv6. destruct (rh_present_returns b HP) as ([rh' proto'] & Heq & Hrt).
  rewrite Hrh in Heq. injection Heq as <- <-. rewrite Hrh. cbn [obind].
  rewrite l3_Ret6 by done. cbn [obind].
  assert (∀ b', csum_at6 b' ≠ None → negb rh = true) as Hneg.
  { intros b' Hn. destruct rh; [|done]. destruct Hn. unfold csum_at6. by rewrite Hrt. }
  destruct (addr_step6 b (nh + ip6_src) src true HP) as [-> H1]; [by left|done|done|]. cbn [obind].
  eapply returns_bind; [exact H1|]. intros b1 [K1 A1]. pose proof (keeps6_ipv6 _ _ _ HP K1) as HP1.
  destruct (addr_step6 b1 (nh + ip6_dst) dst (negb rh) HP1) as [-> H2]; [by right|done|by apply Hneg|].
  cbn [obind].
  eapply returns_bind; [exact H2|]. intros b2 [K2 A2]. pose proof (keeps6_ipv6 _ _ _ HP1 K2) as HP2.
  destruct (set_flow_hlim b2 tc fl hl HP2 Htc Hfl Hhl) as (b3 & Heq3 & K3 & Hh & Hf).
  exists b3. split; [exact Heq3|].
  assert (∀ q, 0 ≤ q < th → ¬ flow_bytes q → byte b3 q = byte b2 q) as E3
    by (intros q Hq Hn; by eapply keeps6_header).
  assert (∀ q, 0 ≤ q < th → ¬ (nh + ip6_dst ≤ q < nh + ip6_dst + 16) → byte b2 q = byte b1 q) as E2
    by (intros q Hq Hn; by eapply keeps6_header).
  assert (∀ q, 0 ≤ q < th → ¬ (nh + ip6_src ≤ q < nh + ip6_src + 16) → byte b1 q = byte b q) as E1
    by (intros q Hq Hn; by eapply keeps6_header).
  unfold flow_bytes, ip6_src, ip6_dst, ip6_hlim in *. split_and!; [| | |done|].
  - eapply keeps6_mono; [eapply keeps6_trans; [exact K1|eapply keeps6_trans; [exact K2|exact K3]]|].
    unfold fields6, flow_bytes, ip6_flow, ip6_hlim, ip6_src. intros q. lia.
  - rewrite <-A1. apply addr4_frame. intros q Hq. rewrite E3, E2 by lia. done.
  - rewrite <-A2. apply addr4_frame. intros q Hq. by rewrite E3 by lia.
  - rewrite Hf. do 5 f_equal. apply word32_frame. intros q Hq. rewrite E2, E1 by lia. done.
Qed.

(** ** The checksum *)

(** The pseudo-header of RFC 2460: the addresses, the length of the segment
    and the protocol. *)
Definition pseudo6 (b : ip_packet) : Z :=
  region b (nh + ip6_src) 32 + htons (u16 len) + 256 * proto.

Lemma keeps6_checksum b b' :
  ipv6_at b → keeps6 fields6 b b' → csum_at6 b ≠ None →
  segment_ok (pseudo6 b) b th len → segment_ok (pseudo6 b') b' th len.
Proof.
  intros HP HK Hn. pose proof (keeps6_ipv6 _ _ _ HP HK) as HP'.
  destruct (inside6 b HP) as (Hok & Hnh & Hth & Hlen & Hs). destruct (inside6 b' HP') as (Hok' & _).
  pose proof (region_range b (nh + ip6_src) 32 Hok). pose proof (region_range b' (nh + ip6_src) 32 Hok').
  pose proof (region_range b' th len Hok' Hlen). pose proof (ntohs_range (u16 len)) as Hl. fold (htons (u16 len)) in Hl.
  pose proof (v6_len _ HP).
  assert (proto = 6 ∨ proto = 17 ∨ proto = 58) as Hp.
  { unfold csum_at6 in Hn. destruct (Z.eqb_spec proto IPPROTO_TCP); [by left|].
    destruct (Z.eqb_spec proto IPPROTO_UDP); [by right; left|].
    destruct (Z.eqb_spec proto IPPROTO_ICMPV6); [by right; right|]. done. }
  rewrite !segment_ok_iff by (done || unfold pseudo6; lia).
  apply sum_ok_cong; [|unfold pseudo6; lia].
  destruct (k6_segment _ _ _ HK Hn) as [k Hk]. exists k. unfold tsum6, pseudo6 in *. lia.
Qed.
End Ipv6.

(** ** Addresses in sums *)

Lemma addr4_region b p : ok b → 0 ≤ p → p + 16 ≤ psize b → cong (zsum (addr4 b p)) (region b p 16).
Proof.
  intros Hok Hp Hs. rewrite region16, !region8 by lia. unfold addr4, word32, zsum. cbn [foldr].
  replace (p + 8 + 2) with (p + 10) by lia. replace (p + 4 + 2) with (p + 6) by lia.
  replace (p + 12 + 2) with (p + 14) by lia. replace (p + 8 + 4) with (p + 12) by lia.
  replace (p + 8 + 6) with (p + 14) by lia.
  exists (- word16 b (p + 2) - word16 b (p + 6) - word16 b (p + 10) - word16 b (p + 14)). lia.
Qed.

Lemma fold_add32_addr4 b p s :
  ok b → 0 ≤ p → p + 16 ≤ psize b → 0 ≤ s < 2 ^ 30 →
  fold_left csum_add32 (addr4 b p) s = s + region b p 16.
Proof.
  intros Hok Hp Hs Hb. pose proof (region_range b p 8 Hok). pose proof (region_range b (p + 8) 8 Hok).
  rewrite region16, !region8 by lia.
  pose proof (word16_ok b p Hok). pose proof (word16_ok b (p + 2) Hok).
  pose proof (word16_ok b (p + 4) Hok). pose proof (word16_ok b (p + 6) Hok).
  pose proof (word16_ok b (p + 8) Hok). pose proof (word16_ok b (p + 10) Hok).
  pose proof (word16_ok b (p + 12) Hok). pose proof (word16_ok b (p + 14) Hok). unfold short in *.
  replace (p + 8 + 2) with (p + 10) by lia. replace (p + 8 + 4) with (p + 12) by lia.
  replace (p + 8 + 6) with (p + 14) by lia.
  unfold addr4. cbn [fold_left].
  pose proof (word16_ok b (p + 4 + 2) Hok). pose proof (word16_ok b (p + 8 + 2) Hok). unfold short in *.
  rewrite (add32_word32 b p s), (add32_word32 b (p + 4)), (add32_word32 b (p + 8)), add32_word32
    by (done || lia).
  replace (p + 4 + 2) with (p + 6) by lia. replace (p + 8 + 2) with (p + 10) by lia.
  replace (p + 12 + 2) with (p + 14) by lia. lia.
Qed.

(** What [packet_csum_pseudoheader6] computes. *)
Lemma pseudoheader6_Ret nh th len b :
  ipv6_at nh th len b →
  packet_csum_pseudoheader6 b nh = Ret (region b (nh + ip6_src) 16 + region b (nh + ip6_dst) 16 +
    word16 b (nh + ip6_plen) + byte b (nh + ip6_nxt)).
Proof.
  intros HP. destruct (inside6 nh th len b HP) as (Hok & Hnh & Hth & Hlen & Hs).
  unfold packet_csum_pseudoheader6, ip6_src, ip6_dst, ip6_plen, ip6_nxt.
  pose proof (region_range b (nh + 8) 16 Hok). pose proof (region_range b (nh + 24) 16 Hok).
  pose proof (word16_ok b (nh + 4) Hok). pose proof (byte_ok b (nh + 6) Hok). unfold short in *.
  rewrite !get_in6_addr_Ret, peek16_Ret, peek8_Ret by (done || lia). cbn [obind].
  rewrite fold_left_app, (fold_add32_addr4 b (nh + 8)), fold_add32_addr4 by (done || lia).
  assert (∀ p x, 0 ≤ p < 2 ^ 30 → 0 ≤ x < 65536 → csum_add16 p x = p + x) as Hadd.
  { intros p x Hp Hx. unfold csum_add16. apply u32_small. lia. }
  set (s := 0 + region b (nh + 8) 16 + region b (nh + 24) 16). assert (0 ≤ s < 2 ^ 29) by (unfold s; lia).
  rewrite (Hadd s 0), (Hadd (s + 0)), (Hadd (s + 0 + _) 0), Hadd by lia. f_equal. unfold s. lia.
Qed.
