(* ===== verification/PacketsNd.v ===== *)
(** * Rewriting neighbor discovery messages *)
From Stdlib Require Import ZArith Lia.
From stdpp Require Import base list numbers option.
From S2P Require Import Prelude GtpWire GtpWireProofs Csum CsumProofs Packets PacketsProofs PacketsL4 PacketsIpv6.
Open Scope Z_scope.

(** ** MAC addresses *)

Definition mac3 (b : ip_packet) (p : Z) : list Z := [word16 b p; word16 b (p + 2); word16 b (p + 4)].
Definition eth_addr (l : list Z) : Prop := length l = 3%nat ∧ Forall short l.
Definition write48 (b : ip_packet) (p v0 v1 v2 : Z) : ip_packet :=
  write16 (write16 (write16 b p v0) (p + 2) v1) (p + 4) v2.

Lemma eth_addr_inv l : eth_addr l → ∃ v0 v1 v2, l = [v0; v1; v2] ∧ short v0 ∧ short v1 ∧ short v2.
Proof.
  intros [Hlen Hall]. destruct l as [|v0 [|v1 [|v2 [|]]]]; try done.
  repeat (apply Forall_cons_1 in Hall as [? Hall]). by exists v0, v1, v2.
Qed.
Lemma mac3_eth b p : ok b → eth_addr (mac3 b p).
Proof. intros H. split; [done|]. repeat constructor; by apply word16_ok. Qed.

Lemma get_eth_addr_Ret b p : 0 ≤ p → p + 6 ≤ psize b → get_eth_addr b p = Ret (mac3 b p).
Proof.
  intros Hp Hs. unfold get_eth_addr, mac3. cbn [get_each].
  do 3 (rewrite peek16_Ret by lia; cbn [obind]). by replace (p + 2 + 2) with (p + 4) by lia.
Qed.
Lemma put_eth_addr_Ret b p v0 v1 v2 : 0 ≤ p → p + 6 ≤ psize b →
  put_eth_addr b p [v0; v1; v2] = Ret (write48 b p v0 v1 v2).
Proof.
  intros Hp Hs. unfold put_eth_addr, write48. cbn [put_each].
  do 3 (rewrite poke16_Ret by (rewrite ?psize_write16; lia); cbn [obind]).
  by replace (p + 2 + 2) with (p + 4) by lia.
Qed.

Lemma recalc_csum48_recalcs old new :
  eth_addr old → eth_addr new → recalcs (λ c, recalc_csum48 c old new) (zsum new - zsum old).
Proof.
  intros [Hl1 H1] [Hl2 H2] c Hc. unfold recalc_csum48.
  destruct (recalc_each_spec recalc_csum16 65536 old new c) as (r & Heq & Hr & [k Hk]);
    [intros; by apply recalc_csum16_spec|congruence|done|done|done|].
  exists r. split; [exact Heq|]. split; [done|]. exists k. lia.
Qed.

(** ** The message *)

Section Nd.
(** An ND message of [len] bytes at [th]. *)
Context (th len : Z).

Record nd_at (b : ip_packet) : Prop := {
  nd_ok : ok b;
  nd_l4 : l4_ofs (pkt b) = th;
  nd_th : 0 ≤ th < 65535;
  nd_len : ND_MSG_LEN ≤ len < 65536;
  nd_size : th + len ≤ psize b;
  nd_l4_size : dp_packet_l4_size (pkt b) = len;
}.

Lemma nd_at_patched F b b' : nd_at b → patched F th len b b' → nd_at b'.
Proof.
  intros HP HK. pose proof (p_shape _ _ _ _ _ HK) as Hsh. pose proof Hsh as Hsh'. unfold shape in Hsh.
  injection Hsh as H1 H2 H3 H4. destruct HP. split; try done; try congruence.
  - apply (p_ok _ _ _ _ _ HK).
  - unfold dp_packet_l4_size in *. unfold psize in *. by rewrite H2, H3, H4.
Qed.

Definition target_bytes (q : Z) : Prop := th + 2 ≤ q < th + 4 ∨ th + 8 ≤ q < th + 24.

Lemma set_target b target :
  nd_at b → in6_addr target →
  returns (packet_set_ipv6_addr b IPPROTO_ICMPV6 (th + 8) target true) (λ b',
    patched target_bytes th len b b' ∧ addr4 b' (th + 8) = target).
Proof.
  intros HP Hin. pose proof (nd_ok _ HP) as Hok. pose proof (nd_th _ HP). pose proof (nd_len _ HP) as Hlen.
  pose proof (nd_size _ HP). unfold ND_MSG_LEN in Hlen.
  unfold packet_set_ipv6_addr, packet_update_csum128. rewrite (nd_l4_size _ HP).
  cbn [IPPROTO_ICMPV6 IPPROTO_TCP IPPROTO_UDP Z.eqb Pos.eqb andb].
  rewrite (proj2 (Z.leb_le ICMP6_HEADER_LEN len)) by (unfold ICMP6_HEADER_LEN; lia).
  rewrite (seg_l4 b th) by (apply HP || lia). cbn [obind]. unfold icmp_csum.
  rewrite get_in6_addr_Ret by (done || lia). cbn [obind].
  destruct (update16_spec b (th + 2) _ _ Hok ltac:(lia) ltac:(lia)
    (recalc_csum128_recalcs _ _ (addr4_in6 b (th + 8) Hok) Hin)) as (r & -> & Hr & [k Hk]).
  cbn [obind]. destruct (in6_addr_inv _ Hin) as (v0 & v1 & v2 & v3 & -> & _).
  rewrite put_in6_addr_Ret by (rewrite ?psize_write16; lia). eexists. split; [done|].
  assert (addr4 (write16 b (th + 2) r) (th + 8) = addr4 b (th + 8)) as Hold.
  { unfold addr4, word32. by rewrite !word16_write16_ne by lia. }
  split; [|apply addr4_write128; [lia|rewrite psize_write16; lia|done]]. split.
  - by rewrite shape_write128, shape_write16.
  - by apply ok_write128, ok_write16.
  - intros q Hq HF. unfold target_bytes in HF. by rewrite byte_write128_ne, byte_write16_ne by lia.
  - destruct (region_write128 (write16 b (th + 2) r) (th + 8) v0 v1 v2 v3 th len) as [j Hj];
      [lia..|rewrite psize_write16; lia|offsets|done|].
    rewrite Hold, region_write16 in Hj by (offsets || done || lia). exists (k + j). lia.
Qed.

Definition mac_bytes (nd_opt q : Z) : Prop := th + 2 ≤ q < th + 4 ∨ nd_opt + 2 ≤ q < nd_opt + 8.

Lemma set_nd_opt_spec b nd_opt mac :
  nd_at b → th + ND_MSG_LEN ≤ nd_opt → nd_opt + 8 ≤ th + len → (nd_opt - th) mod 2 = 0 → eth_addr mac →
  returns (set_nd_opt b th nd_opt mac) (λ b',
    patched (mac_bytes nd_opt) th len b b' ∧ mac3 b' (nd_opt + 2) = mac).
Proof.
  intros HP H1 H2 H3 Hmac. pose proof (nd_ok _ HP) as Hok. pose proof (nd_th _ HP).
  pose proof (nd_size _ HP). unfold ND_MSG_LEN in *. unfold set_nd_opt, icmp_csum.
  rewrite get_eth_addr_Ret by lia. cbn [obind]. case_bool_decide as He; cbn [negb].
  { exists b. split; [done|]. split; [by apply patched_refl|done]. }
  destruct (update16_spec b (th + 2) _ _ Hok ltac:(lia) ltac:(lia)
    (recalc_csum48_recalcs _ _ (mac3_eth b (nd_opt + 2) Hok) Hmac)) as (r & -> & Hr & [k Hk]).
  cbn [obind]. destruct (eth_addr_inv _ Hmac) as (v0 & v1 & v2 & -> & V0 & V1 & V2).
  rewrite put_eth_addr_Ret by (rewrite ?psize_write16; lia). eexists. split; [done|].
  unfold write48, mac3 in *. split; [split|].
  - by rewrite !shape_write16.
  - by repeat apply ok_write16.
  - intros q Hq HF. unfold mac_bytes in HF. by rewrite !byte_write16_ne by lia.
  - rewrite !region_write16 by (rewrite ?psize_write16; offsets || done).
    rewrite !word16_write16_ne by lia. exists k. simpl in Hk. lia.
  - repeat (rewrite word16_write16_ne by lia).
    f_equal; [|f_equal; [|f_equal]]; repeat (rewrite word16_write16_ne by lia);
      apply word16_write16; rewrite ?psize_write16; done || lia.
Qed.

(** The target, and what the loop starts from. *)
Lemma set_nd_target b target sll tll :
  nd_at b → in6_addr target →
  ∃ b1, patched target_bytes th len b b1 ∧ addr4 b1 (th + 8) = target ∧
    packet_set_nd b target sll tll =
    nd_loop (S (length (pk_data (pkt b1)))) b1 th (th + ND_MSG_LEN) (len - ND_MSG_LEN) sll tll.
Proof.
  intros HP Hin. pose proof (nd_ok _ HP) as Hok. pose proof (nd_th _ HP). pose proof (nd_len _ HP) as Hlen.
  pose proof (nd_size _ HP). unfold ND_MSG_LEN in Hlen. unfold packet_set_nd.
  rewrite (nd_l4_size _ HP). rewrite (Z.mod_small (len + 2 ^ 31)) by lia.
  replace (len + 2 ^ 31 - 2 ^ 31) with len by lia. rewrite u64_small by lia.
  rewrite (proj2 (Z.ltb_ge len ND_MSG_LEN)) by (unfold ND_MSG_LEN; lia).
  rewrite (seg_l4 b th) by (apply HP || lia). cbn [obind].
  rewrite get_in6_addr_Ret by (done || lia). cbn [obind]. case_bool_decide as He; cbn [negb].
  - exists b. cbn [obind]. split_and!; [by apply patched_refl|done|done].
  - destruct (set_target b target HP Hin) as (b1 & -> & HK & HA). exists b1. cbn [obind]. by split_and!.
Qed.

(** The options are where they were. *)
Lemma target_keeps_options b b1 q :
  nd_at b → patched target_bytes th len b b1 → th + ND_MSG_LEN ≤ q → byte b1 q = byte b q.
Proof.
  intros HP HK Hq. pose proof (nd_th _ HP). unfold ND_MSG_LEN in Hq.
  apply (p_frame _ _ _ _ _ HK); [lia|]. unfold target_bytes. lia.
Qed.

(** A message whose first option is a link-layer address. *)
Lemma set_nd_first b target sll tll mac :
  nd_at b → ND_MSG_LEN + ND_OPT_LEN ≤ len → in6_addr target → eth_addr mac →
  byte b (th + ND_MSG_LEN) = ND_OPT_SOURCE_LINKADDR ∧ mac = sll ∨
  byte b (th + ND_MSG_LEN) = ND_OPT_TARGET_LINKADDR ∧ mac = tll →
  byte b (th + ND_MSG_LEN + 1) = 1 →
  returns (packet_set_nd b target sll tll) (λ b',
    patched (λ q, target_bytes q ∨ mac_bytes (th + ND_MSG_LEN) q) th len b b' ∧
    addr4 b' (th + 8) = target ∧ mac3 b' (th + ND_MSG_LEN + 2) = mac).
Proof.
  intros HP Hlen Hin Hmac Hty Hl. destruct (set_nd_target b target sll tll HP Hin) as (b1 & K1 & A1 & ->).
  pose proof (nd_th _ HP). pose proof (nd_size _ HP). pose proof (nd_at_patched _ _ _ HP K1) as HP1.
  pose proof (patched_psize _ _ _ _ _ K1) as Hps.
  assert (∀ q, th + ND_MSG_LEN ≤ q → byte b1 q = byte b q) as Hq
    by (intros q Hq; by eapply target_keeps_options).
  unfold ND_OPT_LEN in *. assert (ND_MSG_LEN = 24) as HN by done.
  cbn [nd_loop]. rewrite (proj2 (Z.ltb_ge (len - ND_MSG_LEN) ND_OPT_LEN)) by (unfold ND_OPT_LEN; lia).
  rewrite !peek8_Ret by lia. cbn [obind]. rewrite !Hq, Hl by lia. cbn [Z.eqb Pos.eqb obind].
  destruct (set_nd_opt_spec b1 (th + ND_MSG_LEN) mac HP1) as (b2 & Heq & K2 & A2); [lia..| |done|].
  { replace (th + ND_MSG_LEN - th) with 24 by lia. done. }
  exists b2. split.
  { destruct Hty as [[-> ->]|[-> ->]]; cbn [ND_OPT_SOURCE_LINKADDR ND_OPT_TARGET_LINKADDR Z.eqb Pos.eqb andb];
      exact Heq. }
  split_and!; [by eapply patched_trans| |done].
  rewrite <-A1. apply addr4_frame. intros q Hq'. apply (p_frame _ _ _ _ _ K2); [lia|].
  unfold mac_bytes. lia.
Qed.

(** A message whose only option, which fills it, is not. *)
Lemma set_nd_overread b target sll tll :
  nd_at b → in6_addr target → psize b = th + len →
  let l := byte b (th + ND_MSG_LEN + 1) in
  len = ND_MSG_LEN + l * ND_OPT_LEN → 1 ≤ l →
  (2 ≤ l ∨ byte b (th + ND_MSG_LEN) ≠ ND_OPT_SOURCE_LINKADDR ∧
           byte b (th + ND_MSG_LEN) ≠ ND_OPT_TARGET_LINKADDR) →
  packet_set_nd b target sll tll = Fault OutOfBounds.
Proof.
  intros HP Hin Hs l Hlen Hl Hty. destruct (set_nd_target b target sll tll HP Hin) as (b1 & K1 & _ & ->).
  pose proof (nd_th _ HP). pose proof (patched_psize _ _ _ _ _ K1) as Hps.
  assert (∀ q, th + ND_MSG_LEN ≤ q → byte b1 q = byte b q) as Hq
    by (intros q Hq; by eapply target_keeps_options).
  assert (ND_MSG_LEN = 24 ∧ ND_OPT_LEN = 8) as [HN HO] by done.
  cbn [nd_loop]. rewrite (proj2 (Z.ltb_ge (len - ND_MSG_LEN) ND_OPT_LEN)) by lia.
  rewrite !peek8_Ret by lia. cbn [obind]. rewrite !Hq by lia. fold l.
  rewrite (proj2 (Z.eqb_neq l 0)) by lia.
  assert ((byte b (th + ND_MSG_LEN) =? ND_OPT_SOURCE_LINKADDR) && (l =? 1) = false) as ->.
  { destruct Hty as [H2|[H2 _]]; [|by rewrite (proj2 (Z.eqb_neq _ _) H2)].
    rewrite (proj2 (Z.eqb_neq l 1)) by lia. apply andb_false_r. }
  assert ((byte b (th + ND_MSG_LEN) =? ND_OPT_TARGET_LINKADDR) && (l =? 1) = false) as ->.
  { destruct Hty as [H2|[_ H2]]; [|by rewrite (proj2 (Z.eqb_neq _ _) H2)].
    rewrite (proj2 (Z.eqb_neq l 1)) by lia. apply andb_false_r. }
  unfold peek8, inside. fold (psize b1).
  rewrite (proj2 (Z.leb_gt (th + ND_MSG_LEN + l * ND_OPT_LEN + 1 + 1) (psize b1))) by lia.
  by rewrite andb_false_r.
Qed.
End Nd.
