(* ===== verification/Tags.v ===== *)
(** * lib/packets.c and lib/dp-packet.c: VLAN tags and MPLS labels

    Tags are put into a packet in front of its network header, which moves the
    start of the packet into its headroom. *)
From Stdlib Require Import ZArith Lia.
From stdpp Require Import base list numbers option.
From S2P Require Import Prelude GtpWire Packets.
Open Scope Z_scope.

(** ** lib/dp-packet.h, lib/dp-packet.c *)

Inductive dp_packet_source := DPBUF_MALLOC | DPBUF_STACK | DPBUF_STUB | DPBUF_DPDK.
#[export] Instance dp_packet_source_eq_dec : EqDecision dp_packet_source.
Proof. solve_decision. Defined.

(** A packet with the bytes of its headroom, the last of which is the one in
    front of the packet, and the offset of its MPLS label stack. *)
Record frame := mkFrame {
  fr_ip : ip_packet;
  headroom : list Z;
  l2_5_ofs : Z;
  source : dp_packet_source;
}.

Definition fr_data (b : frame) : list Z := pk_data (pkt (fr_ip b)).
Definition fr_size (b : frame) : Z := dp_packet_size (pkt (fr_ip b)).
Definition set_frame_data (b : frame) (data : list Z) : frame :=
  mkFrame (set_data (fr_ip b) data) (headroom b) (l2_5_ofs b) (source b).
Definition set_l2_5_ofs (b : frame) (ofs : Z) : frame :=
  mkFrame (fr_ip b) (headroom b) ofs (source b).

Definition dp_packet_l2 (b : frame) : option Z :=
  if negb (l3_ofs (fr_ip b) =? UINT16_MAX) then Some 0 else None.
Definition dp_packet_l2_5 (b : frame) : option Z :=
  if negb (l2_5_ofs b =? UINT16_MAX) then Some (l2_5_ofs b) else None.

(** [memmove(dst, src, n)] and a store of [bs], within the packet. *)
Definition fr_memmove (b : frame) (dst src n : Z) : outcome frame :=
  if inside (fr_ip b) dst n && inside (fr_ip b) src n then
    let d := fr_data b in
    Ret (set_frame_data b (take (Z.to_nat dst) d ++ take (Z.to_nat n) (drop (Z.to_nat src) d)
                             ++ drop (Z.to_nat (dst + n)) d))
  else Fault OutOfBounds.
Definition fr_store (b : frame) (p : Z) (bs : list Z) : outcome frame :=
  if inside (fr_ip b) p (Z.of_nat (length bs)) then
    Ret (set_frame_data b (take (Z.to_nat p) (fr_data b) ++ bs
                             ++ drop (Z.to_nat p + length bs) (fr_data b)))
  else Fault OutOfBounds.

(** The bytes of an [ovs_be16] or [ovs_be32] in memory. *)
Definition bytes16 (v : Z) : list Z := [v mod 2 ^ 8; v / 2 ^ 8 mod 2 ^ 8].
Definition bytes32 (v : Z) : list Z := bytes16 (v mod 2 ^ 16) ++ bytes16 (v / 2 ^ 16).

Section Tags.
(** What is in memory that has just been allocated. *)
Variable uninit : nat → Z.

(** [dp_packet_resize__] with the tailroom it has. *)
Definition dp_packet_resize__ (b : frame) (new_headroom : nat) : outcome frame :=
  let copy_headroom := (length (headroom b) `min` new_headroom)%nat in
  let new := (uninit <$> seq 0 (new_headroom - copy_headroom))
               ++ drop (length (headroom b) - copy_headroom) (headroom b) in
  match source b with
  | DPBUF_DPDK | DPBUF_STACK => Fault AssertFail
  | DPBUF_MALLOC | DPBUF_STUB => Ret (mkFrame (fr_ip b) new (l2_5_ofs b) DPBUF_MALLOC)
  end.

Definition dp_packet_prealloc_headroom (b : frame) (size : nat) : outcome frame :=
  if (length (headroom b) <? size)%nat then dp_packet_resize__ b (size `max` 64) else Ret b.

Definition dp_packet_push_uninit (b : frame) (size : nat) : outcome frame :=
  let* b := dp_packet_prealloc_headroom b size in
  let k := (length (headroom b) - size)%nat in
  Ret (mkFrame (set_data (fr_ip b) (drop k (headroom b) ++ fr_data b)) (take k (headroom b))
         (l2_5_ofs b) (source b)).

Definition dp_packet_pull (b : frame) (size : nat) : outcome frame :=
  let* _ := ovs_assert (Z.of_nat size <=? u32 (fr_size b - l2_pad_size (pkt (fr_ip b)))) in
  Ret (mkFrame (set_data (fr_ip b) (drop size (fr_data b))) (headroom b ++ take size (fr_data b))
         (l2_5_ofs b) (source b)).

Definition dp_packet_adjust_layer_offset (offset increment : Z) : Z :=
  if negb (offset =? UINT16_MAX) then u16 (offset + increment) else offset.

Definition dp_packet_resize_l2_5 (b : frame) (increment : Z) : outcome frame :=
  let* b := if 0 <=? increment then dp_packet_push_uninit b (Z.to_nat increment)
            else dp_packet_pull b (Z.to_nat (- increment)) in
  let p := pkt (fr_ip b) in
  Ret (mkFrame (mkIpPacket (mkPacket (pk_data p) (l2_pad_size p)
                              (dp_packet_adjust_layer_offset (l4_ofs p) increment))
                  (dp_packet_adjust_layer_offset (l3_ofs (fr_ip b)) increment))
         (headroom b) (l2_5_ofs b) (source b)).

Definition dp_packet_resize_l2 (b : frame) (increment : Z) : outcome frame :=
  let* b := dp_packet_resize_l2_5 b increment in
  Ret (set_l2_5_ofs b (dp_packet_adjust_layer_offset (l2_5_ofs b) increment)).

(** ** VLAN tags *)

Definition VLAN_HEADER_LEN : Z := 4.
Definition VLAN_ETH_HEADER_LEN : Z := 18.
Definition ETH_ADDR_LEN : Z := 6.
Definition VLAN_CFI : Z := 0x1000.

Definition eth_type_vlan (eth_type : Z) : bool :=
  (eth_type =? htons 0x8100) || (eth_type =? htons 0x88a8).
Definition eth_type_mpls (eth_type : Z) : bool :=
  (eth_type =? htons 0x8847) || (eth_type =? htons 0x8848).

Definition eth_push_vlan (packet : frame) (tpid tci : Z) : outcome frame :=
  let* packet := dp_packet_resize_l2 packet VLAN_HEADER_LEN in
  let* packet := fr_memmove packet 0 VLAN_HEADER_LEN (2 * ETH_ADDR_LEN) in
  let* packet := fr_store packet 12 (bytes16 tpid) in
  fr_store packet 14 (bytes16 (Z.land tci (htons (u16 (Z.lnot VLAN_CFI))))).

Definition eth_pop_vlan (packet : frame) : outcome frame :=
  match dp_packet_l2 packet with
  | None => Ret packet
  | Some veh =>
      if VLAN_ETH_HEADER_LEN <=? fr_size packet then
        let* veth_type := peek16 (fr_ip packet) (veh + 12) in
        if eth_type_vlan veth_type then
          let* packet := fr_memmove packet VLAN_HEADER_LEN veh (2 * ETH_ADDR_LEN) in
          dp_packet_resize_l2 packet (- VLAN_HEADER_LEN)
        else Ret packet
      else Ret packet
  end.

(** ** MPLS labels *)

Definition MPLS_HLEN : Z := 4.
Definition MPLS_TTL_MASK : Z := 0x000000ff.
Definition MPLS_BOS_MASK : Z := 0x00000100.
Definition MPLS_TC_MASK : Z := 0x00000e00.
Definition MPLS_LABEL_MASK : Z := 0xfffff000.

(** [*lse &= ~htonl(mask); *lse |= htonl((value << shift) & mask)] *)
Definition set_lse_field (lse mask shift value : Z) : Z :=
  Z.lor (Z.land lse (u32 (Z.lnot (ntohl mask)))) (ntohl (Z.land (u32 (Z.shiftl value shift)) mask)).

Definition set_mpls_lse_ttl (lse ttl : Z) : Z := set_lse_field lse MPLS_TTL_MASK 0 ttl.
Definition set_mpls_lse_tc (lse tc : Z) : Z := set_lse_field lse MPLS_TC_MASK 9 tc.
Definition set_mpls_lse_label (lse label : Z) : Z := set_lse_field lse MPLS_LABEL_MASK 12 (ntohl label).
Definition set_mpls_lse_bos (lse bos : Z) : Z := set_lse_field lse MPLS_BOS_MASK 8 bos.

Definition set_mpls_lse_values (ttl tc bos label : Z) : Z :=
  let lse := ntohl 0 in
  let lse := set_mpls_lse_ttl lse ttl in
  let lse := set_mpls_lse_tc lse tc in
  let lse := set_mpls_lse_bos lse bos in
  set_mpls_lse_label lse label.

Definition mpls_lse_to_label (mpls_lse : Z) : Z :=
  Z.shiftr (Z.land (ntohl mpls_lse) MPLS_LABEL_MASK) 12.
Definition mpls_lse_to_tc (mpls_lse : Z) : Z := Z.shiftr (Z.land (ntohl mpls_lse) MPLS_TC_MASK) 9.
Definition mpls_lse_to_ttl (mpls_lse : Z) : Z := Z.shiftr (Z.land (ntohl mpls_lse) MPLS_TTL_MASK) 0.
Definition mpls_lse_to_bos (mpls_lse : Z) : bool :=
  negb (Z.land mpls_lse (ntohl MPLS_BOS_MASK) =? 0).

Definition is_mpls (packet : frame) : bool := negb (l2_5_ofs packet =? UINT16_MAX).

Definition set_ethertype (packet : frame) (eth_type : Z) : outcome frame :=
  match dp_packet_l2 packet with
  | None => Ret packet
  | Some eh =>
      let* old := peek16 (fr_ip packet) (eh + 12) in
      if eth_type_vlan old then
        let* l := match dp_packet_l2_5 packet with
                  | Some l2_5 => Ret l2_5
                  | None => deref (dp_packet_l3 (fr_ip packet))
                  end in
        fr_store packet (l - 2) (bytes16 eth_type)
      else fr_store packet (eh + 12) (bytes16 eth_type)
  end.

Definition set_mpls_lse (packet : frame) (mpls_lse : Z) : outcome frame :=
  if is_mpls packet then
    let* mh := deref (dp_packet_l2_5 packet) in
    fr_store packet mh (bytes32 mpls_lse)
  else Ret packet.

Definition push_mpls (packet : frame) (ethtype lse : Z) : outcome frame :=
  if negb (eth_type_mpls ethtype) then Ret packet
  else
    let packet := if negb (is_mpls packet) then set_l2_5_ofs packet (l3_ofs (fr_ip packet))
                  else packet in
    let* packet := set_ethertype packet ethtype in
    let len := l2_5_ofs packet in
    let* packet := dp_packet_resize_l2_5 packet MPLS_HLEN in
    let* packet := fr_memmove packet 0 MPLS_HLEN len in
    fr_store packet len (bytes32 lse).

Definition pop_mpls (packet : frame) (ethtype : Z) : outcome frame :=
  if is_mpls packet then
    let* mh := deref (dp_packet_l2_5 packet) in
    let len := l2_5_ofs packet in
    let* packet := set_ethertype packet ethtype in
    let* lse := get_16aligned_be32 (fr_ip packet) mh in
    let packet := if negb (Z.land lse (ntohl MPLS_BOS_MASK) =? 0)
                  then set_l2_5_ofs packet UINT16_MAX else packet in
    let* packet := fr_memmove packet MPLS_HLEN 0 len in
    dp_packet_resize_l2_5 packet (- MPLS_HLEN)
  else Ret packet.
End Tags.
