(* ===== verification/TagsProofs.v ===== *)
(** * VLAN tags and MPLS labels: lemmas *)
From Stdlib Require Import ZArith Lia.
From stdpp Require Import base list numbers option.
From S2P Require Import Prelude GtpWire GtpWireProofs Packets PacketsProofs PacketsIpv6 Tags.
Open Scope Z_scope.

(** ** Stores and moves on lists *)

Definition upd (p : nat) (bs d : list Z) : list Z := take p d ++ bs ++ drop (p + length bs) d.

Lemma upd_middle (a x y c : list Z) : length x = length y → upd (length a) y (a ++ x ++ c) = a ++ y ++ c.
Proof.
  intros Hl. unfold upd. rewrite take_app_length. do 2 f_equal.
  rewrite <-Hl, <-length_app, app_assoc, drop_app_length. done.
Qed.

(** Opening a gap of [length h] bytes after [a] and filling it. *)
Lemma open_gap (h a c bs : list Z) :
  length bs = length h →
  upd (length a) bs (take (length a) (drop (length h) (h ++ a ++ c)) ++ drop (length a) (h ++ a ++ c)) =
  a ++ bs ++ c.
Proof.
  intros Hl. rewrite drop_app_length, take_app_length.
  assert (drop (length a) (h ++ a ++ c) = take (length h) (drop (length a) (h ++ a ++ c)) ++ c) as ->.
  { rewrite <-(take_drop (length h) (drop (length a) (h ++ a ++ c))) at 1. f_equal.
    rewrite drop_drop. rewrite (Nat.add_comm (length a)), <-drop_drop, drop_app_length.
    by rewrite drop_app_length. }
  apply upd_middle. rewrite length_take, length_drop, !length_app. lia.
Qed.

(** Closing it. *)
Lemma close_gap (a t c : list Z) :
  drop (length t) (take (length t) (a ++ t ++ c) ++ take (length a) (a ++ t ++ c)
    ++ drop (length t + length a) (a ++ t ++ c)) = a ++ c.
Proof.
  rewrite take_app_length. rewrite (Nat.add_comm (length t)), <-length_app, (app_assoc a t c), drop_app_length.
  assert (length (take (length t) ((a ++ t) ++ c)) = length t) as Hl
    by (rewrite length_take, !length_app; lia).
  rewrite <-Hl at 1. by rewrite drop_app_length.
Qed.

(** ** Room for a tag *)

Definition room (b : frame) (n : nat) : Prop :=
  (n ≤ length (headroom b))%nat ∨ source b = DPBUF_MALLOC ∨ source b = DPBUF_STUB.

Definition offset_ok (ofs : Z) : Prop := ofs = UINT16_MAX ∨ 0 ≤ ofs < UINT16_MAX - 4.

Section Tags.
Variable uninit : nat → Z.

Lemma push_uninit_spec b size :
  room b size →
  ∃ h hr src, length h = size ∧
    dp_packet_push_uninit uninit b size =
    Ret (mkFrame (set_data (fr_ip b) (h ++ fr_data b)) hr (l2_5_ofs b) src).
Proof.
  intros Hroom. unfold dp_packet_push_uninit, dp_packet_prealloc_headroom.
  destruct (Nat.ltb_spec (length (headroom b)) size) as [Hlt|Hge].
  - unfold dp_packet_resize__. destruct Hroom as [Hr|Hsrc]; [lia|].
    set (new := _ ++ _). assert (length new = (size `max` 64)%nat) as Hnew.
    { unfold new. rewrite length_app, length_fmap, length_seq, length_drop. lia. }
    eexists (drop (length new - size) new), _, _.
    split; [rewrite length_drop; lia|]. by destruct Hsrc as [-> | ->].
  - cbn [obind]. eexists _, _, _. split; [|done]. rewrite length_drop. lia.
Qed.

Lemma resize_up b :
  room b 4 →
  ∃ h hr src, length h = 4%nat ∧
    dp_packet_resize_l2_5 uninit b 4 =
    Ret (mkFrame (mkIpPacket (mkPacket (h ++ fr_data b) (l2_pad_size (pkt (fr_ip b)))
                     (dp_packet_adjust_layer_offset (l4_ofs (pkt (fr_ip b))) 4))
                   (dp_packet_adjust_layer_offset (l3_ofs (fr_ip b)) 4)) hr (l2_5_ofs b) src).
Proof.
  intros Hroom. destruct (push_uninit_spec b 4 Hroom) as (h & hr & src & Hl & Heq).
  exists h, hr, src. split; [done|]. unfold dp_packet_resize_l2_5. cbn [Z.leb Z.compare].
  change (Z.to_nat 4) with 4%nat. rewrite Heq. done.
Qed.

Lemma resize_down b :
  0 ≤ fr_size b - l2_pad_size (pkt (fr_ip b)) < 2 ^ 32 → 4 ≤ fr_size b - l2_pad_size (pkt (fr_ip b)) →
  dp_packet_resize_l2_5 uninit b (-4) =
  Ret (mkFrame (mkIpPacket (mkPacket (drop 4 (fr_data b)) (l2_pad_size (pkt (fr_ip b)))
                   (dp_packet_adjust_layer_offset (l4_ofs (pkt (fr_ip b))) (-4)))
                 (dp_packet_adjust_layer_offset (l3_ofs (fr_ip b)) (-4)))
         (headroom b ++ take 4 (fr_data b)) (l2_5_ofs b) (source b)).
Proof.
  intros Hr Hs. unfold dp_packet_resize_l2_5. cbn [Z.leb Z.compare]. change (Z.to_nat (- -4)) with 4%nat.
  unfold dp_packet_pull. rewrite u32_small by done. change (Z.of_nat 4) with 4.
  rewrite (proj2 (Z.leb_le 4 _)) by done. done.
Qed.
End Tags.

Lemma adjust_back ofs : offset_ok ofs →
  dp_packet_adjust_layer_offset (dp_packet_adjust_layer_offset ofs 4) (-4) = ofs ∧
  (dp_packet_adjust_layer_offset ofs 4 = UINT16_MAX ↔ ofs = UINT16_MAX).
Proof.
  unfold offset_ok, UINT16_MAX, dp_packet_adjust_layer_offset. intros [->|Hofs]; [done|].
  rewrite (proj2 (Z.eqb_neq ofs _)) by (unfold UINT16_MAX; lia). cbn [negb].
  rewrite u16_small by lia. rewrite (proj2 (Z.eqb_neq (ofs + 4) _)) by (unfold UINT16_MAX; lia).
  cbn [negb]. rewrite u16_small by lia. lia.
Qed.

(** ** Loads *)

Lemma inside_frame b p n : 0 ≤ p → p + n ≤ Z.of_nat (length (fr_data b)) → inside (fr_ip b) p n = true.
Proof. intros. by apply inside_true. Qed.

Lemma store_Ret b p bs :
  (p + length bs ≤ length (fr_data b))%nat →
  fr_store b (Z.of_nat p) bs = Ret (set_frame_data b (upd p bs (fr_data b))).
Proof.
  intros Hp. unfold fr_store. rewrite inside_frame by lia. unfold upd. by rewrite Nat2Z.id.
Qed.

Lemma peek16_middle b a x y c :
  fr_data b = a ++ [x; y] ++ c → peek16 (fr_ip b) (Z.of_nat (length a)) = Ret (host16 x y).
Proof.
  intros Hd. rewrite peek16_Ret; [|lia|unfold psize, dp_packet_size; fold (fr_data b); rewrite Hd, !length_app; simpl; lia].
  f_equal. unfold word16, byte, byte_at. fold (fr_data b). rewrite Hd.
  replace (Z.to_nat (Z.of_nat (length a) + 1)) with (length a + 1)%nat by lia. rewrite Nat2Z.id.
  cbn [app]. by rewrite nth_middle, app_nth2_plus.
Qed.

Lemma host16_bytes16 v : short v → host16 (v mod 2 ^ 8) (v / 2 ^ 8 mod 2 ^ 8) = v.
Proof. unfold short, host16. intros Hv. Z.to_euclidean_division_equations. lia. Qed.

Lemma peek16_bytes16 b a v c :
  fr_data b = a ++ bytes16 v ++ c → short v → peek16 (fr_ip b) (Z.of_nat (length a)) = Ret v.
Proof.
  intros Hd Hv. unfold bytes16 in Hd. rewrite (peek16_middle b a _ _ c Hd). f_equal. by apply host16_bytes16.
Qed.

Lemma upd_upd p x y d :
  (p + length x + length y ≤ length d)%nat → upd (p + length x) y (upd p x d) = upd p (x ++ y) d.
Proof.
  intros Hl. rewrite <-(take_drop p d). set (a := take p d).
  assert (length a = p) as Ha by (unfold a; rewrite length_take; lia).
  set (e := drop p d). assert (length e = (length d - p)%nat) as He by (unfold e; by rewrite length_drop).
  rewrite <-(take_drop (length x) e). set (m1 := take (length x) e).
  assert (length m1 = length x) as Hm1 by (unfold m1; rewrite length_take; lia).
  set (e' := drop (length x) e). assert (length e' = (length e - length x)%nat) as He' by (unfold e'; by rewrite length_drop).
  rewrite <-(take_drop (length y) e'). set (m2 := take (length y) e').
  assert (length m2 = length y) as Hm2 by (unfold m2; rewrite length_take; lia). set (c := drop (length y) e').
  rewrite <-Ha at 1 2. rewrite upd_middle by done.
  replace (length a + length x)%nat with (length (a ++ x)) by (by rewrite length_app).
  rewrite (app_assoc a x), upd_middle by done. rewrite <-Ha at 1.
  rewrite (app_assoc m1), upd_middle by (by rewrite !length_app, Hm1, Hm2).
  by rewrite <-!app_assoc.
Qed.

(** ** VLAN tags *)

Section Vlan.
Variable uninit : nat → Z.

Definition without_cfi (tci : Z) : Z := Z.land tci (htons (u16 (Z.lnot VLAN_CFI))).

Lemma push_vlan_spec b tpid tci a c :
  room b 4 → fr_data b = a ++ c → length a = 12%nat →
  ∃ hr src, eth_push_vlan uninit b tpid tci =
    Ret (mkFrame (mkIpPacket (mkPacket (a ++ (bytes16 tpid ++ bytes16 (without_cfi tci)) ++ c)
                     (l2_pad_size (pkt (fr_ip b))) (dp_packet_adjust_layer_offset (l4_ofs (pkt (fr_ip b))) 4))
                   (dp_packet_adjust_layer_offset (l3_ofs (fr_ip b)) 4)) hr
           (dp_packet_adjust_layer_offset (l2_5_ofs b) 4) src).
Proof.
  intros Hroom Hd Ha. destruct (resize_up uninit b Hroom) as (h & hr & src & Hh & Heq).
  exists hr, src. unfold eth_push_vlan, dp_packet_resize_l2. change VLAN_HEADER_LEN with 4.
  rewrite Heq. cbn [obind]. rewrite Hd. unfold fr_memmove.
  rewrite !inside_frame by (unfold fr_data, ETH_ADDR_LEN; simpl; rewrite ?length_app; lia).
  cbn [andb obind].
  unfold set_frame_data, set_l2_5_ofs, set_data, fr_data.
  cbn [fr_ip pkt pk_data l2_pad_size l4_ofs l3_ofs headroom l2_5_ofs source].
  change (Z.to_nat 0) with 0%nat. change (Z.to_nat 4) with 4%nat.
  change (Z.to_nat (2 * ETH_ADDR_LEN)) with 12%nat. change (Z.to_nat (0 + 2 * ETH_ADDR_LEN)) with 12%nat.
  rewrite take_0. cbn [app]. set (D := take 12 _ ++ _).
  assert (length D = 16 + length c)%nat as HD.
  { unfold D. rewrite length_app, length_take, !length_drop, !length_app. lia. }
  change 12 with (Z.of_nat 12). rewrite store_Ret by (unfold fr_data; cbn [fr_ip pkt pk_data]; rewrite HD; simpl; lia). cbn [obind].
  change 14 with (Z.of_nat (12 + length (bytes16 tpid))).
  rewrite store_Ret by (unfold fr_data, set_frame_data, set_data; cbn [fr_ip pkt pk_data]; unfold upd;
    rewrite !length_app, length_take, length_drop, HD; simpl; lia).
  unfold set_frame_data, set_data, fr_data.
  cbn [fr_ip pkt pk_data l2_pad_size l4_ofs l3_ofs headroom l2_5_ofs source].
  rewrite upd_upd by (rewrite HD; simpl; lia). do 4 f_equal. unfold D. rewrite <-Ha, <-Hh.
  rewrite <-(open_gap h a c) by (by rewrite Hh). done.
Qed.

Lemma pop_vlan_spec b v t a c :
  fr_data b = a ++ (bytes16 v ++ t) ++ c → length a = 12%nat → length t = 2%nat → (2 ≤ length c)%nat →
  short v → eth_type_vlan v = true → l3_ofs (fr_ip b) ≠ UINT16_MAX →
  0 ≤ fr_size b - l2_pad_size (pkt (fr_ip b)) < 2 ^ 32 → 4 ≤ fr_size b - l2_pad_size (pkt (fr_ip b)) →
  ∃ hr src, eth_pop_vlan uninit b =
    Ret (mkFrame (mkIpPacket (mkPacket (a ++ c) (l2_pad_size (pkt (fr_ip b)))
                     (dp_packet_adjust_layer_offset (l4_ofs (pkt (fr_ip b))) (-4)))
                   (dp_packet_adjust_layer_offset (l3_ofs (fr_ip b)) (-4))) hr
           (dp_packet_adjust_layer_offset (l2_5_ofs b) (-4)) src).
Proof.
  intros Hd Ha Ht Hc Hv Hvlan Hl3 Hs1 Hs2.
  assert (fr_size b = 16 + Z.of_nat (length c)) as Hsz.
  { unfold fr_size, dp_packet_size. fold (fr_data b). rewrite Hd, !length_app, Ha, Ht. simpl. lia. }
  unfold eth_pop_vlan, dp_packet_l2. rewrite (proj2 (Z.eqb_neq _ _) Hl3). cbn [negb].
  rewrite (proj2 (Z.leb_le VLAN_ETH_HEADER_LEN _)) by (unfold VLAN_ETH_HEADER_LEN; lia).
  replace (0 + 12) with (Z.of_nat (length a)) by (by rewrite Ha).
  rewrite (peek16_bytes16 b a v (t ++ c)) by (done || by rewrite Hd, <-app_assoc). cbn [obind].
  rewrite Hvlan. unfold fr_memmove. rewrite !inside_frame.
  2-5: unfold VLAN_HEADER_LEN, ETH_ADDR_LEN; fold (fr_data b); rewrite ?Hd, ?length_app, ?Ha, ?Ht; simpl; lia.
  cbn [andb obind]. unfold dp_packet_resize_l2. change (- VLAN_HEADER_LEN) with (-4).
  change (Z.to_nat VLAN_HEADER_LEN) with 4%nat. change (Z.to_nat 0) with 0%nat.
  change (Z.to_nat (2 * ETH_ADDR_LEN)) with 12%nat.
  change (Z.to_nat (VLAN_HEADER_LEN + 2 * ETH_ADDR_LEN)) with (4 + 12)%nat. rewrite drop_0.
  set (D := take 4 _ ++ _). assert (length D = length (fr_data b)) as HD.
  { unfold D. rewrite !length_app, !length_take, length_drop, Hd, !length_app, Ha, Ht. simpl. lia. }
  rewrite resize_down.
  2-3: unfold fr_size, dp_packet_size in *; simpl; rewrite HD; assumption.
  cbn [obind]. eexists _, _. unfold set_l2_5_ofs, set_frame_data, set_data, fr_data.
  cbn [fr_ip pkt pk_data l2_pad_size l4_ofs l3_ofs headroom l2_5_ofs source]. do 4 f_equal.
  unfold D. rewrite Hd. rewrite <-Ha.
  replace 4%nat with (length (bytes16 v ++ t)) by (rewrite length_app, Ht; done). apply close_gap.
Qed.
End Vlan.

(** ** MPLS labels *)

(** A frame with the addresses, VLAN tags, type and payload of an Ethernet
    packet, whose offsets point to the payload. *)
Record layout (b : frame) (addrs tags : list Z) (type : Z) (payload : list Z) : Prop := {
  lay_data : fr_data b = addrs ++ tags ++ bytes16 type ++ payload;
  lay_addrs : length addrs = 12%nat;
  lay_tags : tags = [] ∧ eth_type_vlan type = false ∨
             ∃ v rest, tags = bytes16 v ++ rest ∧ short v ∧ eth_type_vlan v = true;
  lay_type : short type;
  lay_l3 : l3_ofs (fr_ip b) ≠ UINT16_MAX;
  lay_start : (if is_mpls b then l2_5_ofs b else l3_ofs (fr_ip b)) = Z.of_nat (length (addrs ++ tags)) + 2;
}.

Lemma set_ethertype_spec b addrs tags type payload t :
  layout b addrs tags type payload →
  set_ethertype b t = Ret (set_frame_data b (addrs ++ tags ++ bytes16 t ++ payload)).
Proof.
  intros HL. pose proof (lay_data _ _ _ _ _ HL) as Hd. pose proof (lay_addrs _ _ _ _ _ HL) as Ha.
  unfold set_ethertype, dp_packet_l2. rewrite (proj2 (Z.eqb_neq _ _) (lay_l3 _ _ _ _ _ HL)). cbn [negb].
  replace (0 + 12) with (Z.of_nat (length addrs)) by (by rewrite Ha).
  assert (∀ p : nat, p = length (addrs ++ tags) →
    fr_store b (Z.of_nat p) (bytes16 t) = Ret (set_frame_data b (addrs ++ tags ++ bytes16 t ++ payload)))
    as Hst.
  { intros p ->. rewrite store_Ret by (rewrite Hd, !length_app; simpl; lia).
    rewrite Hd, !(app_assoc addrs tags), upd_middle by done. done. }
  destruct (lay_tags _ _ _ _ _ HL) as [[Hnil Hnv]|(v & rest & Htags & Hv & Hvlan)].
  - rewrite (peek16_bytes16 b addrs type payload) by (by rewrite ?Hd, ?Hnil || apply HL). cbn [obind].
    rewrite Hnv. apply Hst. by rewrite Hnil, app_nil_r.
  - rewrite (peek16_bytes16 b addrs v (rest ++ bytes16 type ++ payload)) by (by rewrite ?Hd, ?Htags, <-?app_assoc).
    cbn [obind]. rewrite Hvlan. pose proof (lay_start _ _ _ _ _ HL) as Hs.
    assert ((match dp_packet_l2_5 b with Some l2_5 => Ret l2_5 | None => deref (dp_packet_l3 (fr_ip b)) end)
      = Ret (Z.of_nat (length (addrs ++ tags)) + 2)) as ->.
    { unfold dp_packet_l2_5, is_mpls in *. destruct (negb (l2_5_ofs b =? UINT16_MAX)); [by rewrite Hs|].
      unfold dp_packet_l3. rewrite (proj2 (Z.eqb_neq _ _) (lay_l3 _ _ _ _ _ HL)). cbn. by rewrite Hs. }
    cbn [obind]. replace (Z.of_nat (length (addrs ++ tags)) + 2 - 2) with (Z.of_nat (length (addrs ++ tags))) by lia.
    by apply Hst.
Qed.

Section Mpls.
Variable uninit : nat → Z.

Lemma push_mpls_spec b addrs tags type payload t lse :
  layout b addrs tags type payload → room b 4 → eth_type_mpls t = true →
  ∃ hr src, push_mpls uninit b t lse =
    Ret (mkFrame (mkIpPacket (mkPacket ((addrs ++ tags ++ bytes16 t) ++ bytes32 lse ++ payload)
                     (l2_pad_size (pkt (fr_ip b))) (dp_packet_adjust_layer_offset (l4_ofs (pkt (fr_ip b))) 4))
                   (dp_packet_adjust_layer_offset (l3_ofs (fr_ip b)) 4)) hr
           (Z.of_nat (length (addrs ++ tags)) + 2) src).
Proof.
  intros HL Hroom Ht. unfold push_mpls. rewrite Ht. cbn [negb].
  set (b0 := if negb (is_mpls b) then _ else _).
  assert (layout b0 addrs tags type payload ∧ l2_5_ofs b0 = Z.of_nat (length (addrs ++ tags)) + 2 ∧
    fr_ip b0 = fr_ip b ∧ room b0 4) as (HL0 & Hofs & Hip & Hroom0).
  { pose proof (lay_start _ _ _ _ _ HL) as Hs. unfold b0. destruct (is_mpls b) eqn:Em; cbn [negb]; [done|].
    split_and!; [|done..]. destruct HL. split; try done. unfold is_mpls. simpl.
    by rewrite (proj2 (Z.eqb_neq _ _) lay_l4). }
  rewrite (set_ethertype_spec b0 _ _ _ _ t HL0). cbn [obind].
  set (A := addrs ++ tags ++ bytes16 t).
  set (b1 := set_frame_data b0 (addrs ++ tags ++ bytes16 t ++ payload)).
  assert (fr_data b1 = A ++ payload) as Hd1 by (unfold A; by rewrite <-!app_assoc).
  assert (l2_5_ofs b1 = Z.of_nat (length A)) as Hlen.
  { change (l2_5_ofs b1) with (l2_5_ofs b0). rewrite Hofs. unfold A. rewrite !length_app. simpl. lia. }
  destruct (resize_up uninit b1 Hroom0) as (h & hr & src & Hh & Heq). exists hr, src.
  change MPLS_HLEN with 4. rewrite Heq, Hlen. cbn [obind]. rewrite Hd1. unfold fr_memmove.
  rewrite !inside_frame by (unfold fr_data; simpl; rewrite ?length_app; lia). cbn [andb obind].
  unfold set_frame_data, set_data, fr_data.
  cbn [fr_ip pkt pk_data l2_pad_size l4_ofs l3_ofs headroom l2_5_ofs source].
  change (Z.to_nat 0) with 0%nat. change (Z.to_nat 4) with 4%nat.
  rewrite Z.add_0_l, Nat2Z.id, take_0. cbn [app].
  rewrite store_Ret by (unfold fr_data; cbn [fr_ip pkt pk_data];
    rewrite !length_app, length_take, !length_drop, !length_app; simpl; lia).
  unfold set_frame_data, set_data, fr_data.
  cbn [fr_ip pkt pk_data l2_pad_size l4_ofs l3_ofs headroom l2_5_ofs source].
  rewrite <-Hh, open_gap by (by rewrite Hh). unfold b1, set_frame_data, set_data.
  cbn [fr_ip pkt pk_data l2_pad_size l4_ofs l3_ofs headroom l2_5_ofs source]. rewrite Hip.
  replace (Z.of_nat (length A)) with (Z.of_nat (length (addrs ++ tags)) + 2); [done|].
  unfold A. rewrite !length_app. simpl. lia.
Qed.

Lemma get_lse b a lse c :
  fr_data b = a ++ bytes32 lse ++ c → 0 ≤ lse < 2 ^ 32 →
  get_16aligned_be32 (fr_ip b) (Z.of_nat (length a)) = Ret lse.
Proof.
  intros Hd Hl. unfold get_16aligned_be32, bytes32 in *.
  assert (short (lse mod 2 ^ 16) ∧ short (lse / 2 ^ 16)) as [S1 S2].
  { unfold short. Z.to_euclidean_division_equations. lia. }
  rewrite (peek16_bytes16 b a (lse mod 2 ^ 16) (bytes16 (lse / 2 ^ 16) ++ c))
    by (done || by rewrite Hd, <-app_assoc). cbn [obind].
  replace (Z.of_nat (length a) + 2) with (Z.of_nat (length (a ++ bytes16 (lse mod 2 ^ 16))))
    by (rewrite length_app; simpl; lia).
  rewrite (peek16_bytes16 b _ (lse / 2 ^ 16) c) by (done || by rewrite Hd, <-!app_assoc). cbn [obind].
  rewrite lor_halves by done. f_equal. pose proof (Z.div_mod lse (2 ^ 16)). lia.
Qed.

Lemma pop_mpls_spec b addrs tags type lse payload t :
  layout b addrs tags type (bytes32 lse ++ payload) → is_mpls b = true → 0 ≤ lse < 2 ^ 32 →
  0 ≤ fr_size b - l2_pad_size (pkt (fr_ip b)) < 2 ^ 32 → 4 ≤ fr_size b - l2_pad_size (pkt (fr_ip b)) →
  ∃ hr src, pop_mpls uninit b t =
    Ret (mkFrame (mkIpPacket (mkPacket ((addrs ++ tags ++ bytes16 t) ++ payload)
                     (l2_pad_size (pkt (fr_ip b))) (dp_packet_adjust_layer_offset (l4_ofs (pkt (fr_ip b))) (-4)))
                   (dp_packet_adjust_layer_offset (l3_ofs (fr_ip b)) (-4))) hr
           (if mpls_lse_to_bos lse then UINT16_MAX else l2_5_ofs b) src).
Proof.
  intros HL Hm Hlse Hs1 Hs2. pose proof (lay_start _ _ _ _ _ HL) as Hofs. rewrite Hm in Hofs.
  unfold pop_mpls. rewrite Hm. unfold dp_packet_l2_5. unfold is_mpls in Hm. rewrite Hm. cbn [deref obind].
  rewrite (set_ethertype_spec b _ _ _ _ t HL). cbn [obind].
  set (A := addrs ++ tags ++ bytes16 t). set (b1 := set_frame_data b _).
  assert (fr_data b1 = A ++ bytes32 lse ++ payload) as Hd1 by (unfold A; by rewrite <-!app_assoc).
  assert (l2_5_ofs b = Z.of_nat (length A)) as Hlen.
  { rewrite Hofs. unfold A. rewrite !length_app. simpl. lia. }
  rewrite Hlen, (get_lse b1 A lse payload Hd1 Hlse). cbn [obind]. fold (mpls_lse_to_bos lse).
  set (b2 := if mpls_lse_to_bos lse then _ else _).
  assert (fr_data b2 = fr_data b1 ∧ fr_ip b2 = fr_ip b1 ∧
    l2_5_ofs b2 = if mpls_lse_to_bos lse then UINT16_MAX else Z.of_nat (length A)) as (Hd2 & Hip2 & Hofs2)
    by (unfold b2; by destruct (mpls_lse_to_bos lse)).
  unfold fr_memmove.
  rewrite !inside_frame by (unfold MPLS_HLEN; rewrite ?Hd2, ?Hd1, ?length_app; simpl; lia).
  cbn [andb obind]. change (- MPLS_HLEN) with (-4). change (Z.to_nat MPLS_HLEN) with 4%nat.
  replace (Z.to_nat (MPLS_HLEN + Z.of_nat (length A))) with (4 + length A)%nat by (unfold MPLS_HLEN; lia).
  rewrite Nat2Z.id. change (Z.to_nat 0) with 0%nat. rewrite drop_0, Hd2, Hd1.
  set (D := take 4 _ ++ _). assert (length D = length (fr_data b)) as HD.
  { assert (length (bytes32 lse) = 4%nat ∧ length (fr_data b) = length (A ++ bytes32 lse ++ payload)) as [H4 ->].
    { split; [done|]. rewrite (lay_data _ _ _ _ _ HL). unfold A. rewrite !length_app. simpl. lia. }
    unfold D. rewrite !length_app, !length_take, length_drop, !length_app. lia. }
  rewrite resize_down.
  2-3: unfold fr_size, dp_packet_size in *; simpl; rewrite Hip2, HD; assumption.
  eexists _, _. unfold set_frame_data, set_data, fr_data.
  cbn [fr_ip pkt pk_data l2_pad_size l4_ofs l3_ofs headroom l2_5_ofs source]. rewrite Hip2, Hofs2.
  do 4 f_equal. unfold D. apply (close_gap A (bytes32 lse) payload).
Qed.
End Mpls.

(** ** Label stack entries *)

Lemma of_be32_host32 a b c d : of_be32 a b c d = host32 d c b a.
Proof. unfold of_be32, host32. lia. Qed.

Lemma land_byte x y : is_byte x → is_byte y → is_byte (Z.land x y).
Proof. unfold is_byte. intros. apply land_range; lia. Qed.
Lemma lor_byte x y : is_byte x → is_byte y → is_byte (Z.lor x y).
Proof. unfold is_byte. intros. apply lor_range; lia. Qed.

Lemma ntohl_land x y : 0 ≤ x < 2 ^ 32 → 0 ≤ y < 2 ^ 32 → ntohl (Z.land x y) = Z.land (ntohl x) (ntohl y).
Proof.
  intros Hx Hy. destruct (host32_inv x Hx) as (a & b & c & d & -> & ? & ? & ? & ?).
  destruct (host32_inv y Hy) as (a' & b' & c' & d' & -> & ? & ? & ? & ?).
  rewrite land_host32, !ntohl_host32, !of_be32_host32, land_host32 by auto using land_byte. done.
Qed.
Lemma ntohl_lor x y : 0 ≤ x < 2 ^ 32 → 0 ≤ y < 2 ^ 32 → ntohl (Z.lor x y) = Z.lor (ntohl x) (ntohl y).
Proof.
  intros Hx Hy. destruct (host32_inv x Hx) as (a & b & c & d & -> & ? & ? & ? & ?).
  destruct (host32_inv y Hy) as (a' & b' & c' & d' & -> & ? & ? & ? & ?).
  rewrite lor_host32, !ntohl_host32, !of_be32_host32, lor_host32 by auto using lor_byte. done.
Qed.

(** The bits of [mask] in an entry, in host byte order. *)
Definition lse_bits (mask lse : Z) : Z := Z.land (ntohl lse) mask.

Section Fields.
Context (mask shift value lse : Z).
Hypothesis Hmask : 0 ≤ mask < 2 ^ 32.
Hypothesis Hlse : 0 ≤ lse < 2 ^ 32.
(** The complement of the mask, in either byte order. *)
Hypothesis Hcompl : u32 (Z.lnot (ntohl mask)) = ntohl (u32 (Z.lnot mask)).

Lemma set_lse_range : 0 ≤ set_lse_field lse mask shift value < 2 ^ 32.
Proof. apply lor_range; [lia|apply land_range; lia|apply ntohl_range]. Qed.

Lemma ntohl_set_lse :
  ntohl (set_lse_field lse mask shift value) =
  Z.lor (Z.land (ntohl lse) (u32 (Z.lnot mask))) (Z.land (u32 (Z.shiftl value shift)) mask).
Proof.
  pose proof (u32_range (Z.lnot mask)). pose proof (u32_range (Z.shiftl value shift)).
  unfold set_lse_field. rewrite Hcompl.
  rewrite ntohl_lor; [|apply land_range; lia|apply ntohl_range].
  rewrite ntohl_land; [|lia|apply ntohl_range]. rewrite !ntohl_ntohl; [done|..|done].
  apply land_range; lia.
Qed.

Lemma lse_bits_same :
  Z.land (u32 (Z.lnot mask)) mask = 0 →
  lse_bits mask (set_lse_field lse mask shift value) = Z.land (u32 (Z.shiftl value shift)) mask.
Proof.
  intros H0. unfold lse_bits. rewrite ntohl_set_lse, Z.land_lor_distr_l, <-!Z.land_assoc, H0.
  by rewrite Z.land_0_r, Z.lor_0_l, Z.land_diag.
Qed.

Lemma lse_bits_other mask' :
  Z.land (u32 (Z.lnot mask)) mask' = mask' → Z.land mask mask' = 0 →
  lse_bits mask' (set_lse_field lse mask shift value) = lse_bits mask' lse.
Proof.
  intros H1 H0. unfold lse_bits. rewrite ntohl_set_lse, Z.land_lor_distr_l, <-!Z.land_assoc, H1, H0.
  by rewrite Z.land_0_r, Z.lor_0_r.
Qed.
End Fields.

Lemma field_value v s w :
  0 ≤ s → 0 ≤ w → s + w ≤ 32 →
  Z.shiftr (Z.land (u32 (Z.shiftl v s)) (Z.shiftl (Z.ones w) s)) s = v mod 2 ^ w.
Proof.
  intros Hs Hw Hsw. apply Z.bits_inj'. intros n Hn. unfold u32.
  rewrite Z.shiftr_spec, Z.land_spec, Z.shiftl_spec by lia. replace (n + s - s) with n by lia.
  destruct (Z.ltb_spec n w) as [Hlt|Hge].
  - rewrite Z.ones_spec_low, !Z.mod_pow2_bits_low, Z.shiftl_spec by lia.
    replace (n + s - s) with n by lia. by rewrite andb_true_r.
  - by rewrite Z.ones_spec_high, andb_false_r, Z.mod_pow2_bits_high by lia.
Qed.

Lemma land_pow2 x k : 0 ≤ k → Z.land x (2 ^ k) = if Z.testbit x k then 2 ^ k else 0.
Proof.
  intros Hk. apply Z.bits_inj'. intros n Hn. rewrite Z.land_spec, Z.pow2_bits_eqb by done.
  destruct (Z.eqb_spec k n) as [->|Hne].
  - rewrite andb_true_r. destruct (Z.testbit x n); [by rewrite Z.pow2_bits_true|by rewrite Z.bits_0].
  - rewrite andb_false_r. destruct (Z.testbit x k); [by rewrite Z.pow2_bits_false|by rewrite Z.bits_0].
Qed.

Lemma bos_bits lse : 0 ≤ lse < 2 ^ 32 → mpls_lse_to_bos lse = negb (lse_bits MPLS_BOS_MASK lse =? 0).
Proof.
  intros Hl. unfold mpls_lse_to_bos, lse_bits. f_equal.
  replace (Z.land (ntohl lse) MPLS_BOS_MASK) with (ntohl (Z.land lse (ntohl MPLS_BOS_MASK)))
    by (rewrite ntohl_land by (apply ntohl_range || done); by rewrite ntohl_ntohl by done).
  set (x := Z.land _ _). assert (0 ≤ x < 2 ^ 32) as Hx by (apply land_range; lia).
  destruct (Z.eqb_spec x 0) as [->|Hne]; [done|]. symmetry. apply Z.eqb_neq. intros H0.
  apply Hne. rewrite <-(ntohl_ntohl x Hx), H0. done.
Qed.

(** The entry that a field was just set in, seen through another mask. *)
Ltac lse_other :=
  match goal with E : ?l = set_lse_field _ _ _ _ |- context [lse_bits _ ?l] =>
    rewrite E, lse_bits_other by done; clear E
  end.

(** An entry holds the fields it is made of. *)
Lemma lse_values ttl tc bos label lse :
  0 ≤ ttl < 256 → 0 ≤ label < 2 ^ 32 → lse = set_mpls_lse_values ttl tc bos (ntohl label) →
  0 ≤ lse < 2 ^ 32 ∧ mpls_lse_to_ttl lse = ttl ∧ mpls_lse_to_tc lse = tc mod 8 ∧
  mpls_lse_to_bos lse = Z.odd bos ∧ mpls_lse_to_label lse = label mod 2 ^ 20.
Proof.
  intros Httl Hlabel E4. unfold set_mpls_lse_values, set_mpls_lse_label in E4. rewrite ntohl_ntohl in E4 by done.
  remember (set_mpls_lse_ttl _ _) as l1 eqn:E1 in E4. unfold set_mpls_lse_ttl in E1.
  assert (0 ≤ l1 < 2 ^ 32) as H1 by (subst l1; by apply set_lse_range).
  remember (set_mpls_lse_tc _ _) as l2 eqn:E2 in E4. unfold set_mpls_lse_tc in E2.
  assert (0 ≤ l2 < 2 ^ 32) as H2 by (subst l2; by apply set_lse_range).
  remember (set_mpls_lse_bos _ _) as l3 eqn:E3 in E4. unfold set_mpls_lse_bos in E3.
  assert (0 ≤ l3 < 2 ^ 32) as H3 by (subst l3; by apply set_lse_range).
  assert (0 ≤ lse < 2 ^ 32) as H4 by (subst lse; by apply set_lse_range).
  rewrite bos_bits by done. split; [done|].
  change (mpls_lse_to_ttl lse) with (Z.shiftr (lse_bits MPLS_TTL_MASK lse) 0).
  change (mpls_lse_to_tc lse) with (Z.shiftr (lse_bits MPLS_TC_MASK lse) 9).
  change (mpls_lse_to_label lse) with (Z.shiftr (lse_bits MPLS_LABEL_MASK lse) 12).
  clear H4.
  split_and!.
  - do 3 lse_other. subst l1. rewrite lse_bits_same by done.
    replace MPLS_TTL_MASK with (Z.shiftl (Z.ones 8) 0) by reflexivity. rewrite field_value by lia. by rewrite Z.mod_small.
  - do 2 lse_other. subst l2. rewrite lse_bits_same by done.
    replace MPLS_TC_MASK with (Z.shiftl (Z.ones 3) 9) by reflexivity. by rewrite field_value by lia.
  - lse_other. subst l3. rewrite lse_bits_same by done.
    replace MPLS_BOS_MASK with (2 ^ 8) by reflexivity. rewrite land_pow2 by lia. unfold u32.
    rewrite Z.mod_pow2_bits_low, Z.shiftl_spec by lia. change (8 - 8) with 0. rewrite Z.bit0_odd.
    by destruct (Z.odd bos).
  - subst lse. rewrite lse_bits_same by done.
    replace MPLS_LABEL_MASK with (Z.shiftl (Z.ones 20) 12) by reflexivity. by rewrite field_value by lia.
Qed.

(** Each setter leaves the other fields alone. *)
Lemma lse_setters lse v :
  0 ≤ lse < 2 ^ 32 →
  (let l := set_mpls_lse_ttl lse v in
   mpls_lse_to_tc l = mpls_lse_to_tc lse ∧ mpls_lse_to_label l = mpls_lse_to_label lse ∧
   mpls_lse_to_bos l = mpls_lse_to_bos lse) ∧
  (let l := set_mpls_lse_tc lse v in
   mpls_lse_to_ttl l = mpls_lse_to_ttl lse ∧ mpls_lse_to_label l = mpls_lse_to_label lse ∧
   mpls_lse_to_bos l = mpls_lse_to_bos lse) ∧
  (let l := set_mpls_lse_label lse v in
   mpls_lse_to_ttl l = mpls_lse_to_ttl lse ∧ mpls_lse_to_tc l = mpls_lse_to_tc lse ∧
   mpls_lse_to_bos l = mpls_lse_to_bos lse).
Proof.
  intros Hl. unfold set_mpls_lse_ttl, set_mpls_lse_tc, set_mpls_lse_label. cbv zeta.
  rewrite !bos_bits by (done || by apply set_lse_range).
  unfold mpls_lse_to_ttl, mpls_lse_to_tc, mpls_lse_to_label.
  repeat match goal with |- context [Z.land (ntohl ?l) ?m] => change (Z.land (ntohl l) m) with (lse_bits m l) end.
  by rewrite !lse_bits_other by done.
Qed.

(** ** Round trips *)

(** A packet with layer offsets that leave room for a tag, padding within the
    packet and a size that fits. *)
Record taggable (b : frame) : Prop := {
  tg_l2_5 : offset_ok (l2_5_ofs b);
  tg_l3 : offset_ok (l3_ofs (fr_ip b));
  tg_l3_set : l3_ofs (fr_ip b) ≠ UINT16_MAX;
  tg_l4 : offset_ok (l4_ofs (pkt (fr_ip b)));
  tg_pad : 0 ≤ l2_pad_size (pkt (fr_ip b)) ≤ fr_size b;
  tg_size : fr_size b < 2 ^ 32 - 4;
}.

(** The packet [b'] is [b] with the four bytes [tag] after the bytes [pre]. *)
Record tagged (b : frame) (pre tag post : list Z) (b' : frame) : Prop := {
  td_data : fr_data b' = pre ++ tag ++ post;
  td_pad : l2_pad_size (pkt (fr_ip b')) = l2_pad_size (pkt (fr_ip b));
  td_l3 : l3_ofs (fr_ip b') = dp_packet_adjust_layer_offset (l3_ofs (fr_ip b)) 4;
  td_l4 : l4_ofs (pkt (fr_ip b')) = dp_packet_adjust_layer_offset (l4_ofs (pkt (fr_ip b))) 4;
}.

Lemma fr_ip_eq b b' :
  fr_data b' = fr_data b → l2_pad_size (pkt (fr_ip b')) = l2_pad_size (pkt (fr_ip b)) →
  l4_ofs (pkt (fr_ip b')) = l4_ofs (pkt (fr_ip b)) → l3_ofs (fr_ip b') = l3_ofs (fr_ip b) →
  fr_ip b' = fr_ip b.
Proof.
  unfold fr_data. destruct b as [[[] ?] ? ? ?], b' as [[[] ?] ? ? ?]. simpl. by intros -> -> -> ->.
Qed.

Section RoundTrips.
Variable uninit : nat → Z.

Lemma tagged_size b pre tag post b' :
  taggable b → tagged b pre tag post b' → length tag = 4%nat → fr_size b = Z.of_nat (length (pre ++ post)) →
  0 ≤ fr_size b' - l2_pad_size (pkt (fr_ip b')) < 2 ^ 32 ∧ 4 ≤ fr_size b' - l2_pad_size (pkt (fr_ip b')).
Proof.
  intros [? ? ? ? ? ?] [Hd Hp ? ?] Ht Hs. rewrite Hp.
  assert (fr_size b' = fr_size b + 4) as ->; [|lia].
  rewrite Hs. unfold fr_size, dp_packet_size. fold (fr_data b'). rewrite Hd, !length_app. lia.
Qed.

Lemma vlan_roundtrip b tpid tci :
  taggable b → room b 4 → 14 ≤ fr_size b → short tpid → eth_type_vlan tpid = true →
  ∃ b', eth_push_vlan uninit b tpid tci = Ret b' ∧
    tagged b (take 12 (fr_data b)) (bytes16 tpid ++ bytes16 (without_cfi tci)) (drop 12 (fr_data b)) b' ∧
    l2_5_ofs b' = dp_packet_adjust_layer_offset (l2_5_ofs b) 4 ∧
    ∃ b'', eth_pop_vlan uninit b' = Ret b'' ∧ fr_ip b'' = fr_ip b ∧ l2_5_ofs b'' = l2_5_ofs b.
Proof.
  intros Htg Hroom Hsz Hv Hvlan. set (pre := take 12 _). set (post := drop 12 _).
  assert (fr_data b = pre ++ post) as Hd by (unfold pre, post; by rewrite take_drop).
  assert (length (fr_data b) = Z.to_nat (fr_size b)) as Hlen
    by (unfold fr_size, dp_packet_size, fr_data; lia).
  assert (length pre = 12%nat) as Hpre by (unfold pre; rewrite length_take; lia).
  destruct (push_vlan_spec uninit b tpid tci pre post Hroom Hd Hpre) as (hr & src & Heq).
  eexists. split; [exact Heq|]. set (b' := mkFrame _ hr _ src).
  assert (tagged b pre (bytes16 tpid ++ bytes16 (without_cfi tci)) post b') as Htd by by split.
  split_and!; [done..|].
  destruct (tagged_size b pre _ post b' Htg Htd) as [Hs1 Hs2]; [done|by rewrite <-Hd; lia|].
  destruct (adjust_back _ (tg_l3 _ Htg)) as [B3 N3].
  destruct (pop_vlan_spec uninit b' tpid (bytes16 (without_cfi tci)) pre post) as (hr' & src' & Heq');
    try done.
  { unfold post. rewrite length_drop. lia. }
  { simpl. intros H. by apply (tg_l3_set _ Htg), N3. }
  eexists. split; [exact Heq'|]. split.
  - apply fr_ip_eq; [by rewrite Hd|done|..]; simpl; [apply adjust_back, tg_l4, Htg|exact B3].
  - apply adjust_back, tg_l2_5, Htg.
Qed.

Lemma mpls_not_vlan t : eth_type_mpls t = true → eth_type_vlan t = false ∧ short t.
Proof. unfold eth_type_mpls. rewrite orb_true_iff, !Z.eqb_eq. by intros [-> | ->]. Qed.

Lemma mpls_roundtrip b addrs tags type payload t lse :
  taggable b → layout b addrs tags type payload → room b 4 → eth_type_mpls t = true → 0 ≤ lse < 2 ^ 32 →
  ∃ b', push_mpls uninit b t lse = Ret b' ∧
    tagged b (addrs ++ tags ++ bytes16 t) (bytes32 lse) payload b' ∧
    layout b' addrs tags t (bytes32 lse ++ payload) ∧ is_mpls b' = true ∧
    (mpls_lse_to_bos lse = negb (is_mpls b) →
     ∃ b'', pop_mpls uninit b' type = Ret b'' ∧ fr_ip b'' = fr_ip b ∧ l2_5_ofs b'' = l2_5_ofs b).
Proof.
  intros Htg HL Hroom Ht Hlse.
  destruct (push_mpls_spec uninit b addrs tags type payload t lse HL Hroom Ht) as (hr & src & Heq).
  eexists. split; [exact Heq|]. set (b' := mkFrame _ hr _ src).
  assert (tagged b (addrs ++ tags ++ bytes16 t) (bytes32 lse) payload b') as Htd by by split.
  destruct (mpls_not_vlan t Ht) as [Hnv Hst]. pose proof (lay_start _ _ _ _ _ HL) as Hs.
  assert (is_mpls b' = true) as Hm.
  { unfold is_mpls. simpl. rewrite <-Hs. unfold is_mpls. apply negb_true_iff, Z.eqb_neq.
    destruct (Z.eqb_spec (l2_5_ofs b) UINT16_MAX) as [E|E]; cbn [negb]; [apply HL|done]. }
  destruct (adjust_back _ (tg_l3 _ Htg)) as [B3 N3].
  assert (layout b' addrs tags t (bytes32 lse ++ payload)) as HL'.
  { split; [|apply HL| |done| |].
    - rewrite (td_data _ _ _ _ _ Htd). by rewrite <-!app_assoc.
    - destruct (lay_tags _ _ _ _ _ HL) as [[Hn _]|Hv]; [by left|by right].
    - simpl. intros H. by apply (lay_l3 _ _ _ _ _ HL), N3.
    - by rewrite Hm. }
  split_and!; [done..|]. intros Hbos.
  destruct (tagged_size b _ _ _ b' Htg Htd) as [Hs1 Hs2]; [done| |].
  { unfold fr_size, dp_packet_size. fold (fr_data b). rewrite (lay_data _ _ _ _ _ HL), !length_app. simpl. lia. }
  destruct (pop_mpls_spec uninit b' addrs tags t lse payload type HL' Hm Hlse Hs1 Hs2) as (hr' & src' & Heq').
  eexists. split; [exact Heq'|]. split.
  - apply fr_ip_eq; [|done|..]; simpl; [|apply adjust_back, tg_l4, Htg|exact B3].
    unfold fr_data at 1. simpl. rewrite (lay_data _ _ _ _ _ HL). by rewrite <-!app_assoc.
  - simpl. rewrite Hbos. unfold is_mpls in *. destruct (Z.eqb_spec (l2_5_ofs b) UINT16_MAX) as [E|E];
      cbn [negb] in *; by symmetry.
Qed.

(** A packet without room that cannot be reallocated stops the switch. *)
Lemma vlan_no_room b tpid tci : ¬ room b 4 → eth_push_vlan uninit b tpid tci = Fault AssertFail.
Proof.
  unfold room. intros Hn. unfold eth_push_vlan, dp_packet_resize_l2, dp_packet_resize_l2_5, VLAN_HEADER_LEN.
  cbn [Z.leb Z.compare]. change (Z.to_nat 4) with 4%nat.
  unfold dp_packet_push_uninit, dp_packet_prealloc_headroom.
  rewrite (proj2 (Nat.ltb_lt _ 4)) by lia. unfold dp_packet_resize__.
  destruct (source b); [naive_solver|done|naive_solver|done].
Qed.

Lemma set_mpls_lse_spec b addrs tags t lse payload lse' :
  layout b addrs tags t (bytes32 lse ++ payload) → is_mpls b = true →
  set_mpls_lse b lse' = Ret (set_frame_data b (addrs ++ tags ++ bytes16 t ++ bytes32 lse' ++ payload)).
Proof.
  intros HL Hm. pose proof (lay_start _ _ _ _ _ HL) as Hs. rewrite Hm in Hs.
  unfold set_mpls_lse. rewrite Hm. unfold dp_packet_l2_5. unfold is_mpls in Hm. rewrite Hm. cbn [deref obind].
  rewrite Hs. replace (Z.of_nat (length (addrs ++ tags)) + 2) with (Z.of_nat (length (addrs ++ tags ++ bytes16 t)))
    by (rewrite !length_app; simpl; lia).
  pose proof (lay_data _ _ _ _ _ HL) as Hd.
  assert (fr_data b = (addrs ++ tags ++ bytes16 t) ++ bytes32 lse ++ payload) as Hd' by (by rewrite Hd, <-!app_assoc).
  rewrite store_Ret, Hd' by (rewrite Hd', !length_app; simpl; lia).
  rewrite upd_middle by done. by rewrite <-!app_assoc.
Qed.
End RoundTrips.
