(* ===== verification/OdpExecute.v ===== *)
(** * lib/odp-execute.c: executing the actions of a datapath flow

    A netlink attribute is its type with the structure it holds, as the
    accessors of lib/netlink.c return it.  The callback for the actions that
    need a datapath, the decoder of tunnel keys and the hash of a packet's
    five-tuple are parameters. *)
From Stdlib Require Import ZArith Lia.
From stdpp Require Import base list numbers option.
From S2P Require Import Prelude Hash GtpWire Packets Tags.
Open Scope Z_scope.

(** ** Keys *)

(** An Ethernet address is its three [be16], an IPv6 address its four
    [be32]. *)
Record ovs_key_ethernet := mkKeyEth { eth_src : list Z; eth_dst : list Z }.
Record ovs_key_ipv4 := mkKeyIpv4 {
  ipv4_src : Z; ipv4_dst : Z; ipv4_proto : Z; ipv4_tos : Z; ipv4_ttl : Z; ipv4_frag : Z;
}.
Record ovs_key_ipv6 := mkKeyIpv6 {
  ipv6_src : list Z; ipv6_dst : list Z; ipv6_label : Z;
  ipv6_proto : Z; ipv6_tclass : Z; ipv6_hlimit : Z; ipv6_frag : Z;
}.
(** The keys of TCP, UDP and SCTP have the same layout. *)
Record ovs_key_tp := mkKeyTp { key_tp_src : Z; key_tp_dst : Z }.
Record ovs_key_icmp := mkKeyIcmp { icmp_type : Z; icmp_code : Z }.
Record ovs_key_arp := mkKeyArp {
  arp_sip : Z; arp_tip : Z; arp_op : Z; arp_sha : list Z; arp_tha : list Z;
}.
Record ovs_key_nd := mkKeyNd { nd_target : list Z; nd_sll : list Z; nd_tll : list Z }.

Inductive ovs_key_attr :=
| OVS_KEY_ATTR_UNSPEC | OVS_KEY_ATTR_ENCAP | OVS_KEY_ATTR_PRIORITY | OVS_KEY_ATTR_IN_PORT
| OVS_KEY_ATTR_ETHERNET | OVS_KEY_ATTR_VLAN | OVS_KEY_ATTR_ETHERTYPE | OVS_KEY_ATTR_IPV4
| OVS_KEY_ATTR_IPV6 | OVS_KEY_ATTR_TCP | OVS_KEY_ATTR_UDP | OVS_KEY_ATTR_ICMP
| OVS_KEY_ATTR_ICMPV6 | OVS_KEY_ATTR_ARP | OVS_KEY_ATTR_ND | OVS_KEY_ATTR_SKB_MARK
| OVS_KEY_ATTR_TUNNEL | OVS_KEY_ATTR_SCTP | OVS_KEY_ATTR_TCP_FLAGS | OVS_KEY_ATTR_DP_HASH
| OVS_KEY_ATTR_RECIRC_ID | OVS_KEY_ATTR_MPLS | OVS_KEY_ATTR_CT_STATE | OVS_KEY_ATTR_CT_ZONE
| OVS_KEY_ATTR_CT_MARK | OVS_KEY_ATTR_CT_LABELS.

(** What an attribute holds; [unit] stands for the types that no function
    here reads, bytes for a nested attribute. *)
Definition key_of (type : ovs_key_attr) : Type :=
  match type with
  | OVS_KEY_ATTR_PRIORITY | OVS_KEY_ATTR_SKB_MARK | OVS_KEY_ATTR_DP_HASH
  | OVS_KEY_ATTR_RECIRC_ID | OVS_KEY_ATTR_MPLS => Z
  | OVS_KEY_ATTR_ETHERNET => ovs_key_ethernet
  | OVS_KEY_ATTR_IPV4 => ovs_key_ipv4
  | OVS_KEY_ATTR_IPV6 => ovs_key_ipv6
  | OVS_KEY_ATTR_TCP | OVS_KEY_ATTR_UDP | OVS_KEY_ATTR_SCTP => ovs_key_tp
  | OVS_KEY_ATTR_ICMP | OVS_KEY_ATTR_ICMPV6 => ovs_key_icmp
  | OVS_KEY_ATTR_ARP => ovs_key_arp
  | OVS_KEY_ATTR_ND => ovs_key_nd
  | OVS_KEY_ATTR_TUNNEL => list Z
  | _ => unit
  end.

(** ** Actions *)

Inductive ovs_action :=
| OVS_ACTION_ATTR_OUTPUT (port : Z)
| OVS_ACTION_ATTR_USERSPACE (data : list Z)
| OVS_ACTION_ATTR_SET (type : ovs_key_attr) (key : key_of type)
| OVS_ACTION_ATTR_PUSH_VLAN (vlan_tpid vlan_tci : Z)
| OVS_ACTION_ATTR_POP_VLAN
| OVS_ACTION_ATTR_SAMPLE (attrs : list ovs_sample_attr)
| OVS_ACTION_ATTR_RECIRC (id : Z)
| OVS_ACTION_ATTR_HASH (hash_alg hash_basis : Z)
| OVS_ACTION_ATTR_PUSH_MPLS (mpls_lse mpls_ethertype : Z)
| OVS_ACTION_ATTR_POP_MPLS (ethertype : Z)
| OVS_ACTION_ATTR_SET_MASKED (type : ovs_key_attr) (key mask : key_of type)
| OVS_ACTION_ATTR_CT (data : list Z)
| OVS_ACTION_ATTR_TUNNEL_PUSH (data : list Z)
| OVS_ACTION_ATTR_TUNNEL_POP (port : Z)
| OVS_ACTION_ATTR_UNSPEC
with ovs_sample_attr :=
| OVS_SAMPLE_ATTR_PROBABILITY (p : Z)
| OVS_SAMPLE_ATTR_ACTIONS (actions : list ovs_action)
| OVS_SAMPLE_ATTR_UNSPEC.

(** ** Packets *)

(** The metadata that actions can set. *)
Record pkt_metadata (Tnl : Type) := mkMd {
  recirc_id : Z;
  dp_hash : Z;
  skb_priority : Z;
  pkt_mark : Z;
  tunnel : Tnl;
}.
Arguments mkMd {Tnl}.
Arguments recirc_id {Tnl} _.
Arguments dp_hash {Tnl} _.
Arguments skb_priority {Tnl} _.
Arguments pkt_mark {Tnl} _.
Arguments tunnel {Tnl} _.

Record packet (Tnl : Type) := mkPkt {
  pframe : frame;
  md : pkt_metadata Tnl;
}.
Arguments mkPkt {Tnl}.
Arguments pframe {Tnl} _.
Arguments md {Tnl} _.

(** [key | (old & ~mask)] *)
Definition masked (key old mask : Z) : Z := Z.lor key (Z.land old (Z.lnot mask)).
Fixpoint masked_each (key old mask : list Z) : list Z :=
  match key, old, mask with
  | k :: key, o :: old, m :: mask => masked k o m :: masked_each key old mask
  | _, _, _ => []
  end.

(** ** Payloads (lib/dp-packet.h) *)

Definition SCTP_HEADER_LEN : Z := 12.
Definition ICMP_HEADER_LEN : Z := 8.
Definition TCP_OFFSET (tcp_ctl : Z) : Z := Z.shiftr (ntohs tcp_ctl) 12.

Definition dp_packet_get_tcp_payload (b : ip_packet) : outcome (option Z) :=
  let l4_size := dp_packet_l4_size (pkt b) in
  if TCP_HEADER_LEN <=? l4_size then
    let* tcp := deref (dp_packet_l4 (pkt b)) in
    let* tcp_ctl := peek16 b (tcp + 12) in
    let tcp_len := TCP_OFFSET tcp_ctl * 4 in
    if (TCP_HEADER_LEN <=? tcp_len) && (tcp_len <=? l4_size) then Ret (Some (tcp + tcp_len))
    else Ret None
  else Ret None.

Definition get_payload (header_len : Z) (b : ip_packet) : option Z :=
  if header_len <=? dp_packet_l4_size (pkt b)
  then (λ l4, l4 + header_len) <$> dp_packet_l4 (pkt b) else None.
Definition dp_packet_get_sctp_payload : ip_packet → option Z := get_payload SCTP_HEADER_LEN.
Definition dp_packet_get_icmp_payload : ip_packet → option Z := get_payload ICMP_HEADER_LEN.
Definition dp_packet_get_nd_payload : ip_packet → option Z := get_payload ND_MSG_LEN.

(** ** Setting header fields *)

Definition ether_addr_copy_masked (dst src mask : list Z) : list Z := masked_each src dst mask.

Definition set_ip (b : frame) (ip : ip_packet) : frame :=
  mkFrame ip (headroom b) (l2_5_ofs b) (source b).

(** The Ethernet header: the destination at 0, the source at 6. *)
Definition odp_eth_set_addrs (b : frame) (key : ovs_key_ethernet) (mask : option ovs_key_ethernet)
    : outcome frame :=
  match dp_packet_l2 b with
  | None => Ret b
  | Some eh =>
      let ip := fr_ip b in
      let* ip :=
        match mask with
        | None =>
            let* ip := put_eth_addr ip (eh + 6) (eth_src key) in
            put_eth_addr ip eh (eth_dst key)
        | Some mask =>
            let* old := get_eth_addr ip (eh + 6) in
            let* ip := put_eth_addr ip (eh + 6) (ether_addr_copy_masked old (eth_src key) (eth_src mask)) in
            let* old := get_eth_addr ip eh in
            put_eth_addr ip eh (ether_addr_copy_masked old (eth_dst key) (eth_dst mask))
        end in
      Ret (set_ip b ip)
  end.

Definition odp_set_ipv4 (packet : ip_packet) (key mask : ovs_key_ipv4) : outcome ip_packet :=
  let* nh := deref (dp_packet_l3 packet) in
  let* src := get_16aligned_be32 packet (nh + ip_src) in
  let* dst := get_16aligned_be32 packet (nh + ip_dst) in
  let* tos := peek8 packet (nh + ip_tos) in
  let* ttl := peek8 packet (nh + ip_ttl) in
  packet_set_ipv4 packet (masked (ipv4_src key) src (ipv4_src mask))
    (masked (ipv4_dst key) dst (ipv4_dst mask)) (masked (ipv4_tos key) tos (ipv4_tos mask))
    (masked (ipv4_ttl key) ttl (ipv4_ttl mask)).

Definition mask_ipv6_addr (old addr mask : list Z) : list Z := masked_each addr old mask.

Definition odp_set_ipv6 (packet : ip_packet) (key mask : ovs_key_ipv6) : outcome ip_packet :=
  let* nh := deref (dp_packet_l3 packet) in
  let* flow := get_16aligned_be32 packet (nh + ip6_flow) in
  let old_tc := u8 (Z.shiftr (ntohl flow) 20) in
  let old_fl := Z.land flow (ntohl 0xfffff) in
  let* src := get_in6_addr packet (nh + ip6_src) in
  let* dst := get_in6_addr packet (nh + ip6_dst) in
  let* hlim := peek8 packet (nh + ip6_hlim) in
  packet_set_ipv6 packet (mask_ipv6_addr src (ipv6_src key) (ipv6_src mask))
    (mask_ipv6_addr dst (ipv6_dst key) (ipv6_dst mask))
    (masked (ipv6_tclass key) old_tc (ipv6_tclass mask))
    (masked (ipv6_label key) old_fl (ipv6_label mask))
    (masked (ipv6_hlimit key) hlim (ipv6_hlimit mask)).

(** The ports at the start of the transport header. *)
Definition set_masked_ports (set_port : ip_packet → Z → Z → outcome ip_packet) (packet : ip_packet)
    (th : Z) (key mask : ovs_key_tp) : outcome ip_packet :=
  let* src := peek16 packet th in
  let* dst := peek16 packet (th + 2) in
  set_port packet (masked (key_tp_src key) src (key_tp_src mask))
    (masked (key_tp_dst key) dst (key_tp_dst mask)).

Definition odp_set_tcp (packet : ip_packet) (key mask : ovs_key_tp) : outcome ip_packet :=
  match dp_packet_l4 (pkt packet) with
  | None => Ret packet
  | Some th =>
      let* payload := dp_packet_get_tcp_payload packet in
      match payload with
      | None => Ret packet
      | Some _ => set_masked_ports packet_set_tcp_port packet th key mask
      end
  end.

Definition odp_set_udp (packet : ip_packet) (key mask : ovs_key_tp) : outcome ip_packet :=
  match dp_packet_l4 (pkt packet), dp_packet_get_udp_payload (pkt packet) with
  | Some uh, Some _ => set_masked_ports packet_set_udp_port packet uh key mask
  | _, _ => Ret packet
  end.

Definition odp_set_sctp (packet : ip_packet) (key mask : ovs_key_tp) : outcome ip_packet :=
  match dp_packet_l4 (pkt packet), dp_packet_get_sctp_payload packet with
  | Some sh, Some _ => set_masked_ports packet_set_sctp_port packet sh key mask
  | _, _ => Ret packet
  end.

(** The fields of [struct arp_eth_header]. *)
Definition ar_op : Z := 6.
Definition ar_sha : Z := 8.
Definition ar_spa : Z := 14.
Definition ar_tha : Z := 18.
Definition ar_tpa : Z := 24.

Definition set_arp (packet : ip_packet) (key : ovs_key_arp) (mask : option ovs_key_arp)
    : outcome ip_packet :=
  let* arp := deref (dp_packet_l3 packet) in
  match mask with
  | None =>
      let* packet := poke16 packet (arp + ar_op) (arp_op key) in
      let* packet := put_eth_addr packet (arp + ar_sha) (arp_sha key) in
      let* packet := put_16aligned_be32 packet (arp + ar_spa) (arp_sip key) in
      let* packet := put_eth_addr packet (arp + ar_tha) (arp_tha key) in
      put_16aligned_be32 packet (arp + ar_tpa) (arp_tip key)
  | Some mask =>
      let* spa := get_16aligned_be32 packet (arp + ar_spa) in
      let* tpa := get_16aligned_be32 packet (arp + ar_tpa) in
      let* op := peek16 packet (arp + ar_op) in
      let* packet := poke16 packet (arp + ar_op) (masked (arp_op key) op (arp_op mask)) in
      let* sha := get_eth_addr packet (arp + ar_sha) in
      let* packet := put_eth_addr packet (arp + ar_sha)
                       (ether_addr_copy_masked sha (arp_sha key) (arp_sha mask)) in
      let* packet := put_16aligned_be32 packet (arp + ar_spa) (masked (arp_sip key) spa (arp_sip mask)) in
      let* tha := get_eth_addr packet (arp + ar_tha) in
      let* packet := put_eth_addr packet (arp + ar_tha)
                       (ether_addr_copy_masked tha (arp_tha key) (arp_tha mask)) in
      put_16aligned_be32 packet (arp + ar_tpa) (masked (arp_tip key) tpa (arp_tip mask))
  end.

(** The loop of [odp_set_nd]: [sll_buf] and [tll_buf]. *)
Definition eth_addr_zero : list Z := [0; 0; 0].
Fixpoint odp_nd_loop (fuel : nat) (packet : ip_packet) (nd_opt bytes_remain : Z) (key mask : ovs_key_nd)
    : outcome (list Z * list Z) :=
  match fuel with
  | O => Diverge
  | S fuel =>
      if bytes_remain <? ND_OPT_LEN then Ret (eth_addr_zero, eth_addr_zero)
      else
        let* nd_opt_len := peek8 packet (nd_opt + 1) in
        if nd_opt_len =? 0 then Ret (eth_addr_zero, eth_addr_zero)
        else
          let* nd_opt_type := peek8 packet nd_opt in
          if (nd_opt_type =? ND_OPT_SOURCE_LINKADDR) && (nd_opt_len =? 1) then
            let* mac := get_eth_addr packet (nd_opt + 2) in
            Ret (ether_addr_copy_masked mac (nd_sll key) (nd_sll mask), eth_addr_zero)
          else if (nd_opt_type =? ND_OPT_TARGET_LINKADDR) && (nd_opt_len =? 1) then
            let* mac := get_eth_addr packet (nd_opt + 2) in
            Ret (eth_addr_zero, ether_addr_copy_masked mac (nd_tll key) (nd_tll mask))
          else
            let nd_opt := nd_opt + nd_opt_len * ND_OPT_LEN in
            let* nd_opt_len := peek8 packet (nd_opt + 1) in
            let* bytes_remain := int_ (bytes_remain - nd_opt_len * ND_OPT_LEN) in
            odp_nd_loop fuel packet nd_opt bytes_remain key mask
  end.

Definition odp_set_nd (packet : ip_packet) (key mask : ovs_key_nd) : outcome ip_packet :=
  match dp_packet_l4 (pkt packet), dp_packet_get_nd_payload packet with
  | Some ns, Some nd_opt =>
      let bytes_remain := (dp_packet_l4_size (pkt packet) - ND_MSG_LEN + 2 ^ 31) mod 2 ^ 32 - 2 ^ 31 in
      let* (sll_buf, tll_buf) := odp_nd_loop (S (length (pk_data (pkt packet)))) packet nd_opt
                                   bytes_remain key mask in
      let* target := get_in6_addr packet (ns + 8) in
      packet_set_nd packet (mask_ipv6_addr target (nd_target key) (nd_target mask)) sll_buf tll_buf
  | _, _ => Ret packet
  end.

(** ** Actions on one packet *)

Section Execute.
Context {Dp Tnl : Type}.
Implicit Types p : packet Tnl.
(** What is in memory that has just been allocated, [odp_tun_key_from_attr]
    ([None] is ODP_FIT_ERROR), and [flow_hash_5tuple] of [flow_extract]. *)
Variable uninit : nat → Z.
Variable odp_tun_key_from_attr : list Z → option Tnl.
Variable hash_5tuple : packet Tnl → Z → Z.

Definition on_frame p (b : outcome frame) : outcome (packet Tnl) :=
  let* b := b in Ret (mkPkt b (md p)).
Definition on_ip p (ip : outcome ip_packet) : outcome (packet Tnl) :=
  on_frame p (let* ip := ip in Ret (set_ip (pframe p) ip)).
Definition on_md p (m : pkt_metadata Tnl) : outcome (packet Tnl) := Ret (mkPkt (pframe p) m).

Definition set_skb_priority p v := on_md p (let m := md p in mkMd (recirc_id m) (dp_hash m) v (pkt_mark m) (tunnel m)).
Definition set_pkt_mark p v := on_md p (let m := md p in mkMd (recirc_id m) (dp_hash m) (skb_priority m) v (tunnel m)).
Definition set_dp_hash p v := on_md p (let m := md p in mkMd (recirc_id m) v (skb_priority m) (pkt_mark m) (tunnel m)).
Definition set_recirc_id p v := on_md p (let m := md p in mkMd v (dp_hash m) (skb_priority m) (pkt_mark m) (tunnel m)).

Definition odp_set_tunnel_action p (a : list Z) : outcome (packet Tnl) :=
  match odp_tun_key_from_attr a with
  | None => Fault AssertFail
  | Some t => on_md p (let m := md p in mkMd (recirc_id m) (dp_hash m) (skb_priority m) (pkt_mark m) t)
  end.

(** [if (payload) set] *)
Definition if_payload (payload : option Z) p (set : outcome ip_packet) : outcome (packet Tnl) :=
  match payload with Some _ => on_ip p set | None => Ret p end.

Definition odp_execute_set_action p (type : ovs_key_attr) : key_of type → outcome (packet Tnl) :=
  let b := pframe p in
  let ip := fr_ip b in
  match type with
  | OVS_KEY_ATTR_PRIORITY => λ v, set_skb_priority p v
  | OVS_KEY_ATTR_TUNNEL => λ a, odp_set_tunnel_action p a
  | OVS_KEY_ATTR_SKB_MARK => λ v, set_pkt_mark p v
  | OVS_KEY_ATTR_ETHERNET => λ key, on_frame p (odp_eth_set_addrs b key None)
  | OVS_KEY_ATTR_IPV4 => λ key,
      on_ip p (packet_set_ipv4 ip (ipv4_src key) (ipv4_dst key) (ipv4_tos key) (ipv4_ttl key))
  | OVS_KEY_ATTR_IPV6 => λ key,
      on_ip p (packet_set_ipv6 ip (ipv6_src key) (ipv6_dst key) (ipv6_tclass key) (ipv6_label key)
                 (ipv6_hlimit key))
  | OVS_KEY_ATTR_TCP => λ key,
      let* payload := dp_packet_get_tcp_payload ip in
      if_payload payload p (packet_set_tcp_port ip (key_tp_src key) (key_tp_dst key))
  | OVS_KEY_ATTR_UDP => λ key,
      if_payload (dp_packet_get_udp_payload (pkt ip)) p
        (packet_set_udp_port ip (key_tp_src key) (key_tp_dst key))
  | OVS_KEY_ATTR_SCTP => λ key,
      if_payload (dp_packet_get_sctp_payload ip) p
        (packet_set_sctp_port ip (key_tp_src key) (key_tp_dst key))
  | OVS_KEY_ATTR_MPLS => λ lse, on_frame p (set_mpls_lse b lse)
  | OVS_KEY_ATTR_ARP => λ key, on_ip p (set_arp ip key None)
  | OVS_KEY_ATTR_ICMP | OVS_KEY_ATTR_ICMPV6 => λ key,
      if_payload (dp_packet_get_icmp_payload ip) p (packet_set_icmp ip (icmp_type key) (icmp_code key))
  | OVS_KEY_ATTR_ND => λ key,
      if_payload (dp_packet_get_nd_payload ip) p
        (packet_set_nd ip (nd_target key) (nd_sll key) (nd_tll key))
  | OVS_KEY_ATTR_DP_HASH => λ v, set_dp_hash p v
  | OVS_KEY_ATTR_RECIRC_ID => λ v, set_recirc_id p v
  | _ => λ _, Fault AssertFail
  end.

Definition odp_execute_masked_set_action p (type : ovs_key_attr)
    : key_of type → key_of type → outcome (packet Tnl) :=
  let b := pframe p in
  let ip := fr_ip b in
  match type with
  | OVS_KEY_ATTR_PRIORITY => λ v m, set_skb_priority p (masked v (skb_priority (md p)) m)
  | OVS_KEY_ATTR_SKB_MARK => λ v m, set_pkt_mark p (masked v (pkt_mark (md p)) m)
  | OVS_KEY_ATTR_ETHERNET => λ key mask, on_frame p (odp_eth_set_addrs b key (Some mask))
  | OVS_KEY_ATTR_IPV4 => λ key mask, on_ip p (odp_set_ipv4 ip key mask)
  | OVS_KEY_ATTR_IPV6 => λ key mask, on_ip p (odp_set_ipv6 ip key mask)
  | OVS_KEY_ATTR_TCP => λ key mask, on_ip p (odp_set_tcp ip key mask)
  | OVS_KEY_ATTR_UDP => λ key mask, on_ip p (odp_set_udp ip key mask)
  | OVS_KEY_ATTR_SCTP => λ key mask, on_ip p (odp_set_sctp ip key mask)
  | OVS_KEY_ATTR_MPLS => λ lse mask,
      match dp_packet_l2_5 b with
      | None => Ret p
      | Some mh =>
          on_ip p (let* old := get_16aligned_be32 ip mh in
                   put_16aligned_be32 ip mh (masked lse old mask))
      end
  | OVS_KEY_ATTR_ARP => λ key mask, on_ip p (set_arp ip key (Some mask))
  | OVS_KEY_ATTR_ND => λ key mask, on_ip p (odp_set_nd ip key mask)
  | OVS_KEY_ATTR_DP_HASH => λ v m, set_dp_hash p (masked v (dp_hash (md p)) m)
  | OVS_KEY_ATTR_RECIRC_ID => λ v m, set_recirc_id p (masked v (recirc_id (md p)) m)
  | _ => λ _ _, Fault AssertFail
  end.

Definition OVS_HASH_ALG_L4 : Z := 0.

(** ** Batches of packets

    A slot of the array is empty once its packet was freed or handed over. *)
Abbreviation slot := (option (packet Tnl)).

Fixpoint for_packets (f : packet Tnl → outcome (packet Tnl)) (packets : list slot) : outcome (list slot) :=
  match packets with
  | [] => Ret []
  | None :: _ => Fault UseAfterFree
  | Some p :: l => let* p := f p in let* l := for_packets f l in Ret (Some p :: l)
  end.

Fixpoint live (packets : list slot) : outcome (list (packet Tnl)) :=
  match packets with
  | [] => Ret []
  | None :: _ => Fault UseAfterFree
  | Some p :: l => let* l := live l in Ret (p :: l)
  end.

(** [dp_packet_delete] of each. *)
Definition delete_packets (packets : list slot) : outcome (list slot) :=
  let* _ := live packets in Ret ((λ _, None) <$> packets).

Definition requires_datapath_assistance (a : ovs_action) : outcome bool :=
  match a with
  | OVS_ACTION_ATTR_OUTPUT _ | OVS_ACTION_ATTR_TUNNEL_PUSH _ | OVS_ACTION_ATTR_TUNNEL_POP _
  | OVS_ACTION_ATTR_USERSPACE _ | OVS_ACTION_ATTR_RECIRC _ | OVS_ACTION_ATTR_CT _ => Ret true
  | OVS_ACTION_ATTR_SET _ _ | OVS_ACTION_ATTR_SET_MASKED _ _ _ | OVS_ACTION_ATTR_PUSH_VLAN _ _
  | OVS_ACTION_ATTR_POP_VLAN | OVS_ACTION_ATTR_SAMPLE _ | OVS_ACTION_ATTR_HASH _ _
  | OVS_ACTION_ATTR_PUSH_MPLS _ _ | OVS_ACTION_ATTR_POP_MPLS _ => Ret false
  | OVS_ACTION_ATTR_UNSPEC => Fault AssertFail
  end.

(** The actions that change packets one by one. *)
Definition local_action (a : ovs_action) p : outcome (packet Tnl) :=
  let b := pframe p in
  match a with
  | OVS_ACTION_ATTR_HASH hash_alg hash_basis =>
      if hash_alg =? OVS_HASH_ALG_L4 then set_dp_hash p (hash_5tuple p hash_basis)
      else Fault AssertFail
  | OVS_ACTION_ATTR_PUSH_VLAN vlan_tpid vlan_tci => on_frame p (eth_push_vlan uninit b vlan_tpid vlan_tci)
  | OVS_ACTION_ATTR_POP_VLAN => on_frame p (eth_pop_vlan uninit b)
  | OVS_ACTION_ATTR_PUSH_MPLS mpls_lse mpls_ethertype =>
      on_frame p (push_mpls uninit b mpls_ethertype mpls_lse)
  | OVS_ACTION_ATTR_POP_MPLS ethertype => on_frame p (pop_mpls uninit b ethertype)
  | OVS_ACTION_ATTR_SET type key => odp_execute_set_action p type key
  | OVS_ACTION_ATTR_SET_MASKED type key mask => odp_execute_masked_set_action p type key mask
  | _ => Fault AssertFail
  end.

(** The callback is given the packets and may keep them when [may_steal]. *)
Variable dp_execute_action : option (Dp → list (packet Tnl) → ovs_action → bool → outcome (Dp * list (packet Tnl))).

(** The result of executing actions: the datapath, the state of the random
    number generator and the array of packets. *)
Definition result : Type := Dp * Z * list slot.

(** The attributes of a sample action: [None] when the packet is not sampled,
    else [subactions]. *)
Fixpoint sample_attrs (seed : Z) (attrs : list ovs_sample_attr) (subactions : option (list ovs_action))
    : outcome (Z * option (option (list ovs_action))) :=
  match attrs with
  | [] => Ret (seed, Some subactions)
  | OVS_SAMPLE_ATTR_PROBABILITY p :: attrs =>
      let seed := random_next seed in
      if p <=? seed then Ret (seed, None) else sample_attrs seed attrs subactions
  | OVS_SAMPLE_ATTR_ACTIONS l :: attrs => sample_attrs seed attrs (Some l)
  | OVS_SAMPLE_ATTR_UNSPEC :: _ => Fault AssertFail
  end.

Section Loops.
(** [odp_execute_actions] on the actions nested in a sample action. *)
Variable execute : Dp → Z → list slot → bool → list ovs_action → outcome result.

Definition odp_execute_sample (dp : Dp) (seed : Z) (packet : slot) (steal : bool)
    (action : list ovs_sample_attr) : outcome (Dp * Z * slot) :=
  let* (seed, subactions) := sample_attrs seed action None in
  match subactions with
  | None =>
      if steal then let* _ := live [packet] in Ret (dp, seed, None) else Ret (dp, seed, packet)
  | Some subactions =>
      let* subactions := deref subactions in
      let* (dp, seed, packets) := execute dp seed [packet] steal subactions in
      Ret (dp, seed, default None (head packets))
  end.

Fixpoint sample_packets (dp : Dp) (seed : Z) (packets : list slot) (steal : bool)
    (action : list ovs_sample_attr) : outcome result :=
  match packets with
  | [] => Ret (dp, seed, [])
  | p :: l =>
      let* (dp, seed, p) := odp_execute_sample dp seed p steal action in
      let* (dp, seed, l) := sample_packets dp seed l steal action in
      Ret (dp, seed, p :: l)
  end.

Fixpoint execute_loop (dp : Dp) (seed : Z) (packets : list slot) (steal : bool)
    (actions : list ovs_action) : outcome result :=
  match actions with
  | [] =>
      if steal then let* packets := delete_packets packets in Ret (dp, seed, packets)
      else Ret (dp, seed, packets)
  | a :: actions =>
      let last_action := match actions with [] => true | _ => false end in
      let* assist := requires_datapath_assistance a in
      if assist then
        match dp_execute_action with
        | Some execute_action =>
            let may_steal := steal && last_action in
            let* ps := live packets in
            let* (dp, ps) := execute_action dp ps a may_steal in
            let packets := if may_steal then (λ _, None) <$> packets else Some <$> ps in
            if last_action then Ret (dp, seed, packets)
            else execute_loop dp seed packets steal actions
        | None => execute_loop dp seed packets steal actions
        end
      else
        match a with
        | OVS_ACTION_ATTR_SAMPLE attrs =>
            let* (dp, seed, packets) := sample_packets dp seed packets (steal && last_action) attrs in
            if last_action then Ret (dp, seed, packets)
            else execute_loop dp seed packets steal actions
        | _ =>
            let* packets := for_packets (local_action a) packets in
            execute_loop dp seed packets steal actions
        end
  end.
End Loops.

(** The fuel bounds the nesting of sample actions. *)
Fixpoint odp_execute_actions (fuel : nat) : Dp → Z → list slot → bool → list ovs_action → outcome result :=
  match fuel with
  | O => λ _ _ _ _ _, Diverge
  | S fuel => execute_loop (odp_execute_actions fuel)
  end.
End Execute.
