(* ===== verification/OdpTyped.v ===== *)
(** * Operations on packets are total and typed

    A packet is good when all its bytes, those in its headroom included, are
    bytes.  Every operation on a good packet, whatever its arguments, ends: it
    returns a good packet, or it faults at an access outside the packet or at
    an assertion.  None of its loops runs out of fuel, and none frees memory. *)
From Stdlib Require Import ZArith Lia.
From stdpp Require Import base list numbers option.
From S2P Require Import Prelude Hash GtpWire GtpWireProofs Csum Packets PacketsProofs Tags OdpExecute.
Open Scope Z_scope.

(** ** Sound outcomes *)

Class Good (A : Type) := good : A → Prop.
#[export] Instance good_Z : Good Z := λ _, True.
#[export] Instance good_bool : Good bool := λ _, True.
#[export] Instance good_unit : Good unit := λ _, True.
#[export] Instance good_list : Good (list Z) := λ _, True.
#[export] Instance good_option : Good (option Z) := λ _, True.
#[export] Instance good_prod {A B} `{Good A} `{Good B} : Good (A * B) := λ x, good x.1 ∧ good x.2.
#[export] Instance good_ip : Good ip_packet := ok.
#[export] Instance good_frame : Good frame := λ b, ok (fr_ip b) ∧ Forall is_byte (headroom b).

(** [c] ends, without touching freed memory; a result satisfies [Q]. *)
Definition ends {A} (c : outcome A) (Q : A → Prop) : Prop :=
  match c with
  | Ret a => Q a
  | Fault f => f ≠ UseAfterFree
  | Diverge => False
  end.
Definition sound {A} `{Good A} (c : outcome A) : Prop := ends c good.

Lemma ends_bind {A B} (c : outcome A) (k : A → outcome B) P Q :
  ends c P → (∀ a, P a → ends (k a) Q) → ends (obind c k) Q.
Proof. destruct c; simpl; auto. Qed.

Create HintDb sound.

Lemma sound_Ret {A} `{Good A} (a : A) : good a → sound (Ret a).
Proof. done. Qed.
Lemma sound_bind {A B} `{Good A} `{Good B} (c : outcome A) (k : A → outcome B) :
  sound c → (∀ a, good a → sound (k a)) → sound (obind c k).
Proof. apply ends_bind. Qed.
Lemma sound_deref {A} `{Good A} (p : option A) : (∀ a, p = Some a → good a) → sound (deref p).
Proof. destruct p; simpl; auto. Qed.
Lemma sound_deref_Z (p : option Z) : sound (deref p).
Proof. by destruct p. Qed.
Lemma sound_assert c : sound (ovs_assert c).
Proof. by destruct c. Qed.
Lemma good_Z_True (x : Z) : good x.
Proof. done. Qed.
Lemma good_list_True (x : list Z) : good x.
Proof. done. Qed.
Lemma good_option_True (x : option Z) : good x.
Proof. done. Qed.
Lemma good_pair {A B} `{Good A} `{Good B} (a : A) (b : B) : good a → good b → good (a, b).
Proof. done. Qed.
#[export] Hint Resolve sound_Ret sound_deref_Z sound_assert good_Z_True good_list_True good_option_True good_pair : sound.

(** Every branch of a definition, by the lemmas for the functions it calls. *)
Ltac sound_step :=
  match goal with
  | |- sound (obind _ _) => apply sound_bind; [|intros ? ?]
  | |- sound (Fault _) => done
  | H : good (_, _) |- _ => destruct H as [? ?]; cbn [fst snd] in *
  | |- sound (let '_ := ?x in _) => destruct x
  | |- sound (if ?c then _ else _) => destruct c
  | |- sound (match ?x with _ => _ end) => destruct x
  | |- ∀ _, _ => intros ?
  | |- _ => solve [eauto with sound]
  end.
Ltac solve_sound := repeat (cbn beta zeta; sound_step).

(** ** Loads and stores *)

Lemma good_write16 b p v : good b → good (write16 b p v).
Proof. apply ok_write16. Qed.
#[export] Hint Resolve good_write16 : sound.

Lemma sound_peek8 b p : sound (peek8 b p).
Proof. unfold peek8. solve_sound. Qed.
Lemma sound_peek16 b p : sound (peek16 b p).
Proof. unfold peek16. solve_sound. Qed.
Lemma sound_poke8 b p v : good b → sound (poke8 b p v).
Proof.
  intros. unfold poke8. destruct (inside b p 1); [|done]. apply ok_write8; [done|]. apply Z.mod_pos_bound. lia.
Qed.
Lemma sound_poke16 b p v : good b → sound (poke16 b p v).
Proof. intros. unfold poke16. solve_sound. Qed.
Lemma sound_int_ x : sound (int_ x).
Proof. unfold int_. solve_sound. Qed.
#[export] Hint Resolve sound_peek8 sound_peek16 sound_poke8 sound_poke16 sound_int_ : sound.

Lemma sound_get_be32 b p : sound (get_16aligned_be32 b p).
Proof. unfold get_16aligned_be32. solve_sound. Qed.
Lemma sound_put_be32 b p v : good b → sound (put_16aligned_be32 b p v).
Proof. intros. unfold put_16aligned_be32. solve_sound. Qed.
#[export] Hint Resolve sound_get_be32 sound_put_be32 : sound.

Lemma sound_get_each get size n b p : (∀ b p, sound (get b p)) → sound (get_each get size n b p).
Proof. intros Hg. revert p. induction n as [|n IH]; intros p; cbn [get_each]; solve_sound. Qed.
Lemma sound_put_each put size b p l :
  (∀ b p v, good b → sound (put b p v)) → good b → sound (put_each put size b p l).
Proof. intros Hg. revert b p. induction l as [|v l IH]; intros b p Hb; cbn [put_each]; solve_sound. Qed.
#[export] Hint Resolve sound_get_each sound_put_each : sound.
Lemma sound_get_in6 b p : sound (get_in6_addr b p).
Proof. unfold get_in6_addr. solve_sound. Qed.
Lemma sound_put_in6 b p v : good b → sound (put_in6_addr b p v).
Proof. intros. unfold put_in6_addr. solve_sound. Qed.
Lemma sound_get_eth b p : sound (get_eth_addr b p).
Proof. unfold get_eth_addr. solve_sound. Qed.
Lemma sound_put_eth b p v : good b → sound (put_eth_addr b p v).
Proof. intros. unfold put_eth_addr. solve_sound. Qed.
#[export] Hint Resolve sound_get_in6 sound_put_in6 sound_get_eth sound_put_eth : sound.

(** ** Checksums *)

(** Two rounds are enough for 32 bits, whatever they are. *)
Lemma fold_round x : 0 ≤ x < 2 ^ 32 →
  0 ≤ u32 (Z.land x 0xffff + Z.shiftr x 16) < 2 ^ 32 ∧
  (x < 2 ^ 17 → u32 (Z.land x 0xffff + Z.shiftr x 16) ≤ 2 ^ 16) ∧
  u32 (Z.land x 0xffff + Z.shiftr x 16) ≤ 2 ^ 17 - 2 ∧
  (x ≤ 2 ^ 17 - 2 → u32 (Z.land x 0xffff + Z.shiftr x 16) < 2 ^ 16).
Proof.
  intros Hx. change 0xffff with (Z.ones 16). rewrite Z.land_ones, Z.shiftr_div_pow2 by lia.
  unfold u32. Z.to_euclidean_division_equations. lia.
Qed.
Lemma sound_fold x : 0 ≤ x < 2 ^ 32 → sound (fold_carries 2 x).
Proof.
  intros Hx. destruct (fold_round x Hx) as (H1 & _ & H2 & _). cbn [fold_carries].
  destruct (Z.shiftr x 16 =? 0); [done|]. set (y := u32 _) in *.
  destruct (fold_round y H1) as (_ & _ & _ & H3). destruct (Z.shiftr y 16 =? 0); [done|].
  specialize (H3 H2). set (z := u32 (Z.land y _ + _)) in *.
  assert (0 ≤ z) by (apply Z.mod_pos_bound; lia).
  by rewrite (Z.shiftr_div_pow2 z 16), (Z.div_small z) by lia.
Qed.
Lemma sound_finish x : 0 ≤ x < 2 ^ 32 → sound (csum_finish x).
Proof. intros. unfold csum_finish. apply sound_bind; [by apply sound_fold|solve_sound]. Qed.
Lemma sound_recalc16 c o n : sound (recalc_csum16 c o n).
Proof. unfold recalc_csum16. apply sound_finish, Z.mod_pos_bound. lia. Qed.
#[export] Hint Resolve sound_recalc16 : sound.
Lemma sound_recalc32 c o n : sound (recalc_csum32 c o n).
Proof. unfold recalc_csum32. solve_sound. Qed.
#[export] Hint Resolve sound_recalc32 : sound.
Lemma sound_recalc_each recalc c l : (∀ c o n, sound (recalc c o n)) → sound (recalc_each recalc c l).
Proof. intros Hr. revert c. induction l as [|[o n] l IH]; intros c; cbn [recalc_each]; solve_sound. Qed.
#[export] Hint Resolve sound_recalc_each : sound.
Lemma sound_update16 b p f : good b → (∀ c, sound (f c)) → sound (update16 b p f).
Proof. intros. unfold update16. solve_sound. Qed.
#[export] Hint Resolve sound_update16 : sound.
Lemma sound_update_udp b p f : good b → (∀ c, sound (f c)) → sound (update_udp b p f).
Proof. intros. unfold update_udp. solve_sound. Qed.
#[export] Hint Resolve sound_update_udp : sound.

(** ** Setting header fields *)

Lemma sound_l4 b : sound (l4 b).
Proof. apply sound_deref_Z. Qed.
#[export] Hint Resolve sound_l4 : sound.

Lemma sound_set_ipv4_addr b a v : good b → sound (packet_set_ipv4_addr b a v).
Proof. intros. unfold packet_set_ipv4_addr. solve_sound. Qed.
#[export] Hint Resolve sound_set_ipv4_addr : sound.
Lemma sound_set_ipv4 b s d t l : good b → sound (packet_set_ipv4 b s d t l).
Proof. intros. unfold packet_set_ipv4. solve_sound. Qed.
#[export] Hint Resolve sound_set_ipv4 : sound.

(** A load at [p] that succeeds is inside of the packet. *)
Lemma peek8_inside b p v : ok b → peek8 b p = Ret v → 0 ≤ p < psize b ∧ 0 ≤ v < 256.
Proof.
  intros Hb. unfold peek8, inside. destruct (Z.leb_spec 0 p); cbn [andb]; [|done].
  destruct (Z.leb_spec (p + 1) (dp_packet_size (pkt b))); [|done]. intros [= <-].
  split; [unfold psize; lia|by apply byte_ok].
Qed.
Lemma sound_peek8_then {B} `{Good B} b p (k : Z → outcome B) : ok b →
  (∀ v, 0 ≤ p < psize b → 0 ≤ v < 256 → sound (k v)) → sound (obind (peek8 b p) k).
Proof.
  intros Hb Hk. destruct (peek8 b p) as [v|f|] eqn:E; cbn [obind].
  - apply peek8_inside in E as [Hp Hv]; auto.
  - pose proof (sound_peek8 b p) as Hs. by rewrite E in Hs.
  - pose proof (sound_peek8 b p) as Hs. by rewrite E in Hs.
Qed.

(** The extension headers: each round reads a byte and moves on by at least 8. *)
Lemma sound_rh_loop fuel b data remaining nexthdr : good b →
  (0 < fuel)%nat → (data < -8 ∨ psize b - data < Z.of_nat fuel) → sound (rh_loop fuel b data remaining nexthdr).
Proof.
  intros Hb. revert data remaining nexthdr. induction fuel as [|fuel IH]; intros data remaining nexthdr Hf Hd; [lia|].
  cbn [rh_loop]. destruct (negb _); [done|]. destruct (remaining <? 8); [done|].
  assert (∀ nxt n, 0 ≤ data + 3 < psize b + 3 → 8 ≤ n →
    sound (if remaining <? n then Ret (false, nxt) else rh_loop fuel b (data + n) (remaining - n) nxt)) as Hnext.
  { intros nxt n Hi Hn. destruct (remaining <? n); [done|]. apply IH; lia. }
  repeat match goal with |- sound (if ?c then _ else _) => destruct c end;
    repeat (apply sound_peek8_then; [done|]; intros ? ? ?; try (destruct (0 <? _); [done|]));
    first [apply Hnext; lia | apply IH; lia].
Qed.
Lemma sound_rh_present b n : good b → sound (packet_rh_present b n).
Proof.
  intros Hb. unfold packet_rh_present. destruct (_ <? 40); [done|]. apply sound_bind; [solve_sound|]. intros data _.
  apply sound_peek8_then; [done|]. intros nxt Hp _. apply sound_rh_loop; [done|lia|].
  right. unfold ip6_nxt, psize, dp_packet_size in *. lia.
Qed.
#[export] Hint Resolve sound_rh_present : sound.

Lemma sound_csum128 b p a v : good b → sound (packet_update_csum128 b p a v).
Proof.
  intros. unfold packet_update_csum128, recalc_csum128.
  solve_sound; (apply sound_update16 || apply sound_update_udp); solve_sound.
Qed.
#[export] Hint Resolve sound_csum128 : sound.
Lemma sound_set_ipv6_addr b p a v r : good b → sound (packet_set_ipv6_addr b p a v r).
Proof. intros. unfold packet_set_ipv6_addr. solve_sound. Qed.
#[export] Hint Resolve sound_set_ipv6_addr : sound.
Lemma sound_set_ipv6 b s d t l h : good b → sound (packet_set_ipv6 b s d t l h).
Proof. intros. unfold packet_set_ipv6, packet_set_ipv6_tc, packet_set_ipv6_flow_label. solve_sound. Qed.

Lemma sound_set_port b p n c : good b → sound (packet_set_port b p n c).
Proof. intros. unfold packet_set_port. solve_sound. Qed.
#[export] Hint Resolve sound_set_ipv6 sound_set_port : sound.
Lemma sound_set_tcp b s d : good b → sound (packet_set_tcp_port b s d).
Proof. intros. unfold packet_set_tcp_port. solve_sound. Qed.
Lemma sound_set_udp b s d : good b → sound (packet_set_udp_port b s d).
Proof. intros. unfold packet_set_udp_port. solve_sound. Qed.
Lemma sound_peek_bytes b p n : sound (peek_bytes b p n).
Proof. unfold peek_bytes. solve_sound. Qed.
#[export] Hint Resolve sound_peek_bytes : sound.
Lemma sound_set_sctp b s d : good b → sound (packet_set_sctp_port b s d).
Proof. intros. unfold packet_set_sctp_port. solve_sound. Qed.
Lemma sound_set_icmp b t c : good b → sound (packet_set_icmp b t c).
Proof. intros. unfold packet_set_icmp. solve_sound. Qed.
#[export] Hint Resolve sound_set_tcp sound_set_udp sound_set_sctp sound_set_icmp : sound.

(** The options of neighbor discovery: as the extension headers, although the
    length is read twice. *)
Lemma sound_nd_opt b ns o mac : good b → sound (set_nd_opt b ns o mac).
Proof. intros. unfold set_nd_opt, recalc_csum48. solve_sound. Qed.
#[export] Hint Resolve sound_nd_opt : sound.
Lemma sound_nd_loop fuel b ns nd_opt r s t : good b →
  (0 < fuel)%nat → (nd_opt < -1 ∨ psize b - nd_opt ≤ Z.of_nat fuel) → sound (nd_loop fuel b ns nd_opt r s t).
Proof.
  intros Hb. revert nd_opt r. induction fuel as [|fuel IH]; intros nd_opt r Hf Ho; [lia|].
  cbn [nd_loop]. destruct (r <? ND_OPT_LEN); [done|]. apply sound_peek8_then; [done|]. intros len Hp Hlen.
  destruct (Z.eqb_spec len 0); [done|]. apply sound_bind; [solve_sound|]. intros ty _.
  destruct (_ && _); [solve_sound|]. destruct (_ && _); [solve_sound|].
  apply sound_bind; [solve_sound|]. intros len' _. apply sound_bind; [solve_sound|]. intros r' _.
  apply IH; unfold ND_OPT_LEN; lia.
Qed.
Lemma sound_set_nd b g s t : good b → sound (packet_set_nd b g s t).
Proof.
  intros. unfold packet_set_nd. cbv zeta. destruct (_ <? _); [done|].
  apply sound_bind; [solve_sound|]. intros ns _. apply sound_bind; [solve_sound|]. intros old _.
  apply sound_bind; [solve_sound|]. intros b' Hb'. apply sound_nd_loop; [done|lia|].
  unfold psize, dp_packet_size, ND_MSG_LEN. lia.
Qed.
#[export] Hint Resolve sound_set_nd : sound.

(** ** Tags *)

Definition bytes_only : list Z → Prop := Forall is_byte.

Lemma is_byte_mod x : is_byte (x mod 2 ^ 8).
Proof. apply Z.mod_pos_bound. lia. Qed.
Lemma bytes16_only v : bytes_only (bytes16 v).
Proof. repeat constructor; apply is_byte_mod. Qed.
Lemma bytes32_only v : bytes_only (bytes32 v).
Proof. apply Forall_app. split; apply bytes16_only. Qed.
#[export] Hint Resolve bytes16_only bytes32_only : sound.

Lemma good_set_frame_data b l : good b → bytes_only l → good (set_frame_data b l).
Proof. intros [_ Hh] Hl. by split. Qed.
Lemma good_l2_5 (b : frame) o : good b → good (set_l2_5_ofs b o).
Proof. done. Qed.
#[export] Hint Resolve good_l2_5 : sound.

Lemma sound_memmove b d s n : good b → sound (fr_memmove b d s n).
Proof.
  intros Hb. unfold fr_memmove. destruct (_ && _); [|done]. apply good_set_frame_data; [done|]. destruct Hb as [Hb _].
  repeat (apply Forall_app; split); repeat first [apply Forall_take | apply Forall_drop]; exact Hb.
Qed.
Lemma sound_store b p l : good b → bytes_only l → sound (fr_store b p l).
Proof.
  intros Hb Hl. unfold fr_store. destruct (inside _ _ _); [|done]. apply good_set_frame_data; [done|]. destruct Hb as [Hb _].
  apply Forall_app. split; [by apply Forall_take|]. apply Forall_app. split; [done|]. by apply Forall_drop.
Qed.
#[export] Hint Resolve sound_memmove sound_store : sound.

Lemma sound_set_ethertype b t : good b → sound (set_ethertype b t).
Proof. intros. unfold set_ethertype. solve_sound. Qed.
Lemma sound_set_mpls_lse b l : good b → sound (set_mpls_lse b l).
Proof. intros. unfold set_mpls_lse. solve_sound. Qed.
#[export] Hint Resolve sound_set_ethertype sound_set_mpls_lse : sound.

Section Tags.
Context (uninit : nat → Z) (Huninit : ∀ i, is_byte (uninit i)).

Lemma sound_resize b n : good b → sound (dp_packet_resize__ uninit b n).
Proof.
  intros [Hb Hh]. unfold dp_packet_resize__. destruct (source b); try done; split; [done| |done|]; cbn [headroom].
  all: apply Forall_app; split; [|by apply Forall_drop].
  all: apply Forall_fmap, Forall_forall; intros i _; apply Huninit.
Qed.
Hint Resolve sound_resize : sound.
Lemma sound_prealloc b n : good b → sound (dp_packet_prealloc_headroom uninit b n).
Proof. intros. unfold dp_packet_prealloc_headroom. solve_sound. Qed.
Hint Resolve sound_prealloc : sound.
Lemma sound_push_uninit b n : good b → sound (dp_packet_push_uninit uninit b n).
Proof.
  intros. unfold dp_packet_push_uninit. apply sound_bind; [solve_sound|]. intros b' [Hb Hh]. split.
  - apply Forall_app. split; [by apply Forall_drop|exact Hb].
  - by apply Forall_take.
Qed.
Lemma sound_pull b n : good b → sound (dp_packet_pull b n).
Proof.
  intros [Hb Hh]. unfold dp_packet_pull. apply sound_bind; [solve_sound|]. intros _ _. split.
  - by apply Forall_drop.
  - apply Forall_app. split; [done|by apply Forall_take].
Qed.
Hint Resolve sound_push_uninit sound_pull : sound.
Lemma sound_resize_l2_5 b i : good b → sound (dp_packet_resize_l2_5 uninit b i).
Proof. intros. unfold dp_packet_resize_l2_5. apply sound_bind; [solve_sound|]. done. Qed.
Hint Resolve sound_resize_l2_5 : sound.
Lemma sound_resize_l2 b i : good b → sound (dp_packet_resize_l2 uninit b i).
Proof. intros. unfold dp_packet_resize_l2. solve_sound. Qed.
Hint Resolve sound_resize_l2 : sound.
Lemma sound_push_vlan b t i : good b → sound (eth_push_vlan uninit b t i).
Proof. intros. unfold eth_push_vlan. solve_sound. Qed.
Lemma sound_pop_vlan b : good b → sound (eth_pop_vlan uninit b).
Proof. intros. unfold eth_pop_vlan. solve_sound. Qed.
Lemma sound_push_mpls b t l : good b → sound (push_mpls uninit b t l).
Proof. intros. unfold push_mpls. destruct (negb (eth_type_mpls t)); [done|]. destruct (negb (is_mpls b)); solve_sound. Qed.
Lemma sound_pop_mpls b t : good b → sound (pop_mpls uninit b t).
Proof.
  intros. unfold pop_mpls. destruct (is_mpls b); [|done].
  apply sound_bind; [solve_sound|]. intros mh _. apply sound_bind; [solve_sound|]. intros b' Hb'.
  apply sound_bind; [solve_sound|]. intros lse _. destruct (negb _); solve_sound.
Qed.
End Tags.
#[export] Hint Resolve sound_push_vlan sound_pop_vlan sound_push_mpls sound_pop_mpls : sound.

(** ** lib/odp-execute.c *)

Lemma good_ip_of b : good b → good (fr_ip b).
Proof. by intros []. Qed.
Lemma good_set_ip b ip : good b → good ip → good (set_ip b ip).
Proof. intros [_ ?] ?. by split. Qed.
#[export] Hint Resolve good_ip_of good_set_ip : sound.

Lemma sound_eth_set_addrs b k m : good b → sound (odp_eth_set_addrs b k m).
Proof. intros. unfold odp_eth_set_addrs. solve_sound. Qed.
Lemma sound_odp_set_ipv4 b k m : good b → sound (odp_set_ipv4 b k m).
Proof. intros. unfold odp_set_ipv4. solve_sound. Qed.
Lemma sound_odp_set_ipv6 b k m : good b → sound (odp_set_ipv6 b k m).
Proof. intros. unfold odp_set_ipv6. solve_sound. Qed.
Lemma sound_tcp_payload b : sound (dp_packet_get_tcp_payload b).
Proof. unfold dp_packet_get_tcp_payload. solve_sound. Qed.
Lemma sound_masked_ports set b th k m : good b →
  (∀ b s d, good b → sound (set b s d)) → sound (set_masked_ports set b th k m).
Proof. intros. unfold set_masked_ports. solve_sound. Qed.
#[export] Hint Resolve sound_eth_set_addrs sound_odp_set_ipv4 sound_odp_set_ipv6 sound_tcp_payload
  sound_masked_ports : sound.
Lemma sound_odp_set_tcp b k m : good b → sound (odp_set_tcp b k m).
Proof. intros. unfold odp_set_tcp. solve_sound. Qed.
Lemma sound_odp_set_udp b k m : good b → sound (odp_set_udp b k m).
Proof. intros. unfold odp_set_udp. solve_sound. Qed.
Lemma sound_odp_set_sctp b k m : good b → sound (odp_set_sctp b k m).
Proof. intros. unfold odp_set_sctp. solve_sound. Qed.
Lemma sound_set_arp b k m : good b → sound (set_arp b k m).
Proof. intros. unfold set_arp. solve_sound. Qed.
#[export] Hint Resolve sound_odp_set_tcp sound_odp_set_udp sound_odp_set_sctp sound_set_arp : sound.
Lemma sound_odp_nd_loop fuel b nd_opt r k m : good b →
  (0 < fuel)%nat → (nd_opt < -1 ∨ psize b - nd_opt ≤ Z.of_nat fuel) → sound (odp_nd_loop fuel b nd_opt r k m).
Proof.
  intros Hb. revert nd_opt r. induction fuel as [|fuel IH]; intros nd_opt r Hf Ho; [lia|].
  cbn [odp_nd_loop]. destruct (r <? ND_OPT_LEN); [done|]. apply sound_peek8_then; [done|]. intros len Hp Hlen.
  destruct (Z.eqb_spec len 0); [done|]. apply sound_bind; [solve_sound|]. intros ty _.
  destruct (_ && _); [solve_sound|]. destruct (_ && _); [solve_sound|].
  apply sound_bind; [solve_sound|]. intros len' _. apply sound_bind; [solve_sound|]. intros r' _.
  apply IH; unfold ND_OPT_LEN; lia.
Qed.
Lemma sound_odp_set_nd b k m : good b → sound (odp_set_nd b k m).
Proof.
  intros Hb. unfold odp_set_nd. destruct (dp_packet_l4 (pkt b)) as [ns|] eqn:E; [|done].
  destruct (dp_packet_get_nd_payload b) as [o|] eqn:Eo; [|done].
  apply sound_bind; [|intros [sll tll] _; solve_sound]. apply sound_odp_nd_loop; [done|lia|].
  unfold psize, dp_packet_size. lia.
Qed.
#[export] Hint Resolve sound_odp_set_nd : sound.

(** ** One action on one packet *)

#[export] Instance good_packet {Tnl} : Good (packet Tnl) := λ p, good (pframe p).

Section Local.
Context {Tnl : Type}.
Implicit Types p : packet Tnl.
Context (uninit : nat → Z) (Huninit : ∀ i, is_byte (uninit i)).
Variable odp_tun_key_from_attr : list Z → option Tnl.
Variable hash_5tuple : packet Tnl → Z → Z.

Lemma good_pframe p : good p → good (pframe p).
Proof. done. Qed.
Lemma sound_on_frame p c : sound c → sound (on_frame p c).
Proof. intros. unfold on_frame. apply sound_bind; [done|]. by intros b Hb. Qed.
Lemma sound_on_ip p c : good p → sound c → sound (on_ip p c).
Proof. intros. unfold on_ip. apply sound_on_frame, sound_bind; [done|]. intros ip Hip. by apply good_set_ip. Qed.
Lemma sound_if_payload o p c : good p → sound c → sound (if_payload o p c).
Proof. intros. unfold if_payload. destruct o; [by apply sound_on_ip|done]. Qed.
Lemma sound_on_md p m : good p → sound (on_md p m).
Proof. done. Qed.
Hint Resolve good_pframe sound_on_frame sound_on_ip sound_if_payload sound_on_md : sound.

Lemma sound_local a p : good p → sound (local_action uninit odp_tun_key_from_attr hash_5tuple a p).
Proof.
  intros Hp. destruct a as [| |type key| | | | | | | |type key mask| | | |]; cbn [local_action]; try solve [solve_sound].
  - destruct type; cbn [odp_execute_set_action];
      unfold set_skb_priority, set_pkt_mark, set_dp_hash, set_recirc_id, odp_set_tunnel_action; solve_sound.
  - destruct type; cbn [odp_execute_masked_set_action];
      unfold set_skb_priority, set_pkt_mark, set_dp_hash, set_recirc_id; solve_sound.
    apply sound_on_ip; solve_sound.
Qed.
End Local.
