(* ===== verification/OdpExecuteProofs.v ===== *)
(** * Executing actions: lemmas *)
From Stdlib Require Import ZArith Lia.
From stdpp Require Import base list numbers option.
From S2P Require Import Prelude Hash GtpWire GtpWireProofs Csum Packets PacketsProofs Tags OdpExecute OdpTyped.
Open Scope Z_scope.

(** ** Who owns the packets *)

(** Nesting of sample actions. *)
Fixpoint depth (a : ovs_action) : nat :=
  match a with
  | OVS_ACTION_ATTR_SAMPLE attrs => S (list_max (List.map depth_attr attrs))
  | _ => O
  end
with depth_attr (s : ovs_sample_attr) : nat :=
  match s with
  | OVS_SAMPLE_ATTR_ACTIONS l => list_max (List.map depth l)
  | _ => O
  end.
Definition depths (l : list ovs_action) : nat := list_max (List.map depth l).

Section Execute.
Context {Dp Tnl : Type}.
Implicit Types (p : packet Tnl) (dp : Dp).
Context (uninit : nat → Z) (Huninit : ∀ i, is_byte (uninit i)).
Variable odp_tun_key_from_attr : list Z → option Tnl.
Variable hash_5tuple : packet Tnl → Z → Z.
Variable dp_execute_action : option (Dp → list (packet Tnl) → ovs_action → bool → outcome (Dp * list (packet Tnl))).

Abbreviation local := (local_action uninit odp_tun_key_from_attr hash_5tuple).
Abbreviation loop := (execute_loop uninit odp_tun_key_from_attr hash_5tuple dp_execute_action).
Abbreviation execute := (odp_execute_actions uninit odp_tun_key_from_attr hash_5tuple dp_execute_action).

(** What the callback promises, for good packets: it ends, and it returns as
    many good packets as it was given unless it may keep them. *)
Definition callback_ok : Prop :=
  match dp_execute_action with
  | None => True
  | Some f => ∀ dp ps a steal, Forall good ps →
      ends (f dp ps a steal) (λ r, Forall good r.2 ∧ (steal = false → length r.2 = length ps))
  end.

(** All of [n] packets are gone, or all are there and good. *)
Definition handed_over (steal : bool) (n : nat) (packets : list (option (packet Tnl))) : Prop :=
  if steal then packets = replicate n None
  else ∃ ps, packets = Some <$> ps ∧ length ps = n ∧ Forall good ps.
Definition owned (steal : bool) (n : nat) (r : outcome (@result Dp Tnl)) : Prop :=
  ends r (λ '(_, _, packets), handed_over steal n packets).

Lemma live_Some (ps : list (packet Tnl)) : live (Some <$> ps) = Ret ps.
Proof. induction ps as [|p ps IH]; [done|]. cbn. by rewrite IH. Qed.
Lemma gone_all {A B} (l : list A) : (λ _, None : option B) <$> l = replicate (length l) None.
Proof. induction l as [|x l IH]; [done|]. cbn. by rewrite IH. Qed.

Lemma for_packets_Some f (ps : list (packet Tnl)) l :
  for_packets f (Some <$> ps) = Ret l ↔ ∃ ps', l = Some <$> ps' ∧ Forall2 (λ p p', f p = Ret p') ps ps'.
Proof.
  revert l. induction ps as [|p ps IH]; intros l; cbn [for_packets fmap list_fmap].
  - split; [intros [= <-]; by exists []|]. intros (ps' & -> & H). by inversion H.
  - rewrite obind_Ret. setoid_rewrite obind_Ret. setoid_rewrite IH. split.
    + intros (p' & Hp & l' & (ps' & -> & H) & [= <-]). exists (p' :: ps'). split; [done|by constructor].
    + intros (ps' & -> & H). apply Forall2_cons_inv_l in H as (p' & ps'' & Hp & H' & ->).
      exists p'. split; [done|]. exists (Some <$> ps''). split; [by exists ps''|done].
Qed.

Lemma for_packets_good f (ps : list (packet Tnl)) : (∀ p, good p → sound (f p)) → Forall good ps →
  ends (for_packets f (Some <$> ps)) (λ l, ∃ ps', l = Some <$> ps' ∧ length ps' = length ps ∧ Forall good ps').
Proof.
  intros Hf. induction 1 as [|p ps Hp _ IH]; cbn [for_packets fmap list_fmap]; [by exists []|].
  apply ends_bind with good; [by apply Hf|]. intros p' Hp'. eapply ends_bind; [exact IH|].
  intros l (ps' & -> & Hl & Hg). exists (p' :: ps'). split; [done|]. split; [simpl; by rewrite Hl|by constructor].
Qed.

Lemma depths_cons a l : depths (a :: l) = (depth a `max` depths l)%nat.
Proof. done. Qed.

Lemma subactions_in seed attrs o seed' l :
  sample_attrs seed attrs o = Ret (seed', Some (Some l)) →
  o = Some l ∨ (depths l ≤ list_max (List.map depth_attr attrs))%nat.
Proof.
  revert seed o. induction attrs as [|[q|l'|] attrs IH]; intros seed o; cbn [sample_attrs]; [naive_solver|..|done].
  - destruct (q <=? random_next seed); [done|]. intros H. destruct (IH _ _ H) as [?|?]; [by left|right; simpl; lia].
  - intros H. right. change (list_max _) with (depths l' `max` list_max (List.map depth_attr attrs))%nat.
    destruct (IH _ _ H) as [[= ->]|?]; lia.
Qed.

Section Sample.
Variable sub : Dp → Z → list (option (packet Tnl)) → bool → list ovs_action → outcome (@result Dp Tnl).

Lemma sample_attrs_ends seed attrs o : ends (sample_attrs seed attrs o) (λ _, True).
Proof.
  revert seed o. induction attrs as [|[q|l|] attrs IH]; intros seed o; cbn [sample_attrs]; try done.
  destruct (q <=? random_next seed); [done|apply IH].
Qed.

(** The nested actions of [n] levels hand over their packet. *)
Definition sub_owned (n : nat) : Prop := ∀ dp seed p steal l,
  good p → (depths l < n)%nat → owned steal 1 (sub dp seed [Some p] steal l).

Lemma sample_owned n dp seed p steal attrs : sub_owned n → good p → (list_max (List.map depth_attr attrs) < n)%nat →
  ends (odp_execute_sample sub dp seed (Some p) steal attrs)
    (λ '(_, _, p'), if steal then p' = None else ∃ q, p' = Some q ∧ good q).
Proof.
  intros Hsub Hp Hn. unfold odp_execute_sample. pose proof (sample_attrs_ends seed attrs None) as Ht.
  destruct (sample_attrs seed attrs None) as [[seed' r]|f|] eqn:E; cbn [obind]; [|done..].
  destruct r as [[l|]|]; [|done|destruct steal; [done|by exists p]].
  cbn [deref obind]. apply subactions_in in E as [?|Hd]; [done|].
  eapply ends_bind; [apply Hsub; [done|lia]|]. intros [[dp' s'] slots] Hs. unfold handed_over in Hs.
  destruct steal; [by subst|].
  destruct Hs as ([|q [|]] & -> & Hl & Hg); [done| |done]. exists q. split; [done|]. by apply Forall_cons_1 in Hg as [? _].
Qed.

Lemma sample_packets_owned n dp seed ps steal attrs :
  sub_owned n → Forall good ps → (list_max (List.map depth_attr attrs) < n)%nat →
  owned steal (length ps) (sample_packets sub dp seed (Some <$> ps) steal attrs).
Proof.
  intros Hsub Hps Hn. revert dp seed. induction Hps as [|p ps Hp _ IH]; intros dp seed; cbn [sample_packets fmap list_fmap].
  { unfold owned, handed_over, ends. destruct steal; [done|by exists []]. }
  eapply ends_bind; [by apply (sample_owned n)|]. intros [[dp1 s1] p'] Hp'.
  eapply ends_bind; [apply IH|]. intros [[dp2 s2] l] Hl. unfold ends, handed_over in *. destruct steal; [by subst|].
  destruct Hp' as (q & -> & Hq), Hl as (qs & -> & Hl & Hg). exists (q :: qs).
  split; [done|]. split; [simpl; by rewrite Hl|by constructor].
Qed.

Lemma loop_owned n dp seed ps steal actions :
  callback_ok → sub_owned n → Forall good ps → (depths actions ≤ n)%nat →
  owned steal (length ps) (loop sub dp seed (Some <$> ps) steal actions).
Proof.
  intros Hcb Hsub Hps Hd. revert dp seed ps Hps Hd. induction actions as [|a actions IH]; intros dp seed ps Hps Hd; cbn [execute_loop].
  { unfold delete_packets. rewrite live_Some. cbn [obind]. unfold owned, handed_over, ends.
    destruct steal; [by rewrite gone_all, length_fmap|by exists ps]. }
  rewrite depths_cons in Hd. apply ends_bind with (λ _, True); [by destruct a|]. intros [] _.
  - unfold callback_ok in Hcb. destruct dp_execute_action as [f|]; [|apply IH; [done|lia]].
    rewrite live_Some. cbn [obind]. destruct actions as [|a' actions]; [rewrite andb_true_r|rewrite andb_false_r].
    + eapply ends_bind; [by apply Hcb|]. intros [dp' ps'] [Hg Hlen]. unfold ends, handed_over. cbn [snd] in *.
      destruct steal; [by rewrite gone_all, length_fmap|exists ps'; split; [done|by split; [apply Hlen|]]].
    + eapply ends_bind; [by apply Hcb|]. intros [dp' ps'] [Hg Hlen]. cbn [snd] in *.
      rewrite <-(Hlen eq_refl). apply IH; [done|lia].
  - assert (owned steal (length ps) (let* packets := for_packets (local a) (Some <$> ps) in
      loop sub dp seed packets steal actions)) as Hlocal.
    { eapply ends_bind; [apply for_packets_good; [intros p; by apply sound_local|done]|].
      intros l (ps' & -> & <- & Hg). apply IH; [done|lia]. }
    destruct a; try exact Hlocal. clear Hlocal. cbn [depth] in Hd.
    eapply ends_bind; [apply (sample_packets_owned n); [done|done|lia]|]. intros [[dp1 s1] l] Hs.
    unfold handed_over in Hs. destruct actions as [|a' actions].
    + rewrite andb_true_r in Hs. exact Hs.
    + rewrite andb_false_r in Hs. destruct Hs as (qs & -> & <- & Hg). apply IH; [done|lia].
Qed.
End Sample.

Lemma execute_owned fuel dp seed ps steal actions :
  callback_ok → Forall good ps → (depths actions < fuel)%nat →
  owned steal (length ps) (execute fuel dp seed (Some <$> ps) steal actions).
Proof.
  intros Hcb. revert dp seed ps steal actions. induction fuel as [|fuel IH]; intros dp seed ps steal actions Hps Hd; [lia|].
  cbn [odp_execute_actions]. apply (loop_owned _ fuel); [done| |done|lia]. intros dp' seed' p steal' l Hp Hl.
  apply (IH dp' seed' [p]); [by constructor|done].
Qed.

(** ** Fuel *)

Lemma sample_packets_ext sub1 sub2 dp seed ps steal attrs :
  (∀ dp seed ps steal l, (depths l ≤ list_max (List.map depth_attr attrs))%nat →
     sub1 dp seed ps steal l = sub2 dp seed ps steal l) →
  sample_packets (Dp:=Dp) (Tnl:=Tnl) sub1 dp seed ps steal attrs = sample_packets sub2 dp seed ps steal attrs.
Proof.
  intros Hsub. revert dp seed. induction ps as [|p ps IH]; intros dp seed; [done|]. cbn [sample_packets].
  assert (odp_execute_sample sub1 dp seed p steal attrs = odp_execute_sample sub2 dp seed p steal attrs) as ->.
  { unfold odp_execute_sample. destruct (sample_attrs seed attrs None) as [[s' [[l|]|]]|f|] eqn:E; cbn [obind deref]; try done.
    apply subactions_in in E as [?|Hd]; [done|]. by rewrite Hsub. }
  destruct (odp_execute_sample _ _ _ _ _ _) as [[[dp1 s1] p']|f|]; cbn [obind]; [|done..]. by rewrite IH.
Qed.

Lemma loop_ext sub1 sub2 dp seed ps steal actions n :
  (depths actions ≤ n)%nat →
  (∀ dp seed ps steal l, (depths l < n)%nat → sub1 dp seed ps steal l = sub2 dp seed ps steal l) →
  loop sub1 dp seed ps steal actions = loop sub2 dp seed ps steal actions.
Proof.
  intros Hd Hsub. revert dp seed ps Hd. induction actions as [|a actions IH]; intros dp seed ps Hd; [done|].
  rewrite depths_cons in Hd. cbn [execute_loop].
  destruct (requires_datapath_assistance a) as [[]|f|]; cbn [obind]; [| |done..].
  - destruct dp_execute_action as [f|]; [|apply IH; lia].
    destruct (live ps) as [ps'| |]; cbn [obind]; [|done..].
    destruct (f dp ps' a _) as [[dp' qs]| |]; cbn [obind]; [|done..].
    destruct actions; [done|]. apply IH. lia.
  - assert (∀ ps', loop sub1 dp seed ps' steal actions = loop sub2 dp seed ps' steal actions) as Hl by (intros; apply IH; lia).
    destruct a; try (destruct (for_packets _ ps); cbn [obind]; [apply Hl|done..]).
    rewrite (sample_packets_ext sub1 sub2).
    2: { intros. apply Hsub. cbn [depth] in Hd. lia. }
    destruct (sample_packets _ _ _ _ _ _) as [[[dp1 s1] l]|f|]; cbn [obind]; [|done..].
    destruct actions; [done|]. apply IH. lia.
Qed.

Lemma execute_fuel n fuel1 fuel2 dp seed ps steal actions :
  (depths actions ≤ n)%nat → (n < fuel1)%nat → (n < fuel2)%nat →
  execute fuel1 dp seed ps steal actions = execute fuel2 dp seed ps steal actions.
Proof.
  revert fuel1 fuel2 dp seed ps steal actions.
  induction n as [|n IH]; intros [|fuel1] [|fuel2] dp seed ps steal actions Hd H1 H2; try lia;
    cbn [odp_execute_actions].
  - apply (loop_ext _ _ _ _ _ _ _ 0); [lia|]. intros. lia.
  - apply (loop_ext _ _ _ _ _ _ _ (S n)); [done|]. intros. apply IH; lia.
Qed.

(** ** Batches *)

(** The actions that are executed on each packet by itself. *)
Definition is_local (a : ovs_action) : bool :=
  match a with
  | OVS_ACTION_ATTR_SET _ _ | OVS_ACTION_ATTR_SET_MASKED _ _ _ | OVS_ACTION_ATTR_PUSH_VLAN _ _
  | OVS_ACTION_ATTR_POP_VLAN | OVS_ACTION_ATTR_HASH _ _ | OVS_ACTION_ATTR_PUSH_MPLS _ _
  | OVS_ACTION_ATTR_POP_MPLS _ => true
  | _ => false
  end.

Fixpoint local_actions (l : list ovs_action) p : outcome (packet Tnl) :=
  match l with
  | [] => Ret p
  | a :: l => let* p := local a p in local_actions l p
  end.

Lemma loop_local sub dp seed ps steal a l :
  is_local a = true →
  loop sub dp seed ps steal (a :: l) =
  (let* ps := for_packets (local a) ps in loop sub dp seed ps steal l).
Proof. by destruct a. Qed.

Lemma Forall2_compose {A B C} (P : A → B → Prop) (Q : B → C → Prop) (R : A → C → Prop) l1 l2 l3 :
  (∀ a b c, P a b → Q b c → R a c) → Forall2 P l1 l2 → Forall2 Q l2 l3 → Forall2 R l1 l3.
Proof.
  intros HR H. revert l3. induction H as [|a b l1 l2 Hab _ IH]; intros l3 H3.
  - apply Forall2_nil_inv_l in H3 as ->. constructor.
  - apply Forall2_cons_inv_l in H3 as (c & l3' & Hbc & H3 & ->). constructor; eauto.
Qed.

(** A batch is executed action by action, with the result of executing it
    packet by packet. *)
Lemma loop_batch sub dp seed ps steal acts rest r :
  forallb is_local acts = true →
  loop sub dp seed (Some <$> ps) steal (acts ++ rest) = Ret r ↔
  ∃ ps', Forall2 (λ p p', local_actions acts p = Ret p') ps ps' ∧
    loop sub dp seed (Some <$> ps') steal rest = Ret r.
Proof.
  revert ps. induction acts as [|a acts IH]; intros ps Hl; cbn [app local_actions].
  { split.
    - intros H. exists ps. split; [|done]. by apply Forall_Forall2_diag, Forall_true.
    - intros (ps' & H & Hr). assert (ps = ps') as ->; [|done].
      apply list_eq_Forall2. eapply Forall2_impl; [|exact H]. by intros ? ? [= ->]. }
  cbn [forallb] in Hl. apply andb_true_iff in Hl as [Ha Hl]. rewrite loop_local, obind_Ret by done. split.
  - intros (l & E & H). apply for_packets_Some in E as (ps1 & -> & H1).
    apply IH in H as (ps' & H2 & Hr); [|done]. exists ps'. split; [|done].
    eapply Forall2_compose; [|exact H1|exact H2]. cbn. by intros p q r' -> Hq.
  - intros (ps' & H & Hr).
    assert (∃ ps1, Forall2 (λ p q, local a p = Ret q) ps ps1 ∧
      Forall2 (λ q p', local_actions acts q = Ret p') ps1 ps') as (ps1 & H1 & H2).
    { clear Hr IH. induction H as [|p p' ps ps' Hp _ (ps1 & H1 & H2)]; [by exists []|].
      apply obind_Ret in Hp as (q & Hq & Hp'). exists (q :: ps1). split; by constructor. }
    exists (Some <$> ps1). split; [apply for_packets_Some; by exists ps1|].
    apply IH; [done|]. by exists ps'.
Qed.
End Execute.
