(* ===== verification/OdpCommit.v ===== *)
(** * lib/odp-util.c: from changes of a flow to datapath actions

    [commit_odp_actions] compares the flow that translation has produced with
    the flow the packet has, and appends the actions that turn one into the
    other.  The members of [struct flow] are grouped by their layer; the padding
    behind the three labels is left out. *)
From Stdlib Require Import ZArith Lia.
From stdpp Require Import base list numbers option.
From S2P Require Import Prelude GtpWire Packets Tags OdpExecute.
Open Scope Z_scope.

(** ** lib/flow.h: struct flow *)

Record flow_l2 := mkL2 {
  f_dl_dst : list Z;
  f_dl_src : list Z;
  f_dl_type : Z;
  f_vlan_tci : Z;
  f_mpls_lse : list Z;
}.

Record flow_l3 := mkL3 {
  f_nw_src : Z;
  f_nw_dst : Z;
  f_ipv6_src : list Z;
  f_ipv6_dst : list Z;
  f_ipv6_label : Z;
  f_nw_frag : Z;
  f_nw_tos : Z;
  f_nw_ttl : Z;
  f_nw_proto : Z;
  f_nd_target : list Z;
  f_arp_sha : list Z;
  f_arp_tha : list Z;
}.

Record flow_l4 := mkL4 { f_tp_src : Z; f_tp_dst : Z }.

Record sflow := mkSflow {
  f_skb_priority : Z;
  f_pkt_mark : Z;
  f_dp_hash : Z;
  f_l2 : flow_l2;
  f_l3 : flow_l3;
  f_l4 : flow_l4;
}.

Definition with_l2 (f : sflow) (l2 : flow_l2) : sflow :=
  mkSflow (f_skb_priority f) (f_pkt_mark f) (f_dp_hash f) l2 (f_l3 f) (f_l4 f).
Definition with_l3 (f : sflow) (l3 : flow_l3) : sflow :=
  mkSflow (f_skb_priority f) (f_pkt_mark f) (f_dp_hash f) (f_l2 f) l3 (f_l4 f).
Definition with_l4 (f : sflow) (l4 : flow_l4) : sflow :=
  mkSflow (f_skb_priority f) (f_pkt_mark f) (f_dp_hash f) (f_l2 f) (f_l3 f) l4.

Definition dl_type_of (f : sflow) : Z := f_dl_type (f_l2 f).
Definition nw_proto_of (f : sflow) : Z := f_nw_proto (f_l3 f).

Definition FLOW_MAX_MPLS_LABELS : nat := 3.
Definition FLOW_NW_FRAG_ANY : Z := 1.
Definition FLOW_NW_FRAG_LATER : Z := 2.
Definition FLOW_NW_FRAG_MASK : Z := 3.
Definition ETH_TYPE_IP : Z := 0x0800.
Definition ETH_TYPE_ARP : Z := 0x0806.
Definition ETH_TYPE_VLAN : Z := 0x8100.
Definition ETH_TYPE_IPV6 : Z := 0x86dd.
Definition ETH_TYPE_MPLS : Z := 0x8847.
Definition IPPROTO_ICMP : Z := 1.
Definition IPPROTO_SCTP : Z := 132.
Definition IP_DSCP_MASK : Z := 0xfc.

Definition is_ip_any (f : sflow) : bool :=
  (dl_type_of f =? htons ETH_TYPE_IP) || (dl_type_of f =? htons ETH_TYPE_IPV6).
Definition is_icmpv4 (f : sflow) : bool :=
  (dl_type_of f =? htons ETH_TYPE_IP) && (nw_proto_of f =? IPPROTO_ICMP).
Definition is_icmpv6 (f : sflow) : bool :=
  (dl_type_of f =? htons ETH_TYPE_IPV6) && (nw_proto_of f =? IPPROTO_ICMPV6).

(** ** Keys as data: [memcmp], [&] and [memset] *)

#[export] Instance ovs_key_ethernet_eq_dec : EqDecision ovs_key_ethernet.
Proof. solve_decision. Defined.
#[export] Instance ovs_key_ipv4_eq_dec : EqDecision ovs_key_ipv4.
Proof. solve_decision. Defined.
#[export] Instance ovs_key_ipv6_eq_dec : EqDecision ovs_key_ipv6.
Proof. solve_decision. Defined.
#[export] Instance ovs_key_tp_eq_dec : EqDecision ovs_key_tp.
Proof. solve_decision. Defined.
#[export] Instance ovs_key_icmp_eq_dec : EqDecision ovs_key_icmp.
Proof. solve_decision. Defined.
#[export] Instance ovs_key_arp_eq_dec : EqDecision ovs_key_arp.
Proof. solve_decision. Defined.
#[export] Instance ovs_key_nd_eq_dec : EqDecision ovs_key_nd.
Proof. solve_decision. Defined.
#[export] Instance key_of_eq_dec attr : EqDecision (key_of attr).
Proof. destruct attr; apply _. Defined.

Definition key_and (attr : ovs_key_attr) : key_of attr → key_of attr → key_of attr :=
  match attr with
  | OVS_KEY_ATTR_PRIORITY | OVS_KEY_ATTR_SKB_MARK | OVS_KEY_ATTR_DP_HASH
  | OVS_KEY_ATTR_RECIRC_ID | OVS_KEY_ATTR_MPLS => Z.land
  | OVS_KEY_ATTR_ETHERNET => λ k m,
      mkKeyEth (zip_with Z.land (eth_src k) (eth_src m)) (zip_with Z.land (eth_dst k) (eth_dst m))
  | OVS_KEY_ATTR_IPV4 => λ k m,
      mkKeyIpv4 (Z.land (ipv4_src k) (ipv4_src m)) (Z.land (ipv4_dst k) (ipv4_dst m))
        (Z.land (ipv4_proto k) (ipv4_proto m)) (Z.land (ipv4_tos k) (ipv4_tos m))
        (Z.land (ipv4_ttl k) (ipv4_ttl m)) (Z.land (ipv4_frag k) (ipv4_frag m))
  | OVS_KEY_ATTR_IPV6 => λ k m,
      mkKeyIpv6 (zip_with Z.land (ipv6_src k) (ipv6_src m)) (zip_with Z.land (ipv6_dst k) (ipv6_dst m))
        (Z.land (ipv6_label k) (ipv6_label m)) (Z.land (ipv6_proto k) (ipv6_proto m))
        (Z.land (ipv6_tclass k) (ipv6_tclass m)) (Z.land (ipv6_hlimit k) (ipv6_hlimit m))
        (Z.land (ipv6_frag k) (ipv6_frag m))
  | OVS_KEY_ATTR_TCP | OVS_KEY_ATTR_UDP | OVS_KEY_ATTR_SCTP => λ k m,
      mkKeyTp (Z.land (key_tp_src k) (key_tp_src m)) (Z.land (key_tp_dst k) (key_tp_dst m))
  | OVS_KEY_ATTR_ICMP | OVS_KEY_ATTR_ICMPV6 => λ k m,
      mkKeyIcmp (Z.land (icmp_type k) (icmp_type m)) (Z.land (icmp_code k) (icmp_code m))
  | OVS_KEY_ATTR_ARP => λ k m,
      mkKeyArp (Z.land (arp_sip k) (arp_sip m)) (Z.land (arp_tip k) (arp_tip m))
        (Z.land (arp_op k) (arp_op m)) (zip_with Z.land (arp_sha k) (arp_sha m))
        (zip_with Z.land (arp_tha k) (arp_tha m))
  | OVS_KEY_ATTR_ND => λ k m,
      mkKeyNd (zip_with Z.land (nd_target k) (nd_target m)) (zip_with Z.land (nd_sll k) (nd_sll m))
        (zip_with Z.land (nd_tll k) (nd_tll m))
  | _ => λ k _, k
  end.

Definition eth_addr_exact : list Z := [0xffff; 0xffff; 0xffff].
Definition in6addr_exact : list Z := [0xffffffff; 0xffffffff; 0xffffffff; 0xffffffff].

(** [memset(mask, 0xff, size)] *)
Definition key_ones (attr : ovs_key_attr) : key_of attr :=
  match attr with
  | OVS_KEY_ATTR_PRIORITY | OVS_KEY_ATTR_SKB_MARK | OVS_KEY_ATTR_DP_HASH
  | OVS_KEY_ATTR_RECIRC_ID | OVS_KEY_ATTR_MPLS => 0xffffffff
  | OVS_KEY_ATTR_ETHERNET => mkKeyEth eth_addr_exact eth_addr_exact
  | OVS_KEY_ATTR_IPV4 => mkKeyIpv4 0xffffffff 0xffffffff 0xff 0xff 0xff 0xff
  | OVS_KEY_ATTR_IPV6 => mkKeyIpv6 in6addr_exact in6addr_exact 0xffffffff 0xff 0xff 0xff 0xff
  | OVS_KEY_ATTR_TCP | OVS_KEY_ATTR_UDP | OVS_KEY_ATTR_SCTP => mkKeyTp 0xffff 0xffff
  | OVS_KEY_ATTR_ICMP | OVS_KEY_ATTR_ICMPV6 => mkKeyIcmp 0xff 0xff
  | OVS_KEY_ATTR_ARP => mkKeyArp 0xffffffff 0xffffffff 0xffff eth_addr_exact eth_addr_exact
  | OVS_KEY_ATTR_ND => mkKeyNd in6addr_exact eth_addr_exact eth_addr_exact
  | OVS_KEY_ATTR_TUNNEL => []
  | _ => tt
  end.

(** For the attributes that are committed. *)
Definition odp_mask_is_exact (attr : ovs_key_attr) : key_of attr → bool :=
  match attr with
  | OVS_KEY_ATTR_IPV6 => λ mask,
      (Z.land (ipv6_label mask) (ntohl IPV6_LABEL_MASK) =? ntohl IPV6_LABEL_MASK)
      && (ipv6_proto mask =? 0xff) && (ipv6_tclass mask =? 0xff) && (ipv6_hlimit mask =? 0xff)
      && (ipv6_frag mask =? 0xff) && bool_decide (ipv6_src mask = in6addr_exact)
      && bool_decide (ipv6_dst mask = in6addr_exact)
  | OVS_KEY_ATTR_TUNNEL => λ _, false
  | attr => λ mask, bool_decide (mask = key_ones attr)
  end.

(** ** The state of a commit: the base flow, the masks and the actions *)

Record commit_state := mkCommit {
  c_base : sflow;
  c_masks : sflow;
  c_actions : list ovs_action;
}.

Definition commit_set_action (actions : list ovs_action) (key_type : ovs_key_attr) (key : key_of key_type)
    : list ovs_action := actions ++ [OVS_ACTION_ATTR_SET key_type key].

Definition commit_masked_set_action (actions : list ovs_action) (key_type : ovs_key_attr)
    (key mask : key_of key_type) : list ovs_action :=
  actions ++ [OVS_ACTION_ATTR_SET_MASKED key_type (key_and key_type key mask) mask].

(** The new base, mask and actions, when the key changes. *)
Definition commit (attr : ovs_key_attr) (use_masked_set : bool) (key base mask : key_of attr)
    (actions : list ovs_action) : option (key_of attr * key_of attr * list ovs_action) :=
  if negb (bool_decide (key = base)) then
    let fully_masked := odp_mask_is_exact attr mask in
    if use_masked_set && negb fully_masked
    then Some (key, mask, commit_masked_set_action actions attr key mask)
    else
      let mask := if negb fully_masked then key_ones attr else mask in
      Some (key, mask, commit_set_action actions attr key)
  else None.

(** The pattern of the callers: commit a key that [get] reads from the flows
    and [put] writes back into the base and the masks. *)
Definition commit_key (attr : ovs_key_attr) (use_masked : bool) (key base mask : key_of attr)
    (put_base put_mask : key_of attr → sflow → sflow) (st : commit_state) : commit_state * bool :=
  match commit attr use_masked key base mask (c_actions st) with
  | Some (base, mask, actions) =>
      (mkCommit (put_base base (c_base st)) (put_mask mask (c_masks st)) actions, true)
  | None => (st, false)
  end.

(** ** Ethernet *)

Definition get_ethernet_key (f : sflow) : ovs_key_ethernet :=
  mkKeyEth (f_dl_src (f_l2 f)) (f_dl_dst (f_l2 f)).
Definition put_ethernet_key (eth : ovs_key_ethernet) (f : sflow) : sflow :=
  let l := f_l2 f in
  with_l2 f (mkL2 (eth_dst eth) (eth_src eth) (f_dl_type l) (f_vlan_tci l) (f_mpls_lse l)).

Definition commit_set_ether_addr_action (flow : sflow) (use_masked : bool) (st : commit_state) : commit_state :=
  (commit_key OVS_KEY_ATTR_ETHERNET use_masked (get_ethernet_key flow) (get_ethernet_key (c_base st))
     (get_ethernet_key (c_masks st)) put_ethernet_key put_ethernet_key st).1.

(** ** VLAN *)

Definition set_vlan_tci (f : sflow) (tci : Z) : sflow :=
  let l := f_l2 f in
  with_l2 f (mkL2 (f_dl_dst l) (f_dl_src l) (f_dl_type l) tci (f_mpls_lse l)).

Definition has_cfi (tci : Z) : bool := negb (Z.land tci (htons VLAN_CFI) =? 0).

Definition pop_vlan (st : commit_state) : commit_state :=
  let masks := set_vlan_tci (c_masks st) 0xffff in
  if has_cfi (f_vlan_tci (f_l2 (c_base st)))
  then mkCommit (set_vlan_tci (c_base st) 0) masks (c_actions st ++ [OVS_ACTION_ATTR_POP_VLAN])
  else mkCommit (c_base st) masks (c_actions st).

Definition commit_vlan_action (vlan_tci : Z) (st : commit_state) : commit_state :=
  if f_vlan_tci (f_l2 (c_base st)) =? vlan_tci then st
  else
    let st := pop_vlan st in
    let actions := if has_cfi vlan_tci
                   then c_actions st ++ [OVS_ACTION_ATTR_PUSH_VLAN (htons ETH_TYPE_VLAN) vlan_tci]
                   else c_actions st in
    mkCommit (set_vlan_tci (c_base st) vlan_tci) (c_masks st) actions.

(** ** MPLS (lib/flow.c, without wildcards) *)

Definition lse_at (f : sflow) (i : nat) : Z := nth i (f_mpls_lse (f_l2 f)) 0.
Definition set_mpls (f : sflow) (dl_type : Z) (lses : list Z) : sflow :=
  let l := f_l2 f in with_l2 f (mkL2 (f_dl_dst l) (f_dl_src l) dl_type (f_vlan_tci l) lses).
Definition flow_set_mpls_lse (f : sflow) (idx : nat) (lse : Z) : sflow :=
  set_mpls f (dl_type_of f) (<[idx := lse]> (f_mpls_lse (f_l2 f))).

(** From label [i] on, with [cnt] labels so far and [k] to look at. *)
Fixpoint count_labels (k i cnt : nat) (f : sflow) : nat :=
  match k with
  | O => cnt
  | S k =>
      if mpls_lse_to_bos (lse_at f i) then i + 1
      else count_labels k (i + 1) (if lse_at f i =? 0 then cnt else cnt + 1) f
  end.
Definition flow_count_mpls_labels (f : sflow) : nat :=
  if eth_type_mpls (dl_type_of f) then count_labels FLOW_MAX_MPLS_LABELS 0 0 f else 0.

Fixpoint common_labels (k i : nat) (a : sflow) (a_last : nat) (b : sflow) (b_last : nat) : nat :=
  match k with
  | O => 0
  | S k =>
      if lse_at a (a_last - i) =? lse_at b (b_last - i)
      then S (common_labels k (i + 1) a a_last b b_last) else 0
  end.
Definition flow_count_common_mpls_labels (a : sflow) (an : nat) (b : sflow) (bn : nat) : nat :=
  common_labels (an `min` bn) 0 a (an - 1) b (bn - 1).

Definition zero_l3 : flow_l3 := mkL3 0 0 [0; 0; 0; 0] [0; 0; 0; 0] 0 0 0 0 0 [0; 0; 0; 0] [0; 0; 0] [0; 0; 0].
Definition zero_l4 : flow_l4 := mkL4 0 0.

Definition flow_push_mpls (f : sflow) (n : nat) (mpls_eth_type : Z) : outcome sflow :=
  let* _ := ovs_assert (eth_type_mpls mpls_eth_type) in
  let* _ := ovs_assert (bool_decide (n < FLOW_MAX_MPLS_LABELS)%nat) in
  let l := f_mpls_lse (f_l2 f) in
  if negb (bool_decide (n = 0%nat)) then
    let l := take 1 l ++ take n l ++ drop (n + 1) l in
    let l := <[0%nat := Z.land (nth 1 l 0) (ntohl (u32 (Z.lnot MPLS_BOS_MASK)))]> l in
    Ret (set_mpls f mpls_eth_type l)
  else
    let label := if dl_type_of f =? htons ETH_TYPE_IPV6 then 2 else 0 in
    let tc := if is_ip_any f then Z.shiftr (Z.land (f_nw_tos (f_l3 f)) IP_DSCP_MASK) 2 else 0 in
    let ttl := if is_ip_any f && negb (f_nw_ttl (f_l3 f) =? 0) then f_nw_ttl (f_l3 f) else 64 in
    let f := set_mpls f (dl_type_of f) (<[0%nat := set_mpls_lse_values ttl tc 1 (ntohl label)]> l) in
    let f := mkSflow (f_skb_priority f) (f_pkt_mark f) 0 (f_l2 f) zero_l3 zero_l4 in
    Ret (set_mpls f mpls_eth_type (f_mpls_lse (f_l2 f))).

Definition flow_pop_mpls (f : sflow) (n : nat) (eth_type : Z) : bool * sflow :=
  if bool_decide (n = 0%nat) then (false, f)
  else if bool_decide (n = FLOW_MAX_MPLS_LABELS) && negb (mpls_lse_to_bos (lse_at f (n - 1)))
  then (false, f)
  else
    let l := f_mpls_lse (f_l2 f) in
    (true, set_mpls f eth_type (take (n - 1) (drop 1 l) ++ [0] ++ drop n l)).

(** The first loop of [commit_mpls_action]; every round brings [base_n] and
    [common_n] closer by one. *)
Fixpoint mpls_pop_loop (fuel : nat) (flow : sflow) (flow_n base_n common_n : nat) (st : commit_state)
    : outcome (nat * commit_state) :=
  if (common_n <? base_n)%nat then
    match fuel with
    | O => Diverge
    | S fuel =>
        if (base_n - 1 =? common_n)%nat && (common_n <? flow_n)%nat then
          let lse := lse_at flow (flow_n - base_n) in
          let st := mkCommit (flow_set_mpls_lse (c_base st) 0 lse) (c_masks st)
                      (commit_set_action (c_actions st) OVS_KEY_ATTR_MPLS lse) in
          mpls_pop_loop fuel flow flow_n base_n (common_n + 1) st
        else
          let dl_type := if negb (eth_type_mpls (dl_type_of flow)) && (1 <? base_n)%nat
                         then htons ETH_TYPE_MPLS else dl_type_of flow in
          let (popped, base) := flow_pop_mpls (c_base st) base_n (dl_type_of flow) in
          let* _ := ovs_assert popped in
          let st := mkCommit base (c_masks st) (c_actions st ++ [OVS_ACTION_ATTR_POP_MPLS dl_type]) in
          mpls_pop_loop fuel flow flow_n (base_n - 1) common_n st
    end
  else Ret (base_n, st).

Fixpoint mpls_push_loop (fuel : nat) (flow : sflow) (flow_n base_n : nat) (st : commit_state)
    : outcome commit_state :=
  if (base_n <? flow_n)%nat then
    match fuel with
    | O => Diverge
    | S fuel =>
        let ethertype := dl_type_of flow in
        let lse := lse_at flow (flow_n - base_n - 1) in
        let* base := flow_push_mpls (c_base st) base_n ethertype in
        let st := mkCommit (flow_set_mpls_lse base 0 lse) (c_masks st)
                    (c_actions st ++ [OVS_ACTION_ATTR_PUSH_MPLS lse ethertype]) in
        mpls_push_loop fuel flow flow_n (base_n + 1) st
    end
  else Ret st.

Definition commit_mpls_action (flow : sflow) (st : commit_state) : outcome commit_state :=
  let base_n := flow_count_mpls_labels (c_base st) in
  let flow_n := flow_count_mpls_labels flow in
  let common_n := flow_count_common_mpls_labels flow flow_n (c_base st) base_n in
  let* (base_n, st) := mpls_pop_loop base_n flow flow_n base_n common_n st in
  mpls_push_loop flow_n flow flow_n base_n st.

(** ** IP *)

Definition OVS_FRAG_TYPE_NONE : Z := 0.
Definition OVS_FRAG_TYPE_FIRST : Z := 1.
Definition OVS_FRAG_TYPE_LATER : Z := 2.

Definition ovs_to_odp_frag (nw_frag : Z) (is_mask : bool) : Z :=
  if is_mask then (if negb (Z.land nw_frag FLOW_NW_FRAG_ANY =? 0) then 255 else 0)
  else if Z.land nw_frag FLOW_NW_FRAG_ANY =? 0 then OVS_FRAG_TYPE_NONE
  else if negb (Z.land nw_frag FLOW_NW_FRAG_LATER =? 0) then OVS_FRAG_TYPE_LATER
  else OVS_FRAG_TYPE_FIRST.

Definition odp_to_ovs_frag (odp_frag : Z) (is_mask : bool) : Z :=
  if is_mask then (if negb (odp_frag =? 0) then FLOW_NW_FRAG_MASK else 0)
  else if OVS_FRAG_TYPE_LATER <? odp_frag then 0xff
  else if odp_frag =? OVS_FRAG_TYPE_NONE then 0
  else if odp_frag =? OVS_FRAG_TYPE_FIRST then FLOW_NW_FRAG_ANY
  else Z.lor FLOW_NW_FRAG_ANY FLOW_NW_FRAG_LATER.

Definition get_ipv4_key (f : sflow) (is_mask : bool) : ovs_key_ipv4 :=
  let l := f_l3 f in
  mkKeyIpv4 (f_nw_src l) (f_nw_dst l) (f_nw_proto l) (f_nw_tos l) (f_nw_ttl l)
    (ovs_to_odp_frag (f_nw_frag l) is_mask).
Definition put_ipv4_key (is_mask : bool) (k : ovs_key_ipv4) (f : sflow) : sflow :=
  let l := f_l3 f in
  with_l3 f (mkL3 (ipv4_src k) (ipv4_dst k) (f_ipv6_src l) (f_ipv6_dst l) (f_ipv6_label l)
               (odp_to_ovs_frag (ipv4_frag k) is_mask) (ipv4_tos k) (ipv4_ttl k) (ipv4_proto k)
               (f_nd_target l) (f_arp_sha l) (f_arp_tha l)).

(** [mask.ipv4_proto = 0; mask.ipv4_frag = 0;] "Not writeable". *)
Definition writeable_ipv4 (k : ovs_key_ipv4) : ovs_key_ipv4 :=
  mkKeyIpv4 (ipv4_src k) (ipv4_dst k) 0 (ipv4_tos k) (ipv4_ttl k) 0.

Definition same_ip_proto (flow base : sflow) : bool :=
  (nw_proto_of flow =? nw_proto_of base) && (f_nw_frag (f_l3 flow) =? f_nw_frag (f_l3 base)).

Definition commit_set_ipv4_action (flow : sflow) (use_masked : bool) (st : commit_state)
    : outcome commit_state :=
  let* _ := ovs_assert (same_ip_proto flow (c_base st)) in
  let put_mask mask masks := if negb (ipv4_proto mask =? 0) then put_ipv4_key true mask masks else masks in
  Ret (commit_key OVS_KEY_ATTR_IPV4 use_masked (get_ipv4_key flow false) (get_ipv4_key (c_base st) false)
         (writeable_ipv4 (get_ipv4_key (c_masks st) true)) (put_ipv4_key false) put_mask st).1.

Definition get_ipv6_key (f : sflow) (is_mask : bool) : ovs_key_ipv6 :=
  let l := f_l3 f in
  mkKeyIpv6 (f_ipv6_src l) (f_ipv6_dst l) (f_ipv6_label l) (f_nw_proto l) (f_nw_tos l) (f_nw_ttl l)
    (ovs_to_odp_frag (f_nw_frag l) is_mask).
Definition put_ipv6_key (is_mask : bool) (k : ovs_key_ipv6) (f : sflow) : sflow :=
  let l := f_l3 f in
  with_l3 f (mkL3 (f_nw_src l) (f_nw_dst l) (ipv6_src k) (ipv6_dst k) (ipv6_label k)
               (odp_to_ovs_frag (ipv6_frag k) is_mask) (ipv6_tclass k) (ipv6_hlimit k) (ipv6_proto k)
               (f_nd_target l) (f_arp_sha l) (f_arp_tha l)).
Definition writeable_ipv6 (k : ovs_key_ipv6) : ovs_key_ipv6 :=
  mkKeyIpv6 (ipv6_src k) (ipv6_dst k) (ipv6_label k) 0 (ipv6_tclass k) (ipv6_hlimit k) 0.

Definition commit_set_ipv6_action (flow : sflow) (use_masked : bool) (st : commit_state)
    : outcome commit_state :=
  let* _ := ovs_assert (same_ip_proto flow (c_base st)) in
  let put_mask mask masks := if negb (ipv6_proto mask =? 0) then put_ipv6_key true mask masks else masks in
  Ret (commit_key OVS_KEY_ATTR_IPV6 use_masked (get_ipv6_key flow false) (get_ipv6_key (c_base st) false)
         (writeable_ipv6 (get_ipv6_key (c_masks st) true)) (put_ipv6_key false) put_mask st).1.

Definition get_arp_key (f : sflow) : ovs_key_arp :=
  let l := f_l3 f in
  mkKeyArp (f_nw_src l) (f_nw_dst l) (htons (f_nw_proto l)) (f_arp_sha l) (f_arp_tha l).
Definition put_arp_key (k : ovs_key_arp) (f : sflow) : sflow :=
  let l := f_l3 f in
  with_l3 f (mkL3 (arp_sip k) (arp_tip k) (f_ipv6_src l) (f_ipv6_dst l) (f_ipv6_label l) (f_nw_frag l)
               (f_nw_tos l) (f_nw_ttl l) (u8 (ntohs (arp_op k))) (f_nd_target l) (arp_sha k) (arp_tha k)).

(** The result says whether the action needs the slow path. *)
Definition commit_set_arp_action (flow : sflow) (st : commit_state) : commit_state * bool :=
  commit_key OVS_KEY_ATTR_ARP true (get_arp_key flow) (get_arp_key (c_base st))
    (get_arp_key (c_masks st)) put_arp_key put_arp_key st.

Definition get_icmp_key (f : sflow) : ovs_key_icmp :=
  mkKeyIcmp (u8 (ntohs (f_tp_src (f_l4 f)))) (u8 (ntohs (f_tp_dst (f_l4 f)))).
Definition put_icmp_key (k : ovs_key_icmp) (f : sflow) : sflow :=
  with_l4 f (mkL4 (htons (icmp_type k)) (htons (icmp_code k))).

Definition commit_set_icmp_action (flow : sflow) (st : commit_state) : commit_state * bool :=
  if is_icmpv4 flow then
    commit_key OVS_KEY_ATTR_ICMP false (get_icmp_key flow) (get_icmp_key (c_base st))
      (get_icmp_key (c_masks st)) put_icmp_key put_icmp_key st
  else if is_icmpv6 flow then
    commit_key OVS_KEY_ATTR_ICMPV6 false (get_icmp_key flow) (get_icmp_key (c_base st))
      (get_icmp_key (c_masks st)) put_icmp_key put_icmp_key st
  else (st, false).

Definition get_nd_key (f : sflow) : ovs_key_nd :=
  let l := f_l3 f in mkKeyNd (f_nd_target l) (f_arp_sha l) (f_arp_tha l).
Definition put_nd_key (k : ovs_key_nd) (f : sflow) : sflow :=
  let l := f_l3 f in
  with_l3 f (mkL3 (f_nw_src l) (f_nw_dst l) (f_ipv6_src l) (f_ipv6_dst l) (f_ipv6_label l) (f_nw_frag l)
               (f_nw_tos l) (f_nw_ttl l) (f_nw_proto l) (nd_target k) (nd_sll k) (nd_tll k)).

Definition commit_set_nd_action (flow : sflow) (use_masked : bool) (st : commit_state) : commit_state * bool :=
  commit_key OVS_KEY_ATTR_ND use_masked (get_nd_key flow) (get_nd_key (c_base st))
    (get_nd_key (c_masks st)) put_nd_key put_nd_key st.

Definition commit_set_nw_action (flow : sflow) (use_masked : bool) (st : commit_state)
    : outcome (commit_state * bool) :=
  if nw_proto_of flow =? 0 then Ret (st, false)
  else
    let type := ntohs (dl_type_of (c_base st)) in
    if type =? ETH_TYPE_IP then
      let* st := commit_set_ipv4_action flow use_masked st in Ret (st, false)
    else if type =? ETH_TYPE_IPV6 then
      let* st := commit_set_ipv6_action flow use_masked st in
      Ret (commit_set_nd_action flow use_masked st)
    else if type =? ETH_TYPE_ARP then Ret (commit_set_arp_action flow st)
    else Ret (st, false).

(** ** Ports and metadata *)

Definition get_tp_key (f : sflow) : ovs_key_tp := mkKeyTp (f_tp_src (f_l4 f)) (f_tp_dst (f_l4 f)).
Definition put_tp_key (k : ovs_key_tp) (f : sflow) : sflow := with_l4 f (mkL4 (key_tp_src k) (key_tp_dst k)).

Definition commit_set_port_action (flow : sflow) (use_masked : bool) (st : commit_state) : commit_state :=
  let key := get_tp_key flow in
  let base := get_tp_key (c_base st) in
  let mask := get_tp_key (c_masks st) in
  if nw_proto_of flow =? 0 then st
  else if negb (is_ip_any (c_base st)) then st
  else if nw_proto_of flow =? IPPROTO_TCP then
    (commit_key OVS_KEY_ATTR_TCP use_masked key base mask put_tp_key put_tp_key st).1
  else if nw_proto_of flow =? IPPROTO_UDP then
    (commit_key OVS_KEY_ATTR_UDP use_masked key base mask put_tp_key put_tp_key st).1
  else if nw_proto_of flow =? IPPROTO_SCTP then
    (commit_key OVS_KEY_ATTR_SCTP use_masked key base mask put_tp_key put_tp_key st).1
  else st.

Definition put_skb_priority (v : Z) (f : sflow) : sflow :=
  mkSflow v (f_pkt_mark f) (f_dp_hash f) (f_l2 f) (f_l3 f) (f_l4 f).
Definition put_pkt_mark (v : Z) (f : sflow) : sflow :=
  mkSflow (f_skb_priority f) v (f_dp_hash f) (f_l2 f) (f_l3 f) (f_l4 f).

Definition commit_set_priority_action (flow : sflow) (use_masked : bool) (st : commit_state) : commit_state :=
  (commit_key OVS_KEY_ATTR_PRIORITY use_masked (f_skb_priority flow) (f_skb_priority (c_base st))
     (f_skb_priority (c_masks st)) put_skb_priority put_skb_priority st).1.

Definition commit_set_pkt_mark_action (flow : sflow) (use_masked : bool) (st : commit_state) : commit_state :=
  (commit_key OVS_KEY_ATTR_SKB_MARK use_masked (f_pkt_mark flow) (f_pkt_mark (c_base st))
     (f_pkt_mark (c_masks st)) put_pkt_mark put_pkt_mark st).1.

(** The result says whether the flow's packets need the slow path. *)
Definition commit_odp_actions (flow : sflow) (use_masked : bool) (st : commit_state)
    : outcome (commit_state * bool) :=
  let st := commit_set_ether_addr_action flow use_masked st in
  let* (st, slow1) := commit_set_nw_action flow use_masked st in
  let st := commit_set_port_action flow use_masked st in
  let (st, slow2) := commit_set_icmp_action flow st in
  let* st := commit_mpls_action flow st in
  let st := commit_vlan_action (f_vlan_tci (f_l2 flow)) st in
  let st := commit_set_priority_action flow use_masked st in
  let st := commit_set_pkt_mark_action flow use_masked st in
  Ret (st, slow1 || slow2).
