(* ===== verification/OdpCommitProofs.v ===== *)
(** * What committed actions do to a flow

    [apply_action] is the specification of a datapath action: what it does to
    the flow of a packet.  The actions of [commit_odp_actions] turn the base
    flow into the flow that was asked for. *)
From Stdlib Require Import ZArith Lia.
From stdpp Require Import base list numbers option.
From S2P Require Import Prelude GtpWire GtpWireProofs Packets PacketsProofs Tags OdpExecute OdpCommit.
Open Scope Z_scope.

(** ** Actions on flows *)

(** The key of a flow, and a flow with another key.  The protocol and the
    fragment type of an IP packet cannot be set. *)
Definition read_key (attr : ovs_key_attr) (f : sflow) : key_of attr :=
  match attr with
  | OVS_KEY_ATTR_PRIORITY => f_skb_priority f
  | OVS_KEY_ATTR_SKB_MARK => f_pkt_mark f
  | OVS_KEY_ATTR_ETHERNET => get_ethernet_key f
  | OVS_KEY_ATTR_IPV4 => get_ipv4_key f false
  | OVS_KEY_ATTR_IPV6 => get_ipv6_key f false
  | OVS_KEY_ATTR_TCP | OVS_KEY_ATTR_UDP | OVS_KEY_ATTR_SCTP => get_tp_key f
  | OVS_KEY_ATTR_ICMP | OVS_KEY_ATTR_ICMPV6 => get_icmp_key f
  | OVS_KEY_ATTR_ARP => get_arp_key f
  | OVS_KEY_ATTR_ND => get_nd_key f
  | OVS_KEY_ATTR_MPLS => lse_at f 0
  | OVS_KEY_ATTR_DP_HASH => f_dp_hash f
  | attr => key_ones attr
  end.

Definition write_key (attr : ovs_key_attr) : key_of attr → sflow → sflow :=
  match attr with
  | OVS_KEY_ATTR_PRIORITY => put_skb_priority
  | OVS_KEY_ATTR_SKB_MARK => put_pkt_mark
  | OVS_KEY_ATTR_ETHERNET => put_ethernet_key
  | OVS_KEY_ATTR_IPV4 => λ k f,
      let l := f_l3 f in
      with_l3 f (mkL3 (ipv4_src k) (ipv4_dst k) (f_ipv6_src l) (f_ipv6_dst l) (f_ipv6_label l) (f_nw_frag l)
                   (ipv4_tos k) (ipv4_ttl k) (f_nw_proto l) (f_nd_target l) (f_arp_sha l) (f_arp_tha l))
  | OVS_KEY_ATTR_IPV6 => λ k f,
      let l := f_l3 f in
      with_l3 f (mkL3 (f_nw_src l) (f_nw_dst l) (ipv6_src k) (ipv6_dst k) (ipv6_label k) (f_nw_frag l)
                   (ipv6_tclass k) (ipv6_hlimit k) (f_nw_proto l) (f_nd_target l) (f_arp_sha l) (f_arp_tha l))
  | OVS_KEY_ATTR_TCP | OVS_KEY_ATTR_UDP | OVS_KEY_ATTR_SCTP => put_tp_key
  | OVS_KEY_ATTR_ICMP | OVS_KEY_ATTR_ICMPV6 => put_icmp_key
  | OVS_KEY_ATTR_ARP => put_arp_key
  | OVS_KEY_ATTR_ND => put_nd_key
  | OVS_KEY_ATTR_MPLS => λ lse f, flow_set_mpls_lse f 0 lse
  | OVS_KEY_ATTR_DP_HASH => λ v f, mkSflow (f_skb_priority f) (f_pkt_mark f) v (f_l2 f) (f_l3 f) (f_l4 f)
  | _ => λ _ f, f
  end.

(** [key | (old & ~mask)], member by member. *)
Definition merge_key (attr : ovs_key_attr) : key_of attr → key_of attr → key_of attr → key_of attr :=
  match attr with
  | OVS_KEY_ATTR_PRIORITY | OVS_KEY_ATTR_SKB_MARK | OVS_KEY_ATTR_DP_HASH
  | OVS_KEY_ATTR_RECIRC_ID | OVS_KEY_ATTR_MPLS => masked
  | OVS_KEY_ATTR_ETHERNET => λ k o m,
      mkKeyEth (masked_each (eth_src k) (eth_src o) (eth_src m)) (masked_each (eth_dst k) (eth_dst o) (eth_dst m))
  | OVS_KEY_ATTR_IPV4 => λ k o m,
      mkKeyIpv4 (masked (ipv4_src k) (ipv4_src o) (ipv4_src m)) (masked (ipv4_dst k) (ipv4_dst o) (ipv4_dst m))
        (masked (ipv4_proto k) (ipv4_proto o) (ipv4_proto m)) (masked (ipv4_tos k) (ipv4_tos o) (ipv4_tos m))
        (masked (ipv4_ttl k) (ipv4_ttl o) (ipv4_ttl m)) (masked (ipv4_frag k) (ipv4_frag o) (ipv4_frag m))
  | OVS_KEY_ATTR_IPV6 => λ k o m,
      mkKeyIpv6 (masked_each (ipv6_src k) (ipv6_src o) (ipv6_src m)) (masked_each (ipv6_dst k) (ipv6_dst o) (ipv6_dst m))
        (masked (ipv6_label k) (ipv6_label o) (ipv6_label m)) (masked (ipv6_proto k) (ipv6_proto o) (ipv6_proto m))
        (masked (ipv6_tclass k) (ipv6_tclass o) (ipv6_tclass m)) (masked (ipv6_hlimit k) (ipv6_hlimit o) (ipv6_hlimit m))
        (masked (ipv6_frag k) (ipv6_frag o) (ipv6_frag m))
  | OVS_KEY_ATTR_TCP | OVS_KEY_ATTR_UDP | OVS_KEY_ATTR_SCTP => λ k o m,
      mkKeyTp (masked (key_tp_src k) (key_tp_src o) (key_tp_src m)) (masked (key_tp_dst k) (key_tp_dst o) (key_tp_dst m))
  | OVS_KEY_ATTR_ICMP | OVS_KEY_ATTR_ICMPV6 => λ k o m,
      mkKeyIcmp (masked (icmp_type k) (icmp_type o) (icmp_type m)) (masked (icmp_code k) (icmp_code o) (icmp_code m))
  | OVS_KEY_ATTR_ARP => λ k o m,
      mkKeyArp (masked (arp_sip k) (arp_sip o) (arp_sip m)) (masked (arp_tip k) (arp_tip o) (arp_tip m))
        (masked (arp_op k) (arp_op o) (arp_op m)) (masked_each (arp_sha k) (arp_sha o) (arp_sha m))
        (masked_each (arp_tha k) (arp_tha o) (arp_tha m))
  | OVS_KEY_ATTR_ND => λ k o m,
      mkKeyNd (masked_each (nd_target k) (nd_target o) (nd_target m)) (masked_each (nd_sll k) (nd_sll o) (nd_sll m))
        (masked_each (nd_tll k) (nd_tll o) (nd_tll m))
  | _ => λ k _ _, k
  end.

(** A flow that pushes its first label is a flow without layers 3 and 4. *)
Definition apply_push_mpls (f : sflow) (lse ethertype : Z) : sflow :=
  let f := if eth_type_mpls (dl_type_of f) then f
           else mkSflow (f_skb_priority f) (f_pkt_mark f) 0 (f_l2 f) zero_l3 zero_l4 in
  set_mpls f ethertype (take FLOW_MAX_MPLS_LABELS (lse :: f_mpls_lse (f_l2 f))).

Definition apply_action (a : ovs_action) (f : sflow) : sflow :=
  match a with
  | OVS_ACTION_ATTR_SET attr key => write_key attr key f
  | OVS_ACTION_ATTR_SET_MASKED attr key mask => write_key attr (merge_key attr key (read_key attr f) mask) f
  | OVS_ACTION_ATTR_PUSH_VLAN _ tci => set_vlan_tci f (Z.lor tci (htons VLAN_CFI))
  | OVS_ACTION_ATTR_POP_VLAN => set_vlan_tci f 0
  | OVS_ACTION_ATTR_PUSH_MPLS lse ethertype => apply_push_mpls f lse ethertype
  | OVS_ACTION_ATTR_POP_MPLS ethertype => set_mpls f ethertype (drop 1 (f_mpls_lse (f_l2 f)) ++ [0])
  | _ => f
  end.

Definition apply_actions (l : list ovs_action) (f : sflow) : sflow := foldl (λ f a, apply_action a f) f l.

(** ** Masks *)

(** Two values agree outside of a mask. *)
Definition agree (m a b : Z) : Prop := Z.land a (Z.lnot m) = Z.land b (Z.lnot m).
Definition agree_each (m a b : list Z) : Prop :=
  length m = length a ∧ length b = length a ∧ ∀ i x y z, m !! i = Some x → a !! i = Some y → b !! i = Some z → agree x y z.

Lemma masked_agree k b m : agree m k b → masked (Z.land k m) b m = k.
Proof.
  intros H. unfold masked. rewrite <-H. apply Z.bits_inj'. intros i Hi.
  rewrite Z.lor_spec, !Z.land_spec, Z.lnot_spec by done. destruct (Z.testbit k i), (Z.testbit m i); done.
Qed.

Lemma masked_each_agree k b m : agree_each m k b → masked_each (zip_with Z.land k m) b m = k.
Proof.
  revert b m. induction k as [|x k IH]; intros b m (H1 & H2 & H); [done|].
  destruct b as [|y b]; [done|]. destruct m as [|z m]; [done|]. cbn.
  rewrite (masked_agree x y z) by by apply (H 0%nat). f_equal. apply IH.
  split_and!; [by simpl in H1; lia|by simpl in H2; lia|]. intros i ? ? ? ? ? ?. by apply (H (S i)).
Qed.

(** ** One key *)

(** [st'] extends the actions of [st] by actions that turn its base into
    [target], which is the new base. *)
Definition commits (st st' : commit_state) (target : sflow) : Prop :=
  c_base st' = target ∧
  ∃ acts, c_actions st' = c_actions st ++ acts ∧ apply_actions acts (c_base st) = target.

Lemma commits_refl st : commits st st (c_base st).
Proof. split; [done|]. exists []. by rewrite app_nil_r. Qed.

Lemma commits_trans st1 st2 st3 f2 f3 : commits st1 st2 f2 → commits st2 st3 f3 → commits st1 st3 f3.
Proof.
  intros [H1 (a1 & A1 & E1)] [H2 (a2 & A2 & E2)]. split; [done|]. exists (a1 ++ a2). split.
  - by rewrite A2, A1, app_assoc.
  - unfold apply_actions in *. rewrite foldl_app, E1, <-H1. done.
Qed.

Lemma commits_one st base' masks' a :
  apply_action a (c_base st) = base' → commits st (mkCommit base' masks' (c_actions st ++ [a])) base'.
Proof. intros H. split; [done|]. by exists [a]. Qed.

(** The bits in which a key differs from the base are in the mask. *)
Definition covered (attr : ovs_key_attr) (key base mask : key_of attr) : Prop :=
  merge_key attr (key_and attr key mask) base mask = key.

Lemma commit_key_commits attr um key mask pb pm st :
  (um = true → covered attr key (read_key attr (c_base st)) mask) →
  pb key (c_base st) = write_key attr key (c_base st) →
  write_key attr (read_key attr (c_base st)) (c_base st) = c_base st →
  commits st (commit_key attr um key (read_key attr (c_base st)) mask pb pm st).1 (write_key attr key (c_base st)).
Proof.
  intros Hcov Hpb Hid. unfold commit_key, commit. case_bool_decide as Heq; cbn [negb].
  { cbn. rewrite Heq, Hid. apply commits_refl. }
  destruct (um && negb (odp_mask_is_exact attr mask)) eqn:E; cbn [fst].
  - apply andb_true_iff in E as [-> _]. unfold commit_masked_set_action. rewrite Hpb. apply commits_one.
    cbn [apply_action]. by rewrite (Hcov eq_refl).
  - unfold commit_set_action. rewrite Hpb. by apply commits_one.
Qed.

(** ** What a commit can reach *)

(** Values of 8 bits in the members of a flow that have more. *)
Lemma u8_ntohs_htons x : 0 ≤ x < 256 → u8 (ntohs (htons x)) = x.
Proof.
  intros Hx. unfold htons, u8. assert (ntohs (ntohs x) = x) as ->; [|by apply Z.mod_small].
  unfold ntohs, host16. Z.to_euclidean_division_equations. lia.
Qed.

(** The bits in which [flow] differs from [base] are masked. *)
Record masked_l2 (m f b : flow_l2) : Prop := {
  cm_dl_src : agree_each (f_dl_src m) (f_dl_src f) (f_dl_src b);
  cm_dl_dst : agree_each (f_dl_dst m) (f_dl_dst f) (f_dl_dst b);
}.
Record masked_nd (m f b : flow_l3) : Prop := {
  cm_target : agree_each (f_nd_target m) (f_nd_target f) (f_nd_target b);
  cm_sha : agree_each (f_arp_sha m) (f_arp_sha f) (f_arp_sha b);
  cm_tha : agree_each (f_arp_tha m) (f_arp_tha f) (f_arp_tha b);
}.
Record masked_l3 (m f b : flow_l3) : Prop := {
  cm_nw_src : agree (f_nw_src m) (f_nw_src f) (f_nw_src b);
  cm_nw_dst : agree (f_nw_dst m) (f_nw_dst f) (f_nw_dst b);
  cm_tos : agree (f_nw_tos m) (f_nw_tos f) (f_nw_tos b);
  cm_ttl : agree (f_nw_ttl m) (f_nw_ttl f) (f_nw_ttl b);
  cm_op : agree (htons (f_nw_proto m)) (htons (f_nw_proto f)) (htons (f_nw_proto b));
  cm_ipv6_src : agree_each (f_ipv6_src m) (f_ipv6_src f) (f_ipv6_src b);
  cm_ipv6_dst : agree_each (f_ipv6_dst m) (f_ipv6_dst f) (f_ipv6_dst b);
  cm_label : agree (f_ipv6_label m) (f_ipv6_label f) (f_ipv6_label b);
  cm_nd : masked_nd m f b;
}.
Record masked_l4 (m f b : flow_l4) : Prop := {
  cm_tp_src : agree (f_tp_src m) (f_tp_src f) (f_tp_src b);
  cm_tp_dst : agree (f_tp_dst m) (f_tp_dst f) (f_tp_dst b);
}.
Record changes_masked (masks flow base : sflow) : Prop := {
  cm_priority : agree (f_skb_priority masks) (f_skb_priority flow) (f_skb_priority base);
  cm_mark : agree (f_pkt_mark masks) (f_pkt_mark flow) (f_pkt_mark base);
  cm_l2 : masked_l2 (f_l2 masks) (f_l2 flow) (f_l2 base);
  cm_l3 : masked_l3 (f_l3 masks) (f_l3 flow) (f_l3 base);
  cm_l4 : masked_l4 (f_l4 masks) (f_l4 flow) (f_l4 base);
}.

(** Layer 3 and 4 of [flow] are those of [base] with other values in the
    members that can be set for its protocol. *)
Definition l3_settable (flow base : sflow) : Prop :=
  if nw_proto_of flow =? 0 then f_l3 flow = f_l3 base
  else if ntohs (dl_type_of base) =? ETH_TYPE_IP then
    f_l3 flow = f_l3 (write_key OVS_KEY_ATTR_IPV4 (get_ipv4_key flow false) base) ∧
    f_nw_frag (f_l3 flow) ∈ [0; 1; 3]
  else if ntohs (dl_type_of base) =? ETH_TYPE_IPV6 then
    f_l3 flow = f_l3 (write_key OVS_KEY_ATTR_ND (get_nd_key flow)
                        (write_key OVS_KEY_ATTR_IPV6 (get_ipv6_key flow false) base)) ∧
    f_nw_frag (f_l3 flow) ∈ [0; 1; 3]
  else if ntohs (dl_type_of base) =? ETH_TYPE_ARP then
    f_l3 flow = f_l3 (write_key OVS_KEY_ATTR_ARP (get_arp_key flow) base) ∧
    0 ≤ nw_proto_of flow < 256 ∧ 0 ≤ nw_proto_of base < 256
  else f_l3 flow = f_l3 base.

Lemma l3_settable_ext flow b b' :
  f_l3 b' = f_l3 b → dl_type_of b' = dl_type_of b → l3_settable flow b → l3_settable flow b'.
Proof.
  intros H1 H2. unfold l3_settable, nw_proto_of. rewrite H2.
  cbn [write_key with_l3 put_nd_key put_arp_key f_l3]. by rewrite H1.
Qed.

Definition icmp_byte (tp : Z) : Prop := ∃ x, tp = htons x ∧ 0 ≤ x < 256.

Definition l4_settable (flow base : sflow) : Prop :=
  if is_ip_any flow && negb (nw_proto_of flow =? 0) &&
     ((nw_proto_of flow =? IPPROTO_TCP) || (nw_proto_of flow =? IPPROTO_UDP) || (nw_proto_of flow =? IPPROTO_SCTP))
  then True
  else if is_icmpv4 flow || is_icmpv6 flow
  then icmp_byte (f_tp_src (f_l4 flow)) ∧ icmp_byte (f_tp_dst (f_l4 flow)) ∧
       icmp_byte (f_tp_src (f_l4 base)) ∧ icmp_byte (f_tp_dst (f_l4 base))
  else f_l4 flow = f_l4 base.

(** A VLAN TCI of a flow: 0 or with the CFI bit. *)
Definition tci_ok (tci : Z) : Prop := tci = 0 ∨ has_cfi tci = true.

(** ** The steps *)

(** What a step does not write, in the masks. *)
Lemma commit_key_masks {A} (g : sflow → A) attr um key base mask pb pm st :
  (∀ m f, g (pm m f) = g f) → g (c_masks (commit_key attr um key base mask pb pm st).1) = g (c_masks st).
Proof. intros Hg. unfold commit_key. destruct (commit _ _ _ _ _ _) as [[[? ?] ?]|]; [apply Hg|done]. Qed.

Lemma masked_0 k b : k = b → masked (Z.land k 0) b 0 = k.
Proof. intros ->. by apply masked_agree. Qed.

Lemma frag_back x : x ∈ [0; 1; 3] → odp_to_ovs_frag (ovs_to_odp_frag x false) false = x.
Proof.
  intros Hx. repeat (apply elem_of_cons in Hx as [->|Hx]; [done|]). by apply elem_of_nil in Hx.
Qed.

(** From equal protocols, what the assertion checks. *)
Lemma same_ip flow base :
  nw_proto_of flow = nw_proto_of base → f_nw_frag (f_l3 flow) = f_nw_frag (f_l3 base) →
  same_ip_proto flow base = true.
Proof. intros H1 H2. unfold same_ip_proto. by rewrite H1, H2, !Z.eqb_refl. Qed.

Section Steps.
Context (flow : sflow) (um : bool) (st : commit_state).
Let base := c_base st.
Let masks := c_masks st.

Lemma ether_commits :
  masked_l2 (f_l2 masks) (f_l2 flow) (f_l2 base) →
  commits st (commit_set_ether_addr_action flow um st) (put_ethernet_key (get_ethernet_key flow) base).
Proof.
  intros [H1 H2]. apply (commit_key_commits OVS_KEY_ATTR_ETHERNET); [|done|by destruct st as [[? ? ? [] ? ?] ? ?]].
  intros _. unfold covered. cbn [merge_key key_and read_key eth_src eth_dst get_ethernet_key].
  by rewrite !masked_each_agree.
Qed.

Section Ip.
Hypothesis HM : masked_l3 (f_l3 masks) (f_l3 flow) (f_l3 base).
Hypothesis Hproto : nw_proto_of flow = nw_proto_of base.
Hypothesis Hfrag : f_nw_frag (f_l3 flow) = f_nw_frag (f_l3 base).
Hypothesis Hfrag_ok : f_nw_frag (f_l3 flow) ∈ [0; 1; 3].

Lemma ipv4_commits :
  returns (commit_set_ipv4_action flow um st) (λ st',
    commits st st' (write_key OVS_KEY_ATTR_IPV4 (get_ipv4_key flow false) base)).
Proof.
  unfold commit_set_ipv4_action. rewrite same_ip by done. eexists. split; [done|].
  apply (commit_key_commits OVS_KEY_ATTR_IPV4).
  - intros _. unfold covered. cbn -[Z.land masked ovs_to_odp_frag]. unfold get_ipv4_key.
    f_equal; first [apply masked_agree, HM | apply masked_0; exact Hproto || by rewrite Hfrag].
  - cbn. unfold put_ipv4_key. cbn [ipv4_frag ipv4_proto get_ipv4_key]. rewrite frag_back by done.
    rewrite Hfrag. unfold nw_proto_of in Hproto. by rewrite Hproto.
  - by destruct st as [[? ? ? ? [] ?] ? ?].
Qed.

Lemma ipv6_commits :
  returns (commit_set_ipv6_action flow um st) (λ st',
    commits st st' (write_key OVS_KEY_ATTR_IPV6 (get_ipv6_key flow false) base) ∧
    get_nd_key (c_masks st') = get_nd_key masks).
Proof.
  unfold commit_set_ipv6_action. rewrite same_ip by done. eexists. split; [done|].
  split; [|by apply commit_key_masks; intros m f; destruct (ipv6_proto m =? 0)].
  apply (commit_key_commits OVS_KEY_ATTR_IPV6).
  - intros _. unfold covered. cbn -[Z.land masked masked_each zip_with ovs_to_odp_frag]. unfold get_ipv6_key.
    f_equal; first [apply masked_agree, HM | apply masked_each_agree, HM | apply masked_0; exact Hproto || by rewrite Hfrag].
  - cbn. unfold put_ipv6_key. cbn [ipv6_frag ipv6_proto get_ipv6_key]. rewrite frag_back by done.
    rewrite Hfrag. unfold nw_proto_of in Hproto. by rewrite Hproto.
  - by destruct st as [[? ? ? ? [] ?] ? ?].
Qed.
End Ip.

Lemma nd_commits :
  masked_nd (f_l3 masks) (f_l3 flow) (f_l3 base) →
  commits st (commit_set_nd_action flow um st).1 (write_key OVS_KEY_ATTR_ND (get_nd_key flow) base).
Proof.
  intros [H1 H2 H3]. apply (commit_key_commits OVS_KEY_ATTR_ND); [|done|by destruct st as [[? ? ? ? [] ?] ? ?]].
  intros _. unfold covered. cbn -[masked_each zip_with]. by rewrite !masked_each_agree.
Qed.

Lemma arp_commits :
  masked_l3 (f_l3 masks) (f_l3 flow) (f_l3 base) → 0 ≤ nw_proto_of base < 256 →
  commits st (commit_set_arp_action flow st).1 (write_key OVS_KEY_ATTR_ARP (get_arp_key flow) base).
Proof.
  intros HM Hb. pose proof (cm_nd _ _ _ HM) as HN. apply (commit_key_commits OVS_KEY_ATTR_ARP); [|done|].
  - intros _. unfold covered. cbn -[masked_each zip_with Z.land masked]. unfold get_arp_key.
    f_equal; first [apply masked_agree, HM | apply masked_each_agree, HN].
  - unfold nw_proto_of, base in Hb. destruct st as [[? ? ? ? [] ?] ? ?]. cbn in *. unfold put_arp_key. cbn -[ntohs htons u8].
    by rewrite u8_ntohs_htons.
Qed.

Lemma icmp_back tp : icmp_byte tp → htons (u8 (ntohs tp)) = tp.
Proof. intros (x & -> & Hx). by rewrite u8_ntohs_htons. Qed.

Lemma port_commits :
  masked_l4 (f_l4 masks) (f_l4 flow) (f_l4 base) →
  dl_type_of flow = dl_type_of base ∨ nw_proto_of flow = 0 →
  commits st (commit_set_port_action flow um st)
    (if is_ip_any flow && negb (nw_proto_of flow =? 0) &&
        ((nw_proto_of flow =? IPPROTO_TCP) || (nw_proto_of flow =? IPPROTO_UDP) || (nw_proto_of flow =? IPPROTO_SCTP))
     then with_l4 base (f_l4 flow) else base).
Proof.
  intros [H1 H2] Hdl. unfold commit_set_port_action.
  assert (with_l4 base (f_l4 flow) = put_tp_key (get_tp_key flow) base) as -> by (by destruct flow as [? ? ? ? ? []]).
  assert (put_tp_key (get_tp_key base) base = base) as Hid by (unfold base; by destruct st as [[? ? ? ? ? []] ? ?]).
  assert (mkKeyTp (masked (Z.land (f_tp_src (f_l4 flow)) (f_tp_src (f_l4 masks))) (f_tp_src (f_l4 base)) (f_tp_src (f_l4 masks)))
    (masked (Z.land (f_tp_dst (f_l4 flow)) (f_tp_dst (f_l4 masks))) (f_tp_dst (f_l4 base)) (f_tp_dst (f_l4 masks)))
    = get_tp_key flow) as Hcov by (by rewrite !masked_agree).
  destruct (nw_proto_of flow =? 0) eqn:Hnz; cbn [negb]; rewrite ?andb_false_r, ?andb_false_l; [apply commits_refl|].
  replace (is_ip_any (c_base st)) with (is_ip_any flow).
  2: { destruct Hdl as [Hdl|Hdl]; [unfold is_ip_any; by rewrite Hdl|]. by rewrite Hdl in Hnz. }
  destruct (is_ip_any flow); cbn [negb andb]; [|apply commits_refl].
  destruct (nw_proto_of flow =? IPPROTO_TCP); [by apply (commit_key_commits OVS_KEY_ATTR_TCP)|].
  destruct (nw_proto_of flow =? IPPROTO_UDP); [by apply (commit_key_commits OVS_KEY_ATTR_UDP)|].
  destruct (nw_proto_of flow =? IPPROTO_SCTP); [by apply (commit_key_commits OVS_KEY_ATTR_SCTP)|].
  apply commits_refl.
Qed.

Lemma icmp_commits :
  (is_icmpv4 flow || is_icmpv6 flow = true →
   icmp_byte (f_tp_src (f_l4 flow)) ∧ icmp_byte (f_tp_dst (f_l4 flow)) ∧
   icmp_byte (f_tp_src (f_l4 base)) ∧ icmp_byte (f_tp_dst (f_l4 base))) →
  commits st (commit_set_icmp_action flow st).1
    (if is_icmpv4 flow || is_icmpv6 flow then with_l4 base (f_l4 flow) else base).
Proof.
  intros Hb. unfold commit_set_icmp_action.
  assert (is_icmpv4 flow || is_icmpv6 flow = true →
    with_l4 base (f_l4 flow) = put_icmp_key (get_icmp_key flow) base ∧
    put_icmp_key (get_icmp_key base) base = base) as Hput.
  { intros E. destruct (Hb E) as (B1 & B2 & B3 & B4). unfold put_icmp_key, get_icmp_key. cbn [icmp_type icmp_code].
    rewrite !icmp_back by done. split; [by destruct flow as [? ? ? ? ? []]|].
    unfold base. by destruct st as [[? ? ? ? ? []] ? ?]. }
  destruct (is_icmpv4 flow); cbn [orb] in *.
  - destruct (Hput eq_refl) as [-> Hid]. by apply (commit_key_commits OVS_KEY_ATTR_ICMP).
  - destruct (is_icmpv6 flow); [|apply commits_refl].
    destruct (Hput eq_refl) as [-> Hid]. by apply (commit_key_commits OVS_KEY_ATTR_ICMPV6).
Qed.

Lemma lor_cfi tci : has_cfi tci = true → Z.lor tci (htons VLAN_CFI) = tci.
Proof.
  unfold has_cfi. intros H. apply negb_true_iff, Z.eqb_neq in H.
  change (htons VLAN_CFI) with (2 ^ 4) in *. apply Z.bits_inj'. intros i Hi.
  rewrite Z.lor_spec, Z.pow2_bits_eqb by lia. destruct (Z.eqb_spec 4 i) as [<-|Hne]; [|apply orb_false_r].
  rewrite orb_true_r. symmetry. destruct (Z.testbit tci 4) eqn:E; [done|]. destruct H.
  apply Z.bits_inj'. intros j Hj. rewrite Z.land_spec, Z.pow2_bits_eqb, Z.bits_0 by lia.
  destruct (Z.eqb_spec 4 j) as [<-|]; [by rewrite E|apply andb_false_r].
Qed.

Lemma vlan_commits tci :
  tci_ok tci → tci_ok (f_vlan_tci (f_l2 base)) →
  commits st (commit_vlan_action tci st) (set_vlan_tci base tci).
Proof.
  intros Ht Hb. unfold commit_vlan_action. fold base.
  destruct (Z.eqb_spec (f_vlan_tci (f_l2 base)) tci) as [<-|Hne].
  { replace (set_vlan_tci base _) with base; [apply commits_refl|].
    unfold base. by destruct st as [[? ? ? [] ? ?] ? ?]. }
  assert (commits st (pop_vlan st) (set_vlan_tci base 0)) as Hpop.
  { unfold pop_vlan. fold base. destruct (has_cfi _) eqn:E; [by apply commits_one|].
    assert (f_vlan_tci (f_l2 base) = 0) as H0 by (destruct Hb; [done|congruence]).
    split; [|exists []; rewrite app_nil_r; split; [done|]];
      cbn; unfold set_vlan_tci; rewrite <-H0; unfold base; by destruct st as [[? ? ? [] ? ?] ? ?]. }
  eapply commits_trans; [exact Hpop|]. destruct Hpop as [Hbase _]. rewrite Hbase.
  destruct (has_cfi tci) eqn:E.
  - replace (set_vlan_tci (set_vlan_tci base 0) tci) with (set_vlan_tci base tci) by done.
    apply commits_one. rewrite Hbase. cbn [apply_action]. by rewrite lor_cfi.
  - assert (tci = 0) as -> by (destruct Ht; [done|congruence]). split; [done|].
    exists []. rewrite app_nil_r. split; [done|]. by rewrite Hbase.
Qed.

Lemma priority_commits :
  agree (f_skb_priority masks) (f_skb_priority flow) (f_skb_priority base) →
  commits st (commit_set_priority_action flow um st) (put_skb_priority (f_skb_priority flow) base).
Proof.
  intros H. apply (commit_key_commits OVS_KEY_ATTR_PRIORITY); [|done|by destruct st as [[] ? ?]].
  intros _. unfold covered. by apply masked_agree.
Qed.
Lemma mark_commits :
  agree (f_pkt_mark masks) (f_pkt_mark flow) (f_pkt_mark base) →
  commits st (commit_set_pkt_mark_action flow um st) (put_pkt_mark (f_pkt_mark flow) base).
Proof.
  intros H. apply (commit_key_commits OVS_KEY_ATTR_SKB_MARK); [|done|by destruct st as [[] ? ?]].
  intros _. unfold covered. by apply masked_agree.
Qed.
End Steps.

(** ** All steps *)

(** The parts of the masks that are read after layer 3 was committed. *)
Definition upper (f : sflow) : Z * Z * flow_l4 := (f_skb_priority f, f_pkt_mark f, f_l4 f).
Definition metadata (f : sflow) : Z * Z := (f_skb_priority f, f_pkt_mark f).

Lemma ether_masks flow um st :
  f_l3 (c_masks (commit_set_ether_addr_action flow um st)) = f_l3 (c_masks st) ∧
  upper (c_masks (commit_set_ether_addr_action flow um st)) = upper (c_masks st).
Proof. split; by apply commit_key_masks. Qed.

Lemma nw_masks flow um st r :
  commit_set_nw_action flow um st = Ret r → upper (c_masks r.1) = upper (c_masks st).
Proof.
  unfold commit_set_nw_action, commit_set_ipv4_action, commit_set_ipv6_action.
  destruct (nw_proto_of flow =? 0); [by intros [= <-]|].
  destruct (_ =? ETH_TYPE_IP); [|destruct (_ =? ETH_TYPE_IPV6); [|destruct (_ =? ETH_TYPE_ARP)]]; intros H; inv_ret.
  - subst. apply commit_key_masks. intros m f. by destruct (negb (ipv4_proto m =? 0)).
  - subst. unfold commit_set_nd_action. rewrite commit_key_masks by done. apply commit_key_masks.
    intros m f. by destruct (negb (ipv6_proto m =? 0)).
  - subst. by apply commit_key_masks.
  - by subst.
Qed.

Lemma port_masks flow um st : metadata (c_masks (commit_set_port_action flow um st)) = metadata (c_masks st).
Proof.
  unfold commit_set_port_action.
  repeat match goal with |- context [if ?c then _ else _] => destruct c end; try done; by apply commit_key_masks.
Qed.
Lemma icmp_masks flow st : metadata (c_masks (commit_set_icmp_action flow st).1) = metadata (c_masks st).
Proof.
  unfold commit_set_icmp_action. destruct (is_icmpv4 flow), (is_icmpv6 flow); try done; by apply commit_key_masks.
Qed.
Lemma vlan_masks tci st : metadata (c_masks (commit_vlan_action tci st)) = metadata (c_masks st).
Proof. unfold commit_vlan_action, pop_vlan. by destruct (_ =? tci), (has_cfi (f_vlan_tci (f_l2 (c_base st)))). Qed.

Lemma nw_commits flow um st :
  masked_l3 (f_l3 (c_masks st)) (f_l3 flow) (f_l3 (c_base st)) → l3_settable flow (c_base st) →
  returns (commit_set_nw_action flow um st) (λ r, commits st r.1 (with_l3 (c_base st) (f_l3 flow))).
Proof.
  intros HM Hset. unfold commit_set_nw_action, l3_settable in *. set (base := c_base st) in *.
  assert (f_l3 flow = f_l3 base → commits st st (with_l3 base (f_l3 flow))) as Hsame.
  { intros ->. replace (with_l3 base (f_l3 base)) with base by (by destruct base). apply commits_refl. }
  destruct (nw_proto_of flow =? 0); [eexists; split; [done|auto]|].
  destruct (_ =? ETH_TYPE_IP); [|destruct (_ =? ETH_TYPE_IPV6); [|destruct (_ =? ETH_TYPE_ARP)]].
  - destruct Hset as [Hset Hfr]. pose proof Hset as E. cbn in E.
    eapply returns_bind; [apply (ipv4_commits flow um st HM)|].
    + unfold nw_proto_of. by rewrite E.
    + by rewrite E.
    + done.
    + intros st' Hc. eexists. split; [done|]. cbn [fst].
      replace (with_l3 base (f_l3 flow)) with (write_key OVS_KEY_ATTR_IPV4 (get_ipv4_key flow false) base); [done|].
      by rewrite Hset.
  - destruct Hset as [Hset Hfr]. pose proof Hset as E. cbn in E.
    eapply returns_bind; [apply (ipv6_commits flow um st HM)|].
    + unfold nw_proto_of. by rewrite E.
    + by rewrite E.
    + done.
    + intros st' [Hc Hm]. eexists. split; [done|].
      replace (with_l3 base (f_l3 flow)) with (write_key OVS_KEY_ATTR_ND (get_nd_key flow)
        (write_key OVS_KEY_ATTR_IPV6 (get_ipv6_key flow false) base)) by (by rewrite Hset).
      eapply commits_trans; [exact Hc|].
      pose proof Hc as [Hb _]. fold base in Hb. rewrite <-Hb. apply nd_commits. rewrite Hb.
      pose proof (cm_nd _ _ _ HM) as [N1 N2 N3]. injection Hm as M1 M2 M3.
      split; by rewrite ?M1, ?M2, ?M3.
  - destruct Hset as (Hset & _ & Hb). eexists. split; [done|].
    replace (with_l3 base (f_l3 flow)) with (write_key OVS_KEY_ATTR_ARP (get_arp_key flow) base) by (by rewrite Hset).
    by apply arp_commits.
  - eexists. split; [done|]. auto.
Qed.


(** ** MPLS *)

(** A label stack of at most three entries in front of zeros. *)
Record stack_ok (f : sflow) : Prop := {
  so_length : length (f_mpls_lse (f_l2 f)) = FLOW_MAX_MPLS_LABELS;
  so_zeros : let n := flow_count_mpls_labels f in
             drop n (f_mpls_lse (f_l2 f)) = replicate (FLOW_MAX_MPLS_LABELS - n) 0;
  so_some : eth_type_mpls (dl_type_of f) = true → flow_count_mpls_labels f ≠ 0%nat;
}.

(** The flow that pushes its first label. *)
Definition first_push (flow base : sflow) : bool :=
  (flow_count_mpls_labels base =? 0)%nat && (0 <? flow_count_mpls_labels flow)%nat.

Definition mpls_target (flow base : sflow) : sflow :=
  let f := if first_push flow base
           then mkSflow (f_skb_priority base) (f_pkt_mark base) 0 (f_l2 base) zero_l3 zero_l4 else base in
  set_mpls f (dl_type_of flow) (f_mpls_lse (f_l2 flow)).

Lemma count_labels_le f k i cnt : (cnt ≤ i)%nat → (count_labels k i cnt f ≤ i + k)%nat.
Proof.
  revert i cnt. induction k as [|k IH]; intros i cnt H; cbn [count_labels]; [lia|].
  destruct (mpls_lse_to_bos _); [lia|]. etrans; [apply IH; destruct (lse_at f i =? 0); lia|lia].
Qed.
Lemma count_le f : (flow_count_mpls_labels f ≤ 3)%nat.
Proof.
  unfold flow_count_mpls_labels. destruct (eth_type_mpls _); [|lia].
  pose proof (count_labels_le f FLOW_MAX_MPLS_LABELS 0 0). unfold FLOW_MAX_MPLS_LABELS in *. lia.
Qed.

Lemma count_type f : flow_count_mpls_labels f ≠ 0%nat → eth_type_mpls (dl_type_of f) = true.
Proof. unfold flow_count_mpls_labels. destruct (eth_type_mpls (dl_type_of f)); [done|]. intros []. done. Qed.

(** Concrete counts. *)
Ltac counts :=
  match goal with |- context [bool_decide ?P] =>
    first [rewrite (bool_decide_eq_true_2 P) by lia | rewrite (bool_decide_eq_false_2 P) by lia]
  end.

Lemma stack_type f : stack_ok f →
  eth_type_mpls (dl_type_of f) = negb (flow_count_mpls_labels f =? 0)%nat.
Proof.
  intros [_ _ Hs]. pose proof (count_type f) as Ht. destruct (Nat.eqb_spec (flow_count_mpls_labels f) 0) as [E|E].
  - destruct (eth_type_mpls (dl_type_of f)); [|done]. by destruct (Hs eq_refl).
  - by apply Ht.
Qed.

Lemma mpls_commits flow st :
  stack_ok flow → stack_ok (c_base st) →
  (flow_count_mpls_labels (c_base st) = 3%nat → mpls_lse_to_bos (lse_at (c_base st) 2) = true) →
  (flow_count_mpls_labels flow = flow_count_mpls_labels (c_base st) → dl_type_of flow = dl_type_of (c_base st)) →
  returns (commit_mpls_action flow st) (λ st',
    commits st st' (mpls_target flow (c_base st)) ∧ c_masks st' = c_masks st).
Proof.
  intros Hf Hb Hbos Hdl. pose proof (stack_type _ Hf) as Ef. pose proof (stack_type _ Hb) as Eb.
  destruct Hf as [Lf Zf _], Hb as [Lb Zb _].
  pose proof (count_le flow) as Cf. pose proof (count_le (c_base st)) as Cb.
  unfold commit_mpls_action, mpls_target, first_push, flow_count_common_mpls_labels, commits.
  set (fn := flow_count_mpls_labels flow) in *. set (bn := flow_count_mpls_labels (c_base st)) in *.
  clearbody fn bn.
  destruct flow as [fp fm fh [fd fs ft fv fl] f3 f4], st as [[bp bm bh [bd bs bt bv bl] b3 b4] masks acts].
  unfold dl_type_of in Ef, Eb, Hdl. cbn [c_base c_masks c_actions f_l2 f_mpls_lse f_dl_type] in *.
  destruct fl as [|x [|y [|z []]]]; try discriminate Lf. destruct bl as [|a [|b [|c []]]]; try discriminate Lb.
  cbn [lse_at nth f_l2 f_mpls_lse] in Hbos.
  destruct fn as [|[|[|[|]]]]; [| | | |lia]; destruct bn as [|[|[|[|]]]]; try lia;
    cbn in Zf, Zb, Ef, Eb; simplify_eq; try specialize (Hbos eq_refl); try specialize (Hdl eq_refl); subst; clear Cf Cb Lf Lb;
    cbn [Nat.min Nat.sub Nat.add common_labels lse_at nth f_l2 f_mpls_lse];
    repeat match goal with |- context [common_labels] => fail 1 | |- context [?u =? ?v] => destruct (Z.eqb_spec u v) as [->|?] end.
  all: unfold returns; eexists; split; [|].
  all: try (repeat progress (cbn; unfold flow_pop_mpls, flow_push_mpls, lse_at; rewrite ?Ef, ?Eb, ?Hbos; repeat counts); reflexivity).
  all: cbn; split; [|done]; split;
    [|first [exists []; rewrite app_nil_r; split; [reflexivity|]|eexists; rewrite <-?app_assoc; split; [reflexivity|]]].
  all: unfold apply_actions, apply_push_mpls; cbn; unfold apply_push_mpls; cbn; rewrite ?Ef, ?Eb; try reflexivity.
Qed.

(** ** Every flow that can be reached is reached *)

Record settable (flow base : sflow) : Prop := {
  se_flow : stack_ok flow;
  se_base : stack_ok base;
  (* only a complete label stack can be popped *)
  se_bos : flow_count_mpls_labels base = 3%nat → mpls_lse_to_bos (lse_at base 2) = true;
  se_type : dl_type_of flow = dl_type_of base ∨
            flow_count_mpls_labels flow ≠ flow_count_mpls_labels base ∧ nw_proto_of flow = 0;
  se_tci : tci_ok (f_vlan_tci (f_l2 flow)) ∧ tci_ok (f_vlan_tci (f_l2 base));
  se_upper : if first_push flow base
             then f_l3 flow = zero_l3 ∧ f_l4 flow = zero_l4 ∧ f_dp_hash flow = 0
             else l3_settable flow base ∧ l4_settable flow base ∧ f_dp_hash flow = f_dp_hash base;
}.

(** Layers 3 and 4 of the base, once they are committed. *)
Definition l34_target (flow base : sflow) : sflow :=
  if first_push flow base then base else with_l4 (with_l3 base (f_l3 flow)) (f_l4 flow).

Lemma with_l4_same f : with_l4 f (f_l4 f) = f.
Proof. by destruct f. Qed.

Lemma ports_not_icmp flow :
  (nw_proto_of flow =? IPPROTO_TCP) || (nw_proto_of flow =? IPPROTO_UDP) || (nw_proto_of flow =? IPPROTO_SCTP) = true →
  is_icmpv4 flow || is_icmpv6 flow = false.
Proof.
  unfold is_icmpv4, is_icmpv6. intros H. rewrite !orb_true_iff, !Z.eqb_eq in H.
  destruct H as [[-> | ->]| ->]; by rewrite !andb_false_r.
Qed.

(** The ports or the ICMP type and code. *)
Lemma l4_commits flow um st :
  masked_l4 (f_l4 (c_masks st)) (f_l4 flow) (f_l4 (c_base st)) →
  dl_type_of flow = dl_type_of (c_base st) ∨ nw_proto_of flow = 0 → l4_settable flow (c_base st) →
  let st' := (commit_set_icmp_action flow (commit_set_port_action flow um st)).1 in
  commits st st' (with_l4 (c_base st) (f_l4 flow)) ∧ metadata (c_masks st') = metadata (c_masks st).
Proof.
  intros HM Hdl Hset. cbv zeta. split; [|by rewrite icmp_masks, port_masks].
  pose proof (port_commits flow um st HM Hdl) as Hp. unfold l4_settable in Hset.
  eapply commits_trans; [exact Hp|]. pose proof Hp as [Hb _].
  set (c := is_ip_any flow && _ && _) in *. destruct c eqn:Ec.
  - pose proof (icmp_commits flow (commit_set_port_action flow um st)) as Hi.
    apply andb_true_iff in Ec as [_ Ec]. rewrite (ports_not_icmp _ Ec), Hb in Hi. by apply Hi.
  - pose proof (icmp_commits flow (commit_set_port_action flow um st)) as Hi. rewrite Hb in Hi.
    destruct (is_icmpv4 flow || is_icmpv6 flow); [by apply Hi|].
    rewrite Hset, with_l4_same. by apply Hi.
Qed.

Lemma l34_commits flow um st :
  masked_l3 (f_l3 (c_masks st)) (f_l3 flow) (f_l3 (c_base st)) →
  masked_l4 (f_l4 (c_masks st)) (f_l4 flow) (f_l4 (c_base st)) → settable flow (c_base st) →
  returns (let* (st1, slow1) := commit_set_nw_action flow um st in
           Ret (commit_set_icmp_action flow (commit_set_port_action flow um st1), slow1)) (λ r,
    commits st r.1.1 (l34_target flow (c_base st)) ∧ metadata (c_masks r.1.1) = metadata (c_masks st)).
Proof.
  intros HM3 HM4 HS. pose proof (se_upper _ _ HS) as Hup. unfold l34_target. destruct (first_push flow (c_base st)) eqn:Ef.
  - destruct Hup as (H3 & H4 & _). unfold commit_set_nw_action, nw_proto_of. rewrite H3. cbn [f_nw_proto zero_l3].
    eexists. split; [done|]. cbn [fst obind].
    assert (nw_proto_of flow = 0) as H0 by (unfold nw_proto_of; by rewrite H3).
    unfold commit_set_icmp_action, commit_set_port_action, is_icmpv4, is_icmpv6. rewrite H0. cbn [Z.eqb].
    rewrite !andb_false_r. split; [apply commits_refl|done].
  - destruct Hup as (H3 & H4 & _).
    destruct (nw_commits flow um st HM3 H3) as ([st1 slow1] & Heq & Hc). rewrite Heq.
    eexists. split; [done|]. cbn [fst] in *. pose proof Hc as [Hb _].
    pose proof (nw_masks _ _ _ _ Heq) as Hm. cbn [fst] in Hm. injection Hm as M1 M2 M3.
    destruct (l4_commits flow um st1) as [Hc4 Hm4].
    + by rewrite M3, Hb.
    + rewrite Hb. destruct (se_type _ _ HS) as [?|[_ ?]]; [by left|by right].
    + rewrite Hb. exact H4.
    + split; [|rewrite Hm4; unfold metadata; by rewrite M1, M2].
      rewrite Hb in Hc4. eapply commits_trans; [exact Hc|exact Hc4].
Qed.

(** The base flow with the Ethernet addresses of [flow] is as settable. *)
Lemma count_ext f f' :
  f_mpls_lse (f_l2 f') = f_mpls_lse (f_l2 f) → dl_type_of f' = dl_type_of f →
  flow_count_mpls_labels f' = flow_count_mpls_labels f.
Proof.
  intros H1 H2. unfold flow_count_mpls_labels. rewrite H2. destruct (eth_type_mpls _); [|done].
  cbn [count_labels FLOW_MAX_MPLS_LABELS]. unfold lse_at. by rewrite H1.
Qed.

Lemma stack_ok_ext f f' :
  f_mpls_lse (f_l2 f') = f_mpls_lse (f_l2 f) → dl_type_of f' = dl_type_of f → stack_ok f → stack_ok f'.
Proof.
  intros H1 H2 [S1 S2 S3]. split; cbv zeta; rewrite ?(count_ext f f'), ?H1, ?H2 by done; done.
Qed.

Lemma settable_ext flow b b' :
  f_mpls_lse (f_l2 b') = f_mpls_lse (f_l2 b) → dl_type_of b' = dl_type_of b →
  f_vlan_tci (f_l2 b') = f_vlan_tci (f_l2 b) → f_l3 b' = f_l3 b → f_l4 b' = f_l4 b → f_dp_hash b' = f_dp_hash b →
  settable flow b → settable flow b'.
Proof.
  intros H1 H2 H3 H4 H5 H6 [S1 S2 S3 S4 S5 S6]. pose proof (count_ext b b' H1 H2) as Hc. split.
  - done.
  - by eapply stack_ok_ext.
  - rewrite Hc. unfold lse_at in *. by rewrite H1.
  - by rewrite H2, Hc.
  - by rewrite H3.
  - unfold first_push, l4_settable in *. rewrite Hc, H5, H6. destruct (_ && _); [done|].
    destruct S6 as (? & ? & ?). split; [by eapply l3_settable_ext|done].
Qed.

(** The steps after layer 4, which read the metadata of the masks only. *)
Lemma tail_commits flow um st :
  agree (f_skb_priority (c_masks st)) (f_skb_priority flow) (f_skb_priority (c_base st)) →
  agree (f_pkt_mark (c_masks st)) (f_pkt_mark flow) (f_pkt_mark (c_base st)) →
  stack_ok flow → stack_ok (c_base st) →
  (flow_count_mpls_labels (c_base st) = 3%nat → mpls_lse_to_bos (lse_at (c_base st) 2) = true) →
  (flow_count_mpls_labels flow = flow_count_mpls_labels (c_base st) → dl_type_of flow = dl_type_of (c_base st)) →
  tci_ok (f_vlan_tci (f_l2 flow)) → tci_ok (f_vlan_tci (f_l2 (c_base st))) →
  returns (commit_mpls_action flow st) (λ st1,
    commits st (commit_set_pkt_mark_action flow um (commit_set_priority_action flow um
                  (commit_vlan_action (f_vlan_tci (f_l2 flow)) st1)))
      (put_pkt_mark (f_pkt_mark flow) (put_skb_priority (f_skb_priority flow)
         (set_vlan_tci (mpls_target flow (c_base st)) (f_vlan_tci (f_l2 flow)))))).
Proof.
  intros Hp Hm Hf Hb Hbos Hdl Ht Htb.
  destruct (mpls_commits flow st Hf Hb Hbos Hdl) as (st1 & Heq & C1 & M1). exists st1. split; [done|]. clear Heq.
  set (tci := f_vlan_tci (f_l2 flow)) in *. pose proof C1 as [B1 _].
  assert (metadata (mpls_target flow (c_base st)) = metadata (c_base st) ∧
    f_vlan_tci (f_l2 (mpls_target flow (c_base st))) = f_vlan_tci (f_l2 (c_base st))) as [Hmd Hv]
    by (unfold mpls_target; by destruct (first_push flow (c_base st))).
  assert (commits st1 (commit_vlan_action tci st1) (set_vlan_tci (c_base st1) tci)) as C2
    by (apply vlan_commits; [done|by rewrite B1, Hv]).
  pose proof (vlan_masks tci st1) as M2. rewrite M1 in M2. set (st2 := commit_vlan_action tci st1) in *.
  pose proof C2 as [B2 _]. injection M2 as M2 M3. injection Hmd as D1 D2.
  assert (commits st2 (commit_set_priority_action flow um st2) (put_skb_priority (f_skb_priority flow) (c_base st2))) as C3
    by (apply priority_commits; rewrite M2, B2, B1; cbn; by rewrite D1).
  pose proof C3 as [B3 _].
  assert (f_pkt_mark (c_masks (commit_set_priority_action flow um st2)) = f_pkt_mark (c_masks st2)) as M4
    by (by apply commit_key_masks).
  set (st3 := commit_set_priority_action flow um st2) in *.
  assert (commits st3 (commit_set_pkt_mark_action flow um st3) (put_pkt_mark (f_pkt_mark flow) (c_base st3))) as C4
    by (apply mark_commits; rewrite M4, M3, B3, B2, B1; cbn; by rewrite D2).
  rewrite B1 in C2. rewrite B2, B1 in C3. rewrite B3, B2, B1 in C4.
  eapply commits_trans; [exact C1|]. eapply commits_trans; [exact C2|]. by eapply commits_trans; [exact C3|].
Qed.

(** The steps together give the flow. *)
Lemma target_is_flow flow base :
  settable flow base →
  put_pkt_mark (f_pkt_mark flow) (put_skb_priority (f_skb_priority flow)
    (set_vlan_tci (mpls_target flow (l34_target flow (put_ethernet_key (get_ethernet_key flow) base)))
       (f_vlan_tci (f_l2 flow)))) = flow.
Proof.
  intros HS. pose proof (se_upper _ _ HS) as Hup. set (b1 := put_ethernet_key _ base).
  assert (flow_count_mpls_labels b1 = flow_count_mpls_labels base) as Hc by (by apply count_ext).
  assert (flow_count_mpls_labels (l34_target flow b1) = flow_count_mpls_labels base) as Hc'.
  { rewrite <-Hc. apply count_ext; unfold l34_target; by destruct (first_push flow b1). }
  unfold mpls_target, first_push. rewrite Hc'. fold (first_push flow base).
  unfold l34_target, first_push. rewrite Hc. fold (first_push flow base).
  destruct (first_push flow base).
  - destruct Hup as (H3 & H4 & Hh). unfold b1, set_vlan_tci, set_mpls, dl_type_of. cbn. rewrite <-H3, <-H4, <-Hh.
    by destruct flow as [? ? ? [] ? ?].
  - destruct Hup as (_ & _ & Hh). subst b1. clear -Hh.
    destruct flow as [? ? ? [] ? ?], base. cbn in Hh. by subst.
Qed.

Lemma commit_reaches flow um st :
  changes_masked (c_masks st) flow (c_base st) → settable flow (c_base st) →
  returns (commit_odp_actions flow um st) (λ r, commits st r.1 flow).
Proof.
  intros HM HS. unfold commit_odp_actions. set (base := c_base st) in *.
  pose proof (ether_commits flow um st (cm_l2 _ _ _ HM)) as C1.
  destruct (ether_masks flow um st) as [M3 Mu]. set (st1 := commit_set_ether_addr_action flow um st) in *.
  pose proof C1 as [B1 _]. fold base in B1. injection Mu as Mp Mm M4.
  set (b1 := put_ethernet_key (get_ethernet_key flow) base) in *.
  assert (settable flow b1) as HS1 by (by apply (settable_ext flow base)).
  destruct (l34_commits flow um st1) as ([[st3 slow2] slow1] & Heq & C2 & Mm2);
    [rewrite M3, B1; apply HM|rewrite M4, B1; apply HM|by rewrite B1|].
  apply obind_Ret in Heq as ([st2 slow1'] & Hnw & Hrest). injection Hrest as Hicmp ->.
  rewrite Hnw. cbn [obind fst] in *. rewrite Hicmp. clear Hnw Hicmp.
  pose proof C2 as [B2 _]. rewrite B1 in B2, C2. injection Mm2 as Mp2 Mm2.
  assert (f_l2 (c_base st3) = f_l2 b1 ∧ metadata (c_base st3) = metadata base) as [L2 Hmd]
    by (rewrite B2; unfold l34_target; by destruct (first_push flow b1)).
  assert (dl_type_of (c_base st3) = dl_type_of b1) as Hdl by (unfold dl_type_of; by rewrite L2).
  assert (flow_count_mpls_labels (c_base st3) = flow_count_mpls_labels b1) as Hcnt
    by (apply count_ext; [by rewrite L2|exact Hdl]).
  injection Hmd as D1 D2.
  destruct (tail_commits flow um st3) as (st4 & Heq & C3).
  { rewrite Mp2, Mp, D1. apply HM. }
  { rewrite Mm2, Mm, D2. apply HM. }
  { apply HS1. }
  { eapply stack_ok_ext; [by rewrite L2|exact Hdl|apply HS1]. }
  { rewrite Hcnt. unfold lse_at. rewrite L2. apply HS1. }
  { rewrite Hcnt, Hdl. intros E. destruct (se_type _ _ HS1) as [?|[? _]]; [done|congruence]. }
  { apply HS. }
  { rewrite L2. apply HS1. }
  rewrite Heq. cbn [obind]. eexists. split; [done|]. cbn [fst]. rewrite B2 in C3. unfold b1 in C3.
  rewrite target_is_flow in C3 by done.
  eapply commits_trans; [exact C1|]. by eapply commits_trans; [exact C2|].
Qed.
