(* ===== verification/OdpPackets.v ===== *)
(** * Datapath actions on packets

    Setting Ethernet addresses, masked set actions as reading, merging and
    setting, and what the actions of [commit_odp_actions] do to an IPv4
    packet. *)
From Stdlib Require Import ZArith Lia.
From stdpp Require Import base list numbers option.
From S2P Require Import Prelude GtpWire GtpWireProofs Csum CsumProofs Packets PacketsProofs PacketsIpv4 PacketsL4 PacketsNd Tags OdpExecute OdpExecuteProofs OdpCommit OdpCommitProofs.
Open Scope Z_scope.

(** ** Packets that are equal from an offset on *)

Record same_from (a : Z) (b b' : ip_packet) : Prop := {
  sf_shape : shape b' = shape b;
  sf_ok : ok b';
  sf_byte : ∀ q, a ≤ q → byte b' q = byte b q;
}.

Section Ipv4.
Context (nh hl th len : Z).
Abbreviation ipv4 := (ipv4_at nh hl th len).

Lemma same_from_ipv4 a b b' :
  ipv4 b → a ≤ nh → same_from a b b' →
  ipv4 b' ∧ csum_at nh th len b' = csum_at nh th len b ∧
  (header_ok nh hl b → header_ok nh hl b') ∧ (transport_ok nh th len b → transport_ok nh th len b').
Proof.
  intros HP Ha [Hsh Hok Hb]. pose proof Hsh as Hsh'. unfold shape in Hsh'. injection Hsh' as E3 E4 Ep Es.
  pose proof (v4_nh _ _ _ _ _ HP). pose proof (v4_hl _ _ _ _ _ HP). pose proof (v4_th _ _ _ _ _ HP).
  pose proof (v4_len _ _ _ _ _ HP). pose proof (v4_pad _ _ _ _ _ HP). pose proof (v4_size _ _ _ _ _ HP).
  assert (ipv4 b') as HP'.
  { destruct HP. split; try done; try congruence.
    - rewrite Hb by (unfold ip_ihl_ver; lia). done.
    - unfold word16. rewrite !Hb by (unfold ip_tot_len; lia). done. }
  assert (∀ x n, nh ≤ x → 0 ≤ n → x + n ≤ psize b → region b' x n = region b x n) as Hreg.
  { intros x n Hx Hn Hs. apply region_frame; [lia|lia|lia|lia|]. intros q Hq. apply Hb. lia. }
  split; [done|]. split.
  { unfold csum_at, word16. by rewrite !Hb by (unfold ip_proto, udp_csum; lia). }
  rewrite !header_ok_iff, !transport_ok_iff by done. unfold tsum, pseudo_rest.
  rewrite !Hreg by (unfold ip_src; lia). rewrite Hb by (unfold ip_proto; lia). done.
Qed.
End Ipv4.

(** ** Ethernet addresses *)

Lemma psize_write48 b p v0 v1 v2 : psize (write48 b p v0 v1 v2) = psize b.
Proof. unfold write48. by rewrite !psize_write16. Qed.
Lemma shape_write48 b p v0 v1 v2 : shape (write48 b p v0 v1 v2) = shape b.
Proof. unfold write48. by rewrite !shape_write16. Qed.
Lemma ok_write48 b p v0 v1 v2 : ok b → ok (write48 b p v0 v1 v2).
Proof. intros. unfold write48. by repeat apply ok_write16. Qed.
Lemma byte_write48_ne b p v0 v1 v2 q :
  0 ≤ p → 0 ≤ q → q < p ∨ p + 6 ≤ q → byte (write48 b p v0 v1 v2) q = byte b q.
Proof. intros. unfold write48. by rewrite !byte_write16_ne by lia. Qed.
Lemma mac3_write48 b p v0 v1 v2 :
  0 ≤ p → p + 6 ≤ psize b → short v0 → short v1 → short v2 → mac3 (write48 b p v0 v1 v2) p = [v0; v1; v2].
Proof.
  intros. unfold mac3, write48.
  rewrite !(word16_write16_ne _ (p + 4)), !(word16_write16_ne _ (p + 2)) by lia.
  by rewrite !word16_write16 by (rewrite ?psize_write16; done || lia).
Qed.
Lemma mac3_write48_ne b p v0 v1 v2 q :
  0 ≤ p → 0 ≤ q → q + 6 ≤ p ∨ p + 6 ≤ q → mac3 (write48 b p v0 v1 v2) q = mac3 b q.
Proof. intros. unfold mac3, write48. by rewrite !word16_write16_ne by lia. Qed.

(** The addresses of the Ethernet header, and new ones. *)
Definition eth_key (b : ip_packet) : ovs_key_ethernet := mkKeyEth (mac3 b 6) (mac3 b 0).
Definition eth_key_ok (k : ovs_key_ethernet) : Prop := eth_addr (eth_src k) ∧ eth_addr (eth_dst k).

Lemma eth_set_spec b key :
  l3_ofs (fr_ip b) ≠ UINT16_MAX → 12 ≤ psize (fr_ip b) → ok (fr_ip b) → eth_key_ok key →
  returns (odp_eth_set_addrs b key None) (λ b',
    b' = set_ip b (fr_ip b') ∧ same_from 12 (fr_ip b) (fr_ip b') ∧ eth_key (fr_ip b') = key).
Proof.
  intros Hl3 Hs Hok [Hsrc Hdst]. unfold odp_eth_set_addrs, dp_packet_l2.
  rewrite (proj2 (Z.eqb_neq _ _) Hl3). cbn [negb].
  destruct (eth_addr_inv _ Hsrc) as (s0 & s1 & s2 & Es & ? & ? & ?).
  destruct (eth_addr_inv _ Hdst) as (d0 & d1 & d2 & Ed & ? & ? & ?). rewrite Es, Ed.
  rewrite put_eth_addr_Ret by lia. cbn [obind]. rewrite put_eth_addr_Ret by (rewrite ?psize_write48; lia).
  cbn [obind]. eexists. split; [done|]. cbn [fr_ip set_ip]. split; [done|]. split.
  - split; [by rewrite !shape_write48|by repeat apply ok_write48|].
    intros q Hq. by rewrite !byte_write48_ne by lia.
  - unfold eth_key. rewrite mac3_write48_ne, !mac3_write48 by (rewrite ?psize_write48; done || lia).
    rewrite <-Es, <-Ed. by destruct key.
Qed.

(** ** Masked set actions: read, merge, set *)

Lemma masked_eth_is_set b key mask :
  12 ≤ psize (fr_ip b) →
  eth_addr (masked_each (eth_src key) (mac3 (fr_ip b) 6) (eth_src mask)) →
  odp_eth_set_addrs b key (Some mask) =
  odp_eth_set_addrs b (merge_key OVS_KEY_ATTR_ETHERNET key (eth_key (fr_ip b)) mask) None.
Proof.
  intros Hs Hm. unfold odp_eth_set_addrs. destruct (dp_packet_l2 b) as [eh|] eqn:E; [|done].
  unfold dp_packet_l2 in E. destruct (negb _); [|done]. injection E as <-.
  cbn [merge_key eth_src eth_dst eth_key]. rewrite get_eth_addr_Ret by lia. cbn [obind].
  unfold ether_addr_copy_masked. destruct (eth_addr_inv _ Hm) as (v0 & v1 & v2 & Ev & ? & ? & ?).
  change (0 + 6) with 6. rewrite Ev, put_eth_addr_Ret by lia. cbn [obind].
  rewrite get_eth_addr_Ret by (rewrite ?psize_write48; lia). cbn [obind].
  by rewrite mac3_write48_ne by lia.
Qed.

Definition ipv4_key (nh : Z) (b : ip_packet) : ovs_key_ipv4 :=
  mkKeyIpv4 (word32 b (nh + ip_src)) (word32 b (nh + ip_dst)) (byte b (nh + ip_proto))
    (byte b (nh + ip_tos)) (byte b (nh + ip_ttl)) 0.

Lemma masked_ipv4_is_set nh hl th len b key mask :
  ipv4_at nh hl th len b →
  odp_set_ipv4 b key mask =
  (let k := merge_key OVS_KEY_ATTR_IPV4 key (ipv4_key nh b) mask in
   packet_set_ipv4 b (ipv4_src k) (ipv4_dst k) (ipv4_tos k) (ipv4_ttl k)).
Proof.
  intros HP. destruct (ipv4_inside _ _ _ _ b HP) as (Hin & Hok & Hnh). unfold odp_set_ipv4.
  rewrite (l3_Ret _ _ _ _ b HP). cbn [obind].
  rewrite !get32_Ret, !peek8_Ret by (unfold ip_src, ip_dst, ip_tos, ip_ttl; done || lia). done.
Qed.

Lemma masked_ports_is_set set b th key mask :
  0 ≤ th → th + 4 ≤ psize b →
  set_masked_ports set b th key mask =
  (let k := merge_key OVS_KEY_ATTR_TCP key (mkKeyTp (word16 b th) (word16 b (th + 2))) mask in
   set b (key_tp_src k) (key_tp_dst k)).
Proof. intros. unfold set_masked_ports. by rewrite !peek16_Ret by lia. Qed.

(** ** The actions of a commit *)

(** The action that [commit] appends for a key, if any. *)
Definition key_acts (attr : ovs_key_attr) (um : bool) (key base mask : key_of attr) : list ovs_action :=
  if bool_decide (key = base) then []
  else if um && negb (odp_mask_is_exact attr mask)
  then [OVS_ACTION_ATTR_SET_MASKED attr (key_and attr key mask) mask]
  else [OVS_ACTION_ATTR_SET attr key].

Lemma commit_key_actions attr um key base mask pb pm st :
  c_actions (commit_key attr um key base mask pb pm st).1 = c_actions st ++ key_acts attr um key base mask.
Proof.
  unfold commit_key, commit, key_acts. case_bool_decide; cbn [negb]; [by rewrite app_nil_r|].
  by destruct (um && _).
Qed.
Lemma commit_key_same attr um key mask pb pm st :
  commit_key attr um key key mask pb pm st = (st, false).
Proof. unfold commit_key, commit. by rewrite bool_decide_eq_true_2. Qed.

(** A flow that differs from [base] in its Ethernet addresses and the members
    of an IPv4 key only. *)
Record ip_rewrite (flow base : sflow) : Prop := {
  ir_type : dl_type_of base = htons ETH_TYPE_IP;
  ir_l2 : f_l2 flow = f_l2 (put_ethernet_key (get_ethernet_key flow) base);
  ir_l3 : f_l3 flow = f_l3 (write_key OVS_KEY_ATTR_IPV4 (get_ipv4_key flow false) base);
  ir_l4 : f_l4 flow = f_l4 base;
  ir_md : metadata flow = metadata base;
  ir_proto : nw_proto_of base ≠ 0;
}.

Definition eth_acts (um : bool) (flow base masks : sflow) : list ovs_action :=
  key_acts OVS_KEY_ATTR_ETHERNET um (get_ethernet_key flow) (get_ethernet_key base) (get_ethernet_key masks).
Definition ipv4_acts (um : bool) (flow base masks : sflow) : list ovs_action :=
  key_acts OVS_KEY_ATTR_IPV4 um (get_ipv4_key flow false) (get_ipv4_key base false)
    (writeable_ipv4 (get_ipv4_key masks true)).

(** A commit of a key whose members are outside of [g]. *)
Lemma commit_key_frame {A} (g : sflow → A) attr um key base mask pb pm st :
  (∀ k f, g (pb k f) = g f) → g (c_base (commit_key attr um key base mask pb pm st).1) = g (c_base st).
Proof. intros Hg. unfold commit_key. destruct (commit _ _ _ _ _ _) as [[[? ?] ?]|]; [apply Hg|done]. Qed.

Definition l2_rest (f : sflow) : Z * Z := (dl_type_of f, f_vlan_tci (f_l2 f)).

(** The steps that find nothing to do. *)
Lemma nothing_left flow um st :
  l2_rest flow = l2_rest (c_base st) → dl_type_of flow = htons ETH_TYPE_IP →
  f_l4 flow = f_l4 (c_base st) → metadata flow = metadata (c_base st) →
  let st' := commit_set_port_action flow um st in
  st' = st ∧ commit_set_icmp_action flow st = (st, false) ∧ commit_mpls_action flow st = Ret st ∧
  commit_vlan_action (f_vlan_tci (f_l2 flow)) st = st ∧
  commit_set_priority_action flow um st = st ∧ commit_set_pkt_mark_action flow um st = st.
Proof.
  intros H2 Hty H4 Hm. injection H2 as Ht Hv. injection Hm as Hp Hk. cbv zeta. split_and!.
  - unfold commit_set_port_action, get_tp_key. rewrite H4, !commit_key_same.
    by repeat match goal with |- context [if ?c then _ else _] => destruct c end.
  - unfold commit_set_icmp_action, get_icmp_key. rewrite H4, !commit_key_same. by destruct (is_icmpv4 flow), (is_icmpv6 flow).
  - unfold commit_mpls_action, flow_count_mpls_labels. by rewrite <-Ht, Hty.
  - unfold commit_vlan_action. by rewrite Hv, Z.eqb_refl.
  - unfold commit_set_priority_action. by rewrite Hp, commit_key_same.
  - unfold commit_set_pkt_mark_action. by rewrite Hk, commit_key_same.
Qed.

Lemma rewrite_actions flow um base masks acts :
  ip_rewrite flow base →
  returns (commit_odp_actions flow um (mkCommit base masks acts)) (λ '(st', slow),
    slow = false ∧ c_actions st' = acts ++ eth_acts um flow base masks ++ ipv4_acts um flow base masks).
Proof.
  intros HR. pose proof (ir_type _ _ HR) as Hty. pose proof (ir_l2 _ _ HR) as H2. pose proof (ir_l3 _ _ HR) as H3.
  assert (l2_rest flow = l2_rest base) as Hl2 by (unfold l2_rest, dl_type_of; by rewrite H2).
  assert (nw_proto_of flow = nw_proto_of base) as Hp by (unfold nw_proto_of; by rewrite H3).
  assert (f_nw_frag (f_l3 flow) = f_nw_frag (f_l3 base)) as Hf by (by rewrite H3).
  unfold commit_odp_actions. set (st := mkCommit base masks acts). unfold commit_set_ether_addr_action.
  set (st1 := (commit_key OVS_KEY_ATTR_ETHERNET _ _ _ _ _ _ _).1).
  assert (c_actions st1 = acts ++ eth_acts um flow base masks) as A1 by apply commit_key_actions.
  assert (f_l3 (c_base st1) = f_l3 base ∧ f_l4 (c_base st1) = f_l4 base ∧ l2_rest (c_base st1) = l2_rest base ∧
    metadata (c_base st1) = metadata base) as (B3 & B4 & B2 & Bm) by (split_and!; by apply commit_key_frame).
  assert (f_l3 (c_masks st1) = f_l3 masks) as M3 by (by apply commit_key_masks).
  clearbody st1. injection Hl2 as Ht Hv. injection B2 as Bt Bv.
  unfold commit_set_nw_action. rewrite Hp, (proj2 (Z.eqb_neq _ _) (ir_proto _ _ HR)), Bt, Hty.
  change (ntohs (htons ETH_TYPE_IP) =? ETH_TYPE_IP) with true. cbv iota.
  unfold commit_set_ipv4_action. rewrite same_ip by (unfold nw_proto_of in *; by rewrite B3). cbn [ovs_assert obind].
  set (st2 := (commit_key OVS_KEY_ATTR_IPV4 _ _ _ _ _ _ _).1).
  assert (c_actions st2 = c_actions st1 ++ ipv4_acts um flow base masks) as A2.
  { unfold st2. rewrite commit_key_actions. unfold ipv4_acts, get_ipv4_key. by rewrite B3, M3. }
  assert (f_l4 (c_base st2) = f_l4 (c_base st1) ∧ l2_rest (c_base st2) = l2_rest (c_base st1) ∧
    metadata (c_base st2) = metadata (c_base st1)) as (C4 & C2 & Cm) by (split_and!; by apply commit_key_frame).
  clearbody st2.
  destruct (nothing_left flow um st2) as (E1 & E2 & E3 & E4 & E5 & E6).
  { rewrite C2. unfold l2_rest. by rewrite Bt, Bv, Ht, Hv. }
  { by rewrite Ht. }
  { by rewrite C4, B4, (ir_l4 _ _ HR). }
  { by rewrite Cm, Bm, (ir_md _ _ HR). }
  rewrite E1, E2, E3. cbn [obind]. rewrite E4, E5, E6.
  eexists. split; [done|]. split; [done|]. by rewrite A2, A1, app_assoc.
Qed.

(** ** Executing them *)

Section Execute.
Context {Tnl : Type}.
Implicit Types p : packet Tnl.
Variable uninit : nat → Z.
Variable odp_tun_key_from_attr : list Z → option Tnl.
Variable hash_5tuple : packet Tnl → Z → Z.
Abbreviation run := (local_actions uninit odp_tun_key_from_attr hash_5tuple).

Definition ip_of p : ip_packet := fr_ip (pframe p).

(** Only the bytes of the packet have changed. *)
Definition same_meta p p' : Prop := md p' = md p ∧ pframe p' = set_ip (pframe p) (ip_of p').

Lemma same_meta_refl p : same_meta p p.
Proof. split; [done|]. by destruct p as [[] ?]. Qed.
Lemma same_meta_trans p1 p2 p3 : same_meta p1 p2 → same_meta p2 p3 → same_meta p1 p3.
Proof. intros [M1 F1] [M2 F2]. split; [congruence|]. by rewrite F2, F1. Qed.

Lemma on_frame_returns p c (Q : frame → Prop) :
  returns c (λ b, b = set_ip (pframe p) (fr_ip b) ∧ Q b) →
  returns (let* p' := on_frame p c in Ret p') (λ p', same_meta p p' ∧ Q (pframe p')).
Proof. intros (b & -> & Hb & HQ). eexists. split; [done|]. by split. Qed.

Lemma eth_acts_exec p um key mask :
  l3_ofs (ip_of p) ≠ UINT16_MAX → 12 ≤ psize (ip_of p) → ok (ip_of p) → eth_key_ok key →
  (um = true → covered OVS_KEY_ATTR_ETHERNET key (eth_key (ip_of p)) mask) →
  returns (run (key_acts OVS_KEY_ATTR_ETHERNET um key (eth_key (ip_of p)) mask) p) (λ p',
    same_meta p p' ∧ same_from 12 (ip_of p) (ip_of p') ∧ eth_key (ip_of p') = key).
Proof.
  intros Hl3 Hs Hok Hkey Hcov. unfold key_acts. case_bool_decide as Heq.
  { exists p. split; [done|]. split; [apply same_meta_refl|]. split; [by split|done]. }
  pose proof (on_frame_returns p _ (λ b, same_from 12 (ip_of p) (fr_ip b) ∧ eth_key (fr_ip b) = key)
    (eth_set_spec (pframe p) key Hl3 Hs Hok Hkey)) as Hexec.
  destruct (um && _) eqn:E; cbn [local_actions local_action odp_execute_set_action odp_execute_masked_set_action].
  - apply andb_true_iff in E as [-> _]. specialize (Hcov eq_refl). unfold covered in Hcov. cbn [key_of] in *.
    assert (masked_each (eth_src (key_and OVS_KEY_ATTR_ETHERNET key mask)) (mac3 (ip_of p) 6) (eth_src mask) = eth_src key)
      as Esrc by (by rewrite <-Hcov at 2).
    rewrite masked_eth_is_set; [|done|]; unfold ip_of in *.
    + rewrite Hcov. exact Hexec.
    + rewrite Esrc. apply Hkey.
  - exact Hexec.
Qed.

Section Ipv4.
Context (nh hl th len : Z).

Definition ipv4_fields (k : ovs_key_ipv4) (b : ip_packet) : Prop :=
  word32 b (nh + ip_src) = ipv4_src k ∧ word32 b (nh + ip_dst) = ipv4_dst k ∧
  byte b (nh + ip_tos) = ipv4_tos k ∧ byte b (nh + ip_ttl) = ipv4_ttl k.
Definition ipv4_key_ok (k : ovs_key_ipv4) : Prop :=
  0 ≤ ipv4_src k < 2 ^ 32 ∧ 0 ≤ ipv4_dst k < 2 ^ 32 ∧ 0 ≤ ipv4_tos k < 256 ∧ 0 ≤ ipv4_ttl k < 256.

Lemma set_ipv4_fields p key :
  ipv4_at nh hl th len (ip_of p) → ipv4_key_ok key →
  returns (let* p' := on_ip p (packet_set_ipv4 (ip_of p) (ipv4_src key) (ipv4_dst key) (ipv4_tos key) (ipv4_ttl key)) in Ret p')
    (λ p', same_meta p p' ∧ keeps nh hl th len (fields nh) (ip_of p) (ip_of p') ∧ ipv4_fields key (ip_of p')).
Proof.
  intros HP (K1 & K2 & K3 & K4).
  destruct (set_ipv4_keeps nh hl th len (ip_of p) _ _ _ _ HP K1 K2 K3 K4) as (b' & Heq & HK & HF).
  unfold ip_of in *. rewrite Heq. eexists. split; [done|]. by split.
Qed.

Lemma ipv4_acts_exec p um key base mask :
  ipv4_at nh hl th len (ip_of p) → ipv4_fields base (ip_of p) → ipv4_key_ok key →
  (um = true → covered OVS_KEY_ATTR_IPV4 key base mask) →
  returns (run (key_acts OVS_KEY_ATTR_IPV4 um key base mask) p) (λ p',
    same_meta p p' ∧ keeps nh hl th len (fields nh) (ip_of p) (ip_of p') ∧ ipv4_fields key (ip_of p')).
Proof.
  intros HP HB Hkey Hcov. unfold key_acts. case_bool_decide as Heq.
  { subst. exists p. split; [done|]. split; [apply same_meta_refl|]. split; [|done].
    eapply fields_mono, keeps_refl, HP. }
  pose proof (set_ipv4_fields p key HP Hkey) as Hset.
  destruct (um && _) eqn:E; cbn [local_actions local_action odp_execute_set_action odp_execute_masked_set_action];
    [|exact Hset].
  apply andb_true_iff in E as [-> _]. specialize (Hcov eq_refl). unfold covered in Hcov.
  destruct HB as (B1 & B2 & B3 & B4). destruct key as [k1 k2 k3 k4 k5 k6], base as [b1 b2 b3 b4 b5 b6]. cbn in Hcov, B1, B2, B3, B4.
  injection Hcov as C1 C2 _ C4 C5 _.
  change (fr_ip (pframe p)) with (ip_of p). rewrite (masked_ipv4_is_set nh hl th len) by done.
  cbn [merge_key key_and ipv4_src ipv4_dst ipv4_tos ipv4_ttl ipv4_key].
  rewrite B1, B2, B3, B4, C1, C2, C4, C5. exact Hset.
Qed.

Lemma run_app l l' p : run (l ++ l') p = (let* p := run l p in run l' p).
Proof. revert p. induction l as [|a l IH]; intros p; cbn [app local_actions]; [done|]. destruct (local_action _ _ _ a p); cbn [obind]; auto. Qed.

(** A packet with the headers that [f] describes. *)
Record carries p (f : sflow) : Prop := {
  ca_ipv4 : ipv4_at nh hl th len (ip_of p);
  ca_nh : 14 ≤ nh;
  ca_eth : eth_key (ip_of p) = get_ethernet_key f;
  ca_fields : ipv4_fields (get_ipv4_key f false) (ip_of p);
}.

(** [p'] is [p] with other addresses, type of service and time to live, and
    with checksums that are as right as they were. *)
Record rewritten p p' : Prop := {
  rw_meta : same_meta p p';
  rw_bytes : ∀ q, 12 ≤ q → ¬ fields nh q → ¬ csum_byte nh th len (ip_of p) q → byte (ip_of p') q = byte (ip_of p) q;
  rw_csum_at : csum_at nh th len (ip_of p') = csum_at nh th len (ip_of p);
  rw_header : header_ok nh hl (ip_of p) → header_ok nh hl (ip_of p');
  rw_transport : csum_at nh th len (ip_of p) ≠ None →
                 transport_ok nh th len (ip_of p) → transport_ok nh th len (ip_of p');
}.

Lemma same_from_fields k b b' : ipv4_at nh hl th len b → 12 ≤ nh → same_from 12 b b' → ipv4_fields k b → ipv4_fields k b'.
Proof.
  intros HP Hnh HS (F1 & F2 & F3 & F4). unfold ipv4_fields, ip_src, ip_dst, ip_tos, ip_ttl in *.
  rewrite !(sf_byte _ _ _ HS) by lia. rewrite !(word32_frame b b') by (intros q Hq; apply HS; lia). done.
Qed.

(** The actions of a commit turn the packet of [base] into one of [flow]. *)
Lemma rewrite_exec flow base masks um p :
  carries p base → eth_key_ok (get_ethernet_key flow) → ipv4_key_ok (get_ipv4_key flow false) →
  (um = true → covered OVS_KEY_ATTR_ETHERNET (get_ethernet_key flow) (get_ethernet_key base) (get_ethernet_key masks) ∧
     covered OVS_KEY_ATTR_IPV4 (get_ipv4_key flow false) (get_ipv4_key base false) (writeable_ipv4 (get_ipv4_key masks true))) →
  returns (run (eth_acts um flow base masks ++ ipv4_acts um flow base masks) p) (λ p',
    carries p' flow ∧ rewritten p p').
Proof.
  intros [HP Hnh He Hf] Hke Hki Hcov. destruct (ipv4_inside _ _ _ _ _ HP) as (Hin & Hok & _).
  pose proof (v4_th _ _ _ _ _ HP) as Hth. pose proof (v4_hl _ _ _ _ _ HP) as Hhl.
  rewrite run_app. eapply returns_bind.
  { unfold eth_acts. rewrite <-He. apply eth_acts_exec; [|lia|done|done|].
    - rewrite (v4_l3 _ _ _ _ _ HP). unfold UINT16_MAX. lia.
    - intros ->. rewrite He. by apply Hcov. }
  intros p1 (M1 & S1 & E1). cbn beta in *.
  destruct (same_from_ipv4 nh hl th len 12 _ _ HP ltac:(lia) S1) as (HP1 & Ca1 & Hh1 & Ht1).
  destruct (ipv4_acts_exec p1 um (get_ipv4_key flow false) (get_ipv4_key base false)
    (writeable_ipv4 (get_ipv4_key masks true))) as (p2 & Heq & M2 & K2 & F2);
    [done|eapply same_from_fields; [exact HP|lia|exact S1|exact Hf]|done|intros ->; by apply Hcov|].
  exists p2. split; [exact Heq|]. destruct (keeps_checksums nh hl th len _ _ HP1 K2) as [Hh2 Ht2].
  assert (∀ q, 0 ≤ q < 12 → byte (ip_of p2) q = byte (ip_of p1) q) as Hlow.
  { intros q Hq. apply (k_frame _ _ _ _ _ _ _ K2); [lia|unfold fields, ip_tos, ip_ttl, ip_src; lia|].
    intros Hc. apply csum_byte_places in Hc. unfold ip_csum in Hc. lia. }
  split.
  - split; [by eapply keeps_ipv4|done| |done]. rewrite <-E1. unfold eth_key, mac3, word16.
    by rewrite !Hlow by lia.
  - split.
    + by eapply same_meta_trans.
    + intros q Hq Hnf Hnc. rewrite (k_frame _ _ _ _ _ _ _ K2); [by apply S1|lia|done|].
      unfold csum_byte in *. by rewrite Ca1.
    + by rewrite (k_csum_at _ _ _ _ _ _ _ K2), Ca1.
    + auto.
    + intros Hn Ht. apply Ht2; [by rewrite Ca1|auto].
Qed.
End Ipv4.
End Execute.
