(* ===== verification/OfpActions.v ===== *)
(** * lib/ofp-actions.c: the GTP actions on the OpenFlow wire

    The thirteen actions of the GTP manager in the three encodings
    OFPAT_RAW10, OFPAT_RAW11 and OFPAT_RAW12, through the functions that write
    and read actions.  [all_raw_instances], the [put_OFPAT] functions and the
    dispatch [ofpact_decode] are what build-aux/extract-ofp-actions makes of
    the comments of [enum ofp_raw_action_type]; the entries of the table for
    all other actions, and their decoder, are parameters. *)
From Stdlib Require Import ZArith Lia.
From stdpp Require Import base list gmap numbers option.
From S2P Require Import Prelude GtpWire.
Open Scope Z_scope.

(** ** Action types *)

Inductive gtp_type :=
| T_HANDLE_GTP | T_OPERATE_GTP | T_GTP_TEID | T_GTP_PGW_IP | T_OVS_ID | T_OVS_TOTAL
| T_GTP_PGW_PORT | T_OVS_PHY_PORT | T_HANDLE_PGW_SGI | T_PGW_SGI_PORT | T_PGW_FASTPATH
| T_GTP_PGW_ETH | T_PGW_SGI_ETH.

(** OFPAT_RAW10, OFPAT_RAW11, OFPAT_RAW12. *)
Inductive enc := E10 | E11 | E12.

(** [enum ofp_raw_action_type]. *)
Inductive ofp_raw_action_type :=
| RAW_GTP (e : enc) (t : gtp_type)
| RAW_OTHER (n : Z).

#[global] Instance gtp_type_eq_dec : EqDecision gtp_type.
Proof. solve_decision. Defined.
#[global] Instance enc_eq_dec : EqDecision enc.
Proof. solve_decision. Defined.
#[global] Instance raw_eq_dec : EqDecision ofp_raw_action_type.
Proof. solve_decision. Defined.

Definition gtp_types : list gtp_type :=
  [T_HANDLE_GTP; T_OPERATE_GTP; T_GTP_TEID; T_GTP_PGW_IP; T_OVS_ID; T_OVS_TOTAL;
   T_GTP_PGW_PORT; T_OVS_PHY_PORT; T_HANDLE_PGW_SGI; T_PGW_SGI_PORT; T_PGW_FASTPATH;
   T_GTP_PGW_ETH; T_PGW_SGI_ETH].

(** The number in the comment of an enumerator, "OF1.0(28)". *)
Definition type_number (t : gtp_type) : Z :=
  match t with
  | T_HANDLE_GTP => 28 | T_OPERATE_GTP => 29 | T_GTP_TEID => 30 | T_GTP_PGW_IP => 31
  | T_OVS_ID => 32 | T_OVS_TOTAL => 33 | T_GTP_PGW_PORT => 34 | T_OVS_PHY_PORT => 35
  | T_HANDLE_PGW_SGI => 36 | T_PGW_SGI_PORT => 37 | T_PGW_FASTPATH => 38
  | T_GTP_PGW_ETH => 39 | T_PGW_SGI_ETH => 40
  end.

(** "OF1.0", "OF1.1" and "OF1.2-1.4", as [ofp_header] versions. *)
Definition enc_versions (e : enc) : list Z :=
  match e with E10 => [1] | E11 => [2] | E12 => [3; 4; 5] end.

(** The argument type in the comment: its size, or none. *)
Inductive argtype := A_void | A_int (size : Z) | A_dl_addr.
Definition arg_type (t : gtp_type) : argtype :=
  match t with
  | T_HANDLE_GTP | T_HANDLE_PGW_SGI => A_void
  | T_OPERATE_GTP | T_PGW_FASTPATH => A_int 1
  | T_OVS_ID | T_OVS_TOTAL | T_GTP_PGW_PORT | T_OVS_PHY_PORT | T_PGW_SGI_PORT => A_int 2
  | T_GTP_TEID | T_GTP_PGW_IP => A_int 4
  | T_GTP_PGW_ETH | T_PGW_SGI_ETH => A_dl_addr
  end.

(** ** [struct ofpact_raw_instance] *)

Record ofpact_raw_instance := mkInst {
  i_vendor : Z;
  i_type : Z;
  i_version : Z;
  i_raw : ofp_raw_action_type;
  i_min_length : Z;
  i_max_length : Z;
  i_arg_ofs : Z;
  i_arg_len : Z;
}.

Definition round_up (x y : Z) : Z := (x + (y - 1)) / y * y.

(** One entry, computed as the generator does for vendor "OF", whose header
    takes 4 bytes. *)
Definition gtp_instance (e : enc) (t : gtp_type) (version : Z) : ofpact_raw_instance :=
  let raw := RAW_GTP e t in
  match arg_type t with
  | A_void => let len := round_up 4 8 in mkInst 0 (type_number t) version raw len len 0 0
  | A_int size =>
      let ofs := round_up 4 size in
      let len := round_up (ofs + size) 8 in
      mkInst 0 (type_number t) version raw len len ofs size
  | A_dl_addr => mkInst 0 (type_number t) version raw 16 16 0 0
  end.

Definition gtp_instances : list ofpact_raw_instance :=
  e ← [E10; E11; E12]; t ← gtp_types; v ← enc_versions e; [gtp_instance e t v].

(** ** Bytes of an action *)

(** [n] bytes of [arg], most significant first: the loop that stores them
    from the end. *)
Fixpoint be_bytes (n : nat) (arg : Z) : list Z :=
  match n with
  | O => []
  | S n => be_bytes n (Z.shiftr arg 8) ++ [u8 arg]
  end.

(** The loop that reads them back. *)
Definition of_be_bytes (l : list Z) : Z :=
  foldl (λ arg b, u64 (Z.lor (Z.shiftl arg 8) b)) 0 l.

(** Store [l] at offset [ofs]. *)
Definition poke (b : list Z) (ofs : Z) (l : list Z) : list Z :=
  take (Z.to_nat ofs) b ++ l ++ drop (Z.to_nat ofs + length l) b.

Definition peek (b : list Z) (ofs len : Z) : list Z := take (Z.to_nat len) (drop (Z.to_nat ofs) b).

Definition OFPAT_VENDOR : Z := 0xffff.
Definition NX_VENDOR_ID : Z := 0x00002320.
Definition ONF_VENDOR_ID : Z := 0x4f4e4600.

Inductive ofperr :=
| OFPBAC_BAD_LEN | OFPBAC_BAD_TYPE | OFPBAC_BAD_VENDOR | OFPBAC_BAD_VENDOR_TYPE
| OFPERR_OTHER (n : Z).

(** ** The actions inside the switch *)

Inductive ofpact :=
| HANDLE_GTP (raw : ofp_raw_action_type)
| HANDLE_PGW_SGI (raw : ofp_raw_action_type)
| OPERATE_GTP (operation : Z)
| PGW_FASTPATH (pgw_fastpath : Z)
| OVS_ID (ovs_id : Z)
| OVS_TOTAL (ovs_total : Z)
| GTP_PGW_PORT (gtp_pgw_port : Z)
| PGW_SGI_PORT (pgw_sgi_port : Z)
| OVS_PHY_PORT (ovs_phy_port : Z)
| GTP_PGW_ETH (mac : Z)
| PGW_SGI_ETH (mac : Z)
| GTP_PGW_IP (gtp_pgw_ip : Z)
| GTP_TEID (gtp_teid : Z)
| OFPACT_OTHER (n : Z).

Section Actions.
(** The other entries of [all_raw_instances], the decoder and the encoder of
    the other actions. *)
Variable other_instances : list ofpact_raw_instance.
Variable decode_other : Z → Z → Z → list Z → ofperr + ofpact.
Variable encode_other : Z → Z → list Z.

Definition all_raw_instances : list ofpact_raw_instance := gtp_instances ++ other_instances.

(** The hash maps over the table are searched for the one entry with the
    given identity. *)
Definition ofpact_raw_lookup (version : Z) (raw : ofp_raw_action_type) :
    outcome ofpact_raw_instance :=
  match filter (λ i, i_raw i = raw ∧ i_version i = version) all_raw_instances with
  | i :: _ => Ret i
  | [] => Fault AssertFail
  end.

(** The bytes appended to the buffer. *)
Definition ofpact_put_raw (version : Z) (raw : ofp_raw_action_type) (arg : Z) :
    outcome (list Z) :=
  let* inst := ofpact_raw_lookup version raw in
  let oah := replicate (Z.to_nat (i_min_length inst)) 0 in
  let oah := poke oah 0 (be_bytes 2 (if i_vendor inst =? 0 then i_type inst else OFPAT_VENDOR)) in
  let oah := poke oah 2 (be_bytes 2 (i_min_length inst)) in
  let oah := poke oah 4 (be_bytes 4 (i_vendor inst)) in
  let* oah :=
    if i_vendor inst =? 0 then Ret oah
    else if (i_vendor inst =? NX_VENDOR_ID) || (i_vendor inst =? ONF_VENDOR_ID)
    then Ret (poke oah 8 (be_bytes 2 (i_type inst)))
    else Fault AssertFail in
  if negb (i_arg_len inst =? 0)
  then Ret (poke oah (i_arg_ofs inst) (be_bytes (Z.to_nat (i_arg_len inst)) arg))
  else let* _ := ovs_assert (arg =? 0) in Ret oah.

Definition ofpact_decode_raw (version : Z) (buf : list Z) : ofperr + ofpact_raw_instance :=
  if Z.of_nat (length buf) <? 8 then inl OFPBAC_BAD_LEN
  else
    let type := of_be_bytes (peek buf 0 2) in
    let hdrs :=
      if type =? OFPAT_VENDOR then
        let vendor := of_be_bytes (peek buf 4 4) in
        if (vendor =? NX_VENDOR_ID) || (vendor =? ONF_VENDOR_ID) then
          if Z.of_nat (length buf) <? 16 then inl OFPBAC_BAD_LEN
          else inr (vendor, of_be_bytes (peek buf 8 2))
        else inl OFPBAC_BAD_VENDOR
      else inr (0, type) in
    match hdrs with
    | inl err => inl err
    | inr (vendor, type) =>
        match filter (λ i, i_vendor i = vendor ∧ i_type i = type ∧ i_version i = version)
                all_raw_instances with
        | i :: _ => inr i
        | [] => inl (if vendor =? 0 then OFPBAC_BAD_TYPE else OFPBAC_BAD_VENDOR_TYPE)
        end
    end.

(** The raw type, the argument, the action and the rest of the buffer. *)
Definition ofpact_pull_raw (version : Z) (buf : list Z) :
    outcome (ofperr + (ofp_raw_action_type * Z * list Z)) :=
  match ofpact_decode_raw version buf with
  | inl err => Ret (inl err)
  | inr action =>
      let length := of_be_bytes (peek buf 2 2) in
      if Z.of_nat (List.length buf) <? length then Ret (inl OFPBAC_BAD_LEN)
      else if (length <? i_min_length action) || (i_max_length action <? length)
      then Ret (inl OFPBAC_BAD_LEN)
      else if negb (length mod 8 =? 0) then Ret (inl OFPBAC_BAD_LEN)
      else
        let* arg :=
          if negb (i_arg_len action =? 0) then
            let* _ := ovs_assert
              (i_arg_ofs action + i_arg_len action <=? Z.of_nat (List.length buf)) in
            Ret (of_be_bytes (peek buf (i_arg_ofs action) (i_arg_len action)))
          else Ret 0 in
        Ret (inr (i_raw action, arg, drop (Z.to_nat length) buf))
  end.

(** ** Encoding *)

Definition OFP10_VERSION : Z := 1.
Definition OFP11_VERSION : Z := 2.

(** [put_OFPAT10_X] writes for version 1, [put_OFPAT11_X] for 2, and
    [put_OFPAT12_X] for the first version of its range. *)
Definition enc_of_version (version : Z) : enc :=
  if version =? OFP10_VERSION then E10
  else if version =? OFP11_VERSION then E11 else E12.
Definition put_version (e : enc) : Z := match e with E10 => 1 | E11 => 2 | E12 => 3 end.

Definition put_OFPAT (version : Z) (t : gtp_type) (arg : Z) : outcome (list Z) :=
  let e := enc_of_version version in
  ofpact_put_raw (put_version e) (RAW_GTP e t) arg.

Definition encode_HANDLE_GTP (version : Z) := put_OFPAT version T_HANDLE_GTP 0.
Definition encode_HANDLE_PGW_SGI (version : Z) := put_OFPAT version T_HANDLE_PGW_SGI 0.
Definition encode_OPERATE_GTP (version operation : Z) := put_OFPAT version T_OPERATE_GTP operation.
Definition encode_PGW_FASTPATH (version v : Z) := put_OFPAT version T_PGW_FASTPATH v.
Definition encode_OVS_ID (version v : Z) := put_OFPAT version T_OVS_ID v.
Definition encode_OVS_TOTAL (version v : Z) := put_OFPAT version T_OVS_TOTAL v.
Definition encode_GTP_PGW_PORT (version v : Z) := put_OFPAT version T_GTP_PGW_PORT v.
Definition encode_PGW_SGI_PORT (version v : Z) := put_OFPAT version T_PGW_SGI_PORT v.
Definition encode_OVS_PHY_PORT (version v : Z) := put_OFPAT version T_OVS_PHY_PORT v.
(** The argument of an [ovs_be32] action goes through [ntohl]. *)
Definition encode_GTP_PGW_IP (version addr : Z) := put_OFPAT version T_GTP_PGW_IP (ntohl addr).
Definition encode_GTP_TEID (version v : Z) := put_OFPAT version T_GTP_TEID v.

(** [put_OFPAT10_GTP_PGW_ETH(out)->dl_addr = mac]. *)
Definition put_dl_addr (version : Z) (t : gtp_type) (mac : Z) : outcome (list Z) :=
  let* oah := put_OFPAT version t 0 in
  Ret (poke oah 4 (be_bytes 6 mac)).
Definition encode_GTP_PGW_ETH (version mac : Z) := put_dl_addr version T_GTP_PGW_ETH mac.
Definition encode_PGW_SGI_ETH (version mac : Z) := put_dl_addr version T_PGW_SGI_ETH mac.

Definition encode_ofpact (a : ofpact) (version : Z) : outcome (list Z) :=
  match a with
  | HANDLE_GTP _ => encode_HANDLE_GTP version
  | HANDLE_PGW_SGI _ => encode_HANDLE_PGW_SGI version
  | OPERATE_GTP v => encode_OPERATE_GTP version v
  | PGW_FASTPATH v => encode_PGW_FASTPATH version v
  | OVS_ID v => encode_OVS_ID version v
  | OVS_TOTAL v => encode_OVS_TOTAL version v
  | GTP_PGW_PORT v => encode_GTP_PGW_PORT version v
  | PGW_SGI_PORT v => encode_PGW_SGI_PORT version v
  | OVS_PHY_PORT v => encode_OVS_PHY_PORT version v
  | GTP_PGW_ETH v => encode_GTP_PGW_ETH version v
  | PGW_SGI_ETH v => encode_PGW_SGI_ETH version v
  | GTP_PGW_IP v => encode_GTP_PGW_IP version v
  | GTP_TEID v => encode_GTP_TEID version v
  | OFPACT_OTHER n => Ret (encode_other n version)
  end.

Fixpoint ofpacts_put_openflow_actions (l : list ofpact) (version : Z) : outcome (list Z) :=
  match l with
  | [] => Ret []
  | a :: l =>
      let* b := encode_ofpact a version in
      let* bs := ofpacts_put_openflow_actions l version in
      Ret (b ++ bs)
  end.

(** ** Decoding *)

Definition decode_HANDLE_GTP (e : enc) : ofpact := HANDLE_GTP (RAW_GTP e T_HANDLE_GTP).
Definition decode_HANDLE_PGW_SGI (e : enc) : ofpact := HANDLE_PGW_SGI (RAW_GTP e T_HANDLE_PGW_SGI).
Definition decode_OPERATE_GTP (operation : Z) : ofpact := OPERATE_GTP operation.
Definition decode_PGW_FASTPATH (v : Z) : ofpact := PGW_FASTPATH v.
Definition decode_OVS_ID (v : Z) : ofpact := OVS_ID v.
Definition decode_OVS_TOTAL (v : Z) : ofpact := OVS_TOTAL v.
Definition decode_GTP_PGW_PORT (v : Z) : ofpact := GTP_PGW_PORT v.
Definition decode_PGW_SGI_PORT (v : Z) : ofpact := PGW_SGI_PORT v.
Definition decode_OVS_PHY_PORT (v : Z) : ofpact := OVS_PHY_PORT v.
Definition decode_GTP_PGW_ETH (a : list Z) : ofpact := GTP_PGW_ETH (of_be_bytes (peek a 4 6)).
Definition decode_PGW_SGI_ETH (a : list Z) : ofpact := PGW_SGI_ETH (of_be_bytes (peek a 4 6)).
Definition decode_GTP_PGW_IP (v : Z) : ofpact := GTP_PGW_IP v.
Definition decode_GTP_TEID (v : Z) : ofpact := GTP_TEID v.

(** [htonl], the same swap as [ntohl]. *)
Definition htonl (x : Z) : Z := ntohl x.

(** An integer argument is truncated to its type. *)
Definition ofpact_decode (action : list Z) (raw : ofp_raw_action_type) (version arg : Z) :
    ofperr + ofpact :=
  match raw with
  | RAW_OTHER n => decode_other n version arg action
  | RAW_GTP e t =>
      inr match t with
      | T_HANDLE_GTP => decode_HANDLE_GTP e
      | T_HANDLE_PGW_SGI => decode_HANDLE_PGW_SGI e
      | T_OPERATE_GTP => decode_OPERATE_GTP (u8 arg)
      | T_PGW_FASTPATH => decode_PGW_FASTPATH (u8 arg)
      | T_OVS_ID => decode_OVS_ID (u16 arg)
      | T_OVS_TOTAL => decode_OVS_TOTAL (u16 arg)
      | T_GTP_PGW_PORT => decode_GTP_PGW_PORT (u16 arg)
      | T_PGW_SGI_PORT => decode_PGW_SGI_PORT (u16 arg)
      | T_OVS_PHY_PORT => decode_OVS_PHY_PORT (u16 arg)
      | T_GTP_PGW_ETH => decode_GTP_PGW_ETH action
      | T_PGW_SGI_ETH => decode_PGW_SGI_ETH action
      | T_GTP_PGW_IP => decode_GTP_PGW_IP (htonl (u32 arg))
      | T_GTP_TEID => decode_GTP_TEID (u32 arg)
      end
  end.

Fixpoint ofpacts_decode (fuel : nat) (buf : list Z) (version : Z) :
    outcome (ofperr + list ofpact) :=
  match buf with
  | [] => Ret (inr [])
  | _ =>
      match fuel with
      | O => Diverge
      | S fuel =>
          let* r := ofpact_pull_raw version buf in
          match r with
          | inl err => Ret (inl err)
          | inr (raw, arg, rest) =>
              match ofpact_decode buf raw version arg with
              | inl err => Ret (inl err)
              | inr a =>
                  let* r := ofpacts_decode fuel rest version in
                  Ret match r with inl err => inl err | inr l => inr (a :: l) end
              end
          end
      end
  end.
End Actions.

(** ** Bitmaps of supported actions *)

(** The rows of the maps of [get_ofpact_map] for the GTP actions, which the
    three maps have in common: position in [enum ofpact_type] and number. *)
Definition gtp_ofpact_map : list (Z * Z) :=
  [(7, 28); (9, 29); (10, 30); (11, 31); (12, 32); (13, 33); (14, 34); (15, 35); (8, 36);
   (16, 37); (17, 38); (18, 39); (19, 40)].

Definition get_ofpact_map (version : Z) : list (Z * Z) :=
  if version =? 1 then
    [(0, 0); (20, 1); (21, 2); (22, 3); (24, 4); (25, 5); (26, 6); (27, 7); (28, 8); (31, 9);
     (32, 10); (3, 11)] ++ gtp_ofpact_map
  else if version =? 2 then
    [(0, 0); (20, 1); (21, 2); (24, 3); (25, 4); (26, 5); (27, 6); (28, 7); (29, 8); (31, 9);
     (32, 10); (37, 13); (38, 14); (39, 15); (40, 16); (23, 17); (22, 18); (41, 19); (42, 20);
     (44, 21); (1, 22); (30, 23); (36, 24)] ++ gtp_ofpact_map
  else
    [(0, 0); (39, 15); (40, 16); (23, 17); (22, 18); (41, 19); (42, 20); (44, 21); (1, 22);
     (30, 23); (36, 24); (6, 25)] ++ gtp_ofpact_map.

(** [1u << n], which C defines for [n] below 32. *)
Definition shl1u (n : Z) : outcome Z :=
  if (0 <=? n) && (n <? 32) then Ret (Z.shiftl 1 n) else Fault ShiftRange.

Fixpoint bitmap_to (map : list (Z * Z)) (ofpacts_bitmap acc : Z) : outcome Z :=
  match map with
  | [] => Ret acc
  | (ofpact, ofpat) :: map =>
      if negb (Z.land ofpacts_bitmap (Z.shiftl 1 ofpact) =? 0) then
        let* b := shl1u ofpat in
        bitmap_to map ofpacts_bitmap (Z.lor acc b)
      else bitmap_to map ofpacts_bitmap acc
  end.
Definition ofpact_bitmap_to_openflow (ofpacts_bitmap version : Z) : outcome Z :=
  let* b := bitmap_to (get_ofpact_map version) ofpacts_bitmap 0 in Ret (htonl b).

Fixpoint bitmap_from (map : list (Z * Z)) (ofpat_bitmap acc : Z) : outcome Z :=
  match map with
  | [] => Ret acc
  | (ofpact, ofpat) :: map =>
      let* b := shl1u ofpat in
      if negb (Z.land ofpat_bitmap (htonl b) =? 0)
      then bitmap_from map ofpat_bitmap (Z.lor acc (Z.shiftl 1 ofpact))
      else bitmap_from map ofpat_bitmap acc
  end.
Definition ofpact_bitmap_from_openflow (ofpat_bitmap version : Z) : outcome Z :=
  bitmap_from (get_ofpact_map version) ofpat_bitmap 0.
