(* ===== verification/OfpActionsProofs.v ===== *)
(** * The GTP actions survive the OpenFlow wire

    Encoding a list of GTP actions for OpenFlow 1.0 to 1.4 and decoding the
    bytes gives the actions back; no GTP action comes out of an OpenFlow 1.5
    message. *)
From Stdlib Require Import ZArith Lia.
From stdpp Require Import base list gmap numbers option.
From S2P Require Import Prelude GtpWire GtpWireProofs OfpActions.
Open Scope Z_scope.

(** ** Numbers as big-endian bytes *)

Lemma be_bytes_length n x : length (be_bytes n x) = n.
Proof. revert x. induction n as [|n IH]; intros x; [done|]. simpl. rewrite length_app, IH. simpl. lia. Qed.

Lemma lor_shift8 x y : 0 ≤ y < 2 ^ 8 → Z.lor (Z.shiftl x 8) y = x * 2 ^ 8 + y.
Proof.
  intros Hy. rewrite <-Z.shiftl_mul_pow2 by lia. symmetry.
  rewrite Z.add_nocarry_lxor, Z.lxor_lor; try done;
    apply Z.bits_inj'; intros i Hi; rewrite Z.land_spec, Z.bits_0;
    (destruct (decide (i < 8)); [by rewrite Z.shiftl_spec_low|]);
    rewrite (proj1 (below_pow2_bits 8 y ltac:(lia) ltac:(lia)) ltac:(lia) i) by lia;
    apply andb_false_r.
Qed.

Lemma of_be_bytes_snoc l b : 0 ≤ b < 2 ^ 8 → 0 ≤ of_be_bytes l < 2 ^ 56 →
  of_be_bytes (l ++ [b]) = of_be_bytes l * 2 ^ 8 + b.
Proof.
  intros Hb Hl. unfold of_be_bytes in *. rewrite foldl_app. simpl. rewrite lor_shift8 by done.
  apply u64_small. lia.
Qed.

Lemma of_be_bytes_be n x : (n ≤ 8)%nat → 0 ≤ x < 2 ^ (8 * Z.of_nat n) →
  of_be_bytes (be_bytes n x) = x.
Proof.
  revert x. induction n as [|n IH]; intros x Hn Hx.
  { change (2 ^ (8 * Z.of_nat 0)) with 1 in Hx. simpl. unfold of_be_bytes. simpl. lia. }
  cbn [be_bytes]. replace (8 * Z.of_nat (S n)) with (8 * Z.of_nat n + 8) in Hx by lia.
  rewrite Z.pow_add_r in Hx by lia. rewrite Z.shiftr_div_pow2 by lia.
  assert (0 ≤ x / 2 ^ 8 < 2 ^ (8 * Z.of_nat n)).
  { split; [apply Z.div_pos; lia|]. apply Z.div_lt_upper_bound; lia. }
  assert (2 ^ (8 * Z.of_nat n) ≤ 2 ^ 56) by (apply Z.pow_le_mono_r; lia).
  rewrite of_be_bytes_snoc; rewrite ?IH by lia; [|unfold u8; apply Z.mod_pos_bound; lia|lia].
  unfold u8. pose proof (Z.div_mod x (2 ^ 8)). lia.
Qed.

(** ** Bytes of a GTP action *)

Definition arg_size (t : gtp_type) : nat :=
  match arg_type t with A_void => 0 | A_int n => Z.to_nat n | A_dl_addr => 6 end.
Definition action_len (t : gtp_type) : Z := match arg_type t with A_dl_addr => 16 | _ => 8 end.

(** Type, length, argument and padding. *)
Definition gtp_bytes (t : gtp_type) (arg : Z) : list Z :=
  be_bytes 2 (type_number t) ++ be_bytes 2 (action_len t) ++ be_bytes (arg_size t) arg ++
  replicate (Z.to_nat (action_len t) - 4 - arg_size t) 0.

Lemma int_instance e t v n : arg_type t = A_int n →
  gtp_instance e t v = mkInst 0 (type_number t) v (RAW_GTP e t) 8 8 4 n ∧
  action_len t = 8 ∧ 1 ≤ n ≤ 4.
Proof.
  intros Hn. destruct t; try discriminate Hn; injection Hn as <-;
    (split; [reflexivity|split; [reflexivity|lia]]).
Qed.

Section Wire.
Variable other_instances : list ofpact_raw_instance.
Variable decode_other : Z → Z → Z → list Z → ofperr + ofpact.
Variable encode_other : Z → Z → list Z.

Abbreviation all_instances := (all_raw_instances other_instances).

Lemma gtp_lookup e t v : v ∈ enc_versions e →
  ofpact_raw_lookup other_instances v (RAW_GTP e t) = Ret (gtp_instance e t v).
Proof.
  intros Hv. unfold ofpact_raw_lookup, all_raw_instances. rewrite list.filter_app.
  assert (filter (λ i, i_raw i = RAW_GTP e t ∧ i_version i = v) gtp_instances
          = [gtp_instance e t v]) as ->; [|done].
  destruct e; cbn [enc_versions] in Hv; rewrite !elem_of_cons, elem_of_nil in Hv;
    destruct_or!; try done; subst v; destruct t; vm_compute; reflexivity.
Qed.

Lemma gtp_find e t v : v ∈ enc_versions e →
  ∃ l, filter (λ i, i_vendor i = 0 ∧ i_type i = type_number t ∧ i_version i = v) all_instances
       = gtp_instance e t v :: l.
Proof.
  intros Hv. unfold all_raw_instances. rewrite list.filter_app.
  assert (filter (λ i, i_vendor i = 0 ∧ i_type i = type_number t ∧ i_version i = v) gtp_instances
          = [gtp_instance e t v]) as ->; [|by eexists].
  destruct e; cbn [enc_versions] in Hv; rewrite !elem_of_cons, elem_of_nil in Hv;
    destruct_or!; try done; subst v; destruct t; vm_compute; reflexivity.
Qed.

Lemma put_version_in v : 1 ≤ v → put_version (enc_of_version v) ∈ enc_versions (enc_of_version v).
Proof.
  intros Hv. unfold enc_of_version, OFP10_VERSION, OFP11_VERSION.
  destruct (v =? 1); [left|]. destruct (v =? 2); left.
Qed.

Lemma version_in v : 1 ≤ v ≤ 5 → v ∈ enc_versions (enc_of_version v).
Proof.
  intros Hv. unfold enc_of_version, OFP10_VERSION, OFP11_VERSION.
  destruct (Z.eqb_spec v 1) as [->|]; [left|]. destruct (Z.eqb_spec v 2) as [->|]; [left|].
  assert (v = 3 ∨ v = 4 ∨ v = 5) as [->|[->| ->]] by lia; cbn; rewrite !elem_of_cons; auto.
Qed.

(** What the encoders write. *)
Lemma put_int v t n arg : 1 ≤ v → arg_type t = A_int n →
  put_OFPAT other_instances v t arg = Ret (gtp_bytes t arg).
Proof.
  intros Hv Ht. unfold put_OFPAT, ofpact_put_raw. rewrite gtp_lookup by (by apply put_version_in).
  cbn [obind]. destruct t; try discriminate Ht; reflexivity.
Qed.

Lemma put_void v t : 1 ≤ v → arg_type t = A_void →
  put_OFPAT other_instances v t 0 = Ret (gtp_bytes t 0).
Proof.
  intros Hv Ht. unfold put_OFPAT, ofpact_put_raw. rewrite gtp_lookup by (by apply put_version_in).
  cbn [obind]. destruct t; try discriminate Ht; reflexivity.
Qed.

Lemma put_mac v t mac : 1 ≤ v → arg_type t = A_dl_addr →
  put_dl_addr other_instances v t mac = Ret (gtp_bytes t mac).
Proof.
  intros Hv Ht. unfold put_dl_addr, put_OFPAT, ofpact_put_raw.
  rewrite gtp_lookup by (by apply put_version_in).
  cbn [obind]. destruct t; try discriminate Ht; reflexivity.
Qed.

(** What the decoder makes of the bytes. *)
Lemma pull_gtp v t arg rest : 1 ≤ v ≤ 5 → 0 ≤ arg < 2 ^ (8 * Z.of_nat (arg_size t)) →
  ofpact_pull_raw other_instances v (gtp_bytes t arg ++ rest) =
    Ret (inr (RAW_GTP (enc_of_version v) t,
              (match arg_type t with A_int _ => arg | _ => 0 end), rest)).
Proof.
  intros Hv Harg. unfold ofpact_pull_raw, ofpact_decode_raw.
  assert (length (gtp_bytes t arg) = Z.to_nat (action_len t)) as Hlen.
  { unfold gtp_bytes. rewrite !length_app, !be_bytes_length, length_replicate.
    destruct t; vm_compute; reflexivity. }
  rewrite length_app, Hlen. destruct (Z.ltb_spec (Z.of_nat (Z.to_nat (action_len t) + length rest)) 8)
    as [H8|_]; [destruct t; vm_compute action_len in H8; lia|].
  assert (peek (gtp_bytes t arg ++ rest) 0 2 = be_bytes 2 (type_number t)) as ->
    by (destruct t; reflexivity).
  assert (peek (gtp_bytes t arg ++ rest) 2 2 = be_bytes 2 (action_len t)) as ->
    by (destruct t; reflexivity).
  rewrite of_be_bytes_be by (destruct t; simpl; lia).
  assert ((type_number t =? OFPAT_VENDOR) = false) as -> by (by destruct t).
  destruct (gtp_find (enc_of_version v) t v (version_in v Hv)) as [l ->].
  rewrite of_be_bytes_be by (destruct t; simpl; unfold action_len; simpl; lia).
  destruct (Z.ltb_spec (Z.of_nat (Z.to_nat (action_len t) + length rest)) (action_len t))
    as [H9|_]; [destruct t; vm_compute action_len in H9; lia|].
  assert (drop (Z.to_nat (action_len t)) (gtp_bytes t arg ++ rest) = rest) as ->.
  { rewrite <-Hlen. apply drop_app_length. }
  assert (∀ n, arg_type t = A_int n →
    of_be_bytes (peek (gtp_bytes t arg ++ rest) 4 n) = arg) as Hpeek.
  { intros n Hn. rewrite <-(of_be_bytes_be (arg_size t) arg) at 2;
      [|destruct t; vm_compute; lia|done]. f_equal.
    destruct t; try discriminate Hn; injection Hn as <-; reflexivity. }
  destruct (arg_type t) as [|n|] eqn:Ht.
  - destruct t; try discriminate Ht; reflexivity.
  - destruct (int_instance (enc_of_version v) t v n Ht) as (-> & -> & Hn). cbn -[peek of_be_bytes Z.leb].
    rewrite (proj2 (Z.eqb_neq n 0)) by lia. cbn [negb].
    rewrite (proj2 (Z.leb_le _ _)) by lia. cbn [ovs_assert obind]. by rewrite Hpeek.
  - destruct t; try discriminate Ht; reflexivity.
Qed.

(** ** Round trip *)

(** The type and the wire argument of a GTP action. *)
Definition gtp_arg (a : ofpact) : option (gtp_type * Z) :=
  match a with
  | HANDLE_GTP _ => Some (T_HANDLE_GTP, 0)
  | HANDLE_PGW_SGI _ => Some (T_HANDLE_PGW_SGI, 0)
  | OPERATE_GTP x => Some (T_OPERATE_GTP, x)
  | PGW_FASTPATH x => Some (T_PGW_FASTPATH, x)
  | OVS_ID x => Some (T_OVS_ID, x)
  | OVS_TOTAL x => Some (T_OVS_TOTAL, x)
  | GTP_PGW_PORT x => Some (T_GTP_PGW_PORT, x)
  | PGW_SGI_PORT x => Some (T_PGW_SGI_PORT, x)
  | OVS_PHY_PORT x => Some (T_OVS_PHY_PORT, x)
  | GTP_PGW_ETH x => Some (T_GTP_PGW_ETH, x)
  | PGW_SGI_ETH x => Some (T_PGW_SGI_ETH, x)
  | GTP_PGW_IP x => Some (T_GTP_PGW_IP, ntohl x)
  | GTP_TEID x => Some (T_GTP_TEID, x)
  | OFPACT_OTHER _ => None
  end.

(** A GTP action whose members fit their types. *)
Definition wf_gtp (a : ofpact) : Prop :=
  match a with
  | HANDLE_GTP _ | HANDLE_PGW_SGI _ => True
  | OPERATE_GTP x | PGW_FASTPATH x => 0 ≤ x < 2 ^ 8
  | OVS_ID x | OVS_TOTAL x | GTP_PGW_PORT x | PGW_SGI_PORT x | OVS_PHY_PORT x => 0 ≤ x < 2 ^ 16
  | GTP_PGW_IP x | GTP_TEID x => 0 ≤ x < 2 ^ 32
  | GTP_PGW_ETH x | PGW_SGI_ETH x => 0 ≤ x < 2 ^ 48
  | OFPACT_OTHER _ => False
  end.

(** The decoder notes in which encoding an argumentless action came. *)
Definition with_raw (v : Z) (a : ofpact) : ofpact :=
  match a with
  | HANDLE_GTP _ => HANDLE_GTP (RAW_GTP (enc_of_version v) T_HANDLE_GTP)
  | HANDLE_PGW_SGI _ => HANDLE_PGW_SGI (RAW_GTP (enc_of_version v) T_HANDLE_PGW_SGI)
  | _ => a
  end.

Lemma encode_gtp v a t arg : 1 ≤ v → gtp_arg a = Some (t, arg) →
  encode_ofpact other_instances encode_other a v = Ret (gtp_bytes t arg).
Proof.
  intros Hv Ha. destruct a; try discriminate Ha; injection Ha as <- <-;
    first [by apply put_void | by eapply put_int | by apply put_mac].
Qed.

Lemma gtp_arg_range a t arg : gtp_arg a = Some (t, arg) → wf_gtp a →
  0 ≤ arg < 2 ^ (8 * Z.of_nat (arg_size t)).
Proof.
  intros Ha Hwf. destruct a; try discriminate Ha; injection Ha as <- <-; cbn [wf_gtp] in Hwf;
    match goal with |- context [8 * Z.of_nat (arg_size ?t)] =>
      let n := eval vm_compute in (8 * Z.of_nat (arg_size t)) in
      change (8 * Z.of_nat (arg_size t)) with n
    end; first [lia | apply ntohl_range].
Qed.

Lemma peek_mac t mac rest : arg_type t = A_dl_addr → 0 ≤ mac < 2 ^ 48 →
  of_be_bytes (peek (gtp_bytes t mac ++ rest) 4 6) = mac.
Proof.
  intros Ht Hm. rewrite <-(of_be_bytes_be 6 mac) at 2; [|lia|done]. f_equal.
  destruct t; try discriminate Ht; reflexivity.
Qed.

Lemma decode_gtp v a t arg rest : gtp_arg a = Some (t, arg) → wf_gtp a →
  ofpact_decode decode_other (gtp_bytes t arg ++ rest) (RAW_GTP (enc_of_version v) t) v
    (match arg_type t with A_int _ => arg | _ => 0 end) = inr (with_raw v a).
Proof.
  intros Ha Hwf. destruct a; try discriminate Ha; injection Ha as <- <-;
    cbn [ofpact_decode arg_type with_raw wf_gtp] in Hwf |- *; unfold decode_OPERATE_GTP, decode_PGW_FASTPATH, decode_OVS_ID, decode_OVS_TOTAL,
      decode_GTP_PGW_PORT, decode_PGW_SGI_PORT, decode_OVS_PHY_PORT, decode_GTP_PGW_ETH,
      decode_PGW_SGI_ETH, decode_GTP_PGW_IP, decode_GTP_TEID;
    rewrite ?peek_mac, ?u8_small, ?u16_small, ?u32_small by (done || lia || apply ntohl_range);
    try done.
  unfold htonl. by rewrite ntohl_ntohl.
Qed.

Lemma encode_list v l : 1 ≤ v → Forall wf_gtp l →
  ∃ bs, ofpacts_put_openflow_actions other_instances encode_other l v = Ret bs ∧
    (8 * length l ≤ length bs)%nat.
Proof.
  intros Hv. induction l as [|a l IH]; intros Hwf; [by exists []|].
  apply Forall_cons_1 in Hwf as [Ha Hwf]. destruct (IH Hwf) as (bs & Hbs & Hlen).
  destruct (gtp_arg a) as [[t arg]|] eqn:Hg; [|by destruct a].
  cbn [ofpacts_put_openflow_actions]. rewrite (encode_gtp v a t arg Hv Hg), Hbs. cbn [obind].
  eexists. split; [done|]. rewrite length_app. unfold gtp_bytes.
  rewrite !length_app, !be_bytes_length, length_replicate. simpl length.
  assert (action_len t = 8 ∨ action_len t = 16) as [->| ->] by (destruct t; vm_compute; auto);
    destruct t; simpl; lia.
Qed.

Lemma gtp_bytes_cons t arg : ∃ b l, gtp_bytes t arg = b :: l.
Proof. unfold gtp_bytes. simpl. by do 2 eexists. Qed.

(** Decoding what was encoded. *)
Lemma decode_encode v l bs fuel : 1 ≤ v ≤ 5 → Forall wf_gtp l →
  ofpacts_put_openflow_actions other_instances encode_other l v = Ret bs →
  (length l ≤ fuel)%nat →
  ofpacts_decode other_instances decode_other fuel bs v = Ret (inr (with_raw v <$> l)).
Proof.
  intros Hv. revert bs fuel. induction l as [|a l IH]; intros bs fuel Hwf Henc Hf.
  { injection Henc as <-. by destruct fuel. }
  apply Forall_cons_1 in Hwf as [Ha Hwf].
  destruct (gtp_arg a) as [[t arg]|] eqn:Hg; [|by destruct a].
  cbn [ofpacts_put_openflow_actions] in Henc.
  rewrite (encode_gtp v a t arg ltac:(lia) Hg) in Henc. cbn [obind] in Henc.
  apply obind_Ret in Henc as (bs' & Hbs & Henc). injection Henc as <-.
  destruct fuel as [|fuel]; [simpl in Hf; lia|].
  destruct (gtp_bytes_cons t arg) as (b0 & l0 & Hcons).
  assert (∀ k, ofpacts_decode other_instances decode_other (S k) (gtp_bytes t arg ++ bs') v =
    let* r := ofpact_pull_raw other_instances v (gtp_bytes t arg ++ bs') in
    match r with
    | inl err => Ret (inl err)
    | inr (raw, ar, rest) =>
        match ofpact_decode decode_other (gtp_bytes t arg ++ bs') raw v ar with
        | inl err => Ret (inl err)
        | inr a =>
            let* r := ofpacts_decode other_instances decode_other k rest v in
            Ret match r with inl err => inl err | inr l => inr (a :: l) end
        end
    end) as -> by (intros k; by rewrite Hcons).
  rewrite pull_gtp by (done || by eapply gtp_arg_range). cbn [obind].
  rewrite (decode_gtp v a t arg bs' Hg Ha).
  rewrite (IH bs' fuel Hwf Hbs) by (simpl in Hf; lia). done.
Qed.

(** No version 1.5 message contains a GTP action. *)
Lemma no_gtp_in_of15 buf e t arg rest :
  (∀ i, i ∈ other_instances → ∃ n, i_raw i = RAW_OTHER n) →
  ofpact_pull_raw other_instances 6 buf ≠ Ret (inr (RAW_GTP e t, arg, rest)).
Proof.
  intros Hoth H. unfold ofpact_pull_raw in H.
  destruct (ofpact_decode_raw other_instances 6 buf) as [err|i] eqn:Hd; [done|].
  assert (i ∈ all_instances ∧ i_version i = 6) as [Hi Hv].
  { unfold ofpact_decode_raw in Hd. destruct (_ <? 8); [done|].
    destruct (if _ =? OFPAT_VENDOR then _ else _) as [?|[vendor ty]]; [done|].
    destruct (filter _ all_instances) as [|i' l] eqn:Hf; [done|]. injection Hd as ->.
    assert (i ∈ filter (λ j, i_vendor j = vendor ∧ i_type j = ty ∧ i_version j = 6) all_instances)
      as Hin by (rewrite Hf; left).
    apply list_elem_of_filter in Hin as [(_ & _ & ?) ?]. done. }
  assert (i_raw i = RAW_GTP e t) as Hraw.
  { destruct (_ <? _); [done|]. destruct (_ || _); [done|]. destruct (negb (_ mod 8 =? 0)); [done|].
    apply obind_Ret in H as (ar & _ & H). by injection H as ->. }
  unfold all_raw_instances in Hi. apply elem_of_app in Hi as [Hi|Hi].
  - assert (Forall (λ j, i_version j ≠ 6) gtp_instances) as Hall.
    { vm_compute. repeat constructor; discriminate. }
    by apply (proj1 (list.Forall_forall _ _) Hall i Hi).
  - destruct (Hoth i Hi) as [n Hn]. congruence.
Qed.
End Wire.

(** ** Bitmaps *)

Lemma bitmap_from_app m1 m2 bitmap acc :
  (∀ acc', bitmap_from m2 bitmap acc' = Fault ShiftRange) →
  Forall (λ x, 0 ≤ x.2 < 32) m1 → bitmap_from (m1 ++ m2) bitmap acc = Fault ShiftRange.
Proof.
  intros H2. revert acc. induction m1 as [|[x y] m1 IH]; intros acc Hm; [apply H2|].
  apply Forall_cons_1 in Hm as [Hy Hm]. simpl in Hy. cbn [bitmap_from app].
  unfold shl1u. rewrite (proj2 (Z.leb_le _ _)), (proj2 (Z.ltb_lt _ _)) by lia.
  cbn [andb obind]. destruct (negb _); by apply IH.
Qed.

(** Whatever bitmap comes in, whatever the version, decoding it shifts a
    32-bit 1 by 32. *)
Lemma bitmap_from_faults bitmap version :
  ofpact_bitmap_from_openflow bitmap version = Fault ShiftRange.
Proof.
  assert (∀ acc, bitmap_from gtp_ofpact_map bitmap acc = Fault ShiftRange) as Hgtp.
  { intros acc. change gtp_ofpact_map with (take 4 gtp_ofpact_map ++ drop 4 gtp_ofpact_map).
    apply bitmap_from_app; [done|]. repeat constructor; simpl; lia. }
  unfold ofpact_bitmap_from_openflow, get_ofpact_map.
  destruct (version =? 1); [|destruct (version =? 2)];
    (apply bitmap_from_app; [done|]; repeat constructor; simpl; lia).
Qed.

