(* ===== verification/Text.v ===== *)
(** * Text: numbers, addresses and key-value pairs (lib/util.c, lib/ofp-parse.c)

    The functions that read action arguments: [ovs_scan__], the number
    parsers on top of strtoll() and strtoul(), the IP address parser on top
    of inet_pton(), and the printf() conversions of the formatters.  A C
    string is the list of its characters, as unsigned char, without the
    terminator; a pointer into it is a suffix. *)
From Stdlib Require Import ZArith Lia Ascii String.
From stdpp Require Import base list numbers option.
From S2P Require Import Prelude.
Open Scope Z_scope.

Definition cstr := list Z.
Definition cstring (s : string) : cstr :=
  map (λ c, Z.of_N (N_of_ascii c)) (list_ascii_of_string s).
(** [*s]. *)
Definition chr (s : cstr) : Z := default 0 (head s).
(** A character as the (signed) type [char]. *)
Definition schar (c : Z) : Z := if c <? 128 then c else c - 256.

(** isspace() in the "C" locale. *)
Definition isspace (c : Z) : bool := (c =? 32) || ((9 <=? c) && (c <=? 13)).

Fixpoint skip_spaces (s : cstr) : cstr :=
  match s with
  | c :: s' => if isspace c then skip_spaces s' else s
  | [] => []
  end.

Definition hexit_value (c : Z) : Z :=
  if (48 <=? c) && (c <=? 57) then c - 48
  else if (c =? 97) || (c =? 65) then 10
  else if (c =? 98) || (c =? 66) then 11
  else if (c =? 99) || (c =? 67) then 12
  else if (c =? 100) || (c =? 68) then 13
  else if (c =? 101) || (c =? 69) then 14
  else if (c =? 102) || (c =? 70) then 15
  else -1.

(** ** ovs_scan *)

Inductive scan_type :=
| SCAN_DISCARD | SCAN_CHAR | SCAN_SHORT | SCAN_INT | SCAN_LONG | SCAN_LLONG
| SCAN_INTMAX_T | SCAN_PTRDIFF_T | SCAN_SIZE_T.

#[global] Instance scan_type_eq_dec : EqDecision scan_type.
Proof. solve_decision. Defined.

Record scan_spec := { width : Z; stype : scan_type }.

(** The bits an integer destination keeps. *)
Definition stored_bits (t : scan_type) : Z :=
  match t with
  | SCAN_CHAR => 8
  | SCAN_SHORT => 16
  | SCAN_INT => 32
  | _ => 64
  end.

(** What a conversion stores through its argument. *)
Inductive stored (ld : Type) :=
| SInt (t : scan_type) (v : Z)
| SFloat (t : scan_type) (v : ld)
| SString (s : cstr)     (* with its terminator *)
| SChars (s : cstr).     (* without *)
Arguments SInt {ld} t v.
Arguments SFloat {ld} t v.
Arguments SString {ld} s.
Arguments SChars {ld} s.

(** The loop over the digits; [used] is [s - start]. *)
Fixpoint scan_digits (s : cstr) (used width base value n_digits : Z) : Z * Z * cstr :=
  match s with
  | [] => (value, n_digits, [])
  | c :: s' =>
      if used <? width then
        let digit := hexit_value (schar c) in
        if (digit <? 0) || (digit >=? base) then (value, n_digits, s)
        else scan_digits s' (used + 1) width base (u64 (value * base + digit)) (n_digits + 1)
      else (value, n_digits, s)
  end.

Section scan.
Context {ld : Type}.
(** strtold(), with the condition that it reads the whole string. *)
Variable strtold : cstr → option ld.

(** A conversion: the values it stores and the rest of the input, or failure. *)
Definition conv := option (list (stored ld) * cstr).

Definition scan_int (s : cstr) (spec : scan_spec) (base : Z) : conv :=
  let start := s in
  let negative := chr s =? 45 in
  let s := if (chr s =? 45) || (chr s =? 43) then drop 1 s else s in
  let '(base, s) :=
    if ((base =? 0) || (base =? 16)) && (chr s =? 48)
       && ((chr (drop 1 s) =? 120) || (chr (drop 1 s) =? 88))
    then (16, drop 2 s)
    else if base =? 0 then (if chr s =? 48 then 8 else 10, s)
    else (base, s) in
  let used := Z.of_nat (length start) - Z.of_nat (length s) in
  if used >=? width spec then None
  else
    let '(value, n_digits, s) := scan_digits s used (width spec) base 0 0 in
    if n_digits =? 0 then None
    else
      let value := if negative then u64 (- value) else value in
      Some (if bool_decide (stype spec = SCAN_DISCARD) then []
            else [SInt (stype spec) (value mod 2 ^ stored_bits (stype spec))], s).

Fixpoint skip_digits (s : cstr) : cstr :=
  match s with
  | c :: s' => if (48 <=? c) && (c <=? 57) then skip_digits s' else s
  | [] => []
  end.

Definition skip_sign (s : cstr) : cstr :=
  if (chr s =? 43) || (chr s =? 45) then drop 1 s else s.

(** The types that scan_float() does not expect end in OVS_NOT_REACHED(). *)
Definition scan_float (s : cstr) (spec : scan_spec) : outcome conv :=
  let start := s in
  let s := skip_digits (skip_sign s) in
  let s := if chr s =? 46 then skip_digits (drop 1 s) else s in
  let s := if (chr s =? 101) || (chr s =? 69) then skip_digits (skip_sign (drop 1 s)) else s in
  let n := Z.min (Z.of_nat (length start) - Z.of_nat (length s)) (width spec) in
  match strtold (take (Z.to_nat n) start) with
  | None => Ret None
  | Some v =>
      let s := drop (Z.to_nat n) start in
      match stype spec with
      | SCAN_DISCARD => Ret (Some ([], s))
      | SCAN_INT | SCAN_LONG | SCAN_LLONG => Ret (Some ([SFloat (stype spec) v], s))
      | _ => Fault AssertFail
      end
  end.

Definition scan_output_string (spec : scan_spec) (s : cstr) (n : nat) : list (stored ld) :=
  if bool_decide (stype spec = SCAN_DISCARD) then [] else [SString (take n s)].

(** The number of leading characters, at most [width], that satisfy [ok]. *)
Fixpoint span (ok : Z → bool) (s : cstr) (n width : Z) : nat :=
  match s with
  | c :: s' => if (n <? width) && ok c then S (span ok s' (n + 1) width) else O
  | [] => O
  end.

Definition scan_string (s : cstr) (spec : scan_spec) : conv :=
  let n := span (λ c, negb (isspace c)) s 0 (width spec) in
  if bool_decide (n = O) then None else Some (scan_output_string spec s n, drop n s).

(** The characters of a set, as the list of the bits that are set. *)
Fixpoint parse_set_members (p : cstr) (set : list Z) : list Z * cstr :=
  match p with
  | [] => (set, [])
  | c :: r =>
      if c =? 93 then (set, r)
      else match r with
           | 45 :: d :: r2 =>
               if negb (d =? 93) && (d >? c)
               then parse_set_members r2 (set ++ seqZ c (d - c + 1))
               else parse_set_members r (set ++ [c])
           | _ => parse_set_members r (set ++ [c])
           end
  end.

Definition parse_scanset (p : cstr) : list Z * bool * cstr :=
  let complemented := chr p =? 94 in
  let p := if complemented then drop 1 p else p in
  let '(set, p) := if chr p =? 93 then ([93], drop 1 p) else ([], p) in
  let '(set, p) := parse_set_members p set in
  (set, complemented, p).

(** Also returns the rest of the format. *)
Definition scan_set (s : cstr) (spec : scan_spec) (p : cstr) : conv * cstr :=
  let '(set, complemented, p) := parse_scanset p in
  let n := span (λ c, eqb (bool_decide (c ∈ set)) (negb complemented)) s 0 (width spec) in
  (if bool_decide (n = O) then None else Some (scan_output_string spec s n, drop n s), p).

Definition scan_chars (s : cstr) (spec : scan_spec) : conv :=
  let n := if width spec =? UINT_MAX then 1 else width spec in
  if Z.of_nat (length s) <? n then None
  else Some (if bool_decide (stype spec = SCAN_DISCARD) then []
             else [SChars (take (Z.to_nat n) s)], drop (Z.to_nat n) s).

(** The field width. *)
Fixpoint scan_width (p : cstr) (w : Z) : Z * cstr :=
  match p with
  | c :: p' => if (48 <=? c) && (c <=? 57) then scan_width p' (u32 (w * 10 + (c - 48))) else (w, p)
  | [] => (w, [])
  end.

(** The type modifier. *)
Definition scan_modifier (p : cstr) : scan_type * cstr :=
  let c := chr p in
  if c =? 104 then
    if chr (drop 1 p) =? 104 then (SCAN_CHAR, drop 2 p) else (SCAN_SHORT, drop 1 p)
  else if c =? 106 then (SCAN_INTMAX_T, drop 1 p)
  else if c =? 108 then
    if chr (drop 1 p) =? 108 then (SCAN_LLONG, drop 2 p) else (SCAN_LONG, drop 1 p)
  else if (c =? 76) || (c =? 113) then (SCAN_LLONG, drop 1 p)
  else if c =? 116 then (SCAN_PTRDIFF_T, drop 1 p)
  else if c =? 122 then (SCAN_SIZE_T, drop 1 p)
  else (SCAN_INT, p).

(** One conversion, after the '%': the result and the rest of the format. *)
Definition scan_conversion (start s p : cstr) : outcome (conv * cstr) :=
  let discard := chr p =? 42 in
  let p := if discard then drop 1 p else p in
  let '(w, p) := scan_width p 0 in
  let w := if w =? 0 then UINT_MAX else w in
  let '(t, p) := scan_modifier p in
  let spec := {| width := w; stype := if discard then SCAN_DISCARD else t |} in
  match p with
  | [] => Fault OutOfBounds         (* p++ moves past the terminator *)
  | c :: p =>
      let s := if negb ((c =? 99) || (c =? 110) || (c =? 91)) then skip_spaces s else s in
      if c =? 100 then Ret (scan_int s spec 10, p)
      else if c =? 105 then Ret (scan_int s spec 0, p)
      else if c =? 111 then Ret (scan_int s spec 8, p)
      else if c =? 117 then Ret (scan_int s spec 10, p)
      else if (c =? 120) || (c =? 88) then Ret (scan_int s spec 16, p)
      else if (c =? 101) || (c =? 102) || (c =? 103) || (c =? 69) || (c =? 71) then
        let* r := scan_float s spec in Ret (r, p)
      else if c =? 115 then Ret (scan_string s spec, p)
      else if c =? 91 then Ret (scan_set s spec p)
      else if c =? 99 then Ret (scan_chars s spec, p)
      else if c =? 110 then
        Ret (Some (if bool_decide (stype spec = SCAN_DISCARD) then []
                   else [SInt SCAN_INT ((Z.of_nat (length start) - Z.of_nat (length s))
                                          mod 2 ^ 32)], s), p)
      else Ret (Some ([], s), p)
  end.

(** The stored values and the number of characters read; [None] is false. *)
Fixpoint ovs_scan_loop (fuel : nat) (start s p : cstr) (out : list (stored ld))
    : outcome (option (list (stored ld) * Z)) :=
  match p with
  | [] => Ret (Some (out, Z.of_nat (length start) - Z.of_nat (length s)))
  | c :: p =>
      match fuel with
      | O => Diverge
      | S fuel =>
          if isspace c then ovs_scan_loop fuel start (skip_spaces s) p out
          else if negb (c =? 37) then
            if schar (chr s) =? c then ovs_scan_loop fuel start (drop 1 s) p out else Ret None
          else if chr p =? 37 then
            if chr s =? 37 then ovs_scan_loop fuel start (drop 1 s) (drop 1 p) out else Ret None
          else
            let* (r, p) := scan_conversion start s p in
            match r with
            | None => Ret None
            | Some (vs, s) => ovs_scan_loop fuel start s p (out ++ vs)
            end
      end
  end.

Definition ovs_scan__ (s format : cstr) : outcome (option (list (stored ld) * Z)) :=
  ovs_scan_loop (length format) s s format [].

Definition ovs_scan (s format : cstr) : outcome (option (list (stored ld))) :=
  let* r := ovs_scan__ s format in Ret (fst <$> r).

(** ETH_ADDR_SCAN_FMT. *)
Definition ETH_ADDR_SCAN_FMT : cstr := cstring "%hhx:%hhx:%hhx:%hhx:%hhx:%hhx".
End scan.

(** ** Numbers *)

(** strtoll() and strtoul() with base 0: optional white space, an optional
    sign, "0x" before hexadecimal digits, "0" before octal ones.  The result
    is the sign, the magnitude and the tail; with no digits, the magnitude is
    0 and the tail the whole string. *)
Fixpoint strto_digits (s : cstr) (base value : Z) : Z * cstr :=
  match s with
  | [] => (value, [])
  | c :: s' =>
      let digit := hexit_value c in
      if (digit <? 0) || (digit >=? base) then (value, s)
      else strto_digits s' base (value * base + digit)
  end.

Definition is_digit (base c : Z) : bool := (0 <=? hexit_value c) && (hexit_value c <? base).

Definition strto (str : cstr) : bool * Z * cstr :=
  let s := skip_spaces str in
  let negative := chr s =? 45 in
  let s := if (chr s =? 45) || (chr s =? 43) then drop 1 s else s in
  let '(base, s) :=
    if (chr s =? 48) && ((chr (drop 1 s) =? 120) || (chr (drop 1 s) =? 88))
       && is_digit 16 (chr (drop 2 s))
    then (16, drop 2 s)
    else if chr s =? 48 then (8, s) else (10, s) in
  if is_digit base (chr s) then
    let '(value, tail) := strto_digits s base 0 in (negative, value, tail)
  else (false, 0, str).

(** The value and the tail, or ERANGE. *)
Definition strtoll (s : cstr) : option Z * cstr :=
  let '(negative, m, tail) := strto s in
  let v := if negative then - m else m in
  (if in_range LLONG_MIN LLONG_MAX v then Some v else None, tail).

(** A negative number is reduced modulo 2^64, without an error. *)
Definition strtoul (s : cstr) : option Z * cstr :=
  let '(negative, m, tail) := strto s in
  (if m <? 2 ^ 64 then Some (if negative then u64 (- m) else m) else None, tail).

(** [ok] and [*x]. *)
Definition str_to_llong (s : cstr) : bool * Z :=
  let '(v, tail) := strtoll s in
  match v with
  | None => (false, 0)
  | Some x =>
      if bool_decide (length tail = length s) || negb (bool_decide (tail = [])) then (false, 0)
      else (true, x)
  end.

(** A [long long] assigned to an [int] keeps its low 32 bits. *)
Definition to_int (x : Z) : Z := (x + 2 ^ 31) mod 2 ^ 32 - 2 ^ 31.

Definition str_to_int (s : cstr) : bool * Z :=
  let '(ok, ll) := str_to_llong s in (ok, to_int ll).

(** The error messages. *)
Inductive parse_error :=
| InvalidValue (name str : cstr)
| MissingArgument
| InvalidNumber (str : cstr)
| InvalidMac (str : cstr)
| InvalidIp (str : cstr)
| UnknownAction (key : cstr)
| ApplyActionsIsDefault
| OnlyActionsAllowed
| InstructionTwice
| InstructionOrder
| DropWithOthers
| IncorrectOrdering
| OtherError (n : Z).

Definition str_to_u8 (str name : cstr) : parse_error + Z :=
  let '(ok, value) := str_to_int str in
  if negb ok || (value <? 0) || (value >? 255) then inl (InvalidValue name str) else inr value.

Definition str_to_u16 (str name : cstr) : parse_error + Z :=
  let '(ok, value) := str_to_int str in
  if negb ok || (value <? 0) || (value >? 65535) then inl (InvalidValue name str) else inr value.

(** [value] is a [uint32_t]: it keeps the low 32 bits of the unsigned long. *)
Definition str_to_u32 (str : cstr) : parse_error + Z :=
  if bool_decide (str = []) then inl MissingArgument
  else match strtoul str with
       | (Some v, []) => inr (u32 v)
       | _ => inl (InvalidNumber str)
       end.

Definition str_to_mac {ld} (strtold : cstr → option ld) (str : cstr)
    : outcome (parse_error + list Z) :=
  let* r := ovs_scan strtold str ETH_ADDR_SCAN_FMT in
  Ret match r with
      | None => inl (InvalidMac str)
      | Some vs => inr (omap (λ v, match v with SInt _ x => Some x | _ => None end) vs)
      end.

(** inet_pton(AF_INET): four decimal octets without leading zeros.  [done] are
    the finished octets, [saw_digit] says whether [cur] has a digit. *)
Fixpoint inet_pton4 (s : cstr) (finished : list Z) (cur : Z) (saw_digit : bool)
    : option (list Z) :=
  match s with
  | [] =>
      if saw_digit && bool_decide (length finished = 3%nat) then Some (finished ++ [cur]) else None
  | c :: s' =>
      if (48 <=? c) && (c <=? 57) then
        let new := cur * 10 + (c - 48) in
        if saw_digit && (cur =? 0) then None
        else if new >? 255 then None
        else if negb saw_digit && bool_decide (length finished = 4%nat) then None
        else inet_pton4 s' finished new true
      else if (c =? 46) && saw_digit then
        if bool_decide (length finished = 3%nat) then None
        else inet_pton4 s' (finished ++ [cur]) 0 false
      else None
  end.

(** The four octets in memory order, or failure. *)
Definition lookup_ip (host_name : cstr) : option (list Z) := inet_pton4 host_name [] 0 false.

Definition str_to_ip (str : cstr) : parse_error + list Z :=
  match lookup_ip str with
  | None => inl (InvalidIp str)
  | Some a => inr a
  end.

(** ** printf() conversions *)

Definition digit_char (d : Z) : Z := if d <? 10 then 48 + d else 87 + d.

Fixpoint print_digits (fuel : nat) (base n : Z) (acc : cstr) : cstr :=
  match fuel with
  | O => acc
  | S fuel =>
      let acc := digit_char (n mod base) :: acc in
      if n <? base then acc else print_digits fuel base (n / base) acc
  end.

(** "%d" and "%u" of a number below [10^20], "%#x" and "%02x". *)
Definition fmt_d (n : Z) : cstr := print_digits 20 10 n [].
Definition fmt_sharp_x (n : Z) : cstr :=
  if n =? 0 then [48] else [48; 120] ++ print_digits 16 16 n [].
Definition fmt_02x (n : Z) : cstr :=
  let s := print_digits 16 16 n [] in if bool_decide (length s = 1%nat) then 48 :: s else s.

(** ** Key-value pairs *)

(** strcspn() and strspn(). *)
Fixpoint strcspn (s reject : cstr) : nat :=
  match s with
  | c :: s' => if bool_decide (c ∈ reject) then O else S (strcspn s' reject)
  | [] => O
  end.
Fixpoint strspn (s accept : cstr) : nat :=
  match s with
  | c :: s' => if bool_decide (c ∈ accept) then S (strspn s' accept) else O
  | [] => O
  end.

Definition blanks : cstr := [44; 32; 9; 13; 10].           (* ", \t\r\n" *)
Definition key_end : cstr := [58; 61; 40] ++ blanks.        (* ":=(, \t\r\n" *)

(** The scan for the closing parenthesis: the value and the rest.  When the
    string ends first, [pos] is left one past the terminator: [None]. *)
Fixpoint paren_value (s : cstr) (level : Z) : cstr * option cstr :=
  match s with
  | [] => ([], None)
  | c :: s' =>
      let level := if c =? 40 then level + 1 else if c =? 41 then level - 1 else level in
      if level >? 0 then let '(v, rest) := paren_value s' level in (c :: v, rest)
      else ([], Some s')
  end.

(** [pos] is [None] when it points past the terminator. *)
Definition ofputil_parse_key_value (stringp : option cstr)
    : outcome (option (cstr * cstr * option cstr)) :=
  match stringp with
  | None => Fault OutOfBounds
  | Some s =>
      let pos := drop (strspn s blanks) s in
      if bool_decide (pos = []) then Ret None
      else
        let key_len := strcspn pos key_end in
        let key := take key_len pos in
        match drop key_len pos with
        | [] => Ret (Some (key, [], Some []))
        | c :: value =>
            if (c =? 58) || (c =? 61) then
              let value_len := strcspn value blanks in
              Ret (Some (key, take value_len value, Some (drop 1 (drop value_len value))))
            else if c =? 40 then
              let '(v, rest) := paren_value value 1 in Ret (Some (key, v, rest))
            else Ret (Some (key, [], Some value))
        end
  end.
