(* ===== verification/TextProofs.v ===== *)
(** * Reading back what was printed: numbers, addresses, key-value pairs *)
From Stdlib Require Import ZArith Lia Ascii String.
From stdpp Require Import base list numbers option.
From S2P Require Import Prelude Text.
Open Scope Z_scope.

(** ** Digits *)

(** Case analysis on every integer comparison of the goal. *)
Ltac zcases :=
  repeat (match goal with
          | |- context [?a <? ?b] => destruct (Z.ltb_spec a b)
          | |- context [?a <=? ?b] => destruct (Z.leb_spec a b)
          | |- context [?a >? ?b] => rewrite (Z.gtb_ltb a b)
          | |- context [?a >=? ?b] => rewrite (Z.geb_leb a b)
          | |- context [?a =? ?b] => destruct (Z.eqb_spec a b)
          end; simpl; try lia).

Lemma digit_char_range d : 0 ≤ d < 16 → 48 ≤ digit_char d ≤ 57 ∨ 97 ≤ digit_char d ≤ 102.
Proof. intros Hd. unfold digit_char. zcases. Qed.

Lemma digit_char_dec d : 0 ≤ d < 10 → digit_char d = 48 + d.
Proof. intros Hd. unfold digit_char. zcases. Qed.

Lemma hexit_digit d : 0 ≤ d < 16 → hexit_value (digit_char d) = d.
Proof.
  intros Hd. unfold digit_char, hexit_value.
  destruct (Z.ltb_spec d 10).
  - rewrite (proj2 (Z.leb_le 48 _)), (proj2 (Z.leb_le (48 + d) 57)) by lia. simpl. lia.
  - assert (d = 10 ∨ d = 11 ∨ d = 12 ∨ d = 13 ∨ d = 14 ∨ d = 15) as Hc by lia.
    destruct Hc as [->|[->|[->|[->|[->| ->]]]]]; reflexivity.
Qed.

(** Induction along the digits of a number. *)
Lemma print_digits_ind base (P : Z → cstr → cstr → Prop) :
  2 ≤ base →
  (∀ n acc, 0 ≤ n < base → P n acc (digit_char n :: acc)) →
  (∀ n acc s, base ≤ n → P (n / base) (digit_char (n mod base) :: acc) s → P n acc s) →
  ∀ fuel n acc, 0 ≤ n < base ^ Z.of_nat (S fuel) → P n acc (print_digits (S fuel) base n acc).
Proof.
  intros Hb H0 HS fuel. induction fuel as [|fuel IH]; intros n acc Hn.
  - change (base ^ Z.of_nat 1) with (base * 1) in Hn. simpl.
    rewrite (proj2 (Z.ltb_lt n base)), Z.mod_small by lia. apply H0. lia.
  - cbn [print_digits]. destruct (Z.ltb_spec n base).
    + rewrite Z.mod_small by lia. apply H0. lia.
    + apply HS; [done|]. apply IH. rewrite Nat2Z.inj_succ, Z.pow_succ_r in Hn by lia.
      split; [apply Z.div_pos; lia|]. apply Z.div_lt_upper_bound; lia.
Qed.

Lemma mod_range n base : 2 ≤ base → 0 ≤ n mod base < base.
Proof. intros Hb. apply Z.mod_pos_bound. lia. Qed.

(** The first character: '0' for 0, a digit that is not '0' otherwise. *)
Definition leads (n : Z) (s : cstr) : Prop :=
  ∃ d s', s = digit_char d :: s' ∧ 0 ≤ d < 16 ∧ (d = 0 → n = 0).

Lemma print_leads fuel base n acc :
  2 ≤ base ≤ 16 → 0 ≤ n < base ^ Z.of_nat (S fuel) → leads n (print_digits (S fuel) base n acc).
Proof.
  intros Hb Hn. apply (print_digits_ind base (λ n _ s, leads n s)); [lia|..|done].
  - intros m acc' Hm. exists m, acc'. split_and!; [done|lia|lia|done].
  - intros m acc' s Hm (d & s' & -> & Hd & H0). exists d, s'. split; [done|]. split; [done|].
    intros Hd0. specialize (H0 Hd0). assert (1 ≤ m / base) by (apply Z.div_le_lower_bound; lia).
    lia.
Qed.

(** The characters. *)
Definition plain (s : cstr) : Prop :=
  Forall (λ c, (48 ≤ c ≤ 57 ∨ 97 ≤ c ≤ 102) ∨ c = 46 ∨ c = 58 ∨ c = 120) s.

Lemma plain_app s t : plain s → plain t → plain (s ++ t).
Proof. apply Forall_app_2. Qed.

Lemma print_plain fuel base n acc :
  2 ≤ base ≤ 16 → 0 ≤ n < base ^ Z.of_nat (S fuel) → plain acc →
  plain (print_digits (S fuel) base n acc).
Proof.
  intros Hb Hn Hacc. revert Hacc.
  apply (print_digits_ind base (λ n acc s, plain acc → plain s)); [lia|..|done].
  - intros m acc' Hm Ha. constructor; [left; apply digit_char_range; lia|done].
  - intros m acc' s Hm IH Ha. apply IH. constructor; [|done]. left.
    apply digit_char_range. pose proof (mod_range m base). lia.
Qed.

(** ** strtoll() and strtoul() *)

Lemma strto_digits_print fuel base n acc :
  2 ≤ base ≤ 16 → 0 ≤ n < base ^ Z.of_nat (S fuel) →
  strto_digits (print_digits (S fuel) base n acc) base 0 = strto_digits acc base n.
Proof.
  intros Hb Hn.
  apply (print_digits_ind base (λ n acc s, strto_digits s base 0 = strto_digits acc base n));
    [lia|..|done].
  - intros m acc' Hm. simpl. rewrite hexit_digit by lia. zcases.
    all: try (f_equal; lia). all: reflexivity.
  - intros m acc' s Hm ->. simpl. pose proof (mod_range m base).
    rewrite hexit_digit by lia. rewrite (Z.mul_comm (m / base)), <- Z.div_mod by lia. zcases.
    all: try lia. all: reflexivity.
Qed.

Lemma is_digit_true base d : 0 ≤ d < 16 → is_digit base (digit_char d) = (d <? base).
Proof.
  intros Hd. unfold is_digit. rewrite hexit_digit by done.
  by rewrite (proj2 (Z.leb_le 0 d)) by lia.
Qed.

(** The prefix of a number that starts with a digit is empty. *)
Lemma skip_spaces_digit d s : 0 ≤ d < 16 → skip_spaces (digit_char d :: s) = digit_char d :: s.
Proof.
  intros Hd. simpl. unfold isspace. pose proof (digit_char_range d Hd). zcases; done.
Qed.

Lemma no_sign d s : 0 ≤ d < 16 →
  (if (chr (digit_char d :: s) =? 45) || (chr (digit_char d :: s) =? 43)
   then drop 1 (digit_char d :: s) else digit_char d :: s) = digit_char d :: s ∧
  (chr (digit_char d :: s) =? 45) = false.
Proof.
  intros Hd. pose proof (digit_char_range d Hd). unfold chr. cbn [head default from_option id].
  zcases; done.
Qed.

Lemma digit_char_0 d : 0 ≤ d < 16 → (digit_char d =? 48) = (d =? 0).
Proof. intros Hd. unfold digit_char. zcases. all: reflexivity. Qed.

Lemma strto_dec n : 0 ≤ n < 10 ^ 20 → strto (fmt_d n) = (false, n, []).
Proof.
  intros Hn. unfold fmt_d. pose proof (strto_digits_print 19 10 n []) as Hs.
  pose proof (print_leads 19 10 n []) as Hl.
  destruct Hl as (d & s & Es & Hd & H0); [lia|done|].
  assert (d < 10) as Hd10.
  { pose proof (print_digits_ind 10 (λ _ _ s, ∃ d s', s = digit_char d :: s' ∧ 0 ≤ d < 10)) as Hp.
    destruct (Hp ltac:(lia)) with (fuel := 19%nat) (n := n) (acc := [] : cstr)
      as (d' & s' & Es' & Hd'); [by intros m acc Hm; exists m, acc|done|done|].
    rewrite Es in Es'. injection Es' as E1 E2.
    assert (hexit_value (digit_char d) = hexit_value (digit_char d')) as E3 by congruence.
    rewrite !hexit_digit in E3 by lia. lia. }
  rewrite Es in *. unfold strto. rewrite skip_spaces_digit by done.
  destruct (no_sign d s Hd) as [-> ->].
  unfold chr at 1. cbn [head default from_option id]. rewrite digit_char_0 by done.
  destruct (Z.eqb_spec d 0) as [->|Hne].
  - assert (n = 0) as -> by auto. assert (s = []) as -> by (vm_compute in Es; congruence).
    reflexivity.
  - cbn [andb]. unfold chr. cbn [head default from_option id]. rewrite digit_char_0 by done.
    rewrite (proj2 (Z.eqb_neq d 0)) by done. cbv beta iota zeta.
    cbn [head default from_option id]. rewrite is_digit_true by done.
    rewrite (proj2 (Z.ltb_lt d 10)) by done. rewrite Hs by (lia || done). reflexivity.
Qed.

Lemma strto_hex n : 0 ≤ n < 16 ^ 16 → strto (fmt_sharp_x n) = (false, n, []).
Proof.
  intros Hn. unfold fmt_sharp_x. destruct (Z.eqb_spec n 0) as [->|Hne]; [reflexivity|].
  pose proof (strto_digits_print 15 16 n []) as Hs.
  destruct (print_leads 15 16 n []) as (d & s & Es & Hd & H0); [lia|done|].
  rewrite Es in *. unfold strto. cbn [app skip_spaces isspace orb andb Z.eqb Z.leb Z.compare
    Pos.compare Pos.compare_cont Pos.eqb chr head default from_option id drop].
  unfold chr. cbn [head default from_option id]. rewrite is_digit_true by done.
  rewrite (proj2 (Z.ltb_lt d 16)) by lia. cbn. rewrite is_digit_true by done.
  rewrite (proj2 (Z.ltb_lt d 16)) by lia.
  specialize (Hs ltac:(lia) ltac:(done)). cbn in Hs. rewrite Hs. reflexivity.
Qed.

Lemma to_int_small x : 0 ≤ x < 2 ^ 31 → to_int x = x.
Proof. intros Hx. unfold to_int. rewrite Z.mod_small; lia. Qed.

Lemma fmt_d_cons n : 0 ≤ n < 10 ^ 20 → fmt_d n ≠ [].
Proof.
  intros Hn. destruct (print_leads 19 10 n []) as (d & s & Es & _); [lia|done|].
  unfold fmt_d. by rewrite Es.
Qed.

Lemma str_to_int_dec n : 0 ≤ n < 2 ^ 31 → str_to_int (fmt_d n) = (true, n).
Proof.
  intros Hn. unfold str_to_int, str_to_llong, strtoll. rewrite strto_dec by lia.
  rewrite (proj2 (in_range_true _ _ n)) by (unfold LLONG_MIN, LLONG_MAX; lia).
  rewrite bool_decide_false; [|by intros E; apply (fmt_d_cons n); [lia|]; apply length_zero_iff_nil].
  rewrite bool_decide_true by done. simpl. by rewrite to_int_small.
Qed.

Lemma str_to_u8_dec n name : 0 ≤ n < 2 ^ 8 → str_to_u8 (fmt_d n) name = inr n.
Proof. intros Hn. unfold str_to_u8. rewrite str_to_int_dec by lia. simpl. zcases. done. Qed.

Lemma str_to_u16_dec n name : 0 ≤ n < 2 ^ 16 → str_to_u16 (fmt_d n) name = inr n.
Proof. intros Hn. unfold str_to_u16. rewrite str_to_int_dec by lia. simpl. zcases. done. Qed.

Lemma str_to_u32_hex n : 0 ≤ n < 2 ^ 32 → str_to_u32 (fmt_sharp_x n) = inr n.
Proof.
  intros Hn. unfold str_to_u32. rewrite bool_decide_false.
  - unfold strtoul. rewrite strto_hex by lia. rewrite (proj2 (Z.ltb_lt n (2 ^ 64))) by lia.
    by rewrite u32_small.
  - unfold fmt_sharp_x. by case_match.
Qed.

(** ** ovs_scan() *)

Lemma schar_digit d : 0 ≤ d < 16 → schar (digit_char d) = digit_char d.
Proof. intros Hd. pose proof (digit_char_range d Hd). unfold schar. zcases. Qed.

(** What may follow an octet: the end or a colon. *)
Definition octet_end (s : cstr) : Prop := s = [] ∨ ∃ s', s = 58 :: s'.

Lemma scan_int_octet {ld} h l rest : 0 ≤ h < 16 → 0 ≤ l < 16 → octet_end rest →
  @scan_int ld (digit_char h :: digit_char l :: rest) {| width := UINT_MAX; stype := SCAN_CHAR |} 16
  = Some ([SInt SCAN_CHAR (h * 16 + l)], rest).
Proof.
  intros Hh Hl Hr. unfold scan_int. destruct (no_sign h (digit_char l :: rest) Hh) as [-> ->].
  assert ((digit_char l =? 120) = false ∧ (digit_char l =? 88) = false) as [E1 E2].
  { pose proof (digit_char_range l Hl). split; apply Z.eqb_neq; lia. }
  unfold chr at 2 3. cbn [drop head default from_option id]. rewrite E1, E2.
  rewrite andb_false_r. cbn [Z.eqb Z.compare]. rewrite Z.sub_diag.
  change (0 >=? width _) with false. cbv beta iota zeta. cbn [width stype].
  assert (scan_digits (digit_char h :: digit_char l :: rest) 0 UINT_MAX 16 0 0
          = (h * 16 + l, 2, rest)) as ->.
  { cbn [scan_digits]. change (0 <? UINT_MAX) with true. change (0 + 1 <? UINT_MAX) with true.
    rewrite !schar_digit, !hexit_digit by done. cbv beta iota zeta.
    rewrite (proj2 (Z.ltb_ge h 0)), (proj2 (Z.ltb_ge l 0)) by lia. rewrite !Z.geb_leb.
    rewrite (proj2 (Z.leb_gt 16 h)), (proj2 (Z.leb_gt 16 l)) by lia. cbn [orb].
    rewrite (u64_small (0 * 16 + h)), u64_small by lia.
    destruct Hr as [->|[s' ->]]; reflexivity. }
  cbv beta iota zeta. change (2 =? 0) with false. rewrite bool_decide_false by done.
  cbn [stored_bits]. rewrite Z.mod_small by lia. done.
Qed.

Lemma fmt_02x_octet b : 0 ≤ b < 256 → fmt_02x b = [digit_char (b / 16); digit_char (b mod 16)].
Proof.
  intros Hb. unfold fmt_02x. cbn [print_digits].
  destruct (Z.ltb_spec b 16).
  - simpl. by rewrite Z.div_small, Z.mod_small by lia.
  - assert (b / 16 < 16) by (apply Z.div_lt_upper_bound; lia).
    assert (0 ≤ b / 16) by (apply Z.div_pos; lia).
    rewrite (proj2 (Z.ltb_lt (b / 16) 16)) by done. simpl. by rewrite (Z.mod_small (b / 16)).
Qed.

Lemma octet_digits b : 0 ≤ b < 256 → 0 ≤ b / 16 < 16 ∧ 0 ≤ b mod 16 < 16.
Proof.
  intros Hb. split; [|apply Z.mod_pos_bound; lia].
  split; [apply Z.div_pos; lia|apply Z.div_lt_upper_bound; lia].
Qed.

(** One "%hhx" of a format. *)
Lemma scan_octet {ld} (strtold : cstr → option ld) fuel start b rest p out :
  0 ≤ b < 256 → octet_end rest →
  ovs_scan_loop strtold (S fuel) start (fmt_02x b ++ rest) (37 :: 104 :: 104 :: 120 :: p) out =
  ovs_scan_loop strtold fuel start rest p (out ++ [SInt SCAN_CHAR b]).
Proof.
  intros Hb Hr. rewrite fmt_02x_octet by done. destruct (octet_digits b Hb) as [Hh Hl].
  cbn [app]. cbn [ovs_scan_loop]. change (isspace 37) with false.
  change (negb (37 =? 37)) with false. cbv beta iota.
  change (chr (104 :: 104 :: 120 :: p) =? 37) with false. cbv beta iota.
  unfold scan_conversion. cbv beta zeta. change (chr (104 :: 104 :: 120 :: p) =? 42) with false.
  cbv beta iota. change (scan_width (104 :: 104 :: 120 :: p) 0) with (0, 104 :: 104 :: 120 :: p).
  cbv beta iota. change (scan_modifier (104 :: 104 :: 120 :: p)) with (SCAN_CHAR, 120 :: p).
  cbv beta iota. cbn [Z.eqb Pos.eqb orb negb]. rewrite skip_spaces_digit by done.
  rewrite scan_int_octet by done. cbn [obind].
  by rewrite Z.mul_comm, <- Z.div_mod by lia.
Qed.

Lemma mac_roundtrip {ld} (strtold : cstr → option ld) a b c d e f :
  Forall (λ x, 0 ≤ x < 256) [a; b; c; d; e; f] →
  str_to_mac strtold (fmt_02x a ++ [58] ++ fmt_02x b ++ [58] ++ fmt_02x c ++ [58] ++
                      fmt_02x d ++ [58] ++ fmt_02x e ++ [58] ++ fmt_02x f) =
  Ret (inr [a; b; c; d; e; f]).
Proof.
  intros Hall. repeat (apply Forall_cons_1 in Hall as [? Hall]).
  unfold str_to_mac, ovs_scan, ovs_scan__, ETH_ADDR_SCAN_FMT.
  assert (∀ s, octet_end ([58] ++ s)) as Hcol by (intros s; right; by exists s).
  assert (∀ fuel start s p out,
    ovs_scan_loop strtold (S fuel) start ([58] ++ s) (58 :: p) out =
    ovs_scan_loop strtold fuel start s p out) as Hstep by done.
  remember (cstring "%hhx:%hhx:%hhx:%hhx:%hhx:%hhx") as p eqn:Ep. vm_compute in Ep. subst p.
  cbn [length].
  do 5 (rewrite scan_octet by (assumption || apply Hcol); rewrite Hstep).
  rewrite <- (app_nil_r (fmt_02x f)). rewrite scan_octet by (assumption || by left). done.
Qed.

(** ** inet_pton() *)

Lemma inet_digits fuel n acc fin :
  0 ≤ n < 10 ^ Z.of_nat (S fuel) → n ≤ 255 → (length fin < 4)%nat →
  inet_pton4 (print_digits (S fuel) 10 n acc) fin 0 false = inet_pton4 acc fin n true.
Proof.
  intros Hn Hle Hf. revert Hle.
  apply (print_digits_ind 10
    (λ n acc s, n ≤ 255 → inet_pton4 s fin 0 false = inet_pton4 acc fin n true));
    [lia|..|done].
  - intros m acc' Hm Hle. cbn [inet_pton4]. rewrite digit_char_dec by lia.
    rewrite (proj2 (Z.leb_le 48 _)), (proj2 (Z.leb_le (48 + m) 57)) by lia. cbn [andb negb].
    replace (0 * 10 + (48 + m - 48)) with m by lia.
    rewrite Z.gtb_ltb, (proj2 (Z.ltb_ge 255 m)) by lia.
    rewrite bool_decide_false by lia. done.
  - intros m acc' s Hm IH Hle. assert (1 ≤ m / 10) by (apply Z.div_le_lower_bound; lia).
    assert (m / 10 ≤ m) by (apply Z.div_le_upper_bound; lia).
    rewrite IH by lia. cbn [inet_pton4]. pose proof (mod_range m 10).
    rewrite digit_char_dec by lia.
    rewrite (proj2 (Z.leb_le 48 _)), (proj2 (Z.leb_le (48 + m mod 10) 57)) by lia.
    cbn [andb negb]. rewrite (proj2 (Z.eqb_neq (m / 10) 0)) by lia.
    replace (m / 10 * 10 + (48 + m mod 10 - 48)) with m by (pose proof (Z.div_mod m 10); lia).
    by rewrite Z.gtb_ltb, (proj2 (Z.ltb_ge 255 m)) by lia.
Qed.

Lemma inet_octet n s fin :
  0 ≤ n ≤ 255 → (length fin < 3)%nat →
  inet_pton4 (fmt_d n ++ [46] ++ s) fin 0 false = inet_pton4 s (fin ++ [n]) 0 false.
Proof.
  intros Hn Hf.
  assert (∀ fuel m acc t, print_digits fuel 10 m acc ++ t = print_digits fuel 10 m (acc ++ t)) as Happ.
  { induction fuel as [|fuel IH]; intros m acc t; simpl; [done|].
    case_match; [done|]. apply IH. }
  unfold fmt_d. rewrite Happ, inet_digits by (lia || done). simpl.
  by rewrite bool_decide_false by lia.
Qed.

Lemma ip_roundtrip a b c d :
  Forall (λ x, 0 ≤ x ≤ 255) [a; b; c; d] →
  str_to_ip (fmt_d a ++ [46] ++ fmt_d b ++ [46] ++ fmt_d c ++ [46] ++ fmt_d d) = inr [a; b; c; d].
Proof.
  intros Hall. repeat (apply Forall_cons_1 in Hall as [? Hall]). unfold str_to_ip, lookup_ip.
  rewrite inet_octet by (done || simpl; lia). rewrite inet_octet by (done || simpl; lia).
  rewrite inet_octet by (done || simpl; lia). unfold fmt_d.
  by rewrite inet_digits by (simpl; lia || done).
Qed.

(** ** Key-value pairs *)

Definition without (set s : cstr) : Prop := Forall (λ c, c ∉ set) s.

Lemma strcspn_app s t reject :
  without reject s → t = [] ∨ (∃ c t', t = c :: t' ∧ c ∈ reject) →
  strcspn (s ++ t) reject = length s.
Proof.
  intros Hs Ht. induction Hs as [|c s Hc Hs IH]; simpl.
  - destruct Ht as [->|(c & t' & -> & Hc)]; [done|]. simpl. by rewrite bool_decide_true.
  - rewrite bool_decide_false by done. by rewrite IH.
Qed.

Lemma take_drop_app (s t : cstr) : take (length s) (s ++ t) = s ∧ drop (length s) (s ++ t) = t.
Proof. by rewrite take_app_length, drop_app_length. Qed.

(** What ends a pair in a list of actions. *)
Definition pair_end (s : cstr) : Prop := s = [] ∨ ∃ s', s = 44 :: s'.

Lemma pair_end_reject s (set : cstr) : 44 ∈ set → pair_end s → s = [] ∨ (∃ c s', s = c :: s' ∧ c ∈ set).
Proof. intros Hset [->|[s' ->]]; [by left|right]. by exists 44, s'. Qed.

Lemma strspn_name c s : c ∉ blanks → strspn (c :: s) blanks = O.
Proof. intros Hc. simpl. by rewrite bool_decide_false. Qed.

Lemma blanks_key_end c : c ∈ blanks → c ∈ key_end.
Proof. unfold key_end. rewrite elem_of_app. auto. Qed.

Lemma key_value_pair c name value rest :
  without key_end (c :: name) → without blanks value → pair_end rest →
  ofputil_parse_key_value (Some ((c :: name) ++ 58 :: value ++ rest)) =
  Ret (Some (c :: name, value, Some (drop 1 rest))).
Proof.
  intros Hn Hv Hr. unfold ofputil_parse_key_value.
  cbn [app]. rewrite strspn_name; [|apply Forall_cons_1 in Hn as [Hc _]; auto using blanks_key_end].
  rewrite drop_0, bool_decide_false by done.
  rewrite (app_comm_cons name (58 :: value ++ rest) c).
  rewrite strcspn_app; [|done|right; exists 58, (value ++ rest); split; [done|]; by left].
  destruct (take_drop_app (c :: name) (58 :: value ++ rest)) as [-> ->].
  change ((58 =? 58) || (58 =? 61)) with true. cbv beta iota.
  rewrite strcspn_app; [|done|by apply pair_end_reject; [left|]].
  destruct (take_drop_app value rest) as [-> ->]. done.
Qed.

Lemma key_alone c name rest :
  without key_end (c :: name) → pair_end rest →
  ofputil_parse_key_value (Some ((c :: name) ++ rest)) = Ret (Some (c :: name, [], Some (drop 1 rest))).
Proof.
  intros Hn Hr. unfold ofputil_parse_key_value.
  cbn [app]. rewrite strspn_name; [|apply Forall_cons_1 in Hn as [Hc _]; auto using blanks_key_end].
  rewrite drop_0, bool_decide_false by done. rewrite (app_comm_cons name rest c).
  rewrite strcspn_app; [|done|].
  - destruct (take_drop_app (c :: name) rest) as [-> ->].
    by destruct Hr as [->|[s' ->]].
  - apply pair_end_reject; [|done]. by do 3 right; left.
Qed.

Lemma plain_without s : plain s → without blanks s.
Proof.
  apply Forall_impl. intros c Hc Hin. unfold blanks in Hin.
  repeat (apply elem_of_cons in Hin as [->|Hin]; [lia|]). by apply elem_of_nil in Hin.
Qed.

(** A "(" that is never closed leaves the position past the terminator. *)
Lemma paren_unclosed s level : 0 < level → 41 ∉ s → (paren_value s level).2 = None.
Proof.
  revert level. induction s as [|c s IH]; intros level Hl Hs; simpl; [done|].
  apply not_elem_of_cons in Hs as [Hc Hs]. set (level' := if c =? 40 then _ else _).
  assert (0 < level') as Hl'.
  { subst level'. destruct (Z.eqb_spec c 40); [lia|]. by destruct (Z.eqb_spec c 41); [subst|]. }
  rewrite Z.gtb_ltb, (proj2 (Z.ltb_lt 0 level') Hl').
  specialize (IH level' Hl' Hs). by destruct (paren_value s level').
Qed.

(** ** The scanner stops *)

Lemma scan_width_suffix p w : (length (scan_width p w).2 ≤ length p)%nat.
Proof.
  revert w. induction p as [|c p IH]; intros w; simpl; [done|].
  case_match; [|done]. specialize (IH (u32 (w * 10 + (c - 48)))). lia.
Qed.

Lemma scan_modifier_suffix p : (length (scan_modifier p).2 ≤ length p)%nat.
Proof.
  unfold scan_modifier. repeat case_match; simpl; rewrite ?length_drop; lia.
Qed.

Lemma parse_set_members_suffix p set :
  (length (parse_set_members p set).2 ≤ length p)%nat.
Proof.
  remember (length p) as n eqn:En. assert (length p ≤ n)%nat as Hn by lia. clear En.
  revert p set Hn. induction n as [n IH] using lt_wf_ind. intros p set Hn.
  destruct p as [|c r]; simpl in *; [lia|].
  assert (∀ set', (length (parse_set_members r set').2 ≤ n)%nat) as Hr.
  { intros set'. specialize (IH (n - 1)%nat ltac:(lia) r set' ltac:(lia)). lia. }
  case_match; simpl; [lia|].
  destruct r as [|x [|d r2]]; try (repeat case_match; apply Hr).
  assert (∀ set', (length (parse_set_members r2 set').2 ≤ n)%nat) as Hr2.
  { intros set'. simpl in Hn. specialize (IH (n - 3)%nat ltac:(lia) r2 set' ltac:(lia)). lia. }
  repeat case_match; first [apply Hr2 | apply Hr].
Qed.

Lemma scan_set_suffix {ld} s spec p : (length (@scan_set ld s spec p).2 ≤ length p)%nat.
Proof.
  unfold scan_set, parse_scanset.
  assert (∀ q set, (length q ≤ length p)%nat →
    (length (parse_set_members q set).2 ≤ length p)%nat) as Hm.
  { intros q set Hq. pose proof (parse_set_members_suffix q set). lia. }
  set (q := if chr p =? 94 then drop 1 p else p).
  assert (length q ≤ length p)%nat as Hq by (subst q; case_match; rewrite ?length_drop; lia).
  assert (length (drop 1 q) ≤ length p)%nat as Hq1 by (rewrite length_drop; lia).
  destruct (chr q =? 93).
  - specialize (Hm (drop 1 q) [93] Hq1). by destruct (parse_set_members (drop 1 q) [93]).
  - specialize (Hm q [] Hq). by destruct (parse_set_members q []).
Qed.

Lemma scan_conversion_suffix {ld} (strtold : cstr → option ld) start s p :
  match scan_conversion strtold start s p with
  | Ret (_, p') => (length p' ≤ length p)%nat
  | Fault _ => True
  | Diverge => False
  end.
Proof.
  unfold scan_conversion. set (q := if chr p =? 42 then drop 1 p else p).
  assert (length q ≤ length p)%nat as Hq by (subst q; case_match; rewrite ?length_drop; lia).
  pose proof (scan_width_suffix q 0) as Hw. destruct (scan_width q 0) as [w q1].
  pose proof (scan_modifier_suffix q1) as Hm. destruct (scan_modifier q1) as [t q2].
  simpl in Hw, Hm. destruct q2 as [|c q3]; [done|]. simpl in Hm. cbv zeta.
  set (s' := if negb _ then skip_spaces s else s).
  set (spec := {| width := _; stype := _ |}).
  pose proof (@scan_set_suffix ld s' spec q3) as Hset.
  assert (∀ r : outcome (@conv ld), r ≠ Diverge →
    match obind r (λ r, Ret (r, q3)) with
    | Ret (_, p') => (length p' ≤ length p)%nat | Fault _ => True | Diverge => False end) as Hf.
  { intros [r|f|] Hr; simpl; [lia|done..]. }
  repeat (match goal with |- context [if ?b then _ else _] => destruct b end; [lia|..]).
  all: try lia.
  all: repeat (match goal with |- context [if ?b then _ else _] => destruct b end; try lia).
  all: try (apply Hf; unfold scan_float; repeat case_match; done).
  all: destruct (scan_set s' spec q3); simpl in *; lia.
Qed.

Lemma ovs_scan_stops {ld} (strtold : cstr → option ld) fuel start s p out :
  (length p ≤ fuel)%nat → ovs_scan_loop strtold fuel start s p out ≠ Diverge.
Proof.
  revert s p out. induction fuel as [|fuel IH]; intros s p out Hp; destruct p as [|c p];
    simpl in *; try done; [lia|].
  destruct (isspace c); [apply IH; lia|]. destruct (negb (c =? 37)).
  { case_match; [apply IH; lia|done]. }
  destruct (chr p =? 37).
  { case_match; [apply IH; rewrite length_drop; lia|done]. }
  pose proof (scan_conversion_suffix strtold start s p) as Hc.
  destruct (scan_conversion strtold start s p) as [[r p']|f|]; simpl; [|done..].
  destruct r as [[vs s']|]; [|done]. apply IH. lia.
Qed.

(** ** Reading an address never fails otherwise than by an error *)

Definition octet_spec : scan_spec := {| width := UINT_MAX; stype := SCAN_CHAR |}.

Lemma scan_hhx {ld} (strtold : cstr → option ld) fuel start s p out :
  ovs_scan_loop strtold (S fuel) start s (37 :: 104 :: 104 :: 120 :: p) out =
  match scan_int (skip_spaces s) octet_spec 16 with
  | None => Ret None
  | Some (vs, s') => ovs_scan_loop strtold fuel start s' p (out ++ vs)
  end.
Proof. reflexivity. Qed.

Lemma scan_colon {ld} (strtold : cstr → option ld) fuel start s p out :
  ovs_scan_loop strtold (S fuel) start s (58 :: p) out =
  if schar (chr s) =? 58 then ovs_scan_loop strtold fuel start (drop 1 s) p out else Ret None.
Proof. reflexivity. Qed.

Lemma str_to_mac_total {ld} (strtold : cstr → option ld) s : ∃ r, str_to_mac strtold s = Ret r.
Proof.
  unfold str_to_mac. enough (∃ r, ovs_scan strtold s ETH_ADDR_SCAN_FMT = Ret r) as [r ->] by (by eexists).
  unfold ovs_scan. enough (∃ r, ovs_scan__ strtold s ETH_ADDR_SCAN_FMT = Ret r) as [r ->] by (by eexists).
  unfold ovs_scan__, ETH_ADDR_SCAN_FMT.
  remember (cstring "%hhx:%hhx:%hhx:%hhx:%hhx:%hhx") as p eqn:Ep. vm_compute in Ep. subst p.
  cbn [length].
  do 5 (rewrite scan_hhx; destruct (scan_int _ _ _) as [[? ?]|]; [|by eexists];
        rewrite scan_colon; destruct (_ =? _); [|by eexists]).
  rewrite scan_hhx. destruct (scan_int _ _ _) as [[? ?]|]; by eexists.
Qed.

(** ** Each pair takes at least one character *)

Lemma key_value_total (s : cstr) :
  40 ∉ s →
  ∃ r, ofputil_parse_key_value (Some s) = Ret r ∧
    match r with
    | None => True
    | Some (_, _, None) => False
    | Some (_, _, Some pos) => (length pos < length s)%nat ∧ 40 ∉ pos
    end.
Proof.
  intros Hs. unfold ofputil_parse_key_value. set (pos := drop (strspn s blanks) s).
  assert (length pos ≤ length s)%nat as Hlen by (subst pos; rewrite length_drop; lia).
  assert (40 ∉ pos) as Hpos by (intros Hin; by apply Hs, (subseteq_drop (strspn s blanks))).
  clearbody pos. case_bool_decide as Hne; [by eexists|].
  destruct (drop (strcspn pos key_end) pos) as [|c value] eqn:Ed.
  { eexists. split; [done|]. split; [|by apply not_elem_of_nil]. destruct pos; [done|simpl in *; lia]. }
  assert (c :: value ⊆ pos) as Hsub by (rewrite <- Ed; apply subseteq_drop).
  assert (length value < length pos)%nat as Hl.
  { apply (f_equal length) in Ed. rewrite length_drop in Ed. simpl in Ed. lia. }
  assert (c ≠ 40) as Hc by (intros ->; apply Hpos, Hsub; by left).
  assert (40 ∉ value) as Hv by (intros Hin; apply Hpos, Hsub; by right).
  rewrite (proj2 (Z.eqb_neq c 40) Hc).
  destruct ((c =? 58) || (c =? 61)); (eexists; split; [done|]).
  - split; [rewrite !length_drop; lia|]. intros Hin.
    by apply Hv, (subseteq_drop (strcspn value blanks)), (subseteq_drop 1).
  - split; [lia|done].
Qed.

(** ** Numbers that do not fit *)

Lemma to_int_wraps x k : 0 ≤ x < 2 ^ 31 → to_int (x + k * 2 ^ 32) = x.
Proof.
  intros Hx. unfold to_int. replace (x + k * 2 ^ 32 + 2 ^ 31) with (x + 2 ^ 31 + k * 2 ^ 32) by lia.
  rewrite Z_mod_plus_full. rewrite Z.mod_small; lia.
Qed.

Lemma str_to_int_wraps x k :
  0 ≤ x < 2 ^ 31 → 0 ≤ k < 2 ^ 31 → str_to_int (fmt_d (x + k * 2 ^ 32)) = (true, x).
Proof.
  intros Hx Hk. unfold str_to_int, str_to_llong, strtoll. rewrite strto_dec by lia.
  rewrite (proj2 (in_range_true _ _ (x + k * 2 ^ 32))) by (unfold LLONG_MIN, LLONG_MAX; lia).
  rewrite bool_decide_false;
    [|by intros E; apply (fmt_d_cons (x + k * 2 ^ 32)); [lia|]; apply length_zero_iff_nil].
  rewrite bool_decide_true by done. simpl. by rewrite to_int_wraps.
Qed.
