(* ===== verification/OfpText.v ===== *)
(** * lib/ofp-actions.c: the GTP actions as text

    The parsers and formatters of the thirteen GTP actions and the functions
    that read and write a list of actions.  The names and parsers of all other
    actions are parameters. *)
From Stdlib Require Import ZArith Lia Ascii String.
From stdpp Require Import base list numbers option.
From S2P Require Import Prelude GtpWire OfpActions Text.
Open Scope Z_scope.

(** ** Formatting *)

(** IP_ARGS() and ETH_ADDR_ARGS(). *)
Definition ip_octets (ip : Z) : list Z :=
  let h := ntohl ip in
  [Z.shiftr h 24; Z.land (Z.shiftr h 16) 255; Z.land (Z.shiftr h 8) 255; Z.land h 255].
Fixpoint join (sep : cstr) (l : list cstr) : cstr :=
  match l with
  | [] => []
  | [x] => x
  | x :: l' => x ++ sep ++ join sep l'
  end.
Definition IP_FMT (ip : Z) : cstr := join [46] (map fmt_d (ip_octets ip)).
Definition ETH_ADDR_FMT (mac : Z) : cstr := join [58] (map fmt_02x (be_bytes 6 mac)).

Definition format_HANDLE_GTP : cstr := cstring "handle_gtp".
Definition format_HANDLE_PGW_SGI : cstr := cstring "handle_pgw_sgi".
Definition format_OPERATE_GTP (v : Z) : cstr := cstring "operate_gtp:" ++ fmt_d v.
Definition format_PGW_FASTPATH (v : Z) : cstr := cstring "pgw_fastpath:" ++ fmt_d v.
Definition format_OVS_ID (v : Z) : cstr := cstring "ovs_id:" ++ fmt_d v.
Definition format_OVS_TOTAL (v : Z) : cstr := cstring "ovs_total:" ++ fmt_d v.
Definition format_GTP_PGW_PORT (v : Z) : cstr := cstring "gtp_pgw_port:" ++ fmt_d v.
Definition format_PGW_SGI_PORT (v : Z) : cstr := cstring "pgw_sgi_port:" ++ fmt_d v.
Definition format_OVS_PHY_PORT (v : Z) : cstr := cstring "ovs_phy_port:" ++ fmt_d v.
Definition format_GTP_PGW_ETH (mac : Z) : cstr := cstring "gtp_pgw_eth:" ++ ETH_ADDR_FMT mac.
Definition format_PGW_SGI_ETH (mac : Z) : cstr := cstring "pgw_sgi_eth:" ++ ETH_ADDR_FMT mac.
Definition format_GTP_PGW_IP (ip : Z) : cstr := cstring "gtp_pgw_ip:" ++ IP_FMT ip.
Definition format_GTP_TEID (v : Z) : cstr := cstring "gtp_teid:" ++ fmt_sharp_x v.

(** ** Parsing the arguments *)

Definition parse_HANDLE_GTP : parse_error + ofpact := inr (HANDLE_GTP (RAW_GTP E10 T_HANDLE_GTP)).
Definition parse_HANDLE_PGW_SGI : parse_error + ofpact :=
  inr (HANDLE_PGW_SGI (RAW_GTP E10 T_HANDLE_PGW_SGI)).

Definition sum_map {E A B} (f : A → B) (x : E + A) : E + B :=
  match x with inl e => inl e | inr a => inr (f a) end.

Definition parse_OPERATE_GTP (arg : cstr) : parse_error + ofpact :=
  sum_map OPERATE_GTP (str_to_u8 arg (cstring "operate_gtp")).
Definition parse_PGW_FASTPATH (arg : cstr) : parse_error + ofpact :=
  sum_map PGW_FASTPATH (str_to_u8 arg (cstring "pgw_fastpath")).
Definition parse_OVS_ID (arg : cstr) : parse_error + ofpact :=
  sum_map OVS_ID (str_to_u16 arg (cstring "ovs_id")).
Definition parse_OVS_TOTAL (arg : cstr) : parse_error + ofpact :=
  sum_map OVS_TOTAL (str_to_u16 arg (cstring "ovs_total")).
Definition parse_GTP_PGW_PORT (arg : cstr) : parse_error + ofpact :=
  sum_map GTP_PGW_PORT (str_to_u16 arg (cstring "gtp_pgw_port")).
Definition parse_PGW_SGI_PORT (arg : cstr) : parse_error + ofpact :=
  sum_map PGW_SGI_PORT (str_to_u16 arg (cstring "pgw_sgi_port")).
Definition parse_OVS_PHY_PORT (arg : cstr) : parse_error + ofpact :=
  sum_map OVS_PHY_PORT (str_to_u16 arg (cstring "ovs_phy_port")).
Definition parse_GTP_TEID (arg : cstr) : parse_error + ofpact :=
  sum_map GTP_TEID (str_to_u32 arg).
(** The four octets in memory are the [ovs_be32]. *)
Definition parse_GTP_PGW_IP (arg : cstr) : parse_error + ofpact :=
  sum_map (λ a, GTP_PGW_IP (htonl (of_be_bytes a))) (str_to_ip arg).

Section parse.
Context {ld : Type}.
Variable strtold : cstr → option ld.

Definition parse_GTP_PGW_ETH (arg : cstr) : outcome (parse_error + ofpact) :=
  let* r := str_to_mac strtold arg in Ret (sum_map (λ a, GTP_PGW_ETH (of_be_bytes a)) r).
Definition parse_PGW_SGI_ETH (arg : cstr) : outcome (parse_error + ofpact) :=
  let* r := str_to_mac strtold arg in Ret (sum_map (λ a, PGW_SGI_ETH (of_be_bytes a)) r).

(** The GTP rows of ofpact_parse(). *)
Definition ofpact_parse (t : gtp_type) (value : cstr) : outcome (parse_error + ofpact) :=
  match t with
  | T_HANDLE_GTP => Ret parse_HANDLE_GTP
  | T_HANDLE_PGW_SGI => Ret parse_HANDLE_PGW_SGI
  | T_OPERATE_GTP => Ret (parse_OPERATE_GTP value)
  | T_PGW_FASTPATH => Ret (parse_PGW_FASTPATH value)
  | T_OVS_ID => Ret (parse_OVS_ID value)
  | T_OVS_TOTAL => Ret (parse_OVS_TOTAL value)
  | T_GTP_PGW_PORT => Ret (parse_GTP_PGW_PORT value)
  | T_PGW_SGI_PORT => Ret (parse_PGW_SGI_PORT value)
  | T_OVS_PHY_PORT => Ret (parse_OVS_PHY_PORT value)
  | T_GTP_PGW_ETH => parse_GTP_PGW_ETH value
  | T_PGW_SGI_ETH => parse_PGW_SGI_ETH value
  | T_GTP_PGW_IP => Ret (parse_GTP_PGW_IP value)
  | T_GTP_TEID => Ret (parse_GTP_TEID value)
  end.

(** strcasecmp() in the "C" locale. *)
Definition tolower (c : Z) : Z := if (65 <=? c) && (c <=? 90) then c + 32 else c.
Definition strcaseeq (a b : cstr) : bool := bool_decide (map tolower a = map tolower b).

(** The GTP names of [OFPACTS]. *)
Definition ofpact_names : list (cstr * gtp_type) :=
  [(cstring "handle_gtp", T_HANDLE_GTP); (cstring "handle_pgw_sgi", T_HANDLE_PGW_SGI);
   (cstring "operate_gtp", T_OPERATE_GTP); (cstring "gtp_teid", T_GTP_TEID);
   (cstring "gtp_pgw_ip", T_GTP_PGW_IP); (cstring "ovs_id", T_OVS_ID);
   (cstring "ovs_total", T_OVS_TOTAL); (cstring "gtp_pgw_port", T_GTP_PGW_PORT);
   (cstring "ovs_phy_port", T_OVS_PHY_PORT); (cstring "pgw_sgi_port", T_PGW_SGI_PORT);
   (cstring "pgw_fastpath", T_PGW_FASTPATH); (cstring "gtp_pgw_eth", T_GTP_PGW_ETH);
   (cstring "pgw_sgi_eth", T_PGW_SGI_ETH)].

Definition ofpact_type_from_name (name : cstr) : option gtp_type :=
  snd <$> List.find (λ '(n, _), strcaseeq name n) ofpact_names.

(** ** Order of actions *)

(** [enum ovs_instruction_type], as numbers. *)
Definition OVSINST_OFPIT13_METER : Z := 0.
Definition OVSINST_OFPIT11_APPLY_ACTIONS : Z := 1.
Definition N_OVS_INSTRUCTIONS : Z := 6.

(** What ofpacts_verify() looks at in an action that is not of the GTP
    manager: its type, its instruction, and whether the field it writes, if
    any, needs connection tracking. *)
Record action_view := {
  is_conjunction : bool;
  is_note : bool;
  view_inst : Z;
  mf_dst : option bool;
}.
Variable other_view : Z → action_view.

Definition gtp_view : action_view :=
  {| is_conjunction := false; is_note := false;
     view_inst := OVSINST_OFPIT11_APPLY_ACTIONS; mf_dst := None |}.
Definition view (a : ofpact) : action_view :=
  match a with OFPACT_OTHER n => other_view n | _ => gtp_view end.

Inductive nesting := NEST_NONE | NEST_WRITE_ACTIONS | NEST_CT | NEST_OTHER.
#[local] Instance nesting_eq_dec : EqDecision nesting.
Proof. solve_decision. Defined.

(** Errors as a boolean: true is success. *)
Definition ofpacts_verify_nested (a : ofpact) (outer : nesting) : outcome bool :=
  match mf_dst (view a), outer with
  | Some true, NEST_CT => Ret true
  | Some true, _ => Ret false
  | _, NEST_NONE => Ret true
  | _, NEST_OTHER => Fault AssertFail
  | _, NEST_WRITE_ACTIONS => Ret true
  | _, NEST_CT => Ret false
  end.

Fixpoint verify_loop (all l : list ofpact) (first : bool) (inst allowed : Z) (outer : nesting)
    : outcome bool :=
  match l with
  | [] => Ret true
  | a :: l' =>
      if is_conjunction (view a) then
        Ret (forallb (λ b, is_conjunction (view b) || is_note (view b)) all)
      else
        let* ok := ofpacts_verify_nested a outer in
        if negb ok then Ret false
        else
          let next := view_inst (view a) in
          if negb first
             && (if inst =? OVSINST_OFPIT11_APPLY_ACTIONS then next <? inst else next <=? inst)
          then Ret false
          else if negb (Z.testbit allowed next) then Ret false
          else verify_loop all l' false next allowed outer
  end.

Definition ofpacts_verify (l : list ofpact) (allowed : Z) (outer : nesting) : outcome bool :=
  verify_loop l l true OVSINST_OFPIT13_METER allowed outer.

(** ** Lists of actions *)

Variable format_other : Z → cstr.
Definition ofpact_format (a : ofpact) : cstr :=
  match a with
  | HANDLE_GTP _ => format_HANDLE_GTP
  | HANDLE_PGW_SGI _ => format_HANDLE_PGW_SGI
  | OPERATE_GTP v => format_OPERATE_GTP v
  | PGW_FASTPATH v => format_PGW_FASTPATH v
  | OVS_ID v => format_OVS_ID v
  | OVS_TOTAL v => format_OVS_TOTAL v
  | GTP_PGW_PORT v => format_GTP_PGW_PORT v
  | PGW_SGI_PORT v => format_PGW_SGI_PORT v
  | OVS_PHY_PORT v => format_OVS_PHY_PORT v
  | GTP_PGW_ETH v => format_GTP_PGW_ETH v
  | PGW_SGI_ETH v => format_PGW_SGI_ETH v
  | GTP_PGW_IP v => format_GTP_PGW_IP v
  | GTP_TEID v => format_GTP_TEID v
  | OFPACT_OTHER n => format_other n
  end.

Fixpoint format_rest (l : list ofpact) : cstr :=
  match l with
  | [] => []
  | a :: l' => [44] ++ ofpact_format a ++ format_rest l'
  end.
Definition ofpacts_format (l : list ofpact) : cstr :=
  match l with
  | [] => cstring "drop"
  | a :: l' => ofpact_format a ++ format_rest l'
  end.

(** The other names an action can have, with the actions a pair adds and its
    instruction; and port numbers and names. *)
Variable parse_named : cstr → cstr → option (parse_error + list ofpact * Z).
Variable port_from_string : cstr → option ofpact.

(** One key and value: the actions it adds, its instruction, and whether it
    is "drop". *)
Definition parse_pair (key value : cstr) : outcome (parse_error + list ofpact * Z * bool) :=
  match ofpact_type_from_name key with
  | Some t =>
      let* r := ofpact_parse t value in
      Ret (sum_map (λ a, ([a], OVSINST_OFPIT11_APPLY_ACTIONS, false)) r)
  | None =>
      match parse_named key value with
      | Some r => Ret (sum_map (λ '(l, inst), (l, inst, false)) r)
      | None =>
          if strcaseeq key (cstring "drop") then
            Ret (inr ([], OVSINST_OFPIT11_APPLY_ACTIONS, true))
          else if strcaseeq key (cstring "apply_actions") then Ret (inl ApplyActionsIsDefault)
          else match port_from_string key with
               | Some a => Ret (inr ([a], OVSINST_OFPIT11_APPLY_ACTIONS, false))
               | None => Ret (inl (UnknownAction key))
               end
      end
  end.

Definition check_inst (allow_instructions : bool) (inst prev_inst : Z) : option parse_error :=
  if negb (inst =? OVSINST_OFPIT11_APPLY_ACTIONS) && negb allow_instructions
  then Some OnlyActionsAllowed
  else if negb (inst =? OVSINST_OFPIT11_APPLY_ACTIONS) && (inst =? prev_inst)
  then Some InstructionTwice
  else if negb (prev_inst =? -1) && (inst <? prev_inst) then Some InstructionOrder
  else None.

Fixpoint parse_loop (fuel : nat) (pos : option cstr) (allow : bool) (ofpacts : list ofpact)
    (prev_inst : Z) (drop : bool) : outcome (parse_error + list ofpact * bool) :=
  match fuel with
  | O => Diverge
  | S fuel =>
      let* kv := ofputil_parse_key_value pos in
      match kv with
      | None => Ret (inr (ofpacts, drop))
      | Some (key, value, pos) =>
          let* r := parse_pair key value in
          match r with
          | inl e => Ret (inl e)
          | inr (l, inst, d) =>
              match check_inst allow inst prev_inst with
              | Some e => Ret (inl e)
              | None => parse_loop fuel pos allow (ofpacts ++ l) inst (drop || d)
              end
          end
      end
  end.

Definition allowed_ovsinsts (allow : bool) : Z :=
  if allow then Z.shiftl 1 N_OVS_INSTRUCTIONS - 1 else Z.shiftl 1 OVSINST_OFPIT11_APPLY_ACTIONS.

(** [ofpacts] is what the buffer already holds. *)
Definition ofpacts_parse__ (str : cstr) (ofpacts : list ofpact) (allow : bool) (outer : nesting)
    : outcome (parse_error + list ofpact) :=
  let* r := parse_loop (S (length str)) (Some str) allow ofpacts (-1) false in
  match r with
  | inl e => Ret (inl e)
  | inr (ofpacts, drop) =>
      if drop && negb (bool_decide (ofpacts = [])) then Ret (inl DropWithOthers)
      else
        let* ok := ofpacts_verify ofpacts (allowed_ovsinsts allow) outer in
        Ret (if ok then inr ofpacts else inl IncorrectOrdering)
  end.

(** On an error the buffer is cut back to what it held. *)
Definition ofpacts_parse (str : cstr) (ofpacts : list ofpact) (allow : bool) (outer : nesting)
    : outcome (option parse_error * list ofpact) :=
  let* r := ofpacts_parse__ str ofpacts allow outer in
  Ret match r with inl e => (Some e, ofpacts) | inr l => (None, l) end.
End parse.
