(* ===== verification/OfpTextProofs.v ===== *)
(** * The GTP actions as text: parsing what was formatted *)
From Stdlib Require Import ZArith Lia Ascii String.
From stdpp Require Import base list numbers option.
From S2P Require Import Prelude GtpWire GtpWireProofs OfpActions OfpActionsProofs Text TextProofs OfpText.
Open Scope Z_scope.

(** ** Addresses *)

Lemma be_bytes_range n x : Forall (λ b, 0 ≤ b < 256) (be_bytes n x).
Proof.
  revert x. induction n as [|n IH]; intros x; simpl; [constructor|].
  apply Forall_app_2; [apply IH|]. constructor; [apply (u8_range x)|constructor].
Qed.

Lemma fmt_02x_plain b : 0 ≤ b < 256 → plain (fmt_02x b).
Proof.
  intros Hb. rewrite fmt_02x_octet by done. destruct (octet_digits b Hb) as [Hh Hl].
  constructor; [left; by apply digit_char_range|].
  constructor; [left; by apply digit_char_range|constructor].
Qed.

Lemma fmt_d_plain n : 0 ≤ n < 10 ^ 20 → plain (fmt_d n).
Proof. intros Hn. apply (print_plain 19); [lia|done|constructor]. Qed.

Lemma fmt_sharp_x_plain n : 0 ≤ n < 2 ^ 32 → plain (fmt_sharp_x n).
Proof.
  intros Hn. unfold fmt_sharp_x. case_match; [constructor; [lia|constructor]|].
  apply Forall_app_2; [constructor; [lia|constructor; [lia|constructor]]|].
  apply (print_plain 15); [lia|lia|constructor].
Qed.

Lemma join_plain sep l : plain sep → Forall plain l → plain (join sep l).
Proof.
  intros Hs Hl. induction Hl as [|s l Hx Hl IH]; simpl; [constructor|].
  destruct l; [done|]. apply plain_app; [done|]. by apply plain_app.
Qed.

Lemma eth_plain mac : plain (ETH_ADDR_FMT mac).
Proof.
  apply join_plain; [constructor; [lia|constructor]|].
  apply Forall_map. eapply Forall_impl; [|apply (be_bytes_range 6 mac)].
  intros b Hb. by apply fmt_02x_plain.
Qed.

Lemma str_to_mac_fmt {ld} (strtold : cstr → option ld) mac :
  str_to_mac strtold (ETH_ADDR_FMT mac) = Ret (inr (be_bytes 6 mac)).
Proof.
  unfold ETH_ADDR_FMT. pose proof (be_bytes_range 6 mac) as Hr.
  pose proof (be_bytes_length 6 mac) as Hl.
  destruct (be_bytes 6 mac) as [|a [|b [|c [|d [|e [|f [|g l]]]]]]]; try discriminate Hl.
  by apply mac_roundtrip.
Qed.

Lemma ip_octets_be ip : ip_octets ip = be_bytes 4 (ntohl ip).
Proof.
  unfold ip_octets. pose proof (ntohl_range ip) as Hr. set (h := ntohl ip) in *. clearbody h.
  change 255 with (Z.ones 8). rewrite !Z.land_ones by lia.
  simpl. rewrite !Z.shiftr_shiftr by lia. change (8 + 8) with 16. change (16 + 8) with 24.
  unfold u8. rewrite (Z.mod_small (Z.shiftr h 24)); [done|].
  rewrite Z.shiftr_div_pow2 by lia. split; [apply Z.div_pos; lia|].
  apply Z.div_lt_upper_bound; lia.
Qed.

Lemma ip_plain ip : plain (IP_FMT ip).
Proof.
  apply join_plain; [constructor; [lia|constructor]|]. rewrite ip_octets_be.
  apply Forall_map. eapply Forall_impl; [|apply (be_bytes_range 4)].
  intros b Hb. cbv beta in *. apply fmt_d_plain. lia.
Qed.

Lemma str_to_ip_fmt ip : str_to_ip (IP_FMT ip) = inr (be_bytes 4 (ntohl ip)).
Proof.
  unfold IP_FMT. rewrite ip_octets_be. pose proof (be_bytes_range 4 (ntohl ip)) as Hr.
  pose proof (be_bytes_length 4 (ntohl ip)) as Hl.
  destruct (be_bytes 4 (ntohl ip)) as [|a [|b [|c [|d [|e l]]]]]; try discriminate Hl.
  apply ip_roundtrip. eapply Forall_impl; [|exact Hr]. simpl. lia.
Qed.

(** ** One action *)

Section parse.
Context {ld : Type}.
Variable strtold : cstr → option ld.
Variable format_other : Z → cstr.

(** A key and a value that read as action [a]. *)
Definition reads_as (key value : cstr) (a : ofpact) : Prop :=
  ∃ t, ofpact_type_from_name key = Some t ∧ ofpact_parse strtold t value = Ret (inr a).

(** The key and value of the text of an action. *)
Definition pair_of (s : cstr) (key value : cstr) : Prop :=
  ∀ rest, pair_end rest →
    ofputil_parse_key_value (Some (s ++ rest)) = Ret (Some (key, value, Some (drop 1 rest))).

Lemma named_pair (name : string) value :
  bool_decide (cstring name ≠ [] ∧ without key_end (cstring name)) = true → plain value →
  pair_of (cstring name ++ 58 :: value) (cstring name) value.
Proof.
  intros Hn Hv rest Hr. apply bool_decide_eq_true in Hn as [Hne Hw].
  destruct (cstring name) as [|c n]; [done|]. rewrite <- app_assoc.
  apply key_value_pair; [done|by apply plain_without|done].
Qed.

Lemma bare_pair (name : string) :
  bool_decide (cstring name ≠ [] ∧ without key_end (cstring name)) = true →
  pair_of (cstring name) (cstring name) [].
Proof.
  intros Hn rest Hr. apply bool_decide_eq_true in Hn as [Hne Hw].
  destruct (cstring name) as [|c n]; [done|]. by apply key_alone.
Qed.

(** An action with a value: its name and how the value is read. *)
Lemma value_reads (name : string) value t a :
  bool_decide (cstring name ≠ [] ∧ without key_end (cstring name)) = true →
  ofpact_type_from_name (cstring name) = Some t → plain value →
  ofpact_parse strtold t value = Ret (inr a) →
  ∃ key value', pair_of (cstring name ++ 58 :: value) key value' ∧ reads_as key value' a.
Proof.
  intros Hn Ht Hv Hp. exists (cstring name), value. split; [by apply named_pair|]. by exists t.
Qed.

Lemma action_reads a :
  wf_gtp a → ∃ key value,
    pair_of (ofpact_format format_other a) key value ∧ reads_as key value (with_raw 1 a).
Proof.
  intros Hwf.
  destruct a as [| |v|v|v|v|v|v|v|v|v|v|v|]; simpl in Hwf; try done.
  - do 2 eexists. split; [by apply (bare_pair "handle_gtp")|]. by eexists.
  - do 2 eexists. split; [by apply (bare_pair "handle_pgw_sgi")|]. by eexists.
  - apply (value_reads "operate_gtp" (fmt_d v) T_OPERATE_GTP); try done; [apply fmt_d_plain; lia|].
    simpl. unfold parse_OPERATE_GTP. by rewrite str_to_u8_dec.
  - apply (value_reads "pgw_fastpath" (fmt_d v) T_PGW_FASTPATH); try done; [apply fmt_d_plain; lia|].
    simpl. unfold parse_PGW_FASTPATH. by rewrite str_to_u8_dec.
  - apply (value_reads "ovs_id" (fmt_d v) T_OVS_ID); try done; [apply fmt_d_plain; lia|].
    simpl. unfold parse_OVS_ID. by rewrite str_to_u16_dec.
  - apply (value_reads "ovs_total" (fmt_d v) T_OVS_TOTAL); try done; [apply fmt_d_plain; lia|].
    simpl. unfold parse_OVS_TOTAL. by rewrite str_to_u16_dec.
  - apply (value_reads "gtp_pgw_port" (fmt_d v) T_GTP_PGW_PORT); try done; [apply fmt_d_plain; lia|].
    simpl. unfold parse_GTP_PGW_PORT. by rewrite str_to_u16_dec.
  - apply (value_reads "pgw_sgi_port" (fmt_d v) T_PGW_SGI_PORT); try done; [apply fmt_d_plain; lia|].
    simpl. unfold parse_PGW_SGI_PORT. by rewrite str_to_u16_dec.
  - apply (value_reads "ovs_phy_port" (fmt_d v) T_OVS_PHY_PORT); try done; [apply fmt_d_plain; lia|].
    simpl. unfold parse_OVS_PHY_PORT. by rewrite str_to_u16_dec.
  - apply (value_reads "gtp_pgw_eth" (ETH_ADDR_FMT v) T_GTP_PGW_ETH); try done; [apply eth_plain|].
    cbn [ofpact_parse]. unfold parse_GTP_PGW_ETH. rewrite str_to_mac_fmt. cbn [obind sum_map].
    by rewrite (of_be_bytes_be 6) by (done || lia).
  - apply (value_reads "pgw_sgi_eth" (ETH_ADDR_FMT v) T_PGW_SGI_ETH); try done; [apply eth_plain|].
    cbn [ofpact_parse]. unfold parse_PGW_SGI_ETH. rewrite str_to_mac_fmt. cbn [obind sum_map].
    by rewrite (of_be_bytes_be 6) by (done || lia).
  - apply (value_reads "gtp_pgw_ip" (IP_FMT v) T_GTP_PGW_IP); try done; [apply ip_plain|].
    cbn [ofpact_parse]. unfold parse_GTP_PGW_IP. rewrite str_to_ip_fmt. cbn [sum_map].
    rewrite (of_be_bytes_be 4) by (lia || apply ntohl_range). unfold htonl.
    by rewrite ntohl_ntohl.
  - apply (value_reads "gtp_teid" (fmt_sharp_x v) T_GTP_TEID); try done;
      [by apply fmt_sharp_x_plain|].
    cbn [ofpact_parse]. unfold parse_GTP_TEID. by rewrite str_to_u32_hex.
Qed.

(** ** Lists of actions *)

Variable other_view : Z → action_view.
Variable parse_named : cstr → cstr → option (parse_error + list ofpact * Z).
Variable port_from_string : cstr → option ofpact.

Lemma format_rest_end l : pair_end (format_rest format_other l).
Proof. destruct l; [by left|right]. by eexists. Qed.

Lemma format_rest_drop a l :
  drop 1 (format_rest format_other (a :: l)) = ofpact_format format_other a ++ format_rest format_other l.
Proof. done. Qed.

(** Each action takes one round of the loop. *)
Lemma parse_loop_step fuel allow a s acc prev d :
  wf_gtp a → pair_end s → prev = -1 ∨ prev = OVSINST_OFPIT11_APPLY_ACTIONS →
  parse_loop strtold parse_named port_from_string (S fuel)
    (Some (ofpact_format format_other a ++ s)) allow acc prev d =
  parse_loop strtold parse_named port_from_string fuel (Some (drop 1 s)) allow
    (acc ++ [with_raw 1 a]) OVSINST_OFPIT11_APPLY_ACTIONS d.
Proof.
  intros Hwf Hs Hprev. destruct (action_reads a Hwf) as (key & value & Hp & t & Ht & Hr).
  cbn [parse_loop]. rewrite (Hp s Hs). cbn [obind]. unfold parse_pair. rewrite Ht, Hr.
  cbn [obind sum_map]. rewrite orb_false_r.
  by destruct Hprev as [->| ->].
Qed.

Lemma parse_loop_rest fuel allow l acc d prev :
  Forall wf_gtp l → (length l < fuel)%nat → prev = -1 ∨ prev = OVSINST_OFPIT11_APPLY_ACTIONS →
  parse_loop strtold parse_named port_from_string fuel
    (Some (drop 1 (format_rest format_other l))) allow acc prev d =
  Ret (inr (acc ++ (with_raw 1 <$> l), d)).
Proof.
  intros Hl. revert fuel acc prev. induction Hl as [|a l Ha Hl IH]; intros fuel acc prev Hf Hp.
  - destruct fuel as [|fuel]; simpl in Hf; [lia|]. simpl. by rewrite app_nil_r.
  - destruct fuel as [|fuel]; simpl in Hf; [lia|]. rewrite format_rest_drop.
    rewrite parse_loop_step by (done || apply format_rest_end).
    rewrite IH by (lia || by right). by rewrite <- app_assoc.
Qed.

Lemma view_gtp a : wf_gtp a → view other_view a = gtp_view.
Proof. by destruct a. Qed.

Lemma verify_gtp all l first allow :
  Forall wf_gtp l →
  verify_loop other_view all l first
    (if first then OVSINST_OFPIT13_METER else OVSINST_OFPIT11_APPLY_ACTIONS)
    (allowed_ovsinsts allow) NEST_NONE = Ret true.
Proof.
  intros Hl. revert first. induction Hl as [|a l Ha Hl IH]; intros first; [done|].
  cbn [verify_loop]. unfold ofpacts_verify_nested. rewrite view_gtp by done. cbn.
  destruct first; cbn; (destruct allow; cbn; apply (IH false)).
Qed.

Lemma wf_with_raw v l : Forall wf_gtp l → Forall wf_gtp (with_raw v <$> l).
Proof.
  intros Hl. apply Forall_fmap. eapply Forall_impl; [|exact Hl]. intros a Ha. by destruct a.
Qed.

Lemma format_length l : Forall wf_gtp l →
  (length l ≤ length (drop 1 (format_rest format_other l)))%nat.
Proof.
  intros Hl. rewrite length_drop.
  assert (2 * length l ≤ length (format_rest format_other l))%nat; [|lia].
  induction Hl as [|a l Ha Hl IH]; simpl; [done|]. rewrite length_app.
  assert (1 ≤ length (ofpact_format format_other a))%nat.
  { destruct (action_reads a Ha) as (key & value & Hp & _).
    specialize (Hp [] (or_introl eq_refl)).
    destruct (ofpact_format format_other a); [discriminate Hp|simpl; lia]. }
  lia.
Qed.

Lemma parse_format l allow :
  l ≠ [] → Forall wf_gtp l →
  ofpacts_parse strtold other_view parse_named port_from_string (ofpacts_format format_other l)
    [] allow NEST_NONE = Ret (None, with_raw 1 <$> l).
Proof.
  intros Hne Hl. assert (ofpacts_format format_other l = drop 1 (format_rest format_other l)) as ->
    by (by destruct l).
  unfold ofpacts_parse, ofpacts_parse__.
  rewrite parse_loop_rest by (done || by left || apply Nat.lt_succ_r, format_length, Hl).
  cbn [obind app andb]. unfold ofpacts_verify.
  rewrite (verify_gtp _ _ true) by (by apply wf_with_raw). done.
Qed.

(** ** Totality *)

Lemma ofpact_parse_total t value : ∃ r, ofpact_parse strtold t value = Ret r.
Proof.
  destruct t; try (by eexists); cbn [ofpact_parse];
    unfold parse_GTP_PGW_ETH, parse_PGW_SGI_ETH;
    destruct (str_to_mac_total strtold value) as [r ->]; by eexists.
Qed.

Lemma parse_pair_total key value :
  ∃ r, parse_pair strtold parse_named port_from_string key value = Ret r.
Proof.
  unfold parse_pair. destruct (ofpact_type_from_name key) as [t|].
  - destruct (ofpact_parse_total t value) as [r ->]. by eexists.
  - repeat case_match; by eexists.
Qed.

Lemma parse_loop_total fuel (s : cstr) allow acc prev d :
  40 ∉ s → (length s < fuel)%nat →
  ∃ r, parse_loop strtold parse_named port_from_string fuel (Some s) allow acc prev d = Ret r.
Proof.
  revert s acc prev d. induction fuel as [|fuel IH]; intros s acc prev d Hs Hf; [lia|].
  destruct (key_value_total s Hs) as ([[[key value] pos]|] & Hkv & Hpos);
    cbn [parse_loop]; rewrite Hkv; cbn [obind]; [|by eexists].
  destruct pos as [pos|]; [|done]. destruct Hpos as [Hlen Hpos].
  destruct (parse_pair_total key value) as [[e|[[l inst] d']] ->]; cbn [obind]; [by eexists|].
  destruct (check_inst allow inst prev); [by eexists|]. apply IH; [done|lia].
Qed.

Lemma verify_total all l first inst allowed outer :
  outer ≠ NEST_OTHER → ∃ b, verify_loop other_view all l first inst allowed outer = Ret b.
Proof.
  intros Ho. revert first inst. induction l as [|a l IH]; intros first inst; [by eexists|].
  cbn [verify_loop]. case_match; [by eexists|].
  assert (∃ b, ofpacts_verify_nested other_view a outer = Ret b) as [b ->].
  { unfold ofpacts_verify_nested. destruct (mf_dst (view other_view a)) as [[]|], outer; try done; by eexists. }
  cbn [obind]. destruct (negb b); [by eexists|]. cbv zeta. destruct (negb first && _); [by eexists|].
  destruct (negb (Z.testbit _ _)); [by eexists|]. apply IH.
Qed.

Lemma parse_total (str : cstr) ofpacts allow outer :
  40 ∉ str → outer ≠ NEST_OTHER →
  returns (ofpacts_parse strtold other_view parse_named port_from_string str ofpacts allow outer)
    (λ '(err, l), is_Some err → l = ofpacts).
Proof.
  intros Hs Ho. unfold ofpacts_parse, ofpacts_parse__.
  destruct (parse_loop_total (S (length str)) str allow ofpacts (-1) false Hs) as [r ->]; [lia|].
  cbn [obind]. destruct r as [e|[l d]]; [by eexists|]. case_match; [by eexists|].
  destruct (verify_total l l true OVSINST_OFPIT13_METER (allowed_ovsinsts allow) outer Ho) as [b Hb].
  unfold ofpacts_verify. rewrite Hb. cbn [obind]. eexists. split; [done|].
  destruct b; [by intros []|done].
Qed.

(** ** Unclosed parentheses *)

Lemma unclosed_faults fuel allow acc prev d t value :
  ofpact_type_from_name t ≠ None → without key_end t → t ≠ [] → 41 ∉ value →
  (∀ ty, ofpact_type_from_name t = Some ty →
     ∃ a, ofpact_parse strtold ty (paren_value value 1).1 = Ret (inr a)) →
  prev = -1 ∨ prev = OVSINST_OFPIT11_APPLY_ACTIONS →
  parse_loop strtold parse_named port_from_string (S (S fuel)) (Some (t ++ 40 :: value)) allow
    acc prev d = Fault OutOfBounds.
Proof.
  intros Ht Hw Hne Hv Hp Hprev. destruct t as [|c name]; [done|].
  destruct (ofpact_type_from_name (c :: name)) as [ty|] eqn:Ety; [|done].
  destruct (Hp ty eq_refl) as (a & Ha).
  assert (ofputil_parse_key_value (Some ((c :: name) ++ 40 :: value)) =
          Ret (Some (c :: name, (paren_value value 1).1, None))) as Hkv.
  { unfold ofputil_parse_key_value. cbn [app].
    rewrite strspn_name by (apply Forall_cons_1 in Hw as [Hc _]; auto using blanks_key_end).
    rewrite drop_0, bool_decide_false by done. rewrite (app_comm_cons name (40 :: value) c).
    rewrite strcspn_app;
      [|done|right; exists 40, value; split; [done|]; by right; right; left].
    destruct (take_drop_app (c :: name) (40 :: value)) as [-> ->].
    change ((40 =? 58) || (40 =? 61)) with false. change (40 =? 40) with true. cbv beta iota.
    pose proof (paren_unclosed value 1 ltac:(lia) Hv) as Hn.
    destruct (paren_value value 1) as [v r]. by simpl in *; subst. }
  cbn [parse_loop]. rewrite Hkv. cbn [obind]. unfold parse_pair. rewrite Ety, Ha. cbn [obind sum_map].
  by destruct Hprev as [->| ->].
Qed.
End parse.
