(* ===== verification/FlowMod.v ===== *)
(** * ofproto/ofproto.c: [handle_flow_mod], and the dispatch in xlate

    A flow mod whose actions carry a GTP operation is not a flow: it
    configures the GTP manager.  The functions that [handle_flow_mod] calls to
    check the controller, to decode and check the message and to change the
    flow table are parameters; 0 is success. *)
From Stdlib Require Import ZArith Lia.
From stdpp Require Import base list gmap numbers option.
From S2P Require Import Prelude Hash MapIface GtpWire GtpManager GtpPgw OfpActions.
Open Scope Z_scope.

(** The local variables of the GTP part; the two [struct eth_addr] have no
    initial value. *)
Record gtp_params := mkParams {
  pm_operation : Z;
  pm_gtp_teid : Z;
  pm_gtp_pgw_ip : Z;
  pm_ovs_id : Z;
  pm_ovs_total : Z;
  pm_gtp_pgw_port : Z;
  pm_ovs_phy_port : Z;
  pm_pgw_sgi_port : Z;
  pm_pgw_fastpath : Z;
  pm_gtp_pgw_eth : option Z;
  pm_pgw_sgi_eth : option Z;
}.

Definition init_params : gtp_params := mkParams 0 0 0 0 0 0 0 0 0 None None.

(** The body of the OFPACT_FOR_EACH_FLATTENED loop. *)
Definition collect_param (p : gtp_params) (a : ofpact) : gtp_params :=
  let '(mkParams op teid ip id total pport phy sport fp peth seth) := p in
  match a with
  | OPERATE_GTP v => mkParams v teid ip id total pport phy sport fp peth seth
  | GTP_TEID v => mkParams op v ip id total pport phy sport fp peth seth
  | GTP_PGW_IP v => mkParams op teid v id total pport phy sport fp peth seth
  | OVS_ID v => mkParams op teid ip v total pport phy sport fp peth seth
  | OVS_TOTAL v => mkParams op teid ip id v pport phy sport fp peth seth
  | GTP_PGW_PORT v => mkParams op teid ip id total v phy sport fp peth seth
  | OVS_PHY_PORT v => mkParams op teid ip id total pport v sport fp peth seth
  | PGW_FASTPATH v => mkParams op teid ip id total pport phy sport v peth seth
  | PGW_SGI_PORT v => mkParams op teid ip id total pport phy v fp peth seth
  | GTP_PGW_ETH v => mkParams op teid ip id total pport phy sport fp (Some v) seth
  | PGW_SGI_ETH v => mkParams op teid ip id total pport phy sport fp peth (Some v)
  | HANDLE_GTP _ | HANDLE_PGW_SGI _ | OFPACT_OTHER _ => p
  end.

Definition collect_params (l : list ofpact) : gtp_params := foldl collect_param init_params l.

Section FlowMod.
Context {T : Type}.
Implicit Types st : gtp T.

(** The [switch (operation)]; [gtp_manager_dump] only logs. *)
Definition run_operation st (p : gtp_params) : outcome (gtp T) :=
  if pm_operation p =? 1 then
    let* peth := init_value (pm_gtp_pgw_eth p) in
    let* seth := init_value (pm_pgw_sgi_eth p) in
    gtp_manager_add_pgw st (pm_gtp_pgw_ip p) (pm_gtp_pgw_port p) peth (pm_pgw_sgi_port p) seth
  else if pm_operation p =? 2 then Ret (gtp_manager_del_pgw st (pm_gtp_pgw_ip p))
  else if pm_operation p =? 3 then
    Ret (gtp_manager_set_params st (pm_ovs_id p) (pm_ovs_total p) (pm_ovs_phy_port p)
           (pm_pgw_fastpath p))
  else Ret st.

(** The state of the flow table, and the functions on it. *)
Context {FT : Type}.
Variable reject_slave_controller : Z.
Variable ofputil_decode_flow_mod : Z + list ofpact.
Variable ofproto_check_ofpacts : list ofpact → Z.
Variable handle_flow_mod__ : FT → list ofpact → Z * FT.

Definition handle_flow_mod st (ft : FT) : outcome (Z * gtp T * FT) :=
  if negb (reject_slave_controller =? 0) then Ret (reject_slave_controller, st, ft)
  else
    match ofputil_decode_flow_mod with
    | inl error => Ret (error, st, ft)
    | inr ofpacts =>
        let error := ofproto_check_ofpacts ofpacts in
        if negb (error =? 0) then Ret (error, st, ft)
        else
          let p := collect_params ofpacts in
          if negb (pm_operation p =? 0) then
            let* st := run_operation st p in
            Ret (0, st, ft)
          else
            let '(error, ft) := handle_flow_mod__ ft ofpacts in
            Ret (error, st, ft)
    end.
End FlowMod.

(** ** ofproto/ofproto-dpif-xlate.c: the GTP cases of [do_xlate_actions] *)
Section Xlate.
Context `{HF : HashFns} `{MO : MapOps T}.
Variable fuel : nat.

(** What one action does to a packet; the other actions are a parameter.  The
    recirculation of MPLS packets is left out. *)
Definition xlate_action (other : gtp T → xlate → Z → outcome (gtp T * xlate))
    (packet : option dp_packet) (st : gtp T) (x : xlate) (a : ofpact) :
    outcome (gtp T * xlate) :=
  match a with
  | HANDLE_PGW_SGI _ => handle_pgw_sgi st x packet
  | HANDLE_GTP _ => handle_gtp fuel st x packet
  | OFPACT_OTHER n => other st x n
  | _ => Ret (st, x)
  end.
End Xlate.

(** ** Properties of the collected parameters *)

(** The actions that configure, as the parameter they set. *)
Definition is_config (a : ofpact) : bool :=
  match a with
  | HANDLE_GTP _ | HANDLE_PGW_SGI _ | OFPACT_OTHER _ => false
  | _ => true
  end.

Lemma collect_app p l1 l2 : foldl collect_param p (l1 ++ l2) = foldl collect_param (foldl collect_param p l1) l2.
Proof. apply foldl_app. Qed.

(** The operation is that of the last OPERATE_GTP action. *)
Lemma collect_operation p l op l' :
  (∀ v, OPERATE_GTP v ∉ l') →
  pm_operation (foldl collect_param p (l ++ OPERATE_GTP op :: l')) = op.
Proof.
  intros Hno. rewrite foldl_app. cbn [foldl]. set (q := collect_param _ (OPERATE_GTP op)).
  assert (pm_operation q = op) as Hq by (subst q; by destruct (foldl collect_param p l)).
  clearbody q. revert q Hq. induction l' as [|a l' IH]; intros q Hq; [done|]. cbn [foldl].
  apply IH; [intros v Hv; apply (Hno v); by right|].
  destruct q, a; try done. exfalso. apply (Hno operation). left.
Qed.

Lemma collect_no_operation l : (∀ v, OPERATE_GTP v ∉ l) → pm_operation (collect_params l) = 0.
Proof.
  intros Hno. unfold collect_params.
  assert (∀ q, pm_operation q = 0 → pm_operation (foldl collect_param q l) = 0) as Hgen; [|by apply Hgen].
  induction l as [|a l IH]; intros q Hq; [done|]. cbn [foldl].
  apply IH; [intros v Hv; apply (Hno v); by right|].
  destruct q, a; try done. exfalso. apply (Hno operation). left.
Qed.

(** The raw encoding an argumentless action came in does not matter. *)
Lemma collect_fmap p l (f : ofpact → ofpact) :
  (∀ q a, collect_param q (f a) = collect_param q a) →
  foldl collect_param p (f <$> l) = foldl collect_param p l.
Proof.
  intros Hf. revert p. induction l as [|a l IH]; intros p; [done|].
  rewrite fmap_cons. cbn [foldl]. rewrite Hf. apply IH.
Qed.
