(* ===== verification/GtpInit.v ===== *)
(** * Initialisation and configuration of the GTP manager

    [gtp_manager_init] yields a state without sessions; the configuration
    calls keep the sessions.  The last section runs the manager, over
    lib/cmap.c and the Murmur hash, into a small concrete state. *)
From Stdlib Require Import ZArith Lia.
From stdpp Require Import base list gmap numbers option.
From S2P Require Import Prelude Hash Cmap CmapRefine CmapReplace MapIface GtpWire GtpManager GtpPgw GtpMaps GtpSessions GtpDelete.
Open Scope Z_scope.

Section Init.
Context `{HF : HashFns} `{ML : MapLaws T}.
Implicit Types st : gtp T.

Lemma init_maps_returns n s :
  returns (init_maps n s) (λ '(_, l1, l2),
    length l1 = n ∧ length l2 = n ∧
    (∀ c, c ∈ l1 → ml_rep c ∅) ∧ (∀ c, c ∈ l2 → ml_rep c ∅)).
Proof.
  revert s. induction n as [|n IH]; intros s.
  { eexists. split; [done|]. simpl. split_and!; [done..| |]; intros c Hc; by apply not_elem_of_nil in Hc. }
  cbn [init_maps]. destruct (ml_init s) as ([s1 c1] & -> & H1). cbn [obind].
  destruct (ml_init s1) as ([s2 c2] & -> & H2). cbn [obind].
  destruct (IH s2) as ([[s3 l1] l2] & -> & Hl1 & Hl2 & Hr1 & Hr2). cbn [obind].
  eexists. split; [done|]. simpl.
  split_and!; [lia|lia| |]; intros c [->|Hc]%elem_of_cons; auto.
Qed.

(** After initialisation there is no session and no gateway. *)
Lemma gtp_init_returns st :
  length (pgw_list st) = MAX_PGW_PER_NODE → brk_ok st →
  returns (gtp_manager_init st) (λ st',
    gtp_rep st' [] (heap st) ∧ end_ st' = 0 ∧ current st' = 0 ∧
    (∀ g, g ∈ pgw_list st' → gtp_pgw_ip g = 0)).
Proof.
  intros Hlen Hb. unfold gtp_manager_init.
  destruct (init_maps_returns HASHMAP_PART_NUM (seed st)) as ([[s l1] l2] & -> & H1 & H2 & Hr1 & Hr2).
  cbn [obind]. eexists. split; [done|]. split_and!; [|done|done|].
  - assert (∀ h k i c, ml_rep c ∅ → part_rep h k i c (am []) ∅) as Hpart.
    { intros h k i c Hc. by split. }
    split; simpl; [|apply NoDup_nil_2|by rewrite map_empty_union| |done| |].
    + split; [by intros []|]. intros k i c Hc. exists ∅. apply Hpart.
      apply list_elem_of_lookup_2 in Hc. destruct k; auto.
    + intros p Hp. by apply not_elem_of_nil in Hp.
    + split; simpl; [by rewrite length_fmap|done..].
    + intros s' Hs'. by apply not_elem_of_nil in Hs'.
  - intros g Hg. simpl in Hg. apply list_elem_of_fmap in Hg as (g0 & -> & _). done.
Qed.

(** Configuration changes neither maps nor heap. *)
Lemma gtp_rep_config st st' Ss base :
  gtp_rep st Ss base → wf_pgws st' → heap st' = heap st → brk st' = brk st →
  (∀ k, maps st' k = maps st k) → gtp_rep st' Ss base.
Proof.
  intros HR Hw Hh Hb Hm. split; [|apply HR| |apply HR| |done|apply HR].
  - eapply maps_rep_frame; [apply HR|done|]. intros. by rewrite Hh.
  - rewrite Hh. apply HR.
  - intros p Hp. rewrite Hb. apply HR. by rewrite <-Hh.
Qed.

Lemma set_params_rep st Ss base id total phy fp :
  gtp_rep st Ss base → gtp_rep (gtp_manager_set_params st id total phy fp) Ss base.
Proof.
  intros HR. eapply gtp_rep_config; [done| |done|done|by intros []].
  destruct (gr_pgws _ _ _ HR). by split.
Qed.

(** A call of [gtp_manager_add_pgw] that returns changes the table only. *)
Lemma add_pgw_ret st ip port eth sport seth st' :
  wf_pgws st → gtp_manager_add_pgw st ip port eth sport seth = Ret st' →
  wf_pgws st' ∧ st' = set_pgws st (pgw_list st') (current st) (end_ st').
Proof.
  intros Hw H.
  assert (∃ i, free_slot st i ∧ i < Z.of_nat MAX_PGW_PER_NODE) as Hfree.
  { unfold gtp_manager_add_pgw in H. destruct (scan_from st 0 _) as [i|] eqn:Hs.
    - apply scan_from_Some in Hs as (_ & (g & Hg & Ht) & _); [|lia]. exists i. split.
      + left. exists g. split; [done|]. by apply Z.eqb_eq.
      + apply pgw_at_lt in Hg. pose proof (wp_end _ Hw). lia.
    - inv_ret. exists (end_ st). split; [|by apply Z.ltb_lt]. right. split; [done|].
      intros j Hj. destruct (pgw_at_is_Some st j Hw Hj) as [g Hg].
      exists g. split; [done|]. apply Z.eqb_neq.
      eapply (scan_from_None st 0 _ ltac:(lia) Hs j); [lia|done]. }
  destruct (add_pgw_spec st ip port eth sport seth Hw Hfree)
    as (i & st1 & Heq & _ & _ & _ & _ & Hw' & Hst). rewrite Heq in H. by injection H as <-.
Qed.

Lemma add_pgw_rep st Ss base ip port eth sport seth :
  gtp_rep st Ss base →
  ∀ st', gtp_manager_add_pgw st ip port eth sport seth = Ret st' → gtp_rep st' Ss base.
Proof.
  intros HR st' H. destruct (add_pgw_ret _ _ _ _ _ _ _ (gr_pgws _ _ _ HR) H) as [Hw Hst].
  eapply gtp_rep_config; [done|done|by rewrite Hst|by rewrite Hst|]. intros k. rewrite Hst. by destruct k.
Qed.

Lemma del_pgw_rep st Ss base ip :
  gtp_rep st Ss base → gtp_rep (gtp_manager_del_pgw st ip) Ss base.
Proof.
  intros HR. destruct (del_pgw_spec st ip (gr_pgws _ _ _ HR)) as [Hw _].
  eapply gtp_rep_config; [done|done|..]; unfold gtp_manager_del_pgw; destruct (scan_from st 0 _);
    try done; by intros [].
Qed.

Lemma get_pgw_rep st Ss base :
  gtp_rep st Ss base → gtp_rep (gtp_manager_get_pgw st).2 Ss base.
Proof.
  intros HR. eapply gtp_rep_config; [done|by apply get_pgw_wf, HR|..];
    unfold gtp_manager_get_pgw; destruct (scan_from st (current st) _); try done; by intros [].
Qed.
End Init.

(** ** A concrete run *)

(** The result of a call that returns. *)
Definition the {A} (d : A) (c : outcome A) : A := match c with Ret a => a | _ => d end.
Definition is_Ret {A} (c : outcome A) : bool := match c with Ret _ => true | _ => false end.

Lemma the_wp {A} tot (d : A) (c : outcome A) Q : wp tot c Q → is_Ret c = true → Q (the d c).
Proof. by destruct c. Qed.
Lemma the_Ret {A} (d : A) (c : outcome A) : is_Ret c = true → c = Ret (the d c).
Proof. by destruct c. Qed.

Module Ex.
Definition boot : gtp cmap := gtp_static 12345.
Definition idle : gtp cmap := the boot (gtp_manager_init boot).

(** Switch 0 of 2, physical port 1, no fast path; two gateways, 10.0.0.1 on
    port 2 with its SGi side on port 3, 10.0.0.2 on ports 4 and 5. *)
Definition params : gtp cmap := gtp_manager_set_params idle 0 2 1 0.
Definition one_pgw : gtp cmap :=
  the boot (gtp_manager_add_pgw params 0x0100000a 2 0x020000000001 3 0x020000000002).
Definition cfg : gtp cmap :=
  the boot (gtp_manager_add_pgw one_pgw 0x0200000a 4 0x020000000003 5 0x020000000004).

(** A message from 10.0.0.2, which arrived on port 4; one from the SGW. *)
Definition from_pgw : xlate :=
  mkX (mkFlow 4 (htons ETH_TYPE_IP) 17 (htons GTPC_PORT) (htons GTPC_PORT) 0x0200000a 0x0900000a 0)
    (mkWc 0 0) [].
Definition gtpu_from_sgw : xlate :=
  mkX (mkFlow 1 (htons ETH_TYPE_IP) 17 (htons GTPU_PORT) (htons GTPU_PORT) 0x0900000a 0x0800000a 0)
    (mkWc 0 0) [].
Definition from_www : xlate :=
  mkX (mkFlow 1 (htons ETH_TYPE_IP) 6 0 0 0x08080808 0x0500a8c0 0) (mkWc 0 0) [].

Definition sess : session := new_session cfg 0x22 0x44 0x55 0x0500a8c0 1.
Definition up : gtp cmap :=
  (the (boot, from_pgw) (create_session 3 cfg 0x22 0x44 0x55 0x0500a8c0 from_pgw)).1.

Lemma idle_rep : gtp_rep idle [] ∅.
Proof.
  destruct (gtp_init_returns boot) as (st & Heq & HR & _); [done| |].
  - intros p Hp. by apply elem_of_dom in Hp as [? ?].
  - unfold idle. by rewrite Heq.
Qed.

Lemma cfg_rep : gtp_rep cfg [] ∅.
Proof.
  eapply (add_pgw_rep one_pgw); [|apply the_Ret; vm_compute; reflexivity].
  eapply (add_pgw_rep params); [|apply the_Ret; vm_compute; reflexivity].
  apply set_params_rep, idle_rep.
Qed.

Lemma cfg_facts :
  pgw_fastpath cfg = 0 ∧ gtp_manager_find_pgw cfg (nw_src (x_flow from_pgw)) = 1 ∧
  Z.of_nat (size (heap cfg)) = 0 ∧ ovs_phy_port cfg = 1 ∧ ovs_total cfg = 2 ∧ ovs_id cfg = 0.
Proof. vm_compute. repeat split. Qed.

Lemma up_returns : is_Ret (create_session 3 cfg 0x22 0x44 0x55 0x0500a8c0 from_pgw) = true.
Proof. vm_compute. reflexivity. Qed.

Lemma up_rep : gtp_rep up [sess] ∅.
Proof.
  destruct cfg_facts as (Hfp & Hf & Hsz & _).
  pose proof (create_session_wp false 3 cfg [] ∅ 0x22 0x44 0x55 0x0500a8c0 from_pgw cfg_rep
    eq_refl Hfp) as H. rewrite Hf, Hsz in H.
  specialize (H ltac:(lia) ltac:(lia) ltac:(discriminate)).
  pose proof (the_wp false (boot, from_pgw) _ _ H up_returns) as Hup.
  unfold up, sess. revert Hup.
  generalize (the (boot, from_pgw) (create_session 3 cfg 34 68 85 83929280 from_pgw)).
  intros [st x] Hup. apply Hup.
Qed.
End Ex.
