(* ===== verification/GtpPackets.v ===== *)
(** * What [handle_gtp] does with each kind of message

    Packets are described by the message they carry: [gtpc_message b ty teid
    seq body] is a GTPv2-C message of type [ty] in the UDP payload of [b],
    [gtpu_message b ty teid] a GTP-U one.  One lemma per kind of message, on a
    state that holds sessions. *)
From Stdlib Require Import ZArith Lia.
From stdpp Require Import base list gmap numbers option.
From S2P Require Import Prelude Hash CmapRefine CmapReplace MapIface GtpWire GtpWireProofs GtpManager GtpPgw GtpMaps GtpSessions GtpDelete GtpHandlers GtpInit.
Open Scope Z_scope.

(** ** Messages in packets *)

Definition gtpc_message (b : dp_packet) (ty : Z) (teid : option Z) (seq : Z) (body : list Z) :
    Prop :=
  ∃ off p s spare,
    let len := Z.of_nat (length body) + match teid with Some _ => 8 | None => 4 end in
    udp_payload b off (encode_gtpc_header p s ty len teid seq spare ++ body) ∧
    0 ≤ p < 2 ∧ 0 ≤ s < 8 ∧ is_byte ty ∧ len < 2 ^ 16 ∧
    (∀ t, teid = Some t → 0 ≤ t < 2 ^ 32) ∧ 0 ≤ seq < 2 ^ 24 ∧ is_byte spare.

Definition gtpu_message (b : dp_packet) (ty teid : Z) : Prop :=
  ∃ off f len payload,
    udp_payload b off (encode_gtpu_header f ty len teid ++ payload) ∧
    0 ≤ f < 32 ∧ is_byte ty ∧ 0 ≤ len < 2 ^ 16 ∧ 0 ≤ teid < 2 ^ 32.

(** The parser's view of the message; the body starts where it says and is as
    long as it says. *)
Lemma gtpc_message_parse b ty teid seq body :
  gtpc_message b ty teid seq body →
  ∃ msg, gtpc_header_of b = Ret (Some msg) ∧ c_message_type msg = ty ∧ c_teid msg = teid ∧
    c_has_teid msg = bool_decide (is_Some teid) ∧ c_seq_num msg = seq mod 2 ^ 16 ∧
    seg b (c_body_offset msg) body ∧
    c_message_length msg + 4 - c_header_length msg = Z.of_nat (length body).
Proof.
  intros (off & p & s & spare & Hudp & Hp & Hs & Hty & Hlen & Ht & Hseq & Hsp).
  destruct (gtpc_header_of_encode b off p s ty _ teid seq spare body Hudp Hp Hs Hty) as [Hh Hseg];
    [split; [destruct teid; lia|done]|done..|].
  eexists. split; [exact Hh|]. simpl. split_and!; [done..|]. destruct teid; lia.
Qed.

Lemma gtpu_message_parse b ty teid :
  gtpu_message b ty teid →
  ∃ msg, gtpu_header_of b = Ret (Some msg) ∧ u_message_type msg = ty ∧ u_teid msg = teid.
Proof.
  intros (off & f & len & payload & Hudp & Hf & Hty & Hlen & Ht).
  eexists. split; [by eapply gtpu_header_of_encode|]. done.
Qed.

(** A packet with an Ethernet, an IPv4 and a UDP header in front of [l]. *)
Definition packet_of (l : list Z) : dp_packet := mkPacket (replicate 42 0 ++ l) 0 34.

Lemma packet_of_udp l : Z.of_nat (length l) < 2 ^ 31 → udp_payload (packet_of l) 42 l.
Proof.
  intros Hl. assert (dp_packet_size (packet_of l) = 42 + Z.of_nat (length l)) as Hsz.
  { unfold dp_packet_size, packet_of. cbn [pk_data]. rewrite length_app, length_replicate. lia. }
  split; [|unfold UINT16_MAX, UDP_HEADER_LEN; rewrite Hsz; simpl; lia].
  split; [lia|]. exists (replicate 42 0), []. by rewrite app_nil_r.
Qed.

Definition gtpc_packet (ty : Z) (teid : option Z) (seq : Z) (body : list Z) : dp_packet :=
  let len := Z.of_nat (length body) + match teid with Some _ => 8 | None => 4 end in
  packet_of (encode_gtpc_header 0 0 ty len teid seq 0 ++ body).
Definition gtpu_packet (ty teid : Z) (payload : list Z) : dp_packet :=
  packet_of (encode_gtpu_header 16 ty (Z.of_nat (length payload)) teid ++ payload).

Lemma gtpc_packet_message ty teid seq body :
  is_byte ty → Z.of_nat (length body) + 8 < 2 ^ 16 →
  (∀ t, teid = Some t → 0 ≤ t < 2 ^ 32) → 0 ≤ seq < 2 ^ 24 →
  gtpc_message (gtpc_packet ty teid seq body) ty teid seq body.
Proof.
  intros Hty Hlen Ht Hseq. exists 42, 0, 0, 0. split.
  { apply packet_of_udp. rewrite length_app. unfold encode_gtpc_header.
    destruct teid; simpl length; lia. }
  split_and!; try done; try lia. destruct teid; lia.
Qed.

Lemma gtpu_packet_message ty teid payload :
  is_byte ty → Z.of_nat (length payload) < 2 ^ 16 → 0 ≤ teid < 2 ^ 32 →
  gtpu_message (gtpu_packet ty teid payload) ty teid.
Proof.
  intros Hty Hlen Ht. exists 42, 16, (Z.of_nat (length payload)), payload. split.
  { apply packet_of_udp. rewrite length_app. simpl length. lia. }
  split_and!; try done; lia.
Qed.

(** ** One lemma per message *)
Section Messages.
Context `{HF : HashFns} `{ML : MapLaws T}.
Implicit Types st : gtp T.

(** The calls that only look at the static variables. *)
Lemma globals_find st st' ip :
  globals st' = globals st → gtp_manager_find_pgw st' ip = gtp_manager_find_pgw st ip.
Proof.
  intros [= _ _ _ _ Hl _ He]. unfold gtp_manager_find_pgw, scan_from. by rewrite Hl, He.
Qed.
Lemma globals_get st st' :
  globals st' = globals st →
  (gtp_manager_get_pgw st').1 = (gtp_manager_get_pgw st).1 ∧
  globals (gtp_manager_get_pgw st').2 = globals (gtp_manager_get_pgw st).2.
Proof.
  intros [= H1 H2 H3 H4 Hl Hc He]. unfold gtp_manager_get_pgw, scan_from. rewrite Hl, Hc, He.
  destruct (scan_pgw _ _ _ _); unfold globals; simpl; by rewrite H1, H2, H3, H4.
Qed.

Lemma room_maps st st' t2 t4 t5 ueip :
  (∀ k, maps st' k = maps st k) → room_for_session st t2 t4 t5 ueip →
  room_for_session st' t2 t4 t5 ueip.
Proof. unfold room_for_session, room_for. intros Hm. by rewrite !Hm. Qed.
Lemma slack_maps st st' s :
  (∀ k, maps st' k = maps st k) → slack_for_session st s → slack_for_session st' s.
Proof. unfold slack_for_session, slack_for. intros Hm. by rewrite !Hm. Qed.

Lemma parse_response msg b body t4 t5 ueip :
  seg b (c_body_offset msg) (encode_body body) → Forall wf_body_ie body →
  c_message_length msg + 4 - c_header_length msg = Z.of_nat (length (encode_body body)) →
  body_scan body (0, 0, 0) = (t4, t5, ueip) →
  parse_create_session_response msg b = Ret (t4, t5, ueip).
Proof.
  intros Hseg Hwf Hlen <-. unfold parse_create_session_response. rewrite Hlen.
  apply ie_loop_encode; [done|done|lia].
Qed.

(** A create session response from a known gateway adds a session and is
    passed on to the physical port. *)
Lemma create_response_wp tot fuel st Ss base x b t2 seq body t4 t5 ueip :
  gtp_rep st Ss base → maybe_gtpc_message (x_flow x) = true →
  in_port (x_flow x) ≠ ovs_phy_port st → pgw_fastpath st = 0 →
  gtp_manager_find_pgw st (nw_src (x_flow x)) ≠ -1 →
  Z.of_nat (size (heap st)) + 6 < 2 ^ 30 →
  gtpc_message b 33 (Some t2) seq (encode_body body) → t2 ≠ 0 → Forall wf_body_ie body →
  body_scan body (0, 0, 0) = (t4, t5, ueip) → all_set (t4, t5, ueip) = true →
  (tot = true → (0 < fuel)%nat ∧ room_for_session st t2 t4 t5 ueip) →
  wp tot (handle_gtp fuel st x (Some b)) (λ '(st', x'),
    (∃ s, gtp_rep st' (s :: Ss) base ∧
      (s_t2 s, s_t4 s, s_t5 s, s_ueip s, s_pgw s) =
      (t2, t4, t5, ueip, gtp_manager_find_pgw st (nw_src (x_flow x)))) ∧
    globals st' = globals st ∧ x' = xlate_output_action x (ovs_phy_port st)).
Proof.
  intros HR Hc Hport Hfp Hfind Hsz Hm Ht2 Hwf Hscan Hset Htot.
  destruct (gtpc_message_parse _ _ _ _ _ Hm) as (msg & Hh & Hty & Hteid & Hhas & _ & Hseg & Hlen).
  pose proof (handle_gtp_gtpc_wp tot fuel st Ss base x b msg
    (λ st1, new_session st1 t2 t4 t5 ueip (gtp_manager_find_pgw st (nw_src (x_flow x))) :: Ss)
    (λ g x', g = globals st ∧ x' = xlate_output_action x (ovs_phy_port st)) HR Hc Hh) as Hwp.
  eapply wp_mono; [apply Hwp; clear Hwp|].
  - intros st1 base1 HR1 Hg Hmaps Hsz1. unfold handle_gtpc_message.
    pose proof Hg as [= _ _ Hphy Hfp1 _ _ _]. rewrite Hphy.
    rewrite (proj2 (Z.eqb_neq _ _) Hport). unfold no_tunnel. rewrite Hhas, Hteid.
    cbn [init_value obind]. rewrite bool_decide_true by done.
    rewrite (proj2 (Z.eqb_neq _ _) Ht2), Hty. cbn [Z.eqb Pos.eqb].
    rewrite (parse_response _ _ _ _ _ _ Hseg Hwf Hlen Hscan). cbn [obind].
    eapply wp_mono; [eapply (create_session_wp tot fuel st1 Ss base1); [done|done|congruence| |lia|]|].
    + by rewrite (globals_find st).
    + intros Ht. destruct (Htot Ht) as [? ?]. split; [done|]. by eapply room_maps.
    + intros [st' x'] (-> & Hg' & HR'). rewrite (globals_find st) in HR' by done.
      rewrite Hphy. by rewrite Hg'.
  - intros [st' x'] [[st1 HR'] [Hg Hx]]. split_and!; [|done|done]. by eexists.
Qed.

(** Without a TEID for the control plane, one for the user plane and an
    address, it is dropped. *)
Lemma create_response_incomplete fuel st Ss base x b t2 seq body r :
  gtp_rep st Ss base → maybe_gtpc_message (x_flow x) = true →
  in_port (x_flow x) ≠ ovs_phy_port st →
  gtpc_message b 33 (Some t2) seq (encode_body body) → t2 ≠ 0 → Forall wf_body_ie body →
  body_scan body (0, 0, 0) = r → all_set r = false ∨ pgw_fastpath st ≠ 0 →
  returns (handle_gtp fuel st x (Some b)) (λ '(st', x'),
    gtp_rep st' Ss base ∧ globals st' = globals st ∧ x' = x).
Proof.
  intros HR Hc Hport Hm Ht2 Hwf Hscan Hset.
  destruct (gtpc_message_parse _ _ _ _ _ Hm) as (msg & Hh & Hty & Hteid & Hhas & _ & Hseg & Hlen).
  pose proof (handle_gtp_gtpc_wp true fuel st Ss base x b msg (λ _, Ss)
    (λ g x', g = globals st ∧ x' = x) HR Hc Hh) as Hwp.
  apply wp_returns. eapply wp_mono; [apply Hwp; clear Hwp|].
  - intros st1 base1 HR1 Hg _ _. unfold handle_gtpc_message.
    pose proof Hg as [= _ _ Hphy Hfp _ _ _]. rewrite Hphy, (proj2 (Z.eqb_neq _ _) Hport).
    unfold no_tunnel. rewrite Hhas, Hteid. cbn [init_value obind].
    rewrite bool_decide_true by done. rewrite (proj2 (Z.eqb_neq _ _) Ht2), Hty.
    cbn [Z.eqb Pos.eqb]. destruct r as [[t4 t5] ueip].
    rewrite (parse_response _ _ _ _ _ _ Hseg Hwf Hlen Hscan). cbn [obind].
    unfold create_session. destruct (all_set _) eqn:Ha; [|done].
    destruct Hset as [?|Hf]; [done|]. rewrite Hfp.
    by rewrite (proj2 (Z.eqb_neq _ _) Hf).
  - intros [st' x'] [[_ HR'] [Hg Hx]]. done.
Qed.

(** A delete session response removes the session and is passed on. *)
Lemma delete_response_wp tot fuel st pre s post base x b seq body :
  gtp_rep st (pre ++ s :: post) base → not_shadowed pre s →
  maybe_gtpc_message (x_flow x) = true → in_port (x_flow x) ≠ ovs_phy_port st →
  gtpc_message b 37 (Some (s_t2 s)) seq body → s_t2 s ≠ 0 →
  (tot = true → slack_for_session st s) →
  wp tot (handle_gtp fuel st x (Some b)) (λ '(st', x'),
    gtp_rep st' (pre ++ post) base ∧ globals st' = globals st ∧
    x' = xlate_output_action x (ovs_phy_port st)).
Proof.
  intros HR Hns Hc Hport Hm Ht2 Htot.
  destruct (gtpc_message_parse _ _ _ _ _ Hm) as (msg & Hh & Hty & Hteid & Hhas & _).
  pose proof (handle_gtp_gtpc_wp tot fuel st _ base x b msg (λ _, pre ++ post)
    (λ g x', g = globals st ∧ x' = xlate_output_action x (ovs_phy_port st)) HR Hc Hh) as Hwp.
  eapply wp_mono; [apply Hwp; clear Hwp|].
  - intros st1 base1 HR1 Hg Hmaps _. unfold handle_gtpc_message.
    pose proof Hg as [= _ _ Hphy _ _ _ _]. rewrite Hphy.
    rewrite (proj2 (Z.eqb_neq _ _) Hport). unfold no_tunnel. rewrite Hhas, Hteid.
    cbn [init_value obind]. rewrite bool_decide_true by done.
    rewrite (proj2 (Z.eqb_neq _ _) Ht2), Hty. cbn [Z.eqb Pos.eqb].
    eapply wp_mono; [eapply (delete_session_wp tot fuel st1 pre s post base1); [done|done|]|].
    + intros Ht. eapply slack_maps; [done|auto].
    + intros [st' x'] (-> & Hg' & HR'). rewrite Hphy. by rewrite Hg'.
  - intros [st' x'] [[_ HR'] [Hg Hx]]. done.
Qed.

(** A message of an existing tunnel from the physical port goes to the
    gateway of its session. *)
Lemma tunnel_message_returns fuel st Ss base x b ty teid seq body :
  gtp_rep st Ss base → maybe_gtpc_message (x_flow x) = true →
  in_port (x_flow x) = ovs_phy_port st →
  gtpc_message b ty (Some teid) seq body → teid ≠ 0 →
  returns (handle_gtp fuel st x (Some b)) (λ '(st', x'),
    gtp_rep st' Ss base ∧ globals st' = globals st ∧
    x' = forwarded (pgw_list st) Ss KTeid teid send_to_pgw x).
Proof.
  intros HR Hc Hport Hm Ht.
  destruct (gtpc_message_parse _ _ _ _ _ Hm) as (msg & Hh & Hty & Hteid & Hhas & _).
  pose proof (handle_gtp_gtpc_wp true fuel st Ss base x b msg (λ _, Ss)
    (λ g x', g = globals st ∧ x' = forwarded (pgw_list st) Ss KTeid teid send_to_pgw x)
    HR Hc Hh) as Hwp.
  apply wp_returns. eapply wp_mono; [apply Hwp; clear Hwp|].
  - intros st1 base1 HR1 Hg _ _. unfold handle_gtpc_message.
    pose proof Hg as [= _ _ Hphy _ Hl _ _]. rewrite Hphy, Hport, Z.eqb_refl.
    unfold no_tunnel. rewrite Hhas, Hteid. cbn [init_value obind].
    rewrite bool_decide_true by done. rewrite (proj2 (Z.eqb_neq _ _) Ht). cbn [obind].
    rewrite (forward_forwarded _ _ _ _ _ _ _ HR1), Hl. done.
  - intros [st' x'] [[_ HR'] [Hg Hx]]. done.
Qed.

(** The other messages of a gateway are passed on to the physical port. *)
Lemma gateway_message_returns fuel st Ss base x b ty teid seq body :
  gtp_rep st Ss base → maybe_gtpc_message (x_flow x) = true →
  in_port (x_flow x) ≠ ovs_phy_port st →
  gtpc_message b ty teid seq body →
  default 0 teid = 0 ∨ (ty ≠ 33 ∧ ty ≠ 37) →
  returns (handle_gtp fuel st x (Some b)) (λ '(st', x'),
    gtp_rep st' Ss base ∧ globals st' = globals st ∧
    x' = xlate_output_action x (ovs_phy_port st)).
Proof.
  intros HR Hc Hport Hm Hty'.
  destruct (gtpc_message_parse _ _ _ _ _ Hm) as (msg & Hh & Hty & Hteid & Hhas & _).
  pose proof (handle_gtp_gtpc_wp true fuel st Ss base x b msg (λ _, Ss)
    (λ g x', g = globals st ∧ x' = xlate_output_action x (ovs_phy_port st)) HR Hc Hh) as Hwp.
  apply wp_returns. eapply wp_mono; [apply Hwp; clear Hwp|].
  - intros st1 base1 HR1 Hg _ _. unfold handle_gtpc_message.
    pose proof Hg as [= _ _ Hphy _ _ _ _]. rewrite Hphy, (proj2 (Z.eqb_neq _ _) Hport).
    unfold no_tunnel. rewrite Hhas, Hteid, Hty. destruct teid as [t|]; [|done].
    rewrite bool_decide_true by done. cbn [init_value obind].
    destruct (Z.eqb_spec t 0); [done|]. destruct Hty' as [?|[H1 H2]]; [done|].
    cbn [obind]. by rewrite (proj2 (Z.eqb_neq _ _) H1), (proj2 (Z.eqb_neq _ _) H2).
  - intros [st' x'] [[_ HR'] [Hg Hx]]. done.
Qed.

(** A message without a tunnel from the physical port is taken by the switch
    whose number the sequence number selects. *)
Lemma initial_message_returns fuel st Ss base x b ty teid seq body :
  gtp_rep st Ss base → maybe_gtpc_message (x_flow x) = true →
  in_port (x_flow x) = ovs_phy_port st → ovs_total st ≠ 0 →
  gtpc_message b ty teid seq body → default 0 teid = 0 →
  returns (handle_gtp fuel st x (Some b)) (λ '(st', x'),
    gtp_rep st' Ss base ∧
    if (seq mod 2 ^ 16) mod ovs_total st =? ovs_id st then
      globals st' = globals (gtp_manager_get_pgw st).2 ∧
      ∃ g, pgw_list st !! Z.to_nat (gtp_manager_get_pgw st).1 = Some g ∧ x' = send_to_pgw g x
    else globals st' = globals st ∧ x' = x).
Proof.
  intros HR Hc Hport Htot Hm Ht.
  destruct (gtpc_message_parse _ _ _ _ _ Hm) as (msg & Hh & Hty & Hteid & Hhas & Hseq & _).
  pose proof (handle_gtp_gtpc_wp true fuel st Ss base x b msg (λ _, Ss)
    (λ gl x', if (seq mod 2 ^ 16) mod ovs_total st =? ovs_id st then
      gl = globals (gtp_manager_get_pgw st).2 ∧
      ∃ g, pgw_list st !! Z.to_nat (gtp_manager_get_pgw st).1 = Some g ∧ x' = send_to_pgw g x
    else gl = globals st ∧ x' = x) HR Hc Hh) as Hwp.
  apply wp_returns. eapply wp_mono; [apply Hwp; clear Hwp|].
  - intros st1 base1 HR1 Hg _ _. unfold handle_gtpc_message.
    pose proof Hg as [= Hid Htot1 Hphy _ Hl _ _]. rewrite Hphy, Hport, Z.eqb_refl.
    assert (no_tunnel msg = Ret true) as ->.
    { unfold no_tunnel. rewrite Hhas, Hteid. destruct teid as [t|]; [|done].
      rewrite bool_decide_true by done. cbn [init_value obind]. by rewrite (proj2 (Z.eqb_eq t 0)). }
    cbn [obind]. rewrite Htot1, (proj2 (Z.eqb_neq _ _) Htot), Hid, Hseq.
    destruct (_ =? ovs_id st); [|done].
    destruct (globals_get st st1 Hg) as [Hi Hg'].
    pose proof (get_pgw_rep _ _ _ HR1) as HR2.
    pose proof (get_pgw_index st1 (gr_pgws _ _ _ HR1)) as Hidx.
    destruct (gtp_manager_get_pgw st1) as [i st2]. cbn [fst snd] in *. subst i.
    pose proof Hg' as [= _ _ _ _ Hl2 _ _].
    unfold nth_pgw. rewrite (proj2 (Z.leb_le _ _)) by lia.
    destruct (lookup_lt_is_Some_2 (pgw_list st2) (Z.to_nat (gtp_manager_get_pgw st).1)) as [g Hgw].
    { rewrite (wp_len _ (gr_pgws _ _ _ HR2)). lia. }
    rewrite Hgw. cbn [obind]. simpl wp. split; [done|]. split; [done|].
    exists g. split; [|done]. rewrite <-Hgw, Hl2.
    unfold gtp_manager_get_pgw. by destruct (scan_from st _ _).
  - intros [st' x'] [[_ HR'] HQ]. done.
Qed.

(** User traffic. *)
Lemma gtpu_message_returns fuel st Ss base x b ty teid :
  gtp_rep st Ss base → maybe_gtpc_message (x_flow x) = false →
  maybe_gtpu_message (x_flow x) = true → gtpu_message b ty teid →
  returns (handle_gtp fuel st x (Some b)) (λ '(st', x'),
    gtp_rep st' Ss base ∧ globals st' = globals st ∧
    x' = if pgw_fastpath st =? 0 then
           if in_port (x_flow x) =? ovs_phy_port st then
             if teid =? 0 then x else forwarded (pgw_list st) Ss KTeid teid send_to_pgw x
           else xlate_output_action x (ovs_phy_port st)
         else x).
Proof.
  intros HR Hc Hu Hm. destruct (gtpu_message_parse _ _ _ Hm) as (msg & Hh & Hty & Ht).
  pose proof (handle_gtp_gtpu_wp true fuel st Ss base x b msg
    (λ g x', g = globals st ∧ x' = if pgw_fastpath st =? 0 then
           if in_port (x_flow x) =? ovs_phy_port st then
             if teid =? 0 then x else forwarded (pgw_list st) Ss KTeid teid send_to_pgw x
           else xlate_output_action x (ovs_phy_port st)
         else x) HR Hc Hu Hh) as Hwp.
  apply wp_returns. apply Hwp; clear Hwp.
  intros st1 base1 HR1 Hg. unfold handle_gtpu_message.
  pose proof Hg as [= _ _ Hphy Hfp Hl _ _]. rewrite Hphy, Hfp, Ht.
  destruct (in_port (x_flow x) =? ovs_phy_port st).
  - destruct (teid =? 0); [by destruct (pgw_fastpath st =? 0)|].
    destruct (pgw_fastpath st =? 0); [|done].
    rewrite (forward_forwarded _ _ _ _ _ _ _ HR1), Hl. done.
  - by destruct (pgw_fastpath st =? 0).
Qed.
End Messages.
