(* ===== verification/GtpForward.v ===== *)
(** * A GTP packet on its way through the switch

    The manager changes the flow of a packet and its wildcards
    (GtpManager.v); [xlate_output_action] commits the change as datapath
    actions (OdpCommit.v) and appends the output; the datapath executes the
    actions on the packet (OdpExecute.v).  Here the three are put together. *)
From Stdlib Require Import ZArith Lia.
From stdpp Require Import base list gmap numbers option.
From S2P Require Import Prelude Hash MapIface GtpWire GtpWireProofs Csum CsumProofs Packets PacketsProofs PacketsIpv4 PacketsL4 PacketsNd Tags OdpExecute OdpExecuteProofs OdpCommit OdpCommitProofs OdpPackets OfpActions OfpActionsProofs GtpManager GtpPgw GtpMaps GtpSessions GtpDelete GtpHandlers.
Open Scope Z_scope.

(** ** The two views of [struct flow] *)

(** The three [be16] of an address that the manager holds as a number. *)
Definition mac_words (mac : Z) : list Z :=
  match be_bytes 6 mac with
  | [b0; b1; b2; b3; b4; b5] => [host16 b0 b1; host16 b2 b3; host16 b4 b5]
  | _ => []
  end.

Definition set_dst (f : sflow) (nw_dst dl_dst : Z) : sflow :=
  let l := f_l3 f in
  with_l3 (put_ethernet_key (mkKeyEth (f_dl_src (f_l2 f)) (mac_words dl_dst)) f)
    (mkL3 (f_nw_src l) nw_dst (f_ipv6_src l) (f_ipv6_dst l) (f_ipv6_label l) (f_nw_frag l) (f_nw_tos l)
       (f_nw_ttl l) (f_nw_proto l) (f_nd_target l) (f_arp_sha l) (f_arp_tha l)).

(** The flow and the masks once the manager has changed them. *)
Definition translated (base : sflow) (x : xlate) : sflow := set_dst base (nw_dst (x_flow x)) (dl_dst (x_flow x)).
Definition translated_masks (masks : sflow) (x : xlate) : sflow :=
  set_dst masks (wc_nw_dst (x_wc x)) (wc_dl_dst (x_wc x)).

(** The manager's view [f] of the flow [s]. *)
Record same_flow (f : flow) (s : sflow) : Prop := {
  sv_type : dl_type f = dl_type_of s;
  sv_proto : nw_proto f = nw_proto_of s;
  sv_src : tp_src f = f_tp_src (f_l4 s);
  sv_dst : tp_dst f = f_tp_dst (f_l4 s);
  sv_nw_src : nw_src f = f_nw_src (f_l3 s);
  sv_nw_dst : nw_dst f = f_nw_dst (f_l3 s);
  sv_dl_dst : mac_words (dl_dst f) = f_dl_dst (f_l2 s);
}.

Lemma be_bytes_6 mac : ∃ b0 b1 b2 b3 b4 b5, be_bytes 6 mac = [b0; b1; b2; b3; b4; b5] ∧
  is_byte b0 ∧ is_byte b1 ∧ is_byte b2 ∧ is_byte b3 ∧ is_byte b4 ∧ is_byte b5.
Proof.
  cbn [be_bytes app]. do 6 eexists. split; [reflexivity|].
  split_and!; unfold is_byte, u8; apply Z.mod_pos_bound; lia.
Qed.

Lemma mac_words_eth mac : eth_addr (mac_words mac).
Proof.
  destruct (be_bytes_6 mac) as (b0 & b1 & b2 & b3 & b4 & b5 & E & ? & ? & ? & ? & ? & ?).
  unfold mac_words. rewrite E. split; [done|].
  repeat constructor; unfold short, host16, is_byte in *; lia.
Qed.

Lemma mac_words_ones : mac_words 0xffffffffffff = [0xffff; 0xffff; 0xffff].
Proof. reflexivity. Qed.

Lemma ldiff_ones k a : 0 ≤ k → 0 ≤ a < 2 ^ k → Z.land a (Z.lnot (Z.ones k)) = 0.
Proof.
  intros Hk Ha. rewrite <-Z.ldiff_land, Z.ldiff_ones_r by done.
  by rewrite Z.shiftr_div_pow2, Z.div_small, Z.shiftl_0_l by done.
Qed.
Lemma agree_ones k a b : 0 ≤ k → 0 ≤ a < 2 ^ k → 0 ≤ b < 2 ^ k → agree (Z.ones k) a b.
Proof. intros. unfold agree. by rewrite !ldiff_ones. Qed.

Lemma agree_each_same m a : length m = length a → agree_each m a a.
Proof. intros H. split; [done|]. split; [done|]. intros i x y z _ E1 E2. rewrite E1 in E2. by injection E2 as ->. Qed.

Lemma agree_each_exact a b : eth_addr a → eth_addr b → agree_each eth_addr_exact a b.
Proof.
  intros Ha Hb. destruct (eth_addr_inv a Ha) as (a0 & a1 & a2 & -> & ? & ? & ?).
  destruct (eth_addr_inv b Hb) as (b0 & b1 & b2 & -> & ? & ? & ?). split; [done|]. split; [done|].
  intros [|[|[|i]]] x y z; cbn; intros; simplify_eq; by apply (agree_ones 16).
Qed.

(** What the manager has set can be committed. *)
Section Sent.
Context (base masks : sflow) (x : xlate).
Hypothesis Hbase : eth_key_ok (get_ethernet_key base) ∧ ipv4_key_ok (get_ipv4_key base false).
Hypothesis Hmasks : length (f_dl_src (f_l2 masks)) = 3%nat.
Hypothesis Hwc : wc_nw_dst (x_wc x) = 0xffffffff ∨ nw_dst (x_flow x) = f_nw_dst (f_l3 base).
Hypothesis Hwc_dl : wc_dl_dst (x_wc x) = 0xffffffffffff ∨ mac_words (dl_dst (x_flow x)) = f_dl_dst (f_l2 base).
Hypothesis Hdst : 0 ≤ nw_dst (x_flow x) < 2 ^ 32.
Hypothesis Hip : dl_type_of base = htons OdpCommit.ETH_TYPE_IP.
Hypothesis Hproto : nw_proto_of base ≠ 0.

Let flow := translated base x.

Lemma sent_rewrite : ip_rewrite flow base.
Proof. split; try done; unfold flow, translated; cbn; by destruct base as [? ? ? [] [] ?]. Qed.

Lemma sent_keys : eth_key_ok (get_ethernet_key flow) ∧ ipv4_key_ok (get_ipv4_key flow false).
Proof.
  destruct Hbase as [[E1 _] (K1 & _ & K3 & K4)]. split.
  - split; [exact E1|apply mac_words_eth].
  - exact (conj K1 (conj Hdst (conj K3 K4))).
Qed.

Lemma sent_covered :
  covered OVS_KEY_ATTR_ETHERNET (get_ethernet_key flow) (get_ethernet_key base)
    (get_ethernet_key (translated_masks masks x)) ∧
  covered OVS_KEY_ATTR_IPV4 (get_ipv4_key flow false) (get_ipv4_key base false)
    (writeable_ipv4 (get_ipv4_key (translated_masks masks x) true)).
Proof.
  destruct Hbase as [[[E1 E1'] E2] (K1 & K2 & K3 & K4)]. split; unfold covered, flow, translated, translated_masks.
  - cbn -[masked_each zip_with mac_words]. rewrite masked_each_agree by (apply agree_each_same; rewrite Hmasks; symmetry; exact E1).
    rewrite masked_each_agree; [done|]. destruct Hwc_dl as [-> | Heq].
    + rewrite mac_words_ones. apply agree_each_exact; [apply mac_words_eth|exact E2].
    + rewrite Heq. apply agree_each_same. etrans; [|symmetry; exact (proj1 E2)].
      exact (proj1 (mac_words_eth (wc_dl_dst (x_wc x)))).
  - cbn -[masked Z.land ovs_to_odp_frag]. unfold get_ipv4_key. cbn -[masked Z.land ovs_to_odp_frag].
    rewrite !masked_0 by done. f_equal; apply masked_agree; try done.
    destruct Hwc as [-> | ->]; [by apply (agree_ones 32)|done].
Qed.
End Sent.

(** ** Output *)

Section Deliver.
Context {Tnl : Type}.
Implicit Types p : packet Tnl.
Variable uninit : nat → Z.
Variable odp_tun_key_from_attr : list Z → option Tnl.
Variable hash_5tuple : packet Tnl → Z → Z.

(** A datapath that records what it is asked to do. *)
Definition trace := list (ovs_action * list (packet Tnl)).
Definition record_action (dp : trace) (ps : list (packet Tnl)) (a : ovs_action) (may_steal : bool)
    : outcome (trace * list (packet Tnl)) := Ret (dp ++ [(a, ps)], ps).

(** [ofp_port_to_odp_port]: the datapath's number of an OpenFlow port. *)
Variable odp_port : Z → Z.

(** The datapath actions for a packet that the manager has sent: what it
    changed is committed and the packet is output; none if it sent nothing. *)
Definition sent_actions (use_masked : bool) (base masks : sflow) (x : xlate) : outcome (list ovs_action) :=
  match list.last (x_out x) with
  | None => Ret []
  | Some (port, _, _) =>
      let* (st, _) := commit_odp_actions (translated base x) use_masked
                        (mkCommit base (translated_masks masks x) []) in
      Ret (c_actions st ++ [OVS_ACTION_ATTR_OUTPUT (odp_port port)])
  end.

(** A handler of the manager, then the datapath on packet [p]. *)
Definition switch {T} (use_masked : bool) (base masks : sflow) (handled : outcome (gtp T * xlate)) p
    (dp : trace) (seed : Z) : outcome (gtp T * @result trace Tnl) :=
  let* (st, x) := handled in
  let* acts := sent_actions use_masked base masks x in
  let* r := odp_execute_actions uninit odp_tun_key_from_attr hash_5tuple (Some record_action) 1 dp seed [Some p] true acts in
  Ret (st, r).

Lemma key_acts_local attr um key base mask : forallb is_local (key_acts attr um key base mask) = true.
Proof.
  unfold key_acts. case_bool_decide; [done|]. by destruct (um && negb (odp_mask_is_exact attr mask)).
Qed.

Section Ipv4.
Context (nh hl th len : Z).

(** What the datapath has been asked to do with [p]: nothing, or to output it
    once, with another destination. *)
Definition arrives (base : sflow) p (dst : option (Z * Z * Z)) (dp dp' : trace) : Prop :=
  match dst with
  | None => dp' = dp
  | Some (port, ip, mac) =>
      ∃ p', dp' = dp ++ [(OVS_ACTION_ATTR_OUTPUT (odp_port port), [p'])] ∧
        carries nh hl th len p' (set_dst base ip mac) ∧ rewritten nh hl th len p p'
  end.

(** A change of the flow that its wildcards show. *)
Record marked (base : sflow) (x : xlate) : Prop := {
  mk_nw_dst : wc_nw_dst (x_wc x) = 0xffffffff ∨ nw_dst (x_flow x) = f_nw_dst (f_l3 base);
  mk_dl_dst : wc_dl_dst (x_wc x) = 0xffffffffffff ∨ mac_words (dl_dst (x_flow x)) = f_dl_dst (f_l2 base);
  mk_range : 0 ≤ nw_dst (x_flow x) < 2 ^ 32;
}.

Lemma switch_arrives {T} um base masks (st : gtp T) x p dp seed :
  carries nh hl th len p base → dl_type_of base = htons OdpCommit.ETH_TYPE_IP → nw_proto_of base ≠ 0 →
  length (f_dl_src (f_l2 masks)) = 3%nat → marked base x →
  returns (switch um base masks (Ret (st, x)) p dp seed) (λ '(st', (dp', seed', ps)),
    st' = st ∧ seed' = seed ∧ ps = [None] ∧
    arrives base p ((λ '(port, _, _), (port, nw_dst (x_flow x), dl_dst (x_flow x))) <$> list.last (x_out x)) dp dp').
Proof.
  intros HC Hip Hproto Hmasks [Hwc Hwc_dl Hdst]. pose proof HC as [HP Hnh He (F1 & F2 & F3 & F4)].
  pose proof (v4_ok _ _ _ _ _ HP) as Hok.
  assert (eth_key_ok (get_ethernet_key base) ∧ ipv4_key_ok (get_ipv4_key base false)) as Hbase.
  { split; [rewrite <-He; split; by apply mac3_eth|]. unfold ipv4_key_ok. rewrite <-F1, <-F2, <-F3, <-F4.
    split_and!; (by apply word32_range) || (by apply byte_ok). }
  unfold switch, sent_actions. cbn [obind].
  destruct (list.last (x_out x)) as [[[port ?] ?]|]; cbn [obind fmap option_fmap option_map arrives]; [|by eexists].
  destruct (rewrite_actions (translated base x) um base (translated_masks masks x) []
    (sent_rewrite base x Hip Hproto)) as ([c slow] & -> & -> & Hacts). cbn [obind]. rewrite Hacts. cbn [app obind].
  destruct (sent_keys base x Hbase Hdst) as [Hke Hki].
  pose proof (sent_covered base masks x Hbase Hmasks Hwc Hwc_dl Hdst) as Hcov.
  destruct (rewrite_exec uninit odp_tun_key_from_attr hash_5tuple nh hl th len (translated base x) base
    (translated_masks masks x) um p HC Hke Hki (λ _, Hcov)) as (p' & Hrun & HC' & HR').
  assert (odp_execute_actions uninit odp_tun_key_from_attr hash_5tuple (Some record_action) 1 dp seed [Some p] true
    ((eth_acts um (translated base x) base (translated_masks masks x) ++
      ipv4_acts um (translated base x) base (translated_masks masks x)) ++ [OVS_ACTION_ATTR_OUTPUT (odp_port port)]) =
    Ret (dp ++ [(OVS_ACTION_ATTR_OUTPUT (odp_port port), [p'])], seed, [None])) as ->.
  { cbn [odp_execute_actions]. apply (loop_batch _ _ _ _ _ _ _ [p]).
    - unfold eth_acts, ipv4_acts. by rewrite forallb_app, !key_acts_local.
    - exists [p']. split; [by constructor; [exact Hrun|]|]. done. }
  eexists. split; [done|]. split_and!; [done..|]. exists p'. by split.
Qed.
End Ipv4.
End Deliver.

(** ** Where the manager sends a packet *)

Section Destinations.
Context {T : Type}.
Implicit Types st : gtp T.

Definition gateway_of st (Ss : list session) (k : kind) (key : Z) : option gtp_pgw_node :=
  s ← newest Ss k key;
  g ← pgw_list st !! Z.to_nat (s_pgw s);
  if gtp_pgw_ip g =? 0 then None else Some g.

(** Port, IP address and MAC address of the destination. *)
Definition user_dst st (Ss : list session) (teid : Z) (f : flow) : option (Z * Z * Z) :=
  if pgw_fastpath st =? 0 then
    if in_port f =? ovs_phy_port st then
      if teid =? 0 then None
      else (λ g, (gtp_pgw_port g, gtp_pgw_ip g, gtp_pgw_eth g)) <$> gateway_of st Ss KTeid teid
    else Some (ovs_phy_port st, nw_dst f, dl_dst f)
  else None.
Definition sgi_dst st (Ss : list session) (f : flow) : option (Z * Z * Z) :=
  if pgw_fastpath st =? 0 then
    if in_port f =? ovs_phy_port st
    then (λ g, (pgw_sgi_port g, nw_dst f, pgw_sgi_eth g)) <$> gateway_of st Ss KUeip (nw_dst f)
    else Some (ovs_phy_port st, nw_dst f, dl_dst f)
  else None.

Definition addresses_ok st : Prop := Forall (λ g, 0 ≤ gtp_pgw_ip g < 2 ^ 32) (pgw_list st).

(** The translation [x'] of [x] sends to [dst]. *)
Record sends (base : sflow) (x' : xlate) (dst : option (Z * Z * Z)) : Prop := {
  sn_marked : marked base x';
  sn_dst : ((λ '(port, _, _), (port, nw_dst (x_flow x'), dl_dst (x_flow x'))) <$> list.last (x_out x')) = dst;
}.

Section Sends.
Context (st : gtp T) (Ss : list session) (base : sflow) (x : xlate).
Hypothesis Hx : same_flow (x_flow x) base.
Hypothesis Hout : x_out x = [].
Hypothesis Hip : 0 ≤ nw_dst (x_flow x) < 2 ^ 32.

Lemma fresh_marked : marked base x.
Proof. split; [right; apply Hx|right; apply Hx|done]. Qed.
Lemma sends_nothing : sends base x None.
Proof. split; [apply fresh_marked|]. by rewrite Hout. Qed.
Lemma sends_unchanged port : sends base (xlate_output_action x port) (Some (port, nw_dst (x_flow x), dl_dst (x_flow x))).
Proof. split; [split; apply fresh_marked|]. cbn. by rewrite Hout. Qed.
Lemma sends_pgw g : 0 ≤ gtp_pgw_ip g < 2 ^ 32 →
  sends base (send_to_pgw g x) (Some (gtp_pgw_port g, gtp_pgw_ip g, gtp_pgw_eth g)).
Proof. intros Hg. split; [split; [by left|by left|done]|]. cbn. by rewrite Hout. Qed.
Lemma sends_sgi g : sends base (send_to_sgi g x) (Some (pgw_sgi_port g, nw_dst (x_flow x), pgw_sgi_eth g)).
Proof. split; [split; [right; apply Hx|by left|done]|]. cbn. by rewrite Hout. Qed.

Lemma forwarded_sends k key send dst :
  (∀ g, g ∈ pgw_list st → sends base (send g x) (Some (dst g))) →
  sends base (forwarded (pgw_list st) Ss k key send x) (dst <$> gateway_of st Ss k key).
Proof.
  intros Hs. unfold forwarded, gateway_of. destruct (newest Ss k key) as [s|]; [|apply sends_nothing].
  cbn [mbind option_bind]. destruct (pgw_list st !! Z.to_nat (s_pgw s)) as [g|] eqn:E; [|apply sends_nothing].
  cbn [mbind option_bind]. destruct (gtp_pgw_ip g =? 0); [apply sends_nothing|].
  apply Hs. by eapply list_elem_of_lookup_2.
Qed.

Lemma user_sends teid : addresses_ok st →
  sends base
    (if pgw_fastpath st =? 0 then
       if in_port (x_flow x) =? ovs_phy_port st then
         if teid =? 0 then x else forwarded (pgw_list st) Ss KTeid teid send_to_pgw x
       else xlate_output_action x (ovs_phy_port st)
     else x) (user_dst st Ss teid (x_flow x)).
Proof.
  intros Hok. unfold user_dst. destruct (_ =? 0); [|apply sends_nothing].
  destruct (_ =? _); [|apply sends_unchanged]. destruct (teid =? 0); [apply sends_nothing|].
  apply forwarded_sends. intros g Hg. apply sends_pgw. by apply (proj1 (Forall_forall _ _) Hok), list_elem_of_In.
Qed.
Lemma sgi_sends :
  sends base
    (if pgw_fastpath st =? 0 then
       if in_port (x_flow x) =? ovs_phy_port st
       then forwarded (pgw_list st) Ss KUeip (nw_dst (x_flow x)) send_to_sgi x
       else xlate_output_action x (ovs_phy_port st)
     else x) (sgi_dst st Ss (x_flow x)).
Proof.
  unfold sgi_dst. destruct (_ =? 0); [|apply sends_nothing]. destruct (_ =? _); [|apply sends_unchanged].
  apply forwarded_sends. intros g _. apply sends_sgi.
Qed.
End Sends.
End Destinations.
