(* ===== verification/GtpSpec.v ===== *)
(** * An abstract session manager, and that the code implements it

    The specification keeps the configuration and a list of sessions; it has
    no hash tables, no heap and no reference counts.  [spec_step] says which
    calls are within the contract of the manager and what they do;
    [run_refines] shows that the code follows every sequence of such calls,
    from initialisation on. *)
From Stdlib Require Import ZArith Lia.
From stdpp Require Import base list gmap numbers option.
From S2P Require Import Prelude Hash CmapRefine CmapReplace MapIface GtpWire GtpWireProofs GtpManager GtpPgw GtpMaps GtpSessions GtpDelete GtpHandlers GtpInit GtpPackets.
Open Scope Z_scope.

(** ** The specification *)

Record asession := mkA {
  a_t2 : Z;
  a_t4 : Z;
  a_t5 : Z;
  a_ueip : Z;
  a_pgw : Z;
}.

Definition a_keys (a : asession) : list (kind * Z) :=
  [(KTeid, a_t2 a); (KUeip, a_ueip a); (KTeid, a_t5 a); (KTeid, a_t4 a)].

(** The newest session with a key. *)
Definition a_newest (As : list asession) (k : kind) (key : Z) : option asession :=
  head (filter (λ a, (k, key) ∈ a_keys a) As).

(** A configuration is a manager without maps and heap. *)
Record spec := mkSpec {
  sp_cfg : gtp unit;
  sp_sessions : list asession;
}.

Definition spec_init : spec :=
  mkSpec (mkGtp 0 0 0 0 (replicate MAX_PGW_PER_NODE (mkPgw 0 0 0 0 0)) 0 0 [] [] ∅ 1 0) [].

(** To the gateway of the session with the key, if there is one and the
    gateway has not been deleted. *)
Definition spec_forward (c : spec) (k : kind) (key : Z)
    (send : gtp_pgw_node → xlate → xlate) (x : xlate) : xlate :=
  match a_newest (sp_sessions c) k key with
  | None => x
  | Some a =>
      match pgw_list (sp_cfg c) !! Z.to_nat (a_pgw a) with
      | Some g => if gtp_pgw_ip g =? 0 then x else send g x
      | None => x
      end
  end.

Inductive event :=
| EGtp (x : xlate) (b : dp_packet)
| ESgi (x : xlate) (b : dp_packet)
| ESetParams (id total phy fastpath : Z)
| EAddPgw (ip port eth sgi_port sgi_eth : Z)
| EDelPgw (ip : Z).

Definition from_phy (c : spec) (x : xlate) : bool := in_port (x_flow x) =? ovs_phy_port (sp_cfg c).

Inductive spec_step (c : spec) : event → spec → list xlate → Prop :=
| step_create x b t2 seq body t4 t5 ueip :
    let i := gtp_manager_find_pgw (sp_cfg c) (nw_src (x_flow x)) in
    maybe_gtpc_message (x_flow x) = true → from_phy c x = false →
    gtpc_message b 33 (Some t2) seq (encode_body body) → t2 ≠ 0 → Forall wf_body_ie body →
    body_scan body (0, 0, 0) = (t4, t5, ueip) → all_set (t4, t5, ueip) = true →
    pgw_fastpath (sp_cfg c) = 0 → i ≠ -1 →
    spec_step c (EGtp x b) (mkSpec (sp_cfg c) (mkA t2 t4 t5 ueip i :: sp_sessions c))
      [xlate_output_action x (ovs_phy_port (sp_cfg c))]
| step_incomplete x b t2 seq body :
    maybe_gtpc_message (x_flow x) = true → from_phy c x = false →
    gtpc_message b 33 (Some t2) seq (encode_body body) → t2 ≠ 0 → Forall wf_body_ie body →
    all_set (body_scan body (0, 0, 0)) = false ∨ pgw_fastpath (sp_cfg c) ≠ 0 →
    spec_step c (EGtp x b) c [x]
| step_delete x b seq body pre a post :
    maybe_gtpc_message (x_flow x) = true → from_phy c x = false →
    gtpc_message b 37 (Some (a_t2 a)) seq body → a_t2 a ≠ 0 →
    sp_sessions c = pre ++ a :: post →
    (∀ k key, (k, key) ∈ a_keys a → a_newest pre k key = None) →
    spec_step c (EGtp x b) (mkSpec (sp_cfg c) (pre ++ post))
      [xlate_output_action x (ovs_phy_port (sp_cfg c))]
| step_gateway x b ty teid seq body :
    maybe_gtpc_message (x_flow x) = true → from_phy c x = false →
    gtpc_message b ty teid seq body → default 0 teid = 0 ∨ (ty ≠ 33 ∧ ty ≠ 37) →
    spec_step c (EGtp x b) c [xlate_output_action x (ovs_phy_port (sp_cfg c))]
| step_tunnel x b ty teid seq body :
    maybe_gtpc_message (x_flow x) = true → from_phy c x = true →
    gtpc_message b ty (Some teid) seq body → teid ≠ 0 →
    spec_step c (EGtp x b) c [spec_forward c KTeid teid send_to_pgw x]
| step_initial_mine x b ty teid seq body g :
    maybe_gtpc_message (x_flow x) = true → from_phy c x = true →
    gtpc_message b ty teid seq body → default 0 teid = 0 → ovs_total (sp_cfg c) ≠ 0 →
    (seq mod 2 ^ 16) mod ovs_total (sp_cfg c) = ovs_id (sp_cfg c) →
    pgw_list (sp_cfg c) !! Z.to_nat (gtp_manager_get_pgw (sp_cfg c)).1 = Some g →
    spec_step c (EGtp x b) (mkSpec (gtp_manager_get_pgw (sp_cfg c)).2 (sp_sessions c))
      [send_to_pgw g x]
| step_initial_other x b ty teid seq body :
    maybe_gtpc_message (x_flow x) = true → from_phy c x = true →
    gtpc_message b ty teid seq body → default 0 teid = 0 → ovs_total (sp_cfg c) ≠ 0 →
    (seq mod 2 ^ 16) mod ovs_total (sp_cfg c) ≠ ovs_id (sp_cfg c) →
    spec_step c (EGtp x b) c [x]
| step_user x b ty teid :
    maybe_gtpc_message (x_flow x) = false → maybe_gtpu_message (x_flow x) = true →
    gtpu_message b ty teid →
    spec_step c (EGtp x b) c
      [if pgw_fastpath (sp_cfg c) =? 0 then
         if from_phy c x then
           if teid =? 0 then x else spec_forward c KTeid teid send_to_pgw x
         else xlate_output_action x (ovs_phy_port (sp_cfg c))
       else x]
| step_not_gtp x b :
    check_is_gtp (x_flow x) = false → spec_step c (EGtp x b) c [x]
| step_sgi x b :
    spec_step c (ESgi x b) c
      [if pgw_fastpath (sp_cfg c) =? 0 then
         if from_phy c x then spec_forward c KUeip (nw_dst (x_flow x)) send_to_sgi x
         else xlate_output_action x (ovs_phy_port (sp_cfg c))
       else x]
| step_params id total phy fp :
    spec_step c (ESetParams id total phy fp)
      (mkSpec (gtp_manager_set_params (sp_cfg c) id total phy fp) (sp_sessions c)) []
| step_add ip port eth sport seth cfg :
    gtp_manager_add_pgw (sp_cfg c) ip port eth sport seth = Ret cfg →
    spec_step c (EAddPgw ip port eth sport seth) (mkSpec cfg (sp_sessions c)) []
| step_del ip :
    spec_step c (EDelPgw ip) (mkSpec (gtp_manager_del_pgw (sp_cfg c) ip) (sp_sessions c)) [].

Inductive spec_steps : spec → list event → spec → list xlate → Prop :=
| steps_nil c : spec_steps c [] c []
| steps_cons c e c1 xs es c2 ys :
    spec_step c e c1 xs → spec_steps c1 es c2 ys → spec_steps c (e :: es) c2 (xs ++ ys).

(** ** The code *)
Section Run.
Context `{HF : HashFns} `{MO : MapOps T}.
Variable fuel : nat.
Implicit Types st : gtp T.

Definition do_event st (e : event) : outcome (gtp T * list xlate) :=
  match e with
  | EGtp x b => let* (st, x) := handle_gtp fuel st x (Some b) in Ret (st, [x])
  | ESgi x b => let* (st, x) := handle_pgw_sgi st x (Some b) in Ret (st, [x])
  | ESetParams id total phy fp => Ret (gtp_manager_set_params st id total phy fp, [])
  | EAddPgw ip port eth sport seth =>
      let* st := gtp_manager_add_pgw st ip port eth sport seth in Ret (st, [])
  | EDelPgw ip => Ret (gtp_manager_del_pgw st ip, [])
  end.

Fixpoint run st (es : list event) : outcome (gtp T * list xlate) :=
  match es with
  | [] => Ret (st, [])
  | e :: es =>
      let* (st, xs) := do_event st e in
      let* (st, ys) := run st es in
      Ret (st, xs ++ ys)
  end.

Definition boot_and_run (s : Z) (es : list event) : outcome (gtp T * list xlate) :=
  let* st := gtp_manager_init (gtp_static s) in run st es.
End Run.

(** ** Simulation *)

Definition abs (s : session) : asession := mkA (s_t2 s) (s_t4 s) (s_t5 s) (s_ueip s) (s_pgw s).

Lemma abs_keys s k key : (k, key) ∈ a_keys (abs s) ↔ with_key k key (sess_entries s) ≠ [].
Proof.
  assert (a_keys (abs s) = (sess_entries s).*1) as -> by done. split.
  - intros Hin Hnil. apply list_elem_of_fmap in Hin as ([[k' key'] p] & [= <- <-] & Hin).
    apply elem_of_with_key in Hin. rewrite Hnil in Hin. by apply not_elem_of_nil in Hin.
  - intros Hne. destruct (with_key k key (sess_entries s)) as [|p l] eqn:E; [done|].
    assert ((k, key, p) ∈ sess_entries s) as Hin by (apply elem_of_with_key; rewrite E; left).
    apply list_elem_of_fmap. by exists (k, key, p).
Qed.

Lemma newest_abs Ss k key : a_newest (abs <$> Ss) k key = abs <$> newest Ss k key.
Proof.
  unfold a_newest, newest. induction Ss as [|s Ss IH]; [done|].
  rewrite fmap_cons, !filter_cons. pose proof (abs_keys s k key) as Hk.
  case_decide as H1; case_decide as H2; [done| | |done]; by apply Hk in H1 || apply Hk in H2.
Qed.

Lemma newest_None_am Ss k key : newest Ss k key = None → am Ss k key = [].
Proof. intros H. pose proof (am_newest Ss k key) as Hn. by rewrite H in Hn. Qed.

Section Sim.
Context `{HF : HashFns} `{ML : MapLaws T}.
Implicit Types st : gtp T.

Definition config st : gtp unit :=
  mkGtp (ovs_id st) (ovs_total st) (ovs_phy_port st) (pgw_fastpath st) (pgw_list st)
    (current st) (end_ st) [] [] ∅ 1 0.

(** [st] implements [c], with memory for [n] more calls. *)
Definition implements (n : nat) st (c : spec) : Prop :=
  ∃ Ss base, gtp_rep st Ss base ∧ sp_cfg c = config st ∧ sp_sessions c = abs <$> Ss ∧
    Z.of_nat (5 * length Ss + size base + 6 * n) < 2 ^ 30.

Lemma config_globals st st' : globals st' = globals st → config st' = config st.
Proof. intros [= H1 H2 H3 H4 H5 H6 H7]. unfold config. by rewrite H1, H2, H3, H4, H5, H6, H7. Qed.

Lemma objs_length Ss : length (objs Ss) = (5 * length Ss)%nat.
Proof.
  induction Ss as [|s Ss IH]; [done|]. rewrite objs_cons, length_app, IH. simpl. lia.
Qed.

Lemma heap_size st Ss base : gtp_rep st Ss base → size (heap st) = (5 * length Ss + size base)%nat.
Proof.
  intros HR. rewrite (gr_heap _ _ _ HR), map_size_disj_union.
  - by rewrite map_size_list_to_map, objs_length by apply HR.
  - apply map_disjoint_spec. intros p o o' Hp Hb.
    apply elem_of_list_to_map_2 in Hp. apply (list_elem_of_fmap_2 fst) in Hp.
    by rewrite (gr_disj _ _ _ HR p Hp) in Hb.
Qed.

Lemma spec_forward_ok st Ss k key send x c :
  sp_cfg c = config st → sp_sessions c = abs <$> Ss →
  spec_forward c k key send x = forwarded (pgw_list st) Ss k key send x.
Proof.
  intros Hc Hs. unfold spec_forward, forwarded. rewrite Hs, newest_abs, Hc.
  by destruct (newest Ss k key).
Qed.

Lemma get_pgw_config st :
  (gtp_manager_get_pgw (config st)).1 = (gtp_manager_get_pgw st).1 ∧
  (gtp_manager_get_pgw (config st)).2 = config (gtp_manager_get_pgw st).2.
Proof.
  unfold gtp_manager_get_pgw. change (scan_from (config st)) with (scan_from st).
  change (current (config st)) with (current st).
  by destruct (scan_from st (current st) _).
Qed.

(** The state after a call that changes no session. *)
Lemma implements_keep n Ss base st' c :
  gtp_rep st' Ss base → sp_sessions c = abs <$> Ss → sp_cfg c = config st' →
  Z.of_nat (5 * length Ss + size base + 6 * S n) < 2 ^ 30 → implements n st' c.
Proof. intros. exists Ss, base. split_and!; [done..|lia]. Qed.

Lemma implements_same n st Ss base st' c :
  gtp_rep st' Ss base → globals st' = globals st →
  sp_sessions c = abs <$> Ss → sp_cfg c = config st →
  Z.of_nat (5 * length Ss + size base + 6 * S n) < 2 ^ 30 → implements n st' c.
Proof.
  intros HR' Hg Hs Hc Hn. apply (implements_keep n Ss base st' c HR' Hs); [|exact Hn].
  by rewrite (config_globals _ _ Hg).
Qed.

Lemma add_pgw_config st ip port eth sport seth cfg :
  gtp_manager_add_pgw (config st) ip port eth sport seth = Ret cfg →
  ∃ st', gtp_manager_add_pgw st ip port eth sport seth = Ret st' ∧ cfg = config st'.
Proof.
  unfold gtp_manager_add_pgw. change (scan_from (config st)) with (scan_from st).
  change (end_ (config st)) with (end_ st).
  destruct (scan_from st 0 _); [intros [= <-]; eexists; split; reflexivity|].
  destruct (end_ st <? _); [|done]. intros [= <-]. eexists. split; reflexivity.
Qed.

Lemma del_pgw_config st ip : gtp_manager_del_pgw (config st) ip = config (gtp_manager_del_pgw st ip).
Proof.
  unfold gtp_manager_del_pgw. change (scan_from (config st)) with (scan_from st).
  by destruct (scan_from st 0 _).
Qed.

Lemma from_phy_eq st c x : sp_cfg c = config st →
  from_phy c x = (in_port (x_flow x) =? ovs_phy_port st).
Proof. unfold from_phy. by intros ->. Qed.

(** What the calls of [handle_gtp] yield, as events. *)
Lemma do_gtp_safe fuel st x b Q R :
  safe (handle_gtp fuel st x (Some b)) Q → (∀ st' x', Q (st', x') → R (st', [x'])) →
  safe (do_event fuel st (EGtp x b)) R.
Proof. intros Hs HR. eapply safe_bind; [exact Hs|]. intros [st' x'] HQ. by apply HR. Qed.

(** The calls that change the sessions or the turn of the gateways. *)
Lemma create_refines fuel n st c x b t2 seq body t4 t5 ueip :
  let i := gtp_manager_find_pgw (sp_cfg c) (nw_src (x_flow x)) in
  implements (S n) st c → maybe_gtpc_message (x_flow x) = true → from_phy c x = false →
  gtpc_message b 33 (Some t2) seq (encode_body body) → t2 ≠ 0 → Forall wf_body_ie body →
  body_scan body (0, 0, 0) = (t4, t5, ueip) → all_set (t4, t5, ueip) = true →
  pgw_fastpath (sp_cfg c) = 0 → i ≠ -1 →
  safe (do_event fuel st (EGtp x b)) (λ '(st', xs'),
    xs' = [xlate_output_action x (ovs_phy_port (sp_cfg c))] ∧
    implements n st' (mkSpec (sp_cfg c) (mkA t2 t4 t5 ueip i :: sp_sessions c))).
Proof.
  intros i (Ss & base & HR & Hcfg & Hss & Hn) Hc Hport Hm Ht2 Hwf Hscan Hset Hfp Hi.
  rewrite (from_phy_eq st) in Hport by done. apply Z.eqb_neq in Hport.
  pose proof (heap_size _ _ _ HR) as Hsz. rewrite Hcfg in Hfp. subst i. rewrite Hcfg in Hi |- *.
  eapply do_gtp_safe.
  { apply wp_safe. by eapply (create_response_wp false fuel st Ss base x b t2 seq body t4 t5 ueip); try lia. }
  intros st' x' ((s & HR' & Hs) & Hg & ->). split; [done|].
  exists (s :: Ss), base. split_and!; [done|simpl; by rewrite (config_globals _ _ Hg)| |simpl; lia].
  simpl. rewrite Hss. f_equal. unfold abs. by injection Hs as -> -> -> -> ->.
Qed.

Lemma delete_refines fuel n st c x b seq body pre a post :
  implements (S n) st c → maybe_gtpc_message (x_flow x) = true → from_phy c x = false →
  gtpc_message b 37 (Some (a_t2 a)) seq body → a_t2 a ≠ 0 →
  sp_sessions c = pre ++ a :: post →
  (∀ k key, (k, key) ∈ a_keys a → a_newest pre k key = None) →
  safe (do_event fuel st (EGtp x b)) (λ '(st', xs'),
    xs' = [xlate_output_action x (ovs_phy_port (sp_cfg c))] ∧
    implements n st' (mkSpec (sp_cfg c) (pre ++ post))).
Proof.
  intros (Ss & base & HR & Hcfg & Hss & Hn) Hc Hport Hm Ht2 Hsp Hnew.
  rewrite (from_phy_eq st) in Hport by done. apply Z.eqb_neq in Hport.
  rewrite Hss in Hsp. apply fmap_app_inv in Hsp as (pre' & rest & -> & Hrest & ->).
  symmetry in Hrest. apply fmap_cons_inv in Hrest as (s & post' & -> & -> & ->).
  eapply do_gtp_safe.
  { apply wp_safe. eapply (delete_response_wp false fuel st pre' s post' base x b); try done.
    intros k key p Hp. apply newest_None_am. specialize (Hnew k key).
    rewrite newest_abs in Hnew. destruct (newest pre' k key); [|done].
    discriminate Hnew. apply abs_keys. intros Hnil. apply elem_of_with_key in Hp.
    rewrite Hnil in Hp. by apply not_elem_of_nil in Hp. }
  intros st' x' (HR' & Hg & ->). rewrite Hcfg. split; [done|].
  apply (implements_keep n (pre' ++ post') base); [done|by rewrite fmap_app| |].
  - simpl. by rewrite (config_globals _ _ Hg).
  - rewrite length_app in *. simpl in Hn. lia.
Qed.

Lemma initial_refines fuel n st c x b ty teid seq body :
  implements (S n) st c → maybe_gtpc_message (x_flow x) = true → from_phy c x = true →
  gtpc_message b ty teid seq body → default 0 teid = 0 → ovs_total (sp_cfg c) ≠ 0 →
  safe (do_event fuel st (EGtp x b)) (λ '(st', xs'),
    if (seq mod 2 ^ 16) mod ovs_total (sp_cfg c) =? ovs_id (sp_cfg c) then
      implements n st' (mkSpec (gtp_manager_get_pgw (sp_cfg c)).2 (sp_sessions c)) ∧
      ∃ g, pgw_list (sp_cfg c) !! Z.to_nat (gtp_manager_get_pgw (sp_cfg c)).1 = Some g ∧
        xs' = [send_to_pgw g x]
    else xs' = [x] ∧ implements n st' c).
Proof.
  intros (Ss & base & HR & Hcfg & Hss & Hn) Hc Hport Hm Ht Htot.
  rewrite (from_phy_eq st) in Hport by done. apply Z.eqb_eq in Hport.
  destruct (get_pgw_config st) as [Hi Hcf]. rewrite Hcfg in Htot. eapply do_gtp_safe.
  { apply returns_safe. by eapply (initial_message_returns fuel st Ss base x b ty teid seq body). }
  intros st' x' (HR' & Hx). rewrite Hcfg, Hi, Hcf.
  change (ovs_total (config st)) with (ovs_total st).
  change (ovs_id (config st)) with (ovs_id st). destruct (_ =? ovs_id st).
  - destruct Hx as (Hgl & g & Hg & ->). split; [|by exists g].
    eapply implements_keep; [done|done| |done]. simpl. by rewrite (config_globals _ _ Hgl).
  - destruct Hx as (Hgl & ->). split; [done|]. by eapply implements_same.
Qed.

(** The calls that leave the sessions and the configuration. *)
Lemma keeping_refines fuel n st c x b x' :
  implements (S n) st c →
  (∀ Ss base, gtp_rep st Ss base → sp_sessions c = abs <$> Ss →
     returns (handle_gtp fuel st x (Some b)) (λ '(st', y),
       gtp_rep st' Ss base ∧ globals st' = globals st ∧ y = x')) →
  safe (do_event fuel st (EGtp x b)) (λ '(st', xs'), xs' = [x'] ∧ implements n st' c).
Proof.
  intros (Ss & base & HR & Hcfg & Hss & Hn) Hk. eapply do_gtp_safe.
  { apply returns_safe. by apply (Hk Ss base). }
  intros st' y (HR' & Hg & ->). split; [done|]. by eapply implements_same.
Qed.

(** One call at a time. *)
Lemma step_refines fuel n st c e c' xs :
  implements (S n) st c → spec_step c e c' xs →
  safe (do_event fuel st e) (λ '(st', xs'), xs' = xs ∧ implements n st' c').
Proof.
  intros Himp Hstep. pose proof Himp as (Ss0 & base0 & HR0 & Hcfg & Hss0 & Hn).
  assert (∀ x, from_phy c x = (in_port (x_flow x) =? ovs_phy_port st)) as Hphy
    by (intros; by apply from_phy_eq).
  destruct Hstep as
    [|x b t2 seq body Hc Hport Hm Ht2 Hwf Hset| |x b ty teid seq body Hc Hport Hm Hty
    |x b ty teid seq body Hc Hport Hm Ht|x b ty teid seq body g Hc Hport Hm Ht Htot Hmine Hg
    |x b ty teid seq body Hc Hport Hm Ht Htot Hmine
    |x b ty teid Hc Hu Hm|x b Hno|x b|id total phy fp|ip port eth sport seth cfg Hadd|ip].
  - by eapply create_refines.
  - apply keeping_refines; [done|]. intros Ss base HR Hss. rewrite Hphy in Hport.
    apply Z.eqb_neq in Hport. rewrite Hcfg in Hset.
    by eapply (create_response_incomplete fuel st Ss base x b t2 seq body).
  - by eapply delete_refines.
  - apply keeping_refines; [done|]. intros Ss base HR Hss. rewrite Hphy in Hport.
    apply Z.eqb_neq in Hport. rewrite Hcfg.
    by eapply (gateway_message_returns fuel st Ss base x b ty teid seq body).
  - apply keeping_refines; [done|]. intros Ss base HR Hss. rewrite Hphy in Hport.
    apply Z.eqb_eq in Hport. rewrite (spec_forward_ok st Ss) by done.
    by eapply (tunnel_message_returns fuel st Ss base x b ty teid seq body).
  - eapply safe_mono; [by eapply initial_refines|]. intros [st' xs'].
    rewrite (proj2 (Z.eqb_eq _ _) Hmine), Hg. intros (Himp' & g' & [= <-] & ->). done.
  - eapply safe_mono; [by eapply initial_refines|]. intros [st' xs'].
    by rewrite (proj2 (Z.eqb_neq _ _) Hmine).
  - apply keeping_refines; [done|]. intros Ss base HR Hss.
    rewrite (spec_forward_ok st Ss), Hphy, Hcfg by done.
    by eapply (gtpu_message_returns fuel st Ss base x b ty teid).
  - apply keeping_refines; [done|]. intros Ss base HR Hss.
    apply orb_false_iff in Hno as [H1 H2]. unfold handle_gtp. rewrite H1, H2. by eexists.
  - cbn [do_event]. rewrite (handle_pgw_sgi_spec _ _ _ _ _ HR0), Hphy, Hcfg.
    rewrite (spec_forward_ok st Ss0) by done. split; [done|]. by eapply implements_same.
  - split; [done|]. eapply implements_keep; [by apply set_params_rep|done| |done].
    simpl. by rewrite Hcfg.
  - rewrite Hcfg in Hadd. apply add_pgw_config in Hadd as (st' & Heq & ->).
    cbn [do_event]. rewrite Heq. split; [done|].
    by eapply implements_keep; [by eapply add_pgw_rep|..].
  - split; [done|]. eapply implements_keep; [by apply del_pgw_rep|done| |done].
    simpl. by rewrite Hcfg, del_pgw_config.
Qed.

Lemma run_refines fuel st c es c' xs :
  implements (length es) st c → spec_steps c es c' xs →
  safe (run fuel st es) (λ '(st', xs'), xs' = xs ∧ implements 0 st' c').
Proof.
  intros Hi Hs. revert st Hi. induction Hs as [c|c e c1 xs es c2 ys Hstep Hs IH]; intros st Hi; [done|].
  cbn [run]. eapply safe_bind; [by eapply step_refines|]. intros [st1 xs1] [-> Hi1].
  eapply safe_bind; [by apply IH|]. intros [st2 ys2] [-> Hi2]. done.
Qed.

Lemma boot_refines fuel s es c' xs :
  spec_steps spec_init es c' xs → Z.of_nat (length es) < 2 ^ 26 →
  safe (boot_and_run fuel s es) (λ '(st', xs'), xs' = xs ∧ implements 0 st' c').
Proof.
  intros Hs Hn. unfold boot_and_run.
  destruct (gtp_init_returns (gtp_static s)) as (st & Heq & HR & He & Hc & _).
  - apply length_replicate.
  - intros p Hp. simpl in Hp. by rewrite dom_empty in Hp.
  - rewrite Heq. cbn [obind]. eapply run_refines; [|done].
    exists [], ∅. split_and!; [exact HR| |done|rewrite map_size_empty; simpl; lia].
    unfold gtp_manager_init in Heq. apply obind_Ret in Heq as ([[? ?] ?] & _ & [= <-]).
    reflexivity.
Qed.
End Sim.
