(* ===== verification/GtpSafety.v ===== *)
(** * Memory safety of the GTP manager for every input

    [gtp_rep] describes states in which the sessions do not interfere.  Here
    nothing is assumed about TEIDs and addresses: the invariant [minv] only
    says that the reference counts are right, and it survives every packet and
    every configuration call that does not fault.  No packet makes the manager
    access a freed object, free one twice or index an array out of bounds. *)
From Stdlib Require Import ZArith Lia.
From stdpp Require Import base list gmap numbers option.
From S2P Require Import Prelude Hash CmapRefine CmapReplace MapIface GtpWire GtpManager GtpPgw GtpMaps GtpSessions GtpHandlers GtpInit GtpPackets GtpSpec.
Open Scope Z_scope.

(** ** Calls that may only fault in known ways *)

Definition benign (f : fault) : Prop :=
  f = NullDeref ∨ f = UninitRead ∨ f = DivByZero ∨ f = AssertFail.

Definition msafe {A} (c : outcome A) (Q : A → Prop) : Prop :=
  match c with
  | Ret a => Q a
  | Fault f => benign f
  | Diverge => True
  end.

Lemma msafe_of_safe {A} (c : outcome A) Q : safe c Q → msafe c Q.
Proof. by destruct c. Qed.
Lemma msafe_bind {A B} (c : outcome A) (k : A → outcome B) Q R :
  msafe c Q → (∀ a, Q a → msafe (k a) R) → msafe (obind c k) R.
Proof. destruct c; simpl; auto. Qed.
Lemma msafe_mono {A} (c : outcome A) (Q R : A → Prop) :
  msafe c Q → (∀ a, Q a → R a) → msafe c R.
Proof. destruct c; simpl; auto. Qed.

(** ** Reference counts in the heap *)

(** The tunnel that a map node refers to. *)
Definition tun (h : gmap positive obj) (p : positive) : option positive :=
  match h !! p with Some (ONode _ n) => Some (kn_tunnel n) | _ => None end.

(** The nodes of [N] that refer to the tunnel [t]. *)
Definition users (h : gmap positive obj) (N : gset positive) (t : positive) : gset positive :=
  filter (λ q, tun h q = Some t) N.

(** [R] gives the live nodes and their counts; the count of a tunnel is the
    number of its live nodes. *)
Definition node_ok (h : gmap positive obj) (R : gmap positive Z) (p : positive) (r : Z) : Prop :=
  1 ≤ r ≤ 2 ∧
  ∃ k n t i, h !! p = Some (ONode k n) ∧ kn_ref_count n = r ∧
    h !! kn_tunnel n = Some (OTunnel t) ∧
    t_ref_count t = Some (Z.of_nat (size (users h (dom R) (kn_tunnel n)))) ∧
    pgw_index t = Some i ∧ 0 ≤ i < Z.of_nat MAX_PGW_PER_NODE.

Definition hinv (h : gmap positive obj) (R : gmap positive Z) : Prop :=
  ∀ p r, R !! p = Some r → node_ok h R p r.

(** One reference less. *)
Definition drop_ref (R : gmap positive Z) (p : positive) : gmap positive Z :=
  partial_alter (λ o, match o with Some r => if decide (r = 1) then None else Some (r - 1) | None => None end) p R.

(** A change that leaves the nodes and tunnels of the live nodes alone. *)
Lemma hinv_frame h h' R :
  hinv h R →
  (∀ p o, h !! p = Some o → (match o with ONode _ _ | OTunnel _ => True | _ => False end) →
     h' !! p = Some o) →
  hinv h' R.
Proof.
  intros Hh Hsame p r Hr. destruct (Hh p r Hr) as (Hr2 & k & n & t & i & Hp & Hn & Ht & Hc & Hi).
  split; [done|]. exists k, n, t, i. split_and!; [by apply (Hsame _ _ Hp)|done|by apply (Hsame _ _ Ht)|..|lia|lia].
  2: by destruct Hi. rewrite Hc. do 3 f_equal. apply set_eq. intros q. unfold users.
  rewrite !elem_of_filter. split; intros [Hq Hd]; (split; [|done]); revert Hq;
    apply elem_of_dom in Hd as [r' Hd]; destruct (Hh q r' Hd) as (_ & k' & n' & t' & i' & Hq & _);
    unfold tun; rewrite Hq, (Hsame _ _ Hq I); done.
Qed.

Lemma users_delete h h' (N : gset positive) p t :
  (∀ q, q ≠ p → tun h' q = tun h q) →
  users h' (N ∖ {[p]}) t = users h N t ∖ {[p]}.
Proof.
  intros Hsame. apply set_eq. intros q. unfold users.
  rewrite elem_of_filter, !elem_of_difference, elem_of_filter, elem_of_singleton.
  destruct (decide (q = p)) as [->|Hne]; [naive_solver|]. rewrite Hsame by done. naive_solver.
Qed.

Lemma drop_ref_1 R p : R !! p = Some 1 → drop_ref R p = delete p R.
Proof.
  intros Hp. apply map_eq. intros q. unfold drop_ref. destruct (decide (q = p)) as [->|].
  - by rewrite lookup_partial_alter_eq, Hp, decide_True, lookup_delete_eq by done.
  - by rewrite lookup_partial_alter_ne, lookup_delete_ne by done.
Qed.
Lemma drop_ref_2 R p r : R !! p = Some r → r ≠ 1 → drop_ref R p = <[p := r - 1]> R.
Proof.
  intros Hp Hr. apply map_eq. intros q. unfold drop_ref. destruct (decide (q = p)) as [->|].
  - by rewrite lookup_partial_alter_eq, Hp, decide_False, lookup_insert_eq by done.
  - by rewrite lookup_partial_alter_ne, lookup_insert_ne by done.
Qed.

Lemma tun_node h p k n : h !! p = Some (ONode k n) → tun h p = Some (kn_tunnel n).
Proof. unfold tun. by intros ->. Qed.

Lemma users_ext h h' N t : (∀ q, tun h' q = tun h q) → users h' N t = users h N t.
Proof. intros H. apply set_eq. intros q. unfold users. by rewrite !elem_of_filter, H. Qed.

Lemma hinv_counted h R p r k n :
  hinv h R → R !! p = Some r → h !! p = Some (ONode k n) → counted h k p ∧ kn_ref_count n = r.
Proof.
  intros Hh Hr Hp. destruct (Hh p r Hr) as (Hr2 & k' & n' & t & i & Hp' & Hn & Ht & Hc & _).
  rewrite Hp in Hp'. injection Hp' as <- <-. split; [|done]. exists n, t. eexists.
  split_and!; [done|lia|lia|done|done].
Qed.

(** A live node gets another count. *)
Lemma hinv_set_rc h R p r r' k n :
  hinv h R → R !! p = Some r → h !! p = Some (ONode k n) → 1 ≤ r' ≤ 2 →
  hinv (<[p := ONode k (mkNode (kn_key n) (kn_tunnel n) r')]> h) (<[p := r']> R).
Proof.
  intros Hh Hr Hp Hr'. set (h' := <[p := _]> h).
  assert (∀ q, tun h' q = tun h q) as Htun.
  { intros q. unfold tun, h'. destruct (decide (q = p)) as [->|].
    - by rewrite lookup_insert_eq, Hp.
    - by rewrite lookup_insert_ne by done. }
  assert (dom (<[p := r']> R) = dom R) as Hdom.
  { rewrite dom_insert_lookup_L; [done|by eexists]. }
  intros q rq Hq. assert (∃ rq', R !! q = Some rq') as [rq' Hq'].
  { destruct (decide (q = p)) as [->|]; [by eexists|]. rewrite lookup_insert_ne in Hq by done. by eexists. }
  destruct (Hh q rq' Hq') as (Hb & k' & n' & t & i & Hp' & Hn' & Ht & Hc & Hi & Hib).
  assert (kn_tunnel n' ≠ p) as Hne by congruence. unfold node_ok. rewrite Hdom.
  destruct (decide (q = p)) as [->|Hqp].
  - rewrite lookup_insert_eq in Hq. injection Hq as <-. split; [lia|].
    assert (n' = n) as -> by congruence. eexists k, _, t, i.
    split_and!; [apply lookup_insert_eq|done|unfold h'; simpl; by rewrite lookup_insert_ne|
      simpl; by rewrite (users_ext h)|done|lia|lia].
  - rewrite lookup_insert_ne in Hq by done. assert (rq' = rq) as -> by congruence.
    split; [done|]. exists k', n', t, i.
    split_and!; [unfold h'; by rewrite lookup_insert_ne|done|unfold h'; by rewrite lookup_insert_ne|
      by rewrite (users_ext h)|done|lia|lia].
Qed.

Lemma hinv_unref_2 h R p k n :
  hinv h R → R !! p = Some 2 → h !! p = Some (ONode k n) →
  hinv (unref_heap h k p) (drop_ref R p).
Proof.
  intros Hh Hr Hp. destruct (hinv_counted h R p 2 k n Hh Hr Hp) as [_ Hn].
  rewrite (drop_ref_2 _ _ 2) by done. unfold unref_heap. rewrite Hp, decide_False, Hn by lia.
  by eapply hinv_set_rc.
Qed.

(** Giving up the last reference: the node goes, and the tunnel with it when
    it has no other node. *)
Lemma hinv_unref_1 h R p k n :
  hinv h R → R !! p = Some 1 → h !! p = Some (ONode k n) →
  hinv (unref_heap h k p) (drop_ref R p).
Proof.
  intros Hh Hr Hp. destruct (Hh p 1 Hr) as (_ & k0 & n0 & t & i & Hp0 & Hn & Ht & Hc & _).
  assert (n0 = n) as -> by congruence. rewrite (drop_ref_1 _ _ Hr).
  unfold unref_heap. rewrite Hp, decide_True, Ht by done. set (t0 := kn_tunnel n) in *.
  assert (t0 ≠ p) as Htp by congruence.
  set (c := size (users h (dom R) t0)) in *.
  assert (p ∈ users h (dom R) t0) as Hpu.
  { apply elem_of_filter. split; [by eapply tun_node|by eapply elem_of_dom_2]. }
  match goal with |- hinv ?x _ => set (h' := x) end.
  assert (∀ q, q ≠ p → q ≠ t0 → h' !! q = h !! q) as Hsame.
  { intros q Hqp Hqt. unfold h'. case_decide; rewrite lookup_delete_ne by done;
      [by rewrite lookup_delete_ne|by rewrite lookup_insert_ne]. }
  assert (∀ q, q ≠ p → tun h' q = tun h q) as Htun.
  { intros q Hqp. unfold tun. destruct (decide (q = t0)) as [->|]; [|by rewrite Hsame].
    rewrite Ht. unfold h'. case_decide; rewrite lookup_delete_ne by done;
      [by rewrite lookup_delete_eq|by rewrite lookup_insert_eq]. }
  intros q rq Hq. apply lookup_delete_Some in Hq as [Hqp Hq].
  destruct (Hh q rq Hq) as (Hb & k' & n' & t' & i' & Hq' & Hn' & Ht' & Hc' & Hi' & Hib).
  split; [done|].
  assert (∀ tq, users h' (dom (delete p R)) tq = users h (dom R) tq ∖ {[p]}) as Husers.
  { intros tq. rewrite dom_delete_L. by apply users_delete. }
  assert (q ≠ t0) as Hqt by congruence. assert (kn_tunnel n' ≠ p) as Htp' by congruence.
  destruct (decide (kn_tunnel n' = t0)) as [Et|Et].
  - assert (q ∈ users h (dom R) t0) as Hqu.
    { apply elem_of_filter. split; [rewrite <-Et; by eapply tun_node|by eapply elem_of_dom_2]. }
    assert (size (users h (dom R) t0 ∖ {[p]}) = (c - 1)%nat ∧ (2 ≤ c)%nat) as [Hsz Hc2].
    { pose proof (size_difference (users h (dom R) t0) {[p]}) as Hd. rewrite size_singleton in Hd.
      assert ({[p]} ⊆ users h (dom R) t0) as Hsub by set_solver. specialize (Hd Hsub).
      assert (size ({[q]} : gset positive) ≤ size (users h (dom R) t0 ∖ {[p]}))%nat as Hle.
      { apply subseteq_size. set_solver. }
      rewrite size_singleton in Hle. split; [done|lia]. }
    exists k', n', (mkTunnel (teid4_sgw_c t) (teid5_sgw_u t) (teid2_pgw_c t) (teid3_pgw_u t)
      (ue_ip t) (pgw_index t) ((λ r, r - 1) <$> t_ref_count t)), i'.
    rewrite Et. assert (t' = t) as -> by congruence.
    split_and!; [by rewrite Hsame|done| | |done|lia|lia].
    + unfold h'. rewrite decide_False by (rewrite Hc; intros [= ?]; lia).
      by rewrite lookup_delete_ne, lookup_insert_eq by done.
    + simpl. rewrite Hc, Husers, Hsz. simpl. f_equal. lia.
  - exists k', n', t', i'. split_and!; [by rewrite Hsame|done|by rewrite Hsame| |done|lia|lia].
    rewrite Hc', Husers. do 3 f_equal. apply set_eq. intros x.
    rewrite elem_of_difference, elem_of_singleton. split; [|naive_solver]. intros Hx. split; [done|]. intros ->.
    apply elem_of_filter in Hx as [Hx _]. rewrite (tun_node _ _ _ _ Hp) in Hx.
    injection Hx as Hx. by apply Et.
Qed.

Lemma hinv_unref h R p r k n :
  hinv h R → R !! p = Some r → h !! p = Some (ONode k n) →
  hinv (unref_heap h k p) (drop_ref R p).
Proof.
  intros Hh Hr Hp. destruct (Hh p r Hr) as [Hb _].
  assert (r = 1 ∨ r = 2) as [->| ->] by lia; [by eapply hinv_unref_1|by eapply hinv_unref_2].
Qed.

(** ** The invariant *)
Section Safety.
Context `{HF : HashFns} `{ML : MapLaws T}.
Implicit Types st : gtp T.

Definition in_maps (AM : keymap) (p : positive) : Prop := ∃ k key, p ∈ AM k key.

(** A node has one reference from the map that it is in, and one more while
    the code holds it. *)
Definition refs_of (AM : keymap) (held : option positive) (R : gmap positive Z) : Prop :=
  (∀ p, in_maps AM p → R !! p = Some (if decide (held = Some p) then 2 else 1)) ∧
  (∀ p r, R !! p = Some r → in_maps AM p ∨ held = Some p ∧ r = 1) ∧
  (∀ p, held = Some p → is_Some (R !! p)).

Record minv_at st (AM : keymap) (held : option positive) (R : gmap positive Z) : Prop := {
  mi_maps : maps_rep st AM;
  mi_refs : refs_of AM held R;
  mi_heap : hinv (heap st) R;
  mi_held : ∀ p, held = Some p → ∃ n, heap st !! p = Some (ONode KTeid n);
  mi_brk : brk_ok st;
  mi_pgws : wf_pgws st;
}.

Definition minv st : Prop := ∃ AM R, minv_at st AM None R.

(** The messages of the parsers, which no call below touches. *)
Definition msgs_kept st st' : Prop :=
  ∀ p o, heap st !! p = Some o →
    (match o with ONode _ _ | OTunnel _ => False | _ => True end) → heap st' !! p = Some o.

(** How much a call allocates, and that it leaves the static variables. *)
Definition frame (n : nat) st st' : Prop :=
  msgs_kept st st' ∧ globals st' = globals st ∧ (size (heap st') ≤ size (heap st) + n)%nat.

Lemma frame_refl n st : frame n st st.
Proof. split_and!; [by intros ? ? ?|done|lia]. Qed.
Lemma frame_trans n m st1 st2 st3 : frame n st1 st2 → frame m st2 st3 → frame (n + m) st1 st3.
Proof.
  intros (H1 & H2 & H3) (H4 & H5 & H6). split_and!; [|congruence|lia].
  intros p o Hp Ho. apply H4; [|done]. by apply H1.
Qed.

(** Dropping a reference allocates nothing and touches no message. *)
Lemma unref_heap_kept h k p q o :
  counted h k p → h !! q = Some o →
  (match o with ONode _ _ | OTunnel _ => False | _ => True end) → unref_heap h k p !! q = Some o.
Proof.
  intros (n & t & r & Hp & _ & Ht & _) Hq Ho. unfold unref_heap. rewrite Hp, Ht.
  assert (q ≠ p ∧ q ≠ kn_tunnel n) as [H1 H2] by (split; intros ->; simplify_eq; done).
  case_decide; [|by rewrite lookup_insert_ne].
  case_decide; rewrite lookup_delete_ne by done; [by rewrite lookup_delete_ne|by rewrite lookup_insert_ne].
Qed.

Lemma unref_heap_size h k p : counted h k p → (size (unref_heap h k p) ≤ size h)%nat.
Proof.
  intros (n & t & r & Hp & _ & Ht & _). unfold unref_heap. rewrite Hp, Ht.
  assert (∀ h' : gmap positive obj, ∀ q, (size (delete q h') ≤ size h')%nat) as Hd.
  { intros h' q. destruct (h' !! q) as [o|] eqn:E; [|by rewrite delete_id].
    rewrite map_size_delete_Some by (by eexists). lia. }
  case_decide; [|by rewrite map_size_insert_Some by (by eexists)].
  case_decide; (etrans; [apply Hd|]); [apply Hd|by rewrite map_size_insert_Some by (by eexists)].
Qed.

(** The node that a search finds is live. *)
Lemma minv_found st AM held R k key p :
  minv_at st AM held R → p ∈ AM k key →
  ∃ n, heap st !! p = Some (ONode k n) ∧ kn_key n = key ∧ in_maps AM p ∧
    R !! p = Some (if decide (held = Some p) then 2 else 1).
Proof.
  intros HI Hp. assert (in_maps AM p) as Hin by (by exists k, key).
  pose proof (maps_rep_key _ _ _ _ _ (mi_maps _ _ _ _ HI) Hp) as Hk.
  apply node_key_Some in Hk as (n & Hn & Hk). exists n. split_and!; [done..|].
  by apply (mi_refs _ _ _ _ HI).
Qed.

(** A node that has been dropped from the map is in no other list. *)
Lemma not_in_pop st AM k key p rest :
  maps_rep st AM → AM k key = p :: rest → ¬ in_maps (pop AM k key) p.
Proof.
  intros HM HAM (k' & key' & Hin). unfold pop in Hin. case_decide as E.
  - injection E as <- <-. pose proof (maps_rep_NoDup st AM k key HM) as Hnd.
    rewrite HAM in *. by apply list.NoDup_cons in Hnd as [? _].
  - pose proof (maps_rep_key _ _ _ _ _ HM Hin) as H1.
    assert (p ∈ AM k key) as Hp by (rewrite HAM; left).
    pose proof (maps_rep_key _ _ _ _ _ HM Hp) as H2. congruence.
Qed.

Lemma in_maps_pop AM k key p rest q :
  AM k key = p :: rest → q ≠ p → in_maps (pop AM k key) q ↔ in_maps AM q.
Proof.
  intros HAM Hne. split; intros (k' & key' & Hin); exists k', key'; unfold pop in *; case_decide as E;
    try done; injection E as <- <-; rewrite HAM in *; [by right|].
  by apply elem_of_cons in Hin as [?|?].
Qed.

Lemma refs_of_drop AM held R st k key p rest :
  maps_rep st AM → AM k key = p :: rest → refs_of AM held R →
  refs_of (pop AM k key) held (drop_ref R p).
Proof.
  intros HM HAM (H1 & H2 & H3).
  assert (R !! p = Some (if decide (held = Some p) then 2 else 1)) as Hp.
  { apply H1. exists k, key. rewrite HAM. left. }
  pose proof (not_in_pop _ _ _ _ _ _ HM HAM) as Hno. unfold drop_ref. split_and!.
  - intros q Hq. assert (q ≠ p) as Hne by (by intros ->). rewrite lookup_partial_alter_ne by done.
    apply H1. by apply (in_maps_pop _ _ _ _ _ _ HAM Hne).
  - intros q r Hq. destruct (decide (q = p)) as [->|Hne].
    + rewrite lookup_partial_alter_eq, Hp in Hq. destruct (decide (held = Some p)); [|done].
      rewrite decide_False in Hq by lia. injection Hq as <-. by right.
    + rewrite lookup_partial_alter_ne in Hq by done. destruct (H2 q r Hq) as [?|?]; [|by right].
      left. by apply (in_maps_pop _ _ _ _ _ _ HAM Hne).
  - intros q Hq. destruct (decide (q = p)) as [->|Hne].
    + rewrite lookup_partial_alter_eq, Hp, (decide_True _ _ Hq).
      rewrite decide_False by lia. by eexists.
    + rewrite lookup_partial_alter_ne by done. by apply H3.
Qed.

(** Dropping one reference leaves the other nodes where they are. *)
Lemma unref_heap_node h k p q k' n' :
  counted h k p → h !! q = Some (ONode k' n') → q ≠ p → unref_heap h k p !! q = Some (ONode k' n').
Proof.
  intros (n & t & r & Hp & _ & Ht & _) Hq Hne. unfold unref_heap. rewrite Hp, Ht.
  assert (q ≠ kn_tunnel n) by congruence.
  case_decide; [|by rewrite lookup_insert_ne].
  case_decide; rewrite lookup_delete_ne by done; [by rewrite lookup_delete_ne|by rewrite lookup_insert_ne].
Qed.

Lemma unref_heap_dom h k p : counted h k p → dom (unref_heap h k p) ⊆ dom h.
Proof.
  intros (n & t & r & Hp & _ & Ht & _). unfold unref_heap. rewrite Hp, Ht.
  apply elem_of_dom_2 in Hp, Ht. case_decide; [case_decide|]; set_solver.
Qed.

(** Deleting a key: the variable is unset, or one reference goes. *)
Lemma del_node_msafe fuel k st AM held R key :
  minv_at st AM held R →
  msafe (del_node fuel k st key) (λ '(_, st'),
    (∃ AM' R', minv_at st' AM' held R') ∧ frame 0 st st').
Proof.
  intros HI. pose proof (mi_maps _ _ _ _ HI) as HM. destruct (AM k key) as [|p rest] eqn:HAM.
  { rewrite (del_node_none _ _ _ _ _ HM HAM). by right; left. }
  destruct (minv_found st AM held R k key p HI) as (n & Hn & _ & Hin & HR); [rewrite HAM; left|].
  destruct (hinv_counted _ _ _ _ _ _ (mi_heap _ _ _ _ HI) HR Hn) as [Hcnt Hrc].
  eapply msafe_mono; [apply msafe_of_safe; by eapply del_node_safe|].
  intros [r st'] (HM' & Hh' & Hb' & Hg' & _). split.
  - exists (pop AM k key), (drop_ref R p). split; [done| | | |..].
    + eapply refs_of_drop; [done|done|apply HI].
    + rewrite Hh'. by eapply hinv_unref; [apply HI|..].
    + intros q Hq. destruct (mi_held _ _ _ _ HI q Hq) as [nq Hnq]. rewrite Hh'.
      destruct (decide (q = p)) as [->|Hne]; [|eexists; by eapply unref_heap_node].
      rewrite Hn in Hnq. injection Hnq as -> ->. unfold unref_heap. rewrite Hn.
      rewrite decide_True in Hrc by done. rewrite decide_False by lia.
      eexists. apply lookup_insert_eq.
    + intros q Hq. rewrite Hb'. apply HI. rewrite Hh' in Hq. by eapply unref_heap_dom.
    + eapply globals_pgws; [done|apply HI].
  - split_and!; [|done|rewrite Hh', Nat.add_0_r; by apply unref_heap_size].
    intros q o Hq Ho. rewrite Hh'. by apply unref_heap_kept.
Qed.
(** Taking a reference. *)
Lemma minv_hold st AM R k key p n :
  minv_at st AM None R → p ∈ AM k key → k = KTeid → heap st !! p = Some (ONode k n) →
  minv_at (write_node st k p (mkNode (kn_key n) (kn_tunnel n) 2)) AM (Some p) (<[p := 2]> R).
Proof.
  intros HI Hp -> Hn. destruct (minv_found _ _ _ _ _ _ _ HI Hp) as (n' & Hn' & _ & Hin & HR).
  rewrite decide_False in HR by done. destruct (mi_refs _ _ _ _ HI) as (H1 & H2 & _).
  split; simpl.
  - eapply maps_rep_frame; [apply HI|by intros []|]. intros k' key' q Hq. simpl.
    unfold node_key. destruct (decide (q = p)) as [->|]; [by rewrite lookup_insert_eq, Hn|].
    by rewrite lookup_insert_ne.
  - split_and!.
    + intros q Hq. destruct (decide (q = p)) as [->|Hne].
      * by rewrite lookup_insert_eq, decide_True by done.
      * rewrite lookup_insert_ne, (H1 q Hq) by done. by rewrite !decide_False by congruence.
    + intros q r Hq. destruct (decide (q = p)) as [->|Hne]; [by left|].
      rewrite lookup_insert_ne in Hq by done. destruct (H2 q r Hq) as [?|[? _]]; [by left|done].
    + intros q [= ->]. rewrite lookup_insert_eq. by eexists.
  - eapply hinv_set_rc; [apply HI|done|done|lia].
  - intros q [= <-]. eexists. apply lookup_insert_eq.
  - intros q Hq. apply HI. simpl in Hq. rewrite dom_insert in Hq.
    apply elem_of_union in Hq as [Hq|Hq]; [|done]. apply elem_of_singleton in Hq as ->.
    by eapply elem_of_dom_2.
  - eapply (globals_pgws st); [done|apply HI].
Qed.

(** Giving it back. *)
Lemma minv_release st AM R p :
  minv_at st AM (Some p) R →
  ∃ st' R', unref_node KTeid st p = Ret st' ∧ minv_at st' AM None R' ∧ frame 0 st st'.
Proof.
  intros HI. destruct (mi_held _ _ _ _ HI p eq_refl) as [n Hn].
  destruct (mi_refs _ _ _ _ HI) as (H1 & H2 & H3). destruct (H3 p eq_refl) as [r Hr].
  destruct (hinv_counted _ _ _ _ _ _ (mi_heap _ _ _ _ HI) Hr Hn) as [Hcnt Hrc].
  pose proof Hcnt as (n0 & t & c & Hn0 & Hrange & Ht & Hc). assert (n0 = n) as -> by congruence.
  exists (set_heap st (unref_heap (heap st) KTeid p)), (drop_ref R p). split_and!.
  - apply (unref_node_spec _ _ _ n); eauto.
  - assert (¬ in_maps AM p → r = 1) as Hnot.
    { intros Hno. by destruct (H2 p r Hr) as [?|[_ ?]]. }
    split; simpl.
    + eapply maps_rep_frame; [apply HI|by intros []|]. intros k' key' q Hq. simpl.
      destruct (decide (q = p)) as [->|Hne]; [|by apply node_key_unref].
      assert (in_maps AM p) as Hin by (by exists k', key').
      pose proof (H1 p Hin) as Hr'. rewrite decide_True in Hr' by done.
      assert (r = 2) as -> by congruence. unfold unref_heap, node_key. rewrite Hn.
      rewrite decide_False by lia. by rewrite lookup_insert_eq.
    + unfold drop_ref. split_and!; [| |done].
      * intros q Hq. rewrite decide_False by done. pose proof (H1 q Hq) as Hrq.
        destruct (decide (q = p)) as [->|Hne].
        -- rewrite decide_True in Hrq by done. rewrite lookup_partial_alter_eq, Hrq. done.
        -- rewrite lookup_partial_alter_ne, Hrq by done. by rewrite decide_False by congruence.
      * intros q rq Hq. destruct (decide (q = p)) as [->|Hne].
        -- rewrite lookup_partial_alter_eq, Hr in Hq. case_decide; [done|]. left.
           destruct (H2 p r Hr) as [?|[_ ?]]; done.
        -- rewrite lookup_partial_alter_ne in Hq by done.
           destruct (H2 q rq Hq) as [?|[[= ?] _]]; [by left|done].
    + by eapply hinv_unref; [apply HI|..].
    + done.
    + intros q Hq. apply HI. simpl in Hq. by eapply unref_heap_dom.
    + eapply (globals_pgws st); [done|apply HI].
  - split_and!; [|done|simpl; rewrite Nat.add_0_r; by apply unref_heap_size].
    intros q o Hq Ho. simpl. by apply unref_heap_kept.
Qed.

(** Forwarding reads live objects only and gives back what it took. *)
Lemma forward_msafe k st AM R key x send :
  minv_at st AM None R →
  ∃ x', forward_by_key k st key x send = Ret (st, x').
Proof.
  intros HI. unfold forward_by_key. rewrite (get_node_spec _ _ _ _ (mi_maps _ _ _ _ HI)).
  destruct (AM k key) as [|p rest] eqn:HAM; [by eexists|].
  destruct (minv_found st AM None R k key p HI) as (n & Hn & Hkey & Hin & HR); [rewrite HAM; left|].
  rewrite decide_False in HR by done.
  destruct (mi_heap _ _ _ _ HI p 1 HR) as (_ & k' & n' & t & i & Hn' & Hrc & Ht & _ & Hi & Hib).
  rewrite Hn in Hn'. injection Hn' as <- <-. assert (kn_tunnel n ≠ p) as Hne by congruence.
  unfold read_node at 1. rewrite Hn, decide_True by done. cbn [obind]. rewrite Hrc.
  change (u8 (1 + 1)) with 2. unfold read_node, read_tunnel, write_node. simpl heap.
  rewrite lookup_insert_eq, decide_True by done. cbn [obind]. simpl kn_tunnel.
  rewrite lookup_insert_ne, Ht by done. cbn [obind]. rewrite Hi. cbn [init_value obind].
  destruct (lookup_lt_is_Some_2 (pgw_list st) (Z.to_nat i)) as [g Hg].
  { rewrite (wp_len _ (mi_pgws _ _ _ _ HI)). lia. }
  unfold nth_pgw. simpl pgw_list. rewrite (proj2 (Z.leb_le _ _)) by lia. rewrite Hg. cbn [obind].
  rewrite (unref_node_spec _ _ _ (mkNode (kn_key n) (kn_tunnel n) 2));
    [|simpl; by rewrite lookup_insert_eq|by vm_compute|done].
  cbn [obind]. eexists. do 2 f_equal. unfold unref_heap. simpl heap. rewrite lookup_insert_eq.
  rewrite decide_False by done. unfold set_heap. simpl. rewrite insert_insert_eq.
  change (2 - 1) with 1. rewrite insert_id; [by destruct st|]. rewrite Hn. f_equal. f_equal.
  destruct n. simpl in *. by subst.
Qed.

(** The whole delete session response. *)
Lemma delete_msafe fuel st AM R t2 x :
  minv_at st AM None R →
  msafe (delete_session fuel st t2 x) (λ '(st', _),
    (∃ AM' R', minv_at st' AM' None R') ∧ frame 0 st st').
Proof.
  intros HI. unfold delete_session, gtp_manager_get_teid_pgw.
  rewrite (get_node_spec _ _ _ _ (mi_maps _ _ _ _ HI)).
  destruct (AM KTeid t2) as [|p rest] eqn:HAM; [by left|].
  assert (p ∈ AM KTeid t2) as Hp by (rewrite HAM; left).
  destruct (minv_found st AM None R KTeid t2 p HI Hp) as (n & Hn & Hkey & Hin & HR).
  rewrite decide_False in HR by done.
  destruct (mi_heap _ _ _ _ HI p 1 HR) as (_ & k' & n' & t & i & Hn' & Hrc & Ht & _).
  rewrite Hn in Hn'. injection Hn' as <- <-. assert (kn_tunnel n ≠ p) as Hne by congruence.
  unfold read_node at 1. rewrite Hn, decide_True by done. cbn [obind deref]. rewrite Hrc.
  change (u8 (1 + 1)) with 2. pose proof (minv_hold st AM R KTeid t2 p n HI Hp eq_refl Hn) as HI1.
  set (st1 := write_node st KTeid p _) in *.
  assert (frame 0 st st1) as Hf1.
  { split_and!; [|done|simpl; rewrite map_size_insert_Some by (by eexists); lia].
    intros q o Hq Ho. simpl. rewrite lookup_insert_ne; [done|]. intros <-. by simplify_eq. }
  unfold read_node at 1. simpl heap. rewrite lookup_insert_eq, decide_True by done.
  cbn [obind]. simpl kn_tunnel. unfold read_tunnel. simpl heap. rewrite lookup_insert_ne, Ht by done.
  cbn [obind]. clearbody st1. revert HI1. generalize (<[p := 2]> R). intros R1 HI1.
  eapply msafe_bind; [by eapply del_node_msafe|]. intros [r2 st2] [(AM2 & R2 & HI2) Hf2].
  eapply msafe_bind; [by eapply del_node_msafe|]. intros [r3 st3] [(AM3 & R3 & HI3) Hf3].
  eapply msafe_bind; [by eapply del_node_msafe|]. intros [r4 st4] [(AM4 & R4 & HI4) Hf4].
  eapply msafe_bind; [by eapply del_node_msafe|]. intros [r5 st5] [(AM5 & R5 & HI5) Hf5].
  destruct (minv_release st5 AM5 R5 p HI5) as (st6 & R6 & -> & HI6 & Hf6). simpl.
  split; [by exists AM5, R6|].
  exact (frame_trans _ _ _ _ _ (frame_trans _ _ _ _ _ (frame_trans _ _ _ _ _
    (frame_trans _ _ _ _ _ (frame_trans _ _ _ _ _ Hf1 Hf2) Hf3) Hf4) Hf5) Hf6).
Qed.

(** ** Creating a session *)

(** Four nodes and their tunnel, all at fresh addresses. *)
Lemma hinv_session h R b k1 k2 k3 k4 n1 n2 n3 n4 t i :
  hinv h R → (∀ p, p ∈ dom h → (p < b)%positive) →
  Forall (λ n, kn_tunnel n = b ∧ kn_ref_count n = 1) [n1; n2; n3; n4] →
  t_ref_count t = Some 4 → pgw_index t = Some i → 0 ≤ i < Z.of_nat MAX_PGW_PER_NODE →
  hinv (<[(b + 4)%positive := ONode k4 n4]> (<[(b + 3)%positive := ONode k3 n3]>
       (<[(b + 2)%positive := ONode k2 n2]> (<[(b + 1)%positive := ONode k1 n1]>
       (<[b := OTunnel t]> h)))))
    (<[(b + 4)%positive := 1]> (<[(b + 3)%positive := 1]> (<[(b + 2)%positive := 1]>
      (<[(b + 1)%positive := 1]> R)))).
Proof.
  intros Hh Hb Hn Ht Hi Hib. set (h' := <[(b + 4)%positive := _]> _). set (R' := <[(b + 4)%positive := _]> _).
  set (new := {[(b + 1)%positive; (b + 2)%positive; (b + 3)%positive; (b + 4)%positive]} : gset positive).
  assert (∀ p r, R !! p = Some r → (p < b)%positive) as HRb.
  { intros p r Hp. destruct (Hh p r Hp) as (_ & k & n & t' & i' & Hp' & _). apply Hb. by eapply elem_of_dom_2. }
  assert (∀ p, (p < b)%positive → h' !! p = h !! p) as Hold.
  { intros p Hp. unfold h'. by rewrite !lookup_insert_ne by lia. }
  assert (dom R' = new ∪ dom R) as Hdom by (unfold R', new; rewrite !dom_insert_L; set_solver).
  assert (∀ p, p ∈ new → ∃ k n, h' !! p = Some (ONode k n) ∧ kn_tunnel n = b ∧ kn_ref_count n = 1) as Hnew.
  { repeat (apply Forall_cons_1 in Hn as [[? ?] Hn]). unfold new, h'. intros p Hp.
    rewrite !elem_of_union, !elem_of_singleton in Hp.
    destruct Hp as [[[->| ->]| ->]| ->]; do 2 eexists;
      (split; [repeat (rewrite lookup_insert_ne by lia); apply lookup_insert_eq|done]). }
  assert (h' !! b = Some (OTunnel t)) as Hbt.
  { unfold h'. rewrite !lookup_insert_ne by lia. apply lookup_insert_eq. }
  assert (∀ p, p ∈ new → (b < p)%positive) as Hgt by (unfold new; set_solver by lia).
  assert (users h' (dom R') b = new) as Hub.
  { apply set_eq. intros q. unfold users. rewrite Hdom, elem_of_filter, elem_of_union. split.
    - intros [Hq [?|Hd]]; [done|]. apply elem_of_dom in Hd as [r Hd].
      destruct (Hh q r Hd) as (_ & k & n & t' & i' & Hq' & _ & Ht' & _).
      rewrite <-(Hold q (HRb _ _ Hd)) in Hq'. rewrite (tun_node _ _ _ _ Hq') in Hq.
      injection Hq as Hq. rewrite Hq in Ht'. apply elem_of_dom_2, Hb in Ht'. lia.
    - intros Hq. split; [|by left]. destruct (Hnew q Hq) as (k & n & Hq' & Hk & _).
      rewrite (tun_node _ _ _ _ Hq'). by rewrite Hk. }
  assert (size new = 4%nat) as Hsz.
  { unfold new. rewrite !size_union, !size_singleton by set_solver by lia. done. }
  intros p r Hp. destruct (decide (p ∈ new)) as [Hpn|Hpn].
  - assert (r = 1) as ->.
    { clear -Hp Hpn. unfold R', new in *. rewrite !elem_of_union, !elem_of_singleton in Hpn.
      destruct Hpn as [[[->| ->]| ->]| ->]; repeat (rewrite lookup_insert_ne in Hp by lia);
        rewrite lookup_insert_eq in Hp; congruence. }
    destruct (Hnew p Hpn) as (k & n & Hp' & Hk & Hrc). split; [lia|]. exists k, n, t, i.
    rewrite Hk, Hub, Hsz. split_and!; [done..|lia|lia].
  - assert (R !! p = Some r) as Hpr.
    { unfold R', new in *. rewrite !lookup_insert_ne in Hp by set_solver. done. }
    destruct (Hh p r Hpr) as (Hr & k & n & t' & i' & Hp' & Hrc & Ht' & Hc' & Hi' & Hib').
    split; [done|]. exists k, n, t', i'.
    assert (kn_tunnel n < b)%positive as Hlt by (apply Hb; by eapply elem_of_dom_2).
    split_and!; [by rewrite Hold by (by eapply HRb)|done|by rewrite Hold| |done|lia|lia].
    rewrite Hc'. do 3 f_equal. apply set_eq. intros q. unfold users.
    rewrite Hdom, !elem_of_filter, elem_of_union. split.
    + intros [Hq Hd]. split; [|by right]. apply elem_of_dom in Hd as [rq Hd].
      unfold tun in *. by rewrite Hold by (by eapply HRb).
    + intros [Hq [Hd|Hd]].
      * destruct (Hnew q Hd) as (k' & n' & Hq' & Hk & _). rewrite (tun_node _ _ _ _ Hq') in Hq.
        injection Hq as Hq. lia.
      * split; [|done]. apply elem_of_dom in Hd as [rq Hd]. unfold tun in *.
        by rewrite Hold in Hq by (by eapply HRb).
Qed.

(** Changes to the heap that leave the map nodes alone. *)
Lemma minv_frame st st' AM R :
  minv_at st AM None R → (∀ k, maps st' k = maps st k) → wf_pgws st' → brk_ok st' →
  (∀ p o, heap st !! p = Some o → (match o with ONode _ _ | OTunnel _ => True | _ => False end) →
     heap st' !! p = Some o) →
  minv_at st' AM None R.
Proof.
  intros HI Hm Hw Hb Hh. split; [|apply HI|by eapply hinv_frame; [apply HI|]|done|done|done].
  eapply maps_rep_frame; [apply HI|done|]. intros k key p Hp.
  apply (maps_rep_key _ _ _ _ _ (mi_maps _ _ _ _ HI)), node_key_Some in Hp as (n & Hn & _).
  unfold node_key. by rewrite Hn, (Hh _ _ Hn I).
Qed.

Lemma minv_alloc st AM R o :
  minv_at st AM None R → minv_at (xmalloc st o).2 AM None R ∧ frame 1 st (xmalloc st o).2.
Proof.
  intros HI. pose proof (brk_ok_fresh _ (mi_brk _ _ _ _ HI)) as Hf.
  assert (∀ p o', heap st !! p = Some o' → <[brk st := o]> (heap st) !! p = Some o') as Hold.
  { intros p o' Hp. rewrite lookup_insert_ne; [done|]. by intros <-; rewrite Hf in Hp. }
  split.
  - eapply minv_frame; [done|by intros []|eapply (globals_pgws st); [done|apply HI]| |].
    + eapply (brk_ok_alloc st); [apply HI|done|done].
    + intros p o' Hp _. by apply Hold.
  - split_and!; [|done|simpl; rewrite map_size_insert_None by done; lia].
    intros p o' Hp _. by apply Hold.
Qed.

(** The messages of the parsers. *)
Definition is_msg (o : obj) : Prop := match o with OGtpc _ | OGtpu _ => True | _ => False end.

Lemma minv_write st AM R p o o' :
  minv_at st AM None R → heap st !! p = Some o → is_msg o →
  minv_at (set_heap st (<[p := o']> (heap st))) AM None R.
Proof.
  intros HI Hp Ho. eapply minv_frame; [done|by intros []|eapply (globals_pgws st); [done|apply HI]| |].
  - intros q Hq. apply HI. simpl in Hq. rewrite dom_insert in Hq.
    apply elem_of_union in Hq as [->%elem_of_singleton|Hq]; [by eapply elem_of_dom_2|done].
  - intros q oq Hq Hn. simpl. rewrite lookup_insert_ne; [done|]. intros <-. rewrite Hp in Hq. injection Hq as <-. by destruct o.
Qed.

Lemma minv_free st AM R p o :
  minv_at st AM None R → heap st !! p = Some o → is_msg o →
  ∃ st', free st p = Ret st' ∧ minv_at st' AM None R ∧ heap st' = delete p (heap st).
Proof.
  intros HI Hp Ho. unfold free. rewrite Hp. eexists. split; [done|]. split; [|done].
  eapply minv_frame; [done|by intros []|eapply (globals_pgws st); [done|apply HI]| |].
  - intros q Hq. apply HI. simpl in Hq. rewrite dom_delete in Hq. set_solver.
  - intros q oq Hq Hn. simpl. rewrite lookup_delete_ne; [done|]. intros <-. rewrite Hp in Hq. injection Hq as <-. by destruct o.
Qed.

Lemma in_maps_push AM k key p q : in_maps (push AM k key p) q ↔ q = p ∨ in_maps AM q.
Proof.
  unfold in_maps, push. split.
  - intros (k' & key' & Hq). case_decide; [|by eauto]. apply elem_of_cons in Hq as [?|?]; eauto.
  - intros [->|(k' & key' & Hq)].
    + exists k, key. rewrite decide_True by done. left.
    + exists k', key'. case_decide; [by right|done].
Qed.

Lemma refs_of_push AM R k key p :
  refs_of AM None R → R !! p = None → refs_of (push AM k key p) None (<[p := 1]> R).
Proof.
  intros (H1 & H2 & H3) Hp. split_and!; [| |done].
  - intros q Hq. apply in_maps_push in Hq as [->|Hq]; [by rewrite lookup_insert_eq|].
    rewrite lookup_insert_ne; [by apply H1|]. intros <-. by rewrite (H1 _ Hq) in Hp.
  - intros q r Hq. left. apply in_maps_push. destruct (decide (q = p)) as [->|Hne]; [by left|].
    rewrite lookup_insert_ne in Hq by done. destruct (H2 q r Hq) as [?|[? _]]; [by right|done].
Qed.

Lemma size_insert_le (h : gmap positive obj) p o : (size (<[p := o]> h) ≤ S (size h))%nat.
Proof.
  destruct (h !! p) as [o'|] eqn:E.
  - rewrite map_size_insert_Some by (by eexists). lia.
  - by rewrite map_size_insert_None.
Qed.

Lemma create_msafe fuel st AM R t2 t4 t5 ueip x :
  minv_at st AM None R → Z.of_nat (size (heap st)) + 5 < 2 ^ 30 →
  msafe (create_session fuel st t2 t4 t5 ueip x) (λ '(st', _),
    (∃ AM' R', minv_at st' AM' None R') ∧ frame 5 st st').
Proof.
  intros HI Hsz. unfold create_session.
  destruct (all_set _); [|split; [by eauto|apply frame_refl]].
  destruct (pgw_fastpath st =? 0); [|split; [by eauto|apply frame_refl]]. cbn [xmalloc].
  set (o := OTunnel _). pose proof (minv_alloc st AM R o HI) as [HI1 Hf1]. cbn [xmalloc snd] in HI1, Hf1.
  set (st1 := mkGtp _ _ _ _ _ _ _ _ _ _ _ _) in *.
  change (gtp_manager_find_pgw st1 (nw_src (x_flow x)))
    with (gtp_manager_find_pgw st (nw_src (x_flow x))).
  pose proof (find_pgw_spec st (nw_src (x_flow x))) as Hfind.
  set (pgw := gtp_manager_find_pgw st (nw_src (x_flow x))) in *.
  destruct (Z.eqb_spec pgw (-1)) as [_|Hne]; cbn [negb].
  { split; [by eauto|]. destruct Hf1 as (H1 & H2 & H3). split_and!; [done..|lia]. }
  assert (0 ≤ pgw < Z.of_nat MAX_PGW_PER_NODE) as Hpgw.
  { destruct Hfind as [[? _]|[(g & Hg & _) _]]; [done|].
    apply pgw_at_lt in Hg. pose proof (wp_end _ (mi_pgws _ _ _ _ HI)). lia. }
  rewrite u16_small by (unfold MAX_PGW_PER_NODE in Hpgw; lia).
  set (tn := mkTunnel t4 t5 t2 None ueip (Some pgw) (Some 4)).
  set (st2 := write_tunnel st1 (brk st) tn).
  assert (heap st2 = <[brk st := OTunnel tn]> (heap st)) as Hh2 by (apply insert_insert_eq).
  assert (brk_ok st2) as Hb2 by (by eapply (brk_ok_alloc st); [apply HI|exact Hh2|]).
  pose proof (brk_ok_fresh _ (mi_brk _ _ _ _ HI)) as Hfresh.
  assert (maps_rep st2 AM) as HM2.
  { eapply maps_rep_frame; [apply HI|by intros []|]. intros k key p Hp.
    apply (maps_rep_key _ _ _ _ _ (mi_maps _ _ _ _ HI)), node_key_Some in Hp as (n & Hn & _).
    unfold node_key. rewrite Hh2. rewrite lookup_insert_ne; [done|]. intros <-. congruence. }
  assert (∀ p, (brk st ≤ p)%positive → R !! p = None) as HRn.
  { intros p Hp. destruct (R !! p) as [r|] eqn:E; [|done].
    destruct (mi_heap _ _ _ _ HI p r E) as (_ & k & n & t & i & Hp' & _).
    apply elem_of_dom_2, (mi_brk _ _ _ _ HI) in Hp'. lia. }
  apply msafe_of_safe, wp_safe. eapply put_session_wp; [done|done| |done|].
  { pose proof (size_alloc _ _ _ Hh2). lia. }
  intros st4 b HM4 Hb4 Hg4 Hh4. simpl wp.
  assert (b = brk st + 1)%positive as Eb by (subst b; simpl; lia).
  replace (b + 1)%positive with (brk st + 2)%positive in * by lia.
  replace (b + 2)%positive with (brk st + 3)%positive in * by lia.
  replace (b + 3)%positive with (brk st + 4)%positive in * by lia. rewrite Eb in *. split.
  - eexists _, (<[(brk st + 4)%positive := 1]> (<[(brk st + 3)%positive := 1]>
      (<[(brk st + 2)%positive := 1]> (<[(brk st + 1)%positive := 1]> R)))).
    split; [exact HM4| | |done|done|].
    + repeat (apply refs_of_push; [|rewrite ?lookup_insert_ne by lia; apply HRn; lia]). apply HI.
    + rewrite Hh4, Hh2. eapply (hinv_session _ _ (brk st) _ _ _ _ _ _ _ _ tn pgw);
        [apply HI|apply HI|by repeat constructor|done..].
    + eapply (globals_pgws st); [by rewrite Hg4|apply HI].
  - split_and!; [|by rewrite Hg4|].
    + intros p o' Hp _. rewrite Hh4, Hh2. apply elem_of_dom_2 in Hp as Hd.
      apply (mi_brk _ _ _ _ HI) in Hd. by rewrite !lookup_insert_ne by lia.
    + pose proof (size_alloc _ _ _ Hh2) as H2. rewrite Hh4.
      do 4 (etrans; [apply size_insert_le|]; rewrite Nat.add_succ_r; apply le_n_S). lia.
Qed.

(** ** Packets *)

(** Reading a packet beyond its end is a null pointer, and nothing else. *)
Lemma load8_msafe b off : msafe (load8 b off) (λ _, True).
Proof. unfold load8. destruct (dp_packet_at b off 1); simpl; [done|by left]. Qed.
Lemma load16_msafe b off : msafe (load16 b off) (λ _, True).
Proof. unfold load16. destruct (dp_packet_at b off 2); simpl; [done|by left]. Qed.
Lemma load32_msafe b off : msafe (load32 b off) (λ _, True).
Proof. unfold load32. destruct (dp_packet_at b off 4); simpl; [done|by left]. Qed.

Lemma bearer_loop_msafe fuel b bcstart bcstartend t5 :
  msafe (bearer_loop fuel b bcstart bcstartend t5) (λ _, True).
Proof.
  revert bcstart. induction fuel as [|fuel IH]; intros bcstart; cbn [bearer_loop];
    destruct (negb _); try done.
  eapply msafe_bind; [apply load16_msafe|]. intros l _.
  eapply msafe_bind; [apply load8_msafe|]. intros ty _.
  destruct (ty =? 87); [|apply IH]. eapply msafe_bind; [apply load32_msafe|done].
Qed.

Lemma ie_loop_msafe fuel b start finish r : msafe (ie_loop fuel b start finish r) (λ _, True).
Proof.
  revert start r. induction fuel as [|fuel IH]; intros start r; cbn [ie_loop];
    destruct (negb _); try done.
  eapply msafe_bind; [apply load16_msafe|]. intros l _.
  eapply msafe_bind; [apply load8_msafe|]. intros ty _.
  eapply (msafe_bind _ _ (λ _, True)).
  - unfold ie_step. destruct r as [[t4 t5] ueip].
    destruct (ty =? 87); [eapply msafe_bind; [apply load32_msafe|done]|].
    destruct (ty =? 79); [eapply msafe_bind; [apply load32_msafe|done]|].
    destruct (ty =? 93); [eapply msafe_bind; [apply bearer_loop_msafe|done]|done].
  - intros r' _. destruct (all_set r'); [done|apply IH].
Qed.

Lemma gtpc_header_msafe b : msafe (gtpc_header_of b)
  (λ o, ∀ msg, o = Some msg → c_has_teid msg = true → is_Some (c_teid msg)).
Proof.
  unfold gtpc_header_of. destruct (dp_packet_get_udp_payload b) as [off|]; [|by left]. cbn [deref obind].
  eapply msafe_bind; [apply load8_msafe|]. intros flag _. destruct (negb (_ =? 2)); [done|].
  eapply msafe_bind; [apply load8_msafe|]. intros ty _.
  eapply msafe_bind; [apply load16_msafe|]. intros len _.
  set (has := negb _).
  eapply (msafe_bind _ _ (λ t, has = true → is_Some t)).
  { destruct has; [|done]. eapply msafe_bind; [apply load32_msafe|]. intros t _. by eexists. }
  intros t Ht. eapply msafe_bind; [apply load32_msafe|]. intros seq _.
  simpl. by intros msg [= <-].
Qed.

Lemma gtpu_header_msafe b : msafe (gtpu_header_of b) (λ _, True).
Proof.
  unfold gtpu_header_of. destruct (dp_packet_get_udp_payload b) as [off|]; [|by left]. cbn [deref obind].
  eapply msafe_bind; [apply load8_msafe|]. intros flag _. destruct (negb (_ =? 1)); [done|].
  eapply msafe_bind; [apply load8_msafe|]. intros ty _.
  eapply msafe_bind; [apply load16_msafe|]. intros len _.
  eapply msafe_bind; [apply load32_msafe|done].
Qed.

(** What a handler leaves: the invariant, the messages, and at most [n] new
    objects. *)
Definition handled (n : nat) st : gtp T * xlate → Prop := λ '(st', _),
  minv st' ∧ msgs_kept st st' ∧ (size (heap st') ≤ size (heap st) + n)%nat.

Lemma handled_same n st x : minv st → handled n st (st, x).
Proof. intros HI. split_and!; [done|by intros ? ? ?|lia]. Qed.

Lemma no_tunnel_msafe msg : (c_has_teid msg = true → is_Some (c_teid msg)) →
  msafe (no_tunnel msg) (λ b, b = false → is_Some (c_teid msg)).
Proof.
  intros H. unfold no_tunnel. destruct (c_has_teid msg); [|done].
  destruct (H eq_refl) as [t ->]. simpl. by eexists.
Qed.

Lemma gtpc_message_msafe fuel st x msg b :
  minv st → Z.of_nat (size (heap st)) + 5 < 2 ^ 30 →
  (c_has_teid msg = true → is_Some (c_teid msg)) →
  msafe (handle_gtpc_message fuel st x msg b) (handled 5 st).
Proof.
  intros HI Hsz Hmsg. pose proof HI as (AM & R & HI0). unfold handle_gtpc_message.
  destruct (in_port (x_flow x) =? ovs_phy_port st);
    (eapply msafe_bind; [by apply no_tunnel_msafe|]; intros none Hnone; destruct none).
  - destruct (ovs_total st =? 0); [by right; right; left|].
    destruct (_ =? ovs_id st); [|by apply handled_same].
    pose proof (get_pgw_index st (mi_pgws _ _ _ _ HI0)) as Hi.
    pose proof (get_pgw_wf st (mi_pgws _ _ _ _ HI0)) as Hw.
    assert (heap (gtp_manager_get_pgw st).2 = heap st ∧ brk (gtp_manager_get_pgw st).2 = brk st ∧
      ∀ k, maps (gtp_manager_get_pgw st).2 k = maps st k) as (Hh & Hb & Hm).
    { unfold gtp_manager_get_pgw. destruct (scan_from st (current st) _); (split_and!; [done..|by intros []]). }
    destruct (gtp_manager_get_pgw st) as [i st1]. cbn [fst snd] in *. unfold nth_pgw.
    rewrite (proj2 (Z.leb_le _ _)) by lia.
    destruct (lookup_lt_is_Some_2 (pgw_list st1) (Z.to_nat i)) as [g ->].
    { rewrite (wp_len _ Hw). lia. }
    simpl. split_and!; [|intros p o; by rewrite Hh|rewrite Hh; lia].
    exists AM, R. eapply minv_frame; [done|done|done| |].
    + intros p. rewrite Hh, Hb. apply HI0.
    + intros p o. by rewrite Hh.
  - destruct (Hnone eq_refl) as [t ->]. cbn [init_value obind].
    destruct (forward_msafe KTeid st AM R t x send_to_pgw HI0) as [x' ->]. by apply handled_same.
  - by apply handled_same.
  - destruct (Hnone eq_refl) as [t ->]. cbn [init_value obind].
    destruct (c_message_type msg =? 33).
    { eapply msafe_bind; [apply ie_loop_msafe|]. intros [[t4 t5] ueip] _.
      eapply msafe_mono; [by eapply create_msafe|]. intros [st' x'] [HI' (H1 & H2 & H3)]. done. }
    destruct (c_message_type msg =? 37); [|by apply handled_same].
    eapply msafe_mono; [by eapply delete_msafe|]. intros [st' x'] [HI' (H1 & H2 & H3)].
    split_and!; [done|done|lia].
Qed.

Lemma gtpu_message_msafe st x msg :
  minv st → msafe (handle_gtpu_message st x msg) (handled 5 st).
Proof.
  intros HI. pose proof HI as (AM & R & HI0). unfold handle_gtpu_message.
  destruct (in_port (x_flow x) =? ovs_phy_port st).
  - destruct (u_teid msg =? 0); [by apply handled_same|].
    destruct (pgw_fastpath st =? 0); [|by apply handled_same].
    destruct (forward_msafe KTeid st AM R (u_teid msg) x send_to_pgw HI0) as [x' ->]. by apply handled_same.
  - destruct (pgw_fastpath st =? 0); by apply handled_same.
Qed.

(** A handler between the allocation of its message and the release. *)
Lemma with_message_msafe st o (call : gtp T → outcome (gtp T * xlate)) :
  minv st → is_msg o →
  (∀ st1, minv st1 → size (heap st1) = S (size (heap st)) → heap st1 !! brk st = Some o →
     msafe (call st1) (handled 5 st1)) →
  ∀ o0, is_msg o0 →
  let st1 := set_heap (xmalloc st o0).2 (<[brk st := o]> (<[brk st := o0]> (heap st))) in
  msafe (let* (st2, x2) := call st1 in let* st3 := free st2 (brk st) in Ret (st3, x2))
    (λ '(st', _), minv st' ∧ (size (heap st') ≤ size (heap st) + 6)%nat).
Proof.
  intros (AM & R & HI) Ho Hcall o0 Ho0 st1.
  pose proof (brk_ok_fresh _ (mi_brk _ _ _ _ HI)) as Hfresh.
  destruct (minv_alloc st AM R o0 HI) as [HI1 _].
  assert (minv_at st1 AM None R) as HI2.
  { apply (minv_write (xmalloc st o0).2 AM R (brk st) o0 o); [done|apply lookup_insert_eq|done]. }
  assert (heap st1 = <[brk st := o]> (heap st)) as Hh by (apply insert_insert_eq).
  assert (size (heap st1) = S (size (heap st))) as Hsz by (rewrite Hh; by apply map_size_insert_None).
  eapply msafe_bind; [apply Hcall; [by eexists _, _|done|rewrite Hh; apply lookup_insert_eq]|].
  intros [st2 x2] ((AM2 & R2 & HI3) & Hkept & Hsz2).
  assert (heap st2 !! brk st = Some o) as Hp.
  { apply Hkept; [rewrite Hh; apply lookup_insert_eq|]. by destruct o. }
  destruct (minv_free st2 AM2 R2 (brk st) o HI3 Hp Ho) as (st3 & -> & HI4 & Hh3). simpl.
  split; [by exists AM2, R2|]. rewrite Hh3, map_size_delete_Some by (by eexists). lia.
Qed.

Lemma handle_gtp_msafe fuel st x packet :
  minv st → Z.of_nat (size (heap st)) + 6 < 2 ^ 30 →
  msafe (handle_gtp fuel st x packet) (λ '(st', _),
    minv st' ∧ (size (heap st') ≤ size (heap st) + 6)%nat).
Proof.
  intros HI Hsz. pose proof HI as (AM & R & HI0).
  unfold handle_gtp. destruct packet as [packet|]; [|split; [done|lia]].
  destruct (maybe_gtpc_message (x_flow x)).
  - unfold parse_gtpc_msg_header. pose proof (minv_alloc st AM R (OGtpc None) HI0) as [HI1 Hf1].
    cbn [xmalloc] in *. simpl snd in HI1, Hf1. pose proof (gtpc_header_msafe packet) as Hh.
    destruct (gtpc_header_of packet) as [[msg|]|f|]; [| |done|done].
    + cbn [obind]. set (st1 := set_heap _ _). unfold read_gtpc at 1. simpl heap.
      rewrite lookup_insert_eq. cbn [obind].
      apply (with_message_msafe st (OGtpc (Some msg)) (λ st, handle_gtpc_message fuel st x msg packet)
        HI I) with (o0 := OGtpc None); [|done].
      intros st' HI' Hsz' _. apply gtpc_message_msafe; [done|lia|by apply Hh].
    + cbn [obind]. simpl. split; [by exists AM, R|]. destruct Hf1 as (_ & _ & Hf). simpl in Hf. lia.
  - destruct (maybe_gtpu_message (x_flow x)); [|split; [done|lia]].
    unfold parse_gtpu_message. pose proof (minv_alloc st AM R (OGtpu None) HI0) as [HI1 Hf1].
    cbn [xmalloc] in *. simpl snd in HI1, Hf1. pose proof (gtpu_header_msafe packet) as Hh.
    destruct (gtpu_header_of packet) as [[msg|]|f|]; [| |done|done].
    + cbn [obind]. set (st1 := set_heap _ _). unfold read_gtpu at 1. simpl heap.
      rewrite lookup_insert_eq. cbn [obind].
      apply (with_message_msafe st (OGtpu (Some msg)) (λ st, handle_gtpu_message st x msg)
        HI I) with (o0 := OGtpu None); [|done].
      intros st' HI' Hsz' _. by apply gtpu_message_msafe.
    + cbn [obind]. destruct (minv_free _ AM R (brk st) (OGtpu None) HI1) as (st' & Heq & HI' & Hh');
        [apply lookup_insert_eq|done|]. rewrite Heq. simpl. split; [by exists AM, R|].
      rewrite Hh'. simpl heap. rewrite map_size_delete_Some by (rewrite lookup_insert_eq; by eexists).
      destruct Hf1 as (_ & _ & Hf). simpl in Hf. lia.
Qed.

(** ** Configuration *)

Lemma minv_config st st' :
  minv st → wf_pgws st' → heap st' = heap st → brk st' = brk st → (∀ k, maps st' k = maps st k) →
  minv st'.
Proof.
  intros (AM & R & HI) Hw Hh Hb Hm. exists AM, R. eapply minv_frame; [done|done|done| |].
  - intros p. rewrite Hh, Hb. apply HI.
  - intros p o. by rewrite Hh.
Qed.

Lemma minv_pgws st : minv st → wf_pgws st.
Proof. intros (AM & R & HI). apply HI. Qed.

Lemma add_pgw_msafe st ip port eth sport seth :
  minv st → msafe (gtp_manager_add_pgw st ip port eth sport seth) (λ st', minv st' ∧ heap st' = heap st).
Proof.
  intros HI. pose proof (minv_pgws _ HI) as Hw.
  destruct (gtp_manager_add_pgw st ip port eth sport seth) as [st'|f|] eqn:Heq; [|unfold gtp_manager_add_pgw in Heq|done].
  - destruct (add_pgw_ret st ip port eth sport seth st' Hw Heq) as [Hw' Hst']. split; [|by rewrite Hst'].
    eapply minv_config; [done|done|by rewrite Hst'..|]. intros k. rewrite Hst'. by destruct k.
  - destruct (scan_from st 0 _); [done|]. destruct (end_ st <? _); [done|].
    injection Heq as <-. by do 3 right.
Qed.

(** ** Every sequence of calls *)

Lemma event_msafe fuel st e :
  minv st → Z.of_nat (size (heap st)) + 6 < 2 ^ 30 →
  msafe (do_event fuel st e) (λ '(st', _), minv st' ∧ (size (heap st') ≤ size (heap st) + 6)%nat).
Proof.
  intros HI Hsz. pose proof (minv_pgws _ HI) as Hw. destruct e as [x b|x b|id total phy fp|ip port eth sport seth|ip];
    cbn [do_event].
  - eapply msafe_bind; [by apply handle_gtp_msafe|]. by intros [st' x'].
  - destruct HI as (AM & R & HI). unfold handle_pgw_sgi.
    assert (minv st ∧ (size (heap st) ≤ size (heap st) + 6)%nat) as Hsame by (split; [by exists AM, R|lia]).
    destruct (in_port (x_flow x) =? ovs_phy_port st), (pgw_fastpath st =? 0); try done.
    by destruct (forward_msafe KUeip st AM R (nw_dst (x_flow x)) x send_to_sgi HI) as [x' ->].
  - split; [|simpl; lia]. eapply minv_config; [done| |done|done|by intros []]. by destruct Hw.
  - eapply msafe_bind; [by apply add_pgw_msafe|]. intros st' [HI' Hh]. split; [done|]. rewrite Hh. lia.
  - destruct (del_pgw_spec st ip Hw) as [Hw' _].
    assert (heap (gtp_manager_del_pgw st ip) = heap st ∧ brk (gtp_manager_del_pgw st ip) = brk st ∧
      ∀ k, maps (gtp_manager_del_pgw st ip) k = maps st k) as (Hh & Hb & Hm).
    { unfold gtp_manager_del_pgw. destruct (scan_from st 0 _); (split_and!; [done..|by intros []]). }
    split; [by eapply minv_config|rewrite Hh; lia].
Qed.

Lemma run_msafe fuel st es :
  minv st → Z.of_nat (size (heap st)) + 6 * Z.of_nat (length es) < 2 ^ 30 →
  msafe (run fuel st es) (λ '(st', _), minv st').
Proof.
  revert st. induction es as [|e es IH]; intros st HI Hsz; [done|]. cbn [run]. cbn [length] in Hsz.
  eapply msafe_bind; [apply event_msafe; [done|lia]|]. intros [st1 xs] [HI1 Hsz1].
  eapply msafe_bind; [apply IH; [done|lia]|]. by intros [st2 ys].
Qed.

Lemma boot_msafe fuel s es :
  Z.of_nat (length es) < 2 ^ 26 →
  msafe (boot_and_run fuel s es) (λ '(st', _), minv st').
Proof.
  intros Hn. unfold boot_and_run.
  destruct (gtp_init_returns (gtp_static s)) as (st & Heq & HR & _).
  - apply length_replicate.
  - intros p Hp. simpl in Hp. by rewrite dom_empty in Hp.
  - rewrite Heq. cbn [obind]. pose proof (heap_size _ _ _ HR) as Hsz. simpl in Hsz.
    rewrite map_size_empty in Hsz. apply run_msafe; [|lia].
    exists (am []), ∅. split; [apply HR| |by intros p r|done|apply HR|apply HR].
    split_and!; [|by intros p r|done]. intros p (k & key & Hp). by apply not_elem_of_nil in Hp.
Qed.
End Safety.
