(* ===== verification/GtpRuns.v ===== *)
(** * Concrete packets and states for the properties of the GTP manager

    A create session response as a gateway sends it, user packets, and what
    can be computed about the state [Ex.up] that holds one session. *)
From Stdlib Require Import ZArith Lia.
From stdpp Require Import base list gmap numbers option.
From S2P Require Import Prelude Hash Cmap CmapSlots CmapTable CmapBfs CmapRefine CmapReplace MapIface GtpWire GtpWireProofs GtpManager GtpPgw GtpMaps GtpSessions GtpDelete GtpHandlers GtpInit GtpPackets GtpSpec.
Open Scope Z_scope.

Module Run.
(** Cause, F-TEID 0x44, address 192.168.0.5, and a bearer context with its
    identity and F-TEID 0x55. *)
Definition body (t4 t5 last : Z) : list body_ie :=
  [Plain (mkIe 2 0 [16; 0]);
   Plain (mkIe 87 1 ([135] ++ be32 t4 ++ [10; 0; 0; 2]));
   Plain (mkIe 79 0 [1; 192; 168; 0; last]);
   Bearer 0 [mkIe 73 0 [5]; mkIe 87 2 ([133] ++ be32 t5 ++ [10; 0; 0; 2])]].

Definition create_packet (t2 t4 t5 last : Z) : dp_packet :=
  gtpc_packet 33 (Some t2) 77 (encode_body (body t4 t5 last)).
Definition delete_packet (t2 : Z) : dp_packet := gtpc_packet 37 (Some t2) 78 [2; 0; 2; 0; 16; 0].

Lemma body_scan_ex : body_scan (body 0x44 0x55 5) (0, 0, 0) = (0x44, 0x55, 0x0500a8c0).
Proof. vm_compute. reflexivity. Qed.

Lemma body_wf_ex : Forall wf_body_ie (body 0x44 0x55 5).
Proof.
  repeat apply Forall_cons_2; [..|apply Forall_nil_2]; simpl; unfold wf_ie, is_byte; simpl;
    repeat first [apply Forall_cons_2 | apply Forall_nil_2 | lia | split |
      simpl; lia | by vm_compute].
Qed.

Lemma create_message_ex :
  gtpc_message (create_packet 0x22 0x44 0x55 5) 33 (Some 0x22) 77 (encode_body (body 0x44 0x55 5)).
Proof.
  apply gtpc_packet_message; [by vm_compute|by vm_compute| |lia]. intros t [= <-]. lia.
Qed.

Lemma delete_message_ex :
  gtpc_message (delete_packet 0x22) 37 (Some 0x22) 78 [2; 0; 2; 0; 16; 0].
Proof.
  apply gtpc_packet_message; [by vm_compute|by vm_compute| |lia]. intros t [= <-]. lia.
Qed.

(** A user packet of the session. *)
Definition user_packet : dp_packet := gtpu_packet 255 0x55 [69; 0; 0; 20].
Lemma user_message_ex : gtpu_message user_packet 255 0x55.
Proof. apply gtpu_packet_message; [by vm_compute|by vm_compute|lia]. Qed.

(** A create session request, of the session and of no session. *)
Definition from_sgw : xlate :=
  mkX (mkFlow 1 (htons ETH_TYPE_IP) 17 (htons GTPC_PORT) (htons GTPC_PORT) 0x0900000a 0x0800000a 0)
    (mkWc 0 0) [].
Definition request_packet (teid : option Z) (seq : Z) : dp_packet := gtpc_packet 32 teid seq [].
Lemma request_message_ex teid seq :
  (∀ t, teid = Some t → 0 ≤ t < 2 ^ 32) → 0 ≤ seq < 2 ^ 24 →
  gtpc_message (request_packet teid seq) 32 teid seq [].
Proof. intros. by apply gtpc_packet_message; [vm_compute|..]. Qed.

(** ** Facts about the states, by computation *)

Lemma cfg_room : room_for_session Ex.cfg 0x22 0x44 0x55 0x0500a8c0.
Proof.
  split_and!; [intros c Hc; vm_compute in Hc; injection Hc as <-..|].
  5: vm_compute; repeat (apply list.NoDup_cons; split); [set_solver..|apply NoDup_nil_2].
  all: split; [by vm_compute|]; right; right; left; vm_compute; by eexists.
Qed.

Lemma up_facts :
  pgw_fastpath Ex.up = 0 ∧ ovs_phy_port Ex.up = 1 ∧ Z.of_nat (size (heap Ex.up)) = 5 ∧
  ovs_total Ex.up = 2 ∧ ovs_id Ex.up = 0 ∧ end_ Ex.up = 2 ∧ current Ex.up = 0 ∧
  s_t2 Ex.sess = 0x22 ∧ s_t4 Ex.sess = 0x44 ∧ s_t5 Ex.sess = 0x55 ∧ s_ueip Ex.sess = 0x0500a8c0 ∧
  gtp_manager_find_pgw Ex.up 0x0200000a = 1.
Proof. vm_compute. repeat split. Qed.

Lemma up_slack : slack_for_session Ex.up Ex.sess.
Proof.
  destruct up_facts as (_ & _ & _ & _ & _ & _ & _ & H2 & H4 & H5 & Hu & _).
  unfold slack_for_session. rewrite H2, H4, H5, Hu.
  split_and!; [intros c Hc; vm_compute in Hc; injection Hc as <-; by vm_compute..|].
  vm_compute. repeat (apply list.NoDup_cons; split); [set_solver..|apply NoDup_nil_2].
Qed.
End Run.
