(* ===== verification/Reconnect.v ===== *)
(** * lib/reconnect.c: the connection state machine

    The state machine that tells a client (an OVSDB session) when to connect,
    when to probe a silent peer and when to give up, with exponential backoff.
    Every function of the file is modelled; log messages are not.  [int] and
    [long long int] arithmetic is checked, [unsigned int] wraps. *)
From Stdlib Require Import ZArith Lia String.
From stdpp Require Import base list numbers option.
From S2P Require Import Prelude.
Open Scope Z_scope.

(** ** State *)

(** [enum state]. *)
Inductive state :=
| S_VOID | S_BACKOFF | S_CONNECTING | S_ACTIVE | S_IDLE | S_RECONNECT | S_LISTENING.

#[global] Instance state_eq_dec : EqDecision state.
Proof. solve_decision. Defined.

(** The values of the enumerators: one bit each. *)
Definition state_value (s : state) : Z :=
  match s with
  | S_VOID => Z.shiftl 1 0
  | S_BACKOFF => Z.shiftl 1 1
  | S_CONNECTING => Z.shiftl 1 3
  | S_ACTIVE => Z.shiftl 1 4
  | S_IDLE => Z.shiftl 1 5
  | S_RECONNECT => Z.shiftl 1 6
  | S_LISTENING => Z.shiftl 1 7
  end.

(** [state & (S_A | S_B | ...)] as a condition. *)
Definition state_in (s : state) (l : list state) : bool :=
  negb (Z.land (state_value s) (foldr Z.lor 0 (map state_value l)) =? 0).

Definition is_connected_state (s : state) : bool := state_in s [S_ACTIVE; S_IDLE].

Definition reconnect_state_name__ (s : state) : string :=
  match s with
  | S_VOID => "VOID"
  | S_BACKOFF => "BACKOFF"
  | S_CONNECTING => "CONNECTING"
  | S_ACTIVE => "ACTIVE"
  | S_IDLE => "IDLE"
  | S_RECONNECT => "RECONNECT"
  | S_LISTENING => "LISTENING"
  end%string.

(** [enum vlog_level], the levels this file uses. *)
Inductive vlog_level := VLL_INFO | VLL_DBG.

Record reconnect := mk_reconnect {
  r_name : string;
  min_backoff : Z;
  max_backoff : Z;
  probe_interval : Z;
  passive : bool;
  info : vlog_level;
  r_state : state;
  state_entered : Z;
  backoff : Z;
  last_activity : Z;
  last_connected : Z;
  last_disconnected : Z;
  max_tries : Z;
  creation_time : Z;
  n_attempted_connections : Z;
  n_successful_connections : Z;
  total_connected_duration : Z;
  seqno : Z;
}.

Definition RECONNECT_DEFAULT_MIN_BACKOFF : Z := 1000.
Definition RECONNECT_DEFAULT_MAX_BACKOFF : Z := 8000.
Definition RECONNECT_DEFAULT_PROBE_INTERVAL : Z := 5000.

(** Assignments to one field. *)
Definition with_state (f : reconnect) (s : state) (now : Z) : reconnect :=
  mk_reconnect (r_name f) (min_backoff f) (max_backoff f) (probe_interval f) (passive f)
    (info f) s now (backoff f) (last_activity f) (last_connected f)
    (last_disconnected f) (max_tries f) (creation_time f) (n_attempted_connections f)
    (n_successful_connections f) (total_connected_duration f) (seqno f).
Definition with_counters (f : reconnect) (att succ dur sq : Z) : reconnect :=
  mk_reconnect (r_name f) (min_backoff f) (max_backoff f) (probe_interval f) (passive f)
    (info f) (r_state f) (state_entered f) (backoff f) (last_activity f)
    (last_connected f) (last_disconnected f) (max_tries f) (creation_time f) att succ dur sq.
Definition with_backoff (f : reconnect) (b : Z) : reconnect :=
  mk_reconnect (r_name f) (min_backoff f) (max_backoff f) (probe_interval f) (passive f)
    (info f) (r_state f) (state_entered f) b (last_activity f) (last_connected f)
    (last_disconnected f) (max_tries f) (creation_time f) (n_attempted_connections f)
    (n_successful_connections f) (total_connected_duration f) (seqno f).
Definition with_times (f : reconnect) (act conn disc : Z) : reconnect :=
  mk_reconnect (r_name f) (min_backoff f) (max_backoff f) (probe_interval f) (passive f)
    (info f) (r_state f) (state_entered f) (backoff f) act conn disc (max_tries f)
    (creation_time f) (n_attempted_connections f) (n_successful_connections f)
    (total_connected_duration f) (seqno f).
Definition with_max_tries (f : reconnect) (n : Z) : reconnect :=
  mk_reconnect (r_name f) (min_backoff f) (max_backoff f) (probe_interval f) (passive f)
    (info f) (r_state f) (state_entered f) (backoff f) (last_activity f)
    (last_connected f) (last_disconnected f) n (creation_time f)
    (n_attempted_connections f) (n_successful_connections f)
    (total_connected_duration f) (seqno f).
Definition with_config (f : reconnect) (nm : string) (mn mx pr : Z) (pas : bool)
    (inf : vlog_level) : reconnect :=
  mk_reconnect nm mn mx pr pas inf (r_state f) (state_entered f) (backoff f)
    (last_activity f) (last_connected f) (last_disconnected f) (max_tries f)
    (creation_time f) (n_attempted_connections f) (n_successful_connections f)
    (total_connected_duration f) (seqno f).

(** ** Creation and settings *)

Definition reconnect_create (now : Z) : reconnect := {|
  r_name := "void";
  min_backoff := RECONNECT_DEFAULT_MIN_BACKOFF;
  max_backoff := RECONNECT_DEFAULT_MAX_BACKOFF;
  probe_interval := RECONNECT_DEFAULT_PROBE_INTERVAL;
  passive := false;
  info := VLL_INFO;
  r_state := S_VOID;
  state_entered := now;
  backoff := 0;
  last_activity := now;
  last_connected := LLONG_MAX;
  last_disconnected := LLONG_MAX;
  max_tries := UINT_MAX;
  creation_time := now;
  n_attempted_connections := 0;
  n_successful_connections := 0;
  total_connected_duration := 0;
  seqno := 0
|}.

Definition reconnect_set_quiet (f : reconnect) (quiet : bool) : reconnect :=
  with_config f (r_name f) (min_backoff f) (max_backoff f) (probe_interval f) (passive f)
    (if quiet then VLL_DBG else VLL_INFO).

Definition reconnect_get_name (f : reconnect) : string := r_name f.

(** [None] is a null [name]. *)
Definition reconnect_set_name (f : reconnect) (name : option string) : reconnect :=
  with_config f (match name with Some n => n | None => "void"%string end)
    (min_backoff f) (max_backoff f) (probe_interval f) (passive f) (info f).

Definition reconnect_get_min_backoff (f : reconnect) : Z := min_backoff f.
Definition reconnect_get_max_backoff (f : reconnect) : Z := max_backoff f.
Definition reconnect_get_probe_interval (f : reconnect) : Z := probe_interval f.

Definition reconnect_set_max_tries (f : reconnect) (n : Z) : reconnect :=
  with_max_tries f n.
Definition reconnect_get_max_tries (f : reconnect) : Z := max_tries f.

(** The test at the end compares the backoff with the argument [mx], not with
    the new value of [max_backoff]. *)
Definition reconnect_set_backoff (f : reconnect) (mn mx : Z) : reconnect :=
  let mn' := Z.max mn 1000 in
  let mx' := if mx =? 0 then RECONNECT_DEFAULT_MAX_BACKOFF else Z.max mx 1000 in
  let mx'' := if mn' >? mx' then mn' else mx' in
  let f := with_config f (r_name f) mn' mx'' (probe_interval f) (passive f) (info f) in
  if bool_decide (r_state f = S_BACKOFF) && (backoff f >? mx) then with_backoff f mx else f.

Definition reconnect_set_probe_interval (f : reconnect) (p : Z) : reconnect :=
  with_config f (r_name f) (min_backoff f) (max_backoff f)
    (if p =? 0 then 0 else Z.max 1000 p) (passive f) (info f).

Definition reconnect_is_passive (f : reconnect) : bool := passive f.

(** ** Transitions *)

Definition reconnect_may_retry (f : reconnect) : bool * reconnect :=
  let may_retry := max_tries f >? 0 in
  (may_retry,
   if may_retry && negb (max_tries f =? UINT_MAX)
   then with_max_tries f (max_tries f - 1) else f).

Definition reconnect_transition__ (f : reconnect) (now : Z) (s : state) : outcome reconnect :=
  let f :=
    if bool_decide (r_state f = S_CONNECTING) then
      with_counters f (u32 (n_attempted_connections f + 1))
        (if bool_decide (s = S_ACTIVE) then u32 (n_successful_connections f + 1)
         else n_successful_connections f)
        (total_connected_duration f) (seqno f)
    else f in
  let* f :=
    if negb (eqb (is_connected_state (r_state f)) (is_connected_state s)) then
      let* dur :=
        if is_connected_state (r_state f) then
          let* d := llong (now - last_connected f) in
          let* t := llong (total_connected_duration f + d) in
          Ret (u32 t)
        else Ret (total_connected_duration f) in
      Ret (with_counters f (n_attempted_connections f) (n_successful_connections f) dur
             (u32 (seqno f + 1)))
    else Ret f in
  Ret (with_state f s now).

Definition reconnect_set_passive (f : reconnect) (pas : bool) (now : Z) : outcome reconnect :=
  if negb (eqb (passive f) pas) then
    let f := with_config f (r_name f) (min_backoff f) (max_backoff f) (probe_interval f)
               pas (info f) in
    let '(go, f) :=
      if pas then (state_in (r_state f) [S_CONNECTING; S_RECONNECT], f)
      else if bool_decide (r_state f = S_LISTENING) then reconnect_may_retry f
      else (false, f) in
    if go : bool then
      let* f := reconnect_transition__ f now S_BACKOFF in
      Ret (with_backoff f 0)
    else Ret f
  else Ret f.

Definition reconnect_is_enabled (f : reconnect) : bool := negb (bool_decide (r_state f = S_VOID)).

Definition reconnect_enable (f : reconnect) (now : Z) : outcome reconnect :=
  let '(go, f) :=
    if bool_decide (r_state f = S_VOID) then reconnect_may_retry f else (false, f) in
  if go : bool then
    let* f := reconnect_transition__ f now S_BACKOFF in
    Ret (with_backoff f 0)
  else Ret f.

Definition reconnect_disable (f : reconnect) (now : Z) : outcome reconnect :=
  if bool_decide (r_state f = S_VOID) then Ret f else reconnect_transition__ f now S_VOID.

Definition reconnect_force_reconnect (f : reconnect) (now : Z) : outcome reconnect :=
  if state_in (r_state f) [S_CONNECTING; S_ACTIVE; S_IDLE]
  then reconnect_transition__ f now S_RECONNECT else Ret f.

(** The new backoff when a connection or an attempt ends. *)
Definition next_backoff (f : reconnect) : outcome Z :=
  let* settled :=
    if is_connected_state (r_state f) then
      let* d := llong (last_activity f - last_connected f) in
      Ret ((d >=? backoff f) || passive f)
    else Ret false in
  if settled : bool then Ret (if passive f then 0 else min_backoff f)
  else if backoff f <? min_backoff f then Ret (min_backoff f)
  else if backoff f >=? Z.quot (max_backoff f) 2 then Ret (max_backoff f)
  else int_ (backoff f * 2).

(** [error] only selects a log message. *)
Definition reconnect_disconnected (f : reconnect) (now error : Z) : outcome reconnect :=
  if state_in (r_state f) [S_BACKOFF; S_VOID] then Ret f
  else
    let f := if is_connected_state (r_state f)
             then with_times f (last_activity f) (last_connected f) now else f in
    let* b := next_backoff f in
    let '(retry, f) := reconnect_may_retry (with_backoff f b) in
    reconnect_transition__ f now (if retry : bool then S_BACKOFF else S_VOID).

Definition reconnect_connecting (f : reconnect) (now : Z) : outcome reconnect :=
  if bool_decide (r_state f = S_CONNECTING) then Ret f
  else reconnect_transition__ f now S_CONNECTING.

Definition reconnect_listening (f : reconnect) (now : Z) : outcome reconnect :=
  if bool_decide (r_state f = S_LISTENING) then Ret f
  else reconnect_transition__ f now S_LISTENING.

Definition reconnect_listen_error (f : reconnect) (now error : Z) : outcome reconnect :=
  if bool_decide (r_state f = S_LISTENING) then reconnect_disconnected f now error else Ret f.

Definition reconnect_connected (f : reconnect) (now : Z) : outcome reconnect :=
  if is_connected_state (r_state f) then Ret f
  else
    let* f := reconnect_connecting f now in
    let* f := reconnect_transition__ f now S_ACTIVE in
    Ret (with_times f (last_activity f) now (last_disconnected f)).

Definition reconnect_connect_failed (f : reconnect) (now error : Z) : outcome reconnect :=
  let* f := reconnect_connecting f now in
  reconnect_disconnected f now error.

Definition reconnect_activity (f : reconnect) (now : Z) : outcome reconnect :=
  let* f := if bool_decide (r_state f = S_ACTIVE) then Ret f
            else reconnect_transition__ f now S_ACTIVE in
  Ret (with_times f now (last_connected f) (last_disconnected f)).

(** ** Timers *)

Definition reconnect_deadline__ (f : reconnect) : outcome Z :=
  let* _ := ovs_assert (negb (state_entered f =? LLONG_MIN)) in
  match r_state f with
  | S_VOID | S_LISTENING => Ret LLONG_MAX
  | S_BACKOFF => llong (state_entered f + backoff f)
  | S_CONNECTING => llong (state_entered f + Z.max 1000 (backoff f))
  | S_ACTIVE =>
      if negb (probe_interval f =? 0)
      then llong (Z.max (last_activity f) (state_entered f) + probe_interval f)
      else Ret LLONG_MAX
  | S_IDLE =>
      if negb (probe_interval f =? 0) then llong (state_entered f + probe_interval f)
      else Ret LLONG_MAX
  | S_RECONNECT => Ret (state_entered f)
  end.

(** [enum reconnect_action]; [None] is the return value 0. *)
Inductive reconnect_action := RECONNECT_CONNECT | RECONNECT_DISCONNECT | RECONNECT_PROBE.

#[global] Instance reconnect_action_eq_dec : EqDecision reconnect_action.
Proof. solve_decision. Defined.

Definition reconnect_run (f : reconnect) (now : Z)
    : outcome (option reconnect_action * reconnect) :=
  let* deadline := reconnect_deadline__ f in
  if now >=? deadline then
    match r_state f with
    | S_VOID => Ret (None, f)
    | S_BACKOFF => Ret (Some RECONNECT_CONNECT, f)
    | S_CONNECTING => Ret (Some RECONNECT_DISCONNECT, f)
    | S_ACTIVE =>
        let* f := reconnect_transition__ f now S_IDLE in
        Ret (Some RECONNECT_PROBE, f)
    | S_IDLE => Ret (Some RECONNECT_DISCONNECT, f)
    | S_RECONNECT => Ret (Some RECONNECT_DISCONNECT, f)
    | S_LISTENING => Ret (None, f)
    end
  else Ret (None, f).

Definition reconnect_timeout (f : reconnect) (now : Z) : outcome Z :=
  let* deadline := reconnect_deadline__ f in
  if negb (deadline =? LLONG_MAX) then
    let* remaining := llong (deadline - now) in
    Ret (Z.max 0 (Z.min INT_MAX remaining))
  else Ret (-1).

(** The argument [poll_timer_wait] is called with, if it is called. *)
Definition reconnect_wait (f : reconnect) (now : Z) : outcome (option Z) :=
  let* timeout := reconnect_timeout f now in
  Ret (if timeout >=? 0 then Some timeout else None).

(** ** Statistics *)

Definition reconnect_is_connected (f : reconnect) : bool := is_connected_state (r_state f).

Definition reconnect_get_last_connect_elapsed (f : reconnect) (now : Z) : outcome Z :=
  if last_connected f =? LLONG_MAX then Ret UINT_MAX
  else let* d := llong (now - last_connected f) in Ret (u32 d).

Definition reconnect_get_last_disconnect_elapsed (f : reconnect) (now : Z) : outcome Z :=
  if last_disconnected f =? LLONG_MAX then Ret UINT_MAX
  else let* d := llong (now - last_disconnected f) in Ret (u32 d).

Record reconnect_stats := mk_reconnect_stats {
  st_creation_time : Z;
  st_last_activity : Z;
  st_last_connected : Z;
  st_last_disconnected : Z;
  st_backoff : Z;
  st_seqno : Z;
  st_is_connected : bool;
  st_msec_since_connect : Z;
  st_msec_since_disconnect : Z;
  st_total_connected_duration : Z;
  st_n_attempted_connections : Z;
  st_n_successful_connections : Z;
  st_state : string;
  st_state_elapsed : Z;
}.

Definition reconnect_get_stats (f : reconnect) (now : Z) : outcome reconnect_stats :=
  let* since_connect := reconnect_get_last_connect_elapsed f now in
  let* since_disconnect := reconnect_get_last_disconnect_elapsed f now in
  let* current := if is_connected_state (r_state f)
                  then reconnect_get_last_connect_elapsed f now else Ret 0 in
  let* elapsed := llong (now - state_entered f) in
  Ret {|
    st_creation_time := creation_time f;
    st_last_activity := last_activity f;
    st_last_connected := last_connected f;
    st_last_disconnected := last_disconnected f;
    st_backoff := backoff f;
    st_seqno := seqno f;
    st_is_connected := reconnect_is_connected f;
    st_msec_since_connect := since_connect;
    st_msec_since_disconnect := since_disconnect;
    st_total_connected_duration := u32 (total_connected_duration f + current);
    st_n_attempted_connections := n_attempted_connections f;
    st_n_successful_connections := n_successful_connections f;
    st_state := reconnect_state_name__ (r_state f);
    st_state_elapsed := u32 elapsed
  |}.
