(* ===== verification/ReconnectProofs.v ===== *)
(** * The connection state machine: invariant, refinement and timers

    The calls a client makes, in any order and at non-decreasing times; the
    invariant they keep; the one-bit machine that the flag and the sequence
    number of the state machine refine. *)
From Stdlib Require Import ZArith Lia String.
From stdpp Require Import base list numbers option.
From S2P Require Import Prelude Reconnect.
Open Scope Z_scope.

(** ** Calls of a client *)

Inductive call :=
| CEnable | CDisable | CForceReconnect
| CDisconnected (error : Z) | CConnecting | CListening | CListenError (error : Z)
| CConnected | CConnectFailed (error : Z) | CActivity | CRun
| CSetPassive (b : bool) | CSetBackoff (mn mx : Z) | CSetProbeInterval (p : Z)
| CSetMaxTries (n : Z) | CSetQuiet (b : bool) | CSetName (n : option string).

Definition do_call (f : reconnect) (now : Z) (c : call) : outcome reconnect :=
  match c with
  | CEnable => reconnect_enable f now
  | CDisable => reconnect_disable f now
  | CForceReconnect => reconnect_force_reconnect f now
  | CDisconnected e => reconnect_disconnected f now e
  | CConnecting => reconnect_connecting f now
  | CListening => reconnect_listening f now
  | CListenError e => reconnect_listen_error f now e
  | CConnected => reconnect_connected f now
  | CConnectFailed e => reconnect_connect_failed f now e
  | CActivity => reconnect_activity f now
  | CRun => let* (_, f') := reconnect_run f now in Ret f'
  | CSetPassive b => reconnect_set_passive f b now
  | CSetBackoff mn mx => Ret (reconnect_set_backoff f mn mx)
  | CSetProbeInterval p => Ret (reconnect_set_probe_interval f p)
  | CSetMaxTries n => Ret (reconnect_set_max_tries f n)
  | CSetQuiet b => Ret (reconnect_set_quiet f b)
  | CSetName n => Ret (reconnect_set_name f n)
  end.

Fixpoint run_calls (f : reconnect) (l : list (Z * call)) : outcome reconnect :=
  match l with
  | [] => Ret f
  | (now, c) :: l' => let* f' := do_call f now c in run_calls f' l'
  end.

(** The arguments have their C types. *)
Definition call_typed (c : call) : bool :=
  match c with
  | CSetBackoff mn mx => in_range INT_MIN INT_MAX mn && in_range INT_MIN INT_MAX mx
  | CSetProbeInterval p => in_range INT_MIN INT_MAX p
  | CSetMaxTries n => in_range 0 UINT_MAX n
  | _ => true
  end.

(** Milliseconds are non-negative, do not go back and stay below [2^62]. *)
Fixpoint calls_ok (t : Z) (l : list (Z * call)) : bool :=
  match l with
  | [] => true
  | (now, c) :: l' => in_range t (2 ^ 62) now && call_typed c && calls_ok now l'
  end.

(** ** Invariant *)

Definition stamp_ok (now t : Z) : Prop := 0 ≤ t ≤ now.
Definition event_ok (now t : Z) : Prop := t = LLONG_MAX ∨ stamp_ok now t.

Record rinv (now : Z) (f : reconnect) : Prop := {
  ri_now : 0 ≤ now ≤ 2 ^ 62;
  ri_entered : stamp_ok now (state_entered f);
  ri_activity : stamp_ok now (last_activity f);
  ri_connected : event_ok now (last_connected f);
  ri_disconnected : event_ok now (last_disconnected f);
  ri_backoff : INT_MIN ≤ backoff f ≤ INT_MAX;
  ri_min : 1000 ≤ min_backoff f;
  ri_max : min_backoff f ≤ max_backoff f ≤ INT_MAX;
  ri_probe : probe_interval f = 0 ∨ 1000 ≤ probe_interval f ≤ INT_MAX;
  ri_tries : 0 ≤ max_tries f ≤ UINT_MAX;
  ri_total : 0 ≤ total_connected_duration f < 2 ^ 32;
  ri_seqno : 0 ≤ seqno f < 2 ^ 32;
}.

Ltac limits := unfold RECONNECT_DEFAULT_MIN_BACKOFF, RECONNECT_DEFAULT_MAX_BACKOFF,
  RECONNECT_DEFAULT_PROBE_INTERVAL, LLONG_MAX, LLONG_MIN, INT_MAX, INT_MIN, UINT_MAX in *.
Ltac stamps := unfold event_ok, stamp_ok in *.
Ltac by_rinv H := destruct H; split; stamps; simpl; limits; try lia; auto.

Lemma rinv_create t : 0 ≤ t ≤ 2 ^ 62 → rinv t (reconnect_create t).
Proof. intros Ht. split; stamps; simpl; limits; lia. Qed.

Lemma rinv_later now now' f : now ≤ now' ≤ 2 ^ 62 → rinv now f → rinv now' f.
Proof. intros Hle H. by_rinv H. Qed.

(** ** Transitions *)

Definition flip (a b : bool) : Z := if eqb a b then 0 else 1.

(** What [reconnect_transition__] leaves alone. *)
Definition same_config (f f' : reconnect) : Prop :=
  min_backoff f' = min_backoff f ∧ max_backoff f' = max_backoff f ∧
  probe_interval f' = probe_interval f ∧ passive f' = passive f.
Definition moved (f : reconnect) (now : Z) (s : state) (f' : reconnect) : Prop :=
  r_state f' = s ∧ state_entered f' = now ∧ backoff f' = backoff f ∧
  last_activity f' = last_activity f ∧ last_connected f' = last_connected f ∧
  last_disconnected f' = last_disconnected f ∧ max_tries f' = max_tries f ∧
  same_config f f' ∧
  seqno f' = u32 (seqno f + flip (is_connected_state (r_state f)) (is_connected_state s)).

Lemma transition_moved now f s :
  rinv now f → returns (reconnect_transition__ f now s) (λ f', rinv now f' ∧ moved f now s f').
Proof.
  intros H. pose proof H as H0. destruct H0. stamps. limits.
  unfold reconnect_transition__.
  set (f0 := if bool_decide _ then _ else f).
  assert (rinv now f0 ∧ moved f (state_entered f) (r_state f) f0) as [H0 Hm].
  { subst f0. unfold moved, same_config, flip. rewrite eqb_reflx, Z.add_0_r, (u32_small (seqno f)); [|lia].
    case_bool_decide; split_and!; simpl; try done; by_rinv H. }
  destruct Hm as (Es & _ & Eb & Ea & Ec & Ed & Et & (E1 & E2 & E3 & E4) & Eq).
  unfold flip in Eq. rewrite eqb_reflx, Z.add_0_r, u32_small in Eq; [|lia].
  clearbody f0.
  destruct (eqb (is_connected_state (r_state f0)) (is_connected_state s)) eqn:Ef; simpl.
  - eexists. split; [done|]. unfold moved, same_config, flip. rewrite Es in Ef. rewrite Ef.
    rewrite Z.add_0_r, (u32_small (seqno f)); [|lia].
    split; [by_rinv H0|]. split_and!; simpl; congruence.
  - pose proof (u32_range (seqno f0 + 1)). destruct (is_connected_state (r_state f0)) eqn:Ei.
    + assert (LLONG_MIN ≤ now - last_connected f0 ≤ 2 ^ 62) by (destruct H0; stamps; limits; lia).
      rewrite llong_Ret by (limits; lia). simpl.
      rewrite llong_Ret by (destruct H0; stamps; limits; lia). simpl.
      pose proof (u32_range (total_connected_duration f0 + (now - last_connected f0))).
      eexists. split; [done|]. unfold moved, same_config, flip. rewrite Es in Ei.
      rewrite Ei, Ef. split; [by_rinv H0|].
      split_and!; simpl; congruence.
    + eexists. split; [done|]. unfold moved, same_config, flip. rewrite Es in Ei.
      rewrite Ei, Ef. split; [by_rinv H0|]. split_and!; simpl; congruence.
Qed.

(** ** The one-bit machine

    [up_after u c]: whether the peer counts as connected after call [c]. *)
Definition up_after (u : bool) (c : call) : bool :=
  match c with
  | CConnected | CActivity => true
  | CDisable | CForceReconnect | CDisconnected _ | CConnecting | CListening
  | CConnectFailed _ => false
  | _ => u
  end.

(** The flag after a list of calls and how often it changed. *)
Fixpoint up_run (u : bool) (l : list (Z * call)) : bool * Z :=
  match l with
  | [] => (u, 0)
  | (_, c) :: l' =>
      let '(v, n) := up_run (up_after u c) l' in (v, flip u (up_after u c) + n)
  end.

Definition step_ok (now : Z) (f : reconnect) (u : bool) (f' : reconnect) : Prop :=
  rinv now f' ∧ reconnect_is_connected f' = u ∧
  seqno f' = u32 (seqno f + flip (reconnect_is_connected f) u).

Lemma flip_same a : flip a a = 0.
Proof. unfold flip. by rewrite eqb_reflx. Qed.
Lemma flip_range a b : 0 ≤ flip a b ≤ 1.
Proof. unfold flip. destruct (eqb a b); lia. Qed.

Lemma step_same now f f' :
  rinv now f → rinv now f' → r_state f' = r_state f → seqno f' = seqno f →
  step_ok now f (reconnect_is_connected f) f'.
Proof.
  intros H H' Es Eq. unfold step_ok, reconnect_is_connected. rewrite Es, Eq, flip_same.
  split; [done|]. split; [done|]. rewrite Z.add_0_r, u32_small; [done|]. apply H.
Qed.

Lemma step_stay now f : rinv now f → step_ok now f (reconnect_is_connected f) f.
Proof. intros H. by apply step_same. Qed.

Lemma step_trans now f u f1 v f2 :
  step_ok now f u f1 → step_ok now f1 v f2 → reconnect_is_connected f = u ∨ u = v →
  step_ok now f v f2.
Proof.
  intros (H1 & E1 & Q1) (H2 & E2 & Q2) Huv. split; [done|]. split; [done|].
  rewrite Q2, Q1, E1. unfold u32. rewrite Zplus_mod_idemp_l. f_equal.
  destruct Huv as [->| ->]; rewrite flip_same; lia.
Qed.

Lemma transition_step now f s :
  rinv now f →
  returns (reconnect_transition__ f now s) (step_ok now f (is_connected_state s)).
Proof.
  intros H. destruct (transition_moved now f s H) as (f' & -> & H' & Hm).
  exists f'. split; [done|]. destruct Hm as (Es & _ & _ & _ & _ & _ & _ & _ & Eq).
  split; [done|]. unfold reconnect_is_connected. by rewrite Es, Eq.
Qed.

Lemma returns_ret {A} (a : A) (Q : A → Prop) : Q a → returns (Ret a) Q.
Proof. intros HQ. by exists a. Qed.

(** Assignments that leave the state and the sequence number alone. *)
Lemma step_backoff now f u f' b :
  INT_MIN ≤ b ≤ INT_MAX → step_ok now f u f' → step_ok now f u (with_backoff f' b).
Proof. intros Hb (H & E & Q). split; [by_rinv H|]. done. Qed.

Lemma step_times now f u f' a c d :
  stamp_ok now a → event_ok now c → event_ok now d →
  step_ok now f u f' → step_ok now f u (with_times f' a c d).
Proof. intros Ha Hc Hd (H & E & Q). split; [by_rinv H|]. done. Qed.

Lemma may_retry_keeps now f :
  rinv now f →
  rinv now (reconnect_may_retry f).2 ∧ r_state (reconnect_may_retry f).2 = r_state f ∧
  seqno (reconnect_may_retry f).2 = seqno f.
Proof.
  intros H. unfold reconnect_may_retry. simpl.
  destruct (max_tries f >? 0) eqn:E, (max_tries f =? UINT_MAX); simpl; try done.
  apply Z.gtb_lt in E. split; [by_rinv H|done].
Qed.

Lemma next_backoff_range now f :
  rinv now f → returns (next_backoff f) (λ b, INT_MIN ≤ b ≤ INT_MAX).
Proof.
  intros H. unfold next_backoff.
  apply (returns_bind _ _ (λ _, True)).
  - destruct (is_connected_state (r_state f)); [|by apply returns_ret].
    rewrite llong_Ret by (destruct H; stamps; limits; lia). by apply returns_ret.
  - intros settled _. destruct H; stamps; limits.
    destruct settled; [apply returns_ret; destruct (passive f); lia|].
    destruct (backoff f <? min_backoff f) eqn:E1; [apply returns_ret; lia|].
    destruct (backoff f >=? Z.quot (max_backoff f) 2) eqn:E2; [apply returns_ret; lia|].
    apply Z.ltb_ge in E1. rewrite Z.geb_leb in E2. apply Z.leb_gt in E2.
    assert (2 * Z.quot (max_backoff f) 2 ≤ max_backoff f) by (apply Z.mul_quot_le; lia).
    rewrite int_Ret by (limits; lia). apply returns_ret. lia.
Qed.

Lemma disconnected_step now f e :
  rinv now f → returns (reconnect_disconnected f now e) (step_ok now f false).
Proof.
  intros H. unfold reconnect_disconnected.
  destruct (state_in (r_state f) [S_BACKOFF; S_VOID]) eqn:E.
  { apply returns_ret. replace false with (reconnect_is_connected f); [by apply step_stay|].
    unfold reconnect_is_connected. by destruct (r_state f). }
  set (f0 := if is_connected_state (r_state f) then _ else f).
  assert (rinv now f0 ∧ r_state f0 = r_state f ∧ seqno f0 = seqno f) as (H0 & Es & Eq).
  { subst f0. destruct (is_connected_state (r_state f)); [|done]. split; [by_rinv H|done]. }
  apply (returns_bind _ _ _ _ (next_backoff_range now f0 H0)). intros b Hb.
  assert (rinv now (with_backoff f0 b)) as H1 by by_rinv H0.
  pose proof (may_retry_keeps now _ H1) as (H2 & Es2 & Eq2).
  destruct (reconnect_may_retry (with_backoff f0 b)) as [retry f2]. simpl in *.
  eapply returns_mono; [apply (transition_step now f2 _ H2)|]. intros f3 H3.
  assert (step_ok now f (reconnect_is_connected f) f2) as Hs by (apply step_same; congruence || done).
  destruct retry; simpl in H3; (eapply step_trans; [exact Hs|exact H3|by left]).
Qed.

Lemma connecting_step now f :
  rinv now f → returns (reconnect_connecting f now) (step_ok now f false).
Proof.
  intros H. unfold reconnect_connecting. case_bool_decide as E.
  - apply returns_ret. replace false with (reconnect_is_connected f); [by apply step_stay|].
    unfold reconnect_is_connected. by rewrite E.
  - apply (transition_step now f S_CONNECTING H).
Qed.

Lemma retry_step now f :
  rinv now f → reconnect_is_connected f = false →
  returns (let '(go, f1) := reconnect_may_retry f in
           if go : bool then let* f2 := reconnect_transition__ f1 now S_BACKOFF in
                             Ret (with_backoff f2 0)
           else Ret f1) (step_ok now f false).
Proof.
  intros H Eu. pose proof (may_retry_keeps now f H) as (H1 & Es1 & Eq1).
  destruct (reconnect_may_retry f) as [go f1]. simpl in *.
  assert (step_ok now f false f1) as Hs by (rewrite <- Eu; by apply step_same).
  destruct go; [|by apply returns_ret].
  apply (returns_bind _ _ _ _ (transition_step now f1 S_BACKOFF H1)). intros f2 H2.
  apply returns_ret, step_backoff; [limits; lia|].
  eapply step_trans; [exact Hs|exact H2|by left].
Qed.

Lemma enable_step now f :
  rinv now f → returns (reconnect_enable f now) (step_ok now f (reconnect_is_connected f)).
Proof.
  intros H. unfold reconnect_enable. case_bool_decide as E.
  - assert (reconnect_is_connected f = false) as Eu
      by (unfold reconnect_is_connected; by rewrite E).
    rewrite Eu. by apply retry_step.
  - by apply returns_ret, step_stay.
Qed.

Lemma passive_step now f b :
  rinv now f → returns (reconnect_set_passive f b now) (step_ok now f (reconnect_is_connected f)).
Proof.
  intros H. unfold reconnect_set_passive.
  destruct (eqb (passive f) b); simpl; [by apply returns_ret, step_stay|].
  set (f0 := with_config _ _ _ _ _ _ _).
  assert (rinv now f0) as H0 by (subst f0; by_rinv H).
  assert (step_ok now f (reconnect_is_connected f) f0) as Hs by (by apply step_same).
  assert (r_state f0 = r_state f) as Es by done. rewrite <- Es in *. clearbody f0.
  destruct b.
  - destruct (state_in (r_state f0) [S_CONNECTING; S_RECONNECT]) eqn:Ei; [|by apply returns_ret].
    apply (returns_bind _ _ _ _ (transition_step now f0 S_BACKOFF H0)). intros f1 H1.
    apply returns_ret, step_backoff; [limits; lia|].
    replace (reconnect_is_connected f) with false.
    + eapply step_trans; [exact Hs|exact H1|by left].
    + unfold reconnect_is_connected. rewrite <- Es. by destruct (r_state f0).
  - case_bool_decide as E; [|by apply returns_ret].
    assert (reconnect_is_connected f = false) as Eu
      by (unfold reconnect_is_connected; by rewrite <- Es, E).
    assert (reconnect_is_connected f0 = false) as Eu0
      by (unfold reconnect_is_connected; by rewrite E).
    eapply returns_mono; [by apply retry_step|]. intros f2 H2. rewrite Eu in *.
    eapply step_trans; [exact Hs|exact H2|by left].
Qed.

Lemma activity_step now f :
  rinv now f → returns (reconnect_activity f now) (step_ok now f true).
Proof.
  intros H. unfold reconnect_activity. apply (returns_bind _ _ (step_ok now f true)).
  - case_bool_decide as E; [|by apply (transition_step now f S_ACTIVE)].
    apply returns_ret. replace true with (reconnect_is_connected f); [by apply step_stay|].
    unfold reconnect_is_connected. by rewrite E.
  - intros f1 H1. pose proof H1 as [[] _]. apply returns_ret, step_times; stamps; auto. lia.
Qed.

Lemma connected_step now f :
  rinv now f → returns (reconnect_connected f now) (step_ok now f true).
Proof.
  intros H. unfold reconnect_connected.
  destruct (is_connected_state (r_state f)) eqn:E.
  { apply returns_ret. replace true with (reconnect_is_connected f). by apply step_stay. }
  apply (returns_bind _ _ _ _ (connecting_step now f H)). intros f1 H1.
  apply (returns_bind _ _ (step_ok now f true)).
  - eapply returns_mono; [apply (transition_step now f1 S_ACTIVE), H1|]. intros f2 H2.
    eapply step_trans; [exact H1|exact H2|by left].
  - intros f2 H2. pose proof H2 as [[] _]. apply returns_ret, step_times; stamps; auto.
    right. lia.
Qed.

Lemma connect_failed_step now f e :
  rinv now f → returns (reconnect_connect_failed f now e) (step_ok now f false).
Proof.
  intros H. apply (returns_bind _ _ _ _ (connecting_step now f H)). intros f1 H1.
  eapply returns_mono; [apply (disconnected_step now f1 e), H1|]. intros f2 H2.
  eapply step_trans; [exact H1|exact H2|by right].
Qed.

(** ** Timers *)

(** The time at which the state machine next has something to say. *)
Definition deadline (f : reconnect) : option Z :=
  match r_state f with
  | S_VOID | S_LISTENING => None
  | S_BACKOFF => Some (state_entered f + backoff f)
  | S_CONNECTING => Some (state_entered f + Z.max 1000 (backoff f))
  | S_ACTIVE =>
      if probe_interval f =? 0 then None
      else Some (Z.max (last_activity f) (state_entered f) + probe_interval f)
  | S_IDLE => if probe_interval f =? 0 then None else Some (state_entered f + probe_interval f)
  | S_RECONNECT => Some (state_entered f)
  end.

(** The request it then makes. *)
Definition request (s : state) : option reconnect_action :=
  match s with
  | S_VOID | S_LISTENING => None
  | S_BACKOFF => Some RECONNECT_CONNECT
  | S_CONNECTING | S_IDLE | S_RECONNECT => Some RECONNECT_DISCONNECT
  | S_ACTIVE => Some RECONNECT_PROBE
  end.

Lemma deadline_ok now f :
  rinv now f →
  match deadline f with
  | None => reconnect_deadline__ f = Ret LLONG_MAX
  | Some d => reconnect_deadline__ f = Ret d ∧ - 2 ^ 31 ≤ d < 2 ^ 62 + 2 ^ 31
  end.
Proof.
  intros []. unfold reconnect_deadline__, deadline, stamp_ok in *.
  assert ((state_entered f =? LLONG_MIN) = false) as -> by (apply Z.eqb_neq; limits; lia).
  simpl. destruct (r_state f), (Z.eqb_spec (probe_interval f) 0); simpl; try done.
  all: limits; try rewrite llong_Ret by (limits; lia); split; [done|]; lia.
Qed.

Lemma run_early now now' f :
  rinv now f → now' < LLONG_MAX → (∀ d, deadline f = Some d → now' < d) →
  reconnect_run f now' = Ret (None, f).
Proof.
  intros H Hn Hd. pose proof (deadline_ok now f H) as Hok. unfold reconnect_run.
  destruct (deadline f) as [d|]; [destruct Hok as [-> _]|rewrite Hok]; simpl.
  - specialize (Hd d eq_refl). rewrite Z.geb_leb.
    by rewrite (proj2 (Z.leb_gt d now') Hd).
  - rewrite Z.geb_leb. by rewrite (proj2 (Z.leb_gt LLONG_MAX now') Hn).
Qed.

Lemma run_due now now' f d :
  rinv now f → now ≤ now' ≤ 2 ^ 62 → deadline f = Some d → d ≤ now' →
  returns (reconnect_run f now') (λ '(a, f'),
    a = request (r_state f) ∧ is_Some a ∧
    (if bool_decide (r_state f = S_ACTIVE) then rinv now' f' ∧ moved f now' S_IDLE f'
     else f' = f)).
Proof.
  intros H Hn Ed Hd. pose proof (deadline_ok now f H) as Hok. rewrite Ed in Hok.
  destruct Hok as [Er _]. unfold reconnect_run. rewrite Er. simpl.
  rewrite Z.geb_leb, (proj2 (Z.leb_le d now') Hd).
  unfold deadline in Ed. destruct (r_state f) eqn:Es; try done.
  all: try (eexists; split; [done|]; by split_and!).
  destruct (transition_moved now' f S_IDLE) as (f' & -> & H' & Hm).
  { by apply (rinv_later now). }
  simpl. eexists. split; [done|]. by split_and!.
Qed.

Lemma run_step now f :
  rinv now f →
  returns (reconnect_run f now) (λ '(_, f'), step_ok now f (reconnect_is_connected f) f').
Proof.
  intros H. pose proof (ri_now _ _ H).
  destruct (deadline f) as [d|] eqn:Ed.
  - destruct (decide (d ≤ now)) as [Hd|Hd].
    + eapply returns_mono; [eapply run_due; [done|lia|done|done]|].
      intros [a f'] (_ & _ & Hf). case_bool_decide as E.
      * destruct Hf as [H' (Es & _ & _ & _ & _ & _ & _ & _ & Eq)].
        unfold step_ok, reconnect_is_connected. rewrite Es, Eq, E. by split_and!.
      * subst f'. by apply step_stay.
    + rewrite (run_early now); [|done|limits; lia|].
      * by apply returns_ret, step_stay.
      * intros d' Hd'. assert (d' = d) by congruence. lia.
  - rewrite (run_early now); [|done|limits; lia|congruence].
    by apply returns_ret, step_stay.
Qed.

(** ** Every call *)

Lemma set_backoff_step now f mn mx :
  rinv now f → INT_MIN ≤ mn ≤ INT_MAX → INT_MIN ≤ mx ≤ INT_MAX →
  step_ok now f (reconnect_is_connected f) (reconnect_set_backoff f mn mx).
Proof.
  intros H Hmn Hmx. apply step_same; [done| | |]; unfold reconnect_set_backoff.
  - set (f0 := with_config _ _ _ _ _ _ _).
    assert (rinv now f0) as H0.
    { subst f0. destruct (mx =? 0), (Z.gtb_spec (Z.max mn 1000) (Z.max mx 1000)),
        (Z.gtb_spec (Z.max mn 1000) RECONNECT_DEFAULT_MAX_BACKOFF); by_rinv H. }
    clearbody f0. case_match; [by_rinv H0|done].
  - simpl. by case_match.
  - simpl. by case_match.
Qed.

Lemma do_call_step now f c :
  rinv now f → call_typed c = true →
  returns (do_call f now c) (step_ok now f (up_after (reconnect_is_connected f) c)).
Proof.
  intros H Hc. destruct c; simpl in *;
    auto using enable_step, disconnected_step, connecting_step, connected_step,
      connect_failed_step, activity_step, passive_step.
  - unfold reconnect_disable. case_bool_decide as E; [|by apply (transition_step now f S_VOID)].
    apply returns_ret. replace false with (reconnect_is_connected f); [by apply step_stay|].
    unfold reconnect_is_connected. by rewrite E.
  - unfold reconnect_force_reconnect. destruct (state_in (r_state f) [S_CONNECTING; S_ACTIVE; S_IDLE]) eqn:E.
    + by apply (transition_step now f S_RECONNECT).
    + apply returns_ret. replace false with (reconnect_is_connected f); [by apply step_stay|].
      unfold reconnect_is_connected. by destruct (r_state f).
  - unfold reconnect_listening. case_bool_decide as E; [|by apply (transition_step now f S_LISTENING)].
    apply returns_ret. replace false with (reconnect_is_connected f); [by apply step_stay|].
    unfold reconnect_is_connected. by rewrite E.
  - unfold reconnect_listen_error. case_bool_decide as E; [|by apply returns_ret, step_stay].
    replace (reconnect_is_connected f) with false; [by apply disconnected_step|].
    unfold reconnect_is_connected. by rewrite E.
  - apply (returns_bind _ _ _ _ (run_step now f H)). intros [a f'] Hf. by apply returns_ret.
  - apply andb_true_iff in Hc as [H1 H2]. apply in_range_true in H1, H2.
    by apply returns_ret, set_backoff_step.
  - apply in_range_true in Hc. apply returns_ret, step_same; try done.
    unfold reconnect_set_probe_interval. destruct (Z.eqb_spec p 0); by_rinv H.
  - apply in_range_true in Hc. apply returns_ret, step_same; try done. by_rinv H.
  - apply returns_ret, step_same; try done. by_rinv H.
  - apply returns_ret, step_same; try done. by_rinv H.
Qed.

Lemma run_calls_refines l t f :
  rinv t f → calls_ok t l = true →
  returns (run_calls f l) (λ f',
    rinv (default t (list.last (map fst l))) f' ∧
    reconnect_is_connected f' = (up_run (reconnect_is_connected f) l).1 ∧
    seqno f' = u32 (seqno f + (up_run (reconnect_is_connected f) l).2)).
Proof.
  revert t f. induction l as [|[now c] l IH]; intros t f H Hl; simpl in *.
  - apply returns_ret. split; [done|]. split; [done|].
    rewrite Z.add_0_r, u32_small; [done|]. apply H.
  - rewrite !andb_true_iff, in_range_true in Hl. destruct Hl as [[Ht Hc] Hl].
    apply (rinv_later _ now) in H; [|done].
    apply (returns_bind _ _ _ _ (do_call_step now f c H Hc)). intros f1 (H1 & E1 & Q1).
    eapply returns_mono; [apply (IH now f1 H1 Hl)|]. intros f2 (H2 & E2 & Q2).
    rewrite E1 in E2, Q2. destruct (up_run _ l) as [v n]. simpl in *.
    split; [|split; [done|]].
    { change (match map fst l with [] => Some now | _ :: _ => list.last (map fst l) end)
        with (list.last (now :: map fst l)).
      rewrite last_cons. by destruct (list.last (map fst l)). }
    rewrite Q2, Q1. unfold u32. rewrite Zplus_mod_idemp_l. f_equal. lia.
Qed.

(** ** Backoff *)

(** The backoff after an attempt that failed. *)
Definition grow (mn mx b : Z) : Z :=
  if b <? mn then mn else if b >=? Z.quot mx 2 then mx else b * 2.

(** ... after [n] of them in a row, from 0. *)
Definition backoff_after (mn mx : Z) (n : nat) : Z :=
  match n with
  | O => 0
  | S O => mn
  | S (S k) => if mn * 2 ^ Z.of_nat k >=? Z.quot mx 2 then mx else mn * 2 ^ Z.of_nat (S k)
  end.

Lemma pow2_S k : 2 ^ Z.of_nat (S k) = 2 * 2 ^ Z.of_nat k.
Proof. rewrite Nat2Z.inj_succ, Z.pow_succ_r; lia. Qed.

Lemma backoff_after_S mn mx n :
  0 < mn ≤ mx → backoff_after mn mx (S n) = grow mn mx (backoff_after mn mx n).
Proof.
  intros Hm. unfold backoff_after, grow.
  destruct n as [|[|k]]; [by rewrite (proj2 (Z.ltb_lt 0 mn)) by lia|..].
  - rewrite Z.ltb_irrefl. change (2 ^ Z.of_nat 0) with 1. change (2 ^ Z.of_nat 1) with 2.
    by rewrite Z.mul_1_r.
  - assert (0 < 2 ^ Z.of_nat k) by (apply Z.pow_pos_nonneg; lia).
    rewrite (pow2_S (S k)), (pow2_S k). rewrite !Z.geb_leb.
    destruct (Z.leb_spec (Z.quot mx 2) (mn * 2 ^ Z.of_nat k)).
    + rewrite (proj2 (Z.leb_le (Z.quot mx 2) (mn * (2 * 2 ^ Z.of_nat k)))) by nia.
      rewrite (proj2 (Z.ltb_ge mx mn)) by lia.
      rewrite (proj2 (Z.leb_le (Z.quot mx 2) mx)); [done|]. apply Z.quot_le_upper_bound; lia.
    + rewrite (proj2 (Z.ltb_ge (mn * (2 * 2 ^ Z.of_nat k)) mn)) by nia.
      destruct (Z.leb _ _); [done|]. lia.
Qed.

(** The tries left after one more failure. *)
Definition use_try (n : Z) : Z := if (n >? 0) && negb (n =? UINT_MAX) then n - 1 else n.

Lemma connecting_down now f :
  rinv now f → reconnect_is_connected f = false →
  returns (reconnect_connecting f now) (λ f', rinv now f' ∧ r_state f' = S_CONNECTING ∧
    backoff f' = backoff f ∧ max_tries f' = max_tries f ∧ same_config f f').
Proof.
  intros H Eu. unfold reconnect_connecting. case_bool_decide as E.
  - by apply returns_ret.
  - eapply returns_mono; [by apply transition_moved|].
    intros f' (H' & Es & _ & Eb & _ & _ & _ & Et & Ec & _). done.
Qed.

Lemma next_backoff_grows now f :
  rinv now f → reconnect_is_connected f = false →
  next_backoff f = Ret (grow (min_backoff f) (max_backoff f) (backoff f)).
Proof.
  intros H Eu. unfold next_backoff, grow. unfold reconnect_is_connected in Eu. rewrite Eu. simpl.
  destruct (Z.ltb_spec (backoff f) (min_backoff f)); [done|]. rewrite Z.geb_leb.
  destruct (Z.leb_spec (Z.quot (max_backoff f) 2) (backoff f)); [done|].
  apply int_Ret. destruct H; limits.
  assert (2 * Z.quot (max_backoff f) 2 ≤ max_backoff f) by (apply Z.mul_quot_le; lia). lia.
Qed.

Lemma connect_failed_backs_off now f e :
  rinv now f → reconnect_is_connected f = false →
  returns (reconnect_connect_failed f now e) (λ f', rinv now f' ∧
    r_state f' = (if max_tries f >? 0 then S_BACKOFF else S_VOID) ∧
    backoff f' = grow (min_backoff f) (max_backoff f) (backoff f) ∧
    max_tries f' = use_try (max_tries f) ∧ same_config f f').
Proof.
  intros H Eu. apply (returns_bind _ _ _ _ (connecting_down now f H Eu)).
  intros f1 (H1 & Es & Eb & Et & (E1 & E2 & E3 & E4)). unfold reconnect_disconnected.
  rewrite Es. simpl. destruct (next_backoff_range now f1 H1) as (b & Hb & Hr).
  assert (rinv now (with_backoff f1 b)) as H2 by by_rinv H1.
  assert (b = grow (min_backoff f) (max_backoff f) (backoff f)) as ->.
  { rewrite (next_backoff_grows now f1) in Hb; [congruence|done|].
    unfold reconnect_is_connected. by rewrite Es. }
  rewrite Hb. simpl. pose proof (may_retry_keeps now _ H2) as (H3 & _).
  unfold reconnect_may_retry in *. simpl in *. rewrite Et in *.
  eapply returns_mono; [apply (transition_moved now _ _ H3)|].
  intros f' (H' & Es' & _ & Eb' & _ & _ & _ & Et' & (F1 & F2 & F3 & F4) & _).
  unfold use_try, same_config.
  destruct (max_tries f >? 0), (max_tries f =? UINT_MAX); simpl in *;
    split_and!; congruence || done.
Qed.

Fixpoint tries_after (tries : Z) (n : nat) : Z :=
  match n with O => tries | S n' => use_try (tries_after tries n') end.

(** [n] attempts failed already; [length l] more, at the times [l]. *)
Lemma failures_back_off e l n tries t f :
  rinv t f → calls_ok t (map (λ now, (now, CConnectFailed e)) l) = true →
  reconnect_is_connected f = false →
  max_tries f = tries_after tries n →
  backoff f = backoff_after (min_backoff f) (max_backoff f) n →
  (n ≠ 0%nat → r_state f = if tries_after tries (pred n) >? 0 then S_BACKOFF else S_VOID) →
  returns (run_calls f (map (λ now, (now, CConnectFailed e)) l)) (λ f',
    max_tries f' = tries_after tries (n + length l) ∧
    backoff f' = backoff_after (min_backoff f) (max_backoff f) (n + length l) ∧
    ((n + length l)%nat ≠ 0%nat → r_state f' =
      if tries_after tries (pred (n + length l)) >? 0 then S_BACKOFF else S_VOID)).
Proof.
  revert n t f. induction l as [|now l IH]; intros n t f H Hl Eu Et Eb Es; simpl in *.
  - rewrite Nat.add_0_r. by apply returns_ret.
  - rewrite !andb_true_iff, in_range_true in Hl. destruct Hl as [[Ht _] Hl].
    apply (rinv_later _ now) in H; [|done].
    apply (returns_bind _ _ _ _ (connect_failed_backs_off now f e H Eu)).
    intros f1 (H1 & Es1 & Eb1 & Et1 & (E1 & E2 & _)).
    rewrite <- E1, <- E2. rewrite <- Nat.add_succ_comm. apply (IH (S n) now f1); try done.
    + unfold reconnect_is_connected. rewrite Es1. by case_match.
    + simpl. by rewrite Et1, Et.
    + rewrite E1, E2, Eb1, Eb, backoff_after_S; [done|]. destruct H. lia.
    + intros _. simpl. by rewrite Es1, Et.
Qed.

Lemma tries_unlimited n : tries_after UINT_MAX n = UINT_MAX.
Proof. induction n as [|n IH]; [done|]. simpl. rewrite IH. done. Qed.

Lemma tries_limited tries n :
  0 ≤ tries < UINT_MAX → tries_after tries n = Z.max 0 (tries - Z.of_nat n).
Proof.
  intros Ht. induction n as [|n IH]; cbn [tries_after]; [lia|].
  rewrite IH. unfold use_try.
  destruct (Z.gtb_spec (Z.max 0 (tries - Z.of_nat n)) 0),
    (Z.eqb_spec (Z.max 0 (tries - Z.of_nat n)) UINT_MAX); simpl; lia.
Qed.

(** A failed attempt is retried while there are tries left. *)
Lemma tries_left tries n :
  0 ≤ tries ≤ UINT_MAX →
  (tries_after tries n >? 0) = (tries =? UINT_MAX) || (Z.of_nat n <? tries).
Proof.
  intros Ht. destruct (Z.eqb_spec tries UINT_MAX) as [->|Hne].
  - by rewrite tries_unlimited.
  - rewrite tries_limited by lia.
    destruct (Z.gtb_spec (Z.max 0 (tries - Z.of_nat n)) 0), (Z.ltb_spec (Z.of_nat n) tries);
      simpl; try done; lia.
Qed.
