(* ===== verification/Heap.v ===== *)
(** * lib/heap.c: a max-heap with back pointers

    The array holds pointers to nodes; a node holds its priority and its index
    in the array, so that it can be removed or changed in place.  The nodes are
    objects of the client, in a store by address. *)
From Stdlib Require Import ZArith Lia.
From stdpp Require Import base list gmap numbers option.
From S2P Require Import Prelude.
Open Scope Z_scope.

Record heap_node := mkHeapNode { idx : Z; priority : Z }.

(** Data in elements 1...n, element 0 unused; [None] is uninitialised. *)
Record heap := mkHeap {
  h_array : list (option positive);
  h_n : Z;
  h_allocated : Z;
}.

Abbreviation heap_nodes := (gmap positive heap_node).

Definition heap_init : heap := mkHeap [] 0 0.
Definition heap_clear (h : heap) : heap := mkHeap (h_array h) 0 (h_allocated h).
Definition heap_swap (a b : heap) : heap * heap := (b, a).
Definition heap_count (h : heap) : Z := h_n h.
Definition heap_is_empty (h : heap) : bool := h_n h =? 0.

Definition heap_parent__ (idx : Z) : Z := idx / 2.
Definition heap_left__ (idx : Z) : Z := u64 (idx * 2).
Definition heap_right__ (idx : Z) : Z := u64 (idx * 2 + 1).
Definition heap_is_leaf__ (h : heap) (idx : Z) : bool := h_n h <? heap_left__ idx.

(** ** Memory *)

Definition array_get (h : heap) (i : Z) : outcome positive :=
  match h_array h !! Z.to_nat i with
  | None => Fault OutOfBounds
  | Some None => Fault UninitRead
  | Some (Some p) => Ret p
  end.
Definition node_get (s : heap_nodes) (p : positive) : outcome heap_node :=
  match s !! p with Some nd => Ret nd | None => Fault UseAfterFree end.

(** [heap->array[i]->priority] *)
Definition priority_at (h : heap) (s : heap_nodes) (i : Z) : outcome Z :=
  let* p := array_get h i in
  let* nd := node_get s p in
  Ret (priority nd).

Definition heap_raw_change (s : heap_nodes) (node : positive) (prio : Z) : outcome heap_nodes :=
  let* nd := node_get s node in
  Ret (<[node := mkHeapNode (idx nd) prio]> s).

Definition put_node (h : heap) (s : heap_nodes) (node : positive) (i : Z) : outcome (heap * heap_nodes) :=
  match h_array h !! Z.to_nat i with
  | None => Fault OutOfBounds
  | Some _ =>
      let* nd := node_get s node in
      Ret (mkHeap (<[Z.to_nat i := Some node]> (h_array h)) (h_n h) (h_allocated h),
           <[node := mkHeapNode i (priority nd)]> s)
  end.

Definition swap_nodes (h : heap) (s : heap_nodes) (i j : Z) : outcome (heap * heap_nodes) :=
  let* old_i := array_get h i in
  let* old_j := array_get h j in
  let* (h, s) := put_node h s old_j i in
  put_node h s old_i j.

(** ** Restoring the heap order *)

(** [i] is halved in every round. *)
Fixpoint float_up_loop (fuel : nat) (h : heap) (s : heap_nodes) (i : Z) (moved : bool)
    : outcome (bool * heap * heap_nodes) :=
  match fuel with
  | O => Diverge
  | S fuel =>
      if 1 <? i then
        let parent := heap_parent__ i in
        let* pp := priority_at h s parent in
        let* pi := priority_at h s i in
        if pi <=? pp then Ret (moved, h, s)
        else
          let* (h, s) := swap_nodes h s parent i in
          float_up_loop fuel h s parent true
      else Ret (moved, h, s)
  end.
Definition float_up (h : heap) (s : heap_nodes) (i : Z) : outcome (bool * heap * heap_nodes) :=
  float_up_loop (S (Z.to_nat i)) h s i false.

(** The larger child of [i] if it is larger than [i], else [i]. *)
Definition max_child (h : heap) (s : heap_nodes) (i : Z) : outcome Z :=
  let left := heap_left__ i in
  let right := heap_right__ i in
  let* pl := priority_at h s left in
  let* pi := priority_at h s i in
  let max := if pi <? pl then left else i in
  if right <=? h_n h then
    let* pr := priority_at h s right in
    let* pm := priority_at h s max in
    Ret (if pm <? pr then right else max)
  else Ret max.

(** [i] grows in every round. *)
Fixpoint float_down_loop (fuel : nat) (h : heap) (s : heap_nodes) (i : Z) : outcome (heap * heap_nodes) :=
  match fuel with
  | O => Diverge
  | S fuel =>
      if heap_is_leaf__ h i then Ret (h, s)
      else
        let* max := max_child h s i in
        if max =? i then Ret (h, s)
        else
          let* (h, s) := swap_nodes h s max i in
          float_down_loop fuel h s max
  end.
Definition float_down (h : heap) (s : heap_nodes) (i : Z) : outcome (heap * heap_nodes) :=
  float_down_loop (S (Z.to_nat (h_n h))) h s i.

Definition float_up_or_down (h : heap) (s : heap_nodes) (i : Z) : outcome (heap * heap_nodes) :=
  let* (moved, h, s) := float_up h s i in
  if negb moved then float_down h s i else Ret (h, s).

(** ** Operations *)

Definition heap_raw_insert (h : heap) (s : heap_nodes) (node : positive) (prio : Z)
    : outcome (heap * heap_nodes) :=
  let h :=
    if h_allocated h <=? h_n h then
      let allocated := if h_n h =? 0 then 1 else u64 (2 * h_n h) in
      mkHeap (resize (Z.to_nat (allocated + 1)) None (h_array h)) (h_n h) allocated
    else h in
  let n := u64 (h_n h + 1) in
  let* (h, s) := put_node (mkHeap (h_array h) n (h_allocated h)) s node n in
  let* s := heap_raw_change s node prio in
  Ret (h, s).

Definition heap_raw_remove (h : heap) (s : heap_nodes) (node : positive) : outcome (heap * heap_nodes) :=
  let* nd := node_get s node in
  let i := idx nd in
  let* (h, s) := if i <? h_n h then
                   let* last := array_get h (h_n h) in
                   put_node h s last i
                 else Ret (h, s) in
  Ret (mkHeap (h_array h) (u64 (h_n h - 1)) (h_allocated h), s).

Definition heap_insert (h : heap) (s : heap_nodes) (node : positive) (prio : Z) : outcome (heap * heap_nodes) :=
  let* (h, s) := heap_raw_insert h s node prio in
  let* nd := node_get s node in
  let* (_, h, s) := float_up h s (idx nd) in
  Ret (h, s).

Definition heap_remove (h : heap) (s : heap_nodes) (node : positive) : outcome (heap * heap_nodes) :=
  let* nd := node_get s node in
  let i := idx nd in
  let* (h, s) := heap_raw_remove h s node in
  if i <=? h_n h then float_up_or_down h s i else Ret (h, s).

Definition heap_change (h : heap) (s : heap_nodes) (node : positive) (prio : Z) : outcome (heap * heap_nodes) :=
  let* s := heap_raw_change s node prio in
  let* nd := node_get s node in
  float_up_or_down h s (idx nd).

Fixpoint rebuild_loop (i : nat) (h : heap) (s : heap_nodes) : outcome (heap * heap_nodes) :=
  match i with
  | O => Ret (h, s)
  | S i' => let* (h, s) := float_down h s (Z.of_nat i) in rebuild_loop i' h s
  end.
Definition heap_rebuild (h : heap) (s : heap_nodes) : outcome (heap * heap_nodes) :=
  rebuild_loop (Z.to_nat (h_n h / 2)) h s.

Definition heap_max (h : heap) : outcome positive := array_get h 1.

Definition heap_pop (h : heap) : outcome (positive * heap) :=
  let* p := array_get h (h_n h) in
  Ret (p, mkHeap (h_array h) (u64 (h_n h - 1)) (h_allocated h)).

(** [HEAP_FOR_EACH], with a node for every round. *)
Fixpoint heap_each_loop (fuel : nat) (h : heap) (s : heap_nodes) (node : positive) : outcome (list positive) :=
  match fuel with
  | O => Diverge
  | S fuel =>
      let* nd := node_get s node in
      if idx nd <? h_n h then
        let* next := array_get h (idx nd + 1) in
        let* l := heap_each_loop fuel h s next in
        Ret (node :: l)
      else Ret [node]
  end.
Definition HEAP_FOR_EACH (h : heap) (s : heap_nodes) : outcome (list positive) :=
  if 0 <? h_n h then
    let* node := array_get h 1 in
    heap_each_loop (Z.to_nat (h_n h)) h s node
  else Ret [].
