(* ===== verification/HeapProofs.v ===== *)
(** * The heap is a priority queue

    The array is described by the list of its nodes with their priorities; the
    heap order is a property of that list.  [hole_from j l i] is the order
    among the nodes whose parent is at [j] or later, except around [i]. *)
From Stdlib Require Import ZArith Lia.
From stdpp Require Import base list gmap numbers option.
From S2P Require Import Prelude Heap.
Open Scope Z_scope.

(** ** Priorities by position, from 1 *)

Abbreviation entry := (positive * Z)%type.
Implicit Types l : list entry.

Definition size_of l : Z := Z.of_nat (length l).
Definition pr l (i : Z) : Z := from_option snd 0 (l !! Z.to_nat (i - 1)).
Definition lswap l (i j : Z) : list entry :=
  match l !! Z.to_nat (i - 1), l !! Z.to_nat (j - 1) with
  | Some a, Some b => <[Z.to_nat (i - 1) := b]> (<[Z.to_nat (j - 1) := a]> l)
  | _, _ => l
  end.

Lemma pos_lookup l i : 1 ≤ i ≤ size_of l → ∃ e, l !! Z.to_nat (i - 1) = Some e.
Proof. unfold size_of. intros H. apply lookup_lt_is_Some. lia. Qed.

Lemma lswap_lookup l i j k :
  1 ≤ i ≤ size_of l → 1 ≤ j ≤ size_of l → 1 ≤ k → 
  lswap l i j !! Z.to_nat (k - 1) =
  if decide (k = i) then l !! Z.to_nat (j - 1)
  else if decide (k = j) then l !! Z.to_nat (i - 1) else l !! Z.to_nat (k - 1).
Proof.
  intros Hi Hj Hk. unfold lswap. destruct (pos_lookup l i Hi) as [a Ea], (pos_lookup l j Hj) as [b Eb].
  rewrite Ea, Eb. assert (Z.to_nat (j - 1) < length l)%nat by (unfold size_of in *; lia).
  assert (Z.to_nat (i - 1) < length l)%nat by (unfold size_of in *; lia).
  case_decide as E1; [subst; by rewrite list_lookup_insert_eq by (by rewrite length_insert)|].
  rewrite list_lookup_insert_ne by lia.
  case_decide as E2; [subst; by rewrite list_lookup_insert_eq|]. by rewrite list_lookup_insert_ne by lia.
Qed.
Lemma lswap_length l i j : size_of (lswap l i j) = size_of l.
Proof. unfold lswap, size_of. repeat case_match; by rewrite ?length_insert. Qed.
Lemma lswap_perm l i j : lswap l i j ≡ₚ l.
Proof.
  unfold lswap. destruct (l !! Z.to_nat (i - 1)) as [a|] eqn:Ea; [|done].
  destruct (l !! Z.to_nat (j - 1)) as [b|] eqn:Eb; [|done].
  destruct (decide (Z.to_nat (i - 1) = Z.to_nat (j - 1))) as [E|E].
  - rewrite E in *. rewrite Ea in Eb. injection Eb as ->. rewrite list_insert_insert_eq. by rewrite list_insert_id.
  - apply Permutation_insert_swap; done.
Qed.

Lemma pr_lswap l i j k :
  1 ≤ i ≤ size_of l → 1 ≤ j ≤ size_of l → 1 ≤ k →
  pr (lswap l i j) k = if decide (k = i) then pr l j else if decide (k = j) then pr l i else pr l k.
Proof. intros. unfold pr. rewrite lswap_lookup by done. by repeat case_decide. Qed.

(** ** The order *)

Definition ord_at l k : Prop := pr l k ≤ pr l (k / 2).
Definition child l k : Prop := 1 < k ≤ size_of l.

Definition ord_from (j : Z) l : Prop := ∀ k, child l k → j ≤ k / 2 → ord_at l k.
Definition heap_order l : Prop := ord_from 1 l.

Definition hole_from (j : Z) l (i : Z) : Prop :=
  (∀ k, child l k → j ≤ k / 2 → k ≠ i → k / 2 ≠ i → ord_at l k) ∧
  (j ≤ i / 2 → ∀ k, child l k → k / 2 = i → pr l k ≤ pr l (i / 2)).
Definition below l i : Prop := ∀ k, child l k → k / 2 = i → pr l k ≤ pr l i.
Definition above_from (j : Z) l i : Prop := j ≤ i / 2 → ord_at l i.

Lemma hole_filled j l i : hole_from j l i → below l i → above_from j l i → ord_from j l.
Proof.
  intros [H _] Hb Ha k Hk Hj. destruct (decide (k = i)) as [->|]; [by apply Ha|].
  destruct (decide (k / 2 = i)) as [E|]; [|by apply H]. unfold ord_at. rewrite E. by apply Hb.
Qed.
Lemma ord_hole j l i : 1 ≤ j → ord_from j l → hole_from j l i.
Proof.
  intros Hj H. split; [auto|]. intros Hi k Hk Hki. pose proof (H k Hk) as H1. unfold ord_at in H1. rewrite Hki in H1.
  assert (child l i) by (unfold child in *; Z.to_euclidean_division_equations; lia).
  pose proof (H i) as H2. unfold ord_at in H2.
  assert (i / 2 ≤ i) by (Z.to_euclidean_division_equations; lia). specialize (H1 ltac:(lia)). specialize (H2 ltac:(done) Hi). lia.
Qed.

(** Moving a larger node up moves the hole up. *)
Lemma swap_up l i : 1 < i ≤ size_of l → hole_from 1 l i → pr l (i / 2) < pr l i →
  hole_from 1 (lswap l (i / 2) i) (i / 2) ∧ below (lswap l (i / 2) i) (i / 2).
Proof.
  intros Hi [H1 H2] Hlt. assert (1 ≤ i / 2 < i) as Hp by (Z.to_euclidean_division_equations; lia).
  assert (∀ k, child l k → 1 ≤ k / 2 < k) as Hk2 by (unfold child; intros; Z.to_euclidean_division_equations; lia).
  unfold hole_from, below, ord_at, child in *. rewrite lswap_length. split; [split|].
  - intros k Hk Hj Hne Hne2. pose proof (Hk2 k Hk). rewrite !pr_lswap by lia.
    rewrite (decide_False (P:=k = i / 2)), (decide_False (P:=k / 2 = i / 2)) by done.
    destruct (decide (k = i)) as [->|]; [done|]. destruct (decide (k / 2 = i)) as [E|].
    + apply H2; [lia|done|done].
    + apply H1; [done|lia|done|done].
  - intros Hj k Hk Hki. pose proof (Hk2 k Hk). rewrite !pr_lswap by lia.
    assert (1 ≤ i / 2 / 2 < i / 2) by (Z.to_euclidean_division_equations; lia).
    rewrite (decide_False (P:=i / 2 / 2 = i / 2)), (decide_False (P:=i / 2 / 2 = i)), (decide_False (P:=k = i / 2)) by lia.
    assert (pr l (i / 2) ≤ pr l (i / 2 / 2)) by (apply H1; lia).
    destruct (decide (k = i)) as [->|]; [done|]. assert (pr l k ≤ pr l (k / 2)) as Hs by (apply H1; lia).
    rewrite Hki in Hs. lia.
  - intros k Hk Hki. pose proof (Hk2 k Hk). rewrite !pr_lswap by lia.
    rewrite (decide_True (P:=i / 2 = i / 2)), (decide_False (P:=k = i / 2)) by lia.
    destruct (decide (k = i)) as [->|]; [lia|]. assert (pr l k ≤ pr l (k / 2)) as Hs by (apply H1; lia).
    rewrite Hki in Hs. lia.
Qed.

(** Moving a smaller node down to its larger child moves the hole down. *)
Lemma swap_down j l i m : 1 ≤ j ≤ i → child l m → m / 2 = i → hole_from j l i → above_from j l i →
  pr l i < pr l m → (∀ k, child l k → k / 2 = i → pr l k ≤ pr l m) →
  hole_from j (lswap l m i) m ∧ above_from j (lswap l m i) m.
Proof.
  intros Hj Hm Hmi [H1 H2] Ha Hlt Hmax.
  assert (∀ k, child l k → 1 ≤ k / 2 < k) as Hk2 by (unfold child; intros; Z.to_euclidean_division_equations; lia).
  pose proof (Hk2 m Hm). unfold hole_from, above_from, ord_at, child in *. rewrite lswap_length. split; [split|].
  - intros k Hk Hjk Hne Hne2. pose proof (Hk2 k Hk). rewrite !pr_lswap by lia.
    rewrite (decide_False (P:=k = m)), (decide_False (P:=k / 2 = m)) by done.
    destruct (decide (k = i)) as [->|].
    + rewrite decide_False by lia. by apply H2.
    + destruct (decide (k / 2 = i)) as [E|]; [by apply Hmax|]. by apply H1.
  - intros Hjm k Hk Hkm. pose proof (Hk2 k Hk). rewrite !pr_lswap by lia.
    rewrite (decide_False (P:=k = m)), (decide_False (P:=k = i)), Hmi, (decide_False (P:=i = m)), (decide_True (P:=i = i)) by lia.
    assert (pr l k ≤ pr l (k / 2)) as Hs by (apply H1; lia). by rewrite Hkm in Hs.
  - intros Hjm. rewrite !pr_lswap by lia. rewrite Hmi.
    rewrite (decide_True (P:=m = m)), (decide_False (P:=i = m)), (decide_True (P:=i = i)) by lia. lia.
Qed.

(** The first node has the largest priority. *)
Lemma order_max l k : heap_order l → 1 ≤ k ≤ size_of l → pr l k ≤ pr l 1.
Proof.
  intros H. induction k as [k IH] using (well_founded_induction (Z.lt_wf 0)). intros Hk.
  destruct (decide (k = 1)) as [->|]; [done|]. assert (1 ≤ k / 2 < k) by (Z.to_euclidean_division_equations; lia).
  etrans; [apply (H k); [unfold child; lia|lia]|]. apply IH; lia.
Qed.

(** ** The array and the nodes *)

Record heap_slots (h : heap) (s : heap_nodes) l : Prop := {
  hs_n : h_n h = size_of l;
  hs_room : h_n h ≤ h_allocated h < 2 ^ 63;
  hs_array : h_allocated h = 0 ∧ h_array h = [] ∨ Z.of_nat (length (h_array h)) = h_allocated h + 1;
  hs_node : ∀ i p v, 1 ≤ i → l !! Z.to_nat (i - 1) = Some (p, v) →
    h_array h !! Z.to_nat i = Some (Some p) ∧ s !! p = Some (mkHeapNode i v);
  hs_nodup : NoDup l.*1;
}.

(** Nodes that are not in the heap are left alone, and none appears. *)
Definition nodes_frame l (s s' : heap_nodes) : Prop := ∀ p, p ∉ l.*1 → s' !! p = s !! p.

Section Slots.
Context (h : heap) (s : heap_nodes) (l : list entry).
Hypothesis HS : heap_slots h s l.

Lemma slots_array i : 1 ≤ i ≤ size_of l → (Z.to_nat i < length (h_array h))%nat.
Proof. intros Hi. pose proof (hs_room _ _ _ HS). pose proof (hs_n _ _ _ HS). destruct (hs_array _ _ _ HS) as [[? _]|?]; lia. Qed.

Lemma slots_get i : 1 ≤ i ≤ size_of l →
  ∃ p, l !! Z.to_nat (i - 1) = Some (p, pr l i) ∧ array_get h i = Ret p ∧ node_get s p = Ret (mkHeapNode i (pr l i)).
Proof.
  intros Hi. destruct (pos_lookup l i Hi) as [[p v] E]. exists p.
  assert (pr l i = v) as -> by (unfold pr; by rewrite E).
  destruct (hs_node _ _ _ HS i p v) as [Ha Hn]; [lia|done|]. unfold array_get, node_get. by rewrite Ha, Hn.
Qed.
Lemma slots_priority i : 1 ≤ i ≤ size_of l → priority_at h s i = Ret (pr l i).
Proof.
  intros Hi. destruct (slots_get i Hi) as (p & _ & Ha & Hn). unfold priority_at. rewrite Ha. cbn [obind]. by rewrite Hn.
Qed.

Lemma slots_inj i j p v w : 1 ≤ i → 1 ≤ j →
  l !! Z.to_nat (i - 1) = Some (p, v) → l !! Z.to_nat (j - 1) = Some (p, w) → i = j.
Proof.
  intros Hi Hj Ei Ej. assert (Z.to_nat (i - 1) = Z.to_nat (j - 1)); [|lia].
  apply (NoDup_lookup l.*1 _ _ p (hs_nodup _ _ _ HS)); rewrite list_lookup_fmap; by rewrite ?Ei, ?Ej.
Qed.

(** Two nodes change places. *)
Lemma swap_nodes_spec i j : 1 ≤ i ≤ size_of l → 1 ≤ j ≤ size_of l → i ≠ j →
  returns (swap_nodes h s i j) (λ '(h', s'),
    heap_slots h' s' (lswap l i j) ∧ nodes_frame l s s' ∧ h_n h' = h_n h ∧ h_allocated h' = h_allocated h).
Proof.
  intros Hi Hj Hne. destruct (slots_get i Hi) as (p & Ei & Ai & Ni), (slots_get j Hj) as (q & Ej & Aj & Nj).
  assert (p ≠ q) as Hpq by (intros ->; by pose proof (slots_inj i j q _ _ ltac:(lia) ltac:(lia) Ei Ej)).
  pose proof (slots_array i Hi) as Li. pose proof (slots_array j Hj) as Lj.
  unfold swap_nodes. rewrite Ai, Aj. cbn [obind]. unfold put_node.
  destruct (lookup_lt_is_Some_2 _ _ Li) as [x ->]. rewrite Nj. cbn [obind h_array].
  rewrite list_lookup_insert_ne by lia. destruct (lookup_lt_is_Some_2 _ _ Lj) as [y ->].
  unfold node_get in *. rewrite lookup_insert_ne by done. destruct (s !! p) as [np|] eqn:Ep; [|done]. injection Ni as ->.
  cbn [obind]. eexists. split; [done|]. cbn [h_n h_allocated priority]. split_and!; [|intros r Hr|done..].
  - split; cbn [h_n h_allocated h_array]; [rewrite lswap_length; apply HS|apply HS| | |].
    + right. rewrite !length_insert. destruct (hs_array _ _ _ HS) as [[_ HA]|?]; [by rewrite HA in Li; apply Nat.nlt_0_r in Li|done].
    + intros k r v Hk E. rewrite lswap_lookup in E by lia. destruct (decide (k = i)) as [->|].
      { rewrite Ej in E. injection E as <- <-. rewrite list_lookup_insert_ne, list_lookup_insert_eq by lia.
        by rewrite lookup_insert_ne, lookup_insert_eq by done. }
      destruct (decide (k = j)) as [->|].
      { rewrite Ei in E. injection E as <- <-. rewrite list_lookup_insert_eq by (by rewrite length_insert).
        by rewrite lookup_insert_eq. }
      destruct (hs_node _ _ _ HS k r v Hk E) as [Ha Hn]. rewrite !list_lookup_insert_ne by lia. split; [done|].
      assert (r ≠ p) by (intros ->; by pose proof (slots_inj k i p _ _ Hk ltac:(lia) E Ei)).
      assert (r ≠ q) by (intros ->; by pose proof (slots_inj k j q _ _ Hk ltac:(lia) E Ej)).
      by rewrite !lookup_insert_ne by done.
    + rewrite lswap_perm. apply HS.
  - assert (r ≠ p) by (intros ->; apply Hr, list_elem_of_fmap; exists (p, pr l i); split; [done|by eapply list_elem_of_lookup_2]).
    assert (r ≠ q) by (intros ->; apply Hr, list_elem_of_fmap; exists (q, pr l j); split; [done|by eapply list_elem_of_lookup_2]).
    by rewrite !lookup_insert_ne by done.
Qed.
End Slots.

Lemma heap_frame_trans l l' s1 s2 s3 : l' ≡ₚ l → nodes_frame l s1 s2 → nodes_frame l' s2 s3 → nodes_frame l s1 s3.
Proof. intros Hp H1 H2 p Hn. rewrite H2; [by apply H1|]. by rewrite Hp. Qed.

Lemma float_up_loop_spec fuel h s l i moved :
  heap_slots h s l → 1 ≤ i ≤ size_of l → i < Z.of_nat fuel →
  hole_from 1 l i → below l i →
  returns (float_up_loop fuel h s i moved) (λ '(m', h', s'),
    (moved = true → m' = true) ∧ ∃ l', heap_slots h' s' l' ∧ l' ≡ₚ l ∧ nodes_frame l s s' ∧ heap_order l').
Proof.
  revert h s l i moved. induction fuel as [|fuel IH]; intros h s l i moved HS Hi Hf Hh Hb; [lia|].
  cbn [float_up_loop]. destruct (Z.ltb_spec 1 i) as [H1|H1].
  - assert (1 ≤ i / 2 < i) as Hp by (Z.to_euclidean_division_equations; lia). unfold heap_parent__.
    rewrite !(slots_priority _ _ _ HS) by lia. cbn [obind]. destruct (Z.leb_spec (pr l i) (pr l (i / 2))) as [Hle|Hlt].
    + eexists. split; [done|]. split; [done|]. exists l. split_and!; [done|done|done|]. apply (hole_filled 1 l i Hh Hb). by intros _.
    + eapply returns_bind; [apply (swap_nodes_spec _ _ _ HS (i / 2) i); lia|].
      intros [h1 s1] (HS1 & HF1 & _). cbn beta iota.
      destruct (swap_up l i ltac:(lia) Hh Hlt) as [Hh1 Hb1].
      eapply returns_mono; [apply (IH _ _ _ _ _ HS1); [rewrite lswap_length; lia|lia|done|done]|].
      intros [[m' h2] s2] (Hm & l2 & HS2 & P2 & HF2 & HO). split; [auto|]. exists l2. split_and!; [done| | |done].
      * rewrite P2. apply lswap_perm.
      * eapply heap_frame_trans; [apply lswap_perm|done|done].
  - eexists. split; [done|]. split; [done|]. exists l. split_and!; [done|done|done|].
    apply (hole_filled 1 l i Hh Hb). intros Hi2. Z.to_euclidean_division_equations. lia.
Qed.

(** The children of [i]. *)
Lemma children l i k : 1 ≤ i → child l k → k / 2 = i ↔ k = 2 * i ∨ k = 2 * i + 1.
Proof. unfold child. intros. split; intros; Z.to_euclidean_division_equations; lia. Qed.

Section Down.
Context (h : heap) (s : heap_nodes) (l : list entry) (i : Z).
Hypothesis HS : heap_slots h s l.
Hypothesis Hi : 1 ≤ i ≤ size_of l.

Lemma size_range : 0 ≤ size_of l < 2 ^ 63.
Proof. pose proof (hs_room _ _ _ HS). pose proof (hs_n _ _ _ HS). unfold size_of in *. lia. Qed.

Lemma leaf_spec : heap_is_leaf__ h i = (size_of l <? 2 * i).
Proof.
  pose proof size_range. unfold heap_is_leaf__, heap_left__. rewrite u64_small, (hs_n _ _ _ HS) by lia. f_equal. lia.
Qed.

Lemma max_child_spec : 2 * i ≤ size_of l →
  ∃ m, max_child h s i = Ret m ∧ (m = i ∧ below l i ∨
    child l m ∧ m / 2 = i ∧ pr l i < pr l m ∧ ∀ k, child l k → k / 2 = i → pr l k ≤ pr l m).
Proof.
  intros Hl. pose proof size_range as Hsz. unfold max_child, heap_left__, heap_right__. rewrite !u64_small by lia.
  replace (i * 2) with (2 * i) by lia. rewrite !(slots_priority _ _ _ HS), (hs_n _ _ _ HS) by lia. cbn [obind].
  destruct (Z.leb_spec (2 * i + 1) (size_of l)) as [Hr|Hr].
  - rewrite (slots_priority _ _ _ HS (2 * i + 1)) by lia. cbn [obind].
    assert (priority_at h s (if pr l i <? pr l (2 * i) then 2 * i else i) =
      Ret (pr l (if pr l i <? pr l (2 * i) then 2 * i else i))) as ->
      by (destruct (_ <? _); apply (slots_priority _ _ _ HS); lia). cbn [obind].
    eexists. split; [done|]. unfold below.
    destruct (Z.ltb_spec (pr l i) (pr l (2 * i)));
      [destruct (Z.ltb_spec (pr l (2 * i)) (pr l (2 * i + 1)))|destruct (Z.ltb_spec (pr l i) (pr l (2 * i + 1)))].
    all: try (right; split_and!; [unfold child; lia|Z.to_euclidean_division_equations; lia|lia|]).
    all: try (left; split; [done|]).
    all: intros k Hk Hki; apply (children l) in Hki as [-> | ->]; try done; lia.
  - eexists. split; [done|]. unfold below.
    destruct (Z.ltb_spec (pr l i) (pr l (2 * i)));
      first [left; split; [done|]; intros k Hk Hki; apply (children l) in Hki as [-> | ->]; unfold child in *; lia
            |right; split_and!; [unfold child; lia|Z.to_euclidean_division_equations; lia|lia|];
             intros k Hk Hki; apply (children l) in Hki as [-> | ->]; unfold child in *; lia].
Qed.
End Down.

Lemma float_down_loop_spec fuel j h s l i :
  heap_slots h s l → 1 ≤ j ≤ i → i ≤ size_of l → size_of l - i < Z.of_nat fuel →
  hole_from j l i → above_from j l i →
  returns (float_down_loop fuel h s i) (λ '(h', s'),
    ∃ l', heap_slots h' s' l' ∧ l' ≡ₚ l ∧ nodes_frame l s s' ∧ ord_from j l').
Proof.
  revert h s l i. induction fuel as [|fuel IH]; intros h s l i HS Hj Hi Hf Hh Ha; [lia|].
  cbn [float_down_loop]. rewrite (leaf_spec h s l i HS) by lia. destruct (Z.ltb_spec (size_of l) (2 * i)) as [Hl|Hl].
  - eexists. split; [done|]. exists l. split_and!; [done|done|done|]. apply (hole_filled j l i Hh); [|done].
    intros k Hk Hki. apply (children l) in Hki as [-> | ->]; unfold child in *; lia.
  - destruct (max_child_spec h s l i HS ltac:(lia) Hl) as (m & -> & Hm). cbn [obind].
    destruct Hm as [[-> Hb]|(Hm & Hmi & Hlt & Hmax)].
    { rewrite Z.eqb_refl. eexists. split; [done|]. exists l. split_and!; [done|done|done|]. by apply (hole_filled j l i). }
    assert (i < m) by (unfold child in *; Z.to_euclidean_division_equations; lia).
    rewrite (proj2 (Z.eqb_neq m i)) by lia.
    eapply returns_bind; [apply (swap_nodes_spec _ _ _ HS m i); unfold child in *; lia|].
    intros [h1 s1] (HS1 & HF1 & _). cbn beta iota.
    destruct (swap_down j l i m Hj Hm Hmi Hh Ha Hlt Hmax) as [Hh1 Ha1].
    eapply returns_mono; [apply (IH _ _ _ _ HS1); [lia|rewrite lswap_length; unfold child in *; lia|rewrite lswap_length; lia|done|done]|].
    intros [h2 s2] (l2 & HS2 & P2 & HF2 & HO). exists l2. split_and!; [done| | |done].
    + rewrite P2. apply lswap_perm.
    + eapply heap_frame_trans; [apply lswap_perm|done|done].
Qed.
Lemma float_down_spec j h s l i :
  heap_slots h s l → 1 ≤ j ≤ i → i ≤ size_of l → hole_from j l i → above_from j l i →
  returns (float_down h s i) (λ '(h', s'),
    ∃ l', heap_slots h' s' l' ∧ l' ≡ₚ l ∧ nodes_frame l s s' ∧ ord_from j l').
Proof. intros HS Hj Hi. apply float_down_loop_spec; [done|done|done|]. rewrite (hs_n _ _ _ HS). lia. Qed.

(** [float_up_or_down] restores the order after a change of one node. *)
Lemma float_up_or_down_spec h s l i :
  heap_slots h s l → 1 ≤ i ≤ size_of l → hole_from 1 l i →
  returns (float_up_or_down h s i) (λ '(h', s'),
    ∃ l', heap_slots h' s' l' ∧ l' ≡ₚ l ∧ nodes_frame l s s' ∧ heap_order l').
Proof.
  intros HS Hi Hh. unfold float_up_or_down, float_up. cbn [float_up_loop].
  destruct (Z.ltb_spec 1 i) as [H1|H1].
  - assert (1 ≤ i / 2 < i) as Hp by (Z.to_euclidean_division_equations; lia). unfold heap_parent__.
    rewrite !(slots_priority _ _ _ HS) by lia. cbn [obind]. destruct (Z.leb_spec (pr l i) (pr l (i / 2))) as [Hle|Hlt].
    + cbn [obind negb]. apply (float_down_spec 1); [done|lia|lia|done|by intros _].
    + destruct (swap_nodes_spec _ _ _ HS (i / 2) i) as ([h1 s1] & -> & HS1 & HF1 & _); [lia..|]. cbn [obind].
      destruct (swap_up l i ltac:(lia) Hh Hlt) as [Hh1 Hb1].
      eapply returns_bind; [apply (float_up_loop_spec _ _ _ _ _ true HS1); [rewrite lswap_length; lia|lia|done|done]|].
      intros [[m' h2] s2] (Hm & l2 & HS2 & P2 & HF2 & HO). rewrite (Hm eq_refl). cbn [negb].
      eexists. split; [done|]. exists l2. split_and!; [done| | |done].
      * rewrite P2. apply lswap_perm.
      * eapply heap_frame_trans; [apply lswap_perm|done|done].
  - cbn [obind negb]. apply (float_down_spec 1); [done|lia|lia|done|]. intros Hi2. Z.to_euclidean_division_equations. lia.
Qed.

(** ** The raw operations *)

Lemma raw_change_slots h s l i p v v' :
  heap_slots h s l → 1 ≤ i → l !! Z.to_nat (i - 1) = Some (p, v) →
  ∃ s', heap_raw_change s p v' = Ret s' ∧ heap_slots h s' (<[Z.to_nat (i - 1) := (p, v')]> l) ∧
    s' !! p = Some (mkHeapNode i v') ∧ ∀ q, q ≠ p → s' !! q = s !! q.
Proof.
  intros HS Hi E. destruct (hs_node _ _ _ HS i p v Hi E) as [Ha Hn]. unfold heap_raw_change, node_get. rewrite Hn.
  cbn [obind idx]. eexists. split; [done|]. split_and!; [|apply lookup_insert_eq|intros; by apply lookup_insert_ne].
  split; [unfold size_of; rewrite length_insert; apply HS|apply HS|apply HS| |].
  - intros k q w Hk Ek. destruct (decide (k = i)) as [->|].
    + rewrite list_lookup_insert_eq in Ek by (by eapply lookup_lt_Some). injection Ek as <- <-. by rewrite lookup_insert_eq.
    + rewrite list_lookup_insert_ne in Ek by lia. destruct (hs_node _ _ _ HS k q w Hk Ek) as [Hak Hnk].
      rewrite lookup_insert_ne; [done|]. intros ->. by pose proof (slots_inj _ _ _ HS k i q w v Hk Hi Ek E).
  - rewrite list_fmap_insert. cbn [fst]. rewrite list_insert_id; [apply HS|]. by rewrite list_lookup_fmap, E.
Qed.

Lemma raw_insert_slots h s l p v :
  heap_slots h s l → p ∉ l.*1 → is_Some (s !! p) → size_of l < 2 ^ 62 →
  ∃ h' s', heap_raw_insert h s p v = Ret (h', s') ∧ heap_slots h' s' (l ++ [(p, v)]) ∧
    s' !! p = Some (mkHeapNode (size_of l + 1) v) ∧ ∀ q, q ≠ p → s' !! q = s !! q.
Proof.
  intros HS Hp [nd Hnd] Hsz. pose proof (hs_room _ _ _ HS) as Hroom. pose proof (hs_n _ _ _ HS) as Hn.
  assert (0 ≤ size_of l) by (unfold size_of; lia). unfold heap_raw_insert.
  set (h1 := if h_allocated h <=? h_n h then _ else h).
  assert (h_n h1 = size_of l ∧ size_of l + 1 ≤ h_allocated h1 < 2 ^ 63 ∧
    Z.of_nat (length (h_array h1)) = h_allocated h1 + 1 ∧
    ∀ i x, h_array h !! i = Some x → h_array h1 !! i = Some x) as (Hn1 & Ha1 & Hl1 & Hx1).
  { subst h1. destruct (Z.leb_spec (h_allocated h) (h_n h)); cbn [h_n h_allocated h_array].
    - set (a := if h_n h =? 0 then 1 else u64 (2 * h_n h)).
      assert (a = if h_n h =? 0 then 1 else 2 * h_n h) as Ea by (subst a; rewrite u64_small by lia; done). clearbody a.
      assert (size_of l + 1 ≤ a < 2 ^ 63) by (rewrite Ea; destruct (Z.eqb_spec (h_n h) 0); lia).
      split_and!; [done|lia|lia|rewrite length_resize; lia|].
      intros i x Hi. rewrite lookup_resize; [done| |by eapply lookup_lt_Some].
      apply lookup_lt_Some in Hi. pose proof (hs_array _ _ _ HS) as [[_ HA]|HA]; [by rewrite HA in Hi; apply Nat.nlt_0_r in Hi|lia].
    - split_and!; [done|lia|lia| |done]. destruct (hs_array _ _ _ HS) as [[? _]|?]; lia. }
  clearbody h1. rewrite Hn1, u64_small by lia. unfold put_node. cbn [h_array].
  destruct (lookup_lt_is_Some_2 (h_array h1) (Z.to_nat (size_of l + 1))) as [x ->]; [lia|].
  unfold heap_raw_change, node_get. rewrite Hnd. cbn [obind]. rewrite lookup_insert_eq. cbn [obind idx h_n h_allocated h_array].
  rewrite insert_insert_eq. do 2 eexists. split; [done|].
  split_and!; [|apply lookup_insert_eq|intros; by apply lookup_insert_ne].
  split; cbn [h_n h_allocated h_array].
  - unfold size_of. rewrite length_app. simpl. lia.
  - lia.
  - right. by rewrite length_insert.
  - intros i q w Hi E. apply lookup_app_Some in E as [E|[Hge E]].
    + pose proof (lookup_lt_Some _ _ _ E). destruct (hs_node _ _ _ HS i q w Hi E) as [Ha Hs].
      unfold size_of in *. rewrite list_lookup_insert_ne by lia. split; [by apply Hx1|].
      rewrite lookup_insert_ne; [done|]. intros <-. apply Hp, list_elem_of_fmap. exists (p, w).
      split; [done|by eapply list_elem_of_lookup_2].
    + apply list_lookup_singleton_Some in E as [E0 [= -> ->]]. assert (i = size_of l + 1) as -> by (unfold size_of; lia).
      rewrite list_lookup_insert_eq by lia. by rewrite lookup_insert_eq.
  - rewrite fmap_app. apply list.NoDup_app. split_and!; [apply HS| |by apply NoDup_singleton].
    cbn. intros q Hq ->%list_elem_of_singleton. done.
Qed.

(** The last node takes the place of the one at [i]. *)
Definition lremove l (i : Z) : list entry :=
  match list.last l with
  | Some e => take (length l - 1) (<[Z.to_nat (i - 1) := e]> l)
  | None => l
  end.

Lemma lremove_length l i : l ≠ [] → size_of (lremove l i) = size_of l - 1.
Proof.
  intros Hl. unfold lremove, size_of. destruct (list.last l) as [e|] eqn:E.
  - rewrite length_take, length_insert. assert (length l ≠ 0%nat) by (by destruct l). lia.
  - apply last_None in E. done.
Qed.
Lemma last_at l e : list.last l = Some e → l !! Z.to_nat (size_of l - 1) = Some e.
Proof. intros H. rewrite <-H, last_lookup. f_equal. unfold size_of. lia. Qed.

Lemma lremove_lookup l i e k : 1 ≤ i ≤ size_of l → list.last l = Some e → 1 ≤ k < size_of l →
  lremove l i !! Z.to_nat (k - 1) = if decide (k = i) then Some e else l !! Z.to_nat (k - 1).
Proof.
  intros Hi He Hk. unfold lremove, size_of in *. rewrite He, lookup_take_lt by lia.
  case_decide; [subst; by rewrite list_lookup_insert_eq by lia|by rewrite list_lookup_insert_ne by lia].
Qed.

Lemma lremove_perm l i e : 1 ≤ i → l !! Z.to_nat (i - 1) = Some e → e :: lremove l i ≡ₚ l.
Proof.
  intros Hi E. assert (l ≠ []) as Hne by (by intros ->). unfold lremove.
  destruct (list.last l) as [e'|] eqn:El; [|by apply last_None in El].
  destruct (last_Some l e') as [(l0 & ->) _]; [done|]. rewrite length_app. cbn [length].
  replace (length l0 + 1 - 1)%nat with (length l0) by lia.
  destruct (decide (Z.to_nat (i - 1) < length l0)%nat) as [Hlt|Hge].
  - rewrite lookup_app_l in E by done. rewrite insert_app_l, take_app_length' by (by rewrite ?length_insert).
    rewrite insert_take_drop by done. set (n := Z.to_nat (i - 1)) in *.
    transitivity ((take n l0 ++ e :: drop (S n) l0) ++ [e']); [|by rewrite take_drop_middle].
    rewrite <-(Permutation_middle _ (drop (S n) l0) e'), <-(Permutation_middle _ (drop (S n) l0) e).
    rewrite <-Permutation_cons_append. constructor.
  - assert (Z.to_nat (i - 1) = length l0) as Hi0.
    { apply lookup_lt_Some in E. rewrite length_app in E. simpl in E. lia. }
    rewrite Hi0 in *. rewrite lookup_app_r, Nat.sub_diag in E by lia. injection E as ->.
    rewrite list_insert_id by (rewrite lookup_app_r, Nat.sub_diag by lia; done).
    rewrite take_app_length. by rewrite Permutation_app_comm.
Qed.

Lemma raw_remove_slots h s l i p v :
  heap_slots h s l → 1 ≤ i → l !! Z.to_nat (i - 1) = Some (p, v) →
  ∃ h' s', heap_raw_remove h s p = Ret (h', s') ∧ heap_slots h' s' (lremove l i) ∧ ∀ q, q ∉ l.*1 ∨ q = p → s' !! q = s !! q.
Proof.
  intros HS Hi E. pose proof (hs_room _ _ _ HS) as Hroom. pose proof (hs_n _ _ _ HS) as Hn.
  destruct (hs_node _ _ _ HS i p v Hi E) as [Ha Hs].
  assert (1 ≤ i ≤ size_of l) as Hi' by (apply lookup_lt_Some in E; unfold size_of; lia).
  assert (l ≠ []) as Hne by (by intros ->). destruct (list.last l) as [[q w]|] eqn:El; [|by apply last_None in El].
  pose proof (last_at _ _ El) as Eq. pose proof (lremove_length l i Hne) as Hlen.
  destruct (hs_node _ _ _ HS (size_of l) q w) as [Haq Hsq]; [lia|done|].
  unfold heap_raw_remove, node_get. rewrite Hs. cbn [obind idx].
  destruct (Z.ltb_spec i (h_n h)) as [Hlt|Hge].
  - assert (q ≠ p) as Hqp by (intros ->; pose proof (slots_inj _ _ _ HS i (size_of l) p v w Hi ltac:(lia) E Eq); lia).
    unfold array_get, put_node, node_get. rewrite Hn, Haq. cbn [obind]. rewrite Ha, Hsq. cbn [obind h_n h_array h_allocated priority].
    rewrite u64_small by lia. do 2 eexists. split; [done|]. split.
    + split; cbn [h_n h_array h_allocated]; [lia|lia| | |].
      * rewrite length_insert. destruct (hs_array _ _ _ HS) as [[? _]|?]; [lia|by right].
      * intros k r x Hk Ek. pose proof (lookup_lt_Some _ _ _ Ek). assert (k < size_of l) by (unfold size_of in *; lia).
        rewrite (lremove_lookup l i (q, w)) in Ek by (done || lia).
        case_decide as Hki; [subst; injection Ek as <- <-; rewrite list_lookup_insert_eq by (by eapply lookup_lt_Some);
          by rewrite lookup_insert_eq|].
        destruct (hs_node _ _ _ HS k r x Hk Ek) as [Hak Hnk]. rewrite list_lookup_insert_ne by lia. split; [done|].
        rewrite lookup_insert_ne; [done|]. intros <-. pose proof (slots_inj _ _ _ HS k (size_of l) q x w Hk ltac:(lia) Ek Eq). lia.
      * pose proof (lremove_perm l i _ Hi E) as HP. pose proof (hs_nodup _ _ _ HS) as HN.
        rewrite <-HP in HN. by apply list.NoDup_cons in HN as [_ HN].
    + intros r Hr. rewrite lookup_insert_ne; [done|]. intros <-. destruct Hr as [Hr|Hr]; [|congruence].
      apply Hr, list_elem_of_fmap. exists (q, w). split; [done|by eapply list_elem_of_lookup_2].
  - assert (i = size_of l) as -> by lia. rewrite Eq in E. injection E as -> ->.
    cbn [obind]. rewrite u64_small by lia. do 2 eexists. split; [done|]. split; [|done].
    split; cbn [h_n h_array h_allocated]; [lia|lia|apply HS| |].
    + intros k r x Hk Ek. pose proof (lookup_lt_Some _ _ _ Ek). assert (k < size_of l) by (unfold size_of in *; lia).
      rewrite (lremove_lookup l (size_of l) (p, v)) in Ek by (done || lia). rewrite decide_False in Ek by lia. by apply HS.
    + pose proof (lremove_perm l _ _ Hi Eq) as HP. pose proof (hs_nodup _ _ _ HS) as HN.
      rewrite <-HP in HN. by apply list.NoDup_cons in HN as [_ HN].
Qed.

(** ** The edits leave one hole *)

Lemma hole_at l l' i : heap_order l → size_of l' ≤ size_of l → 1 ≤ i →
  (∀ k, 1 ≤ k ≤ size_of l' → k ≠ i → pr l' k = pr l k) → hole_from 1 l' i.
Proof.
  intros HO Hsz Hi Hpr. destruct (ord_hole 1 l i ltac:(lia) HO) as [H1 H2]. unfold hole_from, child, ord_at in *. split.
  - intros k Hk Hj Hne Hne2. assert (k / 2 < k) by (Z.to_euclidean_division_equations; lia).
    rewrite !Hpr by lia. apply H1; unfold child; lia.
  - intros Hj k Hk Hki. assert (i / 2 < i < k) by (Z.to_euclidean_division_equations; lia).
    rewrite !Hpr by lia. apply H2; unfold child; lia.
Qed.

Lemma pr_insert l i e k : 1 ≤ i ≤ size_of l → 1 ≤ k →
  pr (<[Z.to_nat (i - 1) := e]> l) k = if decide (k = i) then snd e else pr l k.
Proof.
  intros Hi Hk. unfold pr, size_of in *. case_decide; [subst; by rewrite list_lookup_insert_eq by lia|].
  by rewrite list_lookup_insert_ne by lia.
Qed.
Lemma pr_lremove l i k : 1 ≤ i ≤ size_of l → 1 ≤ k < size_of l → k ≠ i → pr (lremove l i) k = pr l k.
Proof.
  intros Hi Hk Hne. destruct (list.last l) as [e|] eqn:El.
  - unfold pr. by rewrite (lremove_lookup l i e), decide_False by (done || lia).
  - unfold lremove. by rewrite El.
Qed.
Lemma lremove_last_order l : l ≠ [] → heap_order l → heap_order (lremove l (size_of l)).
Proof.
  intros Hne HO k Hk Hj. unfold child, ord_at in *. rewrite lremove_length in Hk by done.
  assert (1 ≤ k / 2 < k) by (Z.to_euclidean_division_equations; lia).
  rewrite !pr_lremove by lia. apply HO; [unfold child; lia|lia].
Qed.
Lemma pr_app l e k : 1 ≤ k ≤ size_of l → pr (l ++ [e]) k = pr l k.
Proof. intros Hk. unfold pr, size_of in *. by rewrite lookup_app_l by lia. Qed.
Lemma size_app l e : size_of (l ++ [e]) = size_of l + 1.
Proof. unfold size_of. rewrite length_app. simpl. lia. Qed.

Lemma app_hole l e : heap_order l →
  hole_from 1 (l ++ [e]) (size_of l + 1) ∧ below (l ++ [e]) (size_of l + 1).
Proof.
  intros HO. assert (0 ≤ size_of l) by (unfold size_of; lia). unfold hole_from, below, child. rewrite size_app. split; [split|].
  - intros k Hk Hj Hne _. assert (1 ≤ k / 2 < k) by (Z.to_euclidean_division_equations; lia).
    unfold ord_at. rewrite !pr_app by lia. apply HO; [unfold child; lia|lia].
  - intros _ k Hk Hki. Z.to_euclidean_division_equations. lia.
  - intros k Hk Hki. Z.to_euclidean_division_equations. lia.
Qed.

(** ** The heap as a map from nodes to priorities *)

Definition heap_rep (h : heap) (s : heap_nodes) (m : gmap positive Z) : Prop :=
  ∃ l, heap_slots h s l ∧ heap_order l ∧ l ≡ₚ map_to_list m.

Lemma heap_rep_lookup l (m : gmap positive Z) p v : l ≡ₚ map_to_list m → (p, v) ∈ l ↔ m !! p = Some v.
Proof. intros ->. apply elem_of_map_to_list. Qed.
Lemma rep_keys l (m : gmap positive Z) p : l ≡ₚ map_to_list m → p ∈ l.*1 ↔ is_Some (m !! p).
Proof.
  intros HP. rewrite list_elem_of_fmap. split.
  - intros ([q v] & -> & H). exists v. by apply (heap_rep_lookup l).
  - intros [v H]. exists (p, v). split; [done|]. by apply (heap_rep_lookup l m).
Qed.
Lemma rep_position l (m : gmap positive Z) p v : l ≡ₚ map_to_list m → m !! p = Some v →
  ∃ i, 1 ≤ i ≤ size_of l ∧ l !! Z.to_nat (i - 1) = Some (p, v).
Proof.
  intros HP Hp. apply (heap_rep_lookup l m p v HP), list_elem_of_lookup_1 in Hp as [i Hi]. exists (Z.of_nat i + 1).
  pose proof (lookup_lt_Some _ _ _ Hi). unfold size_of. split; [lia|]. by replace (Z.to_nat (Z.of_nat i + 1 - 1)) with i by lia.
Qed.
Lemma rep_size l (m : gmap positive Z) : l ≡ₚ map_to_list m → size_of l = Z.of_nat (size m).
Proof. intros HP. unfold size_of. by rewrite HP, length_map_to_list. Qed.

Lemma rep_delete r (m : gmap positive Z) p v : (p, v) :: r ≡ₚ map_to_list m → r ≡ₚ map_to_list (delete p m).
Proof.
  intros HP. assert (m !! p = Some v) as Hp by (apply elem_of_map_to_list; rewrite <-HP; by left).
  rewrite <-(map_to_list_delete m p v Hp) in HP. by apply Permutation_cons_inv in HP.
Qed.
Lemma rep_update l (m : gmap positive Z) n p v v' : l ≡ₚ map_to_list m → l !! n = Some (p, v) →
  <[n := (p, v')]> l ≡ₚ map_to_list (<[p := v']> m).
Proof.
  intros HP E. rewrite insert_take_drop by (by eapply lookup_lt_Some).
  rewrite <-(take_drop_middle l n _ E), <-Permutation_middle in HP. apply rep_delete in HP.
  rewrite <-insert_delete_eq, map_to_list_insert, <-HP by apply lookup_delete_eq. by rewrite Permutation_middle.
Qed.

(** Nodes outside of the heap [m] are as they were. *)
Definition others_kept (m : gmap positive Z) (s s' : heap_nodes) : Prop := ∀ q, m !! q = None → s' !! q = s !! q.

Section Ops.
Context (h : heap) (s : heap_nodes) (m : gmap positive Z).

Lemma heap_init_rep s0 : heap_rep heap_init s0 ∅.
Proof.
  exists []. split; [|split; [|by rewrite map_to_list_empty]].
  - split; [done|cbn; lia|by left|done|apply NoDup_nil_2].
  - intros k Hk. unfold child, size_of in Hk. simpl in Hk. lia.
Qed.

Hypothesis HR : heap_rep h s m.

Lemma heap_insert_rep p v :
  m !! p = None → is_Some (s !! p) → Z.of_nat (size m) < 2 ^ 62 →
  returns (heap_insert h s p v) (λ '(h', s'), heap_rep h' s' (<[p := v]> m) ∧ others_kept (<[p := v]> m) s s').
Proof.
  intros Hp Hsp Hsz. destruct HR as (l & HS & HO & HP).
  assert (p ∉ l.*1) as Hnp by (rewrite (rep_keys l m p HP), Hp; by intros [? ?]).
  destruct (raw_insert_slots h s l p v HS Hnp Hsp) as (h1 & s1 & Heq & HS1 & Hs1 & HF1); [by rewrite (rep_size l m HP)|].
  unfold heap_insert. rewrite Heq. cbn [obind]. unfold node_get. rewrite Hs1. cbn [obind idx].
  assert (0 ≤ size_of l) by (unfold size_of; lia).
  eapply returns_bind; [unfold float_up; apply (float_up_loop_spec _ _ _ _ _ _ HS1); [rewrite size_app; lia|lia| |]|].
  - by apply app_hole.
  - by apply app_hole.
  - intros [[b h2] s2] (_ & l2 & HS2 & P2 & HF2 & HO2). eexists. split; [done|].
    assert (l2 ≡ₚ map_to_list (<[p:=v]> m)) as HP2
      by (rewrite P2, map_to_list_insert, <-HP by done; symmetry; apply Permutation_cons_append).
    split; [by exists l2|]. intros q Hq. rewrite HF2.
    + apply HF1. intros ->. by rewrite lookup_insert_eq in Hq.
    + rewrite <-P2, (rep_keys l2 _ q HP2), Hq. by intros [? ?].
Qed.

Lemma heap_change_rep p v v' : m !! p = Some v →
  returns (heap_change h s p v') (λ '(h', s'), heap_rep h' s' (<[p := v']> m) ∧ others_kept m s s').
Proof.
  intros Hp. destruct HR as (l & HS & HO & HP). destruct (rep_position l m p v HP Hp) as (i & Hi & E).
  destruct (raw_change_slots h s l i p v v' HS ltac:(lia) E) as (s1 & Heq & HS1 & Hs1 & HF1).
  unfold heap_change. rewrite Heq. cbn [obind]. unfold node_get. rewrite Hs1. cbn [obind idx].
  set (l1 := <[Z.to_nat (i - 1) := (p, v')]> l) in *.
  assert (size_of l1 = size_of l) as Hl1 by (unfold l1, size_of; by rewrite length_insert).
  assert (l1 ≡ₚ map_to_list (<[p := v']> m)) as HP1 by (by eapply rep_update).
  eapply returns_mono; [apply (float_up_or_down_spec _ _ _ _ HS1); [lia|]|].
  - apply (hole_at l); [done|lia|lia|]. intros k Hk Hne. unfold l1. by rewrite pr_insert, decide_False by lia.
  - intros [h2 s2] (l2 & HS2 & P2 & HF2 & HO2). split; [exists l2; split; [done|split; [done|by rewrite P2]]|].
    intros q Hq. rewrite HF2.
    + apply HF1. intros ->. congruence.
    + rewrite (rep_keys l1 _ q HP1), lookup_insert_ne, Hq by (intros ->; congruence). by intros [? ?].
Qed.

Lemma heap_remove_rep p v : m !! p = Some v →
  returns (heap_remove h s p) (λ '(h', s'),
    heap_rep h' s' (delete p m) ∧ others_kept m s s' ∧ s' !! p = s !! p).
Proof.
  intros Hp. destruct HR as (l & HS & HO & HP). destruct (rep_position l m p v HP Hp) as (i & Hi & E).
  destruct (raw_remove_slots h s l i p v HS ltac:(lia) E) as (h1 & s1 & Heq & HS1 & HF1).
  destruct (hs_node _ _ _ HS i p v ltac:(lia) E) as [_ Hs].
  unfold heap_remove, node_get. rewrite Hs. cbn [obind idx]. rewrite Heq. cbn [obind].
  assert (lremove l i ≡ₚ map_to_list (delete p m)) as HP1
    by (apply (rep_delete _ m p v); etrans; [apply (lremove_perm l i); [lia|done]|done]).
  assert (size_of (lremove l i) = size_of l - 1) as Hl1 by (apply lremove_length; by intros ->).
  assert (∀ q, m !! q = None ∨ q = p → s1 !! q = s !! q) as HF.
  { intros q [Hq| ->]; apply HF1; [left|by right]. rewrite (rep_keys l m q HP), Hq. by intros [? ?]. }
  rewrite (hs_n _ _ _ HS1). destruct (Z.leb_spec i (size_of (lremove l i))).
  - eapply returns_mono; [apply (float_up_or_down_spec _ _ _ _ HS1); [lia|]|].
    + apply (hole_at l); [done|lia|lia|]. intros k Hk Hne. apply pr_lremove; lia.
    + intros [h2 s2] (l2 & HS2 & P2 & HF2 & HO2). split; [exists l2; split; [done|split; [done|by rewrite P2]]|].
      assert (∀ q, m !! q = None ∨ q = p → s2 !! q = s !! q) as HF'.
      { intros q Hq. rewrite HF2; [by apply HF|]. rewrite (rep_keys _ _ q HP1).
        intros [w [? ?]%lookup_delete_Some]. destruct Hq; congruence. }
      split; [intros q Hq; apply HF'; by left|rewrite <-Hs; apply HF'; by right].
  - eexists. split; [done|]. split; [|split; [intros q Hq; apply HF; by left|rewrite <-Hs; apply HF; by right]].
    exists (lremove l i). split; [done|]. split; [|done]. assert (i = size_of l) as -> by lia.
    apply lremove_last_order; [by intros ->|done].
Qed.

Lemma heap_max_rep : m ≠ ∅ →
  returns (heap_max h) (λ p, ∃ v, m !! p = Some v ∧ ∀ q w, m !! q = Some w → w ≤ v).
Proof.
  intros Hm. destruct HR as (l & HS & HO & HP). pose proof (rep_size l m HP) as Hsz.
  assert (0 < size_of l) by (rewrite Hsz; pose proof (map_size_empty_iff m); destruct (size m); [naive_solver|lia]).
  destruct (slots_get _ _ _ HS 1 ltac:(lia)) as (p & E & Ha & _). exists p. split; [exact Ha|]. exists (pr l 1).
  split; [apply (heap_rep_lookup l m); [done|by eapply list_elem_of_lookup_2]|].
  intros q w Hq. destruct (rep_position l m q w HP Hq) as (i & Hi & Ei).
  assert (pr l i = w) as <- by (unfold pr; by rewrite Ei). by apply order_max.
Qed.

Lemma heap_pop_rep : m ≠ ∅ →
  returns (heap_pop h) (λ '(p, h'), is_Some (m !! p) ∧ heap_rep h' s (delete p m)).
Proof.
  intros Hm. destruct HR as (l & HS & HO & HP). pose proof (rep_size l m HP) as Hsz.
  assert (0 < size_of l) by (rewrite Hsz; pose proof (map_size_empty_iff m); destruct (size m); [naive_solver|lia]).
  destruct (slots_get _ _ _ HS (size_of l) ltac:(lia)) as (p & E & Ha & _).
  unfold heap_pop. rewrite (hs_n _ _ _ HS), Ha. cbn [obind]. eexists. split; [done|].
  split; [exists (pr l (size_of l)); apply (heap_rep_lookup l m); [done|by eapply list_elem_of_lookup_2]|].
  destruct (raw_remove_slots h s l (size_of l) p _ HS ltac:(lia) E) as (h1 & s1 & Heq & HS1 & _).
  destruct (hs_node _ _ _ HS (size_of l) p _ ltac:(lia) E) as [_ Hs]. unfold heap_raw_remove, node_get in Heq.
  rewrite Hs in Heq. cbn [obind idx] in Heq. rewrite (hs_n _ _ _ HS), Z.ltb_irrefl in Heq. cbn [obind] in Heq.
  injection Heq as <- <-. rewrite (hs_n _ _ _ HS) in HS1. exists (lremove l (size_of l)). split; [exact HS1|]. split.
  - apply lremove_last_order; [|done]. by intros ->.
  - apply (rep_delete _ m p (pr l (size_of l))). etrans; [apply (lremove_perm l); [lia|done]|done].
Qed.
End Ops.

(** ** Rebuilding and iteration *)

(** Raw changes keep the slots but not the order; rebuilding restores it. *)
Lemma rebuild_loop_spec i h s l :
  heap_slots h s l → Z.of_nat i ≤ size_of l / 2 → ord_from (Z.of_nat i + 1) l →
  returns (rebuild_loop i h s) (λ '(h', s'),
    ∃ l', heap_slots h' s' l' ∧ l' ≡ₚ l ∧ nodes_frame l s s' ∧ heap_order l').
Proof.
  revert h s l. induction i as [|i IH]; intros h s l HS Hi HO; cbn [rebuild_loop].
  { eexists. split; [done|]. by exists l. }
  assert (Z.of_nat (S i) ≤ size_of l) by (Z.to_euclidean_division_equations; lia).
  eapply returns_bind.
  - apply (float_down_spec (Z.of_nat (S i)) h s l (Z.of_nat (S i)) HS); [lia|lia| |].
    + split; [|intros Hj; Z.to_euclidean_division_equations; lia]. intros k Hk Hj Hne Hne2. apply HO; [done|lia].
    + intros Hj. Z.to_euclidean_division_equations. lia.
  - intros [h1 s1] (l1 & HS1 & P1 & HF1 & HO1). assert (size_of l1 = size_of l) as Hsz by (unfold size_of; by rewrite P1).
    eapply returns_mono; [apply (IH _ _ l1 HS1); [rewrite Hsz; lia|]|].
    + intros k Hk Hj. apply HO1; [done|lia].
    + intros [h2 s2] (l2 & HS2 & P2 & HF2 & HO2). exists l2. split_and!; [done|by rewrite P2| |done]. by eapply heap_frame_trans.
Qed.
Lemma heap_rebuild_spec h s l :
  heap_slots h s l →
  returns (heap_rebuild h s) (λ '(h', s'),
    ∃ l', heap_slots h' s' l' ∧ l' ≡ₚ l ∧ nodes_frame l s s' ∧ heap_order l').
Proof.
  intros HS. unfold heap_rebuild. rewrite (hs_n _ _ _ HS). assert (0 ≤ size_of l) by (unfold size_of; lia).
  assert (0 ≤ size_of l / 2) by (Z.to_euclidean_division_equations; lia).
  apply rebuild_loop_spec; [done|lia|]. intros k Hk Hj. unfold child in Hk. Z.to_euclidean_division_equations. lia.
Qed.

Lemma heap_each_loop_spec h s l i fuel p v : heap_slots h s l → l !! i = Some (p, v) →
  (length l - i ≤ fuel)%nat → heap_each_loop fuel h s p = Ret (drop i l).*1.
Proof.
  intros HS. revert i p v. induction fuel as [|fuel IH]; intros i p v E Hf; pose proof (lookup_lt_Some _ _ _ E) as Hi; [lia|].
  pose proof (hs_n _ _ _ HS) as Hn. pose proof (drop_S l _ i E) as Hd.
  destruct (hs_node _ _ _ HS (Z.of_nat i + 1) p v) as [Ha Hs]; [lia|by replace (Z.to_nat (Z.of_nat i + 1 - 1)) with i by lia|].
  cbn [heap_each_loop]. unfold node_get. rewrite Hs. cbn [obind idx]. unfold size_of in Hn. rewrite Hn, Hd.
  destruct (Z.ltb_spec (Z.of_nat i + 1) (Z.of_nat (length l))) as [Hlt|Hge].
  - destruct (lookup_lt_is_Some_2 l (S i)) as [[q w] Eq]; [lia|].
    destruct (hs_node _ _ _ HS (Z.of_nat i + 1 + 1) q w) as [Haq _]; [lia|by replace (Z.to_nat (Z.of_nat i + 1 + 1 - 1)) with (S i) by lia|].
    unfold array_get. rewrite Haq. cbn [obind]. rewrite (IH (S i) q w Eq) by lia. done.
  - by rewrite drop_ge by lia.
Qed.
Lemma heap_each_spec h s l : heap_slots h s l → HEAP_FOR_EACH h s = Ret l.*1.
Proof.
  intros HS. unfold HEAP_FOR_EACH. rewrite (hs_n _ _ _ HS). destruct l as [|[p v] l]; [done|].
  destruct (Z.ltb_spec 0 (size_of ((p, v) :: l))) as [_|Hc]; [|unfold size_of in Hc; simpl in Hc; lia].
  destruct (hs_node _ _ _ HS 1 p v) as [Ha _]; [lia|done|]. unfold array_get. rewrite Ha. cbn [obind].
  by rewrite (heap_each_loop_spec h s ((p, v) :: l) 0 _ p v HS) by (done || (unfold size_of; lia)).
Qed.

(** The node of an element holds its priority. *)
Lemma heap_rep_node h s m p v : heap_rep h s m → m !! p = Some v → ∃ i, s !! p = Some (mkHeapNode i v).
Proof.
  intros (l & HS & _ & HP) Hp. destruct (rep_position l m p v HP Hp) as (i & Hi & E).
  exists i. by apply (hs_node _ _ _ HS i p v); [lia|].
Qed.

(** A node outside of the heap may change. *)
Lemma heap_rep_fresh h s m p nd : heap_rep h s m → m !! p = None → heap_rep h (<[p := nd]> s) m.
Proof.
  intros (l & HL & HO & HP) Hp. exists l. split; [|done]. destruct HL as [L1 L2 L3 L4 L5]. split; [done|done|done| |done].
  intros i x v Hi Hx. destruct (L4 i x v Hi Hx) as [La Ls]. split; [done|]. rewrite lookup_insert_ne; [done|]. intros ->.
  assert (m !! x = Some v) by (apply (heap_rep_lookup _ _ _ _ HP); by eapply list_elem_of_lookup_2). congruence.
Qed.
