(* ===== verification/Hmap.v ===== *)
(** * lib/hmap.c and lib/hmap.h: a hash map with chained buckets

    A bucket is the list of the nodes that its [next] pointers reach, each with
    its [hash] member; a pointer into a chain is the rest of the chain.  Nodes
    are objects of the client and are known by their address. *)
From Stdlib Require Import ZArith Lia.
From stdpp Require Import base list gmap numbers option.
From S2P Require Import Prelude.
Open Scope Z_scope.

Abbreviation chain := (list (Z * positive)).

(** [buckets] has [mask + 1] elements; [one] is the bucket when [mask] is 0. *)
Record hmap := mkHmap { buckets : list chain; mask : Z; hm_n : Z }.

Definition hmap_init : hmap := mkHmap [[]] 0 0.
Definition hmap_count (m : hmap) : Z := hm_n m.
Definition hmap_is_empty (m : hmap) : bool := hm_n m =? 0.
Definition hmap_capacity (m : hmap) : Z := u64 (mask m * 2 + 1).

Definition hmap_clear (m : hmap) : hmap :=
  if 0 <? hm_n m then mkHmap ((λ _, []) <$> buckets m) (mask m) 0 else m.

(** The chain at [buckets[i]]. *)
Definition bucket (m : hmap) (i : Z) : outcome chain :=
  match buckets m !! Z.to_nat i with Some l => Ret l | None => Fault OutOfBounds end.

(** ** Insertion *)

Definition hmap_insert_fast (m : hmap) (node : positive) (hash : Z) : outcome hmap :=
  let i := Z.land hash (mask m) in
  let* l := bucket m i in
  Ret (mkHmap (<[Z.to_nat i := (hash, node) :: l]> (buckets m)) (mask m) (u64 (hm_n m + 1))).

(** The inner and the outer loop of [resize]. *)
Fixpoint reinsert (tmp : hmap) (node : chain) : outcome hmap :=
  match node with
  | [] => Ret tmp
  | (hash, p) :: next => let* tmp := hmap_insert_fast tmp p hash in reinsert tmp next
  end.
Fixpoint reinsert_all (tmp : hmap) (l : list chain) : outcome hmap :=
  match l with
  | [] => Ret tmp
  | node :: l => let* tmp := reinsert tmp node in reinsert_all tmp l
  end.

Definition hmap_resize (m : hmap) (new_mask : Z) : outcome hmap :=
  let* _ := ovs_assert (is_pow2 (u64 (new_mask + 1))) in
  let tmp := if negb (new_mask =? 0) then mkHmap (replicate (Z.to_nat (new_mask + 1)) []) new_mask 0
             else hmap_init in
  reinsert_all tmp (buckets m).

Definition smear (mask s : Z) : Z := Z.lor mask (Z.shiftr mask s).
Definition calc_mask (capacity : Z) : Z :=
  let mask := capacity / 2 in
  let mask := smear mask 1 in
  let mask := smear mask 2 in
  let mask := smear mask 4 in
  let mask := smear mask 8 in
  let mask := smear mask 16 in
  let mask := smear mask 32 in
  Z.lor mask (u64 (Z.shiftl (Z.land mask 1) 1)).

Definition hmap_expand (m : hmap) : outcome hmap :=
  let new_mask := calc_mask (hm_n m) in
  if mask m <? new_mask then hmap_resize m new_mask else Ret m.
Definition hmap_shrink (m : hmap) : outcome hmap :=
  let new_mask := calc_mask (hm_n m) in
  if new_mask <? mask m then hmap_resize m new_mask else Ret m.
Definition hmap_reserve (m : hmap) (n : Z) : outcome hmap :=
  let new_mask := calc_mask n in
  if mask m <? new_mask then hmap_resize m new_mask else Ret m.

Definition hmap_insert (m : hmap) (node : positive) (hash : Z) : outcome hmap :=
  let* m := hmap_insert_fast m node hash in
  if mask m <? hm_n m / 2 then hmap_expand m else Ret m.

(** ** Removal and replacement *)

(** [node->hash] of a node in the map; the member of any other node is not
    known. *)
Definition hmap_node_hash (m : hmap) (node : positive) : outcome Z :=
  match list_find (λ e : Z * positive, e.2 = node) (concat (buckets m)) with
  | Some (_, (hash, _)) => Ret hash
  | None => Fault UninitRead
  end.

(** [while ( *bucket != node) bucket = &( *bucket)->next], and the chain with
    [update] of the chain at [*bucket]. *)
Fixpoint at_node (l : chain) (node : positive) (update : chain → chain) : outcome chain :=
  match l with
  | [] => Fault NullDeref
  | (hash, p) :: next =>
      if Pos.eqb p node then Ret (update l)
      else let* l := at_node next node update in Ret ((hash, p) :: l)
  end.

Definition hmap_remove (m : hmap) (node : positive) : outcome hmap :=
  let* hash := hmap_node_hash m node in
  let i := Z.land hash (mask m) in
  let* l := bucket m i in
  let* l := at_node l node (drop 1) in
  Ret (mkHmap (<[Z.to_nat i := l]> (buckets m)) (mask m) (u64 (hm_n m - 1))).

Definition hmap_replace (m : hmap) (old_node new_node : positive) : outcome hmap :=
  let* hash := hmap_node_hash m old_node in
  let i := Z.land hash (mask m) in
  let* l := bucket m i in
  let* l := at_node l old_node (λ l, (hash, new_node) :: drop 1 l) in
  Ret (mkHmap (<[Z.to_nat i := l]> (buckets m)) (mask m) (hm_n m)).

(** ** Search *)

Fixpoint hmap_next_with_hash__ (node : chain) (hash : Z) : chain :=
  match node with
  | [] => []
  | (h, _) :: next => if h =? hash then node else hmap_next_with_hash__ next hash
  end.
Definition hmap_first_with_hash (m : hmap) (hash : Z) : outcome chain :=
  let* l := bucket m (Z.land hash (mask m)) in
  Ret (hmap_next_with_hash__ l hash).
Definition hmap_next_with_hash (node : chain) : chain :=
  match node with
  | [] => []
  | (h, _) :: next => hmap_next_with_hash__ next h
  end.
Definition hmap_first_in_bucket (m : hmap) (hash : Z) : outcome chain := bucket m (Z.land hash (mask m)).
Definition hmap_next_in_bucket (node : chain) : chain := drop 1 node.

(** [HMAP_FOR_EACH_WITH_HASH] and [HMAP_FOR_EACH_IN_BUCKET] with a body that
    returns the first node that passes [test]; [next] shortens the chain. *)
Fixpoint search_chain (fuel : nat) (next : chain → chain) (test : positive → outcome bool) (node : chain)
    : outcome (option positive) :=
  match node with
  | [] => Ret None
  | (_, p) :: _ =>
      match fuel with
      | O => Diverge
      | S fuel =>
          let* found := test p in
          if found then Ret (Some p) else search_chain fuel next test (next node)
      end
  end.
Definition HMAP_FOR_EACH_WITH_HASH (m : hmap) (hash : Z) (test : positive → outcome bool) : outcome (option positive) :=
  let* node := hmap_first_with_hash m hash in
  search_chain (length node) hmap_next_with_hash test node.
Definition HMAP_FOR_EACH_IN_BUCKET (m : hmap) (hash : Z) (test : positive → outcome bool) : outcome (option positive) :=
  let* node := hmap_first_in_bucket m hash in
  search_chain (length node) hmap_next_in_bucket test node.

Definition hmap_contains (m : hmap) (hash : Z) (node : positive) : outcome bool :=
  let* r := HMAP_FOR_EACH_IN_BUCKET m hash (λ p, Ret (Pos.eqb p node)) in
  Ret (match r with Some _ => true | None => false end).

(** ** Iteration *)

Fixpoint hmap_next__ (l : list chain) : chain :=
  match l with
  | [] => []
  | node :: l => match node with [] => hmap_next__ l | _ => node end
  end.
Definition hmap_first (m : hmap) : chain := hmap_next__ (buckets m).
Definition hmap_next (m : hmap) (node : chain) : chain :=
  match node with
  | (_, _) :: ((_, _) :: _) as l => drop 1 node
  | (hash, _) :: [] => hmap_next__ (drop (Z.to_nat (Z.land hash (mask m) + 1)) (buckets m))
  | [] => []
  end.

(** [HMAP_FOR_EACH]: the nodes in the order of the visit. *)
Fixpoint hmap_each_loop (fuel : nat) (m : hmap) (node : chain) : outcome (list positive) :=
  match node with
  | [] => Ret []
  | (_, p) :: _ =>
      match fuel with
      | O => Diverge
      | S fuel => let* l := hmap_each_loop fuel m (hmap_next m node) in Ret (p :: l)
      end
  end.
Definition HMAP_FOR_EACH (m : hmap) : outcome (list positive) :=
  hmap_each_loop (Z.to_nat (hm_n m)) m (hmap_first m).
