(* ===== verification/HmapProofs.v ===== *)
(** * The hash map is a map from nodes to hashes *)
From Stdlib Require Import ZArith Lia.
From stdpp Require Import base list gmap numbers option.
From S2P Require Import Prelude Hmap.
Open Scope Z_scope.

(** ** Masks *)

Lemma smear_bits x r s : 0 ≤ s →
  (∀ i, 0 ≤ i → Z.testbit r i = true ↔ ∃ j, i ≤ j < i + s ∧ Z.testbit x j = true) →
  ∀ i, 0 ≤ i → Z.testbit (smear r s) i = true ↔ ∃ j, i ≤ j < i + 2 * s ∧ Z.testbit x j = true.
Proof.
  intros Hs H i Hi. unfold smear. rewrite Z.lor_spec, Z.shiftr_spec, orb_true_iff, !H by lia. split.
  - intros [(j & ? & ?)|(j & ? & ?)]; exists j; split; [lia|done|lia|done].
  - intros (j & Hj & Ht). destruct (decide (j < i + s)); [left|right]; exists j; split; [lia|done|lia|done].
Qed.

(** The bits below the highest bit of [x] are filled in. *)
Lemma smear_all x : 0 < x < 2 ^ 64 →
  smear (smear (smear (smear (smear (smear x 1) 2) 4) 8) 16) 32 = Z.ones (Z.log2 x + 1).
Proof.
  intros Hx. apply Z.bits_inj'. intros i Hi. rewrite Z.testbit_ones_nonneg by (pose proof (Z.log2_nonneg x); lia).
  apply eq_true_iff_eq. rewrite Z.ltb_lt.
  rewrite (smear_bits x _ 32); [|lia|apply (smear_bits x _ 16); [lia|apply (smear_bits x _ 8); [lia|
    apply (smear_bits x _ 4); [lia|apply (smear_bits x _ 2); [lia|apply (smear_bits x _ 1); [lia|]]]]]|done].
  - split.
    + intros (j & Hj & Ht). destruct (decide (Z.log2 x < j)) as [Hl|]; [|lia].
      rewrite Z.bits_above_log2 in Ht by lia. done.
    + intros Hlt. exists (Z.log2 x). split; [|apply Z.bit_log2; lia].
      assert (Z.log2 x < 64) by (apply Z.log2_lt_pow2; lia). lia.
  - intros k Hk. split; [intros Ht; exists k; split; [lia|done]|]. intros (j & Hj & Ht). by replace k with j by lia.
Qed.

Lemma ones_lor_2 k : 1 ≤ k → Z.lor (Z.ones k) 2 = Z.ones (Z.max k 2).
Proof.
  intros Hk. apply Z.bits_inj'. intros i Hi. rewrite Z.lor_spec, !Z.testbit_ones_nonneg by lia.
  apply eq_true_iff_eq. rewrite orb_true_iff, !Z.ltb_lt.
  assert (Z.testbit 2 i = true ↔ i = 1) as ->.
  { change 2 with (2 ^ 1). rewrite Z.pow2_bits_eqb by lia. rewrite Z.eqb_eq. split; congruence. }
  lia.
Qed.

Definition mask_ok (m : Z) : Prop := ∃ k, 0 ≤ k ≤ 63 ∧ m = Z.ones k.

Lemma calc_mask_ok c : 0 ≤ c < 2 ^ 64 → mask_ok (calc_mask c).
Proof.
  intros Hc. assert (0 ≤ c / 2 < 2 ^ 63) as Hx by (Z.to_euclidean_division_equations; lia).
  unfold calc_mask. destruct (decide (c / 2 = 0)) as [->|Hne]; [by exists 0|]. cbv zeta. rewrite smear_all by lia.
  set (k := Z.log2 (c / 2) + 1). assert (1 ≤ k ≤ 63) as Hk.
  { unfold k. pose proof (Z.log2_nonneg (c / 2)). assert (Z.log2 (c / 2) < 63) by (apply Z.log2_lt_pow2; lia). lia. }
  assert (Z.land (Z.ones k) 1 = 1) as ->.
  { change 1 with (Z.ones 1) at 1. rewrite Z.land_ones by lia. rewrite Z.ones_equiv, <-Z.sub_1_r.
    replace k with (1 + (k - 1)) by lia. rewrite Z.pow_add_r by lia. change (2 ^ 1) with 2.
    rewrite <-(Z.mod_add _ (- 2 ^ (k - 1) + 1) 2) by lia. by replace (_ + _) with 1 by lia. }
  change (u64 (Z.shiftl 1 1)) with 2. rewrite ones_lor_2 by lia. exists (Z.max k 2). split; [lia|done].
Qed.

Lemma mask_ok_range m : mask_ok m → 0 ≤ m < 2 ^ 63.
Proof.
  intros (k & Hk & ->). rewrite Z.ones_equiv, <-Z.sub_1_r. pose proof (Z.pow_pos_nonneg 2 k).
  assert (2 ^ k ≤ 2 ^ 63) by (apply Z.pow_le_mono_r; lia). lia.
Qed.
Lemma mask_ok_land m h : mask_ok m → 0 ≤ h → 0 ≤ Z.land h m ≤ m.
Proof.
  intros (k & Hk & ->) Hh. rewrite Z.land_ones, Z.ones_equiv, <-Z.sub_1_r by lia.
  pose proof (Z.mod_pos_bound h (2 ^ k)). pose proof (Z.pow_pos_nonneg 2 k). lia.
Qed.
Lemma mask_ok_pow2 m : mask_ok m → is_pow2 (u64 (m + 1)) = true.
Proof.
  intros Hm. pose proof (mask_ok_range m Hm). rewrite u64_small by lia. destruct Hm as (k & Hk & ->).
  rewrite Z.ones_equiv, <-Z.sub_1_r in *. replace (2 ^ k - 1 + 1) with (2 ^ k) by lia.
  pose proof (Z.pow_pos_nonneg 2 k). unfold is_pow2. rewrite (proj2 (Z.eqb_neq (2 ^ k) 0)) by lia.
  replace (2 ^ k - 1) with (Z.ones k) by (rewrite Z.ones_equiv; lia).
  by rewrite Z.land_ones, Z_mod_same_full by lia.
Qed.

(** ** The nodes in the buckets *)

(** [m] has the nodes [D], with their hashes. *)
Record holds (m : hmap) (D : chain) : Prop := {
  ho_mask : mask_ok (mask m);
  ho_length : Z.of_nat (length (buckets m)) = mask m + 1;
  ho_place : ∀ i l e, buckets m !! i = Some l → e ∈ l → 0 ≤ e.1 ∧ Z.to_nat (Z.land e.1 (mask m)) = i;
  ho_nodes : concat (buckets m) ≡ₚ D;
  ho_n : hm_n m = Z.of_nat (length D);
}.

Lemma concat_middle {A} (bs : list (list A)) i l : bs !! i = Some l →
  concat bs = concat (take i bs) ++ l ++ concat (drop (S i) bs).
Proof. intros H. rewrite <-(take_drop_middle bs i l H) at 1. by rewrite concat_app. Qed.
Lemma concat_insert {A} (bs : list (list A)) i l l' : bs !! i = Some l →
  concat (<[i := l']> bs) = concat (take i bs) ++ l' ++ concat (drop (S i) bs).
Proof.
  intros H. rewrite insert_take_drop by (by eapply lookup_lt_Some). by rewrite concat_app.
Qed.

Lemma middle_perm {A} (x : A) l1 l2 l3 l4 : l1 ++ (l2 ++ x :: l3) ++ l4 ≡ₚ x :: l1 ++ (l2 ++ l3) ++ l4.
Proof. rewrite <-!app_assoc. cbn [app]. rewrite !(app_assoc l1). by rewrite <-Permutation_middle, !app_assoc. Qed.

Section Holds.
Context (m : hmap) (D : chain).
Hypothesis HH : holds m D.

Lemma bucket_in_range h : 0 ≤ h →
  ∃ l, buckets m !! Z.to_nat (Z.land h (mask m)) = Some l ∧ bucket m (Z.land h (mask m)) = Ret l.
Proof.
  intros Hh. pose proof (mask_ok_land _ h (ho_mask _ _ HH) Hh). pose proof (ho_length _ _ HH).
  destruct (lookup_lt_is_Some_2 (buckets m) (Z.to_nat (Z.land h (mask m)))) as [l Hl]; [lia|].
  exists l. unfold bucket. by rewrite Hl.
Qed.

Lemma in_bucket h p : 0 ≤ h → (h, p) ∈ D ↔
  ∃ l, buckets m !! Z.to_nat (Z.land h (mask m)) = Some l ∧ (h, p) ∈ l.
Proof.
  intros Hh. rewrite <-(ho_nodes _ _ HH). split.
  - intros H. apply list_elem_of_In, in_concat in H as (l & Hl & Hin).
    apply list_elem_of_In, list_elem_of_lookup_1 in Hl as [i Hi]. apply list_elem_of_In in Hin.
    destruct (ho_place _ _ HH i l _ Hi Hin) as [_ E]. exists l. cbn in E. by rewrite E.
  - intros (l & Hl & Hin). apply list_elem_of_In, in_concat. exists l. split; [|by apply list_elem_of_In].
    apply list_elem_of_In. by eapply list_elem_of_lookup_2.
Qed.
Lemma hash_nonneg h p : (h, p) ∈ D → 0 ≤ h.
Proof.
  intros H. rewrite <-(ho_nodes _ _ HH) in H. apply list_elem_of_In, in_concat in H as (l & Hl & Hin).
  apply list_elem_of_In, list_elem_of_lookup_1 in Hl as [i Hi]. apply list_elem_of_In in Hin.
  by destruct (ho_place _ _ HH i l _ Hi Hin).
Qed.

Lemma insert_fast_holds p h : 0 ≤ h → Z.of_nat (length D) < 2 ^ 63 →
  returns (hmap_insert_fast m p h) (λ m', holds m' ((h, p) :: D) ∧ mask m' = mask m).
Proof.
  intros Hh Hn. destruct (bucket_in_range h Hh) as (l & Hl & Hb). unfold hmap_insert_fast. rewrite Hb. cbn [obind].
  eexists. split; [done|]. split; [|done]. rewrite (ho_n _ _ HH), u64_small by lia.
  split; cbn [buckets mask hm_n]; [apply HH|rewrite length_insert; apply HH| | |simpl; lia].
  - intros i l' e Hi He. apply list_lookup_insert_Some in Hi as [(<- & <- & _)|[_ Hi]]; [|by eapply (ho_place _ _ HH)].
    apply elem_of_cons in He as [->|He]; [done|]. by eapply (ho_place _ _ HH).
  - rewrite (concat_insert _ _ _ _ Hl). rewrite <-(ho_nodes _ _ HH), (concat_middle _ _ _ Hl).
    cbn [app]. by rewrite <-Permutation_middle.
Qed.
End Holds.

Lemma reinsert_holds node : ∀ tmp D, holds tmp D → Z.of_nat (length D + length node) < 2 ^ 63 →
  (∀ e, e ∈ node → 0 ≤ e.1) → returns (reinsert tmp node) (λ m', holds m' (rev node ++ D) ∧ mask m' = mask tmp).
Proof.
  induction node as [|[h p] node IH]; intros tmp D HH Hn Hpos; cbn [reinsert rev app].
  { by exists tmp. }
  eapply returns_bind; [apply (insert_fast_holds _ _ HH); [apply (Hpos (h, p)); by left|simpl in Hn; lia]|].
  intros m1 [H1 M1]. eapply returns_mono; [apply (IH m1 _ H1); [simpl in *; lia|intros e He; apply Hpos; by right]|].
  intros m2 [H2 M2]. rewrite <-app_assoc. split; [exact H2|congruence].
Qed.
Lemma reinsert_all_holds l : ∀ tmp D, holds tmp D → Z.of_nat (length D + length (concat l)) < 2 ^ 63 →
  (∀ e, e ∈ concat l → 0 ≤ e.1) →
  returns (reinsert_all tmp l) (λ m', mask m' = mask tmp ∧ ∃ D', holds m' D' ∧ D' ≡ₚ concat l ++ D).
Proof.
  induction l as [|node l IH]; intros tmp D HH Hn Hpos; cbn [reinsert_all concat app] in *.
  { exists tmp. split; [done|]. split; [done|]. by exists D. }
  rewrite length_app in Hn.
  eapply returns_bind; [apply (reinsert_holds node tmp D HH); [lia|intros e He; apply Hpos, elem_of_app; by left]|].
  intros m1 [H1 M1]. eapply returns_mono; [apply (IH m1 _ H1); [rewrite length_app, length_rev; lia|intros e He; apply Hpos, elem_of_app; by right]|].
  intros m2 (M2 & D' & H2 & P2). split; [congruence|]. exists D'. split; [done|]. rewrite P2.
  rewrite <-Permutation_rev. rewrite !app_assoc. apply Permutation_app_tail, Permutation_app_comm.
Qed.

Lemma holds_perm m D D' : holds m D → D ≡ₚ D' → holds m D'.
Proof. intros HH HP. destruct HH as [H1 H2 H3 H4 H5]. split; [done|done|done|by rewrite H4|by rewrite <-HP]. Qed.

Lemma holds_init : holds hmap_init [].
Proof.
  split; [by exists 0|done| |done|done]. intros [|i] l e Hi He; [|done].
  injection Hi as <-. by apply elem_of_nil in He.
Qed.
Lemma holds_empty k : mask_ok k → holds (mkHmap (replicate (Z.to_nat (k + 1)) []) k 0) [].
Proof.
  intros Hk. pose proof (mask_ok_range k Hk). split; cbn [buckets mask hm_n]; [done|rewrite length_replicate; lia| | |done].
  - intros i l e Hi He. apply lookup_replicate in Hi as [-> _]. by apply elem_of_nil in He.
  - clear. induction (Z.to_nat (k + 1)) as [|n IH]; [done|]. exact IH.
Qed.

Lemma resize_holds m D k : holds m D → mask_ok k → Z.of_nat (length D) < 2 ^ 63 →
  returns (hmap_resize m k) (λ m', holds m' D).
Proof.
  intros HH Hk Hn. unfold hmap_resize. rewrite (mask_ok_pow2 k Hk). cbn [ovs_assert obind].
  pose proof (ho_nodes _ _ HH) as HP.
  eapply returns_mono; [apply (reinsert_all_holds _ _ [])|].
  - destruct (Z.eqb_spec k 0); cbn [negb]; [apply holds_init|by apply holds_empty].
  - rewrite HP. simpl. lia.
  - intros [h p] He. rewrite HP in He. by eapply (hash_nonneg _ _ HH).
  - intros m' (_ & D' & H' & P'). eapply holds_perm; [exact H'|]. by rewrite P', app_nil_r.
Qed.

(** ** The map from nodes to hashes *)

Definition entries (A : gmap positive Z) : chain := prod_swap <$> map_to_list A.
Definition hmap_rep (m : hmap) (A : gmap positive Z) : Prop := holds m (entries A).

Lemma elem_of_entries A h p : (h, p) ∈ entries A ↔ A !! p = Some h.
Proof.
  unfold entries. rewrite list_elem_of_fmap. split.
  - intros ([q x] & [= -> ->] & H). by apply elem_of_map_to_list.
  - intros H. exists (p, h). split; [done|]. by apply elem_of_map_to_list.
Qed.
Lemma length_entries A : length (entries A) = size A.
Proof. unfold entries. by rewrite length_fmap, length_map_to_list. Qed.
Lemma entries_insert A p h : A !! p = None → entries (<[p := h]> A) ≡ₚ (h, p) :: entries A.
Proof. intros H. unfold entries. by rewrite map_to_list_insert. Qed.
Lemma entries_delete A p h : A !! p = Some h → entries A ≡ₚ (h, p) :: entries (delete p A).
Proof. intros H. unfold entries. by rewrite <-(map_to_list_delete A p h H). Qed.
Lemma entries_nodup A : NoDup (entries A).*2.
Proof.
  unfold entries. rewrite <-list_fmap_compose. assert (snd ∘ prod_swap = @fst positive Z) as -> by done.
  apply NoDup_fst_map_to_list.
Qed.

Lemma hmap_init_rep : hmap_rep hmap_init ∅.
Proof. unfold hmap_rep, entries. rewrite map_to_list_empty. apply holds_init. Qed.

Section Ops.
Context (m : hmap) (A : gmap positive Z).
Hypothesis HR : hmap_rep m A.
Hypothesis Hsize : Z.of_nat (size A) < 2 ^ 62.

Lemma hmap_count_rep : hmap_count m = Z.of_nat (size A).
Proof. unfold hmap_count. by rewrite (ho_n _ _ HR), length_entries. Qed.

Lemma hmap_insert_rep p h : A !! p = None → 0 ≤ h →
  returns (hmap_insert m p h) (λ m', hmap_rep m' (<[p := h]> A)).
Proof.
  intros Hp Hh. unfold hmap_insert.
  eapply returns_bind; [apply (insert_fast_holds _ _ HR); [done|rewrite length_entries; lia]|].
  intros m1 [H1 _]. assert (holds m1 (entries (<[p := h]> A))) as H2
    by (eapply holds_perm; [exact H1|by rewrite entries_insert]).
  destruct (_ <? _); [|by exists m1]. unfold hmap_expand. destruct (_ <? _); [|by exists m1].
  apply resize_holds; [exact H2| |].
  - apply calc_mask_ok. rewrite (ho_n _ _ H2), length_entries, map_size_insert_None by done. lia.
  - rewrite length_entries, map_size_insert_None by done. lia.
Qed.

Lemma hmap_resized_rep k : 0 ≤ k < 2 ^ 64 → returns (hmap_resize m (calc_mask k)) (λ m', hmap_rep m' A).
Proof. intros. apply resize_holds; [exact HR|by apply calc_mask_ok|rewrite length_entries; lia]. Qed.
Lemma hmap_shrink_rep : returns (hmap_shrink m) (λ m', hmap_rep m' A).
Proof.
  unfold hmap_shrink. destruct (_ <? _); [|by exists m]. apply hmap_resized_rep. rewrite (ho_n _ _ HR), length_entries. lia.
Qed.
Lemma hmap_reserve_rep k : 0 ≤ k < 2 ^ 64 → returns (hmap_reserve m k) (λ m', hmap_rep m' A).
Proof. intros Hk. unfold hmap_reserve. destruct (_ <? _); [|by exists m]. by apply hmap_resized_rep. Qed.

(** *** Finding a node in its chain *)

Lemma node_hash p h : A !! p = Some h → hmap_node_hash m p = Ret h.
Proof.
  intros Hp. unfold hmap_node_hash. pose proof (ho_nodes _ _ HR) as HP.
  assert ((h, p) ∈ concat (buckets m)) as Hin by (rewrite HP; by apply elem_of_entries).
  destruct (list_find_elem_of (λ e : Z * positive, e.2 = p) _ _ Hin eq_refl) as [[i [h' p']] E].
  rewrite E. apply list_find_Some in E as (Hi & Hp' & _). cbn in Hp'. subst p'.
  apply list_elem_of_lookup_2 in Hi. rewrite HP, elem_of_entries in Hi. congruence.
Qed.

Lemma at_node_spec pre h p post f : p ∉ pre.*2 →
  at_node (pre ++ (h, p) :: post) p f = Ret (pre ++ f ((h, p) :: post)).
Proof.
  induction pre as [|[x q] pre IH]; intros Hn; cbn [app at_node].
  - by rewrite Pos.eqb_refl.
  - cbn in Hn. apply not_elem_of_cons in Hn as [Hq Hn]. rewrite (proj2 (Pos.eqb_neq q p)) by congruence. by rewrite IH.
Qed.

(** The bucket of a node, split at the node. *)
Lemma node_bucket p h : A !! p = Some h → ∃ pre post,
  buckets m !! Z.to_nat (Z.land h (mask m)) = Some (pre ++ (h, p) :: post) ∧
  bucket m (Z.land h (mask m)) = Ret (pre ++ (h, p) :: post) ∧ p ∉ pre.*2.
Proof.
  intros Hp. apply elem_of_entries in Hp as Hin. pose proof (hash_nonneg _ _ HR h p Hin) as Hh.
  apply (in_bucket _ _ HR h p Hh) in Hin as (l & Hl & Hin). apply list_elem_of_split in Hin as (pre & post & ->).
  exists pre, post. split; [done|]. split; [unfold bucket; by rewrite Hl|]. intros Hpre.
  pose proof (entries_nodup A) as HN. rewrite <-(ho_nodes _ _ HR), (concat_middle _ _ _ Hl), !fmap_app in HN.
  apply list.NoDup_app in HN as (_ & _ & HN). apply list.NoDup_app in HN as (HN & _ & _).
  apply list.NoDup_app in HN as (_ & Hd & _). apply (Hd p Hpre). cbn. by left.
Qed.

Lemma hmap_remove_rep p h : A !! p = Some h → returns (hmap_remove m p) (λ m', hmap_rep m' (delete p A)).
Proof.
  intros Hp. destruct (node_bucket p h Hp) as (pre & post & Hl & Hb & Hn). unfold hmap_remove.
  rewrite (node_hash p h Hp). cbn [obind]. rewrite Hb. cbn [obind]. rewrite at_node_spec by done. cbn [obind].
  eexists. split; [done|]. pose proof (entries_delete A p h Hp) as HD.
  assert (0 < Z.of_nat (length (entries A))) by (rewrite HD; simpl; lia).
  rewrite (ho_n _ _ HR), u64_small by (rewrite length_entries in *; lia).
  split; cbn [buckets mask hm_n]; [apply HR|rewrite length_insert; apply HR| | |].
  - intros i l e Hi He. apply list_lookup_insert_Some in Hi as [(<- & <- & _)|[_ Hi]]; [|by eapply (ho_place _ _ HR)].
    eapply (ho_place _ _ HR); [exact Hl|]. apply elem_of_app in He as [He|He]; apply elem_of_app; [by left|right; by right].
  - rewrite (concat_insert _ _ _ _ Hl). apply (Permutation_cons_inv (a := (h, p))).
    rewrite <-HD, <-(ho_nodes _ _ HR), (concat_middle _ _ _ Hl), middle_perm. done.
  - rewrite HD. simpl. lia.
Qed.

(** *** Searching *)

Lemma next_with_hash_filter l h :
  hmap_next_with_hash__ l h = [] ∧ filter (λ e, e.1 = h) l = [] ∨
  ∃ p rest, hmap_next_with_hash__ l h = (h, p) :: rest ∧ filter (λ e, e.1 = h) l = (h, p) :: filter (λ e, e.1 = h) rest ∧
    (length rest < length l)%nat.
Proof.
  induction l as [|[x q] l IH]; [by left|]. cbn [hmap_next_with_hash__]. rewrite filter_cons. cbn [fst].
  destruct (Z.eqb_spec x h) as [->|Hne].
  - right. exists q, l. rewrite decide_True by done. simpl. split_and!; [done|done|lia].
  - rewrite decide_False by done. destruct IH as [IH|(p & rest & E & F & L)]; [by left|right].
    exists p, rest. split_and!; [done|done|simpl; lia].
Qed.

(** The nodes of a loop over a chain that passes the test first. *)
Definition found (tb : positive → bool) (l : list positive) (r : option positive) : Prop :=
  match r with
  | Some p => p ∈ l ∧ tb p = true
  | None => ∀ p, p ∈ l → tb p = false
  end.

Lemma search_with_hash fuel test tb l h :
  (∀ p, p ∈ (filter (λ e, e.1 = h) l).*2 → test p = Ret (tb p)) →
  (length (hmap_next_with_hash__ l h) ≤ fuel)%nat →
  returns (search_chain fuel hmap_next_with_hash test (hmap_next_with_hash__ l h))
    (found tb (filter (λ e, e.1 = h) l).*2).
Proof.
  revert l. induction fuel as [|fuel IH]; intros l Ht Hf;
    destruct (next_with_hash_filter l h) as [[E F]|(p & rest & E & F & L)]; rewrite E in *; rewrite F in *; cbn [search_chain].
  - eexists. split; [done|]. by intros p ?%elem_of_nil.
  - simpl in Hf. lia.
  - eexists. split; [done|]. by intros p ?%elem_of_nil.
  - rewrite Ht by (by left). cbn [obind]. destruct (tb p) eqn:Etb.
    + eexists. split; [done|]. split; [by left|done].
    + cbn [hmap_next_with_hash]. eapply returns_mono.
      * apply IH; [intros q Hq; apply Ht; by right|].
        destruct (next_with_hash_filter rest h) as [[E' _]|(p' & rest' & E' & _ & L')]; rewrite E'; simpl in *; lia.
      * intros [q|]; [intros [Hq Hb]; split; [by right|done]|]. intros Hall q [->|Hq]%elem_of_cons; auto.
Qed.

Lemma for_each_with_hash h test tb : 0 ≤ h → (∀ p, A !! p = Some h → test p = Ret (tb p)) →
  returns (HMAP_FOR_EACH_WITH_HASH m h test) (λ r,
    match r with
    | Some p => A !! p = Some h ∧ tb p = true
    | None => ∀ p, A !! p = Some h → tb p = false
    end).
Proof.
  intros Hh Ht. destruct (bucket_in_range _ _ HR h Hh) as (l & Hl & Hb).
  unfold HMAP_FOR_EACH_WITH_HASH, hmap_first_with_hash. rewrite Hb. cbn [obind].
  assert (∀ p, p ∈ (filter (λ e, e.1 = h) l).*2 ↔ A !! p = Some h) as Hin.
  { intros p. rewrite <-elem_of_entries, (in_bucket _ _ HR h p Hh), list_elem_of_fmap. split.
    - intros ([x q] & -> & [Hx Hq]%list_elem_of_filter). cbn in *. subst x. by exists l.
    - intros (l' & Hl' & Hq). rewrite Hl in Hl'. injection Hl' as <-. exists (h, p). split; [done|]. by apply list_elem_of_filter. }
  eapply returns_mono; [apply search_with_hash; [|done]|].
  - intros p Hp. apply Ht. by apply Hin.
  - intros [p|]; unfold found; [intros [Hp ?]; split; [by apply Hin|done]|intros Hall p Hp; by apply Hall, Hin].
Qed.

Lemma search_in_bucket fuel test tb (l : chain) :
  (∀ p, p ∈ l.*2 → test p = Ret (tb p)) → (length l ≤ fuel)%nat →
  returns (search_chain fuel hmap_next_in_bucket test l) (found tb l.*2).
Proof.
  revert l. induction fuel as [|fuel IH]; intros [|[x p] l] Ht Hf; cbn [search_chain].
  1, 3: eexists; split; [done|]; by intros p ?%elem_of_nil.
  - simpl in Hf. lia.
  - rewrite Ht by (by left). cbn [obind]. destruct (tb p) eqn:Etb.
    + eexists. split; [done|]. split; [by left|done].
    + change (hmap_next_in_bucket ((x, p) :: l)) with l.
      eapply returns_mono; [apply (IH l); [intros q Hq; apply Ht; by right|cbn [length] in Hf; lia]|].
      intros [q|]; [intros [Hq Hb]; split; [by right|done]|]. intros Hall q [->|Hq]%elem_of_cons; auto.
Qed.
Lemma for_each_in_bucket h test tb : 0 ≤ h → (∀ p, is_Some (A !! p) → test p = Ret (tb p)) →
  returns (HMAP_FOR_EACH_IN_BUCKET m h test) (λ r,
    match r with
    | Some p => is_Some (A !! p) ∧ tb p = true
    | None => ∀ p, A !! p = Some h → tb p = false
    end).
Proof.
  intros Hh Ht. destruct (bucket_in_range _ _ HR h Hh) as (l & Hl & Hb).
  unfold HMAP_FOR_EACH_IN_BUCKET, hmap_first_in_bucket. rewrite Hb. cbn [obind].
  assert (∀ p, p ∈ l.*2 → is_Some (A !! p)) as Hin.
  { intros p ([x q] & -> & Hq)%list_elem_of_fmap. exists x. apply elem_of_entries. rewrite <-(ho_nodes _ _ HR).
    rewrite (concat_middle _ _ _ Hl), !elem_of_app. by right; left. }
  eapply returns_mono; [apply search_in_bucket; [|done]|].
  - intros p Hp. by apply Ht, Hin.
  - intros [p|]; unfold found; [intros [Hp ?]; split; [by apply Hin|done]|].
    intros Hall p Hp. apply Hall, list_elem_of_fmap. exists (h, p). split; [done|].
    apply elem_of_entries, (in_bucket _ _ HR h p Hh) in Hp as (l' & Hl' & Hp). rewrite Hl in Hl'. by injection Hl' as <-.
Qed.
(** *** Iteration *)

Lemma hmap_next_in pre h p post i : buckets m !! i = Some (pre ++ (h, p) :: post) →
  hmap_next m ((h, p) :: post) = match post with [] => hmap_next__ (drop (S i) (buckets m)) | _ => post end.
Proof.
  intros Hi. destruct post as [|[x q] post]; [|done]. cbn [hmap_next].
  destruct (ho_place _ _ HR i _ (h, p) Hi) as [Hh Hp]; [apply elem_of_app; right; by left|]. cbn [fst] in *.
  pose proof (mask_ok_land _ h (ho_mask _ _ HR) Hh). by replace (Z.to_nat (Z.land h (mask m) + 1)) with (S i) by lia.
Qed.

(** The first node in the buckets from [i] on. *)
Lemma hmap_next_from i :
  hmap_next__ (drop i (buckets m)) = [] ∧ concat (drop i (buckets m)) = [] ∨
  ∃ j l, hmap_next__ (drop i (buckets m)) = l ∧ l ≠ [] ∧ buckets m !! j = Some l ∧
    concat (drop i (buckets m)) = l ++ concat (drop (S j) (buckets m)).
Proof.
  remember (length (buckets m) - i)%nat as n eqn:Hn. revert i Hn. induction n as [|n IH]; intros i Hn.
  { left. by rewrite drop_ge by lia. }
  destruct (lookup_lt_is_Some_2 (buckets m) i) as [l Hl]; [lia|]. rewrite (drop_S _ _ _ Hl).
  cbn [hmap_next__ concat]. destruct l as [|e l]; [|right; exists i, (e :: l); done].
  apply IH. lia.
Qed.

Lemma hmap_each_from fuel : ∀ pre h p post i, buckets m !! i = Some (pre ++ (h, p) :: post) →
  (length (((h, p) :: post) ++ concat (drop (S i) (buckets m))) ≤ fuel)%nat →
  hmap_each_loop fuel m ((h, p) :: post) = Ret (((h, p) :: post) ++ concat (drop (S i) (buckets m))).*2.
Proof.
  induction fuel as [|fuel IH]; intros pre h p post i Hi Hf; [simpl in Hf; lia|]. cbn [hmap_each_loop].
  rewrite (hmap_next_in _ _ _ _ _ Hi). destruct post as [|[x q] post].
  - destruct (hmap_next_from (S i)) as [[-> ->]|(j & l & -> & Hl & Hj & E)]; [by destruct fuel|].
    destruct l as [|[y r] l]; [done|]. rewrite E in Hf. rewrite (IH [] y r l j Hj) by (cbn [app length] in *; lia).
    cbn [obind]. by rewrite E.
  - rewrite (IH (pre ++ [(h, p)]) x q post i); [done| |cbn [app length] in *; lia]. by rewrite <-app_assoc.
Qed.

Lemma hmap_for_each_rep : returns (HMAP_FOR_EACH m) (λ l, l ≡ₚ (map_to_list A).*1).
Proof.
  assert (HMAP_FOR_EACH m = Ret (concat (buckets m)).*2) as ->.
  { unfold HMAP_FOR_EACH, hmap_first. rewrite <-(drop_0 (buckets m)) at 2. rewrite <-(drop_0 (buckets m)) at 1.
    assert (Z.to_nat (hm_n m) = length (concat (drop 0 (buckets m)))) as ->
      by (rewrite drop_0, (ho_nodes _ _ HR), (ho_n _ _ HR); lia).
    destruct (hmap_next_from 0) as [[-> ->]|(j & l & -> & Hl & Hj & ->)]; [done|].
    destruct l as [|[y r] l]; [done|]. by apply (hmap_each_from _ []). }
  eexists. split; [done|]. rewrite (ho_nodes _ _ HR). unfold entries. by rewrite <-list_fmap_compose.
Qed.

Lemma hmap_replace_rep p q h : A !! p = Some h → A !! q = None →
  returns (hmap_replace m p q) (λ m', hmap_rep m' (<[q := h]> (delete p A))).
Proof.
  intros Hp Hq. destruct (node_bucket p h Hp) as (pre & post & Hl & Hb & Hn). unfold hmap_replace.
  rewrite (node_hash p h Hp). cbn [obind]. rewrite Hb. cbn [obind]. rewrite at_node_spec by done. cbn [obind].
  eexists. split; [done|]. pose proof (entries_delete A p h Hp) as HD.
  assert (delete p A !! q = None) as Hq' by (by rewrite lookup_delete_None; right).
  eapply holds_perm; [|symmetry; by apply entries_insert].
  split; cbn [buckets mask hm_n]; [apply HR|rewrite length_insert; apply HR| | |].
  - intros i l e Hi He. apply list_lookup_insert_Some in Hi as [(<- & <- & _)|[_ Hi]]; [|by eapply (ho_place _ _ HR)].
    apply elem_of_app in He as [He|He].
    + eapply (ho_place _ _ HR); [exact Hl|]. apply elem_of_app. by left.
    + cbn [drop] in He. apply elem_of_cons in He as [->|He].
      * eapply (ho_place _ _ HR _ _ (h, p)); [exact Hl|]. apply elem_of_app. right. by left.
      * eapply (ho_place _ _ HR); [exact Hl|]. apply elem_of_app. right. by right.
  - rewrite (concat_insert _ _ _ _ Hl). cbn [drop]. rewrite middle_perm. apply Permutation_skip.
    rewrite <-(ho_nodes _ _ HR), (concat_middle _ _ _ Hl), middle_perm in HD. by apply Permutation_cons_inv in HD.
  - rewrite (ho_n _ _ HR), HD. done.
Qed.
End Ops.

(** ** Removing the first node

    [HMAP_FOR_EACH_SAFE] with a body that removes the node: the node it goes
    on with is the first one of the map that is left. *)

Lemma next__split bs l : hmap_next__ bs = l → l ≠ [] → ∃ n rest, bs = replicate n [] ++ l :: rest.
Proof.
  intros <- Hl. induction bs as [|b bs IH]; [done|]. destruct b as [|x b]; cbn [hmap_next__] in *.
  - destruct (IH Hl) as (n & rest & E). exists (S n), rest. cbn [replicate app]. by rewrite <-E.
  - by exists 0%nat, bs.
Qed.
Lemma next__skip n bs : hmap_next__ (replicate n [] ++ bs) = hmap_next__ bs.
Proof. by induction n. Qed.

Lemma hmap_first_elem m A h p post : hmap_rep m A → hmap_first m = (h, p) :: post → A !! p = Some h.
Proof.
  intros HR Hf. destruct (next__split _ _ Hf) as (n & rest & E); [done|]. apply elem_of_entries.
  rewrite <-(ho_nodes _ _ HR), E. apply list_elem_of_In, in_concat. exists ((h, p) :: post). split; [|by left].
  apply in_or_app. right. by left.
Qed.
Lemma hmap_first_nil m A : hmap_rep m A → hmap_first m = [] → A = ∅.
Proof.
  intros HR Hf. unfold hmap_first in Hf. rewrite <-(drop_0 (buckets m)) in Hf.
  destruct (hmap_next_from m A 0%nat) as [[_ Hc]|(j & l & Hl & Hne & _)]; [|congruence].
  rewrite drop_0 in Hc. apply map_size_empty_iff. rewrite <-length_entries, <-(ho_nodes _ _ HR), Hc. done.
Qed.
Lemma hmap_remove_first m A h p post m' : hmap_rep m A → hmap_first m = (h, p) :: post →
  hmap_remove m p = Ret m' → hmap_first m' = hmap_next m ((h, p) :: post).
Proof.
  intros HR Hf Hr. pose proof (hmap_first_elem _ _ _ _ _ HR Hf) as Hp.
  destruct (next__split _ _ Hf) as (n & rest & E); [done|].
  assert (buckets m !! n = Some ((h, p) :: post)) as Hn by (rewrite E, lookup_app_r, length_replicate, Nat.sub_diag; rewrite ?length_replicate; done).
  destruct (ho_place _ _ HR n _ (h, p) Hn) as [Hh Hpl]; [by left|]. cbn [fst] in *.
  unfold hmap_remove in Hr. rewrite (node_hash _ _ HR p h Hp) in Hr. cbn [obind] in Hr. unfold bucket in Hr.
  assert (Z.to_nat (Z.land h (mask m)) = n) as Hi by lia. rewrite Hi, Hn in Hr. cbn [obind at_node] in Hr. rewrite Pos.eqb_refl in Hr.
  cbn [obind] in Hr. injection Hr as <-. unfold hmap_first. cbn [buckets drop].
  rewrite (hmap_next_in m A HR [] h p post n Hn). rewrite E, insert_app_r_alt, length_replicate, Nat.sub_diag by (rewrite length_replicate; lia).
  cbn [insert list_insert]. rewrite next__skip. destruct post; [|done]. cbn [hmap_next__].
  rewrite drop_app_ge, length_replicate by (rewrite length_replicate; lia). by replace (S n - n)%nat with 1%nat by lia.
Qed.

Lemma hmap_clear_rep m A : hmap_rep m A → hmap_rep (hmap_clear m) ∅.
Proof.
  intros HR. unfold hmap_clear. unfold hmap_rep, entries in *. rewrite map_to_list_empty.
  destruct (Z.ltb_spec 0 (hm_n m)) as [_|Hn].
  - destruct HR as [H1 H2 H3 H4 H5]. split; cbn [buckets mask hm_n]; [done|by rewrite length_fmap| | |done].
    + intros i l e Hi He. apply list_lookup_fmap_Some in Hi as (? & -> & _). by apply elem_of_nil in He.
    + clear. induction (buckets m); done.
  - pose proof (ho_n _ _ HR) as Hl. destruct (map_to_list A) eqn:E; [done|]. rewrite Hl in Hn. simpl in Hn. lia.
Qed.
