(* ===== verification/ContainerProps.v ===== *)
(** * Correctness of the containers: lib/heap.c and lib/hmap.c *)
From Stdlib Require Import ZArith Lia.
From stdpp Require Import base list gmap numbers option.
From S2P Require Import Prelude Heap HeapProofs Hmap HmapProofs.
Open Scope Z_scope.

(** ** Histories of a heap *)

Inductive heap_op :=
| HInsert (p : positive) (prio : Z)
| HChange (p : positive) (prio : Z)
| HRemove (p : positive)
| HMax.

(** The results of the [HMax] operations are returned in order. *)
Fixpoint heap_run (ops : list heap_op) (h : heap) (s : heap_nodes) : outcome (list positive * heap * heap_nodes) :=
  match ops with
  | [] => Ret ([], h, s)
  | HInsert p v :: ops => let* (h, s) := heap_insert h s p v in heap_run ops h s
  | HChange p v :: ops => let* (h, s) := heap_change h s p v in heap_run ops h s
  | HRemove p :: ops => let* (h, s) := heap_remove h s p in heap_run ops h s
  | HMax :: ops =>
      let* p := heap_max h in
      let* (r, h, s) := heap_run ops h s in
      Ret (p :: r, h, s)
  end.

(** The priority queue as a map from nodes to priorities. *)
Fixpoint heap_spec (ops : list heap_op) (m : gmap positive Z) (r : list positive) (m' : gmap positive Z) : Prop :=
  match ops with
  | [] => r = [] ∧ m' = m
  | HInsert p v :: ops => heap_spec ops (<[p := v]> m) r m'
  | HChange p v :: ops => heap_spec ops (<[p := v]> m) r m'
  | HRemove p :: ops => heap_spec ops (delete p m) r m'
  | HMax :: ops =>
      ∃ p r1 v, r = p :: r1 ∧ m !! p = Some v ∧ (∀ q w, m !! q = Some w → w ≤ v) ∧ heap_spec ops m r1 m'
  end.
(** The callers insert nodes that exist and are not in the queue, and change
    and remove those that are. *)
Fixpoint heap_valid (nodes : positive → Prop) (ops : list heap_op) (m : gmap positive Z) : Prop :=
  match ops with
  | [] => True
  | HInsert p v :: ops => m !! p = None ∧ nodes p ∧ heap_valid nodes ops (<[p := v]> m)
  | HChange p v :: ops => is_Some (m !! p) ∧ heap_valid nodes ops (<[p := v]> m)
  | HRemove p :: ops => is_Some (m !! p) ∧ heap_valid nodes ops (delete p m)
  | HMax :: ops => m ≠ ∅ ∧ heap_valid nodes ops m
  end.

(** What an operation keeps: the nodes that exist. *)
Lemma nodes_kept (nodes : positive → Prop) (m' : gmap positive Z) h (s s' : heap_nodes) :
  (∀ p, nodes p → is_Some (s !! p)) → heap_rep h s' m' → (∀ q, m' !! q = None → s' !! q = s !! q) →
  ∀ p, nodes p → is_Some (s' !! p).
Proof.
  intros Hn HR HO p Hp. destruct (m' !! p) as [v|] eqn:E.
  - destruct (heap_rep_node _ _ _ _ _ HR E) as [i ->]. eauto.
  - rewrite HO by done. by apply Hn.
Qed.

Lemma heap_run_rep nodes ops : ∀ h s m, heap_rep h s m → (∀ p, nodes p → is_Some (s !! p)) →
  heap_valid nodes ops m → Z.of_nat (size m + length ops) < 2 ^ 62 →
  returns (heap_run ops h s) (λ '(r, h', s'), ∃ m', heap_spec ops m r m' ∧ heap_rep h' s' m').
Proof.
  induction ops as [|op ops IH]; intros h s m HR Hn Hv Hsz; [eexists; split; [done|]; by exists m|].
  destruct op as [p v|p v|p|]; cbn [heap_run heap_valid heap_spec length] in *.
  - destruct Hv as (Hp & Hnp & Hv). eapply returns_bind; [apply (heap_insert_rep _ _ _ HR); [done|by apply Hn|lia]|].
    intros [h1 s1] [HR1 HO]. apply (IH _ _ _ HR1); [exact (nodes_kept nodes _ _ s s1 Hn HR1 HO)|done|]. rewrite map_size_insert_None by done. lia.
  - destruct Hv as ([w Hp] & Hv). eapply returns_bind; [by eapply (heap_change_rep _ _ _ HR)|].
    intros [h1 s1] [HR1 HO]. apply (IH _ _ _ HR1); [apply (nodes_kept nodes _ _ s s1 Hn HR1)|done|].
    + intros q Hq. apply HO. apply lookup_insert_None in Hq as [? _]. done.
    + rewrite map_size_insert_Some by eauto. lia.
  - destruct Hv as ([w Hp] & Hv). eapply returns_bind; [by eapply (heap_remove_rep _ _ _ HR)|].
    intros [h1 s1] (HR1 & HO & Hs1). apply (IH _ _ _ HR1); [apply (nodes_kept nodes _ _ s s1 Hn HR1)|done|].
    + intros q Hq. apply lookup_delete_None in Hq as [->|Hq]; [done|by apply HO].
    + rewrite map_size_delete_Some by eauto. lia.
  - destruct Hv as [Hne Hv]. eapply returns_bind; [by apply (heap_max_rep _ _ _ HR)|]. intros p (v & Hp & Hmax).
    eapply returns_bind; [apply (IH _ _ _ HR Hn Hv); lia|]. intros [[r h1] s1] (m' & Hsp & HR1). eexists. split; [done|].
    exists m'. split; [|done]. by exists p, r, v.
Qed.

(** C34: a heap is a priority queue: from [heap_init()] on, every history of
    [heap_insert()], [heap_change()], [heap_remove()] and [heap_max()] of a
    client that inserts nodes once and changes and removes those in the heap
    runs without fault, every maximum is a node with the highest priority of
    those in the heap, and at the end [HEAP_FOR_EACH] visits the nodes in the
    heap once each and the nodes hold their priorities. *)
Theorem heap_correct (s : heap_nodes) (ops : list heap_op) :
  heap_valid (λ p, is_Some (s !! p)) ops ∅ → Z.of_nat (length ops) < 2 ^ 62 →
  returns (heap_run ops heap_init s) (λ '(r, h, s'), ∃ m,
    heap_spec ops ∅ r m ∧
    heap_count h = Z.of_nat (size m) ∧
    (∀ p v, m !! p = Some v → ∃ i, s' !! p = Some (mkHeapNode i v)) ∧
    ∃ l, HEAP_FOR_EACH h s' = Ret l ∧ l ≡ₚ (map_to_list m).*1).
Proof.
  intros Hv Hsz. eapply returns_mono; [apply (heap_run_rep (λ p, is_Some (s !! p)) ops _ _ ∅ (heap_init_rep s)); [done|done|rewrite map_size_empty; lia]|].
  intros [[r h] s'] (m & Hsp & HR). exists m. split; [done|]. pose proof HR as (l & HS & HO & HP). split_and!.
  - unfold heap_count. rewrite (hs_n _ _ _ HS). by apply rep_size.
  - intros p v Hp. by apply (heap_rep_node h s' m).
  - exists l.*1. split; [by apply heap_each_spec|by rewrite HP].
Qed.
Lemma heap_correct_witness :
  let s := list_to_map ((λ p, (p, mkHeapNode 0 0)) <$> [1; 2; 3]%positive) : heap_nodes in
  let ops := [HInsert 1 5; HInsert 2 7; HInsert 3 6; HMax; HChange 2 1; HMax; HRemove 3; HMax] in
  fst <$> (match heap_run ops heap_init s with Ret (r, h, _) => Some (r, heap_count h) | _ => None end) = Some [2; 3; 1]%positive ∧
  returns (heap_run ops heap_init s) (λ '(_, h, _), heap_count h = 2).
Proof.
  intros s ops. split; [vm_compute; reflexivity|].
  eapply returns_mono; [apply (heap_correct s ops)|].
  - cbn [ops heap_valid]. split_and!; try done; try (by eexists); vm_compute; by eauto.
  - vm_compute. reflexivity.
  - intros [[r h] s'] (m & Hsp & -> & _). cbn [ops heap_spec] in Hsp.
    destruct Hsp as (p & r1 & v & _ & _ & _ & Hsp). destruct Hsp as (p2 & r2 & v2 & _ & _ & _ & Hsp).
    destruct Hsp as (p3 & r3 & v3 & _ & _ & _ & _ & ->). vm_compute. reflexivity.
Defined.

(** ** Histories of a hash map *)





