(* ===== verification/MacLearning.v ===== *)
(** * lib/mac-learning.c: the MAC learning table

    The table maps a MAC address and a VLAN to a port, which is a pointer of
    the client that is never followed.  An intrusive list is modelled by the
    list of the objects on it, each of which is on it once.  The members of an
    object that belong to lib/hmap.c and lib/heap.c are kept with these
    structures, under the address of the object.  [time_now()] is an argument;
    times are in seconds, far from the limits of [time_t]. *)
From Stdlib Require Import ZArith Lia.
From stdpp Require Import base list gmap numbers option.
From S2P Require Import Prelude Hash Heap Hmap.
Open Scope Z_scope.

Definition MAC_DEFAULT_MAX : Z := 2048.
Definition MAC_ENTRY_DEFAULT_IDLE_TIME : Z := 300.
Definition MAC_GRAT_ARP_LOCK_TIME : Z := 5.
Definition TIME_MIN : Z := - 2 ^ 63.

(** Addresses are numbers of 48 bits. *)
Record mac_entry := mkEntry {
  expires : Z;
  grat_arp_lock : Z;
  e_mac : Z;
  e_vlan : Z;
  mlport : option positive;
}.

(** The port pointer is a number, 0 for NULL. *)
Record mac_learning_port := mkPort {
  p_port : Z;
  port_lrus : list positive;
}.

(** The table, and the memory for its entries and ports with the next unused
    address. *)
Record mac_learning := mkMl {
  table : hmap;
  lrus : list positive;
  secret : Z;
  flood_vlans : option (list Z);
  idle_time : Z;
  max_entries : Z;
  need_revalidate : bool;
  ports_by_ptr : hmap;
  ports_by_usage : heap;
  mac_entries : gmap positive mac_entry;
  mlports : gmap positive mac_learning_port;
  port_nodes : heap_nodes;
  ref_cnt : Z;
  brk : positive;
}.

Section Set_.
Context (ml : mac_learning).
Definition set_table (t : hmap) (l : list positive) : mac_learning :=
  mkMl t l (secret ml) (flood_vlans ml) (idle_time ml) (max_entries ml) (need_revalidate ml)
    (ports_by_ptr ml) (ports_by_usage ml) (mac_entries ml) (mlports ml) (port_nodes ml) (ref_cnt ml) (brk ml).
Definition set_config (flood : option (list Z)) (idle max : Z) (reval : bool) : mac_learning :=
  mkMl (table ml) (lrus ml) (secret ml) flood idle max reval
    (ports_by_ptr ml) (ports_by_usage ml) (mac_entries ml) (mlports ml) (port_nodes ml) (ref_cnt ml) (brk ml).
Definition set_ports (byptr : hmap) (usage : heap) (ps : gmap positive mac_learning_port) (ns : heap_nodes) : mac_learning :=
  mkMl (table ml) (lrus ml) (secret ml) (flood_vlans ml) (idle_time ml) (max_entries ml) (need_revalidate ml)
    byptr usage (mac_entries ml) ps ns (ref_cnt ml) (brk ml).
Definition set_memory (es : gmap positive mac_entry) (b : positive) : mac_learning :=
  mkMl (table ml) (lrus ml) (secret ml) (flood_vlans ml) (idle_time ml) (max_entries ml) (need_revalidate ml)
    (ports_by_ptr ml) (ports_by_usage ml) es (mlports ml) (port_nodes ml) (ref_cnt ml) b.
Definition set_refs (n : Z) : mac_learning :=
  mkMl (table ml) (lrus ml) (secret ml) (flood_vlans ml) (idle_time ml) (max_entries ml) (need_revalidate ml)
    (ports_by_ptr ml) (ports_by_usage ml) (mac_entries ml) (mlports ml) (port_nodes ml) n (brk ml).
End Set_.

Definition set_reval (ml : mac_learning) (b : bool) : mac_learning :=
  set_config ml (flood_vlans ml) (idle_time ml) (max_entries ml) b.

Definition entry_get (ml : mac_learning) (e : positive) : outcome mac_entry :=
  match mac_entries ml !! e with Some en => Ret en | None => Fault UseAfterFree end.
Definition port_get (ml : mac_learning) (p : positive) : outcome mac_learning_port :=
  match mlports ml !! p with Some pt => Ret pt | None => Fault UseAfterFree end.
Definition entry_set (ml : mac_learning) (e : positive) (en : mac_entry) : mac_learning :=
  set_memory ml (<[e := en]> (mac_entries ml)) (brk ml).
Definition port_set (ml : mac_learning) (p : positive) (pt : mac_learning_port) : mac_learning :=
  set_ports ml (ports_by_ptr ml) (ports_by_usage ml) (<[p := pt]> (mlports ml)) (port_nodes ml).

(** ** lib/list.h *)

Definition list_push_back (l : list positive) (elem : positive) : list positive := l ++ [elem].
Definition ovs_list_remove (l : list positive) (elem : positive) : outcome (list positive) :=
  if bool_decide (elem ∈ l) then Ret (filter (λ x, x ≠ elem) l) else Fault UninitRead.
Definition list_is_empty (l : list positive) : bool := match l with [] => true | _ => false end.
Definition list_front (l : list positive) : outcome positive :=
  match l with [] => Fault AssertFail | e :: _ => Ret e end.

(** ** Hashes and addresses *)

Definition hash_add64 (hash data : Z) : Z := hash_add (hash_add hash (u32 data)) (u32 (Z.shiftr data 32)).
Definition hash_uint64_basis (x basis : Z) : Z := hash_finish (hash_add64 basis x) 8.
Definition eth_addr_vlan_to_uint64 (ea vlan : Z) : Z := Z.lor (u64 (Z.shiftl vlan 48)) ea.
Definition hash_mac (ea vlan basis : Z) : Z := hash_uint64_basis (eth_addr_vlan_to_uint64 ea vlan) basis.
(** Pointers are converted to 32 bits. *)
Definition hash_pointer (p basis : Z) : Z := hash_int (u32 p) basis.
Definition eth_addr_is_multicast (a : Z) : bool := Z.testbit a 40.

Definition mac_table_hash (ml : mac_learning) (mac vlan : Z) : Z := hash_mac mac vlan (secret ml).

(** ** Entries *)

Definition mac_entry_get_port (ml : mac_learning) (e : mac_entry) : outcome Z :=
  match mlport e with
  | Some p => let* pt := port_get ml p in Ret (p_port pt)
  | None => Ret 0
  end.

Definition mac_entry_set_grat_arp_lock (now : Z) (e : mac_entry) : mac_entry :=
  mkEntry (expires e) (now + MAC_GRAT_ARP_LOCK_TIME) (e_mac e) (e_vlan e) (mlport e).
Definition mac_entry_is_grat_arp_locked (now : Z) (e : mac_entry) : bool := now <? grat_arp_lock e.

(** The result is converted to [int]. *)
Definition mac_entry_age (now : Z) (ml : mac_learning) (e : mac_entry) : Z :=
  let remaining := expires e - now in
  (idle_time ml - remaining + 2 ^ 31) mod 2 ^ 32 - 2 ^ 31.

Definition mac_entry_lookup (ml : mac_learning) (mac vlan : Z) : outcome (option positive) :=
  HMAP_FOR_EACH_WITH_HASH (table ml) (mac_table_hash ml mac vlan) (λ e,
    let* en := entry_get ml e in
    Ret ((e_vlan en =? vlan) && (e_mac en =? mac))).

Definition mac_learning_port_lookup (ml : mac_learning) (port : Z) : outcome (option positive) :=
  HMAP_FOR_EACH_IN_BUCKET (ports_by_ptr ml) (hash_pointer port (secret ml)) (λ p,
    let* pt := port_get ml p in
    Ret (p_port pt =? port)).

(** The two halves of [mac_entry_set_port]: leaving the old port, *)
Definition leave_port (ml : mac_learning) (e : positive) (en : mac_entry) : outcome mac_learning :=
  match mlport en with
  | None => Ret ml
  | Some p =>
      let* pt := port_get ml p in
      let* l := ovs_list_remove (port_lrus pt) e in
      let ml := port_set ml p (mkPort (p_port pt) l) in
      let* nd := node_get (port_nodes ml) p in
      let* ml :=
        if list_is_empty l then
          let* _ := ovs_assert (priority nd =? 1) in
          let* byptr := hmap_remove (ports_by_ptr ml) p in
          let* (usage, ns) := heap_remove (ports_by_usage ml) (port_nodes ml) p in
          Ret (set_ports ml byptr usage (delete p (mlports ml)) (delete p ns))
        else
          let* _ := ovs_assert (1 <? priority nd) in
          let* (usage, ns) := heap_change (ports_by_usage ml) (port_nodes ml) p (u64 (priority nd - 1)) in
          Ret (set_ports ml (ports_by_ptr ml) usage (mlports ml) ns) in
      Ret (entry_set ml e (mkEntry (expires en) (grat_arp_lock en) (e_mac en) (e_vlan en) None))
  end.

(** and joining the new one. *)
Definition join_port (ml : mac_learning) (e : positive) (port : Z) : outcome mac_learning :=
  let* r := mac_learning_port_lookup ml port in
  let* (p, ml) :=
    match r with
    | None =>
        let p := brk ml in
        let ml := set_memory ml (mac_entries ml) (Pos.succ p) in
        let ns := <[p := mkHeapNode 0 0]> (port_nodes ml) in
        let* byptr := hmap_insert (ports_by_ptr ml) p (hash_pointer port (secret ml)) in
        let* (usage, ns) := heap_insert (ports_by_usage ml) ns p 1 in
        Ret (p, set_ports ml byptr usage (<[p := mkPort port []]> (mlports ml)) ns)
    | Some p =>
        let* nd := node_get (port_nodes ml) p in
        let* (usage, ns) := heap_change (ports_by_usage ml) (port_nodes ml) p (u64 (priority nd + 1)) in
        Ret (p, set_ports ml (ports_by_ptr ml) usage (mlports ml) ns)
    end in
  let* pt := port_get ml p in
  let ml := port_set ml p (mkPort (p_port pt) (list_push_back (port_lrus pt) e)) in
  let* en := entry_get ml e in
  Ret (entry_set ml e (mkEntry (expires en) (grat_arp_lock en) (e_mac en) (e_vlan en) (Some p))).

Definition mac_entry_set_port (ml : mac_learning) (e : positive) (port : Z) : outcome mac_learning :=
  let* en := entry_get ml e in
  let* old := mac_entry_get_port ml en in
  if negb (old =? port) then
    let ml := set_reval ml true in
    let* ml := leave_port ml e en in
    if negb (port =? 0) then join_port ml e port else Ret ml
  else Ret ml.

Definition mac_learning_expire (ml : mac_learning) (e : positive) : outcome mac_learning :=
  let ml := set_reval ml true in
  let* ml := mac_entry_set_port ml e 0 in
  let* t := hmap_remove (table ml) e in
  let* l := ovs_list_remove (lrus ml) e in
  let ml := set_table ml t l in
  Ret (set_memory ml (delete e (mac_entries ml)) (brk ml)).

Definition evict_mac_entry_fairly (ml : mac_learning) : outcome mac_learning :=
  let* p := heap_max (ports_by_usage ml) in
  let* pt := port_get ml p in
  let* e := list_front (port_lrus pt) in
  mac_learning_expire ml e.

Definition get_lru (ml : mac_learning) : option positive := head (lrus ml).

(** ** The table *)

Definition normalize_idle_time (idle_time : Z) : Z :=
  if idle_time <? 15 then 15 else if 3600 <? idle_time then 3600 else idle_time.

(** [secret] is [random_uint32()]. *)
Definition mac_learning_create (secret idle_time : Z) : mac_learning :=
  mkMl hmap_init [] secret None (normalize_idle_time idle_time) MAC_DEFAULT_MAX false
    hmap_init heap_init ∅ ∅ ∅ 1 1%positive.

Definition mac_learning_set_flood_vlans (ml : mac_learning) (bitmap : option (list Z)) : bool * mac_learning :=
  if bool_decide (flood_vlans ml = bitmap) then (false, ml)
  else (true, set_config ml bitmap (idle_time ml) (max_entries ml) (need_revalidate ml)).

(** [LIST_FOR_EACH (e, lru_node, &ml->lrus) e->expires += delta] *)
Fixpoint shift_expires (ml : mac_learning) (l : list positive) (delta : Z) : outcome mac_learning :=
  match l with
  | [] => Ret ml
  | e :: l =>
      let* en := entry_get ml e in
      shift_expires (entry_set ml e (mkEntry (expires en + delta) (grat_arp_lock en) (e_mac en) (e_vlan en) (mlport en)))
        l delta
  end.
Definition mac_learning_set_idle_time (ml : mac_learning) (idle : Z) : outcome mac_learning :=
  let idle := normalize_idle_time idle in
  if negb (idle =? idle_time ml) then
    let delta := idle - idle_time ml in
    let* ml := shift_expires ml (lrus ml) delta in
    Ret (set_config ml (flood_vlans ml) idle (max_entries ml) (need_revalidate ml))
  else Ret ml.

Definition mac_learning_set_max_entries (ml : mac_learning) (max : Z) : mac_learning :=
  set_config ml (flood_vlans ml) (idle_time ml)
    (if max <? 10 then 10 else if 1000 * 1000 <? max then 1000 * 1000 else max) (need_revalidate ml).

Definition bitmap_is_set (bitmap : list Z) (offset : Z) : outcome bool :=
  match bitmap !! Z.to_nat (offset / 64) with
  | Some w => Ret (Z.testbit w (offset mod 64))
  | None => Fault OutOfBounds
  end.
Definition is_learning_vlan (ml : mac_learning) (vlan : Z) : outcome bool :=
  match flood_vlans ml with
  | None => Ret true
  | Some b => let* set := bitmap_is_set b vlan in Ret (negb set)
  end.
Definition mac_learning_may_learn (ml : mac_learning) (src_mac vlan : Z) : outcome bool :=
  let* learning := is_learning_vlan ml vlan in
  Ret (learning && negb (eth_addr_is_multicast src_mac)).

Definition mac_learning_insert (now : Z) (ml : mac_learning) (src_mac vlan : Z) : outcome (positive * mac_learning) :=
  let* r := mac_entry_lookup ml src_mac vlan in
  let* (e, ml) :=
    match r with
    | None =>
        let hash := mac_table_hash ml src_mac vlan in
        let* ml := if max_entries ml <=? hmap_count (table ml) then evict_mac_entry_fairly ml else Ret ml in
        let e := brk ml in
        let* t := hmap_insert (table ml) e hash in
        let ml := set_table ml t (lrus ml) in
        Ret (e, set_memory ml (<[e := mkEntry 0 TIME_MIN src_mac vlan None]> (mac_entries ml)) (Pos.succ e))
    | Some e =>
        let* l := ovs_list_remove (lrus ml) e in
        Ret (e, set_table ml (table ml) l)
    end in
  let ml := set_table ml (table ml) (list_push_back (lrus ml) e) in
  let* en := entry_get ml e in
  let* ml :=
    match mlport en with
    | None => Ret ml
    | Some p =>
        let* pt := port_get ml p in
        let* l := ovs_list_remove (port_lrus pt) e in
        Ret (port_set ml p (mkPort (p_port pt) (list_push_back l e)))
    end in
  Ret (e, entry_set ml e (mkEntry (now + idle_time ml) (grat_arp_lock en) (e_mac en) (e_vlan en) (mlport en))).

Definition mac_learning_lookup (ml : mac_learning) (dst vlan : Z) : outcome (option positive) :=
  if eth_addr_is_multicast dst then Ret None
  else
    let* learning := is_learning_vlan ml vlan in
    if negb learning then Ret None
    else
      let* r := mac_entry_lookup ml dst vlan in
      match r with
      | None => Ret None
      | Some e =>
          let* en := entry_get ml e in
          let* port := mac_entry_get_port ml en in
          let* _ := ovs_assert (negb (port =? 0)) in
          Ret (Some e)
      end.

(** Every round takes an entry from the list. *)
Fixpoint flush_loop (fuel : nat) (ml : mac_learning) : outcome mac_learning :=
  match get_lru ml with
  | None => Ret ml
  | Some e =>
      match fuel with
      | O => Diverge
      | S fuel => let* ml := mac_learning_expire ml e in flush_loop fuel ml
      end
  end.
Definition mac_learning_flush (ml : mac_learning) : outcome mac_learning :=
  let* ml := flush_loop (length (lrus ml)) ml in
  let* t := hmap_shrink (table ml) in
  Ret (set_table ml t (lrus ml)).

Fixpoint run_loop (fuel : nat) (now : Z) (ml : mac_learning) : outcome mac_learning :=
  match get_lru ml with
  | None => Ret ml
  | Some e =>
      let* en := entry_get ml e in
      if (max_entries ml <? hmap_count (table ml)) || (expires en <=? now) then
        match fuel with
        | O => Diverge
        | S fuel => let* ml := mac_learning_expire ml e in run_loop fuel now ml
        end
      else Ret ml
  end.
Definition mac_learning_run (now : Z) (ml : mac_learning) : outcome (bool * mac_learning) :=
  let* ml := run_loop (length (lrus ml)) now ml in
  Ret (need_revalidate ml, set_reval ml false).

(** What the next poll waits for: [poll_immediate_wake()], or
    [poll_timer_wait_until()] a time in milliseconds. *)
Inductive wakeup :=
| no_wake
| poll_immediate_wake
| poll_timer_wait_until (msec : Z).
Definition mac_learning_wait (ml : mac_learning) : outcome wakeup :=
  if (max_entries ml <? hmap_count (table ml)) || need_revalidate ml then Ret poll_immediate_wake
  else
    match get_lru ml with
    | Some e => let* en := entry_get ml e in Ret (poll_timer_wait_until (expires en * 1000))
    | None => Ret no_wake
    end.

(** ** References *)

Definition mac_learning_ref (ml : mac_learning) : outcome mac_learning :=
  let* _ := ovs_assert (0 <? ref_cnt ml) in
  Ret (set_refs ml (u32 (ref_cnt ml + 1))).

(** [HMAP_FOR_EACH_SAFE]: the next node is found before [node] is freed. *)
Fixpoint expire_loop (fuel : nat) (ml : mac_learning) (node : chain) : outcome mac_learning :=
  match node with
  | [] => Ret ml
  | (_, e) :: _ =>
      match fuel with
      | O => Diverge
      | S fuel =>
          let next := hmap_next (table ml) node in
          let* ml := mac_learning_expire ml e in
          expire_loop fuel ml next
      end
  end.

(** The table that is left to free, when this was the last reference. *)
Definition mac_learning_unref (ml : mac_learning) : outcome (bool * mac_learning) :=
  let old := ref_cnt ml in
  let* _ := ovs_assert (0 <? old) in
  let ml := set_refs ml (old - 1) in
  if old =? 1 then
    let* ml := expire_loop (Z.to_nat (hmap_count (table ml))) ml (hmap_first (table ml)) in
    Ret (true, ml)
  else Ret (false, ml).
