(* ===== verification/MacSpec.v ===== *)
(** * What a MAC learning table promises

    A table is a map from (address, VLAN) to a port with the order in which
    the entries, and the entries of each port, were last learned.  No hash
    table, heap or pointer is left.  The files after this one show that
    lib/mac-learning.c implements it. *)
From Stdlib Require Import ZArith Lia.
From stdpp Require Import base list gmap numbers option.
From S2P Require Import Prelude MacLearning.
Open Scope Z_scope.

Abbreviation key := (Z * Z)%type.
Record sentry := mkSentry { s_port : Z; s_expires : Z; s_lock : Z }.
Record macs := mkMacs {
  s_map : gmap key sentry;
  s_lru : list key;
  s_ports : gmap Z (list key);
}.

Definition without {A} `{EqDecision A} (k : A) (l : list A) : list A := filter (λ x, x ≠ k) l.

Definition s_empty : macs := mkMacs ∅ [] ∅.

Definition ports_leave (ports : gmap Z (list key)) (k : key) (q : Z) : gmap Z (list key) :=
  match ports !! q with
  | None => ports
  | Some l => match without k l with [] => delete q ports | l' => <[q := l']> ports end
  end.
Definition ports_join (ports : gmap Z (list key)) (k : key) (q : Z) : gmap Z (list key) :=
  if bool_decide (q = 0) then ports else <[q := default [] (ports !! q) ++ [k]]> ports.

(** The entry [k] moves to port [q], 0 for none. *)
Definition s_move (S : macs) (k : key) (a : sentry) (q : Z) : macs :=
  mkMacs (<[k := mkSentry q (s_expires a) (s_lock a)]> (s_map S)) (s_lru S)
    (ports_join (ports_leave (s_ports S) k (s_port a)) k q).
Definition s_set_port (S : macs) (k : key) (q : Z) : macs :=
  match s_map S !! k with
  | None => S
  | Some a => if bool_decide (s_port a = q) then S else s_move S k a q
  end.

Definition s_drop (S : macs) (k : key) : macs :=
  mkMacs (delete k (s_map S)) (without k (s_lru S)) (s_ports S).
Definition s_expire (S : macs) (k : key) : macs := s_drop (s_set_port S k 0) k.

(** A new entry, and an old one that is used again. *)
Definition s_add (S : macs) (k : key) (until : Z) : macs :=
  mkMacs (<[k := mkSentry 0 until TIME_MIN]> (s_map S)) (s_lru S ++ [k]) (s_ports S).
Definition s_touch (S : macs) (k : key) (a : sentry) (until : Z) : macs :=
  mkMacs (<[k := mkSentry (s_port a) until (s_lock a)]> (s_map S)) (without k (s_lru S) ++ [k])
    (alter (λ l, without k l ++ [k]) (s_port a) (s_ports S)).

Definition s_delay (S : macs) (delta : Z) : macs :=
  mkMacs ((λ a, mkSentry (s_port a) (s_expires a + delta) (s_lock a)) <$> s_map S) (s_lru S) (s_ports S).

(** The entries a run takes: from the least recently used on, until the table
    is within its maximum and the next entry has not expired. *)
Fixpoint s_run (l : list key) (now max : Z) (S : macs) : macs :=
  match l with
  | [] => S
  | k :: l' =>
      if (max <? Z.of_nat (length l)) || (default 0 (s_expires <$> s_map S !! k) <=? now)
      then s_run l' now max (s_expire S k) else S
  end.

(** [k] is the least recently used entry of a port with the most entries. *)
Definition fair_victim (S : macs) (k : key) : Prop :=
  ∃ q l, s_ports S !! q = Some (k :: l) ∧
    ∀ q' l', s_ports S !! q' = Some l' → (length l' ≤ length (k :: l))%nat.

(** Addresses are learned and found on VLANs that are not flooded. *)
Definition learning_vlan (flood : option (list Z)) (vlan : Z) : bool :=
  match flood with
  | None => true
  | Some b => negb (Z.testbit (default 0 (b !! Z.to_nat (vlan / 64))) (vlan mod 64))
  end.
Definition learnable (flood : option (list Z)) (mac vlan : Z) : bool :=
  learning_vlan flood vlan && negb (eth_addr_is_multicast mac).

(** ** The invariant *)

Record wf (S : macs) : Prop := {
  wf_lru : NoDup (s_lru S);
  wf_dom : ∀ k, k ∈ s_lru S ↔ is_Some (s_map S !! k);
  wf_list : ∀ q l, s_ports S !! q = Some l → q ≠ 0 ∧ l ≠ [] ∧ NoDup l;
  wf_on : ∀ q l k, s_ports S !! q = Some l → k ∈ l ↔ ∃ a, s_map S !! k = Some a ∧ s_port a = q;
  wf_port : ∀ k a, s_map S !! k = Some a → s_port a ≠ 0 → is_Some (s_ports S !! s_port a);
}.

(** Every entry has a port, as the client promises after an insertion. *)
Definition settled (S : macs) : Prop := ∀ k a, s_map S !! k = Some a → s_port a ≠ 0.

Section Without.
Context {A} `{EqDecision A}.
Implicit Types (k x : A) (l : list A).

Lemma elem_of_without k x l : x ∈ without k l ↔ x ≠ k ∧ x ∈ l.
Proof. unfold without. by rewrite list_elem_of_filter. Qed.
Lemma without_nodup k l : NoDup l → NoDup (without k l).
Proof. apply list.NoDup_filter. Qed.
Lemma push_back_nodup k l : NoDup l → NoDup (without k l ++ [k]).
Proof.
  intros Hl. apply list.NoDup_app. split; [by apply without_nodup|]. split; [|apply NoDup_singleton].
  intros x Hx Hk%list_elem_of_singleton. apply elem_of_without in Hx. naive_solver.
Qed.
Lemma elem_of_push_back k x l : k ∈ l → x ∈ without k l ++ [k] ↔ x ∈ l.
Proof.
  intros Hk. rewrite elem_of_app, elem_of_without, list_elem_of_singleton.
  destruct (decide (x = k)) as [->|]; naive_solver.
Qed.
Lemma without_id k l : k ∉ l → without k l = l.
Proof.
  intros Hk. unfold without. induction l as [|x l IH]; [done|]. rewrite filter_cons_True; [|set_solver].
  by rewrite IH by set_solver.
Qed.
Lemma without_cons k l : k ∉ l → without k (k :: l) = l.
Proof. intros Hk. unfold without. rewrite filter_cons_False by naive_solver. by apply without_id. Qed.
Lemma length_without k l : NoDup l → k ∈ l → length l = S (length (without k l)).
Proof.
  intros HN Hk. induction l as [|x l IH]; [by apply elem_of_nil in Hk|]. apply list.NoDup_cons in HN as [Hx HN].
  destruct (decide (x = k)) as [->|Hne]; [by rewrite without_cons|]. unfold without in *.
  rewrite filter_cons_True by done. simpl. rewrite <-IH; [done|done|]. apply elem_of_cons in Hk. naive_solver.
Qed.
End Without.

(** ** Ports *)

Lemma ports_leave_lookup ports k q q' l :
  ports_leave ports k q !! q' = Some l ↔
  if decide (q' = q) then ∃ l0, ports !! q = Some l0 ∧ l = without k l0 ∧ l ≠ [] else ports !! q' = Some l.
Proof.
  unfold ports_leave. destruct (ports !! q) as [l0|] eqn:E.
  - destruct (without k l0) as [|x l1] eqn:W; (destruct (decide (q' = q)) as [->|]).
    + rewrite lookup_delete_eq. naive_solver congruence.
    + by rewrite lookup_delete_ne.
    + rewrite lookup_insert_eq. naive_solver congruence.
    + by rewrite lookup_insert_ne.
  - destruct (decide (q' = q)) as [->|]; [|done]. naive_solver congruence.
Qed.
Lemma ports_join_lookup ports k q q' l : q ≠ 0 →
  ports_join ports k q !! q' = Some l ↔
  if decide (q' = q) then l = default [] (ports !! q) ++ [k] else ports !! q' = Some l.
Proof.
  intros Hq. unfold ports_join. rewrite bool_decide_false by done.
  destruct (decide (q' = q)) as [->|]; [rewrite lookup_insert_eq; naive_solver|by rewrite lookup_insert_ne].
Qed.

(** The entries of the ports [P], when the entry [k] alone is missing on its
    port. *)
Record on_ports (M : gmap key sentry) (ports : gmap Z (list key)) : Prop := {
  on_list : ∀ q l, ports !! q = Some l → q ≠ 0 ∧ l ≠ [] ∧ NoDup l;
  on_elem : ∀ q l k, ports !! q = Some l → k ∈ l ↔ ∃ a, M !! k = Some a ∧ s_port a = q;
  on_some : ∀ k a, M !! k = Some a → s_port a ≠ 0 → is_Some (ports !! s_port a);
}.
Lemma wf_split S : wf S ↔ (NoDup (s_lru S) ∧ ∀ k, k ∈ s_lru S ↔ is_Some (s_map S !! k)) ∧ on_ports (s_map S) (s_ports S).
Proof. split; [intros [? ? ? ? ?]; split; [done|by split]|intros [[? ?] [? ? ?]]; by split]. Qed.

Lemma leave_on M ports k a : on_ports M ports → M !! k = Some a →
  on_ports (<[k := mkSentry 0 (s_expires a) (s_lock a)]> M) (ports_leave ports k (s_port a)).
Proof.
  intros [Hl He Hs] Hk. split.
  - intros q l Hq. apply ports_leave_lookup in Hq. case_decide as D.
    + subst q. destruct Hq as (l0 & H0 & -> & Hne). destruct (Hl _ _ H0) as (? & ? & ?). split; [done|].
      split; [done|by apply without_nodup].
    + by apply (Hl q).
  - intros q l x Hq. apply ports_leave_lookup in Hq. case_decide as D.
    + subst q. destruct Hq as (l0 & H0 & -> & Hne). destruct (Hl _ _ H0) as (Hq0 & _ & _).
      rewrite elem_of_without, (He _ _ x H0). destruct (decide (x = k)) as [->|].
      * rewrite lookup_insert_eq. naive_solver.
      * rewrite lookup_insert_ne by done. naive_solver.
    + destruct (Hl _ _ Hq) as (Hq0 & _ & _). rewrite (He _ _ x Hq). destruct (decide (x = k)) as [->|].
      * rewrite lookup_insert_eq. naive_solver.
      * by rewrite lookup_insert_ne.
  - intros x b Hx Hb. destruct (decide (x = k)) as [->|].
    { rewrite lookup_insert_eq in Hx. naive_solver. }
    rewrite lookup_insert_ne in Hx by done. destruct (Hs _ _ Hx Hb) as [l Hbl].
    destruct (decide (s_port b = s_port a)) as [E|NE].
    + exists (without k l). apply ports_leave_lookup. rewrite decide_True by done. exists l. rewrite <-E.
      split_and!; [done|done|]. assert (x ∈ without k l) as Hin by (apply elem_of_without; split; [done|apply (He _ _ x Hbl); eauto]).
      intros W. rewrite W in Hin. by apply elem_of_nil in Hin.
    + exists l. apply ports_leave_lookup. by rewrite decide_False.
Qed.
Lemma join_on M ports k a q : on_ports M ports → M !! k = Some a → s_port a = 0 →
  on_ports (<[k := mkSentry q (s_expires a) (s_lock a)]> M) (ports_join ports k q).
Proof.
  intros [Hl He Hs] Hk Ha. destruct (decide (q = 0)) as [->|Hq0].
  { unfold ports_join. rewrite bool_decide_true by done. rewrite insert_id; [done|]. rewrite Hk. destruct a. simpl in *. by subst. }
  assert (∀ q' l, ports !! q' = Some l → k ∉ l) as Hnk.
  { intros q' l Hq' Hin. apply (He _ _ k Hq') in Hin as (b & Hb & Hbq). destruct (Hl _ _ Hq') as [? _]. congruence. }
  assert (∀ x, x ∈ default [] (ports !! q) ↔ x ≠ k ∧ ∃ b, M !! x = Some b ∧ s_port b = q) as Hd.
  { intros x. destruct (ports !! q) as [l|] eqn:E; cbn [default from_option id].
    - rewrite (He _ _ x E). split; [|naive_solver]. intros (b & Hb & Hbq). split; [intros ->; congruence|eauto].
    - split; [by intros ?%elem_of_nil|]. intros (_ & b & Hb & <-). destruct (Hs _ _ Hb Hq0) as [? ?]. congruence. }
  split.
  - intros q' l Hq'. apply ports_join_lookup in Hq'; [|done]. case_decide as D; [|by apply (Hl q')].
    subst q' l. split; [done|]. split; [by destruct (default [] _)|]. apply list.NoDup_app. split_and!.
    + destruct (ports !! q) as [l|] eqn:E; [by destruct (Hl _ _ E) as (_ & _ & ?)|apply NoDup_nil_2].
    + intros x Hx ->%list_elem_of_singleton. apply Hd in Hx. naive_solver.
    + apply NoDup_singleton.
  - intros q' l x Hq'. apply ports_join_lookup in Hq'; [|done]. case_decide as D.
    + subst q' l. rewrite elem_of_app, Hd, list_elem_of_singleton. destruct (decide (x = k)) as [->|].
      * rewrite lookup_insert_eq. naive_solver.
      * rewrite lookup_insert_ne by done. naive_solver.
    + destruct (Hl _ _ Hq') as [Hn _]. rewrite (He _ _ x Hq'). destruct (decide (x = k)) as [->|].
      * rewrite lookup_insert_eq. naive_solver congruence.
      * by rewrite lookup_insert_ne.
  - intros x b Hx Hb. destruct (decide (s_port b = q)) as [E|NE].
    + eexists. apply ports_join_lookup; [done|]. by rewrite decide_True.
    + destruct (decide (x = k)) as [->|]; [rewrite lookup_insert_eq in Hx; naive_solver|].
      rewrite lookup_insert_ne in Hx by done. destruct (Hs _ _ Hx Hb) as [l ?]. exists l.
      apply ports_join_lookup; [done|]. by rewrite decide_False.
Qed.

Section Keep.
Context (S : macs) (k : key) (a : sentry).
Hypothesis HW : wf S.

Lemma map_insert_dom b : s_map S !! k = Some a → ∀ x, x ∈ s_lru S ↔ is_Some (<[k := b]> (s_map S) !! x).
Proof.
  intros Hk x. rewrite (wf_dom _ HW). destruct (decide (x = k)) as [->|].
  - rewrite lookup_insert_eq, Hk. by split; eauto.
  - by rewrite lookup_insert_ne.
Qed.

Lemma wf_move q : s_map S !! k = Some a → wf (s_move S k a q).
Proof.
  intros Hk. pose proof (proj1 (wf_split S) HW) as [[Hn _] HP]. apply wf_split. unfold s_move. cbn [s_map s_lru s_ports].
  split; [split; [done|by apply map_insert_dom]|].
  pose proof (join_on _ _ k _ q (leave_on _ _ k a HP Hk) (lookup_insert_eq _ _ _) eq_refl) as HJ.
  by rewrite insert_insert_eq in HJ.
Qed.
Lemma wf_touch until : s_map S !! k = Some a → wf (s_touch S k a until).
Proof.
  intros Hk. pose proof (wf_dom _ HW k) as Hd. assert (k ∈ s_lru S) as Hin by (apply Hd; eauto).
  assert (∀ q l, alter (λ l, without k l ++ [k]) (s_port a) (s_ports S) !! q = Some l →
    ∃ l0, s_ports S !! q = Some l0 ∧ NoDup l ∧ (∀ x, x ∈ l ↔ x ∈ l0)) as HA.
  { intros q l Hq. destruct (decide (q = s_port a)) as [->|].
    - rewrite lookup_alter_eq in Hq. apply fmap_Some in Hq as (l0 & H0 & ->). exists l0. split; [done|].
      destruct (wf_list _ HW _ _ H0) as (_ & _ & ?). split; [by apply push_back_nodup|].
      intros x. apply elem_of_push_back, (wf_on _ HW _ _ k H0). eauto.
    - rewrite lookup_alter_ne in Hq by done. exists l. destruct (wf_list _ HW _ _ Hq) as (_ & _ & ?). done. }
  split; cbn [s_touch s_map s_lru s_ports].
  - apply push_back_nodup, (wf_lru _ HW).
  - intros x. rewrite elem_of_push_back by done. by apply map_insert_dom.
  - intros q l Hq. destruct (HA _ _ Hq) as (l0 & H0 & Hn & Hx). destruct (wf_list _ HW _ _ H0) as (? & ? & ?).
    split_and!; [done| |done]. intros ->. destruct l0 as [|x l0]; [done|]. by apply (elem_of_nil x), Hx; left.
  - intros q l x Hq. destruct (HA _ _ Hq) as (l0 & H0 & _ & Hx). rewrite Hx, (wf_on _ HW _ _ x H0).
    destruct (decide (x = k)) as [->|]; [rewrite lookup_insert_eq; naive_solver|by rewrite lookup_insert_ne].
  - intros x b Hx Hb. assert (is_Some (s_ports S !! s_port b)) as HS.
    { destruct (decide (x = k)) as [->|].
      - rewrite lookup_insert_eq in Hx. injection Hx as <-. cbn [s_port] in *. by apply (wf_port _ HW k).
      - rewrite lookup_insert_ne in Hx by done. by apply (wf_port _ HW x). }
    destruct (decide (s_port b = s_port a)) as [E|]; [rewrite E, lookup_alter_eq in *; by apply fmap_is_Some|by rewrite lookup_alter_ne].
Qed.

Lemma wf_drop : s_map S !! k = Some a → s_port a = 0 → wf (s_drop S k).
Proof.
  intros Hk Ha. split; cbn [s_drop s_map s_lru s_ports].
  - apply without_nodup, (wf_lru _ HW).
  - intros x. rewrite elem_of_without, (wf_dom _ HW). destruct (decide (x = k)) as [->|].
    + rewrite lookup_delete_eq. split; [naive_solver|by intros [? ?]].
    + rewrite lookup_delete_ne by done. naive_solver.
  - apply (wf_list _ HW).
  - intros q l x Hq. rewrite (wf_on _ HW _ _ x Hq). destruct (decide (x = k)) as [->|].
    + rewrite lookup_delete_eq. destruct (wf_list _ HW _ _ Hq) as [? _]. naive_solver congruence.
    + by rewrite lookup_delete_ne.
  - intros x b [_ Hx]%lookup_delete_Some. by apply (wf_port _ HW x).
Qed.

Lemma wf_add until : s_map S !! k = None → wf (s_add S k until).
Proof.
  intros Hk. assert (k ∉ s_lru S) as Hn by (rewrite (wf_dom _ HW), Hk; by intros [? ?]).
  split; cbn [s_add s_map s_lru s_ports].
  - rewrite <-(without_id k (s_lru S)) by done. apply push_back_nodup, (wf_lru _ HW).
  - intros x. rewrite elem_of_app, list_elem_of_singleton, (wf_dom _ HW). destruct (decide (x = k)) as [->|].
    + rewrite lookup_insert_eq. split; [by eauto|by right].
    + rewrite lookup_insert_ne by done. naive_solver.
  - apply (wf_list _ HW).
  - intros q l x Hq. rewrite (wf_on _ HW _ _ x Hq). destruct (decide (x = k)) as [->|].
    + rewrite lookup_insert_eq, Hk. destruct (wf_list _ HW _ _ Hq) as [? _]. split; [naive_solver|].
      intros (b & [= <-] & Hb). by symmetry in Hb.
    + by rewrite lookup_insert_ne.
  - intros x b Hx. destruct (decide (x = k)) as [->|].
    + rewrite lookup_insert_eq in Hx. by injection Hx as <-.
    + rewrite lookup_insert_ne in Hx by done. by apply (wf_port _ HW x).
Qed.

Lemma wf_delay delta : wf (s_delay S delta).
Proof.
  destruct HW as [H1 H2 H3 H4 H5]. split; cbn [s_delay s_map s_lru s_ports]; [done| |done| |].
  - intros x. rewrite H2, lookup_fmap. by rewrite fmap_is_Some.
  - intros q l x Hq. rewrite (H4 _ _ x Hq), lookup_fmap. split; intros (b & Hb & <-).
    + exists (mkSentry (s_port b) (s_expires b + delta) (s_lock b)). by rewrite Hb.
    + apply fmap_Some in Hb as (c & Hc & ->). eauto.
  - intros x b Hb Hp. rewrite lookup_fmap in Hb. apply fmap_Some in Hb as (c & Hc & ->). by apply (H5 x c).
Qed.
End Keep.

Lemma wf_empty : wf s_empty.
Proof.
  split; cbn [s_empty s_map s_lru s_ports]; [apply NoDup_nil_2|..].
  - intros k. rewrite lookup_empty. split; [by intros ?%elem_of_nil|by intros [? ?]].
  - intros q l. by rewrite lookup_empty.
  - intros q l k. by rewrite lookup_empty.
  - intros k a. by rewrite lookup_empty.
Qed.
Lemma wf_set_port S k q : wf S → wf (s_set_port S k q).
Proof.
  intros HW. unfold s_set_port. destruct (s_map S !! k) as [a|] eqn:E; [|done].
  case_bool_decide; [done|by apply wf_move].
Qed.
(** What [s_set_port] leaves at [k]. *)
Lemma set_port_lookup S k a q : s_map S !! k = Some a →
  s_map (s_set_port S k q) !! k = Some (mkSentry q (s_expires a) (s_lock a)).
Proof.
  intros Hk. unfold s_set_port. rewrite Hk. case_bool_decide as D.
  - rewrite Hk. destruct a. simpl in *. by subst.
  - apply lookup_insert_eq.
Qed.
Lemma set_port_map S k q k' : k' ≠ k → s_map (s_set_port S k q) !! k' = s_map S !! k'.
Proof.
  intros Hne. unfold s_set_port. destruct (s_map S !! k); [|done]. case_bool_decide; [done|]. by apply lookup_insert_ne.
Qed.
Lemma set_port_lru S k q : s_lru (s_set_port S k q) = s_lru S.
Proof. unfold s_set_port. destruct (s_map S !! k); [|done]. by case_bool_decide. Qed.
Lemma wf_expire S k : wf S → is_Some (s_map S !! k) → wf (s_expire S k).
Proof. intros HW [a Hk]. eapply wf_drop; [by apply wf_set_port|by apply set_port_lookup|done]. Qed.
Lemma expire_map S k k' : s_map (s_expire S k) !! k' = if decide (k' = k) then None else s_map S !! k'.
Proof.
  unfold s_expire, s_drop. cbn [s_map]. case_decide as D; [subst; apply lookup_delete_eq|].
  rewrite lookup_delete_ne by done. by apply set_port_map.
Qed.
Lemma expire_lru S k : s_lru (s_expire S k) = without k (s_lru S).
Proof. unfold s_expire, s_drop. cbn [s_lru]. by rewrite set_port_lru. Qed.
Lemma expire_settled S k : settled S → settled (s_expire S k).
Proof. intros HS x a. rewrite expire_map. case_decide; [done|]. apply HS. Qed.

(** ** Sizes *)

(** A list without duplicates of the keys of a map has its size. *)
Lemma size_keys {K A} `{Countable K} (m : gmap K A) (l : list K) :
  NoDup l → (∀ k, k ∈ l ↔ is_Some (m !! k)) → size m = length l.
Proof.
  intros Hn Hl. rewrite <-length_map_to_list, <-(length_fmap fst). apply Permutation_length, NoDup_Permutation; [apply NoDup_fst_map_to_list|done|].
  intros k. rewrite Hl, list_elem_of_fmap. split.
  - intros ([k' a] & -> & Hin%elem_of_map_to_list). eauto.
  - intros [a Ha]. exists (k, a). split; [done|]. by apply elem_of_map_to_list.
Qed.
Lemma size_map S : wf S → size (s_map S) = length (s_lru S).
Proof. intros HW. apply size_keys; [apply (wf_lru _ HW)|apply (wf_dom _ HW)]. Qed.

(** A port has an entry, so there are at most as many ports as entries. *)
Lemma size_ports S : wf S → (size (s_ports S) ≤ length (s_lru S))%nat.
Proof.
  intros HW. rewrite <-size_map, <-length_map_to_list, <-(length_fmap fst) by done.
  rewrite <-(length_map_to_list (s_map S)), <-(length_fmap (λ '(k, a), s_port a) (map_to_list (s_map S))).
  apply submseteq_length, NoDup_submseteq; [apply NoDup_fst_map_to_list|].
  intros q Hq. apply list_elem_of_fmap in Hq as ([q' l] & -> & Hl%elem_of_map_to_list).
  destruct (wf_list _ HW _ _ Hl) as (_ & Hne & _). destruct l as [|k l]; [done|].
  destruct (proj1 (wf_on _ HW _ _ k Hl)) as (a & Ha & Hp); [by left|]. apply list_elem_of_fmap.
  exists (k, a). split; [done|]. by apply elem_of_map_to_list.
Qed.

(** An overfull table has a port to take an entry from. *)
Lemma ports_nonempty S : wf S → settled S → s_map S ≠ ∅ → s_ports S ≠ ∅.
Proof.
  intros HW HS Hne He. apply Hne, map_empty. intros k. destruct (s_map S !! k) as [a|] eqn:E; [|done].
  destruct (wf_port _ HW _ _ E (HS _ _ E)) as [l Hl]. by rewrite He, lookup_empty in Hl.
Qed.
Lemma fair_victim_entry S k : wf S → fair_victim S k → is_Some (s_map S !! k).
Proof. intros HW (q & l & Hl & _). apply (wf_on _ HW _ _ k) in Hl as [Hin _]. destruct Hin as (a & Ha & _); [by left|eauto]. Qed.
