(* ===== verification/MacMemory.v ===== *)
(** * The memory of a MAC learning table

    How the entries and ports of lib/mac-learning.c represent a table of
    MacSpec.v: [E] gives the address of an entry and [P] that of a port. *)
From Stdlib Require Import ZArith Lia.
From stdpp Require Import base list gmap numbers option.
From S2P Require Import Prelude Hash Heap HeapProofs Hmap HmapProofs MacLearning MacSpec.
Open Scope Z_scope.

Abbreviation entry_map := (gmap key positive).
Abbreviation port_map := (gmap Z positive).

Definition concrete (P : port_map) (k : key) (a : sentry) : mac_entry :=
  mkEntry (s_expires a) (s_lock a) k.1 k.2 (P !! s_port a).
Definition addrs (E : entry_map) (l : list key) (l' : list positive) : Prop :=
  Forall2 (λ k e, E !! k = Some e) l l'.
Definition injective {K} `{Countable K} (m : gmap K positive) : Prop :=
  ∀ k k' p, m !! k = Some p → m !! k' = Some p → k = k'.

(** ** Lists of addresses *)

Section Addrs.
Context (E : entry_map).
Implicit Types (k : key) (e : positive).

Lemma addrs_elem l l' k e : injective E → addrs E l l' → E !! k = Some e → k ∈ l ↔ e ∈ l'.
Proof.
  intros HI HA Hk. induction HA as [|k1 e1 l l' H1 HA IH]; [by rewrite !elem_of_nil|].
  rewrite !elem_of_cons, IH. split; (intros [->|?]; [left|by right]); [congruence|by apply (HI _ _ e1)].
Qed.
Lemma addrs_without l l' k e : injective E → addrs E l l' → E !! k = Some e → addrs E (without k l) (without e l').
Proof.
  intros HI HA Hk. unfold without. induction HA as [|k1 e1 l l' H1 HA IH]; [constructor|].
  destruct (decide (k1 = k)) as [->|Hne].
  - assert (e1 = e) as -> by congruence. rewrite !filter_cons_False by naive_solver. done.
  - rewrite (filter_cons_True _ k1), (filter_cons_True _ e1) by (intros ?; naive_solver). by constructor.
Qed.
Lemma addrs_push l l' k e : addrs E l l' → E !! k = Some e → addrs E (l ++ [k]) (l' ++ [e]).
Proof. intros HA Hk. apply Forall2_app; [done|]. by constructor. Qed.
Lemma addrs_nil l l' : addrs E l l' → list_is_empty l' = bool_decide (l = []).
Proof. by intros []. Qed.
Lemma addrs_nodup l l' : injective E → addrs E l l' → NoDup l → NoDup l'.
Proof.
  intros HI HA HN. induction HA as [|k e l l' H1 HA IH]; [constructor|].
  apply list.NoDup_cons in HN as [Hk HN]. apply list.NoDup_cons. split; [|by apply IH].
  by rewrite <-(addrs_elem l l' k e).
Qed.
Lemma addrs_other E' l l' : (∀ k, k ∈ l → E' !! k = E !! k) → addrs E l l' → addrs E' l l'.
Proof.
  intros HE HA. induction HA as [|k e l l' H1 HA IH]; [constructor|]. constructor.
  - by rewrite HE by left.
  - apply IH. intros x Hx. apply HE. by right.
Qed.
Lemma addrs_inv l l' e : addrs E l l' → e ∈ l' → ∃ k, k ∈ l ∧ E !! k = Some e.
Proof.
  intros HA He. apply list_elem_of_lookup_1 in He as [i Hi]. eapply Forall2_lookup_r in Hi as (k & Hk & ?); [|done].
  exists k. split; [by eapply list_elem_of_lookup_2|done].
Qed.
End Addrs.

Lemma ovs_list_remove_Ret l e : e ∈ l → ovs_list_remove l e = Ret (without e l).
Proof. intros He. unfold ovs_list_remove. by rewrite bool_decide_true. Qed.
(** ** Entries *)

Record ent_sim (M : gmap positive mac_entry) (map : gmap key sentry) (E : entry_map) (P : port_map) : Prop := {
  es_dom : ∀ k, is_Some (E !! k) ↔ is_Some (map !! k);
  es_inj : injective E;
  es_at : ∀ k e, E !! k = Some e → M !! e = concrete P k <$> map !! k;
  es_only : ∀ e, is_Some (M !! e) → ∃ k, E !! k = Some e;
}.

Section Ent.
Context (M : gmap positive mac_entry) (map : gmap key sentry) (E : entry_map) (P : port_map).
Hypothesis HE : ent_sim M map E P.

Lemma es_get k a : map !! k = Some a → ∃ e, E !! k = Some e ∧ M !! e = Some (concrete P k a).
Proof.
  intros Hk. destruct (proj2 (es_dom _ _ _ _ HE k)) as [e He]; [by eauto|].
  exists e. split; [done|]. by rewrite (es_at _ _ _ _ HE k e He), Hk.
Qed.
Lemma es_inv e en : M !! e = Some en → ∃ k a, E !! k = Some e ∧ map !! k = Some a ∧ en = concrete P k a.
Proof.
  intros He. destruct (es_only _ _ _ _ HE e) as [k Hk]; [by eauto|].
  rewrite (es_at _ _ _ _ HE k e Hk) in He. apply fmap_Some in He as (a & Ha & ->). by exists k, a.
Qed.
Lemma es_update k e b : E !! k = Some e → ent_sim (<[e := concrete P k b]> M) (<[k := b]> map) E P.
Proof.
  intros Hk. destruct HE as [H1 H2 H3 H4]. split; [|done| |].
  - intros x. rewrite H1. destruct (decide (x = k)) as [->|].
    + rewrite lookup_insert_eq. split; [by eauto|]. intros _. apply H1. eauto.
    + by rewrite lookup_insert_ne.
  - intros x y Hx. destruct (decide (x = k)) as [->|Hne].
    + assert (y = e) as -> by congruence. by rewrite !lookup_insert_eq.
    + rewrite !lookup_insert_ne; [by apply H3|congruence|]. intros ->. by apply Hne, (H2 _ _ y).
  - intros y. destruct (decide (y = e)) as [->|]; [eauto|]. rewrite lookup_insert_ne by done. apply H4.
Qed.
Lemma es_ports P' : (∀ k a, map !! k = Some a → P' !! s_port a = P !! s_port a) → ent_sim M map E P'.
Proof.
  intros HP. destruct HE as [H1 H2 H3 H4]. split; [done|done| |done]. intros k e Hk. rewrite (H3 k e Hk).
  destruct (map !! k) as [a|] eqn:Ek; [|done]. simpl. unfold concrete. by rewrite (HP k a).
Qed.
Lemma es_delete k e : E !! k = Some e → ent_sim (delete e M) (delete k map) (delete k E) P.
Proof.
  intros Hk. destruct HE as [H1 H2 H3 H4]. split.
  - intros x. destruct (decide (x = k)) as [->|]; [by rewrite !lookup_delete_eq|]. by rewrite !lookup_delete_ne.
  - intros x y p [_ Hx]%lookup_delete_Some [_ Hy]%lookup_delete_Some. by apply (H2 _ _ p).
  - intros x y [Hne Hx]%lookup_delete_Some. rewrite !lookup_delete_ne; [by apply H3|done|]. intros ->. by apply Hne, (H2 _ _ y).
  - intros y [en [Hne Hy]%lookup_delete_Some]. destruct (H4 y) as [x Hx]; [by eauto|]. exists x.
    rewrite lookup_delete_ne; [done|]. congruence.
Qed.
Lemma es_new k e b : E !! k = None → M !! e = None → ent_sim (<[e := concrete P k b]> M) (<[k := b]> map) (<[k := e]> E) P.
Proof.
  intros Hk He. destruct HE as [H1 H2 H3 H4].
  assert (∀ x, E !! x ≠ Some e) as Hfresh.
  { intros x Hx. pose proof (H3 x e Hx) as Hy. rewrite He in Hy. destruct (proj1 (H1 x)) as [a Ha]; [by eauto|]. by rewrite Ha in Hy. }
  split.
  - intros x. destruct (decide (x = k)) as [->|]; [rewrite !lookup_insert_eq; split; eauto|]. by rewrite !lookup_insert_ne.
  - intros x y p Hx Hy. apply lookup_insert_Some in Hx, Hy. naive_solver.
  - intros x y Hx. apply lookup_insert_Some in Hx as [[<- <-]|[Hne Hx]]; [by rewrite !lookup_insert_eq|].
    rewrite !lookup_insert_ne; [by apply H3|done|]. intros ->. by apply (Hfresh x).
  - intros y Hy. destruct (decide (y = e)) as [->|]; [exists k; apply lookup_insert_eq|].
    rewrite lookup_insert_ne in Hy by done. destruct (H4 y Hy) as [x Hx]. exists x. rewrite lookup_insert_ne; [done|]. congruence.
Qed.
End Ent.

(** ** Ports *)

Record port_sim (N : gmap positive mac_learning_port) (ports : gmap Z (list key)) (E : entry_map) (P : port_map) : Prop := {
  ps_dom : ∀ q, is_Some (P !! q) ↔ is_Some (ports !! q);
  ps_inj : injective P;
  ps_at : ∀ q p l, P !! q = Some p → ports !! q = Some l → ∃ l', N !! p = Some (mkPort q l') ∧ addrs E l l';
  ps_only : ∀ p, is_Some (N !! p) → ∃ q, P !! q = Some p;
}.

Section Port.
Context (N : gmap positive mac_learning_port) (ports : gmap Z (list key)) (E : entry_map) (P : port_map).
Hypothesis HP : port_sim N ports E P.

Lemma ps_get q l : ports !! q = Some l → ∃ p l', P !! q = Some p ∧ N !! p = Some (mkPort q l') ∧ addrs E l l'.
Proof.
  intros Hq. destruct (proj2 (ps_dom _ _ _ _ HP q)) as [p Hp]; [by eauto|].
  destruct (ps_at _ _ _ _ HP q p l Hp Hq) as (l' & ? & ?). by exists p, l'.
Qed.
Lemma ps_inv p pt : N !! p = Some pt → ∃ l, P !! p_port pt = Some p ∧ ports !! p_port pt = Some l ∧ addrs E l (port_lrus pt).
Proof.
  intros Hp. destruct (ps_only _ _ _ _ HP p) as [q Hq]; [by eauto|].
  destruct (proj1 (ps_dom _ _ _ _ HP q)) as [l Hl]; [by eauto|].
  destruct (ps_at _ _ _ _ HP q p l Hq Hl) as (l' & Hl' & HA). rewrite Hp in Hl'. injection Hl' as ->. by exists l.
Qed.
Lemma ps_update q p l l' : P !! q = Some p → addrs E l l' → port_sim (<[p := mkPort q l']> N) (<[q := l]> ports) E P.
Proof.
  intros Hq HA. destruct HP as [H1 H2 H3 H4]. split; [|done| |].
  - intros x. rewrite H1. destruct (decide (x = q)) as [->|].
    + rewrite lookup_insert_eq. split; [by eauto|]. intros _. apply H1. eauto.
    + by rewrite lookup_insert_ne.
  - intros x y l1 Hx Hl1. apply lookup_insert_Some in Hl1 as [[<- <-]|[Hne Hl1]].
    + assert (y = p) as -> by congruence. exists l'. by rewrite lookup_insert_eq.
    + rewrite lookup_insert_ne; [by apply H3|]. intros ->. by apply Hne, (H2 _ _ y).
  - intros y. destruct (decide (y = p)) as [->|]; [eauto|]. rewrite lookup_insert_ne by done. apply H4.
Qed.
Lemma ps_delete q p : P !! q = Some p → port_sim (delete p N) (delete q ports) E (delete q P).
Proof.
  intros Hq. destruct HP as [H1 H2 H3 H4]. split.
  - intros x. destruct (decide (x = q)) as [->|]; [by rewrite !lookup_delete_eq|]. by rewrite !lookup_delete_ne.
  - intros x y z [_ Hx]%lookup_delete_Some [_ Hy]%lookup_delete_Some. by apply (H2 _ _ z).
  - intros x y l [Hne Hx]%lookup_delete_Some [_ Hl]%lookup_delete_Some.
    rewrite lookup_delete_ne; [by apply H3|]. intros ->. by apply Hne, (H2 _ _ y).
  - intros y [pt [Hne Hy]%lookup_delete_Some]. destruct (H4 y) as [x Hx]; [by eauto|]. exists x.
    rewrite lookup_delete_ne; [done|]. congruence.
Qed.
Lemma ps_new q p l l' : P !! q = None → N !! p = None → addrs E l l' →
  port_sim (<[p := mkPort q l']> N) (<[q := l]> ports) E (<[q := p]> P).
Proof.
  intros Hq Hp HA. destruct HP as [H1 H2 H3 H4].
  assert (∀ x, P !! x ≠ Some p) as Hfresh.
  { intros x Hx. destruct (proj1 (H1 x)) as [l1 Hl1]; [by eauto|]. destruct (H3 x p l1 Hx Hl1) as (? & ? & _). congruence. }
  split.
  - intros x. destruct (decide (x = q)) as [->|]; [rewrite !lookup_insert_eq; split; eauto|]. by rewrite !lookup_insert_ne.
  - intros x y z Hx Hy. apply lookup_insert_Some in Hx, Hy. naive_solver.
  - intros x y l1 Hx Hl1. apply lookup_insert_Some in Hx as [[<- <-]|[Hne Hx]].
    + rewrite lookup_insert_eq in Hl1. injection Hl1 as <-. exists l'. by rewrite lookup_insert_eq.
    + rewrite lookup_insert_ne in Hl1 by done. rewrite lookup_insert_ne; [by apply H3|]. intros ->. by apply (Hfresh x).
  - intros y Hy. destruct (decide (y = p)) as [->|]; [exists q; apply lookup_insert_eq|].
    rewrite lookup_insert_ne in Hy by done. destruct (H4 y Hy) as [x Hx]. exists x. rewrite lookup_insert_ne; [done|]. congruence.
Qed.
(** The addresses of entries that are on no port may change. *)
Lemma ps_entries E' : (∀ q l k, ports !! q = Some l → k ∈ l → E' !! k = E !! k) → port_sim N ports E' P.
Proof.
  intros HE. destruct HP as [H1 H2 H3 H4]. split; [done|done| |done]. intros q p l Hq Hl.
  destruct (H3 q p l Hq Hl) as (l' & ? & HA). exists l'. split; [done|]. eapply addrs_other; [|exact HA].
  intros k. by apply (HE q).
Qed.

Lemma size_le {K A} `{Countable K} (m : gmap K A) (l : list K) :
  (∀ k, is_Some (m !! k) → k ∈ l) → (size m ≤ length l)%nat.
Proof.
  intros Hl. rewrite <-length_map_to_list, <-(length_fmap fst). apply submseteq_length, NoDup_submseteq; [apply NoDup_fst_map_to_list|].
  intros k ([k' a] & -> & Hin%elem_of_map_to_list)%list_elem_of_fmap. apply Hl. eauto.
Qed.
Lemma size_N : (size N ≤ size ports)%nat.
Proof.
  trans (size P).
  - rewrite <-(length_map_to_list P), <-(length_fmap snd). apply size_le. intros p Hp.
    destruct (ps_only _ _ _ _ HP p Hp) as [q Hq]. apply list_elem_of_fmap. exists (q, p). split; [done|].
    by apply elem_of_map_to_list.
  - rewrite <-(length_map_to_list ports), <-(length_fmap fst). apply size_le. intros q [l Hl]%(ps_dom _ _ _ _ HP).
    apply list_elem_of_fmap. exists (q, l). split; [done|]. by apply elem_of_map_to_list.
Qed.
End Port.

(** ** The table *)

Definition entry_hash (secret : Z) (en : mac_entry) : Z := hash_mac (e_mac en) (e_vlan en) secret.
Definition port_hash (secret : Z) (pt : mac_learning_port) : Z := hash_pointer (p_port pt) secret.
Definition usage (pt : mac_learning_port) : Z := Z.of_nat (length (port_lrus pt)).

Lemma entry_hash_range s en : 0 ≤ entry_hash s en.
Proof. apply mhash_finish_range. Qed.
Lemma table_hash_range ml mac vlan : 0 ≤ mac_table_hash ml mac vlan.
Proof. apply mhash_finish_range. Qed.
Lemma port_hash_range s q : 0 ≤ hash_pointer q s.
Proof. apply mhash_finish_range. Qed.

#[global] Opaque hash_mac hash_pointer.

(** The indexes hold what is in memory, and no more memory is in use. *)
Record boxes (ml : mac_learning) : Prop := {
  bx_table : hmap_rep (table ml) (entry_hash (secret ml) <$> mac_entries ml);
  bx_ptr : hmap_rep (ports_by_ptr ml) (port_hash (secret ml) <$> mlports ml);
  bx_usage : heap_rep (ports_by_usage ml) (port_nodes ml) (usage <$> mlports ml);
  bx_nodes : ∀ p, is_Some (port_nodes ml !! p) ↔ is_Some (mlports ml !! p);
  bx_brk : ∀ x, is_Some (mac_entries ml !! x) ∨ is_Some (mlports ml !! x) → (x < brk ml)%positive;
}.

Record sim (ml : mac_learning) (S : macs) (E : entry_map) (P : port_map) : Prop := {
  sim_wf : wf S;
  sim_ent : ent_sim (mac_entries ml) (s_map S) E P;
  sim_lru : addrs E (s_lru S) (lrus ml);
  sim_port : port_sim (mlports ml) (s_ports S) E P;
  sim_box : boxes ml;
}.

(** What the operations on entries leave alone. *)
Definition config (ml : mac_learning) := (secret ml, flood_vlans ml, idle_time ml, max_entries ml, ref_cnt ml).

Section Sim.
Context (ml : mac_learning) (S : macs) (E : entry_map) (P : port_map).
Hypothesis HS : sim ml S E P.

Lemma sim_size : size (mac_entries ml) = length (s_lru S).
Proof.
  pose proof (sim_ent _ _ _ _ HS) as HE. pose proof (sim_wf _ _ _ _ HS) as HW. pose proof (sim_lru _ _ _ _ HS) as HL.
  rewrite (Forall2_length HL). apply size_keys; [eapply addrs_nodup; [apply (es_inj _ _ _ _ HE)|done|apply (wf_lru _ HW)]|].
  intros e. split.
  - intros He. destruct (addrs_inv _ _ _ _ HL He) as (k & Hk & Hke). rewrite (es_at _ _ _ _ HE k e Hke).
    apply fmap_is_Some. by apply (wf_dom _ HW).
  - intros He. destruct He as [en He]. destruct (es_inv _ _ _ _ HE e en He) as (k & a & Hke & Hk & _).
    apply (addrs_elem E (s_lru S) _ k e); [apply (es_inj _ _ _ _ HE)|done|done|]. apply (wf_dom _ HW). eauto.
Qed.
Lemma sim_ports_size : (size (mlports ml) ≤ length (s_lru S))%nat.
Proof.
  etrans; [apply (size_N _ _ _ _ (sim_port _ _ _ _ HS))|]. apply size_ports, (sim_wf _ _ _ _ HS).
Qed.
Lemma sim_fresh : mac_entries ml !! brk ml = None ∧ mlports ml !! brk ml = None.
Proof.
  pose proof (bx_brk _ (sim_box _ _ _ _ HS) (brk ml)) as Hb.
  split; apply eq_None_not_Some; intros Hs; assert (brk ml < brk ml)%positive by (apply Hb; auto); lia.
Qed.
Lemma sim_count : Z.of_nat (length (s_lru S)) < 2 ^ 62 → hmap_count (table ml) = Z.of_nat (length (s_lru S)).
Proof. intros. rewrite (hmap_count_rep _ _ (bx_table _ (sim_box _ _ _ _ HS))), map_size_fmap. by rewrite sim_size. Qed.

Lemma lookup_spec mac vlan : returns (mac_entry_lookup ml mac vlan) (λ r, r = E !! (mac, vlan)).
Proof.
  pose proof (sim_ent _ _ _ _ HS) as HE. unfold mac_entry_lookup.
  set (tb := λ e, match mac_entries ml !! e with Some en => (e_vlan en =? vlan) && (e_mac en =? mac) | None => false end).
  eapply returns_mono; [apply (for_each_with_hash _ _ (bx_table _ (sim_box _ _ _ _ HS)) _ _ tb)|].
  - apply table_hash_range.
  - intros e He. rewrite lookup_fmap in He. apply fmap_Some in He as (en & He & _).
    unfold tb, entry_get. by rewrite He.
  - intros [e|].
    + intros [He Ht]. unfold tb in Ht. destruct (mac_entries ml !! e) as [en|] eqn:Hen; [|done].
      destruct (es_inv _ _ _ _ HE e en Hen) as ([m v] & a & Hk & _ & ->). cbn in Ht.
      apply andb_true_iff in Ht as [->%Z.eqb_eq ->%Z.eqb_eq]. done.
    + intros Hall. symmetry. apply eq_None_not_Some. intros [e He]. destruct (proj1 (es_dom _ _ _ _ HE (mac, vlan))) as [a Ha]; [by eauto|].
      pose proof (es_at _ _ _ _ HE _ _ He) as Hen. rewrite Ha in Hen. cbn in Hen.
      assert (tb e = false) as Ht by (apply Hall; by rewrite lookup_fmap, Hen).
      unfold tb in Ht. rewrite Hen in Ht. cbn in Ht. by rewrite !Z.eqb_refl in Ht.
Qed.
Lemma port_lookup_spec q : returns (mac_learning_port_lookup ml q) (λ r, r = P !! q).
Proof.
  pose proof (sim_port _ _ _ _ HS) as HP. unfold mac_learning_port_lookup.
  set (tb := λ p, match mlports ml !! p with Some pt => p_port pt =? q | None => false end).
  eapply returns_mono; [apply (for_each_in_bucket _ _ (bx_ptr _ (sim_box _ _ _ _ HS)) _ _ tb)|].
  - apply port_hash_range.
  - intros p [h Hp]. rewrite lookup_fmap in Hp. apply fmap_Some in Hp as (pt & Hp & _). unfold tb, port_get. by rewrite Hp.
  - intros [p|].
    + intros [_ Ht]. unfold tb in Ht. destruct (mlports ml !! p) as [pt|] eqn:Hpt; [|done].
      destruct (ps_inv _ _ _ _ HP p pt Hpt) as (l & Hq & _). apply Z.eqb_eq in Ht. by subst q.
    + intros Hall. symmetry. apply eq_None_not_Some. intros [p Hp]. destruct (proj1 (ps_dom _ _ _ _ HP q)) as [l Hl]; [by eauto|].
      destruct (ps_at _ _ _ _ HP q p l Hp Hl) as (l' & Hpt & _).
      assert (tb p = false) as Ht by (apply Hall; by rewrite lookup_fmap, Hpt).
      unfold tb in Ht. rewrite Hpt in Ht. cbn in Ht. by rewrite Z.eqb_refl in Ht.
Qed.
End Sim.
