(* ===== verification/MacLearningProofs.v ===== *)
(** * lib/mac-learning.c implements MacSpec.v *)
From Stdlib Require Import ZArith Lia.
From stdpp Require Import base list gmap numbers option.
From S2P Require Import Prelude Hash Heap HeapProofs Hmap HmapProofs MacLearning MacSpec MacMemory.
Open Scope Z_scope.

(** Changing the members of an entry other than its key keeps its hash. *)
Lemma hash_kept s (M : gmap positive mac_entry) e en en' : M !! e = Some en →
  e_mac en' = e_mac en → e_vlan en' = e_vlan en → entry_hash s <$> <[e := en']> M = entry_hash s <$> M.
Proof.
  intros He Hm Hv. rewrite fmap_insert. apply insert_id. rewrite lookup_fmap, He. simpl. unfold entry_hash. by rewrite Hm, Hv.
Qed.
Lemma dom_insert_kept {A} (m : gmap positive A) p a b : m !! p = Some a → ∀ x, is_Some (<[p := b]> m !! x) ↔ is_Some (m !! x).
Proof.
  intros Hp x. destruct (decide (x = p)) as [->|]; [rewrite lookup_insert_eq, Hp; by split; eauto|]. by rewrite lookup_insert_ne.
Qed.

(** ** The boxes after a change of the memory *)

Section Boxes.
Context (ml : mac_learning).
Hypothesis HB : boxes ml.

Lemma box_entry e en en' : mac_entries ml !! e = Some en → e_mac en' = e_mac en → e_vlan en' = e_vlan en →
  boxes (entry_set ml e en').
Proof.
  intros He Hm Hv. destruct HB as [H1 H2 H3 H4 H5]. split; cbn; [by rewrite (hash_kept _ _ _ en)|done|done|done|].
  intros x. rewrite (dom_insert_kept _ _ en) by done. apply H5.
Qed.
Lemma box_port p pt l : mlports ml !! p = Some pt → length l = length (port_lrus pt) →
  boxes (port_set ml p (mkPort (p_port pt) l)).
Proof.
  intros Hp Hl. destruct HB as [H1 H2 H3 H4 H5]. split; cbn; [done|..].
  - rewrite fmap_insert, insert_id; [done|]. by rewrite lookup_fmap, Hp.
  - rewrite fmap_insert, insert_id; [done|]. rewrite lookup_fmap, Hp. simpl. unfold usage. cbn [port_lrus]. by rewrite Hl.
  - intros x. rewrite (dom_insert_kept _ _ pt) by done. apply H4.
  - intros x. rewrite (dom_insert_kept _ _ pt) by done. apply H5.
Qed.
(** A new priority, with the list that has it. *)
Lemma box_change p pt l h' s' : mlports ml !! p = Some pt →
  heap_rep h' s' (<[p := Z.of_nat (length l)]> (usage <$> mlports ml)) →
  others_kept (usage <$> mlports ml) (port_nodes ml) s' →
  boxes (set_ports ml (ports_by_ptr ml) h' (<[p := mkPort (p_port pt) l]> (mlports ml)) s').
Proof.
  intros Hp HR HO. destruct HB as [H1 H2 H3 H4 H5]. split; cbn; [done|..].
  - rewrite fmap_insert, insert_id; [done|]. by rewrite lookup_fmap, Hp.
  - by rewrite fmap_insert.
  - intros x. rewrite (dom_insert_kept _ _ pt) by done. rewrite <-H4. destruct (mlports ml !! x) as [pt'|] eqn:Hx.
    + assert (∃ v, <[p:=Z.of_nat (length l)]> (usage <$> mlports ml) !! x = Some v) as [v Hv].
      { apply (dom_insert_kept _ _ (usage pt)); [by rewrite lookup_fmap, Hp|]. rewrite lookup_fmap, Hx. by eauto. }
      destruct (heap_rep_node _ _ _ _ _ HR Hv) as [i ->]. split; [intros _; apply H4; eauto|eauto].
    + rewrite HO; [done|]. by rewrite lookup_fmap, Hx.
  - intros x. rewrite (dom_insert_kept _ _ pt) by done. apply H5.
Qed.
(** A port that is gone. *)
Lemma box_remove p byptr h' s' : is_Some (mlports ml !! p) →
  hmap_rep byptr (delete p (port_hash (secret ml) <$> mlports ml)) →
  heap_rep h' s' (delete p (usage <$> mlports ml)) →
  others_kept (usage <$> mlports ml) (port_nodes ml) s' →
  boxes (set_ports ml byptr h' (delete p (mlports ml)) (delete p s')).
Proof.
  intros [pt Hp] HM HR HO. destruct HB as [H1 H2 H3 H4 H5]. split; cbn; [done|..].
  - by rewrite fmap_delete.
  - rewrite fmap_delete. destruct HR as (l & HL & HO' & HP). exists l. split; [|done].
    destruct HL as [L1 L2 L3 L4 L5]. split; [done|done|done| |done]. intros i x v Hi Hx. destruct (L4 i x v Hi Hx) as [La Ls].
    split; [done|]. rewrite lookup_delete_ne; [done|]. intros ->.
    assert (delete x (usage <$> mlports ml) !! x = Some v) as Hc by (apply (heap_rep_lookup _ _ _ _ HP); by eapply list_elem_of_lookup_2).
    by rewrite lookup_delete_eq in Hc.
  - intros x. destruct (decide (x = p)) as [->|Hne]; [by rewrite !lookup_delete_eq|]. rewrite !lookup_delete_ne by done.
    rewrite <-H4. destruct (mlports ml !! x) as [pt'|] eqn:Hx.
    + destruct (heap_rep_node _ _ _ x (usage pt') HR) as [i ->]; [by rewrite lookup_delete_ne, lookup_fmap, Hx|].
      split; [intros _; apply H4; eauto|eauto].
    + rewrite HO; [done|]. by rewrite lookup_fmap, Hx.
  - intros x [?|[? [_ ?]%lookup_delete_Some]]; apply H5; eauto.
Qed.
(** A port in new memory. *)
Lemma box_new q l byptr h' s' : let p := brk ml in
  hmap_rep byptr (<[p := hash_pointer q (secret ml)]> (port_hash (secret ml) <$> mlports ml)) →
  heap_rep h' s' (<[p := Z.of_nat (length l)]> (usage <$> mlports ml)) →
  (∀ x, x ≠ p → mlports ml !! x = None → s' !! x = port_nodes ml !! x) →
  boxes (set_ports (set_memory ml (mac_entries ml) (Pos.succ p)) byptr h' (<[p := mkPort q l]> (mlports ml)) s').
Proof.
  intros p HM HR HO. destruct HB as [H1 H2 H3 H4 H5]. split; cbn; [done|by rewrite fmap_insert|by rewrite fmap_insert|..].
  - intros x. destruct (decide (x = p)) as [->|Hne].
    + destruct (heap_rep_node _ _ _ p (Z.of_nat (length l)) HR) as [i ->]; [apply lookup_insert_eq|]. rewrite lookup_insert_eq. by split; eauto.
    + rewrite lookup_insert_ne by done. rewrite <-H4. destruct (mlports ml !! x) as [pt'|] eqn:Hx.
      * destruct (heap_rep_node _ _ _ x (usage pt') HR) as [i ->]; [by rewrite lookup_insert_ne, lookup_fmap, Hx|].
        split; [intros _; apply H4; eauto|eauto].
      * by rewrite HO.
  - intros x Hx. destruct (decide (x = p)) as [->|Hne]; [unfold p; lia|]. rewrite lookup_insert_ne in Hx by done.
    assert (x < brk ml)%positive by auto. unfold p. lia.
Qed.
End Boxes.

(** ** Moving an entry to another port *)

Section Move.
Context (ml : mac_learning) (S : macs) (E : entry_map) (P : port_map) (k : key) (a : sentry) (e : positive).
Hypothesis HS : sim ml S E P.
Hypothesis Hsize : Z.of_nat (length (s_lru S)) < 2 ^ 61.
Hypothesis Hk : s_map S !! k = Some a.
Hypothesis He : E !! k = Some e.

Lemma no_port_zero : P !! 0 = None ∧ s_ports S !! 0 = None.
Proof.
  assert (s_ports S !! 0 = None) as H0.
  { destruct (s_ports S !! 0) eqn:E0; [|done]. by destruct (wf_list _ (sim_wf _ _ _ _ HS) _ _ E0) as [? _]. }
  split; [|done]. apply eq_None_not_Some. intros [l Hl]%(ps_dom _ _ _ _ (sim_port _ _ _ _ HS)). congruence.
Qed.
Lemma entry_at : mac_entries ml !! e = Some (concrete P k a).
Proof. by rewrite (es_at _ _ _ _ (sim_ent _ _ _ _ HS) k e He), Hk. Qed.
Lemma size_small {A} (f : mac_learning_port → A) : Z.of_nat (size (f <$> mlports ml)) < 2 ^ 62.
Proof. pose proof (sim_ports_size _ _ _ _ HS). rewrite map_size_fmap. lia. Qed.
Lemma port_list_small q l : s_ports S !! q = Some l → Z.of_nat (length l) < 2 ^ 61.
Proof.
  intros Hl. pose proof (sim_wf _ _ _ _ HS) as HW. destruct (wf_list _ HW _ _ Hl) as (_ & _ & Hnd).
  enough (length l ≤ length (s_lru S))%nat by lia. apply submseteq_length, NoDup_submseteq; [done|].
  intros x Hx. apply (wf_dom _ HW). apply (wf_on _ HW _ _ x Hl) in Hx as (b & Hb & _). eauto.
Qed.

(** The port of the entry, and the entry's place on it. *)
Lemma port_at : s_port a ≠ 0 → ∃ p l l', P !! s_port a = Some p ∧ s_ports S !! s_port a = Some l ∧
  mlports ml !! p = Some (mkPort (s_port a) l') ∧ addrs E l l' ∧ k ∈ l ∧ NoDup l ∧ e ∈ l' ∧
  length l = length l' ∧ length l' = Datatypes.S (length (without e l')).
Proof.
  intros Ha. pose proof (sim_wf _ _ _ _ HS) as HW. pose proof (es_inj _ _ _ _ (sim_ent _ _ _ _ HS)) as HI.
  destruct (wf_port _ HW k a Hk Ha) as [l Hl]. destruct (ps_get _ _ _ _ (sim_port _ _ _ _ HS) _ _ Hl) as (p & l' & Hp & HN & HA).
  assert (k ∈ l) as Hkl by (apply (wf_on _ HW _ _ k Hl); eauto). destruct (wf_list _ HW _ _ Hl) as (_ & _ & Hnd).
  assert (e ∈ l') as Hel by (by apply (addrs_elem E l l' k e)).
  exists p, l, l'. split_and!; [done..|by eapply Forall2_length|]. apply length_without; [by eapply addrs_nodup|done].
Qed.

Lemma move_away : s_move S k a 0 =
  mkMacs (<[k := mkSentry 0 (s_expires a) (s_lock a)]> (s_map S)) (s_lru S) (ports_leave (s_ports S) k (s_port a)).
Proof. unfold s_move, ports_join. by rewrite bool_decide_true. Qed.

(** The entry with no port. *)
Definition unported : mac_entry := mkEntry (s_expires a) (s_lock a) k.1 k.2 None.
Lemma unported_sim : ent_sim (<[e := unported]> (mac_entries ml)) (s_map (s_move S k a 0)) E P.
Proof.
  pose proof (es_update _ _ _ _ (sim_ent _ _ _ _ HS) k e (mkSentry 0 (s_expires a) (s_lock a)) He) as HE'.
  unfold concrete in HE'. cbn [s_expires s_lock s_port] in HE'. by rewrite (proj1 no_port_zero) in HE'.
Qed.

Section Leave.
Context (p : positive) (l : list key) (l' : list positive) (h' : heap) (s' : heap_nodes).
Hypothesis Hp : P !! s_port a = Some p.
Hypothesis Hl : s_ports S !! s_port a = Some l.
Hypothesis HN : mlports ml !! p = Some (mkPort (s_port a) l').
Hypothesis HA : addrs E l l'.
Hypothesis HO : others_kept (usage <$> mlports ml) (port_nodes ml) s'.

Lemma leave_last_sim byptr :
  without k l = [] → hmap_rep byptr (delete p (port_hash (secret ml) <$> mlports ml)) →
  heap_rep h' s' (delete p (usage <$> mlports ml)) →
  sim (entry_set (set_ports ml byptr h' (delete p (mlports ml)) (delete p s')) e unported) (s_move S k a 0) E (delete (s_port a) P).
Proof.
  intros Hw HM HR. pose proof HS as [HW HE HL HPS HB]. destruct (wf_list _ HW _ _ Hl) as [Hq0 _].
  assert (ports_leave (s_ports S) k (s_port a) = delete (s_port a) (s_ports S)) as HPL by (unfold ports_leave; by rewrite Hl, Hw).
  split.
  - by apply wf_move.
  - eapply es_ports; [exact unported_sim|]. intros x b Hx. rewrite lookup_delete_ne; [done|].
    cbn [s_map s_move] in Hx. apply lookup_insert_Some in Hx as [[<- <-]|[Hne Hx]]; [done|]. intros Hq.
    assert (x ∈ without k l) as Hin by (apply elem_of_without; split; [done|apply (wf_on _ HW _ _ x Hl); eauto]).
    rewrite Hw in Hin. by apply elem_of_nil in Hin.
  - exact HL.
  - rewrite move_away. cbn. rewrite HPL. by apply ps_delete.
  - eapply box_entry; [|exact entry_at|done..]. apply box_remove; by eauto.
Qed.
Lemma leave_some_sim : without k l ≠ [] →
  heap_rep h' s' (<[p := Z.of_nat (length (without e l'))]> (usage <$> mlports ml)) →
  sim (entry_set (set_ports ml (ports_by_ptr ml) h' (<[p := mkPort (s_port a) (without e l')]> (mlports ml)) s') e unported)
    (s_move S k a 0) E P.
Proof.
  intros Hw HR. pose proof HS as [HW HE HL HPS HB]. split.
  - by apply wf_move.
  - exact unported_sim.
  - exact HL.
  - rewrite move_away. cbn. unfold ports_leave. rewrite Hl. pose proof (addrs_without E l l' k e (es_inj _ _ _ _ HE) HA He).
    destruct (without k l) eqn:Ew; [done|]. by apply ps_update.
  - eapply box_entry; [|exact entry_at|done..]. by apply (box_change ml HB p (mkPort (s_port a) l')).
Qed.
End Leave.

Lemma leave_port_spec : s_port a ≠ 0 →
  returns (leave_port ml e (concrete P k a)) (λ ml', config ml' = config ml ∧ need_revalidate ml' = need_revalidate ml ∧
    table ml' = table ml ∧ ∃ P', sim ml' (s_move S k a 0) E P').
Proof.
  intros Ha. destruct (port_at Ha) as (p & l & l' & Hp & Hl & HN & HA & Hkl & Hnd & Hel & Hlen & Hlen').
  pose proof (sim_box _ _ _ _ HS) as HB.
  assert ((usage <$> mlports ml) !! p = Some (Z.of_nat (length l'))) as Hu by (by rewrite lookup_fmap, HN).
  destruct (heap_rep_node _ _ _ _ _ (bx_usage _ HB) Hu) as [i Hnode].
  pose proof (addrs_without E l l' k e (es_inj _ _ _ _ (sim_ent _ _ _ _ HS)) HA He) as HA'.
  pose proof (port_list_small _ _ Hl).
  unfold leave_port. unfold concrete at 1. cbn [mlport]. rewrite Hp. unfold port_get. rewrite HN. cbn [obind port_lrus p_port].
  rewrite ovs_list_remove_Ret by done. cbn [obind]. unfold node_get. change (port_nodes (port_set ml p _)) with (port_nodes ml). rewrite Hnode. cbn [obind priority].
  rewrite (addrs_nil _ _ _ HA'). case_bool_decide as Hw.
  - assert (length l' = 1%nat) as Hl1 by (rewrite Hlen', <-(Forall2_length HA'), Hw; done).
    rewrite Hl1. change (ovs_assert (Z.of_nat 1 =? 1)) with (Ret ()). cbn [obind port_set set_ports ports_by_ptr ports_by_usage port_nodes mlports].
    destruct (hmap_remove_rep _ _ (bx_ptr _ HB) (size_small _) p (hash_pointer (s_port a) (secret ml))) as (byptr & Hr & HM); [by rewrite lookup_fmap, HN|].
    destruct (heap_remove_rep _ _ _ (bx_usage _ HB) p _ Hu) as ([h' s'] & Hh & HR & HO & _).
    rewrite Hr. cbn [obind]. rewrite Hh. cbn [obind]. rewrite delete_insert_eq.
    eexists. split; [reflexivity|]. split_and!; [done..|]. exists (delete (s_port a) P). by eapply leave_last_sim.
  - assert (1 < Z.of_nat (length l')) as Hl1.
    { rewrite Hlen', <-(Forall2_length HA'). destruct (without k l); [done|]. simpl. lia. }
    rewrite (proj2 (Z.ltb_lt _ _) Hl1). cbn [ovs_assert obind port_set set_ports ports_by_ptr ports_by_usage port_nodes mlports].
    destruct (heap_change_rep _ _ _ (bx_usage _ HB) p _ (Z.of_nat (length (without e l'))) Hu) as ([h' s'] & Hh & HR & HO).
    rewrite u64_small by lia. replace (Z.of_nat (length l') - 1) with (Z.of_nat (length (without e l'))) by lia.
    rewrite Hh. cbn [obind]. eexists. split; [reflexivity|]. split_and!; [done..|]. exists P. by eapply leave_some_sim.
Qed.

(** *** Joining *)

Context (q : Z).
Hypothesis Ha0 : s_port a = 0.
Hypothesis Hq0 : q ≠ 0.

Lemma move_to : s_move S k a q =
  mkMacs (<[k := mkSentry q (s_expires a) (s_lock a)]> (s_map S)) (s_lru S)
    (<[q := default [] (s_ports S !! q) ++ [k]]> (s_ports S)).
Proof.
  unfold s_move, ports_join, ports_leave. rewrite bool_decide_false by done. by rewrite Ha0, (proj2 no_port_zero).
Qed.
Definition ported (p : positive) : mac_entry := mkEntry (s_expires a) (s_lock a) k.1 k.2 (Some p).

Lemma join_new_sim byptr h' s' : P !! q = None → let p := brk ml in
  hmap_rep byptr (<[p := hash_pointer q (secret ml)]> (port_hash (secret ml) <$> mlports ml)) →
  heap_rep h' s' (<[p := 1]> (usage <$> mlports ml)) →
  (∀ x, x ≠ p → mlports ml !! x = None → s' !! x = port_nodes ml !! x) →
  sim (entry_set (set_ports (set_memory ml (mac_entries ml) (Pos.succ p)) byptr h' (<[p := mkPort q [e]]> (mlports ml)) s') e (ported p))
    (s_move S k a q) E (<[q := p]> P).
Proof.
  intros HPq p HM HR HO. pose proof HS as [HW HE HL HPS HB].
  assert (s_ports S !! q = None) as Hpq.
  { apply eq_None_not_Some. intros Hs%(ps_dom _ _ _ _ HPS). rewrite HPq in Hs. by destruct Hs. }
  split.
  - by apply wf_move.
  - assert (ent_sim (mac_entries ml) (s_map S) E (<[q := p]> P)) as HE1.
    { eapply es_ports; [exact HE|]. intros x b Hx. apply lookup_insert_ne. intros ->. destruct (wf_port _ HW x b Hx Hq0) as [? ?]. congruence. }
    pose proof (es_update _ _ _ _ HE1 k e (mkSentry q (s_expires a) (s_lock a)) He) as HE2.
    unfold concrete in HE2. cbn [s_expires s_lock s_port] in HE2. by rewrite lookup_insert_eq in HE2.
  - exact HL.
  - rewrite move_to. cbn. rewrite Hpq. apply ps_new; [done|done|apply (sim_fresh _ _ _ _ HS)|]. by repeat constructor.
  - eapply box_entry; [|exact entry_at|done..]. by apply (box_new ml HB q [e]).
Qed.
Lemma join_old_sim p l l' h' s' : P !! q = Some p → s_ports S !! q = Some l →
  mlports ml !! p = Some (mkPort q l') → addrs E l l' →
  heap_rep h' s' (<[p := Z.of_nat (length (l' ++ [e]))]> (usage <$> mlports ml)) →
  others_kept (usage <$> mlports ml) (port_nodes ml) s' →
  sim (entry_set (set_ports ml (ports_by_ptr ml) h' (<[p := mkPort q (l' ++ [e])]> (mlports ml)) s') e (ported p))
    (s_move S k a q) E P.
Proof.
  intros Hp Hl HN HA HR HO. pose proof HS as [HW HE HL HPS HB]. split.
  - by apply wf_move.
  - pose proof (es_update _ _ _ _ HE k e (mkSentry q (s_expires a) (s_lock a)) He) as HE2.
    unfold concrete in HE2. cbn [s_expires s_lock s_port] in HE2. by rewrite Hp in HE2.
  - exact HL.
  - rewrite move_to. cbn. rewrite Hl. cbn. apply ps_update; [done|done|]. by apply addrs_push.
  - eapply box_entry; [|exact entry_at|done..]. by apply (box_change ml HB p (mkPort q l')).
Qed.

Lemma join_port_spec :
  returns (join_port ml e q) (λ ml', config ml' = config ml ∧ need_revalidate ml' = need_revalidate ml ∧
    table ml' = table ml ∧ ∃ P', sim ml' (s_move S k a q) E P').
Proof.
  pose proof HS as [HW HE HL HPS HB]. unfold join_port.
  destruct (port_lookup_spec _ _ _ _ HS q) as (r & Hr & ->). rewrite Hr. cbn [obind].
  destruct (P !! q) as [p|] eqn:HPq.
  - destruct (proj1 (ps_dom _ _ _ _ HPS q)) as [l Hl]; [by eauto|]. destruct (ps_at _ _ _ _ HPS q p l HPq Hl) as (l' & HN & HA).
    assert ((usage <$> mlports ml) !! p = Some (Z.of_nat (length l'))) as Hu by (by rewrite lookup_fmap, HN).
    destruct (heap_rep_node _ _ _ _ _ (bx_usage _ HB) Hu) as [i Hnode]. unfold node_get. rewrite Hnode. cbn [obind priority].
    pose proof (port_list_small _ _ Hl) as Hll. rewrite (Forall2_length HA) in Hll. rewrite u64_small by lia.
    destruct (heap_change_rep _ _ _ (bx_usage _ HB) p _ (Z.of_nat (length (l' ++ [e]))) Hu) as ([h' s'] & Hh & HR & HO).
    replace (Z.of_nat (length l') + 1) with (Z.of_nat (length (l' ++ [e]))) by (rewrite length_app; simpl; lia).
    rewrite Hh. cbn [obind]. unfold port_get. change (mlports (set_ports _ _ _ ?N _)) with N. rewrite HN. cbn [obind].
    unfold entry_get. change (mac_entries (port_set _ _ _)) with (mac_entries ml). rewrite entry_at. cbn [obind].
    eexists. split; [reflexivity|]. split_and!; [done..|]. exists P. by eapply join_old_sim.
  - destruct (sim_fresh _ _ _ _ HS) as [_ Hfr].
    destruct (hmap_insert_rep _ _ (bx_ptr _ HB) (size_small _) (brk ml) (hash_pointer q (secret ml))) as (byptr & Hb & HM);
      [by rewrite lookup_fmap, Hfr|apply port_hash_range|].
    destruct (heap_insert_rep (ports_by_usage ml) (<[brk ml := mkHeapNode 0 0]> (port_nodes ml)) (usage <$> mlports ml)) with (p := brk ml) (v := 1)
      as ([h' s'] & Hh & HR & HO); [|by rewrite lookup_fmap, Hfr|rewrite lookup_insert_eq; eauto|apply size_small|].
    { apply heap_rep_fresh; [apply (bx_usage _ HB)|by rewrite lookup_fmap, Hfr]. }
    cbn [set_memory ports_by_ptr ports_by_usage port_nodes secret mlports brk mac_entries]. rewrite Hb. cbn [obind]. rewrite Hh. cbn [obind].
    unfold port_get. change (mlports (set_ports _ _ _ ?N _)) with N. rewrite lookup_insert_eq. cbn [obind].
    unfold entry_get. change (mac_entries (port_set _ _ _)) with (mac_entries ml). rewrite entry_at. cbn [obind].
    eexists. split; [reflexivity|]. split_and!; [done..|]. exists (<[q := brk ml]> P).
    unfold port_set. cbn [set_ports mlports]. rewrite insert_insert_eq. apply join_new_sim; [done|done|done|].
    intros x Hx HNx. rewrite HO; [by rewrite lookup_insert_ne|]. by rewrite lookup_insert_ne, lookup_fmap, HNx.
Qed.
End Move.

(** ** Entries *)

Lemma sim_config ml S E P flood idle max reval : sim ml S E P → sim (set_config ml flood idle max reval) S E P.
Proof. intros [? ? ? ? [? ? ? ? ?]]. split; [done..|]. by split. Qed.

(** What every operation keeps of the configuration. *)
Definition kept (ml ml' : mac_learning) (reval : bool) : Prop := config ml' = config ml ∧ need_revalidate ml' = reval.

Section Entry.
Context (ml : mac_learning) (S : macs) (E : entry_map) (P : port_map) (k : key) (a : sentry) (e : positive).
Hypothesis HS : sim ml S E P.
Hypothesis Hsize : Z.of_nat (length (s_lru S)) < 2 ^ 61.
Hypothesis Hk : s_map S !! k = Some a.
Hypothesis He : E !! k = Some e.

Lemma get_port_spec : mac_entry_get_port ml (concrete P k a) = Ret (s_port a).
Proof.
  unfold mac_entry_get_port. cbn [mlport concrete]. destruct (decide (s_port a = 0)) as [H0|H0].
  - by rewrite H0, (proj1 (no_port_zero _ _ _ _ HS)).
  - destruct (port_at _ _ _ _ k a e HS Hk He H0) as (p & l & l' & -> & _ & HN & _). unfold port_get. by rewrite HN.
Qed.

Lemma mac_entry_set_port_spec q : returns (mac_entry_set_port ml e q) (λ ml',
  kept ml ml' (need_revalidate ml || negb (s_port a =? q)) ∧ table ml' = table ml ∧
  ∃ P', sim ml' (s_set_port S k q) E P').
Proof.
  unfold mac_entry_set_port, entry_get. rewrite (entry_at _ _ _ _ _ _ _ HS Hk He). cbn [obind].
  rewrite get_port_spec. cbn [obind]. unfold s_set_port. rewrite Hk. destruct (Z.eqb_spec (s_port a) q) as [Hq|Hq]; cbn [negb].
  { rewrite bool_decide_true, orb_false_r by done. eexists. split; [done|]. split_and!; [done..|]. by exists P. }
  rewrite bool_decide_false, orb_true_r by done.
  assert (returns (leave_port (set_reval ml true) e (concrete P k a)) (λ ml', kept ml ml' true ∧ table ml' = table ml ∧
    ∃ P', sim ml' (s_move S k a 0) E P')) as HL.
  { pose proof (sim_config _ _ _ _ (flood_vlans ml) (idle_time ml) (max_entries ml) true HS) as HS1.
    destruct (decide (s_port a = 0)) as [H0|H0].
    - unfold leave_port. cbn [mlport concrete]. rewrite H0, (proj1 (no_port_zero _ _ _ _ HS)). eexists. split; [done|].
      split_and!; [done..|]. exists P. unfold s_move, ports_join, ports_leave. rewrite bool_decide_true, H0, (proj2 (no_port_zero _ _ _ _ HS)) by done.
      rewrite insert_id; [by destruct S|]. rewrite Hk. destruct a. simpl in *. by subst.
    - eapply returns_mono; [by apply (leave_port_spec _ _ _ _ k a e HS1)|]. intros ml' (? & ? & ? & ?). by split_and!. }
  eapply returns_bind; [exact HL|]. intros ml1 ([Hc Hr] & Ht & P1 & HS1). destruct (Z.eqb_spec q 0) as [->|Hq0]; cbn [negb].
  { eexists. split; [done|]. split_and!; [done..|]. by exists P1. }
  pose proof (lookup_insert_eq (s_map S) k (mkSentry 0 (s_expires a) (s_lock a))) as Hk1.
  eapply returns_mono; [apply (join_port_spec ml1 (s_move S k a 0) E P1 k (mkSentry 0 (s_expires a) (s_lock a)) e HS1); done|].
  intros ml2 (Hc2 & Hr2 & Ht2 & P2 & HS2). split; [split; congruence|]. split; [congruence|]. exists P2.
  assert (s_move (s_move S k a 0) k (mkSentry 0 (s_expires a) (s_lock a)) q = s_move S k a q) as <-; [|done].
  pose proof (no_port_zero _ _ _ _ HS1) as [_ H0]. rewrite move_away in *. unfold s_move. cbn [s_ports s_map s_lru s_port s_expires s_lock] in *.
  f_equal; [apply insert_insert_eq|]. unfold ports_leave at 1. by rewrite H0.
Qed.
End Entry.

Section Expire.
Context (ml : mac_learning) (S : macs) (E : entry_map) (P : port_map) (k : key) (a : sentry) (e : positive).
Hypothesis HS : sim ml S E P.
Hypothesis Hsize : Z.of_nat (length (s_lru S)) < 2 ^ 61.
Hypothesis Hk : s_map S !! k = Some a.
Hypothesis He : E !! k = Some e.

Lemma entries_small {A} (f : mac_entry → A) : Z.of_nat (size (f <$> mac_entries ml)) < 2 ^ 62.
Proof. rewrite map_size_fmap, (sim_size _ _ _ _ HS). lia. Qed.

(** Freeing an entry without port. *)
Lemma drop_sim t : s_port a = 0 → hmap_rep t (delete e (entry_hash (secret ml) <$> mac_entries ml)) →
  sim (set_memory (set_table ml t (without e (lrus ml))) (delete e (mac_entries ml)) (brk ml)) (s_drop S k) (delete k E) P.
Proof.
  intros Ha HT. pose proof HS as [HW HE HL HPS HB]. split.
  - by eapply wf_drop.
  - by apply es_delete.
  - cbn. eapply (addrs_other E); [|apply addrs_without; [apply (es_inj _ _ _ _ HE)|done|done]].
    intros x [? _]%elem_of_without. by apply lookup_delete_ne.
  - cbn. eapply ps_entries; [exact HPS|]. intros q l x Hq Hx. apply lookup_delete_ne. intros ->.
    apply (wf_on _ HW _ _ x Hq) in Hx as (b & Hb & Hbq). destruct (wf_list _ HW _ _ Hq) as [? _]. congruence.
  - destruct HB as [H1 H2 H3 H4 H5]. split; cbn; [by rewrite fmap_delete|done|done|done|].
    intros x [[en [_ ?]%lookup_delete_Some]|?]; apply H5; eauto.
Qed.
End Expire.

Lemma expire_spec ml S E P k a e :
  sim ml S E P → Z.of_nat (length (s_lru S)) < 2 ^ 61 → s_map S !! k = Some a → E !! k = Some e →
  returns (mac_learning_expire ml e) (λ ml', kept ml ml' true ∧ hmap_remove (table ml) e = Ret (table ml') ∧
    ∃ P', sim ml' (s_expire S k) (delete k E) P').
Proof.
  intros HS Hsize Hk He. unfold mac_learning_expire.
  pose proof (sim_config _ _ _ _ (flood_vlans ml) (idle_time ml) (max_entries ml) true HS) as HS0.
  eapply returns_bind; [by apply (mac_entry_set_port_spec (set_reval ml true) S E P k a e HS0)|].
  intros ml1 ([Hc Hr] & Ht & P1 & HS1). cbn in Hr, Ht. pose proof (set_port_lookup S k a 0 Hk) as Hk1.
  pose proof (set_port_lru S k 0) as Hlru. assert (Z.of_nat (length (s_lru (s_set_port S k 0))) < 2 ^ 61) as Hsize1 by (by rewrite Hlru).
  pose proof (sim_ent _ _ _ _ HS1) as HE1. pose proof (es_at _ _ _ _ HE1 k e He) as Hen. rewrite Hk1 in Hen.
  destruct (hmap_remove_rep _ _ (bx_table _ (sim_box _ _ _ _ HS1)) (entries_small _ _ _ _ HS1 Hsize1 _) e
    (entry_hash (secret ml1) (concrete P1 k (mkSentry 0 (s_expires a) (s_lock a))))) as (t & HT & HTR).
  { by rewrite lookup_fmap, Hen. }
  rewrite HT. cbn [obind]. rewrite ovs_list_remove_Ret.
  2:{ apply (addrs_elem E _ _ k e (es_inj _ _ _ _ HE1) (sim_lru _ _ _ _ HS1) He). rewrite Hlru.
      apply (wf_dom _ (sim_wf _ _ _ _ HS)). eauto. }
  cbn [obind]. eexists. split; [reflexivity|]. split; [by split|]. split; [by rewrite <-Ht|]. exists P1.
  by apply (drop_sim ml1 (s_set_port S k 0) E P1 k _ e HS1 Hk1 He t).
Qed.
