(* ===== verification/MacTableProofs.v ===== *)
(** * The operations of a MAC learning table implement MacSpec.v *)
From Stdlib Require Import ZArith Lia.
From stdpp Require Import base list gmap numbers option.
From S2P Require Import Prelude Hash Heap HeapProofs Hmap HmapProofs MacLearning MacSpec MacMemory MacLearningProofs.
Open Scope Z_scope.

(** ** Insertion *)

Section Insert.
Context (ml : mac_learning) (S : macs) (E : entry_map) (P : port_map).
Hypothesis HS : sim ml S E P.
Hypothesis Hsize : Z.of_nat (length (s_lru S)) < 2 ^ 61.

Lemma evict_spec : settled S → s_map S ≠ ∅ →
  returns (evict_mac_entry_fairly ml) (λ ml', kept ml ml' true ∧
    ∃ k P', fair_victim S k ∧ sim ml' (s_expire S k) (delete k E) P').
Proof.
  intros Hset Hne. pose proof HS as [HW HE HL HPS HB]. unfold evict_mac_entry_fairly.
  eapply returns_bind; [apply (heap_max_rep _ _ _ (bx_usage _ HB))|].
  { intros HU. apply (ports_nonempty S HW Hset Hne), map_empty. intros q. apply eq_None_not_Some.
    intros [l Hl]. destruct (ps_get _ _ _ _ HPS q l Hl) as (p & l' & _ & HN & _).
    assert ((usage <$> mlports ml) !! p = None) as Hp by (by rewrite HU, lookup_empty). by rewrite lookup_fmap, HN in Hp. }
  intros p (v & Hv & Hmax). rewrite lookup_fmap in Hv. apply fmap_Some in Hv as (pt & Hpt & ->).
  unfold port_get. rewrite Hpt. cbn [obind]. destruct (ps_inv _ _ _ _ HPS p pt Hpt) as (l & Hq & Hl & HA).
  destruct (wf_list _ HW _ _ Hl) as (_ & Hnil & _). inversion HA as [|k e l1 l1' Hke HA1 E1 E2]; subst; [done|].
  cbn [list_front obind]. destruct (proj1 (wf_on _ HW _ _ k Hl)) as (a & Ha & _); [by left|].
  eapply returns_mono; [by apply (expire_spec ml S E P k a e)|]. intros ml' (HK & _ & P' & HS'). split; [done|].
  exists k, P'. split; [|done]. exists (p_port pt), l1. split; [done|]. intros q' l2 Hl2.
  destruct (ps_get _ _ _ _ HPS q' l2 Hl2) as (p' & l2' & _ & HN' & HA2).
  specialize (Hmax p' (usage (mkPort q' l2'))). rewrite lookup_fmap, HN' in Hmax. specialize (Hmax eq_refl).
  unfold usage in Hmax. rewrite <-E2 in Hmax. cbn [port_lrus] in Hmax. rewrite (Forall2_length HA2).
  rewrite (Forall2_length HA), <-E2. lia.
Qed.

(** An entry in new memory, as [mac_learning_insert] leaves it. *)
Lemma add_sim mac vlan until t :
  let e := brk ml in
  s_map S !! (mac, vlan) = None →
  hmap_rep t (<[e := mac_table_hash ml mac vlan]> (entry_hash (secret ml) <$> mac_entries ml)) →
  sim (set_memory (set_table ml t (lrus ml ++ [e])) (<[e := mkEntry until TIME_MIN mac vlan None]> (mac_entries ml)) (Pos.succ e))
    (s_add S (mac, vlan) until) (<[(mac, vlan) := e]> E) P.
Proof.
  intros e Hk HT. pose proof HS as [HW HE HL HPS HB]. destruct (sim_fresh _ _ _ _ HS) as [Hfr _].
  assert (E !! (mac, vlan) = None) as HEk.
  { apply eq_None_not_Some. intros Hs%(es_dom _ _ _ _ HE). rewrite Hk in Hs. by destruct Hs. }
  assert (∀ x, is_Some (s_map S !! x) → <[(mac, vlan) := e]> E !! x = E !! x) as Hold.
  { intros x [b Hx]. apply lookup_insert_ne. intros <-. congruence. }
  split.
  - by apply wf_add.
  - pose proof (es_new _ _ _ _ HE (mac, vlan) e (mkSentry 0 until TIME_MIN) HEk Hfr) as HE'. unfold concrete in HE'.
    cbn [s_expires s_lock s_port fst snd] in HE'. by rewrite (proj1 (no_port_zero _ _ _ _ HS)) in HE'.
  - cbn. apply addrs_push; [|apply lookup_insert_eq]. eapply addrs_other; [|exact HL]. intros x Hx. by apply Hold, (wf_dom _ HW).
  - cbn. eapply ps_entries; [exact HPS|]. intros q l x Hq Hx. apply Hold. apply (wf_on _ HW _ _ x Hq) in Hx as (b & ? & _). eauto.
  - destruct HB as [H1 H2 H3 H4 H5]. split; cbn; [by rewrite fmap_insert|done|done|done|].
    intros x Hx. destruct (decide (x = e)) as [->|Hne]; [unfold e; lia|]. rewrite lookup_insert_ne in Hx by done.
    assert (x < brk ml)%positive by auto. unfold e. lia.
Qed.

(** An entry that moves to the end of the lists. *)
Lemma touch_sim k a e until : s_map S !! k = Some a → E !! k = Some e →
  returns (match P !! s_port a with
           | None => Ret (set_table ml (table ml) (without e (lrus ml) ++ [e]))
           | Some p =>
               let* pt := port_get ml p in
               let* l := ovs_list_remove (port_lrus pt) e in
               Ret (port_set (set_table ml (table ml) (without e (lrus ml) ++ [e])) p (mkPort (p_port pt) (l ++ [e])))
           end) (λ ml', kept ml ml' (need_revalidate ml) ∧ mac_entries ml' = mac_entries ml ∧
    sim (entry_set ml' e (mkEntry until (s_lock a) k.1 k.2 (P !! s_port a))) (s_touch S k a until) E P).
Proof.
  intros Hk He. pose proof HS as [HW HE HL HPS HB]. pose proof (es_inj _ _ _ _ HE) as HI.
  pose proof (entry_at _ _ _ _ _ _ _ HS Hk He) as Hen.
  pose proof (es_update _ _ _ _ HE k e (mkSentry (s_port a) until (s_lock a)) He) as HE'.
  pose proof (addrs_push _ _ _ _ _ (addrs_without E _ _ k e HI HL He) He) as HL'.
  assert (boxes (set_table ml (table ml) (without e (lrus ml) ++ [e]))) as HB1 by (destruct HB; by split).
  destruct (decide (s_port a = 0)) as [H0|H0].
  - pose proof (no_port_zero _ _ _ _ HS) as [HP0 HS0]. assert (P !! s_port a = None) as Hn by (by rewrite H0).
    rewrite Hn. eexists. split; [done|]. split; [done|]. split; [done|].
    split; [by apply wf_touch| |done| |by eapply box_entry].
    + cbn. unfold concrete in HE'. cbn [s_port s_expires s_lock] in HE'. by rewrite Hn in HE'.
    + cbn. rewrite H0. assert (alter (λ l, without k l ++ [k]) 0 (s_ports S) = s_ports S) as ->; [|done].
      apply map_eq. intros q. destruct (decide (q = 0)) as [->|]; [by rewrite lookup_alter_eq, HS0|by rewrite lookup_alter_ne].
  - destruct (port_at _ _ _ _ k a e HS Hk He H0) as (p & l & l' & Hp & Hl & HN & HA & Hkl & Hnd & Hel & Hlen & Hlen').
    rewrite Hp. unfold port_get. rewrite HN. cbn [obind port_lrus p_port]. rewrite ovs_list_remove_Ret by done. cbn [obind].
    eexists. split; [done|]. split; [done|]. split; [done|]. split; [by apply wf_touch| |done| |].
    + cbn. unfold concrete in HE'. cbn [s_port s_expires s_lock] in HE'. by rewrite Hp in HE'.
    + cbn. assert (alter (λ l, without k l ++ [k]) (s_port a) (s_ports S) = <[s_port a := without k l ++ [k]]> (s_ports S)) as ->.
      { apply map_eq. intros q. destruct (decide (q = s_port a)) as [->|]; [by rewrite lookup_alter_eq, lookup_insert_eq, Hl|].
        by rewrite lookup_alter_ne, lookup_insert_ne. }
      apply ps_update; [done|done|]. apply addrs_push; [by apply addrs_without|done].
    + eapply box_entry; [|exact Hen|done..]. apply (box_port _ HB1 p (mkPort (s_port a) l')); [done|].
      rewrite length_app. cbn [port_lrus length]. lia.
Qed.

End Insert.

Section Learn.
Context (ml : mac_learning) (S : macs) (E : entry_map) (P : port_map).
Hypothesis HS : sim ml S E P.
Hypothesis Hsize : Z.of_nat (length (s_lru S)) < 2 ^ 61.

(** Room for a new entry: at most one is evicted. *)
Definition room (S1 : macs) (ml1 : mac_learning) : Prop :=
  if Z.of_nat (length (s_lru S)) <? max_entries ml
  then S1 = S ∧ kept ml ml1 (need_revalidate ml)
  else (∃ v, fair_victim S v ∧ S1 = s_expire S v) ∧ kept ml ml1 true.

(** What an insertion leaves: the old entry touched, or a new one. *)
Definition inserted (now : Z) (k : key) (e : positive) (ml' : mac_learning) : Prop :=
  match s_map S !! k with
  | Some a => E !! k = Some e ∧ kept ml ml' (need_revalidate ml) ∧ sim ml' (s_touch S k a (now + idle_time ml)) E P
  | None => ∃ S1 E1 P1, sim ml' (s_add S1 k (now + idle_time ml)) (<[k := e]> E1) P1 ∧ room S1 ml'
  end.

Lemma room_config S1 ml1 : room S1 ml1 → config ml1 = config ml.
Proof. unfold room. by destruct (_ <? _); intros [_ [? _]]. Qed.
Lemma config_idle ml1 ml2 : config ml2 = config ml1 → idle_time ml2 = idle_time ml1.
Proof. intros [=]. congruence. Qed.

Lemma make_room k : settled S → 0 < max_entries ml → s_map S !! k = None →
  returns (if max_entries ml <=? hmap_count (table ml) then evict_mac_entry_fairly ml else Ret ml) (λ ml1,
    ∃ S1 E1 P1, sim ml1 S1 E1 P1 ∧ s_map S1 !! k = None ∧ Z.of_nat (length (s_lru S1)) < 2 ^ 61 ∧ room S1 ml1).
Proof.
  intros Hset Hmax Hk. rewrite (sim_count _ _ _ _ HS), Z.leb_antisym by lia. unfold room.
  destruct (Z.ltb_spec (Z.of_nat (length (s_lru S))) (max_entries ml)) as [Hlt|Hge]; cbn [negb].
  - eexists. split; [done|]. by exists S, E, P.
  - eapply returns_mono; [apply (evict_spec ml S E P HS Hsize Hset)|].
    + intros Hemp. pose proof (size_map S (sim_wf _ _ _ _ HS)) as Hs. rewrite Hemp, map_size_empty in Hs. lia.
    + intros ml1 (HK & v & P' & HF & HS1). exists (s_expire S v), (delete v E), P'. split; [done|].
      split; [rewrite expire_map; by case_decide|]. split; [|by eauto].
      rewrite expire_lru. pose proof (length_filter (λ x, x ≠ v) (s_lru S)). unfold without. lia.
Qed.

Lemma insert_spec now mac vlan : settled S → 0 < max_entries ml →
  returns (mac_learning_insert now ml mac vlan) (λ '(e, ml'), inserted now (mac, vlan) e ml').
Proof.
  intros Hset Hmax. pose proof (sim_ent _ _ _ _ HS) as HE. unfold mac_learning_insert, inserted.
  destruct (lookup_spec _ _ _ _ HS mac vlan) as (r & Hr & ->). rewrite Hr. cbn [obind].
  destruct (s_map S !! (mac, vlan)) as [a|] eqn:Hk.
  - destruct (es_get _ _ _ _ HE _ _ Hk) as (e & He & Hen). rewrite He. rewrite ovs_list_remove_Ret.
    2:{ apply (addrs_elem E _ _ (mac, vlan) e (es_inj _ _ _ _ HE) (sim_lru _ _ _ _ HS) He), (wf_dom _ (sim_wf _ _ _ _ HS)). eauto. }
    cbn [obind]. unfold entry_get. change (mac_entries (set_table _ _ _)) with (mac_entries ml). rewrite Hen. cbn [obind mlport concrete].
    eapply returns_bind; [exact (touch_sim ml S E P HS (mac, vlan) a e (now + idle_time ml) Hk He)|].
    intros ml' (HK & HM & HS'). eexists. split; [done|]. cbn beta iota. split; [done|].
    rewrite (config_idle ml ml' (proj1 HK)). split; [done|exact HS'].
  - assert (E !! (mac, vlan) = None) as ->.
    { apply eq_None_not_Some. intros Hs%(es_dom _ _ _ _ HE). rewrite Hk in Hs. by destruct Hs. }
    destruct (make_room (mac, vlan) Hset Hmax Hk) as (ml1 & Hroom & S1 & E1 & P1 & HS1 & Hk1 & Hsz1 & HR).
    rewrite Hroom. cbn [obind]. pose proof (room_config _ _ HR) as Hc. destruct (sim_fresh _ _ _ _ HS1) as [Hfr _].
    assert (mac_table_hash ml mac vlan = mac_table_hash ml1 mac vlan) as -> by (unfold mac_table_hash; by injection Hc as ->).
    destruct (hmap_insert_rep _ _ (bx_table _ (sim_box _ _ _ _ HS1)) (entries_small _ _ _ _ HS1 Hsz1 _) (brk ml1) (mac_table_hash ml1 mac vlan))
      as (t & Ht & HT); [by rewrite lookup_fmap, Hfr|apply table_hash_range|].
    rewrite Ht. cbn [obind]. unfold entry_get.
    change (mac_entries (set_table (set_memory _ ?M _) _ _)) with M. rewrite lookup_insert_eq. cbn [obind mlport].
    eexists. split; [done|]. cbn beta iota. exists S1, E1, P1. split; [|done].
    rewrite <-(config_idle _ _ Hc). unfold entry_set. change (mac_entries (set_table (set_memory _ ?M _) _ _)) with M. rewrite insert_insert_eq.
    exact (add_sim ml1 S1 E1 P1 HS1 mac vlan (now + idle_time ml1) t Hk1 HT).
Qed.
End Learn.
