(* ===== verification/MacRunProofs.v ===== *)
(** * Searching, aging and freeing a MAC learning table *)
From Stdlib Require Import ZArith Lia.
From stdpp Require Import base list gmap numbers option.
From S2P Require Import Prelude Hash Heap HeapProofs Hmap HmapProofs MacLearning MacSpec MacMemory MacLearningProofs MacTableProofs.
Open Scope Z_scope.

(** ** Search *)

(** A bitmap of VLANs has 4096 bits. *)
Definition vlan_ok (ml : mac_learning) (vlan : Z) : Prop :=
  0 ≤ vlan < 4096 ∧ ∀ b, flood_vlans ml = Some b → length b = 64%nat.
Lemma is_learning_vlan_spec ml vlan : vlan_ok ml vlan → is_learning_vlan ml vlan = Ret (learning_vlan (flood_vlans ml) vlan).
Proof.
  intros [Hv Hb]. unfold is_learning_vlan, learning_vlan. destruct (flood_vlans ml) as [b|]; [|done].
  specialize (Hb b eq_refl). unfold bitmap_is_set.
  destruct (lookup_lt_is_Some_2 b (Z.to_nat (vlan / 64))) as [w ->]; [|done]. Z.to_euclidean_division_equations. lia.
Qed.
Lemma may_learn_spec ml mac vlan : vlan_ok ml vlan → mac_learning_may_learn ml mac vlan = Ret (learnable (flood_vlans ml) mac vlan).
Proof. intros Hv. unfold mac_learning_may_learn. by rewrite is_learning_vlan_spec. Qed.

Lemma mac_lookup_spec ml S E P dst vlan : sim ml S E P → settled S → vlan_ok ml vlan →
  mac_learning_lookup ml dst vlan = Ret (if learnable (flood_vlans ml) dst vlan then E !! (dst, vlan) else None).
Proof.
  intros HS Hset Hv. unfold mac_learning_lookup, learnable. rewrite is_learning_vlan_spec by done.
  destruct (eth_addr_is_multicast dst); cbn [negb]; [by rewrite andb_false_r|]. rewrite andb_true_r. cbn [obind].
  destruct (learning_vlan _ _); cbn [negb]; [|done].
  destruct (lookup_spec _ _ _ _ HS dst vlan) as (r & Hr & ->). rewrite Hr. cbn [obind].
  destruct (E !! (dst, vlan)) as [e|] eqn:He; [|done]. pose proof (sim_ent _ _ _ _ HS) as HE.
  destruct (proj1 (es_dom _ _ _ _ HE (dst, vlan))) as [a Ha]; [by eauto|]. unfold entry_get.
  rewrite (entry_at _ _ _ _ _ _ _ HS Ha He). cbn [obind]. rewrite (get_port_spec _ _ _ _ _ _ _ HS Ha He). cbn [obind].
  by rewrite (proj2 (Z.eqb_neq _ _) (Hset _ _ Ha)).
Qed.

(** ** Aging *)

Lemma sim_lru_head ml S E P k l : sim ml S E P → s_lru S = k :: l →
  ∃ e a, get_lru ml = Some e ∧ E !! k = Some e ∧ s_map S !! k = Some a ∧ entry_get ml e = Ret (concrete P k a) ∧
    s_lru (s_expire S k) = l.
Proof.
  intros HS Hl. pose proof (sim_lru _ _ _ _ HS) as HL. pose proof (sim_wf _ _ _ _ HS) as HW. rewrite Hl in HL.
  inversion HL as [|k' e l1 l1' He HL1 E1 E2]; subst. destruct (proj1 (wf_dom _ HW k)) as [a Ha]; [rewrite Hl; by left|].
  exists e, a. split; [unfold get_lru; by rewrite <-E2|]. split_and!; [done|done| |].
  - unfold entry_get. by rewrite (entry_at _ _ _ _ _ _ _ HS Ha He).
  - rewrite expire_lru, Hl. apply without_cons. pose proof (wf_lru _ HW) as Hn. rewrite Hl in Hn. by apply list.NoDup_cons in Hn as [? _].
Qed.
Lemma sim_lru_nil ml S E P : sim ml S E P → s_lru S = [] → get_lru ml = None.
Proof. intros HS Hl. pose proof (sim_lru _ _ _ _ HS) as HL. rewrite Hl in HL. unfold get_lru. by inversion HL. Qed.

Lemma kept_trans ml1 ml2 ml3 b c : kept ml1 ml2 b → kept ml2 ml3 c → kept ml1 ml3 c.
Proof. intros [H1 _] [H2 H3]. split; [congruence|done]. Qed.

Lemma run_lru_length l now max : ∀ S, (length (s_lru (s_run l now max S)) ≤ length (s_lru S))%nat.
Proof.
  induction l as [|k l IH]; intros S; [done|]. cbn [s_run]. destruct (_ || _); [|done].
  etrans; [apply IH|]. rewrite expire_lru. apply length_filter.
Qed.
Lemma run_loop_spec now fuel : ∀ ml S E P, sim ml S E P → Z.of_nat (length (s_lru S)) < 2 ^ 61 → (length (s_lru S) ≤ fuel)%nat →
  returns (run_loop fuel now ml) (λ ml', ∃ S' E' P', S' = s_run (s_lru S) now (max_entries ml) S ∧ sim ml' S' E' P' ∧
    kept ml ml' (need_revalidate ml || negb (length (s_lru S') =? length (s_lru S))%nat)).
Proof.
  induction fuel as [|fuel IH]; intros ml S E P HS Hsz Hf; destruct (s_lru S) as [|k l] eqn:Hl; [|simpl in Hf; lia| |].
  1,2: cbn [run_loop]; rewrite (sim_lru_nil _ _ _ _ HS Hl); eexists; split; [done|]; exists S, E, P; cbn [s_run];
    rewrite Hl; cbn; rewrite orb_false_r; done.
  destruct (sim_lru_head _ _ _ _ _ _ HS Hl) as (e & a & Hg & He & Ha & Hen & Hl1). cbn [run_loop]. rewrite Hg, Hen. cbn [obind].
  rewrite (sim_count _ _ _ _ HS) by (rewrite Hl; lia). cbn [s_run]. rewrite Hl, Ha. cbn [expires concrete default from_option fmap option_fmap option_map id].
  destruct (_ || _) eqn:Hc.
  - eapply returns_bind; [by apply (expire_spec ml S E P k a e HS); [rewrite Hl|..]|].
    intros ml1 (HK & _ & P1 & HS1). assert (max_entries ml1 = max_entries ml) as Hmax by (by injection (proj1 HK)).
    eapply returns_mono; [apply (IH _ _ _ _ HS1); rewrite Hl1; simpl in Hf, Hsz; lia|].
    intros ml' (S' & E' & P' & HS' & Hsim & HK'). exists S', E', P'. rewrite Hl1, Hmax in HS'. split; [done|]. split; [done|].
    destruct HK as [HK1 HK2]. rewrite HK2 in HK'. cbn [orb] in HK'. destruct HK' as [HK3 HK4].
    split; [congruence|]. rewrite HK4. symmetry. apply orb_true_intro. right. apply negb_true_iff, Nat.eqb_neq.
    pose proof (run_lru_length l now (max_entries ml) (s_expire S k)) as Hlen. rewrite <-HS', Hl1 in Hlen. simpl. lia.
  - eexists. split; [done|]. exists S, E, P. split; [done|]. split; [done|]. rewrite Hl, Nat.eqb_refl, orb_false_r. done.
Qed.
Lemma run_spec now ml S E P : sim ml S E P → Z.of_nat (length (s_lru S)) < 2 ^ 61 →
  returns (mac_learning_run now ml) (λ '(b, ml'), ∃ S' E' P', S' = s_run (s_lru S) now (max_entries ml) S ∧ sim ml' S' E' P' ∧
    b = need_revalidate ml || negb (length (s_lru S') =? length (s_lru S))%nat ∧ kept ml ml' false).
Proof.
  intros HS Hsz. unfold mac_learning_run. eapply returns_bind.
  - apply (run_loop_spec now _ _ _ _ _ HS Hsz). by rewrite (Forall2_length (sim_lru _ _ _ _ HS)).
  - intros ml1 (S' & E' & P' & HS' & Hsim & [HK1 HK2]). eexists. split; [done|]. exists S', E', P'.
    split; [done|]. split; [by apply sim_config|]. split; [done|]. by split.
Qed.

(** ** Flushing *)

Lemma wf_lru_nil S : wf S → s_lru S = [] → S = s_empty.
Proof.
  intros HW Hl. assert (s_map S = ∅) as HM.
  { apply map_empty. intros k. apply eq_None_not_Some. intros Hk%(wf_dom _ HW). rewrite Hl in Hk. by apply elem_of_nil in Hk. }
  assert (s_ports S = ∅) as HP.
  { pose proof (size_ports S HW) as Hs. rewrite Hl in Hs. apply map_size_empty_iff. simpl in Hs. lia. }
  destruct S. simpl in *. by subst.
Qed.
Lemma flush_loop_spec fuel : ∀ ml S E P, sim ml S E P → Z.of_nat (length (s_lru S)) < 2 ^ 61 → (length (s_lru S) ≤ fuel)%nat →
  returns (flush_loop fuel ml) (λ ml', ∃ E' P', sim ml' s_empty E' P' ∧
    kept ml ml' (need_revalidate ml || negb (length (s_lru S) =? 0)%nat)).
Proof.
  induction fuel as [|fuel IH]; intros ml S E P HS Hsz Hf; destruct (s_lru S) as [|k l] eqn:Hl; [|simpl in Hf; lia| |].
  1,2: cbn [flush_loop]; rewrite (sim_lru_nil _ _ _ _ HS Hl); eexists; split; [done|]; exists E, P; cbn; rewrite orb_false_r;
    rewrite <-(wf_lru_nil S (sim_wf _ _ _ _ HS) Hl); done.
  destruct (sim_lru_head _ _ _ _ _ _ HS Hl) as (e & a & Hg & He & Ha & _ & Hl1). cbn [flush_loop]. rewrite Hg.
  eapply returns_bind; [by apply (expire_spec ml S E P k a e HS); [rewrite Hl|..]|]. intros ml1 ([HK1 HK2] & _ & P1 & HS1).
  eapply returns_mono; [apply (IH _ _ _ _ HS1); rewrite Hl1; simpl in Hf, Hsz; lia|].
  intros ml' (E' & P' & Hsim & [HK3 HK4]). exists E', P'. split; [done|]. split; [congruence|].
  rewrite HK4, HK2. cbn. by rewrite orb_true_r.
Qed.
Lemma sim_table ml S E P t : sim ml S E P → hmap_rep t (entry_hash (secret ml) <$> mac_entries ml) → sim (set_table ml t (lrus ml)) S E P.
Proof. intros [? ? ? ? [? ? ? ? ?]] HT. split; [done..|]. by split. Qed.
Lemma flush_spec ml S E P : sim ml S E P → Z.of_nat (length (s_lru S)) < 2 ^ 61 →
  returns (mac_learning_flush ml) (λ ml', ∃ E' P', sim ml' s_empty E' P' ∧
    kept ml ml' (need_revalidate ml || negb (length (s_lru S) =? 0)%nat)).
Proof.
  intros HS Hsz. unfold mac_learning_flush. eapply returns_bind.
  - apply (flush_loop_spec _ _ _ _ _ HS Hsz). by rewrite (Forall2_length (sim_lru _ _ _ _ HS)).
  - intros ml1 (E' & P' & HS1 & HK). destruct (hmap_shrink_rep _ _ (bx_table _ (sim_box _ _ _ _ HS1))) as (t & Ht & HT).
    + apply (entries_small _ _ _ _ HS1). done.
    + rewrite Ht. cbn [obind]. eexists. split; [done|]. exists E', P'. split; [by apply sim_table|done].
Qed.

(** ** Configuration *)

Definition delayed (delta : Z) (en : mac_entry) : mac_entry :=
  mkEntry (expires en + delta) (grat_arp_lock en) (e_mac en) (e_vlan en) (mlport en).
Lemma shift_expires_spec delta l : ∀ ml, NoDup l → (∀ e, e ∈ l → is_Some (mac_entries ml !! e)) →
  ∃ M, shift_expires ml l delta = Ret (set_memory ml M (brk ml)) ∧
    ∀ e, M !! e = (if bool_decide (e ∈ l) then delayed delta else id) <$> mac_entries ml !! e.
Proof.
  induction l as [|e l IH]; intros ml Hnd Hin; cbn [shift_expires].
  { exists (mac_entries ml). split; [by destruct ml|]. intros e. rewrite bool_decide_false by apply not_elem_of_nil.
    by rewrite option_fmap_id. }
  apply list.NoDup_cons in Hnd as [Hne Hnd]. destruct (Hin e) as [en He]; [by left|]. unfold entry_get. rewrite He. cbn [obind].
  destruct (IH (entry_set ml e (delayed delta en)) Hnd) as (M & HM & HL).
  { intros x Hx. cbn. apply (dom_insert_kept _ _ en); [done|]. apply Hin. by right. }
  exists M. split; [exact HM|]. intros x. rewrite HL. cbn. destruct (decide (x = e)) as [->|Hxe].
  - rewrite lookup_insert_eq, He, bool_decide_false by done. by rewrite bool_decide_true by left.
  - rewrite lookup_insert_ne by done. assert (bool_decide (x ∈ e :: l) = bool_decide (x ∈ l)) as ->; [|done].
    apply bool_decide_ext. rewrite elem_of_cons. naive_solver.
Qed.

Lemma set_idle_spec ml S E P idle : sim ml S E P → let idle' := normalize_idle_time idle in
  returns (mac_learning_set_idle_time ml idle) (λ ml', sim ml' (s_delay S (idle' - idle_time ml)) E P ∧
    idle_time ml' = idle' ∧ secret ml' = secret ml ∧ flood_vlans ml' = flood_vlans ml ∧ max_entries ml' = max_entries ml ∧
    ref_cnt ml' = ref_cnt ml ∧ need_revalidate ml' = need_revalidate ml).
Proof.
  intros HS idle'. unfold mac_learning_set_idle_time. fold idle'. destruct (Z.eqb_spec idle' (idle_time ml)) as [Hi|Hi]; cbn [negb].
  { eexists. split; [done|]. split; [|done]. rewrite Hi, Z.sub_diag.
    assert (s_delay S 0 = S) as ->; [|done]. destruct S as [M L Q]. unfold s_delay. cbn. f_equal. rewrite <-(map_fmap_id M) at 2.
    apply map_fmap_ext. intros k a _. rewrite Z.add_0_r. by destruct a. }
  pose proof HS as [HW HE HL HPS HB]. set (delta := idle' - idle_time ml).
  destruct (shift_expires_spec delta (lrus ml) ml) as (M & HM & HMe).
  { eapply addrs_nodup; [apply (es_inj _ _ _ _ HE)|done|apply (wf_lru _ HW)]. }
  { intros e He. destruct (addrs_inv _ _ _ _ HL He) as (k & Hk & Hke). rewrite (es_at _ _ _ _ HE k e Hke). apply fmap_is_Some. by apply (wf_dom _ HW). }
  assert (M = delayed delta <$> mac_entries ml) as ->.
  { apply map_eq. intros e. rewrite HMe, lookup_fmap. destruct (mac_entries ml !! e) as [en|] eqn:Hen; [|done]. cbn.
    rewrite bool_decide_true; [done|]. destruct (es_inv _ _ _ _ HE e en Hen) as (k & a & Hk & Ha & _).
    apply (addrs_elem E _ _ k e (es_inj _ _ _ _ HE) HL Hk), (wf_dom _ HW). eauto. }
  rewrite HM. cbn [obind]. eexists. split; [done|]. split; [|done]. split.
  - by apply wf_delay.
  - destruct HE as [H1 H2 H3 H4]. split; cbn.
    + intros k. rewrite lookup_fmap, H1. by rewrite fmap_is_Some.
    + done.
    + intros k e Hk. rewrite !lookup_fmap, (H3 k e Hk). by destruct (s_map S !! k).
    + intros e. rewrite lookup_fmap, fmap_is_Some. apply H4.
  - exact HL.
  - exact HPS.
  - destruct HB as [H1 H2 H3 H4 H5]. split; cbn; [by rewrite <-map_fmap_compose|done|done|done|].
    intros x. rewrite lookup_fmap, fmap_is_Some. apply H5.
Qed.

(** ** Freeing the table *)

Lemma expire_loop_spec fuel : ∀ ml S E P, sim ml S E P → Z.of_nat (length (s_lru S)) < 2 ^ 61 → (length (s_lru S) ≤ fuel)%nat →
  returns (expire_loop fuel ml (hmap_first (table ml))) (λ ml', ∃ E' P', sim ml' s_empty E' P').
Proof.
  induction fuel as [|fuel IH]; intros ml S E P HS Hsz Hf; pose proof (bx_table _ (sim_box _ _ _ _ HS)) as HT;
    pose proof (sim_size _ _ _ _ HS) as Hs; destruct (hmap_first (table ml)) as [|[h e] post] eqn:Hfirst; cbn [expire_loop].
  1,3: apply (hmap_first_nil _ _ HT), fmap_empty_inv in Hfirst; rewrite Hfirst, map_size_empty in Hs;
    eexists; split; [done|]; exists E, P; rewrite <-(wf_lru_nil S (sim_wf _ _ _ _ HS)); [done|by destruct (s_lru S)].
  1,2: pose proof (hmap_first_elem _ _ _ _ _ HT Hfirst) as He; rewrite lookup_fmap in He; apply fmap_Some in He as (en & Hen & _);
    destruct (es_inv _ _ _ _ (sim_ent _ _ _ _ HS) e en Hen) as (k & a & Hk & Ha & _).
  - assert (k ∈ s_lru S) as Hin by (apply (wf_dom _ (sim_wf _ _ _ _ HS)); eauto). destruct (s_lru S); [by apply elem_of_nil in Hin|simpl in Hf; lia].
  - eapply returns_bind; [by apply (expire_spec ml S E P k a e)|]. intros ml1 (_ & Hrm & P1 & HS1).
    rewrite <-(hmap_remove_first _ _ _ _ _ _ HT Hfirst Hrm). apply (IH _ _ _ _ HS1); rewrite expire_lru.
    + pose proof (length_filter (λ x, x ≠ k) (s_lru S)). unfold without. lia.
    + assert (k ∈ s_lru S) as Hin by (apply (wf_dom _ (sim_wf _ _ _ _ HS)); eauto).
      pose proof (length_without k (s_lru S) (wf_lru _ (sim_wf _ _ _ _ HS)) Hin). lia.
Qed.
Lemma sim_refs ml S E P n : sim ml S E P → sim (set_refs ml n) S E P.
Proof. intros [? ? ? ? [? ? ? ? ?]]. split; [done..|]. by split. Qed.

(** The memory of an empty table. *)
Lemma sim_empty_memory ml E P : sim ml s_empty E P → mac_entries ml = ∅ ∧ mlports ml = ∅ ∧ port_nodes ml = ∅ ∧ lrus ml = [].
Proof.
  intros HS. pose proof (sim_size _ _ _ _ HS) as H1. pose proof (sim_ports_size _ _ _ _ HS) as H2. cbn in H1, H2.
  apply map_size_empty_iff in H1. assert (mlports ml = ∅) as HN by (apply map_size_empty_iff; lia). split_and!; [done|done| |].
  - apply map_empty. intros p. apply eq_None_not_Some. intros Hp%(bx_nodes _ (sim_box _ _ _ _ HS)). rewrite HN, lookup_empty in Hp. by destruct Hp.
  - pose proof (sim_lru _ _ _ _ HS) as HL. by inversion HL.
Qed.
Lemma unref_spec ml S E P : sim ml S E P → Z.of_nat (length (s_lru S)) < 2 ^ 61 → 0 < ref_cnt ml →
  returns (mac_learning_unref ml) (λ '(last, ml'), last = (ref_cnt ml =? 1) ∧
    if last then mac_entries ml' = ∅ ∧ mlports ml' = ∅ ∧ port_nodes ml' = ∅ ∧ lrus ml' = []
    else ml' = set_refs ml (ref_cnt ml - 1)).
Proof.
  intros HS Hsz Hrc. unfold mac_learning_unref. rewrite (proj2 (Z.ltb_lt _ _) Hrc). cbn [ovs_assert obind].
  destruct (Z.eqb_spec (ref_cnt ml) 1) as [Hr1|Hr1]; [|by eexists].
  change (table (set_refs ml (ref_cnt ml - 1))) with (table ml). rewrite (sim_count _ _ _ _ HS), Nat2Z.id by lia.
  eapply returns_bind; [apply (expire_loop_spec _ _ _ _ _ (sim_refs _ _ _ _ (ref_cnt ml - 1) HS) Hsz); lia|].
  intros ml' (E' & P' & HS'). eexists. split; [done|]. split; [done|]. by apply (sim_empty_memory ml' E' P').
Qed.

Lemma create_sim secret idle : sim (mac_learning_create secret idle) s_empty ∅ ∅.
Proof.
  split; [apply wf_empty|..].
  - split; cbn; [intros k; by rewrite !lookup_empty|intros k; by rewrite lookup_empty..|intros e]. rewrite lookup_empty. by intros [? ?].
  - constructor.
  - split; cbn; [intros k; by rewrite !lookup_empty|intros k; by rewrite lookup_empty..|intros e]. rewrite lookup_empty. by intros [? ?].
  - split; cbn; [rewrite fmap_empty; apply hmap_init_rep|rewrite fmap_empty; apply hmap_init_rep|rewrite fmap_empty; apply heap_init_rep|..].
    + intros p. by rewrite !lookup_empty.
    + intros x. rewrite !lookup_empty. by intros [[? ?]|[? ?]].
Qed.
