(* ===== verification/MacClients.v ===== *)
(** * The clients of the MAC learning table

    ofproto/ofproto-dpif-xlate.c learns from the packets of a bridge,
    ofproto/ofproto-dpif.c keeps the table in step with the bridge's bundles
    and lib/learning-switch.c forwards by it.  The locks serialise the calls;
    [now] is [time_now()], which is cached between two rounds of the poll
    loop. *)
From Stdlib Require Import ZArith Lia.
From stdpp Require Import base list gmap numbers option.
From S2P Require Import Prelude Hash Hmap MacLearning.
Open Scope Z_scope.

(** The members of [struct flow] that are used, in host byte order. *)
Record lflow := mkLflow {
  dl_src : Z;
  dl_dst : Z;
  dl_type : Z;
  nw_proto : Z;
  nw_src : Z;
  nw_dst : Z;
}.

(** The members of the wildcards that are written, true for all-ones. *)
Record lmasks := mkLmasks { wc_dl_dst : bool; wc_nw_proto : bool; wc_nw_src : bool; wc_nw_dst : bool }.

(** [ofbundle] is a pointer, NULL for [ofpp_none_bundle]. *)
Record xbundle := mkXbundle { ofbundle : Z; bond : bool; is_ofpp_none : bool }.

Definition ETH_TYPE_ARP_ : Z := 0x0806.
Definition ARP_OP_REQUEST : Z := 1.
Definition ARP_OP_REPLY : Z := 2.
Definition eth_addr_is_broadcast (a : Z) : bool := a =? 0xffffffffffff.

Definition is_gratuitous_arp (flow : lflow) (wc : lmasks) : bool * lmasks :=
  if negb (dl_type flow =? ETH_TYPE_ARP_) then (false, wc)
  else
    let wc := mkLmasks true (wc_nw_proto wc) (wc_nw_src wc) (wc_nw_dst wc) in
    if negb (eth_addr_is_broadcast (dl_dst flow)) then (false, wc)
    else
      let wc := mkLmasks (wc_dl_dst wc) true (wc_nw_src wc) (wc_nw_dst wc) in
      if nw_proto flow =? ARP_OP_REPLY then (true, wc)
      else if nw_proto flow =? ARP_OP_REQUEST then
        let wc := mkLmasks (wc_dl_dst wc) (wc_nw_proto wc) true true in
        (nw_src flow =? nw_dst flow, wc)
      else (false, wc).

Definition is_mac_learning_update_needed (now : Z) (ml : mac_learning) (flow : lflow) (wc : lmasks) (vlan : Z) (in_xbundle : xbundle)
    : outcome (bool * lmasks) :=
  let* may := mac_learning_may_learn ml (dl_src flow) vlan in
  if negb may then Ret (false, wc)
  else
    let* mac := mac_learning_lookup ml (dl_src flow) vlan in
    match mac with
    | None => Ret (true, wc)
    | Some e =>
        let* en := entry_get ml e in
        if negb (mac_entry_age now ml en =? 0) then Ret (true, wc)
        else
          let (garp, wc) := is_gratuitous_arp flow wc in
          if garp && negb (bond in_xbundle) then Ret (true, wc)
          else if garp && mac_entry_is_grat_arp_locked now en then Ret (false, wc)
          else
            let* port := mac_entry_get_port ml en in
            Ret (negb (port =? ofbundle in_xbundle), wc)
    end.

Definition update_learning_table__ (now : Z) (ml : mac_learning) (flow : lflow) (wc : lmasks) (vlan : Z) (in_xbundle : xbundle)
    : outcome (lmasks * mac_learning) :=
  let* may := mac_learning_may_learn ml (dl_src flow) vlan in
  if negb may then Ret (wc, ml)
  else
    let* (mac, ml) := mac_learning_insert now ml (dl_src flow) vlan in
    let* en := entry_get ml mac in
    let (garp, wc) := is_gratuitous_arp flow wc in
    if garp && bond in_xbundle && mac_entry_is_grat_arp_locked now en then Ret (wc, ml)
    else
      let ml := if garp && negb (bond in_xbundle) then entry_set ml mac (mac_entry_set_grat_arp_lock now en) else ml in
      let* en := entry_get ml mac in
      let* port := mac_entry_get_port ml en in
      let* ml := if negb (port =? ofbundle in_xbundle) then mac_entry_set_port ml mac (ofbundle in_xbundle) else Ret ml in
      Ret (wc, ml).

Definition update_learning_table (now : Z) (ml : mac_learning) (flow : lflow) (wc : lmasks) (vlan : Z) (in_xbundle : xbundle)
    : outcome (lmasks * mac_learning) :=
  if is_ofpp_none in_xbundle then Ret (wc, ml)
  else
    let* (need_update, wc) := is_mac_learning_update_needed now ml flow wc vlan in_xbundle in
    if need_update then update_learning_table__ now ml flow wc vlan in_xbundle else Ret (wc, ml).

(** ** ofproto/ofproto-dpif.c *)

(** The loop over the other ofprotos' tables. *)
Fixpoint flush_others (others : list mac_learning) (mac vlan : Z) : outcome (list mac_learning) :=
  match others with
  | [] => Ret []
  | o :: others =>
      let* e := mac_learning_lookup o mac vlan in
      let* o := match e with Some e => mac_learning_expire o e | None => Ret o end in
      let* others := flush_others others mac vlan in
      Ret (o :: others)
  end.

(** [LIST_FOR_EACH_SAFE] over [ml->lrus]: the body takes at most the current
    entry from the list, so that it visits the list as it was. *)
Fixpoint bundle_flush_loop (l : list positive) (ml : mac_learning) (others : list mac_learning) (bundle : Z) (all_ofprotos : bool)
    : outcome (mac_learning * list mac_learning) :=
  match l with
  | [] => Ret (ml, others)
  | mac :: l =>
      let* en := entry_get ml mac in
      let* port := mac_entry_get_port ml en in
      if port =? bundle then
        let* others := if all_ofprotos then flush_others others (e_mac en) (e_vlan en) else Ret others in
        let* ml := mac_learning_expire ml mac in
        bundle_flush_loop l ml others bundle all_ofprotos
      else bundle_flush_loop l ml others bundle all_ofprotos
  end.
Definition bundle_flush_macs (ml : mac_learning) (others : list mac_learning) (bundle : Z) (all_ofprotos : bool)
    : outcome (mac_learning * list mac_learning) :=
  bundle_flush_loop (lrus ml) ml others bundle all_ofprotos.

Fixpoint bundle_move_loop (l : list positive) (ml : mac_learning) (old new : Z) : outcome mac_learning :=
  match l with
  | [] => Ret ml
  | mac :: l =>
      let* en := entry_get ml mac in
      let* port := mac_entry_get_port ml en in
      let* ml := if port =? old then mac_entry_set_port ml mac new else Ret ml in
      bundle_move_loop l ml old new
  end.
Definition bundle_move (ml : mac_learning) (old new : Z) : outcome mac_learning := bundle_move_loop (lrus ml) ml old new.

Definition set_flood_vlans (ml : mac_learning) (flood : option (list Z)) : outcome mac_learning :=
  let (changed, ml) := mac_learning_set_flood_vlans ml flood in
  if changed then mac_learning_flush ml else Ret ml.

Definition set_mac_table_config (ml : mac_learning) (idle_time max_entries : Z) : outcome mac_learning :=
  let* ml := mac_learning_set_idle_time ml idle_time in
  Ret (mac_learning_set_max_entries ml max_entries).

(** ** lib/packets.c: reserved addresses *)

Definition reserved_nodes : list Z :=
  (* STP, IEEE pause frames, and other reserved protocols. *)
  ((λ i, 0x0180c2000000 + Z.of_nat i) <$> seq 0 16) ++
  (* Extreme protocols. *)
  [0x00e02b000000; 0x00e02b000004; 0x00e02b000006] ++
  (* Cisco protocols. *)
  [0x01000c000000; 0x01000ccccccc; 0x01000ccccccd; 0x01000ccdcdcd] ++
  (* Cisco CFM. *)
  ((λ i, 0x01000cccccc0 + Z.of_nat i) <$> seq 0 8).
Definition hash_uint64 (x : Z) : Z := hash_uint64_basis x 0.

(** The node of the [i]th address is at [i + 1]. *)
Fixpoint reserved_insert (addrs : hmap) (nodes : list Z) (node : positive) : outcome hmap :=
  match nodes with
  | [] => Ret addrs
  | ea64 :: nodes =>
      let* addrs := hmap_insert addrs node (hash_uint64 ea64) in
      reserved_insert addrs nodes (Pos.succ node)
  end.
Definition eth_addr_is_reserved (ea : Z) : outcome bool :=
  let* addrs := reserved_insert hmap_init reserved_nodes 1 in
  let* r := HMAP_FOR_EACH_IN_BUCKET addrs (hash_uint64 ea) (λ node,
    match reserved_nodes !! pred (Pos.to_nat node) with
    | Some ea64 => Ret (ea64 =? ea)
    | None => Fault OutOfBounds
    end) in
  Ret (match r with Some _ => true | None => false end).

(** ** lib/learning-switch.c *)

Definition OFPP_NORMAL : Z := 0xfffa.
Definition OFPP_FLOOD : Z := 0xfffb.
Definition OFPP_NONE : Z := 0xffff.

(** The pointers of the table are OpenFlow port numbers here. *)
Definition get_mac_entry_ofp_port (ml : mac_learning) (e : positive) : outcome Z :=
  let* en := entry_get ml e in
  let* port := mac_entry_get_port ml en in
  Ret (u16 port).
Definition set_mac_entry_ofp_port (ml : mac_learning) (e : positive) (ofp_port : Z) : outcome mac_learning :=
  mac_entry_set_port ml e ofp_port.

(** Learning the source, *)
Definition lswitch_learn (now : Z) (ml : mac_learning) (flow : lflow) (in_port : Z) : outcome mac_learning :=
  let* may := mac_learning_may_learn ml (dl_src flow) 0 in
  if may then
    let* (mac, ml) := mac_learning_insert now ml (dl_src flow) 0 in
    let* port := get_mac_entry_ofp_port ml mac in
    if negb (port =? in_port) then set_mac_entry_ofp_port ml mac in_port else Ret ml
  else Ret ml.

(** and the whole function; [sw->ml] may be null. *)
Definition lswitch_choose_destination (now : Z) (sw_ml : option mac_learning) (action_normal : bool) (flow : lflow) (in_port : Z)
    : outcome (Z * option mac_learning) :=
  let* sw_ml :=
    match sw_ml with
    | Some ml => let* ml := lswitch_learn now ml flow in_port in Ret (Some ml)
    | None => Ret None
    end in
  let* reserved := eth_addr_is_reserved (dl_dst flow) in
  if reserved then Ret (OFPP_NONE, sw_ml)
  else
    let* mac := match sw_ml with Some ml => mac_learning_lookup ml (dl_dst flow) 0 | None => Ret None end in
    let* out_port :=
      match sw_ml, mac with
      | Some ml, Some e => get_mac_entry_ofp_port ml e
      | _, _ => Ret OFPP_FLOOD
      end in
    if (match mac with Some _ => true | None => false end) && (out_port =? in_port) then Ret (OFPP_NONE, sw_ml)
    else if action_normal && negb (out_port =? OFPP_FLOOD) then Ret (OFPP_NORMAL, sw_ml)
    else Ret (out_port, sw_ml).
