(* ===== verification/MacClientSpec.v ===== *)
(** * A learning bridge

    What the clients of the MAC learning table do to a table of MacSpec.v, and
    the invariant that they keep. *)
From Stdlib Require Import ZArith Lia.
From stdpp Require Import base list gmap numbers option sorting.
From S2P Require Import Prelude MacLearning MacSpec MacClients.
Open Scope Z_scope.

Record bridge := mkBridge {
  b_macs : macs;
  b_flood : option (list Z);
  b_idle : Z;
  b_max : Z;
  b_reval : bool;
}.
Definition with_macs (T : bridge) (S : macs) (changed : bool) : bridge :=
  mkBridge S (b_flood T) (b_idle T) (b_max T) (b_reval T || changed).

(** The table with the entry of [k], new or used again. *)
Inductive s_insert (T : bridge) (now : Z) (k : key) : macs → bool → Prop :=
| insert_old a :
    s_map (b_macs T) !! k = Some a →
    s_insert T now k (s_touch (b_macs T) k a (now + b_idle T)) false
| insert_new :
    s_map (b_macs T) !! k = None → Z.of_nat (length (s_lru (b_macs T))) < b_max T →
    s_insert T now k (s_add (b_macs T) k (now + b_idle T)) false
| insert_evict v :
    s_map (b_macs T) !! k = None → b_max T ≤ Z.of_nat (length (s_lru (b_macs T))) → fair_victim (b_macs T) v →
    s_insert T now k (s_add (s_expire (b_macs T) v) k (now + b_idle T)) true.

Definition s_relock (S : macs) (k : key) (a : sentry) (lock : Z) : macs :=
  mkMacs (<[k := mkSentry (s_port a) (s_expires a) lock]> (s_map S)) (s_lru S) (s_ports S).

(** The entry of [k] moves to the port the packet came from, unless it is
    locked against gratuitous ARPs reflected by a bond. *)
Definition s_learned (S : macs) (k : key) (now : Z) (garp bond : bool) (q : Z) : macs * bool :=
  match s_map S !! k with
  | None => (S, false)
  | Some a =>
      if garp && bond && (now <? s_lock a) then (S, false)
      else (s_set_port (if garp && negb bond then s_relock S k a (now + MAC_GRAT_ARP_LOCK_TIME) else S) k q,
            negb (s_port a =? q))
  end.

(** The seconds since [a] was learned, as an [int]. *)
Definition s_age (now idle : Z) (a : sentry) : Z := (idle - (s_expires a - now) + 2 ^ 31) mod 2 ^ 32 - 2 ^ 31.
Definition s_needed (T : bridge) (now : Z) (k : key) (garp bond : bool) (q : Z) : bool :=
  match s_map (b_macs T) !! k with
  | None => true
  | Some a =>
      if negb (s_age now (b_idle T) a =? 0) then true
      else if garp && negb bond then true
      else if garp && (now <? s_lock a) then false
      else negb (s_port a =? q)
  end.

(** ** Events *)

Inductive mevent :=
| MLearn (now : Z) (flow : lflow) (wc : lmasks) (vlan : Z) (in_xbundle : xbundle)
| MRun (now : Z)
| MFlush
| MFlushBundle (bundle : Z)
| MMove (old new : Z)
| MFlood (flood : option (list Z))
| MConfig (idle max : Z)
| MLookup (mac vlan : Z).
Inductive mout := MDone | MRevalidate (b : bool) | MPort (port : option Z).

Definition mexec (ev : mevent) (ml : mac_learning) : outcome (mout * mac_learning) :=
  match ev with
  | MLearn now flow wc vlan xb => let* (_, ml) := update_learning_table now ml flow wc vlan xb in Ret (MDone, ml)
  | MRun now => let* (b, ml) := mac_learning_run now ml in Ret (MRevalidate b, ml)
  | MFlush => let* ml := mac_learning_flush ml in Ret (MDone, ml)
  | MFlushBundle bundle => let* (ml, _) := bundle_flush_macs ml [] bundle false in Ret (MDone, ml)
  | MMove old new => let* ml := bundle_move ml old new in Ret (MDone, ml)
  | MFlood flood => let* ml := set_flood_vlans ml flood in Ret (MDone, ml)
  | MConfig idle max => let* ml := set_mac_table_config ml idle max in Ret (MDone, ml)
  | MLookup mac vlan =>
      let* r := mac_learning_lookup ml mac vlan in
      match r with
      | None => Ret (MPort None, ml)
      | Some e => let* en := entry_get ml e in let* port := mac_entry_get_port ml en in Ret (MPort (Some port), ml)
      end
  end.
Fixpoint mrun (evs : list mevent) (ml : mac_learning) : outcome (list mout * mac_learning) :=
  match evs with
  | [] => Ret ([], ml)
  | ev :: evs =>
      let* (out, ml) := mexec ev ml in
      let* (outs, ml) := mrun evs ml in
      Ret (out :: outs, ml)
  end.

(** A client calls with a bundle that is not null, VLANs within 12 bits and
    bitmaps of 4096 bits; time does not go back. *)
Definition mvalid (t : Z) (ev : mevent) : Prop :=
  match ev with
  | MLearn now _ _ vlan xb => t ≤ now ∧ 0 ≤ vlan < 4096 ∧ (is_ofpp_none xb = false → ofbundle xb ≠ 0)
  | MRun now => t ≤ now
  | MMove _ new => new ≠ 0
  | MFlood (Some b) => length b = 64%nat
  | MConfig idle max => 0 ≤ idle ∧ 0 ≤ max
  | MLookup _ vlan => 0 ≤ vlan < 4096
  | _ => True
  end.
Definition mtime (t : Z) (ev : mevent) : Z :=
  match ev with MLearn now _ _ _ _ => now | MRun now => now | _ => t end.
Fixpoint mvalids (t : Z) (evs : list mevent) : Prop :=
  match evs with [] => True | ev :: evs => mvalid t ev ∧ mvalids (mtime t ev) evs end.

(** ** What an event does *)

Fixpoint s_flush_bundle (l : list key) (q : Z) (S : macs) : macs :=
  match l with
  | [] => S
  | k :: l => s_flush_bundle l q (if bool_decide (s_port <$> s_map S !! k = Some q) then s_expire S k else S)
  end.
Fixpoint s_move_bundle (l : list key) (q q' : Z) (S : macs) : macs :=
  match l with
  | [] => S
  | k :: l => s_move_bundle l q q' (if bool_decide (s_port <$> s_map S !! k = Some q) then s_set_port S k q' else S)
  end.
(** Some entry is on the port [q]. *)
Definition used (S : macs) (q : Z) : bool := bool_decide (is_Some (s_ports S !! q)).

Inductive mstep (T : bridge) : mevent → mout → bridge → Prop :=
| step_learn now f wc vlan xb S r S' c :
    is_ofpp_none xb = false → learnable (b_flood T) (dl_src f) vlan = true →
    let garp := (is_gratuitous_arp f wc).1 in
    s_needed T now (dl_src f, vlan) garp (bond xb) (ofbundle xb) = true →
    s_insert T now (dl_src f, vlan) S r →
    s_learned S (dl_src f, vlan) now garp (bond xb) (ofbundle xb) = (S', c) →
    mstep T (MLearn now f wc vlan xb) MDone (with_macs T S' (r || c))
| step_not_learn now f wc vlan xb :
    is_ofpp_none xb = true ∨ learnable (b_flood T) (dl_src f) vlan = false ∨
    s_needed T now (dl_src f, vlan) (is_gratuitous_arp f wc).1 (bond xb) (ofbundle xb) = false →
    mstep T (MLearn now f wc vlan xb) MDone T
| step_run now :
    let S := s_run (s_lru (b_macs T)) now (b_max T) (b_macs T) in
    let changed := negb (length (s_lru S) =? length (s_lru (b_macs T)))%nat in
    mstep T (MRun now) (MRevalidate (b_reval T || changed)) (mkBridge S (b_flood T) (b_idle T) (b_max T) false)
| step_flush :
    mstep T MFlush MDone (with_macs T s_empty (negb (length (s_lru (b_macs T)) =? 0)%nat))
| step_flush_bundle q :
    mstep T (MFlushBundle q) MDone
      (with_macs T (s_flush_bundle (s_lru (b_macs T)) q (b_macs T)) (used (b_macs T) q))
| step_move q q' :
    mstep T (MMove q q') MDone
      (with_macs T (s_move_bundle (s_lru (b_macs T)) q q' (b_macs T)) (used (b_macs T) q && negb (q =? q')))
| step_same_flood :
    mstep T (MFlood (b_flood T)) MDone T
| step_flood b : b ≠ b_flood T →
    mstep T (MFlood b) MDone
      (mkBridge s_empty b (b_idle T) (b_max T) (b_reval T || negb (length (s_lru (b_macs T)) =? 0)%nat))
| step_config idle max :
    let idle' := Z.max 15 (Z.min 3600 idle) in
    mstep T (MConfig idle max) MDone
      (mkBridge (s_delay (b_macs T) (idle' - b_idle T)) (b_flood T) idle' (Z.max 10 (Z.min 1000000 max)) (b_reval T))
| step_lookup mac vlan :
    mstep T (MLookup mac vlan)
      (MPort (if learnable (b_flood T) mac vlan then s_port <$> s_map (b_macs T) !! (mac, vlan) else None)) T.

(** ** The invariant *)

Definition expiry (S : macs) (k : key) : Z := default 0 (s_expires <$> s_map S !! k).

(** The entries expire in the order in which they were last used, none of them
    later than an entry that is used now. *)
Record aged (t idle : Z) (S : macs) : Prop := {
  ag_sorted : StronglySorted (λ k k', expiry S k ≤ expiry S k') (s_lru S);
  ag_bound : ∀ k, k ∈ s_lru S → expiry S k ≤ t + idle;
}.

(** The invariant of a bridge at the time [t]. *)
Record bridge_ok (t : Z) (T : bridge) : Prop := {
  ok_wf : wf (b_macs T);
  ok_settled : settled (b_macs T);
  ok_aged : aged t (b_idle T) (b_macs T);
  ok_flood : ∀ b, b_flood T = Some b → length b = 64%nat;
  ok_idle : 15 ≤ b_idle T ≤ 3600;
  ok_max : 10 ≤ b_max T ≤ 1000000;
  ok_size : Z.of_nat (length (s_lru (b_macs T))) ≤ 1000000;
}.

(** A history: the events with their results. *)
Inductive msteps : bridge → list mevent → list mout → bridge → Prop :=
| msteps_nil T : msteps T [] [] T
| msteps_cons T ev out T1 evs outs T' : mstep T ev out T1 → msteps T1 evs outs T' → msteps T (ev :: evs) (out :: outs) T'.
Definition bridge_create (idle : Z) : bridge := mkBridge s_empty None (Z.max 15 (Z.min 3600 idle)) MAC_DEFAULT_MAX false.
Definition mtimes (t : Z) (evs : list mevent) : Z := foldl mtime t evs.
