(* ===== verification/MacBridge.v ===== *)
(** * The invariant of a learning bridge *)
From Stdlib Require Import ZArith Lia.
From stdpp Require Import base list gmap numbers option sorting.
From S2P Require Import Prelude MacLearning MacSpec MacClients MacClientSpec.
Open Scope Z_scope.

(** ** Expiry times *)

Section Sorted.
Context {A} (R : relation A).
Lemma sorted_filter (Q : A → Prop) `{∀ x, Decision (Q x)} l : StronglySorted R l → StronglySorted R (filter Q l).
Proof.
  induction l as [|x l IH]; intros Hs; [constructor|]. apply StronglySorted_cons in Hs as [Hx Hs]. rewrite filter_cons.
  case_decide; [|by apply IH]. apply StronglySorted_cons. split; [|by apply IH]. rewrite list.Forall_forall in *.
  intros y [_ Hy]%list_elem_of_filter. by apply Hx.
Qed.
Lemma sorted_ext (R' : relation A) l : (∀ x y, x ∈ l → y ∈ l → R x y → R' x y) → StronglySorted R l → StronglySorted R' l.
Proof.
  intros HR. induction l as [|x l IH]; intros Hs; [constructor|]. apply StronglySorted_cons in Hs as [Hx Hs]. apply StronglySorted_cons.
  rewrite list.Forall_forall in *. split.
  - intros y Hy. apply HR; [by left|by right|by apply Hx].
  - apply IH; [|done]. intros y z Hy Hz. apply HR; by right.
Qed.
End Sorted.

Lemma aged_ext t idle S S' : s_lru S' = s_lru S → (∀ k, k ∈ s_lru S → expiry S' k = expiry S k) → aged t idle S → aged t idle S'.
Proof.
  intros Hl He [H1 H2]. split; rewrite Hl.
  - eapply sorted_ext; [|exact H1]. intros x y Hx Hy. by rewrite !He.
  - intros k Hk. rewrite He by done. by apply H2.
Qed.
Lemma aged_later t t' idle S : t ≤ t' → aged t idle S → aged t' idle S.
Proof. intros Ht [H1 H2]. split; [done|]. intros k Hk. specialize (H2 k Hk). lia. Qed.
Lemma aged_empty t idle : aged t idle s_empty.
Proof. split; [constructor|]. intros k. cbn. by intros ?%elem_of_nil. Qed.
(** Taking entries away. *)
Lemma aged_without t idle S S' k : s_lru S' = without k (s_lru S) → (∀ x, x ≠ k → expiry S' x = expiry S x) →
  aged t idle S → aged t idle S'.
Proof.
  intros Hl He [H1 H2]. split; rewrite Hl.
  - eapply sorted_ext; [|by apply sorted_filter]. intros x y [? _]%elem_of_without [? _]%elem_of_without. by rewrite !He.
  - intros x [Hx Hin]%elem_of_without. rewrite He by done. by apply H2.
Qed.
(** The entry used last expires last. *)
Lemma aged_push t now idle S S' k : t ≤ now → aged t idle S → s_lru S' = without k (s_lru S) ++ [k] →
  (∀ x, x ≠ k → expiry S' x = expiry S x) → expiry S' k = now + idle → aged now idle S'.
Proof.
  intros Ht [H1 H2] Hl He Hk. split; rewrite Hl.
  - apply StronglySorted_app_2.
    + intros x y [Hx Hin]%elem_of_without ->%list_elem_of_singleton. rewrite He, Hk by done. specialize (H2 x Hin). lia.
    + eapply sorted_ext; [|by apply sorted_filter]. intros x y [? _]%elem_of_without [? _]%elem_of_without. by rewrite !He.
    + repeat constructor.
  - intros x [[Hx Hin]%elem_of_without| ->%list_elem_of_singleton]%elem_of_app; [|lia]. rewrite He by done. specialize (H2 x Hin). lia.
Qed.

Lemma expiry_at S k a : s_map S !! k = Some a → expiry S k = s_expires a.
Proof. intros Hk. unfold expiry. by rewrite Hk. Qed.
Lemma expiry_expire S k x : x ≠ k → expiry (s_expire S k) x = expiry S x.
Proof. intros Hx. unfold expiry. by rewrite expire_map, decide_False. Qed.
Lemma expiry_set_port S k q x : expiry (s_set_port S k q) x = expiry S x.
Proof.
  unfold expiry. destruct (decide (x = k)) as [->|]; [|by rewrite set_port_map].
  destruct (s_map S !! k) as [a|] eqn:Hk; [by rewrite (set_port_lookup _ _ _ _ Hk)|]. unfold s_set_port. by rewrite Hk, Hk.
Qed.
Lemma aged_expire t idle S k : aged t idle S → aged t idle (s_expire S k).
Proof. apply aged_without with k; [apply expire_lru|]. intros x. apply expiry_expire. Qed.
Lemma aged_set_port t idle S k q : aged t idle S → aged t idle (s_set_port S k q).
Proof. apply aged_ext; [apply set_port_lru|]. intros x _. apply expiry_set_port. Qed.
Lemma aged_relock t idle S k a lock : s_map S !! k = Some a → aged t idle S → aged t idle (s_relock S k a lock).
Proof.
  intros Hk. apply aged_ext; [done|]. intros x _. unfold expiry. cbn. destruct (decide (x = k)) as [->|].
  - by rewrite lookup_insert_eq, Hk.
  - by rewrite lookup_insert_ne.
Qed.
Lemma aged_touch t now idle S k a : t ≤ now → aged t idle S → aged now idle (s_touch S k a (now + idle)).
Proof.
  intros Ht HA. eapply aged_push; [exact Ht|exact HA|done| |].
  - intros x Hx. unfold expiry. cbn. by rewrite lookup_insert_ne.
  - unfold expiry. cbn. by rewrite lookup_insert_eq.
Qed.
Lemma aged_add t now idle S k : t ≤ now → wf S → s_map S !! k = None → aged t idle S → aged now idle (s_add S k (now + idle)).
Proof.
  intros Ht HW Hk HA. eapply aged_push; [exact Ht|exact HA| | |].
  - cbn. rewrite without_id; [done|]. rewrite (wf_dom _ HW), Hk. by intros [? ?].
  - intros x Hx. unfold expiry. cbn. by rewrite lookup_insert_ne.
  - unfold expiry. cbn. by rewrite lookup_insert_eq.
Qed.
Lemma aged_delay t idle idle' S : wf S → aged t idle S → aged t idle' (s_delay S (idle' - idle)).
Proof.
  intros HW [H1 H2]. assert (∀ k, k ∈ s_lru S → expiry (s_delay S (idle' - idle)) k = expiry S k + (idle' - idle)) as He.
  { intros k Hk. apply (wf_dom _ HW) in Hk as [a Ha]. unfold expiry. cbn. rewrite lookup_fmap, Ha. done. }
  split; cbn [s_delay s_lru].
  - eapply sorted_ext; [|exact H1]. intros x y Hx Hy. rewrite !He by done. lia.
  - intros k Hk. rewrite He by done. specialize (H2 k Hk). lia.
Qed.

(** ** Tables that the bridge keeps *)

Record core (t idle : Z) (n : nat) (S : macs) : Prop := {
  co_wf : wf S;
  co_settled : settled S;
  co_aged : aged t idle S;
  co_size : (length (s_lru S) ≤ n)%nat;
}.

Lemma expire_absent S k : wf S → s_map S !! k = None → s_expire S k = S.
Proof.
  intros HW Hk. unfold s_expire, s_set_port, s_drop. rewrite Hk, delete_id by done. rewrite without_id; [by destruct S|].
  rewrite (wf_dom _ HW), Hk. by intros [? ?].
Qed.
Lemma wf_expire_any S k : wf S → wf (s_expire S k).
Proof.
  intros HW. destruct (s_map S !! k) eqn:Hk; [apply wf_expire; by eauto|by rewrite expire_absent].
Qed.
Lemma core_expire t idle n S k : core t idle n S → core t idle n (s_expire S k).
Proof.
  intros [H1 H2 H3 H4]. split; [by apply wf_expire_any|by apply expire_settled|by apply aged_expire|].
  rewrite expire_lru. etrans; [apply length_filter|done].
Qed.
Lemma core_set_port t idle n S k q : q ≠ 0 → core t idle n S → core t idle n (s_set_port S k q).
Proof.
  intros Hq [H1 H2 H3 H4]. split; [by apply wf_set_port| |by apply aged_set_port|by rewrite set_port_lru].
  intros x a Hx. destruct (decide (x = k)) as [->|]; [|rewrite set_port_map in Hx by done; by apply (H2 x)].
  destruct (s_map S !! k) as [b|] eqn:Hk; [rewrite (set_port_lookup _ _ _ _ Hk) in Hx; by injection Hx as <-|].
  unfold s_set_port in Hx. by rewrite Hk, Hk in Hx.
Qed.
Lemma core_run t idle n now max l : ∀ S, core t idle n S → core t idle n (s_run l now max S).
Proof. induction l as [|k l IH]; intros S HC; [done|]. cbn [s_run]. destruct (_ || _); [|done]. by apply IH, core_expire. Qed.
Lemma core_flush_bundle t idle n q l : ∀ S, core t idle n S → core t idle n (s_flush_bundle l q S).
Proof. induction l as [|k l IH]; intros S HC; [done|]. cbn [s_flush_bundle]. apply IH. case_bool_decide; [by apply core_expire|done]. Qed.
Lemma core_move_bundle t idle n q q' l : q' ≠ 0 → ∀ S, core t idle n S → core t idle n (s_move_bundle l q q' S).
Proof.
  intros Hq. induction l as [|k l IH]; intros S HC; [done|]. cbn [s_move_bundle]. apply IH. case_bool_decide; [by apply core_set_port|done].
Qed.
Lemma core_empty t idle n : core t idle n s_empty.
Proof. split; [apply wf_empty| |apply aged_empty|cbn; lia]. intros k a. cbn. by rewrite lookup_empty. Qed.
Lemma core_delay t idle idle' n S : core t idle n S → core t idle' n (s_delay S (idle' - idle)).
Proof.
  intros [H1 H2 H3 H4]. split; [by apply wf_delay| |by apply aged_delay|done].
  intros k a. cbn. rewrite lookup_fmap. intros (b & Hb & ->)%fmap_Some. exact (H2 k b Hb).
Qed.

(** *** Learning *)

Lemma relock_wf S k a lock : wf S → s_map S !! k = Some a → wf (s_relock S k a lock).
Proof.
  intros [H1 H2 H3 H4 H5] Hk. split; cbn [s_relock s_map s_lru s_ports]; [done| |done| |].
  - intros x. rewrite H2. destruct (decide (x = k)) as [->|]; [rewrite lookup_insert_eq, Hk; by split; eauto|by rewrite lookup_insert_ne].
  - intros q l x Hq. rewrite (H4 _ _ x Hq). destruct (decide (x = k)) as [->|]; [rewrite lookup_insert_eq; naive_solver|by rewrite lookup_insert_ne].
  - intros x b Hx Hb. destruct (decide (x = k)) as [->|].
    + rewrite lookup_insert_eq in Hx. injection Hx as <-. by apply (H5 k a).
    + rewrite lookup_insert_ne in Hx by done. by apply (H5 x b).
Qed.

(** Apart from the new entry, an inserted entry leaves the table settled. *)
Record inserting (t idle : Z) (n : nat) (k : key) (S : macs) : Prop := {
  in_wf : wf S;
  in_settled : ∀ x a, x ≠ k → s_map S !! x = Some a → s_port a ≠ 0;
  in_new : ∃ a, s_map S !! k = Some a ∧ (s_port a ≠ 0 ∨ s_lock a = TIME_MIN);
  in_aged : aged t idle S;
  in_size : (length (s_lru S) ≤ n)%nat;
}.
Lemma insert_core t now T k S r : bridge_ok t T → t ≤ now → s_insert T now k S r → inserting now (b_idle T) (Z.to_nat 1000000) k S.
Proof.
  intros [HW Hset HA _ _ Hmax Hsz] Ht HI. destruct HI as [a Ha|Hk Hlt|v Hk Hge Hv].
  - split; [by apply wf_touch| | |by apply (aged_touch t)|].
    + intros x b Hx. cbn. rewrite lookup_insert_ne by done. apply Hset.
    + eexists. split; [apply lookup_insert_eq|]. left. cbn. by apply (Hset k).
    + cbn. rewrite length_app. pose proof (length_without k _ (wf_lru _ HW) (proj2 (wf_dom _ HW k) ltac:(eauto))). simpl. lia.
  - split; [by apply wf_add| | |by apply (aged_add t)|].
    + intros x b Hx. cbn. rewrite lookup_insert_ne by done. apply Hset.
    + eexists. split; [apply lookup_insert_eq|]. by right.
    + cbn. rewrite length_app. simpl. lia.
  - pose proof (fair_victim_entry _ _ HW Hv) as Hve. assert (s_map (s_expire (b_macs T) v) !! k = None) as Hk' by (rewrite expire_map; by case_decide).
    split; [apply wf_add; [by apply wf_expire|done]| | |apply (aged_add t); [done|by apply wf_expire|done|by apply aged_expire]|].
    + intros x b Hx. cbn [s_add s_map]. rewrite lookup_insert_ne by done. by apply expire_settled.
    + eexists. split; [apply lookup_insert_eq|]. by right.
    + cbn [s_add s_lru]. rewrite length_app, expire_lru. pose proof (length_without v _ (wf_lru _ HW) (proj2 (wf_dom _ HW v) Hve)). simpl. lia.
Qed.

Lemma inserting_settled t idle n k S q : q ≠ 0 → inserting t idle n k S → core t idle n (s_set_port S k q).
Proof.
  intros Hq [H1 H2 (a & Ha & _) H4 H5]. split; [by apply wf_set_port| |by apply aged_set_port|by rewrite set_port_lru].
  intros x b Hx. destruct (decide (x = k)) as [->|]; [rewrite (set_port_lookup _ _ _ _ Ha) in Hx; by injection Hx as <-|].
  rewrite set_port_map in Hx by done. by apply (H2 x).
Qed.
Lemma inserting_relock t idle n k S a lock q : inserting t idle n k S → s_map S !! k = Some a → q ≠ 0 →
  core t idle n (s_set_port (s_relock S k a lock) k q).
Proof.
  intros [H1 H2 _ H4 H5] Ha Hq. assert (wf (s_relock S k a lock)) as HW by (by apply relock_wf).
  split; [by apply wf_set_port| |by apply aged_set_port, aged_relock|by rewrite set_port_lru].
  assert (s_map (s_relock S k a lock) !! k = Some (mkSentry (s_port a) (s_expires a) lock)) as Ha' by apply lookup_insert_eq.
  intros x b Hx. destruct (decide (x = k)) as [->|]; [rewrite (set_port_lookup _ _ _ _ Ha') in Hx; by injection Hx as <-|].
  rewrite set_port_map in Hx by done. cbn in Hx. rewrite lookup_insert_ne in Hx by done. by apply (H2 x).
Qed.
Lemma learned_core t idle n k S garp bd q S' c : 0 ≤ t → q ≠ 0 → inserting t idle n k S →
  s_learned S k t garp bd q = (S', c) → core t idle n S'.
Proof.
  intros Ht Hq HI. pose proof HI as [H1 H2 (a & Ha & Hor) H4 H5]. unfold s_learned. rewrite Ha.
  destruct (garp && bd && (t <? s_lock a)) eqn:Hlock; intros [= <- <-].
  - split; [done| |done|done]. intros x b Hx. destruct (decide (x = k)) as [->|]; [|by apply (H2 x)]. rewrite Ha in Hx. injection Hx as <-.
    destruct Hor as [?|Hm]; [done|]. rewrite !andb_true_iff, Z.ltb_lt in Hlock. unfold TIME_MIN in Hm. lia.
  - destruct (garp && negb bd); [by apply inserting_relock|by apply inserting_settled].
Qed.

(** ** Every event keeps the invariant *)

Lemma core_ok t idle flood max reval n S : core t idle n S → (n ≤ Z.to_nat 1000000)%nat → 15 ≤ idle ≤ 3600 → 10 ≤ max ≤ 1000000 →
  (∀ b, flood = Some b → length b = 64%nat) → bridge_ok t (mkBridge S flood idle max reval).
Proof. intros [H1 H2 H3 H4] Hn Hi Hm Hf. split; cbn; [done..|]. lia. Qed.
Lemma ok_core t T : bridge_ok t T → core t (b_idle T) (Z.to_nat 1000000) (b_macs T).
Proof. intros [H1 H2 H3 H4 H5 H6 H7]. split; [done..|]. lia. Qed.

Lemma mstep_ok t T ev out T' : 0 ≤ t → bridge_ok t T → mvalid t ev → mstep T ev out T' → bridge_ok (mtime t ev) T'.
Proof.
  intros Ht HB Hv Hst. pose proof (ok_core _ _ HB) as HC. pose proof HB as [H1 H2 H3 H4 H5 H6 H7].
  assert (∀ t' S reval, core t' (b_idle T) (Z.to_nat 1000000) S → bridge_ok t' (mkBridge S (b_flood T) (b_idle T) (b_max T) reval)) as Hkeep.
  { intros t' S reval HS. by apply (core_ok t' _ _ _ _ _ _ HS). }
  destruct Hst as [now f wc vlan xb S r S' c Hn Hl garp Hneed HI HL|now f wc vlan xb _|now S changed| |q|q q'| |b Hb|idle max idle'|mac vlan];
    cbn [mtime]; cbn [mvalid] in Hv.
  - destruct Hv as (Hnow & _ & Hq). apply Hkeep. eapply learned_core; [|by apply Hq|by eapply insert_core|exact HL]. lia.
  - destruct Hv as (Hnow & _). split; [done..| |done|done|done|done]. by eapply aged_later.
  - apply Hkeep, core_run. destruct HC as [? ? ? ?]. split; [done..| |done]. by eapply aged_later.
  - apply Hkeep, core_empty.
  - apply Hkeep. by apply core_flush_bundle.
  - apply Hkeep. by apply core_move_bundle.
  - done.
  - apply (core_ok t _ _ _ _ (Z.to_nat 1000000)); [apply core_empty|lia|lia|lia|]. intros b' ->. exact Hv.
  - apply (core_ok t _ _ _ _ (Z.to_nat 1000000)); [by apply core_delay|lia|lia|lia|done].
  - done.
Qed.

Lemma create_ok t idle : 0 ≤ t → bridge_ok t (bridge_create idle).
Proof. intros Ht. apply (core_ok t _ _ _ _ 0); [apply core_empty|lia|lia|unfold MAC_DEFAULT_MAX; lia|done]. Qed.
Lemma mtime_later t ev : mvalid t ev → t ≤ mtime t ev.
Proof. destruct ev; cbn; lia. Qed.

(** ** Aging *)

(** A run leaves no more than the maximum and nothing that has expired; what
    it takes has expired, or the table was too large. *)
Lemma run_aged t idle now max l : ∀ S, wf S → aged t idle S → s_lru S = l →
  let S' := s_run l now max S in
  (Z.of_nat (length (s_lru S')) ≤ Z.max 0 max) ∧
  (∀ k, k ∈ s_lru S' → now < expiry S' k) ∧
  (∀ k a, s_map S' !! k = Some a → s_map S !! k = Some a) ∧
  (∀ k a, s_map S !! k = Some a → now < s_expires a → Z.of_nat (length l) ≤ max → s_map S' !! k = Some a).
Proof.
  induction l as [|k l IH]; intros S HW HA Hl S'; unfold S'; cbn [s_run].
  { rewrite Hl. split_and!; [simpl; lia|by intros k ?%elem_of_nil|done|done]. }
  pose proof (wf_lru _ HW) as Hnd. rewrite Hl in Hnd. apply list.NoDup_cons in Hnd as [Hk Hnd].
  destruct (orb_true_iff (max <? Z.of_nat (length (k :: l))) (default 0 (s_expires <$> s_map S !! k) <=? now)) as [Hor _].
  destruct (_ || _) eqn:Hc.
  - assert (s_lru (s_expire S k) = l) as Hl1 by (rewrite expire_lru, Hl; by apply without_cons).
    destruct (IH (s_expire S k) (wf_expire_any _ _ HW) (aged_expire _ _ _ _ HA) Hl1) as (H1 & H2 & H3 & H4).
    split; [done|]. split; [done|]. split.
    + intros x a Hx. apply H3 in Hx. rewrite expire_map in Hx. by case_decide.
    + intros x a Hx Hnow Hmax. apply H4; [|done|simpl in Hmax; lia]. rewrite expire_map. case_decide as D; [|done]. subst x.
      destruct (Hor eq_refl) as [Hlt%Z.ltb_lt|Hle%Z.leb_le]; [lia|]. rewrite Hx in Hle. simpl in Hle. lia.
  - apply orb_false_iff in Hc as [Hlt%Z.ltb_ge Hle%Z.leb_gt]. rewrite Hl. split_and!; [lia| |done|done].
    destruct HA as [HA1 HA2]. rewrite Hl in HA1. apply StronglySorted_cons in HA1 as [HF _]. rewrite list.Forall_forall in HF.
    intros x [->|Hx]%elem_of_cons; [exact Hle|]. specialize (HF x Hx). unfold expiry in *. lia.
Qed.

(** ** What learning changes *)

(** The entry of the packet's source, *)
Lemma learned_entry T now k S r garp bd q S' c : s_insert T now k S r → s_learned S k now garp bd q = (S', c) →
  ∃ a, s_map S' !! k = Some a ∧ s_expires a = now + b_idle T ∧
    (s_port a = q ∨
     garp = true ∧ bd = true ∧ now < s_lock a ∧
       (s_port <$> s_map (b_macs T) !! k = Some (s_port a) ∨ s_map (b_macs T) !! k = None ∧ s_lock a = TIME_MIN)).
Proof.
  intros HI HL. assert (∃ a, s_map S !! k = Some a ∧ s_expires a = now + b_idle T ∧
    (s_port <$> s_map (b_macs T) !! k = Some (s_port a) ∨ s_map (b_macs T) !! k = None ∧ s_lock a = TIME_MIN)) as (a & Ha & He & Hp).
  { destruct HI as [a Ha|Hk _|v Hk _ _]; eexists; (split; [apply lookup_insert_eq|]); (split; [done|]); [left; by rewrite Ha|by right..]. }
  unfold s_learned in HL. rewrite Ha in HL. destruct (garp && bd && (now <? s_lock a)) eqn:Hlock; injection HL as <- <-.
  - exists a. rewrite !andb_true_iff, Z.ltb_lt in Hlock. split; [done|]. split; [done|]. right. by destruct Hlock as [[-> ->] ?].
  - destruct (garp && negb bd).
    + assert (s_map (s_relock S k a (now + MAC_GRAT_ARP_LOCK_TIME)) !! k = Some (mkSentry (s_port a) (s_expires a) (now + MAC_GRAT_ARP_LOCK_TIME))) as Ha'
        by apply lookup_insert_eq.
      eexists. split; [exact (set_port_lookup _ _ _ q Ha')|]. split; [done|by left].
    + eexists. split; [exact (set_port_lookup _ _ _ q Ha)|]. split; [done|by left].
Qed.
(** and the other entries: at most one is evicted, from a port with the most
    entries, when a new entry finds the table full. *)
Lemma learned_others T now k S r garp bd q S' c : s_insert T now k S r → s_learned S k now garp bd q = (S', c) →
  (∀ x, x ≠ k → s_map S' !! x = s_map (b_macs T) !! x) ∨
  ∃ v, v ≠ k ∧ fair_victim (b_macs T) v ∧ s_map (b_macs T) !! k = None ∧ b_max T ≤ Z.of_nat (length (s_lru (b_macs T))) ∧
    s_map S' !! v = None ∧ ∀ x, x ≠ k → x ≠ v → s_map S' !! x = s_map (b_macs T) !! x.
Proof.
  intros HI HL. assert (∀ x, x ≠ k → s_map S' !! x = s_map S !! x) as HS.
  { intros x Hx. unfold s_learned in HL. destruct (s_map S !! k) as [a|] eqn:Ha; [|by injection HL as <- <-].
    destruct (garp && bd && _); [by injection HL as <- <-|]. injection HL as <- <-. rewrite set_port_map by done.
    destruct (garp && negb bd); [|done]. cbn. by rewrite lookup_insert_ne. }
  destruct HI as [a Ha|Hk Hlt|v Hk Hge Hv].
  - left. intros x Hx. rewrite HS by done. cbn. by apply lookup_insert_ne.
  - left. intros x Hx. rewrite HS by done. cbn. by apply lookup_insert_ne.
  - destruct (decide (v = k)) as [->|Hvk].
    + left. intros x Hx. rewrite HS by done. cbn [s_add s_map]. rewrite lookup_insert_ne, expire_map by done. by rewrite decide_False.
    + right. exists v. split_and!; [done..| |].
      * rewrite HS by done. cbn [s_add s_map]. rewrite lookup_insert_ne, expire_map by done. by rewrite decide_True.
      * intros x Hx Hxv. rewrite HS by done. cbn [s_add s_map]. rewrite lookup_insert_ne, expire_map by done. by rewrite decide_False.
Qed.

(** ** The fast path *)

Lemma not_needed_same t T now k garp bd q S r S' c :
  bridge_ok t T → t ≤ now → (∀ a, s_map (b_macs T) !! k = Some a → now + b_idle T - s_expires a < 2 ^ 32) →
  s_needed T now k garp bd q = false → s_insert T now k S r → s_learned S k now garp bd q = (S', c) →
  s_map S' = s_map (b_macs T) ∧ r || c = false.
Proof.
  intros HB Ht Hage Hn HI HL. unfold s_needed in Hn. destruct (s_map (b_macs T) !! k) as [a|] eqn:Ha; [|done].
  destruct (Z.eqb_spec (s_age now (b_idle T) a) 0) as [Hz|]; cbn [negb] in Hn; [|done].
  assert (s_expires a = now + b_idle T) as He.
  { pose proof (ag_bound _ _ _ (ok_aged _ _ HB) k) as Hb. unfold expiry in Hb. rewrite Ha in Hb. cbn in Hb.
    specialize (Hage a eq_refl). assert (s_expires a ≤ t + b_idle T) by (apply Hb, (wf_dom _ (ok_wf _ _ HB)); eauto).
    unfold s_age in Hz. Z.to_euclidean_division_equations. lia. }
  assert (S = s_touch (b_macs T) k a (now + b_idle T) ∧ r = false) as [-> ->] by (destruct HI; [split; congruence|congruence..]).
  assert (mkSentry (s_port a) (now + b_idle T) (s_lock a) = a) as Hid by (rewrite <-He; by destruct a).
  unfold s_learned in HL. cbn [s_touch s_map] in HL. rewrite lookup_insert_eq, Hid in HL.
  destruct (garp && negb bd) eqn:Hgb; [done|]. assert (s_map (s_touch (b_macs T) k a (now + b_idle T)) = s_map (b_macs T)) as Hm.
  { cbn. rewrite Hid. by apply insert_id. }
  destruct (garp && bd && (now <? s_lock a)) eqn:Hlock; [by injection HL as <- <-|].
  assert (garp && (now <? s_lock a) = false) as Hgl by (destruct garp, bd; done).
  rewrite Hgl in Hn. apply negb_false_iff in Hn as Hpq. apply Z.eqb_eq in Hpq. injection HL as <- <-.
  unfold s_set_port. rewrite Hm, Ha, bool_decide_true by done. rewrite Hm. split; [done|]. by apply Z.eqb_eq in Hpq as ->.
Qed.
