(* ===== verification/MacClientProofs.v ===== *)
(** * The clients of the MAC learning table implement MacClientSpec.v *)
From Stdlib Require Import ZArith Lia.
From stdpp Require Import base list gmap numbers option sorting.
From S2P Require Import Prelude Hash Hmap HmapProofs MacLearning MacSpec MacMemory MacLearningProofs MacTableProofs MacRunProofs MacClients MacClientSpec MacBridge.
Open Scope Z_scope.

(** [ml] is the bridge's table [T], with the entries at [E] and the ports at
    [P]. *)
Record represents (ml : mac_learning) (T : bridge) (E : entry_map) (P : port_map) : Prop := {
  rp_sim : sim ml (b_macs T) E P;
  rp_flood : flood_vlans ml = b_flood T;
  rp_idle : idle_time ml = b_idle T;
  rp_max : max_entries ml = b_max T;
  rp_reval : need_revalidate ml = b_reval T;
  rp_refs : 0 < ref_cnt ml;
}.

Lemma kept_represents ml ml' T S E P E' P' b : represents ml T E P → sim ml' S E' P' → kept ml ml' b →
  represents ml' (mkBridge S (b_flood T) (b_idle T) (b_max T) b) E' P'.
Proof. intros [? H1 H2 H3 H4 H5] HS [[=] ?]. split; cbn; [done|congruence..]. Qed.

(** ** Learning *)

Lemma relock_sim ml S E P k a e lock : sim ml S E P → s_map S !! k = Some a → E !! k = Some e →
  sim (entry_set ml e (mkEntry (s_expires a) lock k.1 k.2 (P !! s_port a))) (s_relock S k a lock) E P.
Proof.
  intros HS Hk He. pose proof HS as [HW HE HL HPS HB]. split; [by apply relock_wf| |done|done|].
  - exact (es_update _ _ _ _ HE k e (mkSentry (s_port a) (s_expires a) lock) He).
  - by eapply box_entry; [|exact (entry_at _ _ _ _ _ _ _ HS Hk He)|..].
Qed.

Section Learn.
Context (ml : mac_learning) (T : bridge) (E : entry_map) (P : port_map).
Hypothesis HR : represents ml T E P.
Hypothesis Hset : settled (b_macs T).
Hypothesis Hmax : 0 < b_max T.
Hypothesis Hsize : Z.of_nat (length (s_lru (b_macs T))) < 2 ^ 61 - 1.

(** The outcome of an insertion in terms of the bridge. *)
Lemma bridge_insert now mac vlan :
  returns (mac_learning_insert now ml mac vlan) (λ '(e, ml'), ∃ S r E' P',
    s_insert T now (mac, vlan) S r ∧ sim ml' S E' P' ∧ E' !! (mac, vlan) = Some e ∧ is_Some (s_map S !! (mac, vlan)) ∧
    kept ml ml' (b_reval T || r) ∧ Z.of_nat (length (s_lru S)) < 2 ^ 61).
Proof.
  destruct HR as [HS Hf Hi Hm Hv _]. eapply returns_mono; [apply (insert_spec ml _ E P HS); [lia|done|lia]|].
  intros [e ml']. unfold inserted, room. rewrite Hi, Hm, Hv. destruct (s_map (b_macs T) !! (mac, vlan)) as [a|] eqn:Hk.
  - intros (He & HK & HS'). eexists _, false, E, P. split; [by constructor|]. split; [done|]. split; [done|].
    split; [cbn; rewrite lookup_insert_eq; by eauto|]. split; [by rewrite orb_false_r|]. cbn [s_touch s_lru].
    pose proof (length_filter (λ x, x ≠ (mac, vlan)) (s_lru (b_macs T))). rewrite length_app. unfold without. simpl. lia.
  - intros (S1 & E1 & P1 & HS' & Hroom). exists (s_add S1 (mac, vlan) (now + b_idle T)).
    destruct (Z.ltb_spec (Z.of_nat (length (s_lru (b_macs T)))) (b_max T)) as [Hlt|Hge].
    + destruct Hroom as [-> HK]. exists false, (<[(mac, vlan) := e]> E1), P1. split; [by constructor|]. split; [done|].
      split; [apply lookup_insert_eq|]. split; [cbn; rewrite lookup_insert_eq; by eauto|]. split; [by rewrite orb_false_r|].
      cbn. rewrite length_app. simpl. lia.
    + destruct Hroom as [(v & Hvi & ->) HK]. exists true, (<[(mac, vlan) := e]> E1), P1. split; [by constructor|]. split; [done|].
      split; [apply lookup_insert_eq|]. split; [cbn; rewrite lookup_insert_eq; by eauto|]. split; [by rewrite orb_true_r|].
      cbn [s_add s_lru]. rewrite length_app, expire_lru. pose proof (length_filter (λ x, x ≠ v) (s_lru (b_macs T))). unfold without. simpl. lia.
Qed.

(** The clients only call [mac_entry_set_port] when the port changes. *)
Lemma set_if_changed ml1 S1 E1 P1 k a e q : sim ml1 S1 E1 P1 → Z.of_nat (length (s_lru S1)) < 2 ^ 61 →
  s_map S1 !! k = Some a → E1 !! k = Some e →
  returns (if negb (s_port a =? q) then mac_entry_set_port ml1 e q else Ret ml1) (λ ml',
    kept ml1 ml' (need_revalidate ml1 || negb (s_port a =? q)) ∧ ∃ P', sim ml' (s_set_port S1 k q) E1 P').
Proof.
  intros HS1 Hsz Ha He. pose proof (mac_entry_set_port_spec ml1 S1 E1 P1 k a e HS1 Hsz Ha He q) as Hsp.
  destruct (Z.eqb_spec (s_port a) q) as [Hpq|Hpq]; cbn [negb] in *.
  - eexists. split; [done|]. rewrite orb_false_r. split; [done|]. exists P1. unfold s_set_port.
    rewrite Ha, bool_decide_true by done. done.
  - eapply returns_mono; [exact Hsp|]. intros ml' (HK & _ & HP'). done.
Qed.

Lemma update_table_spec now f wc vlan xb :
  vlan_ok ml vlan → ofbundle xb ≠ 0 → learnable (b_flood T) (dl_src f) vlan = true →
  returns (update_learning_table__ now ml f wc vlan xb) (λ '(_, ml'), ∃ S r S' c E' P',
    s_insert T now (dl_src f, vlan) S r ∧
    s_learned S (dl_src f, vlan) now (is_gratuitous_arp f wc).1 (bond xb) (ofbundle xb) = (S', c) ∧
    represents ml' (with_macs T S' (r || c)) E' P').
Proof.
  intros Hv Hq Hl. unfold update_learning_table__. rewrite (may_learn_spec _ _ _ Hv), (rp_flood _ _ _ _ HR), Hl. cbn [obind negb].
  eapply returns_bind; [apply bridge_insert|]. intros [e ml1] (S & r & E1 & P1 & HI & HS1 & He & [a Ha] & HK & Hsz1).
  unfold entry_get. rewrite (entry_at _ _ _ _ _ _ _ HS1 Ha He). cbn [obind].
  destruct (is_gratuitous_arp f wc) as [garp wc'] eqn:Hg. cbn [fst]. unfold mac_entry_is_grat_arp_locked. cbn [grat_arp_lock concrete].
  destruct HR as [_ R1 R2 R3 R4 R5]. destruct HK as [[= K1 K2 K3 K4 K5] K6]. destruct (garp && bond xb && (now <? s_lock a)) eqn:Hlock.
  - eexists. split; [done|]. exists S, r, S, false, E1, P1. split; [done|]. unfold s_learned. rewrite Ha, Hlock. split; [done|].
    rewrite orb_false_r. split; cbn; [done|congruence..].
  - set (ml2 := if garp && negb (bond xb) then _ else ml1).
    set (S2 := if garp && negb (bond xb) then s_relock S (dl_src f, vlan) a (now + MAC_GRAT_ARP_LOCK_TIME) else S).
    assert (∃ a', sim ml2 S2 E1 P1 ∧ s_map S2 !! (dl_src f, vlan) = Some a' ∧ s_port a' = s_port a ∧ kept ml1 ml2 (need_revalidate ml1) ∧ s_lru S2 = s_lru S)
      as (a' & HS2 & Ha' & Hp' & [[= L1 L2 L3 L4 L5] L6] & Hl2).
    { unfold S2, ml2. destruct (garp && negb (bond xb)); [|by exists a].
      exists (mkSentry (s_port a) (s_expires a) (now + MAC_GRAT_ARP_LOCK_TIME)). split; [by apply relock_sim|].
      split; [apply lookup_insert_eq|]. by split_and!. }
    rewrite (entry_at _ _ _ _ _ _ _ HS2 Ha' He). cbn [obind]. rewrite (get_port_spec _ _ _ _ _ _ _ HS2 Ha' He). cbn [obind].
    eapply returns_bind; [apply (set_if_changed ml2 S2 E1 P1 (dl_src f, vlan) a' e (ofbundle xb) HS2); [by rewrite Hl2|done|done]|].
    intros ml' ([[= M1 M2 M3 M4 M5] M6] & P' & HS'). eexists. split; [done|]. rewrite Hp' in M6.
    exists S, r, (s_set_port S2 (dl_src f, vlan) (ofbundle xb)), (negb (s_port a =? ofbundle xb)), E1, P'. split; [done|].
    unfold s_learned. rewrite Ha, Hlock. split; [done|]. split; cbn; [done|congruence..| |congruence]. rewrite M6, L6, K6. by rewrite orb_assoc.
Qed.
End Learn.

Lemma update_needed_spec ml T E P now f wc vlan xb :
  represents ml T E P → settled (b_macs T) → vlan_ok ml vlan → learnable (b_flood T) (dl_src f) vlan = true →
  returns (is_mac_learning_update_needed now ml f wc vlan xb) (λ '(b, wc'),
    b = s_needed T now (dl_src f, vlan) (is_gratuitous_arp f wc).1 (bond xb) (ofbundle xb) ∧
    (is_gratuitous_arp f wc').1 = (is_gratuitous_arp f wc).1).
Proof.
  intros [HS Hf Hi Hm Hr _] Hset Hv Hl. unfold is_mac_learning_update_needed, s_needed.
  rewrite (may_learn_spec _ _ _ Hv), Hf, Hl. cbn [obind negb]. rewrite (mac_lookup_spec _ _ _ _ _ _ HS Hset Hv), Hf, Hl. cbn [obind].
  destruct (E !! (dl_src f, vlan)) as [e|] eqn:He.
  - pose proof (sim_ent _ _ _ _ HS) as HE. destruct (proj1 (es_dom _ _ _ _ HE (dl_src f, vlan))) as [a Ha]; [by eauto|].
    unfold entry_get. rewrite (entry_at _ _ _ _ _ _ _ HS Ha He), Ha. cbn [obind]. unfold mac_entry_age, s_age. rewrite Hi. cbn [expires concrete].
    destruct (negb _); [by eexists|]. destruct (is_gratuitous_arp f wc) as [garp wc'] eqn:Hg. cbn [fst].
    assert ((is_gratuitous_arp f wc').1 = garp) as Hg'.
    { unfold is_gratuitous_arp in *. repeat case_match; naive_solver. }
    destruct (garp && negb (bond xb)); [by eexists|]. unfold mac_entry_is_grat_arp_locked. cbn [grat_arp_lock concrete].
    destruct (garp && (now <? s_lock a)); [by eexists|]. rewrite (get_port_spec _ _ _ _ _ _ _ HS Ha He). cbn [obind]. by eexists.
  - assert (s_map (b_macs T) !! (dl_src f, vlan) = None) as ->; [|by eexists].
    apply eq_None_not_Some. intros Hs%(es_dom _ _ _ _ (sim_ent _ _ _ _ HS)). rewrite He in Hs. by destruct Hs.
Qed.

(** ** Bundles *)

Definition on_bundle (S : macs) (q : Z) (k : key) : bool := bool_decide (s_port <$> s_map S !! k = Some q).
Lemma on_bundle_at S k a q : s_map S !! k = Some a → on_bundle S q k = (s_port a =? q).
Proof.
  intros Hk. unfold on_bundle. rewrite Hk. cbn. destruct (Z.eqb_spec (s_port a) q) as [->|Hne].
  - by rewrite bool_decide_true.
  - rewrite bool_decide_false; [done|]. congruence.
Qed.
Section Loops.
Context (q q' : Z).

Lemma flush_bundle_loop_spec l : ∀ l' ml S E P, sim ml S E P → Z.of_nat (length (s_lru S)) < 2 ^ 61 → addrs E l l' → NoDup l →
  (∀ k, k ∈ l → is_Some (s_map S !! k)) →
  returns (bundle_flush_loop l' ml [] q false) (λ '(ml', _), ∃ E' P', sim ml' (s_flush_bundle l q S) E' P' ∧
    kept ml ml' (need_revalidate ml || existsb (on_bundle S q) l)).
Proof.
  induction l as [|k l IH]; intros l' ml S E P HS Hsz HA Hnd Hin; inversion HA as [|? e ? l1 He HA1]; subst; cbn [bundle_flush_loop s_flush_bundle existsb].
  { eexists. split; [done|]. exists E, P. by rewrite orb_false_r. }
  destruct (Hin k) as [a Ha]; [by left|]. apply list.NoDup_cons in Hnd as [Hk Hnd].
  unfold entry_get. rewrite (entry_at _ _ _ _ _ _ _ HS Ha He). cbn [obind]. rewrite (get_port_spec _ _ _ _ _ _ _ HS Ha He). cbn [obind].
  fold (on_bundle S q k). rewrite (on_bundle_at _ _ _ _ Ha). destruct (Z.eqb_spec (s_port a) q) as [Hq|Hq].
  - eapply returns_bind; [by apply (expire_spec ml S E P k a e)|]. intros ml1 ([K1 K2] & _ & P1 & HS1).
    assert (∀ x, x ∈ l → s_map (s_expire S k) !! x = s_map S !! x) as Hx by (intros x Hx; rewrite expire_map, decide_False; [done|by intros ->]).
    eapply returns_mono; [apply (IH l1 ml1 _ _ _ HS1)|].
    + rewrite expire_lru. pose proof (length_filter (λ x, x ≠ k) (s_lru S)). unfold without. lia.
    + eapply addrs_other; [|exact HA1]. intros x ?. rewrite lookup_delete_ne; [done|by intros ->].
    + done.
    + intros x ?. rewrite Hx by done. apply Hin. by right.
    + intros [ml' o] (E' & P' & HS' & [K3 K4]). exists E', P'. split; [done|]. split; [congruence|]. rewrite K4, K2. by rewrite orb_true_r.
  - apply (IH l1 ml S E P); [done..|]. intros x ?. apply Hin. by right.
Qed.

Lemma move_bundle_loop_spec l : ∀ l' ml S E P, sim ml S E P → Z.of_nat (length (s_lru S)) < 2 ^ 61 → addrs E l l' → NoDup l →
  (∀ k, k ∈ l → is_Some (s_map S !! k)) →
  returns (bundle_move_loop l' ml q q') (λ ml', ∃ P', sim ml' (s_move_bundle l q q' S) E P' ∧
    kept ml ml' (need_revalidate ml || existsb (on_bundle S q) l && negb (q =? q'))).
Proof.
  induction l as [|k l IH]; intros l' ml S E P HS Hsz HA Hnd Hin; inversion HA as [|? e ? l1 He HA1]; subst; cbn [bundle_move_loop s_move_bundle existsb].
  { eexists. split; [done|]. exists P. by rewrite orb_false_r. }
  destruct (Hin k) as [a Ha]; [by left|]. apply list.NoDup_cons in Hnd as [Hk Hnd].
  unfold entry_get. rewrite (entry_at _ _ _ _ _ _ _ HS Ha He). cbn [obind]. rewrite (get_port_spec _ _ _ _ _ _ _ HS Ha He). cbn [obind].
  fold (on_bundle S q k). rewrite (on_bundle_at _ _ _ _ Ha). destruct (Z.eqb_spec (s_port a) q) as [Hq|Hq]; cbn [obind orb].
  - eapply returns_bind; [by apply (mac_entry_set_port_spec ml S E P k a e)|]. intros ml1 ([K1 K2] & _ & P1 & HS1).
    assert (∀ x, x ∈ l → s_map (s_set_port S k q') !! x = s_map S !! x) as Hx by (intros x Hx; apply set_port_map; by intros ->).
    eapply returns_mono; [apply (IH l1 ml1 _ _ _ HS1)|].
    + by rewrite set_port_lru.
    + done.
    + done.
    + intros x ?. rewrite Hx by done. apply Hin. by right.
    + intros ml' (P' & HS' & [K3 K4]). exists P'. split; [done|]. split; [congruence|]. rewrite K4, K2, Hq.
      destruct (q =? q'); cbn; rewrite ?orb_false_r, ?andb_false_r, ?orb_false_r, ?orb_true_r; done.
  - apply (IH l1 ml S E P); [done..|]. intros x ?. apply Hin. by right.
Qed.
End Loops.

Lemma used_spec S q : wf S → settled S → existsb (on_bundle S q) (s_lru S) = used S q.
Proof.
  intros HW Hset. apply eq_true_iff_eq. rewrite existsb_exists. unfold used. rewrite bool_decide_eq_true. split.
  - intros (k & _ & Hk). apply bool_decide_eq_true in Hk. apply fmap_Some in Hk as (a & Ha & ->). by apply (wf_port _ HW k); [|apply (Hset k)].
  - intros [l Hl]. destruct (wf_list _ HW _ _ Hl) as (_ & Hne & _). destruct l as [|k l]; [done|].
    destruct (proj1 (wf_on _ HW _ _ k Hl)) as (a & Ha & Hq); [by left|]. exists k. split; [apply list_elem_of_In, (wf_dom _ HW); eauto|].
    rewrite (on_bundle_at _ _ _ _ Ha). by apply Z.eqb_eq.
Qed.

(** ** Events *)

Lemma normalize_spec x : normalize_idle_time x = Z.max 15 (Z.min 3600 x).
Proof. unfold normalize_idle_time. destruct (Z.ltb_spec x 15); [lia|]. destruct (Z.ltb_spec 3600 x); lia. Qed.
Lemma set_max_spec ml max : max_entries (mac_learning_set_max_entries ml max) = Z.max 10 (Z.min 1000000 max).
Proof. cbn -[Z.mul]. destruct (Z.ltb_spec max 10); [lia|]. destruct (Z.ltb_spec (1000 * 1000) max); lia. Qed.

Section Step.
Context (t : Z) (ml : mac_learning) (T : bridge) (E : entry_map) (P : port_map).
Hypothesis HR : represents ml T E P.
Hypothesis HB : bridge_ok t T.

Lemma small : Z.of_nat (length (s_lru (b_macs T))) < 2 ^ 61 - 1.
Proof. pose proof (ok_size _ _ HB). lia. Qed.
Lemma small' : Z.of_nat (length (s_lru (b_macs T))) < 2 ^ 61.
Proof. pose proof (ok_size _ _ HB). lia. Qed.
Lemma vlan_fine vlan : 0 ≤ vlan < 4096 → vlan_ok ml vlan.
Proof. intros Hv. split; [done|]. intros b Hb. apply (ok_flood _ _ HB). by rewrite <-(rp_flood _ _ _ _ HR). Qed.

Definition step_to ev : mout * mac_learning → Prop := λ '(out, ml'), ∃ T' E' P', mstep T ev out T' ∧ represents ml' T' E' P'.

Lemma learn_step now f wc vlan xb : mvalid t (MLearn now f wc vlan xb) →
  returns (mexec (MLearn now f wc vlan xb) ml) (step_to (MLearn now f wc vlan xb)).
Proof.
  intros (Hnow & Hvl & Hq). unfold mexec, update_learning_table.
  destruct (is_ofpp_none xb) eqn:Hn; cbn [obind].
  { eexists. split; [done|]. exists T, E, P. split; [apply step_not_learn; by left|done]. }
  destruct (learnable (b_flood T) (dl_src f) vlan) eqn:Hl.
  2:{ unfold is_mac_learning_update_needed. rewrite (may_learn_spec _ _ _ (vlan_fine _ Hvl)), (rp_flood _ _ _ _ HR), Hl. cbn [obind negb].
      eexists. split; [done|]. exists T, E, P. split; [apply step_not_learn; by right; left|done]. }
  destruct (update_needed_spec ml T E P now f wc vlan xb HR (ok_settled _ _ HB) (vlan_fine _ Hvl) Hl) as ([b wc'] & Hb & -> & Hg).
  rewrite Hb. cbn [obind]. destruct (s_needed _ _ _ _ _ _) eqn:Hneed.
  - destruct (update_table_spec ml T E P HR (ok_settled _ _ HB)) with (now := now) (f := f) (wc := wc') (vlan := vlan) (xb := xb)
      as ([wc2 ml'] & Hu & S & r & S' & c & E' & P' & HI & HLn & HR'); [pose proof (ok_max _ _ HB); lia|apply small|by apply vlan_fine|by apply Hq|done|].
    rewrite Hu. cbn [obind]. eexists. split; [done|]. rewrite Hg in HLn. exists (with_macs T S' (r || c)), E', P'. split; [|done]. by eapply step_learn.
  - eexists. split; [done|]. exists T, E, P. split; [apply step_not_learn; by right; right|done].
Qed.

Lemma config_step idle max : returns (mexec (MConfig idle max) ml) (step_to (MConfig idle max)).
Proof.
  unfold mexec, set_mac_table_config.
  destruct (set_idle_spec ml (b_macs T) E P idle (rp_sim _ _ _ _ HR)) as (ml1 & Hm1 & HS1 & H1 & H2 & H3 & H4 & H5 & H6).
  rewrite Hm1. cbn [obind]. eexists. split; [done|]. eexists _, E, P. split; [apply step_config|]. destruct HR as [_ R1 R2 R3 R4 R5].
  rewrite normalize_spec in *. split; [cbn [b_macs]|by cbn; congruence|by cbn; congruence|apply set_max_spec|by cbn; congruence|by cbn; congruence].
  rewrite <-R2. by apply sim_config.
Qed.

Lemma flood_step flood : returns (mexec (MFlood flood) ml) (step_to (MFlood flood)).
Proof.
  unfold mexec, set_flood_vlans, mac_learning_set_flood_vlans. rewrite (rp_flood _ _ _ _ HR). case_bool_decide as Hf.
  { eexists. split; [done|]. exists T, E, P. subst flood. split; [apply step_same_flood|done]. }
  pose proof (sim_config _ _ _ _ flood (idle_time ml) (max_entries ml) (need_revalidate ml) (rp_sim _ _ _ _ HR)) as HS1.
  destruct (flush_spec _ _ _ _ HS1 small') as (ml' & Hm & E' & P' & HS' & [[= K1 K2 K3 K4 K5] K6]). cbn in K2, K3, K4, K6.
  rewrite Hm. cbn [obind]. eexists. split; [done|]. eexists _, E', P'. split; [apply step_flood; by intros ->|].
  destruct HR as [_ R1 R2 R3 R4 R5]. split; cbn; [done|congruence..].
Qed.

Lemma lookup_step mac vlan : 0 ≤ vlan < 4096 → returns (mexec (MLookup mac vlan) ml) (step_to (MLookup mac vlan)).
Proof.
  intros Hvl. unfold mexec. rewrite (mac_lookup_spec _ _ _ _ _ _ (rp_sim _ _ _ _ HR) (ok_settled _ _ HB) (vlan_fine _ Hvl)), (rp_flood _ _ _ _ HR).
  cbn [obind]. pose proof (step_lookup T mac vlan) as Hst. pose proof (sim_ent _ _ _ _ (rp_sim _ _ _ _ HR)) as HE.
  destruct (learnable _ _ _); [|by eexists; split; [done|]; exists T, E, P].
  pose proof (es_dom _ _ _ _ HE (mac, vlan)) as Hd. destruct (E !! (mac, vlan)) as [e|] eqn:He.
  - destruct (proj1 Hd) as [a Ha]; [by eauto|]. unfold entry_get. rewrite (entry_at _ _ _ _ _ _ _ (rp_sim _ _ _ _ HR) Ha He). cbn [obind].
    rewrite (get_port_spec _ _ _ _ _ _ _ (rp_sim _ _ _ _ HR) Ha He). cbn [obind]. rewrite Ha in Hst. eexists. split; [done|]. by exists T, E, P.
  - destruct (s_map (b_macs T) !! (mac, vlan)) as [a|] eqn:Ha; [destruct (proj2 Hd) as [? ?]; [by eauto|done]|].
    eexists. split; [done|]. by exists T, E, P.
Qed.

Lemma mexec_step ev : mvalid t ev → returns (mexec ev ml) (step_to ev).
Proof.
  pose proof (rp_sim _ _ _ _ HR) as HS. pose proof (sim_wf _ _ _ _ HS) as HW. pose proof (ok_settled _ _ HB) as Hset.
  pose proof (rp_reval _ _ _ _ HR) as Hrv. pose proof (sim_lru _ _ _ _ HS) as HL.
  destruct ev as [now f wc vlan xb|now| |q|q q'|flood|idle max|mac vlan]; intros Hval.
  - by apply learn_step.
  - eapply returns_bind; [apply (run_spec now _ _ _ _ HS small')|]. intros [b ml'] (S' & E' & P' & HS' & Hsim & -> & HK).
    eexists. split; [done|]. rewrite (rp_max _ _ _ _ HR) in HS'. subst S'. eexists _, E', P'. split; [|by eapply kept_represents].
    rewrite Hrv. apply step_run.
  - eapply returns_bind; [apply (flush_spec _ _ _ _ HS small')|]. intros ml' (E' & P' & HS' & HK). eexists. split; [done|].
    rewrite Hrv in HK. eexists _, E', P'. split; [apply step_flush|by eapply kept_represents].
  - eapply returns_bind; [apply (flush_bundle_loop_spec q (s_lru (b_macs T)) _ _ _ _ _ HS small' HL (wf_lru _ HW))|].
    { intros k. apply (wf_dom _ HW). }
    intros [ml' o] (E' & P' & HS' & HK). eexists. split; [done|]. rewrite Hrv, used_spec in HK by done.
    eexists _, E', P'. split; [apply step_flush_bundle|by eapply kept_represents].
  - eapply returns_bind; [apply (move_bundle_loop_spec q q' (s_lru (b_macs T)) _ _ _ _ _ HS small' HL (wf_lru _ HW))|].
    { intros k. apply (wf_dom _ HW). }
    intros ml' (P' & HS' & HK). eexists. split; [done|]. rewrite Hrv, used_spec in HK by done.
    eexists _, E, P'. split; [apply step_move|by eapply kept_represents].
  - apply flood_step.
  - apply config_step.
  - by apply lookup_step.
Qed.
End Step.
