(* ===== verification/MacProps.v ===== *)
(** * Correctness of the MAC learning table and of its clients *)
From Stdlib Require Import ZArith Lia.
From stdpp Require Import base list gmap numbers option.
From S2P Require Import Prelude Hash Hmap HmapProofs MacLearning MacSpec MacMemory MacLearningProofs MacTableProofs MacRunProofs MacClients MacClientSpec MacBridge MacClientProofs.
Open Scope Z_scope.

(** ** Histories *)

Lemma create_represents secret idle : represents (mac_learning_create secret idle) (bridge_create idle) ∅ ∅.
Proof. split; cbn; [apply create_sim|done|apply normalize_spec|done|done|lia]. Qed.

Lemma mrun_refines evs : ∀ t ml T E P, 0 ≤ t → represents ml T E P → bridge_ok t T → mvalids t evs →
  returns (mrun evs ml) (λ '(outs, ml'), ∃ T' E' P', msteps T evs outs T' ∧ represents ml' T' E' P' ∧ bridge_ok (mtimes t evs) T').
Proof.
  induction evs as [|ev evs IH]; intros t ml T E P Ht HR HB Hv; cbn [mrun mvalids] in *.
  { eexists. split; [done|]. exists T, E, P. split_and!; [constructor|done..]. }
  destruct Hv as [Hv Hvs]. destruct (mexec_step t ml T E P HR HB ev Hv) as ([out ml1] & Hm & T1 & E1 & P1 & Hst & HR1).
  pose proof (mstep_ok t T ev out T1 Ht HB Hv Hst) as HB1. pose proof (mtime_later t ev Hv). rewrite Hm. cbn [obind].
  eapply returns_bind; [apply (IH (mtime t ev) ml1 T1 E1 P1); [lia|done..]|].
  intros [outs ml'] (T' & E' & P' & Hsts & HR' & HB'). eexists. split; [done|]. exists T', E', P'.
  split; [by econstructor|done].
Qed.

(** ** Sample histories *)

Module ExM.
Definition flow (src dst : Z) : lflow := mkLflow src dst 0x0800 0 0 0.
Definition wc : lmasks := mkLmasks false false false false.
Definition port (q : Z) : xbundle := mkXbundle q false false.
Definition history : list mevent :=
  [MLearn 10 (flow 0xaa 0xbb) wc 0 (port 7); MLearn 20 (flow 0xbb 0xaa) wc 0 (port 8); MMove 8 9;
   MLookup 0xbb 0; MFlushBundle 7; MLookup 0xaa 0; MRun 30].
Lemma history_valid : mvalids 0 history.
Proof. cbn. repeat split; (lia || done). Qed.
End ExM.

(** C29: lib/mac-learning.c implements the learning bridge of MacClientSpec.v:
    every history of packets learned, lookups, runs, flushes, bundles flushed
    and moved and changes of the configuration, in any order and with time that
    does not go back, runs without fault from [mac_learning_create()], its
    results are those of the specification, which has maps and lists only, and
    the last reference frees every entry and port. *)
Theorem mac_learning_refines (secret idle t : Z) (evs : list mevent) :
  0 ≤ t → mvalids t evs →
  returns (mrun evs (mac_learning_create secret idle)) (λ '(outs, ml), ∃ T E P,
    msteps (bridge_create idle) evs outs T ∧ represents ml T E P ∧
    returns (mac_learning_unref ml) (λ '(last, ml'),
      last = (ref_cnt ml =? 1) ∧
      if last then mac_entries ml' = ∅ ∧ mlports ml' = ∅ ∧ port_nodes ml' = ∅ ∧ lrus ml' = []
      else ml' = set_refs ml (ref_cnt ml - 1))).
Proof.
  intros Ht Hv. eapply returns_mono; [apply (mrun_refines evs t _ _ _ _ Ht (create_represents secret idle) (create_ok t idle Ht) Hv)|].
  intros [outs ml] (T & E & P & Hst & HR & HB). exists T, E, P. split; [done|]. split; [done|].
  apply (unref_spec _ _ _ _ (rp_sim _ _ _ _ HR) (small' _ _ HB)), (rp_refs _ _ _ _ HR).
Qed.
Lemma mac_learning_refines_witness :
  (match mrun ExM.history (mac_learning_create 5 300) with Ret (outs, _) => Some outs | _ => None end) =
    Some [MDone; MDone; MDone; MPort (Some 9); MDone; MPort None; MRevalidate true] ∧
  returns (mrun ExM.history (mac_learning_create 5 300)) (λ '(outs, ml), ∃ T, msteps (bridge_create 300) ExM.history outs T).
Proof.
  split; [vm_compute; reflexivity|]. eapply returns_mono; [apply (mac_learning_refines 5 300 0 ExM.history); [lia|apply ExM.history_valid]|].
  intros [outs ml] (T & E & P & Hst & _). by exists T.
Defined.

(** ** Aging *)

(** C31: the table ages: after any history, [mac_learning_run()] at the time
    [now] leaves no entry that has expired and no more entries than the
    maximum, keeps no entry that was not there, and takes no entry that has not
    expired unless the table was too large.  It only looks at the least
    recently used entry, which is enough because the entries expire in the
    order of the list. *)
Theorem mac_table_ages (secret idle t now : Z) (evs : list mevent) :
  0 ≤ t → mvalids t evs →
  returns (mrun evs (mac_learning_create secret idle)) (λ '(_, ml),
    returns (mac_learning_run now ml) (λ '(_, ml'),
      hmap_count (table ml') ≤ max_entries ml' ∧
      (∀ e en, mac_entries ml' !! e = Some en → now < expires en) ∧
      (∀ e en, mac_entries ml' !! e = Some en → ∃ e0 en0, mac_entries ml !! e0 = Some en0 ∧
         e_mac en0 = e_mac en ∧ e_vlan en0 = e_vlan en ∧ expires en0 = expires en ∧
         mac_entry_get_port ml en0 = mac_entry_get_port ml' en) ∧
      (∀ e en, mac_entries ml !! e = Some en → now < expires en → hmap_count (table ml) ≤ max_entries ml →
         ∃ e' en', mac_entries ml' !! e' = Some en' ∧
           e_mac en' = e_mac en ∧ e_vlan en' = e_vlan en ∧ expires en' = expires en ∧
           mac_entry_get_port ml' en' = mac_entry_get_port ml en))).
Proof.
  intros Ht Hv. eapply returns_mono; [apply (mrun_refines evs t _ _ _ _ Ht (create_represents secret idle) (create_ok t idle Ht) Hv)|].
  intros [outs ml] (T & E & P & _ & HR & HB). pose proof (rp_sim _ _ _ _ HR) as HS. pose proof (ok_max _ _ HB) as Hmx.
  eapply returns_mono; [apply (run_spec now _ _ _ _ HS (small' _ _ HB))|].
  intros [b ml'] (S' & E' & P' & HS' & Hsim & _ & [[= _ _ _ Hmax _] _]). rewrite (rp_max _ _ _ _ HR) in HS', Hmax.
  destruct (run_aged _ _ now (b_max T) _ (b_macs T) (ok_wf _ _ HB) (ok_aged _ _ HB) eq_refl) as (H1 & H2 & H3 & H4). rewrite <-HS' in H1, H2, H3, H4.
  pose proof (sim_ent _ _ _ _ HS) as HE. pose proof (sim_ent _ _ _ _ Hsim) as HE'. split_and!.
  - rewrite (sim_count _ _ _ _ Hsim) by lia. rewrite Hmax. lia.
  - intros e en He. destruct (es_inv _ _ _ _ HE' e en He) as (k & a & _ & Ha & ->). cbn.
    rewrite <-(expiry_at S' k a Ha). apply H2, (wf_dom _ (sim_wf _ _ _ _ Hsim)). eauto.
  - intros e en He. destruct (es_inv _ _ _ _ HE' e en He) as (k & a & Hk' & Ha & ->).
    destruct (es_get _ _ _ _ HE k a (H3 k a Ha)) as (e0 & Hk0 & He0). eexists e0, _. split; [exact He0|]. split_and!; [done..|].
    by rewrite (get_port_spec _ _ _ _ _ _ _ HS (H3 k a Ha) Hk0), (get_port_spec _ _ _ _ _ _ _ Hsim Ha Hk').
  - intros e en He Hnow Hcnt. destruct (es_inv _ _ _ _ HE e en He) as (k & a & Hk & Ha & ->). cbn in Hnow.
    rewrite (sim_count _ _ _ _ HS) in Hcnt by (pose proof (small' _ _ HB); lia). rewrite (rp_max _ _ _ _ HR) in Hcnt.
    pose proof (H4 k a Ha Hnow Hcnt) as Ha'. destruct (es_get _ _ _ _ HE' k a Ha') as (e' & Hk' & He'). eexists e', _. split; [exact He'|].
    split_and!; [done..|]. by rewrite (get_port_spec _ _ _ _ _ _ _ HS Ha Hk), (get_port_spec _ _ _ _ _ _ _ Hsim Ha' Hk').
Qed.
Lemma mac_table_ages_witness :
  mvalids 0 ExM.history ∧ returns (mrun ExM.history (mac_learning_create 5 300)) (λ '(_, ml),
    returns (mac_learning_run 400 ml) (λ '(_, ml'), ∀ e en, mac_entries ml' !! e = Some en → 400 < expires en)).
Proof.
  split; [apply ExM.history_valid|]. eapply returns_mono; [apply (mac_table_ages 5 300 0 400 ExM.history); [lia|apply ExM.history_valid]|].
  intros [outs ml] Hr. eapply returns_mono; [exact Hr|]. intros [b ml'] (_ & H & _). exact H.
Defined.

(** ** Learning *)

(** C30: a packet is learned fairly: when it may be learned,
    [update_learning_table__()] leaves an entry for its source that is new or
    refreshed, on the port the packet came from - unless a gratuitous ARP comes
    over a bond while the entry is locked, in which case it stays where it was.
    All other entries are kept, but for one when a new entry finds the table
    full: the least recently used one of a port that has at least as many
    entries as every other port. *)
Theorem learning_is_fair ml T E P t now f wc vlan xb :
  represents ml T E P → bridge_ok t T → 0 ≤ t → mvalid t (MLearn now f wc vlan xb) →
  is_ofpp_none xb = false → learnable (b_flood T) (dl_src f) vlan = true →
  returns (update_learning_table__ now ml f wc vlan xb) (λ '(_, ml'), ∃ T' E' P', represents ml' T' E' P' ∧
    (∃ a, s_map (b_macs T') !! (dl_src f, vlan) = Some a ∧ s_expires a = now + b_idle T ∧
       (s_port a = ofbundle xb ∨
        (is_gratuitous_arp f wc).1 = true ∧ bond xb = true ∧ now < s_lock a ∧
        s_port <$> s_map (b_macs T) !! (dl_src f, vlan) = Some (s_port a))) ∧
    ((∀ x, x ≠ (dl_src f, vlan) → s_map (b_macs T') !! x = s_map (b_macs T) !! x) ∨
     ∃ v, v ≠ (dl_src f, vlan) ∧ s_map (b_macs T) !! (dl_src f, vlan) = None ∧
       b_max T ≤ Z.of_nat (length (s_lru (b_macs T))) ∧
       (∃ q l, s_ports (b_macs T) !! q = Some (v :: l) ∧
          ∀ q' l', s_ports (b_macs T) !! q' = Some l' → (length l' ≤ length (v :: l))%nat) ∧
       ∀ x, x ≠ (dl_src f, vlan) → x ≠ v → s_map (b_macs T') !! x = s_map (b_macs T) !! x)).
Proof.
  intros HR HB Ht (Hnow & Hvl & Hq) Hn Hl. pose proof (ok_max _ _ HB) as Hmx.
  eapply returns_mono; [apply (update_table_spec ml T E P HR (ok_settled _ _ HB)); [lia|by apply (small t)|by apply (vlan_fine t _ T E P)|by apply Hq|done]|].
  intros [wc' ml'] (S & r & S' & c & E' & P' & HI & HL & HR'). exists (with_macs T S' (r || c)), E', P'. split; [done|]. cbn [with_macs b_macs].
  split.
  - destruct (learned_entry _ _ _ _ _ _ _ _ _ _ HI HL) as (a & Ha & He & Hp). exists a. split; [done|]. split; [done|].
    destruct Hp as [?|(? & ? & ? & [?|[_ Hm]])]; [by left|by right|]. unfold TIME_MIN in Hm. lia.
  - destruct (learned_others _ _ _ _ _ _ _ _ _ _ HI HL) as [?|(v & ? & Hf & ? & ? & _ & ?)]; [by left|]. right. by exists v.
Qed.
Lemma learning_is_fair_witness :
  mvalid 0 (MLearn 10 (ExM.flow 0xaa 0xbb) ExM.wc 0 (ExM.port 7)) ∧
  returns (update_learning_table__ 10 (mac_learning_create 5 300) (ExM.flow 0xaa 0xbb) ExM.wc 0 (ExM.port 7)) (λ '(_, ml'), ∃ T' E' P',
    represents ml' T' E' P' ∧ s_port <$> s_map (b_macs T') !! (0xaa, 0) = Some 7).
Proof.
  assert (mvalid 0 (MLearn 10 (ExM.flow 0xaa 0xbb) ExM.wc 0 (ExM.port 7))) as Hv by (cbn; repeat split; (lia || done)). split; [done|].
  eapply returns_mono; [apply (learning_is_fair _ _ _ _ 0 10 (ExM.flow 0xaa 0xbb) ExM.wc 0 (ExM.port 7) (create_represents 5 300))|].
  - apply create_ok. lia.
  - lia.
  - done.
  - reflexivity.
  - reflexivity.
  - intros [wc ml'] (T' & E' & P' & HR' & (a & Ha & _ & Hp) & _). exists T', E', P'. split; [exact HR'|].
    cbn [dl_src ExM.flow] in Ha. rewrite Ha. destruct Hp as [Hp|[Hg _]]; [cbn; by rewrite Hp|discriminate Hg].
Defined.

