(* ===== verification/LswitchProps.v ===== *)
(** * Correctness of lib/learning-switch.c: the choice of the output port *)
From Stdlib Require Import ZArith Lia.
From stdpp Require Import base list gmap numbers option.
From S2P Require Import Prelude Hash Hmap HmapProofs MacLearning MacSpec MacMemory MacLearningProofs MacTableProofs MacRunProofs MacClients MacClientSpec MacBridge MacClientProofs.
Open Scope Z_scope.

(** ** Reserved addresses *)

Lemma hash_uint64_range x : 0 ≤ hash_uint64 x.
Proof. apply mhash_finish_range. Qed.
#[local] Opaque hash_uint64.

Lemma reserved_insert_rep nodes : ∀ addrs A done_, hmap_rep addrs A →
  (∀ q, A !! q = hash_uint64 <$> done_ !! pred (Pos.to_nat q)) → (length done_ + length nodes < 1000)%nat →
  Z.of_nat (size A) ≤ Z.of_nat (length done_) →
  returns (reserved_insert addrs nodes (Pos.of_succ_nat (length done_))) (λ addrs', ∃ A', hmap_rep addrs' A' ∧
    ∀ q, A' !! q = hash_uint64 <$> (done_ ++ nodes) !! pred (Pos.to_nat q)).
Proof.
  induction nodes as [|ea nodes IH]; intros addrs A dn HR HA Hlen Hsz; cbn [reserved_insert length] in *.
  { eexists. split; [done|]. exists A. by rewrite app_nil_r. }
  assert (A !! Pos.of_succ_nat (length dn) = None) as Hfr.
  { rewrite HA, SuccNat2Pos.id_succ. cbn [pred]. by rewrite lookup_ge_None_2. }
  eapply returns_bind; [apply (hmap_insert_rep _ _ HR); [lia|done|apply hash_uint64_range]|]. intros addrs1 HR1.
  replace (Pos.succ (Pos.of_succ_nat (length dn))) with (Pos.of_succ_nat (length (dn ++ [ea]))) by (rewrite length_app; cbn [length]; lia).
  replace (dn ++ ea :: nodes) with ((dn ++ [ea]) ++ nodes) by (by rewrite <-app_assoc). apply (IH _ _ (dn ++ [ea]) HR1).
  - intros q. destruct (decide (q = Pos.of_succ_nat (length dn))) as [->|Hne].
    + rewrite lookup_insert_eq, SuccNat2Pos.id_succ. cbn [pred]. by rewrite list_lookup_middle.
    + rewrite lookup_insert_ne by done. rewrite HA. destruct (decide (pred (Pos.to_nat q) < length dn)%nat).
      * by rewrite lookup_app_l.
      * rewrite lookup_ge_None_2 by lia. rewrite lookup_ge_None_2; [done|]. rewrite length_app. cbn [length]. lia.
  - rewrite length_app. cbn [length]. lia.
  - rewrite map_size_insert_None, length_app by done. cbn [length]. lia.
Qed.
Lemma reserved_spec ea : eth_addr_is_reserved ea = Ret (bool_decide (ea ∈ reserved_nodes)).
Proof.
  unfold eth_addr_is_reserved.
  destruct (reserved_insert_rep reserved_nodes hmap_init ∅ [] hmap_init_rep) as (addrs & Hin & A & HR & HA);
    [intros q; by rewrite lookup_empty|vm_compute; lia|by rewrite map_size_empty|].
  cbn [length Pos.of_succ_nat] in Hin. rewrite Hin. cbn [obind app] in *.
  set (tb := λ node : positive, bool_decide (reserved_nodes !! pred (Pos.to_nat node) = Some ea)).
  destruct (for_each_in_bucket addrs A HR (hash_uint64 ea) (λ node, match reserved_nodes !! pred (Pos.to_nat node) with
    | Some ea64 => Ret (ea64 =? ea) | None => Fault OutOfBounds end) tb) as (r & Hr & Hres).
  - apply hash_uint64_range.
  - intros p Hp. unfold tb. rewrite HA, fmap_is_Some in Hp. destruct Hp as [x Hx]. rewrite Hx. f_equal.
    destruct (Z.eqb_spec x ea) as [->|]; [by rewrite bool_decide_true|]. rewrite bool_decide_false; [done|]. congruence.
  - rewrite Hr. cbn [obind]. f_equal. destruct r as [p|].
    + destruct Hres as [_ Ht]. apply bool_decide_eq_true in Ht. rewrite bool_decide_true; [done|]. by eapply list_elem_of_lookup_2.
    + rewrite bool_decide_false; [done|]. intros [i Hi]%list_elem_of_lookup_1. specialize (Hres (Pos.of_succ_nat i)).
      rewrite HA in Hres. unfold tb in Hres. rewrite SuccNat2Pos.id_succ in Hres. cbn [pred] in Hres. rewrite Hi in Hres.
      specialize (Hres eq_refl). by rewrite bool_decide_true in Hres.
Qed.

(** ** Learning *)

(** The pointers in the table are OpenFlow ports. *)
Definition ofp_ports (S : macs) : Prop := ∀ k a, s_map S !! k = Some a → 0 < s_port a < 2 ^ 16.

Section Switch.
Context (t now : Z) (ml : mac_learning) (T : bridge) (E : entry_map) (P : port_map) (f : lflow) (in_port : Z).
Hypothesis HR : represents ml T E P.
Hypothesis HB : bridge_ok t T.
Hypothesis Ht : 0 ≤ t ≤ now.
Hypothesis Hports : ofp_ports (b_macs T).
Hypothesis Hin : 0 < in_port < 2 ^ 16.

Lemma vlan0 : vlan_ok ml 0.
Proof. apply (vlan_fine t ml T E P HR HB). lia. Qed.

Lemma get_ofp_port_spec ml1 S1 E1 P1 k a e : sim ml1 S1 E1 P1 → s_map S1 !! k = Some a → E1 !! k = Some e → 0 ≤ s_port a < 2 ^ 16 →
  get_mac_entry_ofp_port ml1 e = Ret (s_port a).
Proof.
  intros HS1 Ha He Hp. unfold get_mac_entry_ofp_port, entry_get. rewrite (entry_at _ _ _ _ _ _ _ HS1 Ha He). cbn [obind].
  rewrite (get_port_spec _ _ _ _ _ _ _ HS1 Ha He). cbn [obind]. by rewrite u16_small.
Qed.

(** An inserted entry has no port yet, or a port of the table. *)
Lemma insert_ports k S r : s_insert T now k S r → ∀ x a, s_map S !! x = Some a → s_port a = 0 ∧ x = k ∨ 0 < s_port a < 2 ^ 16.
Proof.
  intros HI x a Hx. destruct (decide (x = k)) as [->|Hne].
  - destruct HI as [b Hb|Hk _|v Hk _ _]; cbn [s_touch s_add s_map] in Hx; rewrite lookup_insert_eq in Hx; injection Hx as <-; cbn [s_port].
    + right. by apply (Hports k).
    + by left.
    + by left.
  - right. destruct HI as [b Hb|Hk _|v Hk _ _]; cbn [s_touch s_add s_map] in Hx; rewrite lookup_insert_ne in Hx by done.
    + by apply (Hports x).
    + by apply (Hports x).
    + rewrite expire_map in Hx. case_decide; [done|]. by apply (Hports x).
Qed.

Lemma lswitch_learn_spec : returns (lswitch_learn now ml f in_port) (λ ml', ∃ T' E' P',
  represents ml' T' E' P' ∧ bridge_ok now T' ∧ ofp_ports (b_macs T') ∧ b_flood T' = b_flood T ∧
  if learnable (b_flood T) (dl_src f) 0 then s_port <$> s_map (b_macs T') !! (dl_src f, 0) = Some in_port else T' = T).
Proof.
  unfold lswitch_learn. rewrite (may_learn_spec _ _ _ vlan0), (rp_flood _ _ _ _ HR). cbn [obind].
  destruct (learnable _ _ _) eqn:Hl.
  2:{ eexists. split; [done|]. exists T, E, P. split; [done|]. destruct HB as [H1 H2 H3 H4 H5 H6 H7].
      split; [split; [done..| |done|done|done|done]; apply (aged_later t); [lia|done]|done]. }
  pose proof (ok_max _ _ HB) as Hmx. eapply returns_bind; [apply (bridge_insert ml T E P HR (ok_settled _ _ HB)); [lia|by apply (small t)]|].
  intros [e ml1] (S & r & E1 & P1 & HI & HS1 & He & [a Ha] & HK & Hsz1). cbn beta iota.
  pose proof (insert_ports _ _ _ HI) as Hps. rewrite (get_ofp_port_spec ml1 S E1 P1 _ a e HS1 Ha He) by (destruct (Hps _ _ Ha) as [[? _]|?]; lia).
  cbn [obind]. unfold set_mac_entry_ofp_port.
  eapply returns_mono; [apply (set_if_changed ml1 S E1 P1 (dl_src f, 0) a e in_port HS1 Hsz1 Ha He)|].
  intros ml' ([[= M1 M2 M3 M4 M5] M6] & P' & HS'). destruct HK as [[= K1 K2 K3 K4 K5] K6]. destruct HR as [_ R1 R2 R3 R4 R5].
  exists (with_macs T (s_set_port S (dl_src f, 0) in_port) (r || negb (s_port a =? in_port))), E1, P'. split_and!.
  - split; cbn; [done|congruence..| |congruence]. by rewrite M6, K6, orb_assoc.
  - apply (core_ok now _ _ _ _ (Z.to_nat 1000000)); [|done|apply (ok_idle _ _ HB)|done|apply (ok_flood _ _ HB)].
    apply inserting_settled; [lia|]. apply (insert_core t now T _ _ r HB); [lia|done].
  - intros x b Hx. cbn in Hx. destruct (decide (x = (dl_src f, 0))) as [->|Hne].
    + rewrite (set_port_lookup _ _ _ _ Ha) in Hx. by injection Hx as <-.
    + rewrite set_port_map in Hx by done. destruct (Hps _ _ Hx) as [[_ ?]|?]; done.
  - done.
  - cbn. by rewrite (set_port_lookup _ _ _ _ Ha).
Qed.
End Switch.

(** The learning switch forwards by what it learned: from a packet on a
    port other than 0 it learns the source, and sends the packet nowhere when
    its destination is reserved, or on the port it came from; to the learned
    port (or to the NORMAL action, when so configured) when there is one; and
    floods it otherwise. *)
Lemma lswitch_forwards ml T E P t now f in_port action_normal :
  represents ml T E P → bridge_ok t T → 0 ≤ t ≤ now → ofp_ports (b_macs T) → 0 < in_port < 2 ^ 16 →
  returns (lswitch_choose_destination now (Some ml) action_normal f in_port) (λ '(out, sw_ml), ∃ ml' T' E' P',
    sw_ml = Some ml' ∧ represents ml' T' E' P' ∧ bridge_ok now T' ∧ ofp_ports (b_macs T') ∧
    (if learnable (b_flood T) (dl_src f) 0 then s_port <$> s_map (b_macs T') !! (dl_src f, 0) = Some in_port else T' = T) ∧
    out = if bool_decide (dl_dst f ∈ reserved_nodes) then OFPP_NONE
          else match (if learnable (b_flood T) (dl_dst f) 0 then s_port <$> s_map (b_macs T') !! (dl_dst f, 0) else None) with
               | None => OFPP_FLOOD
               | Some q => if q =? in_port then OFPP_NONE else if action_normal && negb (q =? OFPP_FLOOD) then OFPP_NORMAL else q
               end).
Proof.
  intros HR HB Ht Hp Hin. unfold lswitch_choose_destination.
  destruct (lswitch_learn_spec t now ml T E P f in_port HR HB Ht Hp Hin) as (ml' & Hl & T' & E' & P' & HR' & HB' & Hp' & Hf & Hsrc).
  rewrite Hl. cbn [obind]. rewrite reserved_spec. cbn [obind].
  match goal with |- returns ?c _ => enough (c = Ret (if bool_decide (dl_dst f ∈ reserved_nodes) then OFPP_NONE
    else match (if learnable (b_flood T) (dl_dst f) 0 then s_port <$> s_map (b_macs T') !! (dl_dst f, 0) else None) with
         | None => OFPP_FLOOD
         | Some q => if q =? in_port then OFPP_NONE else if action_normal && negb (q =? OFPP_FLOOD) then OFPP_NORMAL else q
         end, Some ml')) as -> by (eexists; split; [done|]; by exists ml', T', E', P') end.
  case_bool_decide as Hres; [done|].
  rewrite (mac_lookup_spec ml' _ E' P' (dl_dst f) 0 (rp_sim _ _ _ _ HR') (ok_settled _ _ HB') (vlan0 now ml' T' E' P' HR' HB')).
  rewrite (rp_flood _ _ _ _ HR'), Hf. cbn [obind]. pose proof (sim_ent _ _ _ _ (rp_sim _ _ _ _ HR')) as HE.
  pose proof (es_dom _ _ _ _ HE (dl_dst f, 0)) as Hd.
  destruct (learnable (b_flood T) (dl_dst f) 0); [|cbn [obind andb]; by rewrite Z.eqb_refl, andb_false_r].
  destruct (E' !! (dl_dst f, 0)) as [e|] eqn:He.
  - destruct (proj1 Hd) as [a Ha]; [by eauto|]. destruct (Hp' _ _ Ha) as [Hp0 Hp1].
    rewrite (get_ofp_port_spec ml' _ E' P' _ a e (rp_sim _ _ _ _ HR') Ha He) by lia. cbn [obind andb]. rewrite Ha. cbn [fmap option_fmap option_map].
    destruct (s_port a =? in_port); [done|]. by destruct (action_normal && _).
  - destruct (s_map (b_macs T') !! (dl_dst f, 0)) as [a|] eqn:Ha; [destruct (proj2 Hd) as [? ?]; [by eauto|done]|].
    cbn [obind andb fmap option_fmap option_map]. by rewrite Z.eqb_refl, andb_false_r.
Qed.
Lemma create_switch secret idle : represents (mac_learning_create secret idle) (bridge_create idle) ∅ ∅.
Proof. split; cbn; [apply create_sim|done|apply normalize_spec|done|done|lia]. Qed.
Lemma lswitch_forwards_witness :
  returns (lswitch_choose_destination 10 (Some (mac_learning_create 5 300)) false (mkLflow 0xaa 0xaa 0x0800 0 0 0) 7)
    (λ '(out, _), out = OFPP_NONE).
Proof.
  eapply returns_mono; [apply (lswitch_forwards _ _ _ _ 0 10 (mkLflow 0xaa 0xaa 0x0800 0 0 0) 7 false (create_switch 5 300))|].
  - apply create_ok. lia.
  - lia.
  - intros k a. cbn. by rewrite lookup_empty.
  - lia.
  - intros [out sw] (ml' & T' & E' & P' & _ & _ & _ & _ & Hsrc & ->). rewrite bool_decide_false by (vm_compute; set_solver).
    change (learnable _ _ _) with true in Hsrc |- *. cbn beta iota in Hsrc |- *. cbn [dl_src dl_dst] in *. rewrite Hsrc. reflexivity.
Defined.

(** Port 0 is not learned: [lswitch_choose_destination()] passes the port
    number on as a pointer, and port 0 is the null pointer that stands for an
    entry without port.  One packet from port 0 with a new source leaves such
    an entry, and the next packet to this address fails the assertion of
    [mac_learning_lookup()], which ends the process. *)
Lemma lswitch_port_zero_aborts ml T E P t now f f' in_port action_normal :
  represents ml T E P → bridge_ok t T → 0 ≤ t ≤ now →
  learnable (b_flood T) (dl_src f) 0 = true → s_map (b_macs T) !! (dl_src f, 0) = None →
  dl_dst f' = dl_src f → dl_src f ∉ reserved_nodes → eth_addr_is_multicast (dl_src f') = true →
  returns (lswitch_learn now ml f 0) (λ ml',
    lswitch_choose_destination now (Some ml') action_normal f' in_port = Fault AssertFail).
Proof.
  intros HR HB Ht Hl Hk Hdst Hres Hmc. pose proof (ok_max _ _ HB) as Hmx. unfold lswitch_learn.
  rewrite (may_learn_spec _ _ _ (vlan0 t ml T E P HR HB)), (rp_flood _ _ _ _ HR), Hl. cbn [obind].
  eapply returns_bind; [apply (bridge_insert ml T E P HR (ok_settled _ _ HB)); [lia|by apply (small t)]|].
  intros [e ml1] (S & r & E1 & P1 & HI & HS1 & He & _ & [[= K1 K2 K3 K4 K5] K6] & Hsz1). cbn beta iota.
  assert (∃ a, s_map S !! (dl_src f, 0) = Some a ∧ s_port a = 0) as (a & Ha & Ha0).
  { destruct HI as [a Ha|_ _|v _ _ _]; [congruence|..]; (eexists; split; [apply lookup_insert_eq|done]). }
  rewrite (get_ofp_port_spec ml1 S E1 P1 _ a e HS1 Ha He) by lia. rewrite Ha0. cbn [obind Z.eqb negb]. eexists. split; [done|].
  assert (vlan_ok ml1 0) as Hvo by (split; [lia|]; intros b; rewrite K2; apply (vlan0 t ml T E P HR HB)).
  unfold lswitch_choose_destination, lswitch_learn. rewrite (may_learn_spec _ _ _ Hvo). unfold learnable at 1. rewrite Hmc, andb_false_r.
  cbn [obind]. rewrite Hdst, reserved_spec, bool_decide_false by done. cbn [obind]. unfold mac_learning_lookup.
  unfold learnable in Hl. apply andb_true_iff in Hl as [Hlv ->%negb_true_iff].
  rewrite (is_learning_vlan_spec _ _ Hvo), K2, (rp_flood _ _ _ _ HR), Hlv. cbn [obind negb].
  destruct (lookup_spec _ _ _ _ HS1 (dl_src f) 0) as (r1 & Hr & ->). rewrite Hr, He. cbn [obind]. unfold entry_get.
  rewrite (entry_at _ _ _ _ _ _ _ HS1 Ha He). cbn [obind]. by rewrite (get_port_spec _ _ _ _ _ _ _ HS1 Ha He), Ha0.
Qed.
Lemma lswitch_port_zero_aborts_witness :
  returns (lswitch_learn 10 (mac_learning_create 5 300) (mkLflow 0xaa 0xbb 0x0800 0 0 0) 0) (λ ml',
    lswitch_choose_destination 10 (Some ml') false (mkLflow 0x010000000000 0xaa 0x0800 0 0 0) 1 = Fault AssertFail).
Proof.
  apply (lswitch_port_zero_aborts _ _ _ _ 0 10 (mkLflow 0xaa 0xbb 0x0800 0 0 0) (mkLflow 0x010000000000 0xaa 0x0800 0 0 0) 1 false (create_switch 5 300)).
  - apply create_ok. lia.
  - lia.
  - reflexivity.
  - cbn. by rewrite lookup_empty.
  - reflexivity.
  - vm_compute. set_solver.
  - reflexivity.
Defined.
