(* ===== verification/ClsTrie.v ===== *)
(** * Prefix tries of the classifier

    The prefix trees of lib/classifier.c (struct trie_node of
    lib/classifier-private.h).  The nodes of a tree are not shared, so that a
    tree is a value; the copies that the code makes of a node before it changes
    it only matter to concurrent readers.  An array of [ovs_be32] is the list of
    its words as the host reads them; reading outside of it is a fault. *)
From Stdlib Require Import ZArith Lia.
From stdpp Require Import base list gmap numbers option.
From S2P Require Import Prelude GtpWire.
Open Scope Z_scope.

Definition TRIE_PREFIX_BITS : Z := 32.

(** The number of elements of [edges] in [trie_remove_prefix()]:
    [sizeof(union trie_prefix) * CHAR_BIT]. *)
Definition TRIE_EDGES : Z := 16 * 8.

(** A pointer to a [struct trie_node]. *)
Inductive trie :=
| Null
| Node (prefix n_bits n_rules : Z) (edge0 edge1 : trie).

Definition is_null (t : trie) : bool := match t with Null => true | _ => false end.

(** ** Bits of arrays in network byte order *)

Definition be32_at (v : list Z) (i : Z) : outcome Z :=
  match v !! Z.to_nat i with Some w => Ret w | None => Fault OutOfBounds end.

Definition u8_at (v : list Z) (i : Z) : outcome Z :=
  let* w := be32_at v (i / 4) in
  Ret (Z.land (Z.shiftr w (8 * (i mod 4))) 0xff).

Definition be_get_bit_at (value : list Z) (ofs : Z) : outcome Z :=
  let* b := u8_at value (ofs / 8) in
  Ret (Z.land (Z.shiftr b (7 - ofs mod 8)) 1).

Definition be_set_bit_at (value : list Z) (ofs : Z) : outcome (list Z) :=
  let* w := be32_at value (ofs / 8 / 4) in
  Ret (<[Z.to_nat (ofs / 8 / 4) := Z.lor w (Z.shiftl (Z.shiftl 1 (7 - ofs mod 8)) (8 * (ofs / 8 mod 4)))]> value).

Definition get_bit_at (prefix ofs : Z) : Z := Z.land (Z.shiftr prefix (31 - ofs)) 1.

(** [raw_clz64()] of lib/util.h, for [n] other than 0. *)
Definition raw_clz64 (n : Z) : Z := 63 - Z.log2 n.

Definition raw_get_prefix (pr : list Z) (ofs plen : Z) : outcome Z :=
  let i := ofs / 32 in
  let ofs := ofs mod 32 in
  let* w := be32_at pr i in
  let prefix := u32 (Z.shiftl (ntohl w) ofs) in
  if 32 - ofs <? plen then
    let* w := be32_at pr (i + 1) in
    Ret (Z.lor prefix (Z.shiftr (ntohl w) (32 - ofs)))
  else Ret prefix.

Definition trie_get_prefix (pr : list Z) (ofs plen : Z) : outcome Z :=
  if plen =? 0 then Ret 0
  else
    let plen := Z.min plen TRIE_PREFIX_BITS in
    let* p := raw_get_prefix pr ofs plen in
    Ret (Z.land p (u32 (Z.shiftl UINT_MAX (32 - plen)))).

Definition prefix_equal_bits (prefix n_bits : Z) (value : list Z) (ofs : Z) : outcome Z :=
  let* p := raw_get_prefix value ofs n_bits in
  let diff := Z.lxor prefix p in
  Ret (raw_clz64 (Z.lor (Z.shiftl diff 32) (Z.shiftl 1 (63 - n_bits)))).

Definition trie_prefix_equal_bits (node_prefix node_n_bits : Z) (prefix : list Z) (ofs plen : Z) : outcome Z :=
  prefix_equal_bits node_prefix (Z.min node_n_bits (plen - ofs)) prefix ofs.

(** ** Nodes *)

Definition trie_is_leaf (edge0 edge1 : trie) : bool := is_null edge0 && is_null edge1.

(** [node->edges[bit] = sub]. *)
Definition set_edge (node : trie) (bit : Z) (sub : trie) : trie :=
  match node with
  | Null => Null
  | Node p n r e0 e1 => if bit =? 0 then Node p n r sub e1 else Node p n r e0 sub
  end.

Definition node_prefix (t : trie) : Z := match t with Null => 0 | Node p _ _ _ _ => p end.

(** The fuel bounds the number of nodes, each of which takes
    [TRIE_PREFIX_BITS] bits. *)
Fixpoint trie_branch_create (fuel : nat) (prefix : list Z) (ofs plen n_rules : Z) : outcome trie :=
  match fuel with
  | O => Diverge
  | S fuel =>
      let* p := trie_get_prefix prefix ofs plen in
      if plen <=? TRIE_PREFIX_BITS then Ret (Node p plen n_rules Null Null)
      else
        let* subnode := trie_branch_create fuel prefix (ofs + TRIE_PREFIX_BITS) (plen - TRIE_PREFIX_BITS) n_rules in
        let bit := get_bit_at (node_prefix subnode) 0 in
        Ret (set_edge (Node p TRIE_PREFIX_BITS 0 Null Null) bit subnode)
  end.

Definition trie_branch (prefix : list Z) (ofs plen n_rules : Z) : outcome trie :=
  trie_branch_create (S (Z.to_nat plen)) prefix ofs plen n_rules.

(** ** Lookup *)

(** The loop, from the node at which [match_len] bits have matched; [leaf] says
    that there is no node before it, or that it is a leaf. *)
Fixpoint lookup_from (t : trie) (leaf : bool) (value plens : list Z) (n_bits match_len : Z) :
    outcome (Z * list Z) :=
  match t with
  | Null => Ret (if leaf then match_len else match_len + 1, plens)
  | Node prefix nb n_rules e0 e1 =>
      let* eqbits := prefix_equal_bits prefix nb value match_len in
      let match_len := match_len + eqbits in
      if eqbits <? nb then Ret (match_len + 1, plens)
      else
        let* plens := if 0 <? n_rules then be_set_bit_at plens (match_len - 1) else Ret plens in
        if n_bits <=? match_len then Ret (n_bits, plens)
        else
          let* bit := be_get_bit_at value match_len in
          if bit =? 0 then lookup_from e0 (trie_is_leaf e0 e1) value plens n_bits match_len
          else lookup_from e1 (trie_is_leaf e0 e1) value plens n_bits match_len
  end.

Definition trie_lookup_value (t : trie) (value plens : list Z) (n_bits : Z) : outcome (Z * list Z) :=
  lookup_from t true value plens n_bits 0.

(** ** Insertion *)

Fixpoint insert_from (t : trie) (prefix : list Z) (ofs mlen : Z) : outcome trie :=
  match t with
  | Null => trie_branch prefix ofs (mlen - ofs) 1
  | Node p n_bits n_rules e0 e1 =>
      let* eqbits := trie_prefix_equal_bits p n_bits prefix ofs mlen in
      let ofs := ofs + eqbits in
      if eqbits <? n_bits then
        let old_branch := get_bit_at p eqbits in
        let* new_parent := trie_branch prefix (ofs - eqbits) eqbits (if ofs =? mlen then 1 else 0) in
        let node := Node (u32 (Z.shiftl p eqbits)) (n_bits - eqbits) n_rules e0 e1 in
        let new_parent := set_edge new_parent old_branch node in
        if ofs <? mlen then
          let* branch := trie_branch prefix ofs (mlen - ofs) 1 in
          Ret (set_edge new_parent (1 - old_branch) branch)
        else Ret new_parent
      else if ofs =? mlen then Ret (Node p n_bits (u32 (n_rules + 1)) e0 e1)
      else
        let* bit := be_get_bit_at prefix ofs in
        if bit =? 0 then
          let* e := insert_from e0 prefix ofs mlen in Ret (Node p n_bits n_rules e e1)
        else
          let* e := insert_from e1 prefix ofs mlen in Ret (Node p n_bits n_rules e0 e)
  end.

Definition trie_insert_prefix (t : trie) (prefix : list Z) (mlen : Z) : outcome trie :=
  insert_from t prefix 0 mlen.

(** ** Removal *)

(** What is around the node that an element of [edges] points to: the node
    that has the edge, without this edge. *)
Record trie_edge := mkEdge { f_prefix : Z; f_bits : Z; f_rules : Z; f_bit : Z; f_other : trie }.

Definition fill (f : trie_edge) (t : trie) : trie :=
  if f_bit f =? 0 then Node (f_prefix f) (f_bits f) (f_rules f) t (f_other f)
  else Node (f_prefix f) (f_bits f) (f_rules f) (f_other f) t.

Definition plug (path : list trie_edge) (t : trie) : trie := foldl (λ t f, fill f t) t path.

(** The loop that prunes the tree, at the node [edges[depth]]. *)
Fixpoint prune (path : list trie_edge) (node : trie) : trie :=
  match node with
  | Null => plug path node
  | Node p n_bits n_rules e0 e1 =>
      if negb (n_rules =? 0) then plug path node
      else if negb (is_null e0) && negb (is_null e1) then plug path node
      else
        match (if is_null e0 then e1 else e0) with
        | Node p' n' r' a b =>
            if TRIE_PREFIX_BITS <? n_bits + n' then plug path node
            else plug path (Node (Z.lor p (Z.shiftr p' n_bits)) (n' + n_bits) r' a b)
        | Null =>
            match path with
            | [] => Null
            | f :: path => prune path (fill f Null)
            end
        end
  end.

(** The walk down the tree, which records the way it came; the result says
    whether there was something to remove, which is logged otherwise. *)
Fixpoint remove_from (t : trie) (path : list trie_edge) (prefix : list Z) (ofs mlen : Z) :
    outcome (option trie) :=
  match t with
  | Null => Ret None
  | Node p n_bits n_rules e0 e1 =>
      let* eqbits := trie_prefix_equal_bits p n_bits prefix ofs mlen in
      if eqbits <? n_bits then Ret None
      else
        let ofs := ofs + eqbits in
        if ofs =? mlen then
          if n_rules =? 0 then Ret None
          else Ret (Some (prune path (Node p n_bits (n_rules - 1) e0 e1)))
        else
          let* bit := be_get_bit_at prefix ofs in
          if TRIE_EDGES <=? Z.of_nat (length path) + 1 then Fault OutOfBounds
          else if bit =? 0 then remove_from e0 (mkEdge p n_bits n_rules 0 e1 :: path) prefix ofs mlen
          else remove_from e1 (mkEdge p n_bits n_rules 1 e0 :: path) prefix ofs mlen
  end.

Definition trie_remove_prefix (root : trie) (prefix : list Z) (mlen : Z) : outcome (trie * bool) :=
  let* r := remove_from root [] prefix 0 mlen in
  match r with
  | Some t => Ret (t, true)
  | None => Ret (root, false)
  end.
