(* ===== verification/ClsTrieProofs.v ===== *)
(** * The prefix tries hold multisets of prefixes

    A prefix is a list of bits, most significant first.  A well-formed tree
    represents how often each prefix was inserted; the operations of ClsTrie.v
    are shown to change and read this multiset. *)
From Stdlib Require Import ZArith Lia.
From stdpp Require Import base list gmap numbers option.
From S2P Require Import Prelude GtpWire GtpWireProofs ClsTrie.
Open Scope Z_scope.

(** ** Bits of arrays *)

Lemma testbit_split a y k j : 0 ≤ k → 0 ≤ a < 2 ^ k → 0 ≤ j →
  Z.testbit (a + 2 ^ k * y) j = if j <? k then Z.testbit a j else Z.testbit y (j - k).
Proof.
  intros Hk Ha Hj. destruct (Z.ltb_spec j k).
  - rewrite <-(Z.mod_pow2_bits_low _ k j) by done. f_equal.
    rewrite (Z.mul_comm (2 ^ k) y), Z.mod_add by lia. by apply Z.mod_small.
  - replace j with (j - k + k) at 1 by lia. rewrite <-Z.div_pow2_bits by lia. f_equal.
    rewrite (Z.mul_comm (2 ^ k) y), Z.div_add by lia. rewrite Z.div_small; lia.
Qed.

Lemma testbit_byte w k j : 0 ≤ k → 0 ≤ j < 8 → Z.testbit (w / 2 ^ k mod 2 ^ 8) j = Z.testbit w (k + j).
Proof. intros. rewrite Z.mod_pow2_bits_low, Z.div_pow2_bits by lia. f_equal; lia. Qed.

(** Swapping the bytes moves bit [j]. *)
Lemma testbit_ntohl w j : 0 ≤ j < 32 → Z.testbit (ntohl w) j = Z.testbit w (8 * (3 - j / 8) + j mod 8).
Proof.
  intros Hj. unfold ntohl.
  assert (∀ a b c d, host32 a b c d = a + 2 ^ 8 * (b + 2 ^ 8 * (c + 2 ^ 8 * d))) as E by (intros; unfold host32; lia).
  rewrite E. clear E. rewrite testbit_split by (try apply Z.mod_pos_bound; lia).
  destruct (Z.ltb_spec j 8). { rewrite testbit_byte by lia. f_equal. Z.div_mod_to_equations. lia. }
  rewrite testbit_split by (try apply Z.mod_pos_bound; lia).
  destruct (Z.ltb_spec (j - 8) 8). { rewrite testbit_byte by lia. f_equal. Z.div_mod_to_equations. lia. }
  rewrite testbit_split by (try apply Z.mod_pos_bound; lia).
  destruct (Z.ltb_spec (j - 8 - 8) 8). { rewrite testbit_byte by lia. f_equal. Z.div_mod_to_equations. lia. }
  replace (w mod 2 ^ 8) with (w / 2 ^ 0 mod 2 ^ 8) by (by rewrite Z.div_1_r).
  rewrite testbit_byte by lia. f_equal. Z.div_mod_to_equations. lia.
Qed.

(** Bit [k] of an array, from the most significant bit of the first byte. *)
Definition vbit (v : list Z) (k : Z) : bool :=
  Z.testbit (ntohl (nth (Z.to_nat (k / 32)) v 0)) (31 - k mod 32).
Definition vlen (v : list Z) : Z := 32 * Z.of_nat (length v).

Lemma be32_at_Ret v i : 0 ≤ i → 32 * i < vlen v → be32_at v i = Ret (nth (Z.to_nat i) v 0).
Proof.
  intros Hi Hl. unfold be32_at, vlen in *.
  destruct (lookup_lt_is_Some_2 v (Z.to_nat i)) as [w Hw]; [lia|]. rewrite Hw.
  by rewrite (nth_lookup_Some _ _ _ _ Hw).
Qed.

Lemma be_get_bit_at_Ret v k : 0 ≤ k < vlen v → be_get_bit_at v k = Ret (Z.b2z (vbit v k)).
Proof.
  intros [Hk Hl]. unfold be_get_bit_at, u8_at. replace (k / 8 / 4) with (k / 32) by (by rewrite Z.div_div by lia).
  rewrite be32_at_Ret by (Z.div_mod_to_equations; lia). cbn [obind]. f_equal. unfold vbit.
  generalize (nth (Z.to_nat (k / 32)) v 0). intros w. rewrite testbit_ntohl by (Z.div_mod_to_equations; lia).
  change 1 with (Z.ones 1). rewrite Z.land_ones, <-Z.bit0_mod by lia.
  rewrite Z.shiftr_spec, Z.land_spec, Z.shiftr_spec by (Z.div_mod_to_equations; lia).
  change 0xff with (Z.ones 8). rewrite Z.ones_spec_low, andb_true_r by (Z.div_mod_to_equations; lia).
  do 2 f_equal. Z.div_mod_to_equations. lia.
Qed.

Lemma get_bit_at_testbit p i : 0 ≤ i ≤ 31 → get_bit_at p i = Z.b2z (Z.testbit p (31 - i)).
Proof.
  intros Hi. unfold get_bit_at. change 1 with (Z.ones 1). rewrite Z.land_ones, <-Z.bit0_mod by lia.
  by rewrite Z.shiftr_spec.
Qed.

Lemma testbit_u32 x j : 0 ≤ j → Z.testbit (u32 x) j = (j <? 32) && Z.testbit x j.
Proof.
  intros Hj. unfold u32. destruct (Z.ltb_spec j 32); simpl.
  - by rewrite Z.mod_pow2_bits_low.
  - by rewrite Z.mod_pow2_bits_high.
Qed.

Lemma testbit_high x k j : 0 ≤ x < 2 ^ k → 0 ≤ k ≤ j → Z.testbit x j = false.
Proof. intros Hx Hj. apply (proj1 (below_pow2_bits k x ltac:(lia) ltac:(lia)) ltac:(lia) j ltac:(lia)). Qed.

(** [raw_get_prefix()] returns at least [plen] bits, the first one at bit 31. *)
Lemma raw_get_prefix_spec v ofs plen : 0 ≤ ofs → 0 ≤ plen ≤ 32 → ofs + Z.max 1 plen ≤ vlen v →
  returns (raw_get_prefix v ofs plen) (λ p, 0 ≤ p < 2 ^ 32 ∧
    ∀ i, 0 ≤ i < plen → Z.testbit p (31 - i) = vbit v (ofs + i)).
Proof.
  intros Ho Hp Hl. unfold raw_get_prefix. rewrite be32_at_Ret by (Z.div_mod_to_equations; lia). cbn [obind].
  set (o := ofs mod 32). assert (0 ≤ o < 32) as Hob by (apply Z.mod_pos_bound; lia).
  assert (∀ i, 0 ≤ i < 32 - o → Z.testbit (u32 (Z.shiftl (ntohl (nth (Z.to_nat (ofs / 32)) v 0)) o)) (31 - i) = vbit v (ofs + i)) as Hfst.
  { intros i Hi. rewrite testbit_u32 by lia. destruct (Z.ltb_spec (31 - i) 32); [|lia]. simpl.
    rewrite Z.shiftl_spec by lia. unfold vbit.
    assert ((ofs + i) / 32 = ofs / 32 ∧ (ofs + i) mod 32 = o + i) as [-> ->]; [|f_equal; lia].
    unfold o. split; [symmetry; apply (Z.div_unique _ _ _ (o + i)); unfold o in *|symmetry; apply (Z.mod_unique _ _ (ofs / 32)); unfold o in *]; Z.div_mod_to_equations; lia. }
  destruct (Z.ltb_spec (32 - o) plen) as [Hm|Hm].
  - rewrite be32_at_Ret by (unfold o in *; Z.div_mod_to_equations; lia). cbn [obind]. eexists. split; [reflexivity|].
    split. { apply lor_range; [lia|apply u32_range|]. apply shiftr_range; [lia|]. apply ntohl_range. }
    intros i Hi. rewrite Z.lor_spec. destruct (decide (i < 32 - o)).
    + rewrite Hfst by lia. rewrite Z.shiftr_spec by lia.
      rewrite (testbit_high _ 32) by (first [apply ntohl_range|lia]). by rewrite orb_false_r.
    + rewrite testbit_u32, Z.shiftl_spec_low by lia. rewrite andb_false_r. simpl. rewrite Z.shiftr_spec by lia. unfold vbit.
      assert ((ofs + i) / 32 = ofs / 32 + 1 ∧ (ofs + i) mod 32 = o + i - 32) as [-> ->]; [|f_equal; lia].
      split; [symmetry; apply (Z.div_unique _ _ _ (o + i - 32)); unfold o in *|symmetry; apply (Z.mod_unique _ _ (ofs / 32 + 1)); unfold o in *]; Z.div_mod_to_equations; lia.
  - eexists. split; [reflexivity|]. split; [apply u32_range|]. intros i Hi. apply Hfst. lia.
Qed.

Lemma trie_get_prefix_spec v ofs plen : 0 ≤ ofs → 0 ≤ plen → ofs + plen ≤ vlen v →
  returns (trie_get_prefix v ofs plen) (λ p, 0 ≤ p < 2 ^ 32 ∧
    ∀ i, 0 ≤ i < 32 → Z.testbit p (31 - i) = (i <? plen) && vbit v (ofs + i)).
Proof.
  intros Ho Hp Hl. unfold trie_get_prefix. destruct (Z.eqb_spec plen 0) as [->|Hn].
  { eexists. split; [reflexivity|]. split; [lia|]. intros i Hi. rewrite Z.bits_0.
    destruct (Z.ltb_spec i 0); [lia|done]. }
  unfold TRIE_PREFIX_BITS. set (m := Z.min plen 32).
  eapply returns_bind; [apply raw_get_prefix_spec; lia|]. intros p (Hr & Hbits).
  eexists. split; [reflexivity|]. cbv beta.
  assert (∀ i, 0 ≤ i < 32 → Z.testbit (u32 (Z.shiftl UINT_MAX (32 - m))) (31 - i) = (i <? m)) as Hmask.
  { intros i Hi. rewrite testbit_u32 by lia. destruct (Z.ltb_spec (31 - i) 32); [|lia]. simpl.
    rewrite Z.shiftl_spec by lia. change UINT_MAX with (Z.ones 32). rewrite Z.testbit_ones by lia.
    destruct (Z.ltb_spec i m), (Z.leb_spec 0 (31 - i - (32 - m))), (Z.ltb_spec (31 - i - (32 - m)) 32); try done; lia. }
  split.
  { assert (0 ≤ Z.land p (u32 (Z.shiftl UINT_MAX (32 - m)))) as H0 by (apply Z.land_nonneg; lia).
    split; [done|]. apply below_pow2_bits; [lia|done|]. intros i Hi. rewrite Z.land_spec.
    by rewrite (testbit_high p 32) by lia. }
  intros i Hi. rewrite Z.land_spec, Hmask by done.
  destruct (Z.ltb_spec i m).
  - rewrite Hbits by lia. destruct (Z.ltb_spec i plen); [|lia]. by rewrite andb_true_r.
  - destruct (Z.ltb_spec i plen); [lia|]. by rewrite andb_false_r.
Qed.

(** The number of equal bits: all before it are equal, and the next one, when
    there is one, is not. *)
Lemma prefix_equal_bits_spec p n v ofs :
  0 ≤ p < 2 ^ 32 → 0 ≤ n ≤ 32 → 0 ≤ ofs → ofs + Z.max 1 n ≤ vlen v →
  returns (prefix_equal_bits p n v ofs) (λ e, 0 ≤ e ≤ n ∧
    (∀ i, 0 ≤ i < e → Z.testbit p (31 - i) = vbit v (ofs + i)) ∧
    (e < n → Z.testbit p (31 - e) ≠ vbit v (ofs + e))).
Proof.
  intros Hp Hn Ho Hl. unfold prefix_equal_bits.
  eapply returns_bind; [apply raw_get_prefix_spec; lia|]. intros q (Hq & Hbits).
  eexists. split; [reflexivity|]. cbv beta. set (X := Z.lor _ _). unfold raw_clz64.
  assert (0 ≤ Z.lxor p q < 2 ^ 32) as Hd by (apply lxor_range; lia).
  assert (∀ j, 0 ≤ j → Z.testbit X (63 - j) = ((j <? 32) && Z.testbit (Z.lxor p q) (31 - j)) || (j =? n)) as HX.
  { intros j Hj. unfold X. rewrite Z.lor_spec, Z.shiftl_1_l. destruct (decide (63 < j)).
    { rewrite !Z.testbit_neg_r by lia. destruct (Z.ltb_spec j 32), (Z.eqb_spec j n); lia || done. }
    f_equal.
    - destruct (Z.ltb_spec j 32); simpl.
      + rewrite Z.shiftl_spec by lia. f_equal. lia.
      + by rewrite Z.shiftl_spec_low by lia.
    - rewrite Z.pow2_bits_eqb by lia. destruct (Z.eqb_spec (63 - n) (63 - j)), (Z.eqb_spec j n); lia || done. }
  assert (0 < X) as Hpos.
  { assert (X ≠ 0). { intros E. specialize (HX n ltac:(lia)). rewrite E, Z.bits_0, Z.eqb_refl, orb_true_r in HX. done. }
    assert (0 ≤ X); [|lia]. unfold X. by apply Z.lor_nonneg; split; apply Z.shiftl_nonneg; lia. }
  assert (Z.log2 X < 64) as Hlog.
  { apply Z.log2_lt_pow2; [done|]. apply below_pow2_bits; [lia..|]. intros i Hi. unfold X.
    rewrite Z.lor_spec, Z.shiftl_1_l, Z.pow2_bits_false, Z.shiftl_spec by lia.
    by rewrite (testbit_high _ 32) by lia. }
  pose proof (Z.log2_nonneg X) as Hlog0. set (e := 63 - Z.log2 X).
  assert (Z.testbit X (63 - e) = true) as He. { unfold e. replace (63 - (63 - Z.log2 X)) with (Z.log2 X) by lia. by apply Z.bit_log2. }
  assert (∀ j, 0 ≤ j < e → Z.testbit X (63 - j) = false) as Hlt. { intros j Hj. apply Z.bits_above_log2; [lia|]. unfold e in Hj. lia. }
  assert (e ≤ n) as Hen.
  { destruct (decide (n < e)); [|lia]. specialize (Hlt n ltac:(lia)). rewrite HX, Z.eqb_refl, orb_true_r in Hlt by lia. done. }
  split; [unfold e in *; lia|]. split.
  - intros i Hi. specialize (Hlt i Hi). rewrite HX in Hlt by lia. apply orb_false_iff in Hlt as [Hlt _].
    destruct (Z.ltb_spec i 32); [|lia]. simpl in Hlt. rewrite Z.lxor_spec in Hlt.
    rewrite <-Hbits by lia. by apply xorb_eq.
  - intros Hlt'. rewrite HX in He by (unfold e; lia). rewrite (proj2 (Z.eqb_neq e n)), orb_false_r in He by lia.
    apply andb_true_iff in He as [_ He]. rewrite Z.lxor_spec in He. rewrite <-Hbits by (unfold e; lia).
    intros E. rewrite E, xorb_nilpotent in He. done.
Qed.

(** ** Prefixes *)

Definition nbits (p n : Z) : list bool := (λ i, Z.testbit p (31 - i)) <$> seqZ 0 n.
Definition vbits (v : list Z) (o n : Z) : list bool := vbit v <$> seqZ o n.

Lemma seqZ_split o n k : 0 ≤ n → 0 ≤ k → seqZ o (n + k) = seqZ o n ++ seqZ (o + n) k.
Proof. apply seqZ_app. Qed.
Lemma length_nbits p n : 0 ≤ n → Z.of_nat (length (nbits p n)) = n.
Proof. intros. unfold nbits. rewrite length_fmap, length_seqZ. lia. Qed.
Lemma length_vbits v o n : 0 ≤ n → Z.of_nat (length (vbits v o n)) = n.
Proof. intros. unfold vbits. rewrite length_fmap, length_seqZ. lia. Qed.
Lemma vbits_app v o n k : 0 ≤ n → 0 ≤ k → vbits v o (n + k) = vbits v o n ++ vbits v (o + n) k.
Proof. intros. unfold vbits. by rewrite seqZ_split, fmap_app. Qed.
Lemma vbits_cons v o n : 0 < n → vbits v o n = vbit v o :: vbits v (o + 1) (n - 1).
Proof. intros. unfold vbits. rewrite seqZ_cons by done. simpl. by rewrite <-Z.add_1_r, <-Z.sub_1_r. Qed.
Lemma vbits_0 v o n : n ≤ 0 → vbits v o n = [].
Proof. intros. unfold vbits. by rewrite seqZ_nil. Qed.

Lemma seqZ_map_ext {A} (f g : Z → A) o n o' : (∀ i, 0 ≤ i < n → f (o + i) = g (o' + i)) → f <$> seqZ o n = g <$> seqZ o' n.
Proof.
  intros H. apply list_eq. intros i. rewrite !list_lookup_fmap.
  destruct (decide (i < Z.to_nat n)%nat).
  - rewrite !lookup_seqZ_lt by lia. simpl. f_equal. apply H. lia.
  - rewrite !lookup_seqZ_ge by lia. done.
Qed.

Lemma vbits_ext v v' o n : (∀ i, o ≤ i < o + n → vbit v i = vbit v' i) → vbits v o n = vbits v' o n.
Proof. intros H. apply seqZ_map_ext. intros i Hi. apply H. lia. Qed.
Lemma vbits_inv v v' o n i : vbits v o n = vbits v' o n → o ≤ i < o + n → vbit v i = vbit v' i.
Proof.
  intros H Hi. apply (f_equal (.!! Z.to_nat (i - o))) in H. unfold vbits in H. rewrite !list_lookup_fmap in H.
  rewrite !lookup_seqZ_lt in H by lia. simpl in H. replace (o + Z.of_nat (Z.to_nat (i - o))) with i in H by lia. congruence.
Qed.
Lemma nbits_vbits p n v o : (∀ i, 0 ≤ i < n → Z.testbit p (31 - i) = vbit v (o + i)) → nbits p n = vbits v o n.
Proof. intros H. apply seqZ_map_ext. intros i Hi. by apply H. Qed.
Lemma nbits_app p n p' k p'' : 0 ≤ n → 0 ≤ k →
  (∀ i, 0 ≤ i < n → Z.testbit p'' (31 - i) = Z.testbit p (31 - i)) →
  (∀ i, 0 ≤ i < k → Z.testbit p'' (31 - (n + i)) = Z.testbit p' (31 - i)) →
  nbits p'' (n + k) = nbits p n ++ nbits p' k.
Proof.
  intros Hn Hk H1 H2. unfold nbits. rewrite seqZ_split, fmap_app by done. f_equal; apply seqZ_map_ext; intros i Hi; auto.
Qed.
Lemma nbits_cons p n : 0 < n → ∃ q, nbits p n = Z.testbit p 31 :: q.
Proof. intros. unfold nbits. rewrite seqZ_cons by done. by eexists. Qed.

(** ** The multiset that a tree represents *)

Definition child (b : bool) (e0 e1 : trie) : trie := if b then e1 else e0.

Fixpoint cnt (t : trie) (q : list bool) : Z :=
  match t with
  | Null => 0
  | Node p n r e0 e1 =>
      if bool_decide (nbits p n `prefix_of` q) then
        match drop (length (nbits p n)) q with
        | [] => r
        | false :: _ => cnt e0 (drop (length (nbits p n)) q)
        | true :: _ => cnt e1 (drop (length (nbits p n)) q)
        end
      else 0
  end.

Lemma cnt_app p n r e0 e1 q :
  cnt (Node p n r e0 e1) (nbits p n ++ q) = match q with [] => r | b :: _ => cnt (child b e0 e1) q end.
Proof.
  simpl. rewrite bool_decide_true by (by eexists). rewrite drop_app_length. by destruct q as [|[] q].
Qed.
Lemma cnt_not p n r e0 e1 q : ¬ nbits p n `prefix_of` q → cnt (Node p n r e0 e1) q = 0.
Proof. intros H. simpl. by rewrite bool_decide_false. Qed.

(** A tree of prefixes with at most [N] bits, all of which start with [first]
    below the root.  Only the root can have no bits, and a node without rules
    has a child. *)
Definition node_ok (N : Z) (first : option bool) (p n r : Z) : Prop :=
  0 ≤ p < 2 ^ 32 ∧ 0 ≤ n ≤ 32 ∧ n ≤ N ∧ 0 ≤ r < 2 ^ 32 ∧
  (∀ i, n ≤ i < 32 → Z.testbit p (31 - i) = false) ∧
  match first with None => n = 0 → r = 0 | Some b => 0 < n ∧ Z.testbit p 31 = b end.

Fixpoint wf (N : Z) (first : option bool) (t : trie) : Prop :=
  match t with
  | Null => True
  | Node p n r e0 e1 =>
      node_ok N first p n r ∧ (r = 0 → e0 ≠ Null ∨ e1 ≠ Null) ∧
      wf (N - n) (Some false) e0 ∧ wf (N - n) (Some true) e1
  end.

Lemma wf_child N b e0 e1 : wf N (Some false) e0 → wf N (Some true) e1 → wf N (Some b) (child b e0 e1).
Proof. by destruct b. Qed.

Lemma cnt_nonneg N o t q : wf N o t → 0 ≤ cnt t q.
Proof.
  revert N o q. induction t as [|p n r e0 IH0 e1 IH1]; intros N o q; simpl; [lia|].
  intros (Hn & _ & H0 & H1). destruct (bool_decide _); [|lia].
  destruct (drop _ q) as [|[] ?]; [unfold node_ok in Hn; lia|by eapply IH1|by eapply IH0].
Qed.

Lemma cnt_wf N o t q : wf N o t → 0 < cnt t q →
  Z.of_nat (length q) ≤ N ∧ q ≠ [] ∧ match o with None => True | Some b => ∃ q', q = b :: q' end.
Proof.
  revert N o q. induction t as [|p n r e0 IH0 e1 IH1]; intros N o q; simpl; [lia|].
  intros ((Hp & Hn & HnN & Hr & Hlow & Ho) & _ & H0 & H1).
  case_bool_decide as Hpre; [|lia]. destruct Hpre as [k ->]. rewrite drop_app_length. intros Hc.
  pose proof (length_nbits p n ltac:(lia)) as Hl. rewrite length_app.
  assert (Z.of_nat (length k) ≤ N - n ∧ (k = [] → r ≠ 0)) as [Hk Hkr].
  { destruct k as [|[] k]; [simpl; split; lia|by split; [eapply IH1|]|by split; [eapply IH0|]]. }
  split; [lia|]. destruct o as [b|].
  - destruct Ho as [Hn0 <-]. destruct (nbits_cons p n Hn0) as [q' Hq]. rewrite Hq. split; [done|by eexists].
  - split; [|done]. intros E. apply app_nil in E as [E ->]. rewrite E in Hl. simpl in Hl. apply Hkr; [done|]. apply Ho. lia.
Qed.

Lemma cnt_bit N b t q : wf N (Some b) t → head q ≠ Some b → cnt t q = 0.
Proof.
  intros Hw Hq. pose proof (cnt_nonneg _ _ t q Hw). destruct (decide (0 < cnt t q)) as [Hc|]; [|lia].
  destruct (cnt_wf _ _ _ _ Hw Hc) as (_ & _ & q' & ->). done.
Qed.
Lemma cnt_long N o t q : wf N o t → N < Z.of_nat (length q) → cnt t q = 0.
Proof.
  intros Hw Hq. pose proof (cnt_nonneg _ _ t q Hw). destruct (decide (0 < cnt t q)) as [Hc|]; [|lia].
  apply (cnt_wf _ _ _ _ Hw) in Hc. lia.
Qed.
Lemma cnt_nil N o t : wf N o t → cnt t [] = 0.
Proof.
  intros Hw. pose proof (cnt_nonneg _ _ t [] Hw). destruct (decide (0 < cnt t [])) as [Hc|]; [|lia].
  apply (cnt_wf _ _ _ _ Hw) in Hc as (_ & [] & _). done.
Qed.

(** Only the null pointer represents the empty multiset. *)
Lemma cnt_empty N o t : wf N o t → (∀ q, cnt t q = 0) → t = Null.
Proof.
  revert N o. induction t as [|p n r e0 IH0 e1 IH1]; intros N o; simpl; [done|].
  intros (Hn & Hr & H0 & H1) Hc. exfalso.
  pose proof (λ q, Hc (nbits p n ++ q)) as Hq. setoid_rewrite cnt_app in Hq.
  assert (e0 = Null) as ->.
  { eapply IH0; [done|]. intros q. destruct (decide (head q = Some false)); [|by eapply cnt_bit].
    destruct q as [|[] q]; try done. apply (Hq (false :: q)). }
  assert (e1 = Null) as ->.
  { eapply IH1; [done|]. intros q. destruct (decide (head q = Some true)); [|by eapply cnt_bit].
    destruct q as [|[] q]; try done. apply (Hq (true :: q)). }
  destruct (Hr (Hq [])); done.
Qed.

(** Two nodes in a row are one node with the bits of both. *)
Lemma cnt_join N p n p' n' r' a b p'' e0 e1 q bit :
  wf N (Some bit) (Node p' n' r' a b) → nbits p'' (n + n') = nbits p n ++ nbits p' n' →
  child bit e0 e1 = Node p' n' r' a b → child (negb bit) e0 e1 = Null →
  cnt (Node p n 0 e0 e1) q = cnt (Node p'' (n + n') r' a b) q.
Proof.
  intros Hw Hb Hc Hc'. destruct (decide (nbits p n `prefix_of` q)) as [[k ->]|Hn].
  2: { rewrite !cnt_not; [done| |done]. rewrite Hb. intros [k ->]. apply Hn. rewrite <-app_assoc. by eexists. }
  rewrite cnt_app. destruct k as [|b0 k].
  { rewrite cnt_not; [done|]. rewrite Hb. intros [k Hk]. rewrite app_nil_r, <-app_assoc in Hk.
    apply (f_equal length) in Hk. rewrite !length_app in Hk. destruct Hw as ((_ & _ & _ & _ & _ & Hp & _) & _).
    destruct (nbits_cons p' n' Hp) as [z Hz]. rewrite Hz in Hk. simpl in Hk. lia. }
  destruct (decide (b0 = bit)) as [->|Hbit].
  - rewrite Hc. destruct (decide (nbits p' n' `prefix_of` bit :: k)) as [[k' ->]|Hn'].
    + rewrite app_assoc, <-Hb, !cnt_app. done.
    + rewrite !cnt_not; [done| |done]. rewrite Hb. intros [z Hz]. rewrite <-app_assoc in Hz. apply app_inv_head in Hz.
      apply Hn'. by eexists.
  - assert (b0 = negb bit) as -> by (by destruct b0, bit). rewrite Hc', cnt_not; [done|].
    rewrite Hb. intros [z Hz]. rewrite <-app_assoc in Hz. apply app_inv_head in Hz.
    destruct Hw as ((_ & _ & _ & _ & _ & Hp & Hbp) & _). destruct (nbits_cons p' n' Hp) as [y Hy]. rewrite Hy, Hbp in Hz. by destruct bit.
Qed.

(** ** Lookup *)

Lemma be_set_bit_at_spec v k : 0 ≤ k < vlen v →
  returns (be_set_bit_at v k) (λ v', vlen v' = vlen v ∧ ∀ j, 0 ≤ j → vbit v' j = vbit v j || (j =? k)).
Proof.
  intros Hk. unfold be_set_bit_at. replace (k / 8 / 4) with (k / 32) by (by rewrite Z.div_div by lia).
  rewrite be32_at_Ret by (Z.div_mod_to_equations; lia). cbn [obind]. set (w := nth _ v 0).
  eexists. split; [reflexivity|]. cbv beta. split; [unfold vlen; by rewrite length_insert|]. intros j Hj.
  set (m := Z.shiftl (Z.shiftl 1 _) _).
  assert (∀ i, 0 ≤ i < 32 → Z.testbit (ntohl (Z.lor w m)) i = Z.testbit (ntohl w) i || (i =? 31 - k mod 32)) as Hw.
  { intros i Hi. rewrite !testbit_ntohl, Z.lor_spec by done. f_equal. unfold m.
    rewrite Z.shiftl_spec, Z.shiftl_1_l, Z.pow2_bits_eqb by (Z.div_mod_to_equations; lia).
    destruct (Z.eqb_spec i (31 - k mod 32)); [apply Z.eqb_eq|apply Z.eqb_neq]; Z.div_mod_to_equations; lia. }
  assert ((Z.to_nat (k / 32) < length v)%nat) as Hlt by (unfold vlen in Hk; Z.div_mod_to_equations; lia).
  unfold vbit. destruct (decide (j / 32 = k / 32)) as [E|E].
  - rewrite E, (nth_lookup_Some _ (Z.to_nat (k / 32)) 0 (Z.lor w m)) by (by apply list_lookup_insert_eq).
    rewrite Hw by (Z.div_mod_to_equations; lia). f_equal.
    destruct (Z.eqb_spec j k); [apply Z.eqb_eq|apply Z.eqb_neq]; Z.div_mod_to_equations; lia.
  - rewrite !nth_lookup, list_lookup_insert_ne by (Z.div_mod_to_equations; lia).
    rewrite (proj2 (Z.eqb_neq j k)) by congruence. by rewrite orb_false_r.
Qed.

(** What a lookup of [v] from bit [ml] tells: in [plens] which of the prefixes
    of [v] are in the tree, and that another value which agrees with [v] up to
    bit [m] has no other ones. *)
Record lookup_ok (t : trie) (v plens : list Z) (nb ml m : Z) (plens' : list Z) : Prop := {
  lo_range : ml ≤ m ≤ nb;
  lo_vlen : vlen plens' = vlen plens;
  lo_plens k : 0 ≤ k → vbit plens' k = vbit plens k || (0 <? cnt t (vbits v ml (k + 1 - ml)));
  lo_other v' K : (∀ i, ml ≤ i < m → vbit v' i = vbit v i) → 0 < cnt t (vbits v' ml K) → vbits v' ml K = vbits v ml K;
}.

Lemma cnt_vbits p n r e0 e1 v ml K : 0 ≤ n → 0 ≤ K → nbits p n = vbits v ml n →
  cnt (Node p n r e0 e1) (vbits v ml K) =
  if K <? n then 0 else if K =? n then r else cnt (child (vbit v (ml + n)) e0 e1) (vbits v (ml + n) (K - n)).
Proof.
  intros Hn HK Hb. destruct (Z.ltb_spec K n).
  { rewrite cnt_not; [done|]. intros [k Hk]. apply (f_equal length) in Hk. rewrite length_app in Hk.
    pose proof (length_nbits p n Hn). pose proof (length_vbits v ml K ltac:(lia)). lia. }
  replace K with (n + (K - n)) at 1 by lia. rewrite vbits_app, <-Hb, cnt_app by lia.
  destruct (Z.eqb_spec K n) as [->|]; [by rewrite vbits_0 by lia|]. by rewrite vbits_cons by lia.
Qed.

Lemma cnt_mismatch p n r e0 e1 v ml K e : 0 ≤ e < n → Z.testbit p (31 - e) ≠ vbit v (ml + e) →
  cnt (Node p n r e0 e1) (vbits v ml K) = 0.
Proof.
  intros He Hne. apply cnt_not. intros [k Hk]. apply Hne.
  assert (n ≤ K) as HK.
  { apply (f_equal length) in Hk. rewrite length_app in Hk. pose proof (length_nbits p n ltac:(lia)).
    destruct (decide (0 ≤ K)); [pose proof (length_vbits v ml K ltac:(lia)); lia|].
    rewrite vbits_0 in Hk by lia. simpl in Hk. lia. }
  apply (f_equal (.!! Z.to_nat e)) in Hk. unfold vbits, nbits in Hk.
  rewrite lookup_app_l in Hk by (rewrite length_fmap, length_seqZ; lia). rewrite !list_lookup_fmap, !lookup_seqZ_lt in Hk by lia.
  cbn [fmap option_fmap option_map] in Hk. rewrite Z.add_0_l, Z2Nat.id in Hk by lia. congruence.
Qed.

Lemma lookup_node_ok p n r e0 e1 v plens nb ml m plens1 plens2 leaf :
  wf (nb - ml) None (Node p n r e0 e1) ∨ (∃ b, wf (nb - ml) (Some b) (Node p n r e0 e1)) →
  nbits p n = vbits v ml n → 0 ≤ ml → ml + n < nb →
  vlen plens1 = vlen plens → (∀ k, 0 ≤ k → vbit plens1 k = vbit plens k || ((0 <? r) && (k =? ml + n - 1))) →
  lookup_ok (child (vbit v (ml + n)) e0 e1) v plens1 nb (ml + n) m plens2 →
  (m = ml + n → e0 = Null ∧ e1 = Null) → leaf = trie_is_leaf e0 e1 →
  lookup_ok (Node p n r e0 e1) v plens nb ml m plens2.
Proof.
  intros Hw Hb Hml Hnb Hv1 Hp1 [[Hr1 Hr2] Hv2 Hpl Ho] Hnull _.
  assert (node_ok (nb - ml) None p n r ∨ (∃ b, node_ok (nb - ml) (Some b) p n r)) as Hok.
  { destruct Hw as [[? _]|[b [? _]]]; eauto. }
  assert (0 ≤ n ∧ 0 ≤ r ∧ (n = 0 → r = 0)) as (Hn & Hr & Hnr).
  { destruct Hok as [(? & ? & ? & ? & ? & ?)|[b (? & ? & ? & ? & ? & ? & ?)]]; lia. }
  assert (wf (nb - ml - n) (Some (vbit v (ml + n))) (child (vbit v (ml + n)) e0 e1)) as Hwc.
  { apply wf_child; destruct Hw as [(_ & _ & ? & ?)|[b (_ & _ & ? & ?)]]; done. }
  split; [lia|congruence| |].
  - intros k Hk. rewrite Hpl, Hp1 by done. rewrite <-orb_assoc. f_equal.
    destruct (decide (k + 1 - ml < 0)).
    { rewrite !vbits_0 by lia. rewrite (cnt_nil _ _ _ Hwc). rewrite (proj2 (Z.eqb_neq k (ml + n - 1))), andb_false_r by lia.
      by destruct Hw as [Hw|[b Hw]]; rewrite (cnt_nil _ _ _ Hw). }
    rewrite cnt_vbits by (done || lia). replace (k + 1 - ml - n) with (k + 1 - (ml + n)) by lia.
    destruct (Z.ltb_spec (k + 1 - ml) n), (Z.eqb_spec (k + 1 - ml) n), (Z.eqb_spec k (ml + n - 1)); try lia.
    + rewrite (vbits_0 _ _ (k + 1 - (ml + n))) by lia. rewrite (cnt_nil _ _ _ Hwc). by rewrite andb_false_r.
    + rewrite (vbits_0 _ _ (k + 1 - (ml + n))) by lia. rewrite (cnt_nil _ _ _ Hwc). by rewrite andb_true_r, orb_false_r.
  - intros v' K Hag Hc.
    assert (nbits p n = vbits v' ml n) as Hb'. { rewrite Hb. symmetry. apply vbits_ext. intros i Hi. apply Hag. lia. }
    destruct (decide (K < 0)); [by rewrite !vbits_0 by lia|].
    rewrite (cnt_vbits _ _ _ _ _ v' ml K Hn ltac:(lia) Hb') in Hc.
    destruct (Z.ltb_spec K n); [lia|]. destruct (Z.eqb_spec K n) as [->|]; [congruence|].
    replace K with (n + (K - n)) by lia. rewrite !vbits_app, <-Hb, <-Hb' by lia. f_equal.
    destruct (decide (m = ml + n)) as [E|E].
    { destruct (Hnull E) as [-> ->]. by destruct (vbit v' (ml + n)). }
    rewrite (Hag (ml + n)) in Hc by lia. apply Ho; [|done]. intros i Hi. apply Hag. lia.
Qed.

Lemma lookup_from_spec t leaf v plens nb ml o :
  wf (nb - ml) o t → 0 ≤ ml → match o with None => ml = 0 ∧ (t ≠ Null → 0 < nb) | Some b => ml < nb ∧ vbit v ml = b end →
  (leaf = false → ml < nb) → ml ≤ nb →
  nb ≤ vlen v → nb ≤ vlen plens →
  returns (lookup_from t leaf v plens nb ml) (λ '(m, plens'),
    lookup_ok t v plens nb ml m plens' ∧ (o ≠ None → m = ml → t = Null ∧ leaf = true)).
Proof.
  revert leaf plens ml o. induction t as [|p n r e0 IH0 e1 IH1]; intros leaf plens ml o Hw Hml Ho Hleaf Hmn Hv Hp; simpl.
  { eexists. split; [reflexivity|]. cbv beta iota. split.
    - split; [destruct leaf; [lia|specialize (Hleaf eq_refl); lia]|done|intros; simpl; by rewrite orb_false_r|simpl; lia].
    - destruct leaf; [done|lia]. }
  pose proof Hw as ((Hpr & Hn & HnN & Hr & Hlow & Hoo) & Hch & Hw0 & Hw1).
  assert (ml < nb) as Hlt. { destruct o as [b|]; [apply Ho|]. destruct Ho as [-> Ho]. by apply Ho. }
  eapply returns_bind; [apply prefix_equal_bits_spec; lia|]. intros e (He & Heq & Hne). cbv beta.
  destruct (Z.ltb_spec e n) as [Hen|Hen].
  { specialize (Hne Hen). eexists. split; [reflexivity|]. cbv beta iota. split; [|destruct o; lia].
    split; [lia|done| |].
    - intros k Hk. rewrite (cnt_mismatch _ _ _ _ _ _ _ _ e) by (done || lia). by rewrite orb_false_r.
    - intros v' K Hag Hc. rewrite (cnt_mismatch _ _ _ _ _ _ _ _ e) in Hc; [lia|lia|]. rewrite Hag by lia. done. }
  assert (e = n) as -> by lia. assert (nbits p n = vbits v ml n) as Hb by (by apply nbits_vbits).
  eapply (returns_bind _ _ (λ plens1, vlen plens1 = vlen plens ∧
      ∀ k, 0 ≤ k → vbit plens1 k = vbit plens k || ((0 <? r) && (k =? ml + n - 1)))).
  { destruct (Z.ltb_spec 0 r).
    - apply be_set_bit_at_spec. destruct o as [b|]; [lia|]. destruct (decide (n = 0)); [|lia]. specialize (Hoo ltac:(done)). lia.
    - eexists. split; [reflexivity|]. split; [done|]. intros. by rewrite orb_false_r. }
  intros plens1 [Hv1 Hp1]. destruct (Z.leb_spec nb (ml + n)) as [Hfull|Hmore].
  { assert (ml + n = nb) as E by lia. eexists. split; [reflexivity|]. cbv beta iota.
    split; [|destruct o as [b|]; [destruct Hoo; lia|done]].
    assert (∀ v' K, nbits p n = vbits v' ml n → 0 ≤ K → 0 < cnt (Node p n r e0 e1) (vbits v' ml K) → K = n) as Hlen.
    { intros v' K Hb' HK Hc. rewrite cnt_vbits in Hc by (done || lia). destruct (Z.ltb_spec K n); [lia|]. destruct (Z.eqb_spec K n); [done|].
      rewrite (cnt_long (nb - ml - n) (Some (vbit v' (ml + n)))) in Hc; [lia| |rewrite length_vbits; lia].
      by apply wf_child. }
    split; [lia|done| |].
    - intros k Hk. rewrite Hp1 by done. f_equal. destruct (decide (k + 1 - ml < 0)).
      { rewrite vbits_0 by lia. rewrite (cnt_nil _ _ _ Hw). by rewrite (proj2 (Z.eqb_neq k (ml + n - 1))), andb_false_r by lia. }
      rewrite cnt_vbits by (done || lia).
      destruct (Z.ltb_spec (k + 1 - ml) n), (Z.eqb_spec (k + 1 - ml) n), (Z.eqb_spec k (ml + n - 1)); try lia;
        rewrite ?andb_false_r, ?andb_true_r; try done.
      symmetry. apply Z.ltb_ge. destruct (decide (0 < cnt (child (vbit v (ml + n)) e0 e1) (vbits v (ml + n) (k + 1 - ml - n)))); [|lia].
      specialize (Hlen v (k + 1 - ml) Hb ltac:(lia)). rewrite cnt_vbits in Hlen by (done || lia).
      destruct (Z.ltb_spec (k + 1 - ml) n), (Z.eqb_spec (k + 1 - ml) n); try lia.
    - intros v' K Hag Hc. assert (vbits v' ml n = vbits v ml n) as Hb' by (apply vbits_ext; intros i Hi; apply Hag; lia).
      destruct (decide (K < 0)); [by rewrite !vbits_0 by lia|].
      assert (K = n) as -> by (apply (Hlen v'); [congruence|lia|done]). done. }
  rewrite be_get_bit_at_Ret by lia. cbn [obind].
  assert (returns (lookup_from (child (vbit v (ml + n)) e0 e1) (trie_is_leaf e0 e1) v plens1 nb (ml + n))
    (λ '(m, plens'), lookup_ok (child (vbit v (ml + n)) e0 e1) v plens1 nb (ml + n) m plens' ∧
       (m = ml + n → e0 = Null ∧ e1 = Null))) as Hchild.
  { assert (wf (nb - (ml + n)) (Some (vbit v (ml + n))) (child (vbit v (ml + n)) e0 e1)) as Hwc.
    { replace (nb - (ml + n)) with (nb - ml - n) by lia. by apply wf_child. }
    assert (∀ lf, lf = trie_is_leaf e0 e1 → lf = true → e0 = Null ∧ e1 = Null) as Hlf by (intros lf ->; by destruct e0, e1).
    destruct (vbit v (ml + n)) eqn:Eb; simpl in Hwc |- *.
    - eapply returns_mono; [apply (IH1 (trie_is_leaf e0 e1) plens1 (ml + n) (Some true)); auto; lia|].
      intros [m plens'] [HL Hm]. split; [done|]. intros E. by eapply Hlf; [|apply Hm].
    - eapply returns_mono; [apply (IH0 (trie_is_leaf e0 e1) plens1 (ml + n) (Some false)); auto; lia|].
      intros [m plens'] [HL Hm]. split; [done|]. intros E. by eapply Hlf; [|apply Hm]. }
  replace (if Z.b2z (vbit v (ml + n)) =? 0 then lookup_from e0 (trie_is_leaf e0 e1) v plens1 nb (ml + n)
    else lookup_from e1 (trie_is_leaf e0 e1) v plens1 nb (ml + n))
    with (lookup_from (child (vbit v (ml + n)) e0 e1) (trie_is_leaf e0 e1) v plens1 nb (ml + n)) by (by destruct (vbit v (ml + n))).
  eapply returns_mono; [exact Hchild|]. intros [m plens'] [HL Hm]. split.
  - eapply lookup_node_ok; eauto; try lia. destruct o; eauto.
  - intros Hon Em. destruct o as [b|]; [|done]. pose proof (lo_range _ _ _ _ _ _ _ HL). destruct Hoo; lia.
Qed.

Lemma trie_lookup_value_spec t v plens nb : wf nb None t → 0 < nb → nb ≤ vlen v → nb ≤ vlen plens →
  returns (trie_lookup_value t v plens nb) (λ '(m, plens'), lookup_ok t v plens nb 0 m plens').
Proof.
  intros Hw Hnb Hv Hp. eapply returns_mono; [apply (lookup_from_spec t true v plens nb 0 None); try done; try lia|].
  - by rewrite Z.sub_0_r.
  - by intros [m plens'] [? _].
Qed.

(** ** Insertion *)

(** Whether two prefixes are the same, as a number. *)
Definition same (q q' : list bool) : Z := if bool_decide (q = q') then 1 else 0.

Lemma same_app k q q' : same (k ++ q) (k ++ q') = same q q'.
Proof. unfold same. apply (f_equal (λ b : bool, if b then 1 else 0)), bool_decide_ext. split; [apply app_inv_head|by intros ->]. Qed.
Lemma same_ne q q' : q ≠ q' → same q q' = 0.
Proof. intros. unfold same. by rewrite bool_decide_false. Qed.
Lemma same_eq q : same q q = 1.
Proof. unfold same. by rewrite bool_decide_true. Qed.

(** A node for the [plen] bits from [ofs] on, when they fit into one. *)
Lemma trie_branch_node v ofs plen r : 0 ≤ ofs → 0 ≤ plen ≤ 32 → ofs + plen ≤ vlen v →
  returns (trie_branch v ofs plen r) (λ t, ∃ p, t = Node p plen r Null Null ∧ 0 ≤ p < 2 ^ 32 ∧
    (∀ i, plen ≤ i < 32 → Z.testbit p (31 - i) = false) ∧ (∀ i, 0 ≤ i < plen → Z.testbit p (31 - i) = vbit v (ofs + i))).
Proof.
  intros Ho Hp Hv. unfold trie_branch. cbn [trie_branch_create].
  eapply returns_bind; [apply trie_get_prefix_spec; lia|]. intros p [Hr Hb]. cbv beta. unfold TRIE_PREFIX_BITS.
  destruct (Z.leb_spec plen 32); [|lia]. eexists. split; [reflexivity|]. exists p. split_and!; [done|lia|lia|..].
  - intros i Hi. rewrite Hb by lia. by rewrite (proj2 (Z.ltb_ge i plen)) by lia.
  - intros i Hi. rewrite Hb by lia. by rewrite (proj2 (Z.ltb_lt i plen)) by lia.
Qed.

Lemma trie_branch_spec fuel v ofs plen : 0 ≤ ofs → 0 < plen → ofs + plen ≤ vlen v → plen < 32 * Z.of_nat fuel →
  returns (trie_branch_create fuel v ofs plen 1) (λ t, t ≠ Null ∧
    (∀ N, plen ≤ N → wf N (Some (vbit v ofs)) t) ∧ Z.testbit (node_prefix t) 31 = vbit v ofs ∧
    ∀ q, cnt t q = same q (vbits v ofs plen)).
Proof.
  revert ofs plen. induction fuel as [|fuel IH]; intros ofs plen Ho Hp Hv Hf; [lia|]. cbn [trie_branch_create].
  eapply returns_bind; [apply trie_get_prefix_spec; lia|]. intros p [Hr Hb]. cbv beta. unfold TRIE_PREFIX_BITS.
  assert (Z.testbit p 31 = vbit v ofs) as H31.
  { specialize (Hb 0 ltac:(lia)). rewrite Z.sub_0_r, Z.add_0_r in Hb. rewrite Hb. by rewrite (proj2 (Z.ltb_lt 0 plen)). }
  assert (∀ n, n ≤ 32 → n ≤ plen → nbits p n = vbits v ofs n) as Hnb.
  { intros n Hn Hn'. apply nbits_vbits. intros i Hi. rewrite Hb by lia. by rewrite (proj2 (Z.ltb_lt i plen)) by lia. }
  destruct (Z.leb_spec plen 32) as [Hs|Hs].
  - eexists. split; [reflexivity|]. split_and!; [done| |done|].
    + intros N HN. split_and!; try done; try lia. split_and!; try lia; [|done].
      intros i Hi. rewrite Hb by lia. by rewrite (proj2 (Z.ltb_ge i plen)) by lia.
    + intros q. destruct (decide (nbits p plen `prefix_of` q)) as [[k ->]|Hn].
      * rewrite cnt_app, Hnb by lia. destruct k as [|b k]; [by rewrite app_nil_r, same_eq|].
        rewrite same_ne; [by destruct b|]. intros E. apply (f_equal length) in E. rewrite length_app in E. simpl in E. lia.
      * rewrite cnt_not, same_ne; [done| |done]. rewrite <-Hnb by lia. by intros ->.
  - eapply returns_bind; [apply IH; lia|]. intros sub (Hnn & Hw & H0 & Hc). cbv beta zeta.
    rewrite get_bit_at_testbit, Z.sub_0_r, H0 by lia.
    assert (child (vbit v (ofs + 32)) (if vbit v (ofs + 32) then Null else sub) (if vbit v (ofs + 32) then sub else Null) = sub) as Hch by (by destruct (vbit v (ofs + 32))).
    replace (set_edge (Node p 32 0 Null Null) (Z.b2z (vbit v (ofs + 32))) sub)
      with (Node p 32 0 (if vbit v (ofs + 32) then Null else sub) (if vbit v (ofs + 32) then sub else Null)) by (by destruct (vbit v (ofs + 32))).
    eexists. split; [reflexivity|]. split_and!; [done| |done|].
    + intros N HN. specialize (Hw (N - 32) ltac:(lia)). split_and!.
      * split_and!; lia || done.
      * destruct (vbit v (ofs + 32)); auto.
      * by destruct (vbit v (ofs + 32)).
      * by destruct (vbit v (ofs + 32)).
    + intros q. replace plen with (32 + (plen - 32)) by lia. rewrite vbits_app, <-(Hnb 32) by lia.
      destruct (decide (nbits p 32 `prefix_of` q)) as [[k ->]|Hn].
      * rewrite cnt_app, same_app. destruct k as [|b k].
        { rewrite same_ne; [done|]. by rewrite vbits_cons by lia. }
        destruct (decide (b = vbit v (ofs + 32))) as [->|E]; [by rewrite Hch, Hc|].
        rewrite same_ne; [by destruct b, (vbit v (ofs + 32))|]. rewrite vbits_cons by lia. congruence.
      * rewrite cnt_not, same_ne; [done| |done]. intros ->. apply Hn. by eexists.
Qed.

Lemma trie_branch_wf v ofs plen : 0 ≤ ofs → 0 < plen → ofs + plen ≤ vlen v →
  returns (trie_branch v ofs plen 1) (λ t, t ≠ Null ∧ (∀ N, plen ≤ N → wf N (Some (vbit v ofs)) t) ∧
    ∀ q, cnt t q = same q (vbits v ofs plen)).
Proof.
  intros. eapply returns_mono; [apply trie_branch_spec; lia|]. by intros t (? & ? & _ & ?).
Qed.

(** Moving a node down by [e] bits. *)
Lemma shift_bits p e i : 0 ≤ e → 0 ≤ i → i + e < 32 → Z.testbit (u32 (Z.shiftl p e)) (31 - i) = Z.testbit p (31 - (e + i)).
Proof.
  intros. rewrite testbit_u32 by lia. destruct (Z.ltb_spec (31 - i) 32); [|lia]. simpl.
  rewrite Z.shiftl_spec by lia. f_equal. lia.
Qed.

Lemma shifted_ok N o p n r e : node_ok N o p n r → 0 ≤ e < n →
  node_ok (N - e) (Some (Z.testbit p (31 - e))) (u32 (Z.shiftl p e)) (n - e) r.
Proof.
  intros (Hp & Hn & HN & Hr & Hlow & _) He. split_and!; try lia; try apply u32_range.
  - intros i Hi. destruct (decide (i + e < 32)).
    + rewrite shift_bits by lia. apply Hlow. lia.
    + rewrite testbit_u32 by lia. rewrite Z.shiftl_spec_low by lia. by rewrite andb_false_r.
  - replace 31 with (31 - 0) at 1 by lia. rewrite shift_bits by lia. by rewrite Z.add_0_r.
Qed.

Lemma split_bits p pp n e : 0 ≤ e < n → n ≤ 32 → (∀ i, 0 ≤ i < e → Z.testbit pp (31 - i) = Z.testbit p (31 - i)) →
  nbits p n = nbits pp e ++ nbits (u32 (Z.shiftl p e)) (n - e).
Proof.
  intros He Hn Hpp. replace n with (e + (n - e)) at 1 by lia. apply nbits_app; try lia.
  - intros i Hi. by rewrite Hpp.
  - intros i Hi. by rewrite shift_bits by lia.
Qed.

(** Two edges, of which [b] leads to [t]. *)
Definition e0_of (b : bool) (t t' : trie) : trie := if b then t' else t.
Definition e1_of (b : bool) (t t' : trie) : trie := if b then t else t'.
Lemma child_of b c t t' : child c (e0_of b t t') (e1_of b t t') = if bool_decide (c = b) then t else t'.
Proof. by destruct b, c. Qed.

(** A node that is split into two represents the same prefixes. *)
Lemma split_node N o p n r e0 e1 e pp b :
  wf N o (Node p n r e0 e1) → 0 ≤ e < n → b = Z.testbit p (31 - e) →
  (∀ i, 0 ≤ i < e → Z.testbit pp (31 - i) = Z.testbit p (31 - i)) →
  wf (N - e) (Some b) (Node (u32 (Z.shiftl p e)) (n - e) r e0 e1) ∧
  ∀ q, cnt (Node p n r e0 e1) q =
       cnt (Node pp e 0 (e0_of b (Node (u32 (Z.shiftl p e)) (n - e) r e0 e1) Null) (e1_of b (Node (u32 (Z.shiftl p e)) (n - e) r e0 e1) Null)) q.
Proof.
  intros (Hok & Hr & H0 & H1) He -> Hpp. pose proof Hok as (_ & Hn & _).
  assert (wf (N - e) (Some (Z.testbit p (31 - e))) (Node (u32 (Z.shiftl p e)) (n - e) r e0 e1)) as Hw.
  { split; [by eapply shifted_ok|]. split; [done|]. replace (N - e - (n - e)) with (N - n) by lia. done. }
  split; [done|]. intros q. symmetry. trans (cnt (Node p (e + (n - e)) r e0 e1) q); [|do 2 f_equal; lia].
  eapply cnt_join; [exact Hw| | |].
  - replace (e + (n - e)) with n by lia. apply split_bits; lia || done.
  - rewrite child_of. by rewrite bool_decide_true.
  - rewrite child_of. rewrite bool_decide_false; [done|]. by destruct (Z.testbit p (31 - e)).
Qed.

Lemma insert_node p n r e0 e1 q b t' d : (∀ q, cnt t' q = cnt (child b e0 e1) q + same q (b :: d)) →
  cnt (Node p n r (e0_of b t' (child (negb b) e0 e1)) (e1_of b t' (child (negb b) e0 e1))) q =
  cnt (Node p n r e0 e1) q + same q (nbits p n ++ b :: d).
Proof.
  intros Hc. destruct (decide (nbits p n `prefix_of` q)) as [[k ->]|Hn].
  2: { rewrite !cnt_not by done. rewrite same_ne; [done|]. intros ->. apply Hn. by eexists. }
  rewrite !cnt_app, same_app. destruct k as [|c k]; [rewrite same_ne by done; lia|].
  rewrite child_of. case_bool_decide as E; [by rewrite Hc, E|].
  rewrite same_ne, Z.add_0_r by congruence. by destruct b, c.
Qed.

Lemma insert_from_spec t v ofs mlen N o :
  wf N o t → 0 ≤ ofs < mlen → mlen - ofs ≤ N → mlen ≤ vlen v →
  match o with None => True | Some b => vbit v ofs = b end →
  cnt t (vbits v ofs (mlen - ofs)) < 2 ^ 32 - 1 →
  returns (insert_from t v ofs mlen) (λ t', t' ≠ Null ∧ wf N o t' ∧
    ∀ q, cnt t' q = cnt t q + same q (vbits v ofs (mlen - ofs))).
Proof.
  revert ofs N o. induction t as [|p n r e0 IH0 e1 IH1]; intros ofs N o Hw Hofs HN Hv Ho Hlim.
  { simpl. eapply returns_mono; [apply trie_branch_wf; lia|]. intros t (Hnn & Ht & Hc). split_and!; [done| |done].
    specialize (Ht N ltac:(lia)). destruct o as [b|]; [by subst b|].
    destruct t as [|p n r e0 e1]; [done|]. destruct Ht as ((? & ? & ? & ? & ? & ? & ?) & ? & ? & ?).
    split_and!; try done. split_and!; try done; lia. }
  pose proof Hw as (Hok & Hch & Hw0 & Hw1). pose proof Hok as (Hp & Hn & HnN & Hr & Hlow & Hoo).
  cbn [insert_from]. unfold trie_prefix_equal_bits.
  eapply returns_bind; [apply prefix_equal_bits_spec; lia|]. intros e (He & Heq & Hne). cbv beta zeta.
  destruct (Z.ltb_spec e n) as [Hen|Hen].
  { replace (ofs + e - e) with ofs by lia.
    eapply returns_bind; [apply (trie_branch_node v ofs e); lia|]. intros np (pp & -> & Hpp & Hplow & Hpb). cbv beta.
    rewrite get_bit_at_testbit by lia. set (b := Z.testbit p (31 - e)) in *.
    destruct (split_node N o p n r e0 e1 e pp b Hw ltac:(lia) eq_refl) as [Hwn Hcn]. { intros i Hi. by rewrite Hpb, Heq by lia. }
    set (node := Node (u32 _) _ _ _ _) in *.
    assert (∀ r', 0 ≤ r' ≤ 1 → (e = 0 → r' = 0) → node_ok N o pp e r') as Hnew.
    { intros r' Hr' He0. split_and!; try lia; [done|]. destruct o as [b'|]; [|done]. assert (0 < e) as Hpos.
      { destruct (decide (e = 0)) as [->|]; [|lia]. destruct Hoo as [Hn0 Hb']. specialize (Hne ltac:(lia)).
        unfold b in Hne. rewrite Z.sub_0_r, Z.add_0_r in Hne. congruence. }
      split; [done|]. specialize (Hpb 0 ltac:(lia)). rewrite Z.sub_0_r, Z.add_0_r in Hpb. congruence. }
    assert (set_edge (Node pp e (if ofs + e =? mlen then 1 else 0) Null Null) (Z.b2z b) node =
      Node pp e (if ofs + e =? mlen then 1 else 0) (e0_of b node Null) (e1_of b node Null)) as -> by (by destruct b).
    destruct (Z.ltb_spec (ofs + e) mlen) as [Hlt|Hge].
    - rewrite (proj2 (Z.eqb_neq (ofs + e) mlen)) by lia.
      assert (vbit v (ofs + e) = negb b) as Hb. { specialize (Hne ltac:(lia)). by destruct b, (vbit v (ofs + e)). }
      eapply returns_bind; [apply trie_branch_wf; lia|]. intros br (Hbn & Hbw & Hbc). cbv beta. rewrite Hb in Hbw.
      specialize (Hbw (N - e) ltac:(lia)).
      eexists. split; [reflexivity|].
      assert (set_edge (Node pp e 0 (e0_of b node Null) (e1_of b node Null)) (1 - Z.b2z b) br =
        Node pp e 0 (e0_of b node br) (e1_of b node br)) as -> by (by destruct b).
      split_and!; [done|split_and!; [apply Hnew; lia|intros _; by destruct b; auto|by destruct b|by destruct b]|].
      intros q. rewrite Hcn. replace (mlen - ofs) with (e + (mlen - (ofs + e))) by lia.
      rewrite vbits_app by lia. rewrite <-(nbits_vbits pp e) by done.
      rewrite (vbits_cons v (ofs + e)) in Hbc |- * by lia. rewrite Hb in Hbc |- *.
      pose proof (insert_node pp e 0 (e0_of b node Null) (e1_of b node Null) q (negb b) br _
        ltac:(intros q'; rewrite Hbc, child_of; rewrite bool_decide_false; [done|by destruct b])) as Hins.
      rewrite <-Hins. rewrite child_of, bool_decide_true by (by destruct b). by destruct b.
    - assert (ofs + e = mlen) as E by lia. rewrite (proj2 (Z.eqb_eq (ofs + e) mlen) E).
      eexists. split; [reflexivity|].
      split_and!; [done|split_and!; [apply Hnew; lia|lia|by destruct b|by destruct b]|].
      intros q. rewrite Hcn. replace (mlen - ofs) with e by lia. rewrite <-(nbits_vbits pp e) by done.
      destruct (decide (nbits pp e `prefix_of` q)) as [[k ->]|Hnp].
      + rewrite !cnt_app. destruct k as [|c k]; [by rewrite app_nil_r, same_eq|].
        rewrite same_ne; [lia|]. intros Ec. apply (f_equal length) in Ec. rewrite length_app in Ec. simpl in Ec. lia.
      + rewrite !cnt_not, same_ne by (done || by intros ->). done. }
  assert (e = n) as -> by lia. assert (nbits p n = vbits v ofs n) as Hb by (by apply nbits_vbits).
  destruct (Z.eqb_spec (ofs + n) mlen) as [E|E].
  { eexists. split; [reflexivity|]. replace (mlen - ofs) with n in Hlim |- * by lia.
    rewrite cnt_vbits in Hlim by (done || lia). destruct (Z.ltb_spec n n); [lia|]. destruct (Z.eqb_spec n n); [|lia].
    rewrite u32_small by lia. split_and!; [done|split_and!; try done; [split_and!; try done; try lia|lia]|].
    - destruct o; [done|]. intros. lia.
    - intros q. rewrite <-Hb. destruct (decide (nbits p n `prefix_of` q)) as [[k ->]|Hnp].
      + rewrite !cnt_app. destruct k as [|c k]; [by rewrite app_nil_r, same_eq|].
        rewrite same_ne; [lia|]. intros Ec. apply (f_equal length) in Ec. rewrite length_app in Ec. simpl in Ec. lia.
      + rewrite !cnt_not, same_ne by (done || by intros ->). done. }
  rewrite be_get_bit_at_Ret by lia. cbn [obind]. set (b := vbit v (ofs + n)).
  assert (returns (insert_from (child b e0 e1) v (ofs + n) mlen) (λ t', t' ≠ Null ∧ wf (N - n) (Some b) t' ∧
    ∀ q, cnt t' q = cnt (child b e0 e1) q + same q (vbits v (ofs + n) (mlen - (ofs + n))))) as Hrec.
  { assert (cnt (child b e0 e1) (vbits v (ofs + n) (mlen - (ofs + n))) < 2 ^ 32 - 1) as Hl'.
    { rewrite cnt_vbits in Hlim by (done || lia). destruct (Z.ltb_spec (mlen - ofs) n), (Z.eqb_spec (mlen - ofs) n); try lia.
      replace (mlen - ofs - n) with (mlen - (ofs + n)) in Hlim by lia. done. }
    unfold b in *. destruct (vbit v (ofs + n)) eqn:Eb; simpl in *; [apply IH1|apply IH0]; done || lia. }
  replace (if Z.b2z b =? 0 then _ else _) with (let* e := insert_from (child b e0 e1) v (ofs + n) mlen in
    Ret (Node p n r (e0_of b e (child (negb b) e0 e1)) (e1_of b e (child (negb b) e0 e1)))) by (by destruct b).
  eapply returns_bind; [exact Hrec|]. intros t' (Hnn & Hw' & Hc'). cbv beta. eexists. split; [reflexivity|].
  split_and!; [done| |].
  - split_and!; [done|intros; by destruct b; auto|by destruct b|by destruct b].
  - intros q. replace (mlen - ofs) with (n + (mlen - (ofs + n))) by lia. rewrite vbits_app, <-Hb by lia.
    rewrite (vbits_cons v (ofs + n)) in Hc' |- * by lia. by apply insert_node.
Qed.

Lemma trie_insert_prefix_spec t v mlen N : wf N None t → 0 < mlen ≤ N → mlen ≤ vlen v →
  cnt t (vbits v 0 mlen) < 2 ^ 32 - 1 →
  returns (trie_insert_prefix t v mlen) (λ t', wf N None t' ∧ ∀ q, cnt t' q = cnt t q + same q (vbits v 0 mlen)).
Proof.
  intros Hw Hm Hv Hl. unfold trie_insert_prefix.
  eapply returns_mono; [apply (insert_from_spec t v 0 mlen N None); rewrite ?Z.sub_0_r; done || lia|].
  rewrite Z.sub_0_r. by intros t' (_ & ? & ?).
Qed.

(** ** Removal *)

(** A node that may have lost its last rule or child. *)
Definition wf_open (N : Z) (o : option bool) (t : trie) : Prop :=
  match t with
  | Null => True
  | Node p n r e0 e1 => node_ok N o p n r ∧ wf (N - n) (Some false) e0 ∧ wf (N - n) (Some true) e1
  end.

Lemma wf_is_open N o t : wf N o t → wf_open N o t.
Proof. destruct t; simpl; naive_solver. Qed.

(** The bit of the edge that a frame has lost. *)
Definition frame_bit (f : trie_edge) : bool := negb (f_bit f =? 0).
Definition frame_bits (f : trie_edge) : list bool := nbits (f_prefix f) (f_bits f).

Lemma fill_Node f t : fill f t =
  Node (f_prefix f) (f_bits f) (f_rules f) (e0_of (frame_bit f) t (f_other f)) (e1_of (frame_bit f) t (f_other f)).
Proof. unfold fill, frame_bit, e0_of, e1_of. by destruct (f_bit f =? 0). Qed.

(** The way from a root of [N] bits to an edge with [M] bits below it. *)
Inductive path_ok (N : Z) : list trie_edge → Z → option bool → Prop :=
| path_nil : path_ok N [] N None
| path_cons f path M o :
    path_ok N path M o → node_ok M o (f_prefix f) (f_bits f) (f_rules f) →
    wf (M - f_bits f) (Some (negb (frame_bit f))) (f_other f) →
    path_ok N (f :: path) (M - f_bits f) (Some (frame_bit f)).

Fixpoint path_bits (path : list trie_edge) : list bool :=
  match path with [] => [] | f :: path => path_bits path ++ frame_bits f end.

Lemma fill_open N path M o f t : path_ok N (f :: path) M o → wf M o t →
  ∃ M' o', path_ok N path M' o' ∧ wf_open M' o' (fill f t) ∧ (t ≠ Null → wf M' o' (fill f t)).
Proof.
  intros H Ht. inversion H as [|f' path' M' o' Hp Hn Ho]; subst. exists M', o'. split; [done|]. rewrite fill_Node.
  unfold e0_of, e1_of. split; [simpl; by destruct (frame_bit f)|].
  intros Hnn. split; [done|]. by destruct (frame_bit f); auto.
Qed.

Lemma plug_wf N path M o t : path_ok N path M o → wf M o t → t ≠ Null → wf N None (plug path t).
Proof.
  revert M o t. induction path as [|f path IH]; intros M o t Hp Ht Hn; simpl.
  - inversion Hp; by subst.
  - destruct (fill_open _ _ _ _ _ _ Hp Ht) as (M' & o' & Hp' & _ & Hw). eapply IH; [done|by apply Hw|].
    by rewrite fill_Node.
Qed.

(** Changing a tree below a path changes the whole tree in the same way. *)
Lemma plug_cnt N path M o t t' q0 : path_ok N path M o → (∀ b, o = Some b → ∃ q, q0 = b :: q) →
  (∀ q, cnt t' q = cnt t q - same q q0) →
  ∀ q, cnt (plug path t') q = cnt (plug path t) q - same q (path_bits path ++ q0).
Proof.
  revert M o t t' q0. induction path as [|f path IH]; intros M o t t' q0 Hp Hb Hc; simpl; [done|].
  rewrite <-app_assoc. inversion Hp as [|f' path' M' o' Hp' Hn Ho]; subst.
  destruct (Hb _ eq_refl) as [d ->]. eapply IH; [done| |].
  - intros b ->. destruct Hn as (_ & _ & _ & _ & _ & Hn & Hb'). destruct (nbits_cons (f_prefix f) (f_bits f) Hn) as [z Hz].
    unfold frame_bits. rewrite Hz, Hb'. by eexists.
  - intros q. rewrite !fill_Node.
    assert (∀ b (u : trie), child (negb b) (e0_of b u (f_other f)) (e1_of b u (f_other f)) = f_other f) as E by (intros []; done).
    pose proof (insert_node (f_prefix f) (f_bits f) (f_rules f) (e0_of (frame_bit f) t' (f_other f)) (e1_of (frame_bit f) t' (f_other f))
      q (frame_bit f) t d) as Hi.
    rewrite !E, child_of, bool_decide_true in Hi by done. unfold frame_bits. rewrite Hi by (intros; rewrite Hc; lia). lia.
Qed.

Lemma plug_same N path M o t t' : path_ok N path M o → (∀ q, cnt t' q = cnt t q) →
  ∀ q, cnt (plug path t') q = cnt (plug path t) q.
Proof.
  revert M o t t'. induction path as [|f path IH]; intros M o t t' Hp Hc; simpl; [done|].
  inversion Hp as [|f' path' M' o' Hp' Hn Ho]; subst. eapply IH; [done|]. intros q. rewrite !fill_Node.
  destruct (decide (nbits (f_prefix f) (f_bits f) `prefix_of` q)) as [[k ->]|Hnp]; [|by rewrite !cnt_not].
  rewrite !cnt_app. destruct k as [|b k]; [done|]. rewrite !child_of. by case_bool_decide.
Qed.

(** A node without rules and with one child, joined with it. *)
Lemma join_node N o p n p' n' r' a b e0 e1 bit :
  node_ok N o p n 0 → wf (N - n) (Some bit) (Node p' n' r' a b) →
  child bit e0 e1 = Node p' n' r' a b → child (negb bit) e0 e1 = Null → n + n' ≤ 32 →
  wf N o (Node (Z.lor p (Z.shiftr p' n)) (n' + n) r' a b) ∧
  ∀ q, cnt (Node (Z.lor p (Z.shiftr p' n)) (n' + n) r' a b) q = cnt (Node p n 0 e0 e1) q.
Proof.
  intros (Hp & Hn & HnN & _ & Hlow & Ho) Hwc Hc Hc' Hs.
  pose proof Hwc as ((Hp' & Hn' & HnN' & Hr' & Hlow' & Hpos & Hbit) & Hch & H0 & H1). set (p'' := Z.lor p _).
  assert (∀ i, 0 ≤ i < n → Z.testbit p'' (31 - i) = Z.testbit p (31 - i)) as Hb1.
  { intros i Hi. unfold p''. rewrite Z.lor_spec, Z.shiftr_spec by lia. rewrite (testbit_high p' 32) by lia. by rewrite orb_false_r. }
  assert (∀ i, 0 ≤ i → n + i < 32 → Z.testbit p'' (31 - (n + i)) = Z.testbit p' (31 - i)) as Hb2.
  { intros i Hi Hi'. unfold p''. rewrite Z.lor_spec, Z.shiftr_spec by lia. rewrite Hlow by lia. simpl. f_equal. lia. }
  assert (0 ≤ p'' < 2 ^ 32) as Hp'' by (apply lor_range; [lia|lia|]; apply shiftr_range; lia). split.
  - split_and!; [split_and!; try lia|done|replace (N - (n' + n)) with (N - n - n') by lia; done..].
    + intros i Hi. replace i with (n + (i - n)) by lia. rewrite Hb2 by lia. apply Hlow'. lia.
    + destruct o as [c|]; [|lia]. destruct Ho as [Hn0 Hc0]. split; [lia|]. specialize (Hb1 0 ltac:(lia)). rewrite Z.sub_0_r in Hb1. congruence.
  - intros q. symmetry. rewrite (Z.add_comm n' n). eapply cnt_join; [exact Hwc| |done|done].
    apply nbits_app; try lia; [done|]. intros i Hi. apply Hb2; lia.
Qed.

Lemma prune_spec N path M o t : path_ok N path M o → wf_open M o t → t ≠ Null →
  wf N None (prune path t) ∧ ∀ q, cnt (prune path t) q = cnt (plug path t) q.
Proof.
  revert M o t. induction path as [|f path IH]; intros M o t Hp Hop Hn; (destruct t as [|p n r e0 e1]; [done|]); destruct Hop as (Hok & H0 & H1); cbn [prune].
  all: destruct (Z.eqb_spec r 0) as [->|Hr]; simpl negb; cbv iota.
  all: try (split; [|done]; eapply plug_wf; [done| |done]; split_and!; done).
  all: destruct (negb (is_null e0) && negb (is_null e1)) eqn:E; cbv iota.
  all: try (split; [|done]; eapply plug_wf; [done| |done]; split_and!; try done; intros _; left; by destruct e0).
  all: destruct (if is_null e0 then e1 else e0) as [|p' n' r' a b] eqn:En.
  2,4: (destruct (Z.ltb_spec TRIE_PREFIX_BITS (n + n')) as [Hbig|Hfit]);
    [split; [|done]; eapply plug_wf; [done| |done]; split_and!; try done; intros _; destruct e0, e1; auto; discriminate|].
  2,3: destruct (join_node M o p n p' n' r' a b e0 e1 (is_null e0)) as [Hw Hc];
    [done|by destruct e0; simplify_eq/=|by destruct e0; simplify_eq/=|by destruct e0, e1; simplify_eq/=|unfold TRIE_PREFIX_BITS in Hfit; lia|];
    split; [eapply plug_wf; done|eapply plug_same; done].
  - assert (e0 = Null ∧ e1 = Null) as [-> ->] by (by destruct e0). split; [done|]. intros q. simpl.
    destruct (bool_decide _); [|done]. by destruct (drop _ q) as [|[] ?].
  - assert (e0 = Null ∧ e1 = Null) as [-> ->] by (by destruct e0).
    destruct (fill_open _ _ _ _ f Null Hp I) as (M' & o' & Hp' & Ho' & _).
    destruct (IH M' o' (fill f Null) Hp' Ho' ltac:(by rewrite fill_Node)) as [Hw Hc]. split; [done|]. intros q. rewrite Hc.
    change (plug path (fill f Null)) with (plug (f :: path) Null). eapply plug_same; [exact Hp|]. intros q'. simpl.
    destruct (bool_decide _); [|done]. by destruct (drop _ q') as [|[] ?].
Qed.

(** The number of nodes on the longest way down a tree; it is at most the
    number of bits, and one more for a root without bits. *)
Fixpoint height (t : trie) : Z :=
  match t with Null => 0 | Node _ _ _ e0 e1 => 1 + Z.max (height e0) (height e1) end.

Lemma height_nonneg t : 0 ≤ height t.
Proof. induction t; simpl; lia. Qed.
Lemma height_bits N o t : wf N o t → 0 ≤ N → height t ≤ match o with None => N + 1 | Some _ => N end.
Proof.
  revert N o. induction t as [|p n r e0 IH0 e1 IH1]; intros N o Hw HN; simpl; [destruct o; lia|].
  destruct Hw as ((Hp & Hn & HnN & Hr & Hlow & Ho) & _ & H0 & H1).
  pose proof (IH0 _ _ H0 ltac:(lia)) as B0. pose proof (IH1 _ _ H1 ltac:(lia)) as B1. simpl in B0, B1. destruct o; lia.
Qed.

Lemma remove_from_spec N t path v ofs mlen M o :
  path_ok N path M o → wf M o t → 0 ≤ ofs < mlen → mlen - ofs ≤ M → mlen ≤ vlen v →
  Z.of_nat (length path) + height t ≤ TRIE_EDGES → path_bits path = vbits v 0 ofs →
  0 < cnt t (vbits v ofs (mlen - ofs)) →
  returns (remove_from t path v ofs mlen) (λ r, ∃ t', r = Some t' ∧ wf N None t' ∧
    ∀ q, cnt t' q = cnt (plug path t) q - same q (vbits v 0 mlen)).
Proof.
  revert path ofs M o. induction t as [|p n r e0 IH0 e1 IH1]; intros path ofs M o Hp Hw Hofs HM Hv Hh Hpb Hc; [simpl in Hc; lia|].
  pose proof Hw as (Hok & Hch & H0 & H1). pose proof Hok as (Hpr & Hn & HnM & Hr & Hlow & Hoo).
  cbn [remove_from]. unfold trie_prefix_equal_bits.
  eapply returns_bind; [apply prefix_equal_bits_spec; lia|]. intros e (He & Heq & Hne). cbv beta zeta.
  assert (nbits p n `prefix_of` vbits v ofs (mlen - ofs)) as Hpre.
  { destruct (decide (nbits p n `prefix_of` vbits v ofs (mlen - ofs))); [done|]. rewrite cnt_not in Hc by done. lia. }
  assert (n ≤ mlen - ofs) as Hnm.
  { apply prefix_length in Hpre. pose proof (length_nbits p n ltac:(lia)). pose proof (length_vbits v ofs (mlen - ofs) ltac:(lia)). lia. }
  assert (e = n) as ->.
  { destruct (decide (e = n)); [done|]. rewrite (cnt_mismatch _ _ _ _ _ _ _ _ e) in Hc by (lia || apply Hne; lia). lia. }
  destruct (Z.ltb_spec n n); [lia|]. assert (nbits p n = vbits v ofs n) as Hb by (by apply nbits_vbits).
  rewrite cnt_vbits in Hc by (done || lia). destruct (Z.ltb_spec (mlen - ofs) n); [lia|].
  destruct (Z.eqb_spec (mlen - ofs) n) as [E|E].
  - rewrite (proj2 (Z.eqb_eq (ofs + n) mlen)), (proj2 (Z.eqb_neq r 0)) by lia.
    eexists. split; [reflexivity|]. eexists. split; [reflexivity|].
    assert (0 < n) as Hpos. { destruct o as [c|]; [apply Hoo|]. destruct (decide (n = 0)); [specialize (Hoo e); lia|lia]. }
    destruct (prune_spec N path M o (Node p n (r - 1) e0 e1) Hp) as [Hw' Hc']; [|done|].
    { split; [|done]. split_and!; try done; try lia. destruct o; [done|lia]. }
    split; [done|]. intros q. rewrite Hc'. replace mlen with (ofs + n) by lia. rewrite vbits_app, Z.add_0_l, <-Hpb, <-Hb by lia.
    eapply plug_cnt; [done| |].
    + intros c ->. destruct Hoo as [_ <-]. by apply nbits_cons.
    + intros q'. destruct (decide (nbits p n `prefix_of` q')) as [[k ->]|Hnp].
      * rewrite !cnt_app. destruct k as [|c k]; [by rewrite app_nil_r, same_eq|].
        rewrite same_ne; [lia|]. intros Ec. apply (f_equal length) in Ec. rewrite length_app in Ec. simpl in Ec. lia.
      * rewrite !cnt_not, same_ne by (done || by intros ->). done.
  - rewrite (proj2 (Z.eqb_neq (ofs + n) mlen)) by lia. rewrite be_get_bit_at_Ret by lia. cbn [obind].
    set (b := vbit v (ofs + n)) in *.
    assert (child b e0 e1 ≠ Null) as Hnn by (intros En; rewrite En in Hc; simpl in Hc; lia).
    assert (1 ≤ height (child b e0 e1)) as Hh1. { destruct (child b e0 e1); [done|]. simpl. pose proof (height_nonneg t1). lia. }
    assert (height (child b e0 e1) ≤ Z.max (height e0) (height e1)) as Hh2 by (destruct b; simpl; lia). simpl in Hh.
    destruct (Z.leb_spec TRIE_EDGES (Z.of_nat (length path) + 1)); [lia|].
    set (f := mkEdge p n r (Z.b2z b) (child (negb b) e0 e1)).
    assert (frame_bit f = b) as Hfb by (by destruct b).
    assert (path_ok N (f :: path) (M - n) (Some b)) as Hp'.
    { rewrite <-Hfb. apply (path_cons N f path M o); [done|done|]. rewrite Hfb. simpl. by destruct b. }
    assert (fill f (child b e0 e1) = Node p n r e0 e1) as Hfill by (rewrite fill_Node, Hfb; by destruct b).
    replace (mlen - ofs - n) with (mlen - (ofs + n)) in Hc by lia.
    assert (path_bits (f :: path) = vbits v 0 (ofs + n)) as Hpb'.
    { simpl. unfold frame_bits. simpl. by rewrite vbits_app, Z.add_0_l, Hpb, Hb by lia. }
    replace (if Z.b2z b =? 0 then _ else _) with (remove_from (child b e0 e1) (f :: path) v (ofs + n) mlen) by (unfold f; by destruct b).
    rewrite <-Hfill. change (plug path (fill f (child b e0 e1))) with (plug (f :: path) (child b e0 e1)).
    assert (wf (M - n) (Some b) (child b e0 e1)) as Hwc by (by apply wf_child).
    assert (Z.of_nat (length (f :: path)) + height (child b e0 e1) ≤ TRIE_EDGES) as Hh' by (simpl length; lia).
    clearbody f. destruct b; simpl child in *; [eapply IH1|eapply IH0]; try done; lia.
Qed.

Lemma trie_remove_prefix_spec t v mlen N : wf N None t → 0 < mlen ≤ N → mlen ≤ vlen v →
  height t ≤ TRIE_EDGES → 0 < cnt t (vbits v 0 mlen) →
  returns (trie_remove_prefix t v mlen) (λ '(t', found), found = true ∧ wf N None t' ∧
    ∀ q, cnt t' q = cnt t q - same q (vbits v 0 mlen)).
Proof.
  intros Hw Hm Hv Hh Hc. unfold trie_remove_prefix.
  eapply returns_bind; [eapply (remove_from_spec N t [] v 0 mlen N None); rewrite ?Z.sub_0_r; try done; try lia; constructor|].
  intros r (t' & -> & Hw' & Hc'). by eexists.
Qed.
