(* ===== verification/ClsTrieProps.v ===== *)
(** * Prefix tries: the theorem

    Histories of insertions and removals, and what a lookup finds after them. *)
From Stdlib Require Import ZArith Lia.
From stdpp Require Import base list gmap numbers option.
From S2P Require Import Prelude GtpWire ClsTrie ClsTrieProofs.
Open Scope Z_scope.

Inductive trie_op :=
| TrieInsert (prefix : list Z) (mlen : Z)
| TrieRemove (prefix : list Z) (mlen : Z).

Definition trie_step (op : trie_op) (t : trie) : outcome trie :=
  match op with
  | TrieInsert v mlen => trie_insert_prefix t v mlen
  | TrieRemove v mlen => let* (t, _) := trie_remove_prefix t v mlen in Ret t
  end.

Fixpoint trie_run (ops : list trie_op) (t : trie) : outcome trie :=
  match ops with
  | [] => Ret t
  | op :: ops => let* t := trie_step op t in trie_run ops t
  end.

(** How often each prefix is there. *)
Definition prefixes := list bool → Z.
Definition trie_spec (op : trie_op) (A : prefixes) : prefixes :=
  match op with
  | TrieInsert v mlen => λ q, A q + same q (vbits v 0 mlen)
  | TrieRemove v mlen => λ q, A q - same q (vbits v 0 mlen)
  end.
Definition trie_specs (ops : list trie_op) (A : prefixes) : prefixes := foldl (λ A op, trie_spec op A) A ops.

(** Prefixes have between 1 and [N] bits, and only those that are there are
    removed. *)
Definition trie_valid (N : Z) (op : trie_op) (A : prefixes) : Prop :=
  match op with
  | TrieInsert v mlen => 0 < mlen ≤ N ∧ mlen ≤ vlen v
  | TrieRemove v mlen => 0 < mlen ≤ N ∧ mlen ≤ vlen v ∧ 0 < A (vbits v 0 mlen)
  end.
Fixpoint trie_valids (N : Z) (ops : list trie_op) (A : prefixes) : Prop :=
  match ops with
  | [] => True
  | op :: ops => trie_valid N op A ∧ trie_valids N ops (trie_spec op A)
  end.

Lemma same_le q q' : 0 ≤ same q q' ≤ 1.
Proof. unfold same. case_bool_decide; lia. Qed.

Lemma trie_step_spec N op t A B : N < TRIE_EDGES → wf N None t → (∀ q, cnt t q = A q) → (∀ q, A q ≤ B) → B < 2 ^ 32 - 1 →
  trie_valid N op A →
  returns (trie_step op t) (λ t', wf N None t' ∧ (∀ q, cnt t' q = trie_spec op A q) ∧ ∀ q, trie_spec op A q ≤ B + 1).
Proof.
  intros HN Hw HA HB HB' Hv. destruct op as [v mlen|v mlen]; simpl in *.
  - destruct Hv as (Hm & Hl). eapply returns_mono; [apply (trie_insert_prefix_spec t v mlen N); try done|].
    + rewrite HA. specialize (HB (vbits v 0 mlen)). lia.
    + intros t' [Hw' Hc]. split_and!; [done|by intros q; rewrite Hc, HA|]. intros q. pose proof (same_le q (vbits v 0 mlen)). specialize (HB q). lia.
  - destruct Hv as (Hm & Hl & Hc). eapply returns_bind; [apply (trie_remove_prefix_spec t v mlen N); try done|].
    + pose proof (height_bits N None t Hw ltac:(lia)) as Hh. simpl in Hh. unfold TRIE_EDGES in *. lia.
    + by rewrite HA.
    + intros [t' found] (_ & Hw' & Hc'). eexists. split; [reflexivity|]. split_and!; [done|by intros q; rewrite Hc', HA|].
      intros q. pose proof (same_le q (vbits v 0 mlen)). specialize (HB q). lia.
Qed.

Lemma trie_run_spec N ops t A B : N < TRIE_EDGES → wf N None t → (∀ q, cnt t q = A q) → (∀ q, A q ≤ B) →
  B + Z.of_nat (length ops) < 2 ^ 32 - 1 → trie_valids N ops A →
  returns (trie_run ops t) (λ t', wf N None t' ∧ ∀ q, cnt t' q = trie_specs ops A q).
Proof.
  revert t A B. induction ops as [|op ops IH]; intros t A B HN Hw HA HB HB' Hv.
  - by eexists.
  - destruct Hv as [Hop Hv]. cbn [length] in HB'. cbn [trie_run].
    eapply returns_bind; [by apply (trie_step_spec N op t A B); [..|lia|]|].
    intros t' (Hw' & HA' & HBs). apply (IH t' (trie_spec op A) (B + 1)); try done. lia.
Qed.

(** C33: the prefix tries of the classifier are exact: after any history of
    insertions and removals of prefixes of at most [N] < 128 bits, the removed
    ones being there, looking up a value sets the bit of each length at which a
    prefix of the value is in the trie and no other; a value that agrees with
    it on the bits that the lookup returns has no other prefixes in the trie;
    and the trie is the null pointer exactly when it holds nothing. *)
Theorem prefix_trie_correct (N : Z) (ops : list trie_op) :
  0 < N < TRIE_EDGES → trie_valids N ops (λ _, 0) → Z.of_nat (length ops) < 2 ^ 32 - 1 →
  let A := trie_specs ops (λ _, 0) in
  returns (trie_run ops Null) (λ t,
    (t = Null ↔ ∀ q, A q = 0) ∧
    ∀ value plens, N ≤ vlen value → N ≤ vlen plens →
    returns (trie_lookup_value t value plens N) (λ '(m, plens'),
      0 ≤ m ≤ N ∧
      (∀ k, 0 ≤ k → vbit plens' k = vbit plens k || (0 <? A (vbits value 0 (k + 1)))) ∧
      ∀ value' K, (∀ i, 0 ≤ i < m → vbit value' i = vbit value i) →
        0 < A (vbits value' 0 K) → vbits value' 0 K = vbits value 0 K)).
Proof.
  intros HN Hv Hl A. eapply returns_mono; [apply (trie_run_spec N ops Null (λ _, 0) 0); try done; lia|].
  intros t [Hw HA]. fold A in HA. split.
  - split; [intros -> q; by rewrite <-HA|]. intros H. eapply cnt_empty; [done|]. intros q. by rewrite HA.
  - intros value plens Hval Hpl. eapply returns_mono; [by apply (trie_lookup_value_spec t value plens N); [|lia|..]|].
    intros [m plens'] [Hr _ Hp Ho]. split_and!; try lia.
    + intros k Hk. rewrite Hp, HA by done. by rewrite Z.sub_0_r.
    + intros value' K Hag Hc. rewrite <-HA in Hc. by apply Ho.
Qed.

(** Addresses as [ovs_be32], and a history with 10.0.0.0/8 twice, 10.1.2.0/24
    and 192.168.0.0/16, of which one is removed. *)
Module ExT.
Definition addr (a b c d : Z) : list Z := [host32 a b c d].
Definition ops : list trie_op :=
  [TrieInsert (addr 10 0 0 0) 8; TrieInsert (addr 10 1 2 0) 24; TrieInsert (addr 192 168 0 0) 16;
   TrieInsert (addr 10 0 0 0) 8; TrieRemove (addr 192 168 0 0) 16].
Definition t : trie := match trie_run ops Null with Ret t => t | _ => Null end.
End ExT.

Lemma prefix_trie_correct_witness :
  trie_run ExT.ops Null = Ret ExT.t ∧ ExT.t ≠ Null ∧
  returns (trie_lookup_value ExT.t (ExT.addr 10 1 3 4) [0] 32) (λ '(m, plens),
    0 ≤ m ≤ 32 ∧ vbit plens 7 = true ∧ vbit plens 23 = false).
Proof.
  assert (trie_run ExT.ops Null = Ret ExT.t) as Hrun by (vm_compute; reflexivity).
  destruct (prefix_trie_correct 32 ExT.ops) as (t & Ht & Hnull & Hlook).
  - unfold TRIE_EDGES. lia.
  - assert (∀ v : list Z, length v = 1%nat → vlen v = 32) as Hvl by (intros v Hv; unfold vlen; by rewrite Hv).
    cbn [trie_valids trie_valid ExT.ops]. rewrite !Hvl by reflexivity. split_and!; try lia; try done.
  - done.
  - assert (t = ExT.t) as -> by congruence. split; [done|]. split.
    { intros E. pose proof (proj1 Hnull E (vbits (ExT.addr 10 0 0 0) 0 8)) as E8. vm_compute in E8. discriminate E8. }
    eapply returns_mono; [apply (Hlook (ExT.addr 10 1 3 4) [0]); vm_compute; discriminate|].
    intros [m plens] (Hm & Hp & _). split_and!; try lia.
    + rewrite (Hp 7) by lia. vm_compute. reflexivity.
    + rewrite (Hp 23) by lia. vm_compute. reflexivity.
Defined.

(** With prefixes of 128 bits, as those of IPv6 addresses, a way down the trie
    can have 129 nodes, one more than the array of edges has elements: 129
    prefixes that each leave the all-zero address at another bit do it. *)
Module ExDeep.
(** The prefix of [k] + 1 bits of which only the last is set. *)
Definition leave (k : Z) : list Z :=
  (λ i, if k / 32 =? i then ntohl (2 ^ (31 - k mod 32)) else 0) <$> [0; 1; 2; 3].
Definition ops : list trie_op :=
  ((λ k, TrieInsert (leave k) (k + 1)) <$> seqZ 0 128) ++ [TrieInsert [0; 0; 0; 0] 128].
End ExDeep.

Lemma trie_remove_overflows :
  returns (trie_run ExDeep.ops Null) (λ t, height t = TRIE_EDGES + 1 ∧
    trie_remove_prefix t [0; 0; 0; 0] 128 = Fault OutOfBounds).
Proof. eexists. split; [vm_compute; reflexivity|]. split; vm_compute; reflexivity. Qed.
