(* ===== verification/GtpProps.v ===== *)
(** * ofproto/gtp-manager.c: sessions and packets

    What the manager guarantees about sessions and about where packets go. *)
From Stdlib Require Import ZArith Lia.
From stdpp Require Import base list gmap numbers option.
From S2P Require Import Prelude Hash Cmap CmapSlots CmapRefine CmapReplace MapIface GtpWire GtpWireProofs GtpManager GtpPgw GtpMaps GtpSessions GtpDelete GtpHandlers GtpInit GtpPackets GtpSpec GtpSafety GtpRuns.
Open Scope Z_scope.

(** ** Refinement *)

Module Trace.
Import Run.



End Trace.





(** ** Sessions *)
Section Sessions.
Context `{HF : HashFns} `{ML : MapLaws T}.
Implicit Types st : gtp T.

(** C3: a create session response from a registered gateway, whose elements
    carry the two TEIDs and the address, is passed on to the physical port
    and establishes exactly one more session, for that gateway.  The call
    never faults; it returns when the hash tables have room. *)
Theorem create_session_response fuel st Ss base x b t2 seq body t4 t5 ueip :
  gtp_rep st Ss base → maybe_gtpc_message (x_flow x) = true →
  in_port (x_flow x) ≠ ovs_phy_port st → pgw_fastpath st = 0 →
  gtp_manager_find_pgw st (nw_src (x_flow x)) ≠ -1 →
  Z.of_nat (size (heap st)) + 6 < 2 ^ 30 →
  gtpc_message b 33 (Some t2) seq (encode_body body) → t2 ≠ 0 → Forall wf_body_ie body →
  body_scan body (0, 0, 0) = (t4, t5, ueip) → all_set (t4, t5, ueip) = true →
  let post := λ '(st', x'),
    (∃ s, gtp_rep st' (s :: Ss) base ∧
      (s_t2 s, s_t4 s, s_t5 s, s_ueip s, s_pgw s) =
      (t2, t4, t5, ueip, gtp_manager_find_pgw st (nw_src (x_flow x)))) ∧
    globals st' = globals st ∧ x' = xlate_output_action x (ovs_phy_port st) in
  safe (handle_gtp fuel st x (Some b)) post ∧
  ((0 < fuel)%nat ∧ room_for_session st t2 t4 t5 ueip →
   returns (handle_gtp fuel st x (Some b)) post).
Proof. intros. apply wp_both. intros. by eapply create_response_wp. Qed.

(** C4: a delete session response with the TEID of a session removes that
    session, every map entry and every heap object of it, leaves all others,
    and is passed on.  No newer session may share one of its keys. *)
Theorem delete_session_response fuel st pre s post base x b seq body :
  gtp_rep st (pre ++ s :: post) base → not_shadowed pre s →
  maybe_gtpc_message (x_flow x) = true → in_port (x_flow x) ≠ ovs_phy_port st →
  gtpc_message b 37 (Some (s_t2 s)) seq body → s_t2 s ≠ 0 →
  let Q := λ '(st', x'),
    gtp_rep st' (pre ++ post) base ∧ globals st' = globals st ∧
    x' = xlate_output_action x (ovs_phy_port st) in
  safe (handle_gtp fuel st x (Some b)) Q ∧
  (slack_for_session st s → returns (handle_gtp fuel st x (Some b)) Q).
Proof. intros. apply wp_both. intros. by eapply delete_response_wp. Qed.


End Sessions.

(** The gateway 10.0.0.2 of [Ex.cfg] answers; the session comes up. *)
Lemma create_session_response_witness :
  returns (handle_gtp 3 Ex.cfg Ex.from_pgw (Some (Run.create_packet 0x22 0x44 0x55 5)))
    (λ '(st', x'),
      (∃ s, gtp_rep st' [s] ∅ ∧
        (s_t2 s, s_t4 s, s_t5 s, s_ueip s, s_pgw s) =
        (0x22, 0x44, 0x55, 0x0500a8c0, gtp_manager_find_pgw Ex.cfg (nw_src (x_flow Ex.from_pgw)))) ∧
      globals st' = globals Ex.cfg ∧ x' = xlate_output_action Ex.from_pgw (ovs_phy_port Ex.cfg)).
Proof.
  destruct Ex.cfg_facts as (Hfp & Hf & Hsz & Hphy & _).
  eapply (create_session_response 3 Ex.cfg [] ∅ Ex.from_pgw _ 0x22 77 (Run.body 0x44 0x55 5));
    [apply Ex.cfg_rep|done|by rewrite Hphy|done|by rewrite Hf|rewrite Hsz; lia
    |apply Run.create_message_ex|done|apply Run.body_wf_ex|apply Run.body_scan_ex|done|].
  split; [lia|apply Run.cfg_room].
Defined.

Lemma delete_session_response_witness :
  returns (handle_gtp 3 Ex.up Ex.from_pgw (Some (Run.delete_packet 0x22)))
    (λ '(st', x'), gtp_rep st' ([] ++ []) ∅ ∧ globals st' = globals Ex.up ∧
       x' = xlate_output_action Ex.from_pgw (ovs_phy_port Ex.up)).
Proof.
  destruct Run.up_facts as (_ & Hphy & _ & _ & _ & _ & _ & H2 & _).
  eapply (delete_session_response 3 Ex.up [] Ex.sess [] ∅ Ex.from_pgw);
    [apply Ex.up_rep|intros k key p _; reflexivity|reflexivity|rewrite Hphy; discriminate
    |rewrite H2; apply Run.delete_message_ex|rewrite H2; discriminate|apply Run.up_slack].
Defined.



(** ** Forwarding *)
Section Forwarding.
Context `{HF : HashFns} `{ML : MapLaws T}.
Implicit Types st : gtp T.

(** C7: a packet that belongs to a session goes where the session says, and
    no session changes.  A user packet from the physical port goes to the
    gateway of the newest session with its TEID, and nowhere when there is none
    or the gateway was deleted; one from a gateway goes to the physical port;
    in fast-path mode the packet is left alone.  A GTP-C message with a TEID
    from the physical port goes to the gateway of the newest session with that
    TEID.  On the SGi side, a packet from the physical port goes to the SGi
    port of the gateway of the newest session with its destination address,
    with only the MAC rewritten; a packet of a gateway goes to the physical
    port, and the state is exactly what it was. *)
Theorem session_packets_forwarded fuel st Ss base x b :
  gtp_rep st Ss base →
  (∀ ty teid, maybe_gtpc_message (x_flow x) = false → maybe_gtpu_message (x_flow x) = true →
   gtpu_message b ty teid →
   returns (handle_gtp fuel st x (Some b)) (λ '(st', x'),
     gtp_rep st' Ss base ∧ globals st' = globals st ∧
     x' = if pgw_fastpath st =? 0 then
            if in_port (x_flow x) =? ovs_phy_port st then
              if teid =? 0 then x else forwarded (pgw_list st) Ss KTeid teid send_to_pgw x
            else xlate_output_action x (ovs_phy_port st)
          else x)) ∧
  (∀ ty teid seq body, maybe_gtpc_message (x_flow x) = true → in_port (x_flow x) = ovs_phy_port st →
   gtpc_message b ty (Some teid) seq body → teid ≠ 0 →
   returns (handle_gtp fuel st x (Some b)) (λ '(st', x'),
     gtp_rep st' Ss base ∧ globals st' = globals st ∧
     x' = forwarded (pgw_list st) Ss KTeid teid send_to_pgw x)) ∧
  handle_pgw_sgi st x (Some b) = Ret (st,
    if pgw_fastpath st =? 0 then
      if in_port (x_flow x) =? ovs_phy_port st
      then forwarded (pgw_list st) Ss KUeip (nw_dst (x_flow x)) send_to_sgi x
      else xlate_output_action x (ovs_phy_port st)
    else x).
Proof.
  intros HR. split_and!.
  - intros ty teid. by apply gtpu_message_returns.
  - intros ty teid seq body Hc Hp Hm. by apply (tunnel_message_returns _ _ _ _ _ _ _ _ _ _ HR Hc Hp Hm).
  - by apply handle_pgw_sgi_spec with base.
Qed.

(** C9: of [n] switches that see the same message without a tunnel, exactly
    one, given by the sequence number, sends it to the gateway whose turn it
    is and moves on to the next gateway; the others drop it. *)
Theorem initial_message_sharded fuel n x b ty teid seq body :
  0 < n → maybe_gtpc_message (x_flow x) = true →
  gtpc_message b ty teid seq body → default 0 teid = 0 →
  ∃ owner, 0 ≤ owner < n ∧
    ∀ st Ss base, gtp_rep st Ss base → ovs_total st = n →
      in_port (x_flow x) = ovs_phy_port st →
      returns (handle_gtp fuel st x (Some b)) (λ '(st', x'),
        gtp_rep st' Ss base ∧
        if decide (ovs_id st = owner) then
          globals st' = globals (gtp_manager_get_pgw st).2 ∧
          ∃ g, pgw_list st !! Z.to_nat (gtp_manager_get_pgw st).1 = Some g ∧ x' = send_to_pgw g x
        else globals st' = globals st ∧ x' = x).
Proof.
  intros Hn Hc Hm Ht. exists ((seq mod 2 ^ 16) mod n). split; [by apply Z.mod_pos_bound|].
  intros st Ss base HR <- Hport.
  destruct (initial_message_returns fuel st Ss base x b ty teid seq body HR Hc Hport)
    as ([st' x'] & Heq & HR' & Hx); [lia|done|done|].
  exists (st', x'). split; [done|]. split; [done|]. revert Hx.
  case_decide as Hid.
  - by rewrite Hid, Z.eqb_refl.
  - by rewrite (proj2 (Z.eqb_neq _ _)) by congruence.
Qed.
End Forwarding.

Lemma session_packets_forwarded_witness :
  returns (handle_gtp 3 Ex.up Ex.gtpu_from_sgw (Some Run.user_packet)) (λ '(st', x'),
    gtp_rep st' [Ex.sess] ∅ ∧ globals st' = globals Ex.up ∧
    x' = if pgw_fastpath Ex.up =? 0 then
           if in_port (x_flow Ex.gtpu_from_sgw) =? ovs_phy_port Ex.up then
             if 0x55 =? 0 then Ex.gtpu_from_sgw
             else forwarded (pgw_list Ex.up) [Ex.sess] KTeid 0x55 send_to_pgw Ex.gtpu_from_sgw
           else xlate_output_action Ex.gtpu_from_sgw (ovs_phy_port Ex.up)
         else Ex.gtpu_from_sgw) ∧
  returns (handle_gtp 3 Ex.up Run.from_sgw (Some (Run.request_packet (Some 0x44) 9))) (λ '(st', x'),
    gtp_rep st' [Ex.sess] ∅ ∧ globals st' = globals Ex.up ∧
    x' = forwarded (pgw_list Ex.up) [Ex.sess] KTeid 0x44 send_to_pgw Run.from_sgw) ∧
  handle_pgw_sgi Ex.up Ex.from_www (Some Run.user_packet) = Ret (Ex.up,
    if pgw_fastpath Ex.up =? 0 then
      if in_port (x_flow Ex.from_www) =? ovs_phy_port Ex.up
      then forwarded (pgw_list Ex.up) [Ex.sess] KUeip (nw_dst (x_flow Ex.from_www)) send_to_sgi Ex.from_www
      else xlate_output_action Ex.from_www (ovs_phy_port Ex.up)
    else Ex.from_www).
Proof.
  destruct Run.up_facts as (_ & Hphy & _). split_and!.
  - apply (proj1 (session_packets_forwarded 3 Ex.up [Ex.sess] ∅ Ex.gtpu_from_sgw _ Ex.up_rep) 255);
      [done|done|apply Run.user_message_ex].
  - eapply (proj1 (proj2 (session_packets_forwarded 3 Ex.up [Ex.sess] ∅ Run.from_sgw _ Ex.up_rep)) 32 0x44 9);
      [done|by rewrite Hphy| |done].
    apply Run.request_message_ex; [|lia]. intros t [= <-]. lia.
  - apply (proj2 (proj2 (session_packets_forwarded 3 Ex.up [Ex.sess] ∅ Ex.from_www _ Ex.up_rep))).
Defined.

Lemma initial_message_sharded_witness :
  ∃ owner, 0 ≤ owner < 2 ∧
    ∀ (st : gtp cmap) Ss base, gtp_rep st Ss base → ovs_total st = 2 →
      in_port (x_flow Run.from_sgw) = ovs_phy_port st →
      returns (handle_gtp 3 st Run.from_sgw (Some (Run.request_packet None 9))) (λ '(st', x'),
        gtp_rep st' Ss base ∧
        if decide (ovs_id st = owner) then
          globals st' = globals (gtp_manager_get_pgw st).2 ∧
          ∃ g, pgw_list st !! Z.to_nat (gtp_manager_get_pgw st).1 = Some g ∧
            x' = send_to_pgw g Run.from_sgw
        else globals st' = globals st ∧ x' = Run.from_sgw).
Proof.
  eapply (initial_message_sharded 3 2 _ _ 32 None 9); [lia|done| |done].
  apply Run.request_message_ex; [done|lia].
Defined.

(** ** Outputs *)
Section Outputs.
Context `{HF : HashFns} `{MO : MapOps T}.
Implicit Types st : gtp T.

(** Whatever the state and the packet, a call of [handle_gtp] that
    returns has sent the packet at most once: from the physical port to the
    port of one of the gateways, from a gateway to the physical port.  The
    same holds of [handle_pgw_sgi] and the SGi ports. *)
Lemma handlers_send_once fuel st x packet st' x' :
  (handle_gtp fuel st x packet = Ret (st', x') →
   at_most_one (allowed st (in_port (x_flow x)) gtp_pgw_port) x x') ∧
  (handle_pgw_sgi st x packet = Ret (st', x') →
   at_most_one (allowed st (in_port (x_flow x)) pgw_sgi_port) x x').
Proof. split; [apply handle_gtp_outputs|apply handle_pgw_sgi_outputs]. Qed.
End Outputs.

Lemma handlers_send_once_witness :
  (∃ st' x', handle_gtp 3 Ex.up Ex.gtpu_from_sgw (Some Run.user_packet) = Ret (st', x') ∧
     at_most_one (allowed Ex.up 1 gtp_pgw_port) Ex.gtpu_from_sgw x') ∧
  (∃ x', handle_pgw_sgi Ex.up Ex.from_www (Some Run.user_packet) = Ret (Ex.up, x') ∧
     at_most_one (allowed Ex.up 1 pgw_sgi_port) Ex.from_www x').
Proof.
  split.
  - destruct (gtpu_message_returns 3 Ex.up [Ex.sess] ∅ Ex.gtpu_from_sgw Run.user_packet 255 0x55
      Ex.up_rep eq_refl eq_refl Run.user_message_ex) as ([st' x'] & Heq & _).
    exists st', x'. split; [exact Heq|].
    exact (proj1 (handlers_send_once 3 Ex.up Ex.gtpu_from_sgw _ st' x') Heq).
  - pose proof (handle_pgw_sgi_spec Ex.up [Ex.sess] ∅ Ex.from_www Run.user_packet Ex.up_rep) as Heq.
    revert Heq.
    generalize (λ x', proj2 (handlers_send_once 0 Ex.up Ex.from_www (Some Run.user_packet) Ex.up x')).
    generalize (if pgw_fastpath Ex.up =? 0 then
        if in_port (x_flow Ex.from_www) =? ovs_phy_port Ex.up
        then forwarded (pgw_list Ex.up) [Ex.sess] KUeip (nw_dst (x_flow Ex.from_www)) send_to_sgi Ex.from_www
        else xlate_output_action Ex.from_www (ovs_phy_port Ex.up)
      else Ex.from_www).
    intros x' Hone Heq. exists x'. split; [exact Heq|exact (Hone x' Heq)].
Defined.
