(* ===== verification/GtpTableProps.v ===== *)
(** * ofproto/gtp-manager.c: parsers, the table of gateways, and where it fails

    The second part of the manager's properties: what the parsers read, how
    gateways are added, found, deleted and handed out, and the inputs on which
    the code faults or leaks. *)
From Stdlib Require Import ZArith Lia.
From stdpp Require Import base list gmap numbers option.
From S2P Require Import Prelude Hash Cmap CmapSlots CmapRefine CmapReplace MapIface GtpWire GtpWireProofs GtpManager GtpPgw GtpMaps GtpSessions GtpDelete GtpHandlers GtpInit GtpPackets GtpSpec GtpRuns.
Open Scope Z_scope.

(** ** Parsers *)

(** C14: [parse_gtpc_msg_header] reads back an encoded GTPv2-C header, with
    or without a TEID, and finds the body behind it; of the 24-bit sequence
    number it keeps the low 16 bits.  [parse_gtpu_message] reads back an
    encoded GTPv1-U header. *)
Theorem gtp_header_roundtrip b off ty len l :
  is_byte ty → 0 ≤ len < 2 ^ 16 →
  (∀ p s teid seq spare,
     udp_payload b off (encode_gtpc_header p s ty len teid seq spare ++ l) →
     0 ≤ p < 2 → 0 ≤ s < 8 →
     (∀ t, teid = Some t → 0 ≤ t < 2 ^ 32) → 0 ≤ seq < 2 ^ 24 → is_byte spare →
     let hlen := match teid with Some _ => 12 | None => 8 end in
     gtpc_header_of b = Ret (Some (mkGtpc 2 (bool_decide (is_Some teid)) ty len teid
       (seq mod 2 ^ 16) hlen (off + hlen))) ∧ seg b (off + hlen) l) ∧
  (∀ f teid,
     udp_payload b off (encode_gtpu_header f ty len teid ++ l) →
     0 ≤ f < 32 → 0 ≤ teid < 2 ^ 32 →
     gtpu_header_of b = Ret (Some (mkGtpu 1 ty len teid 8 (off + 8)))).
Proof.
  intros Hty Hlen. split.
  - intros p s teid seq spare Hudp Hp Hs Ht Hseq Hspare. by apply (gtpc_header_of_encode b off p s ty len teid seq spare l).
  - intros f teid Hudp Hf Ht. by apply (gtpu_header_of_encode b off f ty len teid l).
Qed.

Lemma gtp_header_roundtrip_witness :
  gtpc_header_of (packet_of (encode_gtpc_header 0 0 32 12 (Some 0x1234) 0x345678 0 ++ [1; 2; 3; 4])) =
    Ret (Some (mkGtpc 2 true 32 12 (Some 0x1234) 0x5678 12 54)) ∧
  gtpu_header_of Run.user_packet = Ret (Some (mkGtpu 1 255 4 0x55 8 50)).
Proof.
  split.
  - apply (proj1 (gtp_header_roundtrip
      (packet_of (encode_gtpc_header 0 0 32 12 (Some 0x1234) 0x345678 0 ++ [1; 2; 3; 4]))
      42 32 12 [1; 2; 3; 4] ltac:(by vm_compute) ltac:(lia)) 0 0 (Some 0x1234) 0x345678 0);
      [apply packet_of_udp; simpl; lia|lia|lia| |lia|by vm_compute].
    intros t [= <-]. lia.
  - apply (proj2 (gtp_header_roundtrip Run.user_packet 42 255 4 [69; 0; 0; 20]
      ltac:(by vm_compute) ltac:(lia)) 16 0x55);
      [apply packet_of_udp; simpl; lia|lia|lia].
Defined.

(** C15: on an encoded body the loops over information elements and bearer
    contexts yield what [body_scan] says: the TEID of the last F-TEID, the
    last address and the TEID of the last bearer context's first F-TEID, up to
    the element after which all three are known.  On every packet at all the
    parser stops: it returns or hits a null pointer, whatever lengths the
    elements claim. *)
Theorem create_response_parsed b :
  (∀ l fuel start r,
     seg b start (encode_body l) → Forall wf_body_ie l →
     (length (encode_body l) ≤ fuel)%nat →
     ie_loop fuel b start (start + Z.of_nat (length (encode_body l))) r = Ret (body_scan l r)) ∧
  (∀ msg, bytes_ok b → parse_create_session_response msg b ≠ Diverge).
Proof.
  split; [intros l fuel start r; apply ie_loop_encode|].
  intros msg Hb. apply ie_loop_stops; [done|lia].
Qed.

Lemma create_response_parsed_witness :
  let body := Run.body 0x44 0x55 5 in
  ie_loop (length (encode_body body)) (packet_of (encode_body body)) 42
    (42 + Z.of_nat (length (encode_body body))) (0, 0, 0) = Ret (0x44, 0x55, 0x0500a8c0) ∧
  parse_create_session_response (mkGtpc 2 true 33 60000 (Some 1) 0 12 42) (packet_of [93; 255; 255; 0; 1])
    ≠ Diverge.
Proof.
  intros body. unfold body. rewrite <-Run.body_scan_ex. split.
  - apply (proj1 (create_response_parsed (packet_of (encode_body (Run.body 0x44 0x55 5)))));
      [|apply Run.body_wf_ex|done].
    apply packet_of_udp. by vm_compute.
  - apply (proj2 (create_response_parsed (packet_of [93; 255; 255; 0; 1]))).
    unfold bytes_ok, packet_of. cbn [pk_data].
    apply Forall_app. split; [by apply Forall_replicate|].
    repeat (apply Forall_cons_2; [by vm_compute|]). by apply Forall_nil_2.
Defined.

(** ** The table of gateways *)
Section Table.
Context {T : Type}.
Implicit Types st : gtp T.

(** Adding: the first free slot, or an abort. *)
Lemma add_pgw_first_free st ip port eth sgi_port sgi_eth :
  wf_pgws st →
  ((∃ i, free_slot st i ∧ i < Z.of_nat MAX_PGW_PER_NODE) →
   ∃ i st', gtp_manager_add_pgw st ip port eth sgi_port sgi_eth = Ret st' ∧
     free_slot st i ∧ (∀ j, 0 ≤ j < i → active st j) ∧
     pgw_at st' i = Some (mkPgw port eth sgi_port sgi_eth ip) ∧
     (∀ j, j ≠ i → pgw_at st' j = pgw_at st j) ∧ wf_pgws st' ∧
     st' = set_pgws st (pgw_list st') (current st) (end_ st')) ∧
  ((∀ j, 0 ≤ j < Z.of_nat MAX_PGW_PER_NODE → active st j) →
   gtp_manager_add_pgw st ip port eth sgi_port sgi_eth = Fault AssertFail).
Proof. intros Hwf. split; [by apply add_pgw_spec|by apply add_pgw_full]. Qed.

(** Deleting an address that one slot has. *)
Lemma del_pgw_removes st ip i :
  wf_pgws st → ip ≠ 0 → first_with st ip i →
  (∀ j g, j ≠ i → pgw_at st j = Some g → gtp_pgw_ip g ≠ ip) →
  let st' := gtp_manager_del_pgw st ip in
  wf_pgws st' ∧ gtp_manager_find_pgw st ip = i ∧ gtp_manager_find_pgw st' ip = -1 ∧
  ∀ j, j ≠ i → pgw_at st' j = pgw_at st j.
Proof.
  intros Hwf Hip Hi Huniq st'. destruct (del_pgw_spec st ip Hwf) as [Hwf' Hdel].
  fold st' in Hwf', Hdel. split; [done|]. split.
  { destruct (find_pgw_spec st ip) as [[_ Hno]|Hf]; [|by eapply first_with_inj].
    destruct Hi as [(g & Hg & Hgi) _]. by destruct (Hno _ _ Hg). }
  destruct Hdel as [[Hno _]|(i' & Hi' & _ & (g0 & Hg0 & Hz) & Hsame)].
  { destruct Hi as [(g & Hg & Hgi) _]. by destruct (Hno _ _ Hg). }
  rewrite (first_with_inj _ _ _ _ Hi' Hi) in *. split; [|done].
  destruct (find_pgw_spec st' ip) as [[? _]|[(g & Hg & Hgi) _]]; [done|].
  destruct (decide (gtp_manager_find_pgw st' ip = i)) as [E|E].
  - rewrite E in Hg. congruence.
  - rewrite Hsame in Hg by done. by destruct (Huniq _ _ E Hg).
Qed.

(** C16: while there is a free slot, [gtp_manager_add_pgw] puts the gateway
    into the first one and leaves every other slot and all other state; with
    all 1024 slots in use it aborts the switch.  After [gtp_manager_del_pgw] of
    an address that one slot has, no slot has it: the gateway is not found
    again, and every other slot is kept.  [gtp_manager_get_pgw] hands out the
    first gateway from the place where the last call stopped, and slot 0 when
    there is none: without looking whether the gateway of slot 0 was deleted, in
    which case the caller sends the message to address 0 on port 0.  While no
    gateway is deleted, calls hand out the gateways in turn, for as long as the
    table does not change. *)
Theorem gateway_table_correct st ip port eth sgi_port sgi_eth :
  wf_pgws st →
  ((∃ i, free_slot st i ∧ i < Z.of_nat MAX_PGW_PER_NODE) →
   ∃ i st', gtp_manager_add_pgw st ip port eth sgi_port sgi_eth = Ret st' ∧
     free_slot st i ∧ (∀ j, 0 ≤ j < i → active st j) ∧
     pgw_at st' i = Some (mkPgw port eth sgi_port sgi_eth ip) ∧
     (∀ j, j ≠ i → pgw_at st' j = pgw_at st j) ∧ wf_pgws st' ∧
     st' = set_pgws st (pgw_list st') (current st) (end_ st')) ∧
  ((∀ j, 0 ≤ j < Z.of_nat MAX_PGW_PER_NODE → active st j) →
   gtp_manager_add_pgw st ip port eth sgi_port sgi_eth = Fault AssertFail) ∧
  (∀ i, ip ≠ 0 → first_with st ip i →
   (∀ j g, j ≠ i → pgw_at st j = Some g → gtp_pgw_ip g ≠ ip) →
   let st' := gtp_manager_del_pgw st ip in
   wf_pgws st' ∧ gtp_manager_find_pgw st ip = i ∧ gtp_manager_find_pgw st' ip = -1 ∧
   ∀ j, j ≠ i → pgw_at st' j = pgw_at st j) ∧
  (let '(i, st') := gtp_manager_get_pgw st in
   (current st ≤ i ∧ active st i ∧ (∀ j, current st ≤ j < i → ¬ active st j) ∨
    i = 0 ∧ (∀ j, current st ≤ j → ¬ active st j)) ∧
   st' = set_pgws st (pgw_list st) (i + 1) (end_ st)) ∧
  (∀ n, 0 < end_ st → current st ≤ end_ st → (∀ j, 0 ≤ j < end_ st → active st j) →
   get_pgws n st = (λ k : nat, (current st + Z.of_nat k) mod end_ st) <$> seq 0 n).
Proof.
  intros Hwf. destruct (add_pgw_first_free st ip port eth sgi_port sgi_eth Hwf) as [H1 H2].
  split; [exact H1|]. split; [exact H2|]. split; [intros i; by apply del_pgw_removes|].
  split; [by apply get_pgw_spec|]. intros n. by apply get_pgws_round_robin.
Qed.

End Table.

Module Tbl.
(** The two gateways of [Ex.up], in slots 0 and 1. *)
Lemma up_slots :
  pgw_at Ex.up 0 = Some (mkPgw 2 0x020000000001 3 0x020000000002 0x0100000a) ∧
  pgw_at Ex.up 1 = Some (mkPgw 4 0x020000000003 5 0x020000000004 0x0200000a).
Proof. vm_compute. done. Qed.

Lemma up_active j : 0 ≤ j < end_ Ex.up → active Ex.up j.
Proof.
  destruct Run.up_facts as (_ & _ & _ & _ & _ & He & _). rewrite He. intros Hj.
  destruct up_slots as [H0 H1]. assert (j = 0 ∨ j = 1) as [->| ->] by lia; eexists;
    (split; [eassumption|discriminate]).
Qed.

(** A table with every slot in use. *)
Definition full : gtp cmap :=
  set_pgws Ex.boot (replicate MAX_PGW_PER_NODE (mkPgw 2 1 3 2 0x0100000a)) 0 1024.

Lemma full_wf : wf_pgws full.
Proof.
  split; [apply length_replicate|change (end_ full) with 1024|change (current full) with 0];
    unfold MAX_PGW_PER_NODE; lia.
Qed.
Lemma full_active j : 0 ≤ j < Z.of_nat MAX_PGW_PER_NODE → active full j.
Proof.
  intros Hj. exists (mkPgw 2 1 3 2 0x0100000a). split; [|done].
  unfold pgw_at. change (end_ full) with 1024. unfold MAX_PGW_PER_NODE in Hj.
  rewrite decide_True by lia. apply lookup_replicate. split; [done|unfold MAX_PGW_PER_NODE; lia].
Qed.
End Tbl.

(** [Ex.up] after two calls, without the gateway of slot 0. *)
Definition Ex_deleted : gtp cmap :=
  gtp_manager_del_pgw (gtp_manager_get_pgw (gtp_manager_get_pgw Ex.up).2).2 0x0100000a.

Lemma Ex_deleted_facts :
  current Ex_deleted = 2 ∧ end_ Ex_deleted = 2 ∧
  pgw_at Ex_deleted 0 = Some (mkPgw 0 0x020000000001 0 0x020000000002 0) ∧
  pgw_at Ex_deleted 1 = Some (mkPgw 4 0x020000000003 5 0x020000000004 0x0200000a).
Proof. vm_compute. done. Qed.

Lemma Ex_deleted_wf : wf_pgws Ex_deleted.
Proof. apply del_pgw_spec, get_pgw_wf, get_pgw_wf, (gr_pgws _ _ _ Ex.up_rep). Qed.

Lemma gateway_table_correct_witness :
  (∃ i st', gtp_manager_add_pgw Ex.up 0x0300000a 6 1 7 2 = Ret st' ∧
    free_slot Ex.up i ∧ (∀ j, 0 ≤ j < i → active Ex.up j) ∧
    pgw_at st' i = Some (mkPgw 6 1 7 2 0x0300000a) ∧
    (∀ j, j ≠ i → pgw_at st' j = pgw_at Ex.up j) ∧ wf_pgws st' ∧
    st' = set_pgws Ex.up (pgw_list st') (current Ex.up) (end_ st')) ∧
  gtp_manager_add_pgw Tbl.full 0x0300000a 6 1 7 2 = Fault AssertFail ∧
  gtp_manager_find_pgw (gtp_manager_del_pgw Ex.up 0x0100000a) 0x0100000a = -1 ∧
  get_pgws 5 Ex.up = (λ k : nat, (current Ex.up + Z.of_nat k) mod end_ Ex.up) <$> seq 0 5 ∧
  active Ex_deleted 1 ∧ (gtp_manager_get_pgw Ex_deleted).1 = 0 ∧ ¬ active Ex_deleted 0.
Proof.
  destruct Run.up_facts as (_ & _ & _ & _ & _ & He & Hc & _).
  destruct Ex_deleted_facts as (Dc & De & D0 & D1). split_and!.
  - apply (proj1 (gateway_table_correct Ex.up 0x0300000a 6 1 7 2 (gr_pgws _ _ _ Ex.up_rep))).
    exists (end_ Ex.up). split; [right; split; [reflexivity|apply Tbl.up_active]|].
    rewrite He. unfold MAX_PGW_PER_NODE. lia.
  - apply (proj1 (proj2 (gateway_table_correct Tbl.full 0x0300000a 6 1 7 2 Tbl.full_wf))), Tbl.full_active.
  - destruct Tbl.up_slots as [H0 H1].
    destruct (proj1 (proj2 (proj2 (gateway_table_correct Ex.up 0x0100000a 6 1 7 2
      (gr_pgws _ _ _ Ex.up_rep)))) 0) as (_ & _ & Hf & _); [done| | |exact Hf].
    + split; [eexists; split; [exact H0|reflexivity]|]. intros j g Hj Hg. apply pgw_at_lt in Hg. lia.
    + intros j g Hj Hg. pose proof (pgw_at_lt _ _ _ Hg). assert (j = 1) as -> by lia.
      rewrite H1 in Hg. injection Hg as <-. discriminate.
  - apply (gateway_table_correct Ex.up 0 0 0 0 0); [apply (gr_pgws _ _ _ Ex.up_rep)|rewrite He; lia
      |rewrite He, Hc; lia|apply Tbl.up_active].
  - eexists. split; [exact D1|discriminate].
  - destruct (gateway_table_correct Ex_deleted 0 0 0 0 0 Ex_deleted_wf) as (_ & _ & _ & H & _).
    destruct (gtp_manager_get_pgw Ex_deleted) as [i st']. cbn [fst].
    destruct H as [[(Hi & (g & Hg & _) & _)|[-> _]] _]; [|reflexivity].
    apply pgw_at_lt in Hg. rewrite Dc in Hi. rewrite De in Hg. lia.
  - intros (g & Hg & Hne). rewrite D0 in Hg. injection Hg as <-. apply Hne. reflexivity.
Defined.
