(* ===== verification/GtpFaults.v ===== *)
(** * ofproto/gtp-manager.c: packets that crash the switch or leak memory

    A packet can make the manager dereference a null pointer, divide by zero,
    or read an uninitialised variable.  Each theorem gives the condition under
    which it does. *)
From Stdlib Require Import ZArith Lia.
From stdpp Require Import base list gmap numbers option.
From S2P Require Import Prelude Hash Cmap CmapSlots CmapRefine CmapReplace MapIface GtpWire GtpWireProofs GtpManager GtpPgw GtpMaps GtpSessions GtpDelete GtpHandlers GtpInit GtpPackets GtpSpec GtpRuns.
Open Scope Z_scope.

Section Faults.
Context `{HF : HashFns} `{ML : MapLaws T}.
Implicit Types st : gtp T.






(** a datagram of the GTP-C port that is not version 2 leaves a message
    header allocated for good; one of the GTP-U port that is not version 1
    leaves the heap as it was. *)
Theorem wrong_version_leaks fuel st x b off v f l :
  brk_ok st → udp_payload b off ((v * 32 + f) :: l) → 0 ≤ v < 8 → 0 ≤ f < 32 →
  (maybe_gtpc_message (x_flow x) = true → v ≠ 2 →
     returns (handle_gtp fuel st x (Some b)) (λ '(st', x'),
       x' = x ∧ heap st' = <[brk st := OGtpc None]> (heap st) ∧
       size (heap st') = S (size (heap st)))) ∧
  (maybe_gtpc_message (x_flow x) = false → maybe_gtpu_message (x_flow x) = true → v ≠ 1 →
     returns (handle_gtp fuel st x (Some b)) (λ '(st', x'), x' = x ∧ heap st' = heap st)).
Proof.
  intros Hb Hudp Hv Hf. pose proof (udp_payload_at _ _ _ Hudp) as Hoff.
  destruct Hudp as [Hseg _]. pose proof (load8_seg _ _ _ _ Hseg) as Hflag.
  pose proof (brk_ok_fresh _ Hb) as Hfresh. split.
  - intros Hc Hv2. unfold handle_gtp. rewrite Hc. unfold parse_gtpc_msg_header, gtpc_header_of.
    cbn [xmalloc]. rewrite Hoff. cbn [deref obind]. rewrite Hflag. cbn [obind].
    rewrite flag_version, (proj2 (Z.eqb_neq _ _) Hv2) by done. cbn [negb].
    eexists. split; [done|]. simpl. split_and!; [done..|].
    by rewrite map_size_insert_None.
  - intros Hc Hu Hv1. unfold handle_gtp. rewrite Hc, Hu. unfold parse_gtpu_message, gtpu_header_of.
    cbn [xmalloc]. rewrite Hoff. cbn [deref obind]. rewrite Hflag. cbn [obind].
    rewrite flag_version, (proj2 (Z.eqb_neq _ _) Hv1) by done. cbn [negb].
    unfold free. simpl heap. rewrite lookup_insert_eq. cbn [obind].
    eexists. split; [done|]. simpl. split; [done|]. by apply delete_insert_id.
Qed.
End Faults.


Lemma wrong_version_leaks_witness :
  returns (handle_gtp 3 Ex.cfg Ex.from_pgw (Some (packet_of [1 * 32 + 16; 1]))) (λ '(st', x'),
    x' = Ex.from_pgw ∧ heap st' = <[brk Ex.cfg := OGtpc None]> (heap Ex.cfg) ∧
    size (heap st') = S (size (heap Ex.cfg))).
Proof.
  eapply (wrong_version_leaks 3 Ex.cfg Ex.from_pgw (packet_of [1 * 32 + 16; 1]) 42 1 16 [1]);
    [apply (gr_brk _ _ _ Ex.cfg_rep)|apply packet_of_udp; simpl; lia|lia|lia|reflexivity|discriminate].
Defined.

(** ** Two sessions that share a TEID *)

Module Collide.
(** The SGW allocates 0x22 for its end of the first session (the TEID of the
    response's header), the gateway 0x22 for its end of the second (the F-TEID
    in the response's body).  Both end up in the same map. *)
Definition attach : list event :=
  [ESetParams 0 2 1 0; EAddPgw 0x0200000a 4 0x020000000003 5 0x020000000004;
   EGtp Ex.from_pgw (Run.create_packet 0x22 0x44 0x55 5);
   EGtp Ex.from_pgw (Run.create_packet 0x33 0x22 0x66 6)].
(** The first session goes; then the second. *)
Definition detach_first : list event := attach ++ [EGtp Ex.from_pgw (Run.delete_packet 0x22)].
Definition detach_both : list event := detach_first ++ [EGtp Ex.from_pgw (Run.delete_packet 0x33)].
Definition user (teid : Z) : event := EGtp Ex.gtpu_from_sgw (gtpu_packet 255 teid [69; 0; 0; 20]).

(** How many packets the last event sent. *)
Definition sent (r : outcome (gtp cmap * list xlate)) : option nat :=
  match r with Ret (_, xs) => (λ x, length (x_out x)) <$> list.last xs | _ => None end.
End Collide.

(** A TEID that a gateway allocates for one session and the SGW for an
    older one is enough to mix them up: the delete session response of the
    older session removes entries of the newer one, whose user packets are
    dropped from then on while those of the deleted session are still
    forwarded, and the delete session response of the newer session makes the
    switch read an uninitialised pointer. *)
Lemma shared_teid_mixes_sessions :
  let run es := boot_and_run (T := cmap) 8 12345 es in
  Collide.sent (run (Collide.attach ++ [Collide.user 0x66])) = Some 1%nat ∧
  Collide.sent (run (Collide.detach_first ++ [Collide.user 0x66])) = Some 0%nat ∧
  Collide.sent (run (Collide.detach_first ++ [Collide.user 0x55])) = Some 1%nat ∧
  run Collide.detach_both = Fault UninitRead.
Proof. vm_compute. repeat split. Qed.
