(* ===== verification/CmapProps.v ===== *)
(** * lib/cmap.c: what its callers may rely on

    The theorems about the concurrent map for one writer and no concurrent
    reader, each with a run that satisfies its hypotheses. *)
From Stdlib Require Import ZArith Lia.
From stdpp Require Import base list gmap numbers option.
From S2P Require Import Prelude Hash Cmap CmapSlots CmapTable CmapBfs CmapRefine CmapReplace CmapIter CmapIterProofs.
Open Scope Z_scope.

(** ** A run to start from *)

Fixpoint insert_all `{HashFns} (seed : Z) (cm : cmap) (l : list (Z * positive)) :
    outcome (Z * cmap) :=
  match l with
  | [] => Ret (seed, cm)
  | (h, p) :: l =>
      let* (seed, cm, _) := cmap_insert 8 seed cm p h in
      insert_all seed cm l
  end.

Fixpoint insert_model (A : gmap Z (list positive)) (l : list (Z * positive)) :
    gmap Z (list positive) :=
  match l with
  | [] => A
  | (h, p) :: l => insert_model (<[h := p :: default [] (A !! h)]> A) l
  end.

Lemma total_push A h p : total (<[h := p :: default [] (A !! h)]> A) = S (total A).
Proof.
  destruct (A !! h) as [l|] eqn:E; simpl.
  - pose proof (total_insert A h l (p :: l) E). simpl in *. lia.
  - by rewrite total_insert_new.
Qed.

Lemma fresh_push A h p q : fresh_node A q → q ≠ p →
  fresh_node (<[h := p :: default [] (A !! h)]> A) q.
Proof.
  intros Hf Hne h' l Hl Hq. apply lookup_insert_Some in Hl as [[<- <-]|[_ Hl]]; [|by eapply Hf].
  apply elem_of_cons in Hq as [?|Hq]; [done|].
  destruct (A !! h) as [l|] eqn:E; [by eapply Hf|by apply not_elem_of_nil in Hq].
Qed.

Lemma insert_all_safe `{HashFns} seed cm A l :
  cmap_rep cm A → NoDup l.*2 → (∀ p, p ∈ l.*2 → fresh_node A p) →
  Z.of_nat (total A + length l) < 2 ^ 30 →
  safe (insert_all seed cm l) (λ '(_, cm'), cmap_rep cm' (insert_model A l)).
Proof.
  revert seed cm A. induction l as [|[h p] l IH]; intros seed cm A HR Hnd Hf Hb; [done|].
  cbn [insert_all insert_model]. rewrite fmap_cons in Hnd. apply list.NoDup_cons in Hnd as [Hp Hnd].
  simpl in Hp, Hb. eapply safe_bind.
  - apply cmap_insert_safe; [done|apply Hf; left|lia].
  - intros [[s cm'] n] [HR' _]. apply IH; [done|done| |].
    + intros q Hq. apply fresh_push; [apply Hf; by right|]. intros ->. done.
    + rewrite total_push. lia.
Qed.

Module ExC.
Definition empty : cmap := match cmap_init 12345 with Ret (_, cm) => cm | _ => mkCmap (mkImpl 0 0 0 0 0 []) ∅ end.
(** [n] nodes with distinct hashes. *)
Definition entries (n : nat) : list (Z * positive) :=
  (λ i, (Z.of_nat i * 1000003, Pos.of_succ_nat i)) <$> seq 0 n.
Definition filled (n : nat) : cmap :=
  match insert_all 54321 empty (entries n) with Ret (_, cm) => cm | _ => empty end.
End ExC.


Module Runs.
Lemma empty_rep : cmap_rep ExC.empty ∅.
Proof.
  destruct (cmap_init_returns 12345) as ([s cm] & Heq & HR & _). unfold ExC.empty. by rewrite Heq.
Qed.

Lemma filled_rep n : (n < 100)%nat →
  (match insert_all 54321 ExC.empty (ExC.entries n) with Ret _ => true | _ => false end) = true →
  cmap_rep (ExC.filled n) (insert_model ∅ (ExC.entries n)).
Proof.
  intros Hn Hret.
  assert ((ExC.entries n).*2 = Pos.of_succ_nat <$> seq 0 n) as H2.
  { unfold ExC.entries. rewrite <-list_fmap_compose. apply list_fmap_ext. done. }
  assert (safe (insert_all 54321 ExC.empty (ExC.entries n))
    (λ '(_, cm'), cmap_rep cm' (insert_model ∅ (ExC.entries n)))) as Hs.
  { apply insert_all_safe; [apply empty_rep| | |].
    - rewrite H2. apply (NoDup_fmap_2 Pos.of_succ_nat), NoDup_ListNoDup, seq_NoDup.
    - intros p _ h l Hl. by rewrite lookup_empty in Hl.
    - rewrite total_empty. unfold ExC.entries. rewrite length_fmap, length_seq. lia. }
  unfold ExC.filled. destruct (insert_all _ _ _) as [[s cm]| |]; done.
Qed.

Lemma filled16_rep : cmap_rep (ExC.filled 16) (insert_model ∅ (ExC.entries 16)).
Proof. apply filled_rep; [lia|vm_compute; reflexivity]. Qed.
Lemma filled12_rep : cmap_rep (ExC.filled 12) (insert_model ∅ (ExC.entries 12)).
Proof. apply filled_rep; [lia|vm_compute; reflexivity]. Qed.

(** What the runs below need to know of the table with 12 nodes. *)
Lemma filled12_facts :
  im_n (impl (ExC.filled 12)) = 12 ∧ max_n (impl (ExC.filled 12)) = 16 ∧
  min_n (impl (ExC.filled 12)) = 3 ∧ mask (impl (ExC.filled 12)) = 2 ^ 2 - 1 ∧
  insert_model ∅ (ExC.entries 12) !! 3000009 = Some ([] ++ 4%positive :: []) ∧
  total (insert_model ∅ (ExC.entries 12)) = 12%nat ∧
  is_Some (cmap_find_empty_slot_protected
    (bucket_at (impl (ExC.filled 12)) (cand1 (impl (ExC.filled 12)) 77))).
Proof. vm_compute. repeat split. by eexists. Qed.

Lemma filled12_fresh : fresh_node (insert_model ∅ (ExC.entries 12)) 50%positive.
Proof.
  intros h l Hl Hin.
  assert (map_Forall (λ _ (l : list positive), 50%positive ∉ l) (insert_model ∅ (ExC.entries 12))) as Hall.
  { apply (bool_decide_unpack _). vm_compute. done. }
  by apply (Hall h l Hl).
Qed.
End Runs.

(** ** Insertion *)

(** C10: inserting a node that is in none of the chains puts it in front of
    the chain of its hash and counts it, whatever the table has to do for it:
    reuse a stale slot, move entries along a breadth-first path, rehash with
    another basis or double the number of buckets.  No assertion fails and no
    wild pointer is followed.  When the table is not overloaded and one of the
    two buckets of the hash has room, the call returns after one round and
    draws no random number. *)
Theorem cmap_insert_correct `{HF : HashFns} fuel seed cm A node h :
  cmap_rep cm A → fresh_node A node → Z.of_nat (total A) < 2 ^ 30 →
  safe (cmap_insert fuel seed cm node h) (λ '(_, cm', n'),
    cmap_rep cm' (<[h := node :: default [] (A !! h)]> A) ∧
    n' = Z.of_nat (total A) + 1) ∧
  (im_n (impl cm) < max_n (impl cm) → has_room (impl cm) h →
   returns (cmap_insert (S fuel) seed cm node h) (λ '(seed', cm', n'),
     seed' = seed ∧
     cmap_rep cm' (<[h := node :: default [] (A !! h)]> A) ∧
     n' = Z.of_nat (total A) + 1)).
Proof.
  intros HR Hf Hb. split; [by apply cmap_insert_safe|].
  intros Hn Hroom. by apply cmap_insert_returns.
Qed.

Lemma cmap_insert_correct_witness :
  safe (cmap_insert 8 1 (ExC.filled 12) 50 77) (λ '(_, cm', n'),
    cmap_rep cm' (<[77 := 50%positive :: default [] (insert_model ∅ (ExC.entries 12) !! 77)]>
      (insert_model ∅ (ExC.entries 12))) ∧
    n' = Z.of_nat (total (insert_model ∅ (ExC.entries 12))) + 1) ∧
  returns (cmap_insert 9 1 (ExC.filled 12) 50 77) (λ '(seed', cm', n'),
    seed' = 1 ∧
    cmap_rep cm' (<[77 := 50%positive :: default [] (insert_model ∅ (ExC.entries 12) !! 77)]>
      (insert_model ∅ (ExC.entries 12))) ∧
    n' = Z.of_nat (total (insert_model ∅ (ExC.entries 12))) + 1).
Proof.
  destruct Runs.filled12_facts as (Hn & Hm & _ & _ & _ & Ht & He).
  destruct (cmap_insert_correct 8 1 (ExC.filled 12) (insert_model ∅ (ExC.entries 12)) 50 77)
    as [Hsafe Hret]; [apply Runs.filled12_rep|apply Runs.filled12_fresh|rewrite Ht; lia|].
  split; [exact Hsafe|]. apply Hret; [rewrite Hn, Hm; lia|]. right. right. left. exact He.
Defined.

(** ** Lookup *)

(** A lookup returns the newest node of the hash, and the chain from it on is
    the chain of the hash. *)
Lemma find_chain `{HF : HashFns} cm A h : cmap_rep cm A →
  cmap_find cm h = Ret (A !! h ≫= head) ∧ chain (nx cm) (A !! h ≫= head) (default [] (A !! h)).
Proof.
  intros HR. split; [by apply cmap_find_rep|].
  destruct (A !! h) as [l|] eqn:E; [|done]. cbn [mbind option_bind default from_option id].
  by destruct (rep_chain _ _ HR _ _ E) as [_ Hc].
Qed.
(** The lookup for writers, [cmap_find_protected], does not agree with it:
    there is a map in which it misses a node that the other one finds, because
    it derives the second bucket from the client's hash instead of the rehashed
    one. *)
Lemma find_protected_misses : ∃ cm A h p, cmap_rep cm A ∧ A !! h = Some [p] ∧
  cmap_find cm h = Ret (Some p) ∧ cmap_find_protected cm h = None.
Proof.
  exists (ExC.filled 16), (insert_model ∅ (ExC.entries 16)), 14000042, 15%positive.
  split; [apply Runs.filled16_rep|]. vm_compute. done.
Qed.

(** ** Replacement and removal *)

(** C11: removing a node takes it out of its chain, counts it off, and shrinks
    a sparse table without losing an entry or failing the assertion that the
    entries fit.  From a table that stays above its lower load limit the call
    returns without rehashing.  Replacing a node by a fresh one always returns:
    it gives the new node the place of the old one in the chain and leaves the
    rest of the map, and the count, alone. *)
Theorem cmap_remove_correct `{HF : HashFns} fuel seed cm A h pre node post :
  cmap_rep cm A → A !! h = Some (pre ++ node :: post) →
  safe (cmap_remove fuel seed cm node h) (λ '(_, cm', n'),
    cmap_rep cm' (set_chain A h (pre ++ post)) ∧ n' = Z.of_nat (total A) - 1) ∧
  (min_n (impl cm) < im_n (impl cm) →
   returns (cmap_remove fuel seed cm node h) (λ '(seed', cm', n'),
     seed' = seed ∧ cmap_rep cm' (set_chain A h (pre ++ post)) ∧
     n' = Z.of_nat (total A) - 1)) ∧
  (∀ p, fresh_node A p →
   returns (cmap_replace fuel seed cm node (Some p) h) (λ '(seed', cm', n'),
     seed' = seed ∧ cmap_rep cm' (<[h := pre ++ p :: post]> A) ∧
     n' = Z.of_nat (total A))).
Proof.
  intros HR Hl. split_and!.
  - by apply cmap_remove_safe.
  - intros Hn. by apply cmap_remove_returns.
  - intros p Hp. by apply cmap_replace_returns.
Qed.

Lemma cmap_remove_correct_witness :
  safe (cmap_remove 8 1 (ExC.filled 12) 4 3000009) (λ '(_, cm', n'),
    cmap_rep cm' (set_chain (insert_model ∅ (ExC.entries 12)) 3000009 ([] ++ [])) ∧
    n' = Z.of_nat (total (insert_model ∅ (ExC.entries 12))) - 1) ∧
  returns (cmap_remove 8 1 (ExC.filled 12) 4 3000009) (λ '(seed', cm', n'),
    seed' = 1 ∧ cmap_rep cm' (set_chain (insert_model ∅ (ExC.entries 12)) 3000009 ([] ++ [])) ∧
    n' = Z.of_nat (total (insert_model ∅ (ExC.entries 12))) - 1) ∧
  returns (cmap_replace 8 1 (ExC.filled 12) 4 (Some 50%positive) 3000009) (λ '(seed', cm', n'),
    seed' = 1 ∧ cmap_rep cm' (<[3000009 := [] ++ 50%positive :: []]> (insert_model ∅ (ExC.entries 12))) ∧
    n' = Z.of_nat (total (insert_model ∅ (ExC.entries 12)))).
Proof.
  destruct Runs.filled12_facts as (Hn & _ & Hmin & _ & Hchain & _).
  destruct (cmap_remove_correct 8 1 (ExC.filled 12) (insert_model ∅ (ExC.entries 12)) 3000009
    [] 4%positive []) as (Hsafe & Hret & Hrep); [apply Runs.filled12_rep|exact Hchain|].
  split_and!; [exact Hsafe| |apply Hrep, Runs.filled12_fresh]. apply Hret. rewrite Hn, Hmin. lia.
Defined.

(** ** Iteration and batch lookup *)

(** C13: going through the map with a cursor ([CMAP_FOR_EACH]) and calling
    [cmap_next_position] from position 0 until it returns null both end and
    give the same nodes, each node of the map exactly once; the last call puts
    the position back to 0. *)
Theorem cmap_iteration_complete `{HF : HashFns} cm A :
  cmap_rep cm A → Z.of_nat (size (nx cm)) < 2 ^ 31 →
  ∃ l, CMAP_FOR_EACH (length l) cm = Ret l ∧
    position_loop (S (length l)) cm (mkPosition 0 0 0) = Ret (l, mkPosition 0 0 0) ∧
    NoDup l ∧ ∀ p, p ∈ l ↔ ∃ h c, A !! h = Some c ∧ p ∈ c.
Proof.
  intros HR Hsz. destruct (iterate_rep cm A HR Hsz) as [H1 H2].
  exists (concat (rep_chains cm A)). split_and!; [exact H1|exact H2|by apply rep_chains_NoDup|].
  intros p. by apply rep_chains_nodes.
Qed.

Lemma cmap_iteration_complete_witness :
  ∃ l, CMAP_FOR_EACH (length l) (ExC.filled 16) = Ret l ∧
    position_loop (S (length l)) (ExC.filled 16) (mkPosition 0 0 0) = Ret (l, mkPosition 0 0 0) ∧
    NoDup l ∧ ∀ p, p ∈ l ↔ ∃ h c, insert_model ∅ (ExC.entries 16) !! h = Some c ∧ p ∈ c.
Proof.
  apply cmap_iteration_complete; [apply Runs.filled16_rep|vm_compute; reflexivity].
Defined.

(** C12: [cmap_find] returns the newest node of the hash, or null when there
    is none, and the chain from that node on is the chain of the hash.
    [cmap_find_batch] is as many single lookups as the bitmap it is given has
    ones.  It returns, never reads an element of its local arrays that it has
    not written, keeps the bit of a hash if and only if [cmap_find] finds a node
    for it, stores that node in the caller's array, and leaves the other
    elements of the array alone. *)
Theorem cmap_find_correct `{HF : HashFns} cm A :
  cmap_rep cm A →
  (∀ h, cmap_find cm h = Ret (A !! h ≫= head) ∧ chain (nx cm) (A !! h ≫= head) (default [] (A !! h))) ∧
  ∀ map hashes nodes, (∀ i, i ∈ ones map → is_Some (hashes !! Z.to_nat i)) →
  returns (cmap_find_batch cm map hashes nodes) (λ '(result, nodes'), ∀ i, 0 ≤ i < 64 →
    if Z.testbit map i then
      ∃ h node, hashes !! Z.to_nat i = Some h ∧ cmap_find cm h = Ret node ∧
        Z.testbit result i = bool_decide (is_Some node) ∧
        nodes' !! i = match node with Some p => Some p | None => nodes !! i end
    else Z.testbit result i = false ∧ nodes' !! i = nodes !! i).
Proof.
  intros HR. split; [intros h; by apply find_chain|]. intros map hashes nodes Hin.
  destruct (find_batch_rep cm A map hashes nodes HR Hin) as ([r ns] & Heq & Hr).
  exists (r, ns). split; [exact Heq|]. intros i Hi. destruct (Hr i Hi) as [H1 H2].
  unfold batch_found in H1, H2. destruct (Z.testbit map i) eqn:Eb; [|by split].
  destruct (Hin i) as [h Hh]; [by apply elem_of_ones|]. rewrite Hh in H1, H2.
  exists h, (A !! h ≫= head). split_and!; [exact Hh|by apply cmap_find_rep|exact H1|exact H2].
Qed.

Lemma cmap_find_correct_witness :
  returns (cmap_find_batch (ExC.filled 16) 5 [14000042; 3; 77] ∅) (λ '(result, nodes'),
    ∀ i, 0 ≤ i < 64 →
    if Z.testbit 5 i then
      ∃ h node, [14000042; 3; 77] !! Z.to_nat i = Some h ∧ cmap_find (ExC.filled 16) h = Ret node ∧
        Z.testbit result i = bool_decide (is_Some node) ∧
        nodes' !! i = match node with Some p => Some p | None => (∅ : gmap Z positive) !! i end
    else Z.testbit result i = false ∧ nodes' !! i = (∅ : gmap Z positive) !! i).
Proof.
  apply (proj2 (cmap_find_correct _ _ Runs.filled16_rep)).
  change (ones 5) with [0; 2]. intros i Hi. rewrite !elem_of_cons in Hi.
  destruct Hi as [->|[->|Hi]]; [by eexists..|by apply not_elem_of_nil in Hi].
Defined.
