(* ===== verification/OfpProps.v ===== *)
(** * lib/ofp-actions.c and ofproto/ofproto.c: configuring the GTP manager

    The path of a configuration: actions are encoded by a controller, decoded
    by the switch and, as part of a flow mod, applied to the manager. *)
From Stdlib Require Import ZArith Lia.
From stdpp Require Import base list gmap numbers option.
From S2P Require Import Prelude Hash Cmap MapIface GtpWire GtpManager GtpPgw GtpMaps GtpSessions GtpInit GtpRuns OfpActions OfpActionsProofs FlowMod.
Open Scope Z_scope.

Module ExO.
(** What a controller sends to register the gateway 10.0.0.3. *)
Definition add : list ofpact :=
  [OPERATE_GTP 1; GTP_PGW_IP 0x0300000a; GTP_PGW_PORT 6; GTP_PGW_ETH 0x020000000005;
   PGW_SGI_PORT 7; PGW_SGI_ETH 0x020000000006].
Lemma add_wf : Forall wf_gtp add.
Proof. repeat (apply Forall_cons_2; [simpl; lia|]). by apply Forall_nil_2. Qed.
(** An entry of another action, with the bytes of its type. *)
Definition output_inst : ofpact_raw_instance := mkInst 0 0 1 (RAW_OTHER 0) 8 8 4 2.
Definition decode_output (n version arg : Z) (action : list Z) : ofperr + ofpact := inr (OFPACT_OTHER n).
Definition encode_output (n version : Z) : list Z := [0; 0; 0; 8; 0; 1; 0; 0].
End ExO.

(** ** The wire *)
Section Wire.
Variable other_instances : list ofpact_raw_instance.
Variable decode_other : Z → Z → Z → list Z → ofperr + ofpact.
Variable encode_other : Z → Z → list Z.

(** C17: for OpenFlow 1.0 to 1.4, every list of GTP actions with arguments
    that fit their types can be encoded, and decoding the bytes yields the
    same actions, whatever the other actions of the table are. *)
Theorem ofpacts_roundtrip v l : 1 ≤ v ≤ 5 → Forall wf_gtp l →
  returns (ofpacts_put_openflow_actions other_instances encode_other l v) (λ bs,
    ofpacts_decode other_instances decode_other (length bs) bs v = Ret (inr (with_raw v <$> l))).
Proof.
  intros Hv Hwf. destruct (encode_list other_instances encode_other v l) as (bs & Hbs & Hlen);
    [lia|done|]. exists bs. split; [done|]. eapply decode_encode; [done|done|exact Hbs|lia].
Qed.

(** The numbers of the GTP actions do not fit OpenFlow.  In an OpenFlow
    1.5 message no action decodes to a GTP action, although the encoders emit
    them for that version; and [ofpact_bitmap_from_openflow] shifts a 32-bit 1
    by 32 or more, which C does not define, for every bitmap and every
    version, because the numbers 32 to 40 were given to GTP actions. *)
Lemma gtp_action_numbers_misfit buf e t arg rest bitmap version :
  (∀ i, i ∈ other_instances → ∃ n, i_raw i = RAW_OTHER n) →
  ofpact_pull_raw other_instances 6 buf ≠ Ret (inr (RAW_GTP e t, arg, rest)) ∧
  returns (encode_ofpact other_instances encode_other (OPERATE_GTP 1) 6) (λ bs,
    bs = [0; 29; 0; 8; 1; 0; 0; 0]) ∧
  ofpact_bitmap_from_openflow bitmap version = Fault ShiftRange.
Proof.
  intros Hoth. split_and!; [by apply no_gtp_in_of15| |apply bitmap_from_faults].
  eexists. split; [|reflexivity]. vm_compute. reflexivity.
Qed.
End Wire.

Lemma ofpacts_roundtrip_witness :
  returns (ofpacts_put_openflow_actions [ExO.output_inst] ExO.encode_output ExO.add 4) (λ bs,
    ofpacts_decode [ExO.output_inst] ExO.decode_output (length bs) bs 4 =
      Ret (inr (with_raw 4 <$> ExO.add))).
Proof. apply ofpacts_roundtrip; [lia|apply ExO.add_wf]. Defined.

Lemma gtp_action_numbers_misfit_witness :
  ofpact_pull_raw [ExO.output_inst] 6 [0; 29; 0; 8; 1; 0; 0; 0] ≠
    Ret (inr (RAW_GTP E12 T_OPERATE_GTP, 1, [])) ∧
  returns (encode_ofpact [ExO.output_inst] ExO.encode_output (OPERATE_GTP 1) 6) (λ bs,
    bs = [0; 29; 0; 8; 1; 0; 0; 0]) ∧
  ofpact_bitmap_from_openflow 3 1 = Fault ShiftRange.
Proof.
  apply gtp_action_numbers_misfit. intros i Hi. exists 0. apply list_elem_of_singleton in Hi. by rewrite Hi.
Defined.

(** ** Flow mods *)
Section FlowMods.
Context {T FT : Type}.
Implicit Types st : gtp T.
Variable ofproto_check_ofpacts : list ofpact → Z.
Variable handle_flow_mod__ : FT → list ofpact → Z * FT.



End FlowMods.

