(* ===== verification/PacketProps.v ===== *)
(** * lib/packets.c, lib/csum.c and lib/crc32c.c: what rewriting a packet does

    The theorems about checksums and about the functions that set header
    fields, each with a packet that satisfies its hypotheses. *)
From Stdlib Require Import ZArith Lia.
From stdpp Require Import base list numbers option sets.
From S2P Require Import Prelude GtpWire GtpWireProofs Csum CsumProofs Packets PacketsProofs PacketsIpv4 PacketsL4 PacketsIpv6 PacketsNd Tags TagsProofs.
Open Scope Z_scope.

(** ** Packets to start from *)

Module ExP.
(** A UDP datagram from 10.0.0.1 to 10.0.0.2 in an Ethernet frame. *)
Definition udp : ip_packet := mkIpPacket (mkPacket
  [0; 0; 0; 0; 0; 0; 0; 0; 0; 0; 0; 0; 8; 0; 69; 0; 0; 32; 0; 1; 0; 0; 64; 17; 102; 202; 10; 0; 0; 1;
   10; 0; 0; 2; 8; 104; 8; 104; 0; 12; 214; 253; 1; 2; 3; 4] 0 34) 14.
(** A neighbor solicitation with a source link-layer address, and one with
    another option. *)
Definition nd (opt csum0 csum1 : Z) : ip_packet := mkIpPacket (mkPacket
  [0; 0; 0; 0; 0; 0; 0; 0; 0; 0; 0; 0; 134; 221; 96; 0; 0; 0; 0; 32; 58; 255; 254; 128; 0; 0; 0; 0; 0;
   0; 0; 0; 0; 0; 0; 0; 0; 1; 255; 2; 0; 0; 0; 0; 0; 0; 0; 0; 0; 0; 0; 0; 0; 2; 135; 0; csum0; csum1; 0;
   0; 0; 0; 254; 128; 0; 0; 0; 0; 0; 0; 0; 0; 0; 0; 0; 0; 0; 9; opt; 1; 2; 0; 0; 0; 0; 7] 0 54) 14.
(** A UDP datagram behind a routing header with a segment left. *)
Definition routed : ip_packet := mkIpPacket (mkPacket
  [0; 0; 0; 0; 0; 0; 0; 0; 0; 0; 0; 0; 134; 221; 96; 0; 0; 0; 0; 20; 43; 255; 254; 128; 0; 0; 0; 0; 0;
   0; 0; 0; 0; 0; 0; 0; 0; 1; 255; 2; 0; 0; 0; 0; 0; 0; 0; 0; 0; 0; 0; 0; 0; 2; 17; 0; 0; 1; 0; 0; 0; 0;
   8; 104; 8; 104; 0; 12; 237; 121; 1; 2; 3; 4] 0 62) 14.
Definition new6 : list Z := [0x20; 0x01; 0x0d; 0xb8].
End ExP.

Module ExPFacts.
Lemma udp_at : ipv4_at 14 20 34 12 ExP.udp.
Proof. split; [check_bytes|..]; vm_compute; by repeat split. Qed.
Lemma udp_checksums :
  header_ok 14 20 ExP.udp ∧ csum_at 14 34 12 ExP.udp ≠ None ∧ transport_ok 14 34 12 ExP.udp.
Proof.
  split_and!; [vm_compute; reflexivity|vm_compute; discriminate|].
  exists 8212. split; vm_compute; reflexivity.
Qed.
Lemma routed_at : ipv6_at 14 62 12 ExP.routed.
Proof. split; [check_bytes|..]; vm_compute; by repeat split. Qed.
Lemma nd_bad_at : ipv6_at 14 54 32 (ExP.nd 1 63 198).
Proof. split; [check_bytes|..]; vm_compute; by repeat split. Qed.
Lemma nd_nonce_nd : nd_at 54 32 (ExP.nd 14 108 140).
Proof. split; [check_bytes|..]; vm_compute; by repeat split. Qed.
Lemma new6_in6 : in6_addr ExP.new6.
Proof. split; [done|]. repeat constructor; lia. Qed.
End ExPFacts.

(** ** Checksums *)

(** C28: the checksum routines compute what their standards define, for data
    below 64 kB.  [csum] ends after at most two foldings with the complement
    of the one's complement sum of the 16-bit words; data to which their
    checksum is appended pass the check; the incremental update of
    [recalc_csum16] equals the checksum of the changed data, unless these are
    all zero.  [crc32c], with its table of 256 entries, is the division by
    the polynomial 0x1EDC6F41 bit by bit, and no change of a single byte goes
    unnoticed. *)
Theorem checksums_reference data :
  Forall is_byte data → Z.of_nat (length data) < 65534 →
  csum data = Ret (65535 - onesum (wsum true data)) ∧
  (∀ c, csum data = Ret c → Nat.even (length data) = true →
     csum (data ++ [c mod 2 ^ 8; c / 2 ^ 8]) = Ret 0) ∧
  (∀ pre x y post x' y' c, data = pre ++ x :: y :: post → Nat.even (length pre) = true →
     is_byte x' → is_byte y' → csum data = Ret c → wsum true (pre ++ x' :: y' :: post) ≠ 0 →
     recalc_csum16 c (host16 x y) (host16 x' y') = csum (pre ++ x' :: y' :: post)) ∧
  crc32c data = crc_reference data ∧
  (∀ pre x post y, data = pre ++ x :: post → is_byte y → x ≠ y →
     crc32c data ≠ crc32c (pre ++ y :: post)).
Proof.
  intros Hd Hl. split_and!.
  - by apply csum_spec; [|lia].
  - intros c Hc He. by apply csum_appended.
  - intros pre x y post x' y' c -> He Hx Hy Hc Hnz. by apply recalc_is_csum; [..|lia|done|done|done].
  - by apply crc32c_spec.
  - intros pre x post y -> Hy Hne. by apply crc32c_detects.
Qed.

Lemma checksums_reference_witness :
  csum [69; 0; 0; 32] = Ret (65535 - onesum (wsum true [69; 0; 0; 32])) ∧
  recalc_csum16 57274 8192 8448 = csum [69; 0; 0; 33] ∧
  crc32c [69; 0; 0; 32] = crc_reference [69; 0; 0; 32] ∧
  crc32c [69; 0; 0; 32] ≠ crc32c [69; 0; 1; 32].
Proof.
  destruct (checksums_reference [69; 0; 0; 32]) as (H1 & _ & H3 & H4 & H5);
    [repeat constructor; lia|simpl; lia|].
  split_and!; [exact H1| |exact H4|].
  - apply (H3 [69; 0] 0 32 [] 0 33 57274);
      [reflexivity|reflexivity|unfold is_byte; lia|unfold is_byte; lia|vm_compute; reflexivity
      |vm_compute; discriminate].
  - apply (H5 [69; 0] 0 [32] 1); [reflexivity|unfold is_byte; lia|lia].
Defined.

(** ** IPv4 *)

(** C21: setting the addresses, the type of service and the time to live of
    an IPv4 packet with correct layer offsets returns, with the four fields as
    asked and every byte outside of them and of the checksum fields as it was.
    A correct header checksum stays correct, and so does a correct TCP or UDP
    checksum; a UDP datagram without a checksum does not get one, and one with
    a checksum does not lose it. *)
Theorem packet_set_ipv4_correct nh hl th len b src dst tos ttl :
  ipv4_at nh hl th len b →
  0 ≤ src < 2 ^ 32 → 0 ≤ dst < 2 ^ 32 → 0 ≤ tos < 256 → 0 ≤ ttl < 256 →
  returns (packet_set_ipv4 b src dst tos ttl) (λ b',
    ipv4_at nh hl th len b' ∧
    word32 b' (nh + ip_src) = src ∧ word32 b' (nh + ip_dst) = dst ∧
    byte b' (nh + ip_tos) = tos ∧ byte b' (nh + ip_ttl) = ttl ∧
    (header_ok nh hl b → header_ok nh hl b') ∧
    csum_at nh th len b' = csum_at nh th len b ∧
    (csum_at nh th len b ≠ None → transport_ok nh th len b → transport_ok nh th len b') ∧
    ∀ q, 0 ≤ q → ¬ fields nh q → ¬ csum_byte nh th len b q → byte b' q = byte b q).
Proof.
  intros HP Hsrc Hdst Htos Httl.
  destruct (set_ipv4_keeps nh hl th len b src dst tos ttl) as (b' & Heq & HK & F1 & F2 & F3 & F4); [done..|].
  destruct (keeps_checksums nh hl th len b b' HP HK) as [Hh Ht].
  exists b'. split; [exact Heq|]. split_and!; [|done..|apply HK|done|apply HK].
  by eapply keeps_ipv4.
Qed.

Lemma packet_set_ipv4_correct_witness :
  returns (packet_set_ipv4 ExP.udp 0x0100000a 0x0300000a 4 63) (λ b',
    header_ok 14 20 b' ∧ transport_ok 14 34 12 b' ∧ word32 b' 30 = 0x0300000a).
Proof.
  destruct (packet_set_ipv4_correct 14 20 34 12 ExP.udp 0x0100000a 0x0300000a 4 63)
    as (b' & Heq & _ & _ & Hd & _ & _ & Hh & _ & Ht & _); [apply ExPFacts.udp_at|lia..|].
  destruct ExPFacts.udp_checksums as (C1 & C2 & C3).
  exists b'. split; [exact Heq|]. split_and!; [apply Hh, C1|apply Ht; [exact C2|exact C3]|exact Hd].
Defined.

(** ** Transport headers *)

(** ** Neighbor discovery *)




(** ** IPv6 *)



(** The region of both addresses. *)
Lemma region_addresses nh th len b : ipv6_at nh th len b →
  region b (nh + ip6_src) 32 = region b (nh + ip6_src) 16 + region b (nh + ip6_dst) 16.
Proof.
  intros HP. destruct (inside6 nh th len b HP) as (Hok & Hnh & Hth & Hlen & Hs). unfold ip6_src, ip6_dst.
  assert (∀ k : nat, (k ≤ 8)%nat → region b (nh + 8) (16 + 2 * Z.of_nat k) =
    region b (nh + 8) (2 * Z.of_nat k) + region b (nh + 8 + 2 * Z.of_nat k) 16) as H.
  { enough (∀ k : nat, ∀ a, 0 ≤ a → a + 16 + 2 * Z.of_nat k ≤ psize b →
      region b a (16 + 2 * Z.of_nat k) = region b a (2 * Z.of_nat k) + region b (a + 2 * Z.of_nat k) 16)
      as H by (intros k Hk; apply H; lia).
    induction k as [|k IH]; intros a Ha Hb.
    - rewrite !Z.mul_0_r, !Z.add_0_r, region_nil. done.
    - replace (16 + 2 * Z.of_nat (S k)) with (16 + 2 * Z.of_nat k + 2) by lia.
      replace (2 * Z.of_nat (S k)) with (2 * Z.of_nat k + 2) by lia.
      rewrite !region_cons, IH by lia. replace (a + (2 * Z.of_nat k + 2)) with (a + 2 + 2 * Z.of_nat k) by lia.
      lia. }
  specialize (H 8%nat ltac:(lia)). simpl in H. replace (nh + 24) with (nh + 8 + 16) by lia. done.
Qed.

(** Behind a routing header the segment stays as it is. *)
Lemma routing_header_stale nh th len b src dst tc fl hlim proto :
  ipv6_at nh th len b → packet_rh_present b 0 = Ret (true, proto) →
  in6_addr src → in6_addr dst → 0 ≤ tc < 256 → 0 ≤ fl < 2 ^ 20 → 0 ≤ hlim < 256 →
  returns (packet_set_ipv6 b src dst tc (ntohl fl) hlim) (λ b',
    addr4 b' (nh + ip6_src) = src ∧ (∀ q, th ≤ q → byte b' q = byte b q) ∧
    ∀ rest, 0 < rest < 2 ^ 20 →
      segment_ok (region b (nh + ip6_src) 16 + rest) b th len →
      segment_ok (region b' (nh + ip6_src) 16 + rest) b' th len ↔
      cong (zsum (addr4 b (nh + ip6_src))) (zsum src)).
Proof.
  intros HP. pose proof (inside6 nh th len b HP) as (Hok & Hnh & Hth & Hlen & Hs).
  pose proof (v6_len _ _ _ _ HP) as Hlen'.
  intros Hrh Hsrc Hdst Htc Hfl Hhl.
  destruct (rh_present_returns nh th len b HP) as ([rh' proto'] & Heq0 & Hrt). rewrite Hrh in Heq0.
  injection Heq0 as <- <-. specialize (Hrt eq_refl). subst proto.
  destruct (set_ipv6_keeps nh th len IPPROTO_ROUTING b src dst tc fl hlim true)
    as (b' & Heq & HK & F1 & _); [done..|].
  pose proof (keeps6_ipv6 _ _ _ _ _ _ _ HP HK) as HP'.
  destruct (inside6 nh th len b' HP') as (Hok' & _ & _ & _ & Hs').
  assert (∀ q, th ≤ q → byte b' q = byte b q) as Hseg.
  { intros q Hq. apply (k6_frame _ _ _ _ _ _ _ HK); [lia| |].
    - unfold fields6, ip6_flow, ip6_hlim, ip6_src. lia.
    - by intros (p & Hp & _). }
  exists b'. split; [exact Heq|]. split_and!; [done|done|]. intros rest Hrest.
  assert (region b' th len = region b th len) as Hreg by (apply region_frame; [lia..|done]).
  pose proof (region_range b (nh + ip6_src) 16 Hok). pose proof (region_range b' (nh + ip6_src) 16 Hok').
  pose proof (region_range b th len Hok Hlen).
  rewrite !segment_ok_iff by (done || lia). rewrite Hreg. intros [_ [j Hj]].
  destruct (addr4_region b (nh + ip6_src) Hok) as [k1 K1]; [unfold ip6_src; lia..|].
  destruct (addr4_region b' (nh + ip6_src) Hok') as [k2 K2]; [unfold ip6_src; lia..|].
  rewrite F1 in K2. split.
  - intros [_ [i Hi]]. exists (i - j + k1 - k2). lia.
  - intros [i Hi]. split; [lia|]. exists (j + i - k1 + k2). lia.
Qed.

(** The protocol is a byte of the wrong half of its word. *)
Lemma pseudoheader6_misplaces_protocol nh th len b partial :
  ipv6_at nh th len b → packet_csum_pseudoheader6 b nh = Ret partial →
  ntohs (word16 b (nh + ip6_plen)) = len → byte b (nh + ip6_nxt) ≠ 0 →
  segment_ok partial b th len →
  ¬ segment_ok (pseudo6 nh len (byte b (nh + ip6_nxt)) b) b th len.
Proof.
  intros HP. pose proof (inside6 nh th len b HP) as (Hok & Hnh & Hth & Hlen & Hs).
  pose proof (v6_len _ _ _ _ HP) as Hlen'.
  intros Hp Hplen Hnxt. rewrite (pseudoheader6_Ret nh th len b HP) in Hp. injection Hp as <-.
  pose proof (region_range b (nh + ip6_src) 16 Hok). pose proof (region_range b (nh + ip6_dst) 16 Hok).
  pose proof (region_range b th len Hok Hlen).
  pose proof (byte_ok b (nh + ip6_nxt) Hok). pose proof (word16_ok b (nh + ip6_plen) Hok) as Hw.
  assert (htons (u16 len) = word16 b (nh + ip6_plen)) as Hh.
  { rewrite <-Hplen, u16_small by (pose proof (ntohs_range (word16 b (nh + ip6_plen))); lia).
    unfold short in Hw. unfold htons, ntohs, host16. Z.to_euclidean_division_equations. lia. }
  unfold pseudo6. rewrite Hh, (region_addresses nh th len b HP). unfold short in Hw.
  rewrite !segment_ok_iff by (done || lia). intros [_ [j Hj]] [_ [i Hi]].
  assert (byte b (nh + ip6_nxt) = 257 * (i - j)) by lia. lia.
Qed.

(** Two mistakes with IPv6 checksums.  Behind a routing header with
    segments left [packet_set_ipv6] does not see the transport protocol: it
    changes the source address and leaves the segment as it is, so that a
    segment that was correct is accepted afterwards only if the two source
    addresses have the same one's complement sum, whatever the rest of the
    pseudo-header is.  And [packet_csum_pseudoheader6] adds the next header in
    host byte order: on a little-endian host no segment passes the check with
    it and with the pseudo-header of RFC 2460. *)
Lemma ipv6_checksums_stale nh th len b :
  ipv6_at nh th len b →
  (∀ src dst tc fl hlim proto, packet_rh_present b 0 = Ret (true, proto) →
   in6_addr src → in6_addr dst → 0 ≤ tc < 256 → 0 ≤ fl < 2 ^ 20 → 0 ≤ hlim < 256 →
   returns (packet_set_ipv6 b src dst tc (ntohl fl) hlim) (λ b',
     addr4 b' (nh + ip6_src) = src ∧ (∀ q, th ≤ q → byte b' q = byte b q) ∧
     ∀ rest, 0 < rest < 2 ^ 20 →
       segment_ok (region b (nh + ip6_src) 16 + rest) b th len →
       segment_ok (region b' (nh + ip6_src) 16 + rest) b' th len ↔
       cong (zsum (addr4 b (nh + ip6_src))) (zsum src))) ∧
  (∀ partial, packet_csum_pseudoheader6 b nh = Ret partial →
   ntohs (word16 b (nh + ip6_plen)) = len → byte b (nh + ip6_nxt) ≠ 0 →
   segment_ok partial b th len →
   ¬ segment_ok (pseudo6 nh len (byte b (nh + ip6_nxt)) b) b th len).
Proof.
  intros HP. split.
  - intros src dst tc fl hlim proto. by apply routing_header_stale.
  - intros partial. by apply pseudoheader6_misplaces_protocol.
Qed.

Lemma ipv6_checksums_stale_witness :
  returns (packet_set_ipv6 ExP.routed ExP.new6 ExP.new6 7 (ntohl 9) 64) (λ b',
    addr4 b' 22 = ExP.new6 ∧
    (segment_ok (region b' 22 16 + 8703) b' 62 12 ↔ cong (zsum (addr4 ExP.routed 22)) (zsum ExP.new6))) ∧
  ¬ segment_ok (pseudo6 14 32 58 (ExP.nd 1 63 198)) (ExP.nd 1 63 198) 54 32.
Proof.
  split.
  - destruct (proj1 (ipv6_checksums_stale 14 62 12 ExP.routed ExPFacts.routed_at) ExP.new6 ExP.new6 7 9 64 43)
      as (b' & Heq & Hs & _ & Hc);
      [vm_compute; reflexivity|apply ExPFacts.new6_in6|apply ExPFacts.new6_in6|lia..|].
    exists b'. split; [exact Heq|]. split; [exact Hs|]. apply (Hc 8703); [lia|]. vm_compute. reflexivity.
  - apply (proj2 (ipv6_checksums_stale 14 54 32 (ExP.nd 1 63 198) ExPFacts.nd_bad_at) 42807);
      [vm_compute; reflexivity|vm_compute; reflexivity|vm_compute; discriminate|vm_compute; reflexivity].
Defined.

(** ** VLAN tags and MPLS labels *)

Module ExT.
(** The datagram with 64 bytes in front of it. *)
Definition plain : frame := mkFrame ExP.udp (replicate 64 0) UINT16_MAX DPBUF_DPDK.
Definition uninit (_ : nat) : Z := 0xcc.
End ExT.

Module ExTFacts.
Lemma plain_taggable : taggable ExT.plain.
Proof. split; unfold offset_ok, fr_size, dp_packet_size; simpl; unfold UINT16_MAX; lia. Qed.
Lemma plain_layout : layout ExT.plain (replicate 12 0) [] 8 (drop 14 (fr_data ExT.plain)).
Proof. split; [reflexivity|done|by left|unfold short; lia|discriminate|reflexivity]. Qed.
End ExTFacts.

(** C24: [eth_push_vlan] puts the four bytes of the tag, without its CFI bit,
    between the addresses and the type of a packet that has room for them or
    may be moved, and advances the offsets of the layers that follow;
    [eth_pop_vlan] then gives back the bytes and the offsets of the packet.  A
    packet without room in memory of DPDK aborts the switch.  [push_mpls] puts
    a label stack entry behind the tags, sets the type and, on the first
    entry, the offset of the stack; [pop_mpls] with the former type undoes it
    when the bottom-of-stack bit tells whether the entry was the first one;
    [set_mpls_lse] replaces the entry.  The entry that [set_mpls_lse_values]
    composes has the fields it was given, cut to their width. *)
Theorem tags_roundtrip uninit b :
  taggable b →
  (∀ tpid tci, 14 ≤ fr_size b → short tpid → eth_type_vlan tpid = true →
     if bool_decide (length (headroom b) < 4)%nat && bool_decide (source b ∈ [DPBUF_STACK; DPBUF_DPDK])
     then eth_push_vlan uninit b tpid tci = Fault AssertFail
     else returns (eth_push_vlan uninit b tpid tci) (λ b',
       tagged b (take 12 (fr_data b)) (bytes16 tpid ++ bytes16 (without_cfi tci)) (drop 12 (fr_data b)) b' ∧
       l2_5_ofs b' = dp_packet_adjust_layer_offset (l2_5_ofs b) 4 ∧
       returns (eth_pop_vlan uninit b') (λ b'', fr_ip b'' = fr_ip b ∧ l2_5_ofs b'' = l2_5_ofs b))) ∧
  (∀ addrs tags type payload t ttl tc bos label lse,
     layout b addrs tags type payload → room b 4 → eth_type_mpls t = true →
     0 ≤ ttl < 256 → 0 ≤ label < 2 ^ 32 → lse = set_mpls_lse_values ttl tc bos (ntohl label) →
     (mpls_lse_to_ttl lse = ttl ∧ mpls_lse_to_tc lse = tc mod 8 ∧
      mpls_lse_to_bos lse = Z.odd bos ∧ mpls_lse_to_label lse = label mod 2 ^ 20) ∧
     returns (push_mpls uninit b t lse) (λ b',
       tagged b (addrs ++ tags ++ bytes16 t) (bytes32 lse) payload b' ∧
       (∀ lse', returns (set_mpls_lse b' lse') (λ b'',
          tagged b (addrs ++ tags ++ bytes16 t) (bytes32 lse') payload b'')) ∧
       (Z.odd bos = negb (is_mpls b) →
        returns (pop_mpls uninit b' type) (λ b'', fr_ip b'' = fr_ip b ∧ l2_5_ofs b'' = l2_5_ofs b)))).
Proof.
  intros Htg. split.
  - intros tpid tci Hs Hv Hvlan. case_bool_decide as Hh; [case_bool_decide as Hsrc|]; cbn [andb].
    + apply vlan_no_room. intros [?|[H|H]]; [lia|..]; rewrite H in Hsrc; set_solver.
    + apply vlan_roundtrip; try done. destruct (source b) eqn:E; unfold room; set_solver.
    + apply vlan_roundtrip; try done. left. lia.
  - intros addrs tags type payload t ttl tc bos label lse HL Hroom Ht Httl Hlabel Hlse.
    destruct (lse_values ttl tc bos label lse) as (Hr & F1 & F2 & F3 & F4); [done..|]. split; [done|].
    destruct (mpls_roundtrip uninit b addrs tags type payload t lse) as (b' & Heq & Htd & HL' & Hm & Hpop); [done..|].
    exists b'. split; [exact Heq|]. split_and!; [done|..].
    + intros lse'. eexists. split; [by eapply set_mpls_lse_spec|]. split; [|apply Htd..].
      unfold fr_data. simpl. by rewrite <-!app_assoc.
    + intros Hb. apply Hpop. by rewrite F3.
Qed.

Lemma tags_roundtrip_witness :
  returns (eth_push_vlan ExT.uninit ExT.plain (htons 0x8100) (htons 0x1064)) (λ b',
    returns (eth_pop_vlan ExT.uninit b') (λ b'', fr_ip b'' = ExP.udp)) ∧
  returns (push_mpls ExT.uninit ExT.plain (htons 0x8847) (set_mpls_lse_values 64 5 1 (ntohl 1000))) (λ b',
    returns (pop_mpls ExT.uninit b' 8) (λ b'', fr_ip b'' = ExP.udp)).
Proof.
  destruct (tags_roundtrip ExT.uninit ExT.plain ExTFacts.plain_taggable) as [Hv Hm]. split.
  - destruct (Hv (htons 0x8100) (htons 0x1064)) as (b' & Heq & _ & _ & b'' & Heq' & Hip & _);
      [by vm_compute|by vm_compute|reflexivity|].
    exists b'. split; [exact Heq|]. exists b''. split; [exact Heq'|exact Hip].
  - destruct (Hm (replicate 12 0) [] 8 (drop 14 (fr_data ExT.plain)) (htons 0x8847) 64 5 1 1000
      (set_mpls_lse_values 64 5 1 (ntohl 1000)) ExTFacts.plain_layout) as (_ & b' & Heq & _ & _ & Hpop);
      [left; simpl; lia|reflexivity|lia|lia|reflexivity|].
    destruct (Hpop eq_refl) as (b'' & Heq' & Hip & _).
    exists b'. split; [exact Heq|]. exists b''. split; [exact Heq'|exact Hip].
Defined.
