(* ===== verification/OfpTextProps.v ===== *)
(** * Properties of the text of the GTP actions (lib/ofp-actions.c, lib/ofp-parse.c) *)
From Stdlib Require Import ZArith Lia Ascii String.
From stdpp Require Import base list numbers option.
From S2P Require Import Prelude GtpWire OfpActions OfpActionsProofs Text TextProofs OfpText OfpTextProofs.
Open Scope Z_scope.

Section Text.
Context {ld : Type}.
Variable strtold : cstr → option ld.
Variable other_view : Z → action_view.
Variable format_other : Z → cstr.
Variable parse_named : cstr → cstr → option (parse_error + list ofpact * Z).
Variable port_from_string : cstr → option ofpact.

(** C18: Formatting a list of GTP actions and parsing the text gives the
    actions back, whatever the other actions are; an action without argument
    gets the OpenFlow 1.0 encoding. *)
Theorem text_roundtrip l allow :
  l ≠ [] → Forall wf_gtp l →
  ofpacts_parse strtold other_view parse_named port_from_string (ofpacts_format format_other l)
    [] allow NEST_NONE = Ret (None, with_raw 1 <$> l).
Proof. apply parse_format. Qed.


(** A parenthesis that is never closed. *)
Lemma unclosed_overreads (value : cstr) ofpacts allow outer :
  41 ∉ value →
  ofpacts_parse strtold other_view parse_named port_from_string
    (cstring "handle_gtp" ++ 40 :: value) ofpacts allow outer = Fault OutOfBounds.
Proof.
  intros Hv. unfold ofpacts_parse, ofpacts_parse__.
  assert (∃ n, length (cstring "handle_gtp" ++ 40 :: value) = S n) as [n ->] by (by eexists).
  rewrite unclosed_faults; try done.
  - by apply (bool_decide_unpack _).
  - intros ty Hty. vm_compute in Hty. injection Hty as <-. by eexists.
  - by left.
Qed.

(** Numbers that are too large. *)
Lemma numbers_wrap v k :
  0 ≤ v < 2 ^ 16 → 0 ≤ k < 2 ^ 31 →
  parse_OVS_ID (fmt_d (v + k * 2 ^ 32)) = inr (OVS_ID v) ∧
  parse_GTP_TEID (fmt_sharp_x (v + k * 2 ^ 32)) = inr (GTP_TEID v).
Proof.
  intros Hv Hk. split.
  - unfold parse_OVS_ID, str_to_u16. rewrite str_to_int_wraps by lia.
    cbn [negb orb]. rewrite (proj2 (Z.ltb_ge v 0)), Z.gtb_ltb, (proj2 (Z.ltb_ge 65535 v)) by lia.
    done.
  - unfold parse_GTP_TEID, str_to_u32. rewrite bool_decide_false.
    + unfold strtoul. rewrite strto_hex by lia. rewrite (proj2 (Z.ltb_lt _ (2 ^ 64))) by lia.
      cbn [sum_map]. unfold u32. by rewrite Z_mod_plus_full, Z.mod_small by lia.
    + unfold fmt_sharp_x. by case_match.
Qed.

(** Wrong text is not always refused.  After a parenthesis that is never
    closed, ofputil_parse_key_value() leaves the position one past the
    terminator, and the next round of ofpacts_parse__() reads outside the
    string.  A number that does not fit its argument is accepted when only its
    bits above the 32nd are wrong: str_to_int() and str_to_u32() drop them. *)
Lemma wrong_text_accepted (value : cstr) ofpacts allow outer v k :
  41 ∉ value → 0 ≤ v < 2 ^ 16 → 0 ≤ k < 2 ^ 31 →
  ofpacts_parse strtold other_view parse_named port_from_string
    (cstring "handle_gtp" ++ 40 :: value) ofpacts allow outer = Fault OutOfBounds ∧
  parse_OVS_ID (fmt_d (v + k * 2 ^ 32)) = inr (OVS_ID v) ∧
  parse_GTP_TEID (fmt_sharp_x (v + k * 2 ^ 32)) = inr (GTP_TEID v).
Proof. intros Hval Hv Hk. split; [by apply unclosed_overreads|by apply numbers_wrap]. Qed.
End Text.

(** ** Examples *)
Module ExT.
Definition no_ld (s : cstr) : option unit := None.
Definition no_view (n : Z) : action_view := gtp_view.
Definition no_format (n : Z) : cstr := cstring "output:1".
Definition no_names (key value : cstr) : option (parse_error + list ofpact * Z) := None.
Definition no_port (key : cstr) : option ofpact := None.
(** Registering the gateway 10.0.0.3. *)
Definition add : list ofpact :=
  [OPERATE_GTP 1; GTP_PGW_IP 0x0300000a; GTP_PGW_PORT 6; GTP_PGW_ETH 0x020000000005;
   GTP_TEID 0x1234; HANDLE_GTP (RAW_GTP E12 T_HANDLE_GTP)].
End ExT.

Lemma text_roundtrip_witness :
  ofpacts_format ExT.no_format ExT.add =
    cstring "operate_gtp:1,gtp_pgw_ip:10.0.0.3,gtp_pgw_port:6,gtp_pgw_eth:02:00:00:00:00:05,gtp_teid:0x1234,handle_gtp" ∧
  ofpacts_parse ExT.no_ld ExT.no_view ExT.no_names ExT.no_port
    (ofpacts_format ExT.no_format ExT.add) [] false NEST_NONE = Ret (None, with_raw 1 <$> ExT.add).
Proof.
  split; [vm_compute; reflexivity|]. apply text_roundtrip; [discriminate|].
  repeat (apply Forall_cons_2; [simpl; lia || exact I|]). apply Forall_nil_2.
Defined.


Lemma wrong_text_accepted_witness :
  ofpacts_parse ExT.no_ld ExT.no_view ExT.no_names ExT.no_port
    (cstring "handle_gtp" ++ 40 :: cstring "1") [] false NEST_NONE = Fault OutOfBounds ∧
  parse_OVS_ID (cstring "4294967303") = inr (OVS_ID 7) ∧
  parse_GTP_TEID (cstring "0x100000007") = inr (GTP_TEID 7).
Proof.
  apply (wrong_text_accepted ExT.no_ld ExT.no_view ExT.no_names ExT.no_port (cstring "1") [] false
    NEST_NONE 7 1); [|lia..]. apply (bool_decide_unpack _). vm_compute. exact I.
Defined.
