(* ===== verification/ReconnectProps.v ===== *)
(** * Properties of the connection state machine (lib/reconnect.c) *)
From Stdlib Require Import ZArith Lia String.
From stdpp Require Import base list numbers option.
From S2P Require Import Prelude Reconnect ReconnectProofs.
Open Scope Z_scope.




(** Sample machines. *)
Module Ex.
Definition get (c : outcome reconnect) : reconnect :=
  match c with Ret f => f | _ => reconnect_create 0 end.
(** Enabled at time 0, with [n] tries left. *)
Definition waiting (n : Z) : reconnect :=
  get (reconnect_enable (reconnect_set_max_tries (reconnect_create 0) (n + 1)) 0).
(** Waiting for its second attempt. *)
Definition backing_off : reconnect := get (reconnect_connect_failed (waiting 5) 10 111).

Lemma waiting_inv n : 0 ≤ n < UINT_MAX - 1 → rinv 0 (waiting n).
Proof.
  intros Hn. unfold waiting, reconnect_enable, reconnect_may_retry. simpl.
  rewrite (proj2 (Z.gtb_lt (n + 1) 0)) by lia.
  rewrite (proj2 (Z.eqb_neq (n + 1) UINT_MAX)) by lia. simpl.
  split; stamps; simpl; limits; lia.
Qed.
End Ex.

(** C37: A machine that is about to make its first attempt, after [n] attempts
    in a row that all failed, waits min_backoff, then twice as long each time,
    until the wait reaches max_backoff and stays there; each failure uses up
    one try, and the machine disables itself when a failure finds none left. *)
Theorem reconnect_backs_off e t f l :
  rinv t f → r_state f = S_BACKOFF → backoff f = 0 → l ≠ [] →
  calls_ok t (map (λ now, (now, CConnectFailed e)) l) = true →
  returns (run_calls f (map (λ now, (now, CConnectFailed e)) l)) (λ f',
    backoff f' = backoff_after (min_backoff f) (max_backoff f) (length l) ∧
    r_state f' = if (max_tries f =? UINT_MAX) || (Z.of_nat (length l) <=? max_tries f)
                 then S_BACKOFF else S_VOID).
Proof.
  intros H Es Eb Hne Hl.
  eapply returns_mono; [apply (failures_back_off e l 0 (max_tries f) t f); try done|].
  - unfold reconnect_is_connected. by rewrite Es.
  - intros f' (_ & Eb' & Es'). split; [done|].
    assert (length l ≠ 0%nat) as Hlen by (by destruct l).
    rewrite Es' by done. rewrite tries_left by apply H. simpl.
    replace (Z.of_nat (pred (length l)) <? max_tries f)
      with (Z.of_nat (length l) <=? max_tries f); [done|].
    destruct (Z.leb_spec (Z.of_nat (length l)) (max_tries f)),
      (Z.ltb_spec (Z.of_nat (pred (length l))) (max_tries f)); try done; lia.
Qed.

Lemma reconnect_backs_off_witness :
  backoff_after 1000 8000 4 = 8000 ∧
  returns (run_calls (Ex.waiting 3) [(1, CConnectFailed 111); (2, CConnectFailed 111);
      (3, CConnectFailed 111); (4, CConnectFailed 111)]) (λ f',
    backoff f' = backoff_after 1000 8000 4 ∧ r_state f' = S_VOID).
Proof.
  split; [reflexivity|].
  apply (reconnect_backs_off 111 0 (Ex.waiting 3) [1; 2; 3; 4]);
    [apply Ex.waiting_inv; unfold UINT_MAX; lia|reflexivity|reflexivity|discriminate|reflexivity].
Defined.

(** C38: reconnect_timeout() is exact: when it says [timeout] milliseconds,
    reconnect_run() asks for nothing before, and asks for something then
    (unless the answer was cut to INT_MAX); when it returns -1,
    reconnect_run() has nothing to ask for ever. *)
Theorem reconnect_timeout_exact now f :
  rinv now f →
  returns (reconnect_timeout f now) (λ timeout,
    (timeout = -1 ∧ ∀ t, now ≤ t < LLONG_MAX → reconnect_run f t = Ret (None, f)) ∨
    (0 ≤ timeout ≤ INT_MAX ∧
     (∀ t, now ≤ t < now + timeout → reconnect_run f t = Ret (None, f)) ∧
     (timeout < INT_MAX → now + timeout ≤ 2 ^ 62 →
      returns (reconnect_run f (now + timeout)) (λ '(a, _), is_Some a)))).
Proof.
  intros H. pose proof (deadline_ok now f H) as Hok. pose proof (ri_now _ _ H) as Hn.
  unfold reconnect_timeout. destruct (deadline f) as [d|] eqn:Ed.
  - destruct Hok as [-> Hd]. simpl. rewrite (proj2 (Z.eqb_neq d LLONG_MAX)) by (limits; lia).
    simpl. rewrite llong_Ret by (limits; lia). apply returns_ret. right.
    split; [limits; lia|]. split.
    + intros t Ht. apply (run_early now); [done|limits; lia|]. rewrite Ed.
      intros d' [= <-]. limits. lia.
    + intros Hlt Hle. eapply returns_mono; [apply (run_due now _ f d H); [lia|done|limits; lia]|].
      by intros [a f'] (_ & Ha & _).
  - rewrite Hok. simpl. apply returns_ret. left. split; [done|]. intros t Ht.
    apply (run_early now); [done|lia|]. congruence.
Qed.

Lemma reconnect_timeout_exact_witness :
  rinv 0 (Ex.waiting 3) ∧ reconnect_timeout (Ex.waiting 3) 0 = Ret 0 ∧
  returns (reconnect_timeout (Ex.waiting 3) 0) (λ timeout,
    (timeout = -1 ∧ ∀ t, 0 ≤ t < LLONG_MAX →
       reconnect_run (Ex.waiting 3) t = Ret (None, Ex.waiting 3)) ∨
    (0 ≤ timeout ≤ INT_MAX ∧
     (∀ t, 0 ≤ t < 0 + timeout → reconnect_run (Ex.waiting 3) t = Ret (None, Ex.waiting 3)) ∧
     (timeout < INT_MAX → 0 + timeout ≤ 2 ^ 62 →
      returns (reconnect_run (Ex.waiting 3) (0 + timeout)) (λ '(a, _), is_Some a)))).
Proof.
  split; [apply Ex.waiting_inv; unfold UINT_MAX; lia|]. split; [reflexivity|].
  apply (reconnect_timeout_exact 0 (Ex.waiting 3)). apply Ex.waiting_inv; unfold UINT_MAX; lia.
Defined.



(** Passing 0 for max_backoff, which stands for the default of 8 seconds,
    to a machine that is waiting to reconnect sets its current wait to 0: the
    machine asks to connect at once. *)
Theorem set_backoff_default_drops_wait f mn now :
  r_state f = S_BACKOFF → 0 < backoff f → state_entered f ≤ now → 0 ≤ state_entered f →
  now ≤ 2 ^ 62 →
  backoff (reconnect_set_backoff f mn 0) = 0 ∧
  8000 ≤ max_backoff (reconnect_set_backoff f mn 0) ∧
  reconnect_run (reconnect_set_backoff f mn 0) now =
    Ret (Some RECONNECT_CONNECT, reconnect_set_backoff f mn 0).
Proof.
  intros Es Hb He H0 Hn.
  assert (backoff (reconnect_set_backoff f mn 0) = 0 ∧
          8000 ≤ max_backoff (reconnect_set_backoff f mn 0) ∧
          r_state (reconnect_set_backoff f mn 0) = S_BACKOFF ∧
          state_entered (reconnect_set_backoff f mn 0) = state_entered f)
    as (E1 & E2 & E3 & E4).
  { unfold reconnect_set_backoff. simpl. rewrite Es. simpl.
    rewrite (proj2 (Z.gtb_lt _ _) Hb). simpl. split_and!; try done. limits.
    destruct (Z.gtb_spec (Z.max mn 1000) 8000); lia. }
  split_and!; try done. unfold reconnect_run, reconnect_deadline__. rewrite E3, E1, E4.
  rewrite (proj2 (Z.eqb_neq (state_entered f) LLONG_MIN)) by (limits; lia). simpl.
  rewrite llong_Ret by (limits; lia). simpl. rewrite Z.geb_leb.
  by rewrite (proj2 (Z.leb_le _ _)) by lia.
Qed.

Lemma set_backoff_default_drops_wait_witness :
  backoff (reconnect_set_backoff Ex.backing_off 1000 0) = 0 ∧
  8000 ≤ max_backoff (reconnect_set_backoff Ex.backing_off 1000 0) ∧
  reconnect_run (reconnect_set_backoff Ex.backing_off 1000 0) 10 =
    Ret (Some RECONNECT_CONNECT, reconnect_set_backoff Ex.backing_off 1000 0).
Proof.
  apply (set_backoff_default_drops_wait Ex.backing_off 1000 10);
    [reflexivity|reflexivity|vm_compute; discriminate|vm_compute; discriminate|lia].
Defined.
