(* ===== verification/DatapathProps.v ===== *)
(** * From the GTP manager to the wire: properties

    What the datapath does with the packets and the actions it is given, what
    translation gives it, and both together behind the handlers of the GTP
    manager. *)
From Stdlib Require Import ZArith Lia.
From stdpp Require Import base list gmap numbers option.
From S2P Require Import Prelude Hash Cmap CmapRefine CmapReplace MapIface GtpWire GtpWireProofs Csum CsumProofs Packets PacketsProofs PacketsIpv4 PacketsL4 PacketsNd Tags OdpExecute OdpTyped OdpExecuteProofs OdpCommit OdpCommitProofs OdpPackets GtpManager GtpPgw GtpMaps GtpSessions GtpDelete GtpHandlers GtpInit GtpPackets GtpForward.
Open Scope Z_scope.

Module ExD.
(** A user packet of the session with TEID 0x55, from 10.0.0.9 to 10.0.0.8. *)
Definition eth_header : list Z := [0; 0; 0; 0; 0; 0; 2; 0; 0; 0; 0; 9; 8; 0].
Definition ip_header_bytes : list Z := [69; 0; 0; 40; 0; 0; 0; 0; 64; 17; 102; 181; 10; 0; 0; 9; 10; 0; 0; 8].
Definition udp_header_bytes : list Z := [8; 104; 8; 104; 0; 20; 100; 121].
Definition user : ip_packet :=
  mkIpPacket (mkPacket (eth_header ++ ip_header_bytes ++ udp_header_bytes ++
    (encode_gtpu_header 16 255 4 0x55 ++ [69; 0; 0; 20])) 0 34) 14.
Definition pkt_of (b : ip_packet) : packet unit :=
  mkPkt (mkFrame b (replicate 128 0) UINT16_MAX DPBUF_MALLOC) (mkMd 0 0 0 0 tt).
(** Its flow. *)
Definition base : sflow :=
  mkSflow 0 0 0 (mkL2 [0; 0; 0] [0x0002; 0; 0x0900] (htons ETH_TYPE_IP) 0 [0; 0; 0])
    (mkL3 0x0900000a 0x0800000a [0; 0; 0; 0] [0; 0; 0; 0] 0 0 0 64 17 [0; 0; 0; 0] [0; 0; 0] [0; 0; 0])
    (mkL4 (htons GTPU_PORT) (htons GTPU_PORT)).
Definition masks : sflow :=
  mkSflow 0 0 0 (mkL2 [0; 0; 0] [0; 0; 0] 0xffff 0 [0; 0; 0])
    (mkL3 0 0 [0; 0; 0; 0] [0; 0; 0; 0] 0 0 0 0 255 [0; 0; 0; 0] [0; 0; 0] [0; 0; 0]) (mkL4 0 0).

Lemma user_at : ipv4_at 14 20 34 20 user.
Proof. split; try by vm_compute. check_bytes. Qed.
Lemma user_good : good (pkt_of user).
Proof. split; [apply user_at|by apply Forall_replicate]. Qed.

(** Its flow with another destination and a VLAN tag. *)
Definition target : sflow :=
  mkSflow 0 0 0 (mkL2 (mac_words 0x020000000003) [0x0002; 0; 0x0900] (htons ETH_TYPE_IP) (htons 0x1005) [0; 0; 0])
    (mkL3 0x0900000a 0x0200000a [0; 0; 0; 0] [0; 0; 0; 0] 0 0 0 64 17 [0; 0; 0; 0] [0; 0; 0] [0; 0; 0])
    (mkL4 (htons GTPU_PORT) (htons GTPU_PORT)).
Definition target_masks : sflow := set_dst masks 0xffffffff 0xffffffffffff.

Lemma target_masked : changes_masked target_masks target base.
Proof.
  split; [done|done|split|split; [..|split]|split]; try by vm_compute.
  all: try (apply agree_each_same; done).
  apply agree_each_exact; [apply mac_words_eth|]. split; [done|]. repeat constructor; unfold short; lia.
Qed.
Lemma target_settable : settable target base.
Proof.
  split; [split; by vm_compute|split; by vm_compute|by vm_compute|by left|split; [by right|by left]|].
  split; [|by split]. split; [by vm_compute|]. by left.
Qed.
End ExD.

(** ** Executing actions *)

(** C26: whatever actions are executed on a batch of packets whose bytes are
    bytes, with more fuel than sample actions are nested, the execution ends.
    If it does not fault, all the packets have been taken when it may steal
    them, and all of them are there, with bytes for bytes, when it may not; no
    packet is used after it was taken or freed.  Actions that need no help of
    the datapath do to a batch what they do to each of its packets alone. *)
Theorem execute_owns_packets {Dp Tnl : Type} uninit odp_tun_key_from_attr (hash_5tuple : packet Tnl → Z → Z)
    (callback : option (Dp → list (packet Tnl) → ovs_action → bool → outcome (Dp * list (packet Tnl))))
    fuel dp seed ps steal acts rest :
  (∀ i, is_byte (uninit i)) → callback_ok callback → Forall good ps → (depths (acts ++ rest) < fuel)%nat →
  ends (odp_execute_actions uninit odp_tun_key_from_attr hash_5tuple callback fuel dp seed (Some <$> ps) steal (acts ++ rest))
    (λ '(_, _, packets),
       if steal then packets = replicate (length ps) None
       else ∃ ps', packets = Some <$> ps' ∧ length ps' = length ps ∧ Forall good ps') ∧
  (forallb is_local acts = true → ∀ r,
   odp_execute_actions uninit odp_tun_key_from_attr hash_5tuple callback fuel dp seed (Some <$> ps) steal (acts ++ rest) = Ret r ↔
   ∃ ps', Forall2 (λ p p', local_actions uninit odp_tun_key_from_attr hash_5tuple acts p = Ret p') ps ps' ∧
     odp_execute_actions uninit odp_tun_key_from_attr hash_5tuple callback fuel dp seed (Some <$> ps') steal rest = Ret r).
Proof.
  intros Hu Hcb Hps Hd. split; [by apply (execute_owned uninit Hu)|]. intros Hl r.
  destruct fuel as [|fuel]; [lia|]. cbn [odp_execute_actions]. by apply loop_batch.
Qed.

Lemma execute_owns_packets_witness :
  ends (odp_execute_actions (λ _, 0) (λ _, None) (λ _ _, 0) (Some record_action) 1 [] 1
    [Some (ExD.pkt_of ExD.user)] true
    [OVS_ACTION_ATTR_PUSH_VLAN (htons 0x8100) (htons 0x1005); OVS_ACTION_ATTR_OUTPUT 3;
     OVS_ACTION_ATTR_POP_VLAN; OVS_ACTION_ATTR_OUTPUT 4]) (λ '(_, _, packets), packets = [None]).
Proof.
  destruct (execute_owns_packets (λ _, 0) (λ _, None) (λ _ _, 0) (Some record_action) 1 [] 1
    [ExD.pkt_of ExD.user] true [OVS_ACTION_ATTR_PUSH_VLAN (htons 0x8100) (htons 0x1005)]
    [OVS_ACTION_ATTR_OUTPUT 3; OVS_ACTION_ATTR_POP_VLAN; OVS_ACTION_ATTR_OUTPUT 4]) as (H & _);
    [unfold is_byte; lia| |apply Forall_singleton, ExD.user_good|apply Nat.ltb_lt; reflexivity|exact H].
  intros dp ps a steal Hps. split; [exact Hps|reflexivity].
Defined.

(** ** Committing changes *)

(** C25: when translation has changed [base] to [flow] in ways that actions
    can express (the members of the packet's protocol, its VLAN tag, its MPLS
    labels) and has put every changed bit in the masks, [commit_odp_actions]
    returns, and the actions it appends, executed in order on [base], give
    exactly [flow], which is then the base of the next commit. *)
Theorem commit_reaches_flow flow use_masked st :
  changes_masked (c_masks st) flow (c_base st) → settable flow (c_base st) →
  returns (commit_odp_actions flow use_masked st) (λ '(st', slow),
    c_base st' = flow ∧
    ∃ acts, c_actions st' = c_actions st ++ acts ∧ apply_actions acts (c_base st) = flow).
Proof.
  intros HM HS. destruct (commit_reaches flow use_masked st HM HS) as ([st' slow] & Heq & HC).
  by exists (st', slow).
Qed.

Lemma commit_reaches_flow_witness :
  returns (commit_odp_actions ExD.target true (mkCommit ExD.base ExD.target_masks [])) (λ '(st', slow),
    c_base st' = ExD.target ∧
    ∃ acts, c_actions st' = [] ++ acts ∧ apply_actions acts ExD.base = ExD.target).
Proof.
  apply (commit_reaches_flow ExD.target true (mkCommit ExD.base ExD.target_masks [])).
  - apply ExD.target_masked.
  - apply ExD.target_settable.
Defined.

(** ** A packet of a session *)

Section Delivered.
Context `{HF : HashFns} `{ML : MapLaws T} {Tnl : Type}.
Variable uninit : nat → Z.
Variable odp_tun_key_from_attr : list Z → option Tnl.
Variable hash_5tuple : packet Tnl → Z → Z.
Variable odp_port : Z → Z.
Context (nh hl th len : Z).

End Delivered.


